(* ===== verification/_CoqProject ===== *)
-Q . S2P
Prelude.v
Params.v
Layout.v
KState.v
Driver.v
Dll.v
Bio.v
Cache.v
Log.v
LogCrash.v
CString.v
FsBase.v
FsAlloc.v
Inode.v
Ext2.v
Vfs.v
Content.v
FileIO.v
Ext2Spec.v
Dir.v
Paths.v
Directory.v
Mkfs.v
MkfsSpec.v
Machine.v
MachineFs.v
MachineExt2.v
Pipe.v
Kalloc.v
Vm.v
VmSpec.v
Ulib.v
Grep.v
Printf.v
Console.v
Umalloc.v
Sh.v
Spinlock.v
Kbd.v
Mp.v
Proc.v
Kernel.v
File.v
Syscall.v
Process.v
SysFile.v
FileSpec.v
WriteSpec.v
Exec.v
Trap.v
MachineKernel.v
Interact.v
User.v
UserSpec.v
ShRun.v
Device.v
DeviceSpec.v
Boot.v
Sched.v
Protect.v
