(* ===== verification/Prelude.v ===== *)
(** * xv6-ext2: a verification development for the xv6 kernel with an ext2 file system

  The program is the xv6 teaching kernel for i386 (its C sources are in
  src/), changed so that a second file system, ext2, is mounted at [/mnt]
  beside the original one: file-system operations go through tables of
  function pointers ([struct inode_operations]), the second IDE disk holds
  the ext2 image, and the block size is 2048.  The development translates the
  C functions into Rocq functions, keeping their names, and proves what makes
  them correct.

  ** How the code is read

  - Kernel code is a function of a state monad, [M S A] below, whose outcomes
    are [Ret] (with the new state), [Panic], [Sleep] (the process blocks),
    [Fault] (an access outside an object, a null pointer, a division by zero)
    and [OutOfFuel].  [wp m Q s] is total correctness: [m] returns from [s],
    with a result and a state that satisfy [Q].  A theorem of the form
    [wp ...] therefore also says that the code does not panic, block, fault
    or run out of fuel.
  - Integers are [Z], with the conversions [u32], [s32], [u16], [s16] where
    the C code converts or can wrap.  Blocks, pages and strings are lists of
    bytes; structures on disk have decoders and encoders at the offsets the
    compiler gives the fields.  A pointer to an element of a global array is
    its index.
  - Loops that are not structural carry fuel; each definition that starts a
    loop passes a bound that its theorem shows to be enough (the bytes that
    remain plus one for [readi], [writei], [iappend] and grep, the number of
    entries of the table for the scans, the bits of a block for the bitmaps).
  - The file system, the log and the memory manager are read as one process
    runs them; spin locks make their critical sections atomic.  Where
    interleaving is the point (spin locks, pipes, the process table, the
    context switches) the functions are the steps of a relation and the
    theorems are invariants of every interleaving.
  - Programs that talk to something else (user programs to the kernel,
    drivers to a device) are interaction trees over their requests.  [must]
    of Interact.v is total correctness whatever the other side answers, of
    the answers its specification allows: every run ends, by returning or at
    a request that is never answered ([exit]).
  - A #define that only names a number (key codes, system-call numbers, trap
    and disk command numbers, most sizes) is a [Notation].
  - Code that is not C, and hardware, are parameters: typeclasses [DiskDriver]
    (what the buffer cache needs of [iderw]; both drivers are instances),
    [Devsw], [KStack], [Linker], [Heap], [Symbols].

  ** The files

  Foundations.  Prelude.v: the monad, [wp] and its tactics, machine integers,
  byte lists.  Params.v, Layout.v: the constants of the headers, the
  structures on disk with their round trips.  KState.v: the in-memory
  structures and the globals of the file-system side.  CString.v: string.c.

  Blocks.  Driver.v: sleeplock.c, ide.c, memide.c; the two drivers agree, and
  [idestart] addresses the sectors of the block.  Reads that the disk reports
  as failed are modelled ([fails]); the theorems of the layers above are for
  blocks whose reads do not fail ([dd_ok]).  Dll.v, Bio.v: bio.c at the
  level of its linked list.  Cache.v: the cache its clients see, an abstract
  state that the code refines step by step.  Log.v, LogCrash.v: log.c; a
  commit is atomic under a crash after any number of disk writes, recovery
  can itself be interrupted, and the end of the last operation makes its
  updates durable.

  The xv6 file system (fs.c).  FsBase.v: what file-system code may assume in a
  transaction.  FsAlloc.v: the block bitmap.  Inode.v: the inode cache.
  Vfs.v: contents of inodes and the calls through [iops].  Content.v,
  FileIO.v: [bmap], [readi], [writei]: the bytes of a file, durability of its
  inode, isolation of other files.  Dir.v, Paths.v, Directory.v: directories
  as maps from names to inode numbers, [skipelem], [namex].  Mkfs.v,
  MkfsSpec.v: mkfs.c, and the image it builds, on which the assumptions of the
  kernel's theorems hold.

  The ext2 file system (ext2fs.c).  Ext2.v, Vfs.v, Dir.v: the whole of the
  code.  Ext2Spec.v: writing and reading the directly addressed blocks of a
  file.  Bit [z] of a group's bitmap is taken for block [bg_block_bitmap + z],
  as the code does; the ext2 format takes it for block [z] of the group (see
  the findings of the manifest).  What is required of a bitmap, in the code's
  numbering, is shown to hold of the image that the Makefile builds
  (MachineExt2.v).

  Memory.  Kalloc.v: the allocator of pages.  Vm.v, VmSpec.v: page tables,
  [setupkvm], [copyuvm].  Umalloc.v: the allocator of user programs.

  Processes.  Spinlock.v: mutual exclusion.  Proc.v: the process table under
  every interleaving of fork, exit, wait, sleep, wakeup, kill, yield and the
  scheduler, each critical section being one step.  Sched.v: the same with
  the CPUs' schedulers and the processes' kernel threads, their locks and
  their context switches, with preemption by the clock and under the lock
  discipline of the callers: no check of [sched] or of the locks fails, no
  kernel stack is used by two CPUs, [sleep] loses no wakeup, and the machine
  refines that of Proc.v.  Protect.v: segment and gate descriptors as the
  processor reads them: user code enters the kernel only where it should.
  Pipe.v: the ring buffer, first in first out, without lost
  wakeups while no process is killed.

  The system-call layer.  Kernel.v: the state of the whole kernel.  File.v,
  FileSpec.v: file.c and the counting of references to open files.
  WriteSpec.v: [filewrite] as a sequence of transactions.  Syscall.v: fetching
  and checking arguments.  Process.v, SysFile.v, Exec.v, Trap.v: sysproc.c and
  proc.c on the whole state, sysfile.c, exec.c, trap.c and the dispatch.

  Devices and user programs.  Console.v, Kbd.v, Printf.v, Ulib.v, Grep.v,
  Sh.v: the console's line editor, the keyboard, formatted output, the user
  library, grep against the meaning of its patterns, the parser of the shell.
  Interact.v: interaction trees and [must].  User.v, UserSpec.v: the user
  programs; cat and wc against a kernel that splits reads as it likes, the
  others end whatever the kernel answers.  ShRun.v: the shell's [runcmd] and
  main loop; the processes and open files a command gives rise to are those
  it denotes.  Device.v, DeviceSpec.v: uart.c, lapic.c, ioapic.c, picirq.c and
  the polling of ide.c as port and register accesses; reading the clock gives
  a time it showed.  Boot.v: bootmain.c loads the kernel from a disk that is
  ready when it likes.
  Mp.v: mp.c, the search for the firmware's tables and the reading of their
  entries, which ends exactly when every entry is of a known type.

  Concrete states.  Machine.v, MachineFs.v, MachineExt2.v, MachineKernel.v:
  a booted kernel on a small disk, on which the theorems are exhibited.

  ** Not modelled

  - The assembly files (the boot sector's first part, [swtch], the trap
    vectors, the entry of the other processors), which are not C; a [swtch]
    is a step of Sched.v.
  - main.c: the order in which the other parts are initialised, and the
    start of the other processors through assembly code.
  - The instructions of user programs as a process runs them: what they do
    enters the kernel's model as the arguments of their system calls.  The
    programs of User.v meet a specification of the kernel, not its model.
  - procdump, getcallerpcs and the printing of panic, which serve debugging.
  - Two file-system calls running at once: sleep locks and the log admit
    this, and a call that would wait is the outcome [Sleep]; the theorems on
    files are about one call at a time.
  - The tests (usertests.c, ext2_test.c) and the main function of grep.c. *)
From stdpp Require Export base list list_numbers gmap functions strings.
From Stdlib Require Export ZArith Lia.

Global Set Default Goal Selector "!".
Declare Scope xv6_scope.
Delimit Scope xv6_scope with xv6.
Global Open Scope Z_scope.
Global Open Scope xv6_scope.

(** ** Outcomes of kernel code

  A kernel path runs in the context of one process.  It returns, or it
  calls [panic] (which never returns), or it blocks in [sleep], or it
  dereferences memory outside the object it points to ([Fault]); loops
  whose bound is not structural carry fuel. *)
Inductive outcome (S A : Type) : Type :=
| Ret (a : A) (s : S)
| Panic (msg : string)
| Sleep (why : string)
| Fault (why : string)
| OutOfFuel.
Arguments Ret {S A} a s.
Arguments Panic {S A} msg.
Arguments Sleep {S A} why.
Arguments Fault {S A} why.
Arguments OutOfFuel {S A}.

Definition M (S A : Type) : Type := S -> outcome S A.

Global Instance M_ret (S : Type) : MRet (M S) := fun A a s => Ret a s.
Global Instance M_bind (S : Type) : MBind (M S) := fun A B f m s =>
  match m s with
  | Ret a s' => f a s'
  | Panic p => Panic p
  | Sleep c => Sleep c
  | Fault w => Fault w
  | OutOfFuel => OutOfFuel
  end.

Section ops.
Context {S : Type}.
Definition panic {A} (msg : string) : M S A := fun _ => Panic msg.
Definition sleep_on {A} (why : string) : M S A := fun _ => Sleep why.
Definition fault {A} (why : string) : M S A := fun _ => Fault why.
Definition out_of_fuel {A} : M S A := fun _ => OutOfFuel.
Definition gets {A} (f : S -> A) : M S A := fun s => Ret (f s) s.
Definition modify (f : S -> S) : M S unit := fun s => Ret tt (f s).
Definition unwrap {A} (o : option A) (why : string) : M S A :=
  match o with Some a => mret a | None => fault why end.
Definition when (b : bool) (m : M S unit) : M S unit := if b then m else mret tt.
End ops.

(** Total-correctness weakest preconditions: the computation returns, and
  the result and final state satisfy [Q]. *)
Definition wp {S A} (m : M S A) (Q : A -> S -> Prop) (s : S) : Prop :=
match m s with Ret a s' => Q a s' | _ => False end.

Section wp_rules.
Context {S : Type}.

Lemma wp_ret {A} (a : A) Q (s : S) : wp (mret a) Q s <-> Q a s.
Proof. done. Qed.

Lemma wp_bind {A B} (m : M S A) (f : A -> M S B) Q (s : S) :
  wp (m ≫= f) Q s <-> wp m (fun a s' => wp (f a) Q s') s.
Proof. unfold wp, mbind, M_bind. by destruct (m s). Qed.

Lemma wp_gets {A} (f : S -> A) Q (s : S) : wp (gets f) Q s <-> Q (f s) s.
Proof. done. Qed.

Lemma wp_modify (f : S -> S) Q (s : S) : wp (modify f) Q s <-> Q tt (f s).
Proof. done. Qed.

Lemma wp_unwrap {A} (o : option A) a why Q (s : S) :
  o = Some a -> Q a s -> wp (unwrap o why) Q s.
Proof. by intros ->. Qed.

Lemma wp_mono {A} (m : M S A) (Q Q' : A -> S -> Prop) (s : S) :
  wp m Q s -> (forall a s', Q a s' -> Q' a s') -> wp m Q' s.
Proof. unfold wp. destruct (m s); naive_solver. Qed.

Lemma bind_Ret {A B} (m : M S A) (f : A -> M S B) (s s' : S) a :
  m s = Ret a s' -> (m ≫= f) s = f a s'.
Proof. unfold mbind, M_bind. by intros ->. Qed.

Lemma bind_gets {A B} (g : S -> A) (f : A -> M S B) (s : S) : (gets g ≫= f) s = f (g s) s.
Proof. done. Qed.

Lemma bind_modify {B} (g : S -> S) (f : unit -> M S B) (s : S) :
  (modify g ≫= f) s = f tt (g s).
Proof. done. Qed.

Lemma bind_ret {A B} (a : A) (f : A -> M S B) (s : S) : (mret a ≫= f) s = f a s.
Proof. done. Qed.

Lemma bind_unwrap {A B} (o : option A) a why (f : A -> M S B) (s : S) :
  o = Some a -> (unwrap o why ≫= f) s = f a s.
Proof. by intros ->. Qed.

Lemma bind_bind {A B C} (m : M S A) (f : A -> M S B) (g : B -> M S C) (s : S) :
  ((m ≫= f) ≫= g) s = (m ≫= (fun a => f a ≫= g)) s.
Proof. unfold mbind, M_bind. by destruct (m s). Qed.

Lemma wp_run {A B} (m : M S A) (k : A -> M S B) a (s s' : S) Q :
  m s = Ret a s' -> wp (k a) Q s' -> wp (m ≫= k) Q s.
Proof. intros H Hk. unfold wp. by rewrite (bind_Ret _ _ _ _ _ H). Qed.

Lemma wp_Ret {A} (m : M S A) Q (s : S) :
  wp m Q s <-> exists a s', m s = Ret a s' /\ Q a s'.
Proof. unfold wp. destruct (m s); naive_solver. Qed.

(** A computation that reaches a call of [panic]. *)
Lemma wp_panic {A B} (m : M S A) (k : A -> M S B) msg (s : S) :
  wp m (fun a s' => k a s' = Panic msg) s -> (m ≫= k) s = Panic msg.
Proof. unfold wp, mbind, M_bind. by destruct (m s). Qed.

(** A prefix of three statements with a specification of its own. *)
Lemma wp_seq3 {A} (m1 m2 m3 : M S unit) (k : M S A) Q (s : S) :
  wp (m1 ;; m2 ;; m3) (fun _ s' => wp k Q s') s -> wp (m1 ;; m2 ;; m3 ;; k) Q s.
Proof.
  unfold wp, mbind, M_bind. destruct (m1 s); try done. destruct (m2 _); try done. by destruct (m3 _).
Qed.
End wp_rules.

(** ** Counted loops: [for (i = 0; i < n; i++)] over the list of its indices *)
Fixpoint forM {S A : Type} (l : list A) (f : A -> M S unit) : M S unit :=
  match l with
  | [] => mret tt
  | x :: l => f x ;; forM l f
  end.

Lemma wp_forM_seq {S} (f : nat -> M S unit) (I : nat -> S -> Prop) (a n : nat) (s : S) :
  I a s -> (forall t s, (a <= t < a + n)%nat -> I t s -> wp (f t) (fun _ s' => I (t + 1)%nat s') s) ->
  wp (forM (seq a n) f) (fun _ s' => I (a + n)%nat s') s.
Proof.
  revert a s. induction n as [|n IH]; intros a s HI Hf; simpl.
  - apply wp_ret. by rewrite Nat.add_0_r.
  - apply wp_bind. eapply wp_mono; [apply Hf; [lia|done]|]. intros ? s' HI'. cbv beta in HI'.
    eapply wp_mono; [apply IH|]; cbv beta.
    + by replace (Datatypes.S a) with (a + 1)%nat by lia.
    + intros t s'' Ht. apply Hf. lia.
    + intros _ s''. by replace (Datatypes.S a + n)%nat with (a + Datatypes.S n)%nat by lia.
Qed.

(** Symbolic execution of monadic code: the structural rules only; the
    components add the rules of their operations with [wp_mono]. *)
Ltac wp_step :=
  lazymatch goal with
  | |- wp (_ ≫= _) _ _ => refine (proj2 (wp_bind _ _ _ _) _)
  | |- wp (mret _) _ _ => refine (proj2 (wp_ret _ _ _) _)
  | |- wp (gets _) _ _ => refine (proj2 (wp_gets _ _ _) _)
  | |- wp (modify _) _ _ => refine (proj2 (wp_modify _ _ _) _)
  | |- wp (unwrap (Some _) _) _ _ => eapply wp_unwrap; [reflexivity|]
  | |- wp (when true _) _ _ => unfold when
  | |- wp (when false _) _ _ => unfold when
  end; cbv beta iota.
Ltac wp_steps := repeat wp_step.

(** Using the specification [H] of the call at the head of the goal. *)
Ltac wp_call H :=
  lazymatch goal with |- wp (_ ≫= _) _ _ => refine (proj2 (wp_bind _ _ _ _) _) | _ => idtac end;
  eapply wp_mono; [ eapply H | ].

(** Running code whose result is known: [run H] executes the head call, of
    which [H] is the equation. *)
Ltac run_step :=
  lazymatch goal with
  | |- context [(gets _ ≫= _) _] => rewrite bind_gets
  | |- context [(modify _ ≫= _) _] => rewrite bind_modify
  | |- context [(mret _ ≫= _) _] => rewrite bind_ret
  | |- context [((_ ≫= _) ≫= _) _] => rewrite bind_bind
  end; cbv beta iota; cbn [negb andb orb].
Ltac run_steps := repeat run_step.
Ltac run H := rewrite ?bind_bind; erewrite (bind_Ret _ _ _ _ _ H); cbv beta iota; cbn [negb andb orb].

(** ** Machine integers

    [uint] is 32 bits, [ushort] 16, [uchar] 8; a C integer is a [Z] and the
    wrap-around of an unsigned operation is written with [u32]. *)
Definition u32 (z : Z) : Z := z mod 2 ^ 32.
Definition u16 (z : Z) : Z := z mod 2 ^ 16.
Definition u8 (z : Z) : Z := z mod 2 ^ 8.
Definition s32 (z : Z) : Z := let w := z mod 2 ^ 32 in if w <? 2 ^ 31 then w else w - 2 ^ 32.
Definition s16 (z : Z) : Z := let w := z mod 2 ^ 16 in if w <? 2 ^ 15 then w else w - 2 ^ 16.

Lemma u32_small z : 0 <= z < 2 ^ 32 -> u32 z = z.
Proof. apply Z.mod_small. Qed.
Lemma u16_small z : 0 <= z < 2 ^ 16 -> u16 z = z.
Proof. apply Z.mod_small. Qed.
Lemma u32_range z : 0 <= u32 z < 2 ^ 32.
Proof. by apply Z.mod_pos_bound. Qed.
Lemma s32_small z : - 2 ^ 31 <= z < 2 ^ 31 -> s32 z = z.
Proof.
  intros H. unfold s32. destruct (Z.ltb_spec (z mod 2 ^ 32) (2 ^ 31)) as [Hl|Hl].
  - destruct (Z.le_gt_cases 0 z); [by rewrite Z.mod_small by lia|].
    rewrite <- (Z.mod_add z 1), Z.mod_small in Hl by lia. lia.
  - destruct (Z.le_gt_cases 0 z); [rewrite Z.mod_small in Hl by lia; lia|].
    rewrite <- (Z.mod_add z 1), Z.mod_small by lia. lia.
Qed.

Definition is_byte (z : Z) : Prop := 0 <= z < 256.
Global Instance is_byte_dec z : Decision (is_byte z).
Proof. unfold is_byte. apply _. Defined.

(** ** Byte arrays

    A C object is a [list Z] of bytes; [le_dec] and [le_enc] read and write
    little-endian integers, [splice] overwrites a range in place. *)
Fixpoint le_dec (bs : list Z) : Z :=
  match bs with
  | [] => 0
  | b :: bs => b + 256 * le_dec bs
  end.

Fixpoint le_enc (n : nat) (z : Z) : list Z :=
  match n with
  | O => []
  | S n => z mod 256 :: le_enc n (z / 256)
  end.

Definition splice (d : list Z) (off : nat) (bs : list Z) : list Z :=
  take off d ++ bs ++ drop (off + length bs) d.

Definition slice (d : list Z) (off n : nat) : list Z := take n (drop off d).

(** The [n]-byte integer at offset [off] of [d]. *)
Definition rd (n : nat) (d : list Z) (off : nat) : Z := le_dec (slice d off n).
Definition wr (n : nat) (d : list Z) (off : nat) (z : Z) : list Z := splice d off (le_enc n z).

Lemma length_le_enc n z : length (le_enc n z) = n.
Proof. revert z. induction n as [|n IH]; intros z; simpl; [done|]. by rewrite IH. Qed.

Lemma le_enc_bytes n z : Forall is_byte (le_enc n z).
Proof.
  revert z. induction n as [|n IH]; intros z; simpl; constructor; [|done].
  apply Z.mod_pos_bound. lia.
Qed.

Lemma le_dec_enc n z : le_dec (le_enc n z) = z mod 256 ^ Z.of_nat n.
Proof.
  revert z. induction n as [|n IH]; intros z; [by rewrite Z.mod_1_r|].
  cbn [le_enc le_dec]. rewrite IH.
  replace (256 ^ Z.of_nat (S n)) with (256 * 256 ^ Z.of_nat n)
    by (rewrite Nat2Z.inj_succ, Z.pow_succ_r; lia).
  rewrite Z.rem_mul_r by lia. done.
Qed.

Lemma le_dec_bound bs : Forall is_byte bs -> 0 <= le_dec bs < 256 ^ Z.of_nat (length bs).
Proof.
  induction 1 as [|b bs Hb _ IH]; [simpl; lia|].
  cbn [le_dec length]. rewrite Nat2Z.inj_succ, Z.pow_succ_r by lia.
  unfold is_byte in Hb. nia.
Qed.

Lemma le_enc_dec bs : Forall is_byte bs -> le_enc (length bs) (le_dec bs) = bs.
Proof.
  induction 1 as [|b bs Hb _ IH]; [done|]. unfold is_byte in Hb.
  cbn [le_dec length le_enc].
  replace (b + 256 * le_dec bs) with (b + le_dec bs * 256) by lia.
  rewrite Z.mod_add, Z.mod_small, Z.div_add, Z.div_small, Z.add_0_l by lia. by rewrite IH.
Qed.

Lemma length_splice d off bs :
  (off + length bs <= length d)%nat -> length (splice d off bs) = length d.
Proof. intros. unfold splice. rewrite !length_app, length_take, length_drop. lia. Qed.

Lemma slice_splice d off bs :
  (off + length bs <= length d)%nat -> slice (splice d off bs) off (length bs) = bs.
Proof.
  intros. unfold slice, splice.
  rewrite drop_app_length' by (rewrite length_take; lia).
  by rewrite take_app_length.
Qed.

Lemma slice_splice_disjoint d off bs o n :
  (off + length bs <= length d)%nat ->
  (o + n <= off \/ off + length bs <= o)%nat ->
  slice (splice d off bs) o n = slice d o n.
Proof.
  intros Hl Hd. unfold slice, splice. destruct Hd as [Hd|Hd].
  - rewrite <- (take_drop off d) at 3. rewrite !drop_app_le by (rewrite length_take; lia).
    rewrite !take_app_le by (rewrite length_drop, length_take; lia). done.
  - rewrite drop_app_ge by (rewrite length_take; lia).
    rewrite drop_app_ge by (rewrite length_take; lia).
    rewrite drop_drop, length_take. do 2 f_equal. lia.
Qed.

Lemma Forall_splice (P : Z -> Prop) d off bs :
  Forall P d -> Forall P bs -> Forall P (splice d off bs).
Proof. intros. unfold splice. auto using Forall_app_2, Forall_take, Forall_drop. Qed.

Lemma length_slice d off n : (off + n <= length d)%nat -> length (slice d off n) = n.
Proof. intros. unfold slice. rewrite length_take, length_drop. lia. Qed.

Lemma length_wr n d off z : (off + n <= length d)%nat -> length (wr n d off z) = length d.
Proof. intros. unfold wr. apply length_splice. by rewrite length_le_enc. Qed.

Lemma rd_wr n d off z :
  (off + n <= length d)%nat -> rd n (wr n d off z) off = z mod 256 ^ Z.of_nat n.
Proof.
  intros. unfold rd, wr. rewrite <- le_dec_enc. f_equal.
  rewrite <- (length_le_enc n z) at 2. apply slice_splice. by rewrite length_le_enc.
Qed.

Lemma rd_wr_disjoint n d off z k o :
  (off + n <= length d)%nat -> (o + k <= off \/ off + n <= o)%nat ->
  rd k (wr n d off z) o = rd k d o.
Proof. intros. unfold rd, wr. rewrite slice_splice_disjoint; rewrite ?length_le_enc; done. Qed.

Create HintDb xv6.
#[export] Hint Rewrite length_splice length_wr length_slice length_le_enc using lia : xv6.
#[export] Hint Resolve Forall_splice le_enc_bytes Forall_take Forall_drop : xv6.
Global Arguments le_enc : simpl never.
Global Arguments le_dec : simpl never.
Global Arguments rd : simpl never.
Global Arguments wr : simpl never.
Global Arguments slice : simpl never.
Global Arguments splice : simpl never.
