(* ===== verification/Params.v ===== *)
(** * Constants of the headers

    param.h, fs.h, buf.h, stat.h, fcntl.h, file.h and the constants of
    ext2.h.  A size used as an array bound is read as a [nat] with
    [Z.to_nat]. *)
From S2P Require Import Prelude.

(** param.h *)
Definition NPROC : Z := 64.
Notation NCPU := 8 (only parsing).
Notation KSTACKSIZE := 4096 (only parsing).
Notation NOFILE := 16 (only parsing).
Notation NFILE := 100 (only parsing).
Notation NINODE := 50 (only parsing).
Notation NDEV := 10 (only parsing).
Definition ROOTDEV : Z := 1.
Notation EXT2DEV := 2 (only parsing).
Notation MAXARG := 32 (only parsing).
Notation MAXOPBLOCKS := 10 (only parsing).
Definition LOGSIZE : Z := MAXOPBLOCKS * 3.
Definition NBUF : Z := MAXOPBLOCKS * 3.
Definition FSSIZE : Z := 1000.

(** fs.h *)
Notation ROOTINO := 1 (only parsing).
Definition BSIZE : Z := 2048.
Definition NDIRECT : Z := 12.
Definition NINDIRECT : Z := BSIZE / 4.
Definition MAXFILE : Z := NDIRECT + NINDIRECT.
Definition sizeof_dinode : Z := 64.
Definition IPB : Z := BSIZE / sizeof_dinode.
Definition BPB : Z := BSIZE * 8.
Notation DIRSIZ := 14 (only parsing).
Notation sizeof_dirent := 16 (only parsing).

(** buf.h *)
Notation B_VALID := 2 (only parsing).
Notation B_DIRTY := 4 (only parsing).

(** stat.h *)
Notation T_DIR := 1 (only parsing).
Notation T_FILE := 2 (only parsing).
Notation T_DEV := 3 (only parsing).

(** fcntl.h *)
Notation O_RDONLY := 0 (only parsing).
Notation O_WRONLY := 1 (only parsing).
Notation O_RDWR := 2 (only parsing).
Notation O_CREATE := 512 (only parsing).

(** ext2.h *)
Notation EXT2_ROOT_INO := 2 (only parsing).
Notation EXT2_NAME_LEN := 255 (only parsing).
Notation EXT2_NDIR_BLOCKS := 12 (only parsing).
Notation EXT2_IND_BLOCK := EXT2_NDIR_BLOCKS (only parsing).
Notation EXT2_DIND_BLOCK := (EXT2_IND_BLOCK + 1) (only parsing).
Notation EXT2_TIND_BLOCK := (EXT2_DIND_BLOCK + 1) (only parsing).
Notation EXT2_N_BLOCKS := (EXT2_TIND_BLOCK + 1) (only parsing).
Notation NINDIRECT1 := (BSIZE / 4) (only parsing).
Notation NDINDIRECT := (BSIZE / 4 * NINDIRECT1) (only parsing).
Notation NTINDIRECT := (BSIZE / 4 * NDINDIRECT) (only parsing).
Notation EXT2_MAXFILE := (NINDIRECT1 + NDINDIRECT + NTINDIRECT) (only parsing).
Definition sizeof_ext2_inode : Z := 128.
Definition sizeof_ext2_group_desc : Z := 32.
Definition sizeof_ext2_dir_entry_2 : Z := 264.
Notation S_IFMT := 61440 (only parsing).
Notation S_IFREG := 32768 (only parsing).
Notation S_IFDIR := 16384 (only parsing).
Definition S_ISREG (m : Z) : bool := Z.land m S_IFMT =? S_IFREG.
Definition S_ISDIR (m : Z) : bool := Z.land m S_IFMT =? S_IFDIR.

(** [klia]: [lia] with the sizes of the headers in view. *)
Ltac unfold_sizes :=
  unfold NBUF, LOGSIZE, IPB, sizeof_dinode, BPB, MAXFILE, NINDIRECT, NDIRECT, BSIZE, FSSIZE, ROOTDEV in *.
Ltac klia :=
  unfold_sizes; change (2048 / 4) with 512 in *; change (2048 / 64) with 32 in *; lia.
