(* ===== verification/Layout.v ===== *)
(** * On-disk structures

    The structures of fs.h and ext2.h that the kernel reads from and writes
    to disk blocks, as records, with their byte layout (i386 ABI: fields at
    the offsets the C compiler gives them, little-endian) written as a
    decoder and an encoder.  The round trips of the layouts are proved at
    the end of the file. *)
From S2P Require Import Prelude Params.

(** ** Arrays of 32-bit words *)
Definition rd_u32s (d : list Z) (off n : nat) : list Z :=
  map (fun i => rd 4 d (off + 4 * i)) (seq 0 n).

Definition enc_u32s (l : list Z) : list Z := concat (map (le_enc 4) l).

Global Arguments rd_u32s : simpl never.
Global Arguments enc_u32s : simpl never.

(** ** fs.h *)
Record superblock := mk_superblock {
  sb_size : Z;
  sb_nblocks : Z;
  sb_ninodes : Z;
  sb_nlog : Z;
  sb_logstart : Z;
  sb_inodestart : Z;
  sb_bmapstart : Z
}.

(** [memmove(sb, bp->data, sizeof( *sb))]: the structure is the first 28 bytes. *)
Definition dec_superblock (d : list Z) : superblock :=
  mk_superblock (rd 4 d 0) (rd 4 d 4) (rd 4 d 8) (rd 4 d 12) (rd 4 d 16) (rd 4 d 20) (rd 4 d 24).

Definition enc_superblock (sb : superblock) : list Z :=
  enc_u32s [sb_size sb; sb_nblocks sb; sb_ninodes sb; sb_nlog sb; sb_logstart sb;
            sb_inodestart sb; sb_bmapstart sb].

Definition IBLOCK (i : Z) (sb : superblock) : Z := u32 (i / IPB + sb_inodestart sb).
Definition BBLOCK (b : Z) (sb : superblock) : Z := u32 (b / BPB + sb_bmapstart sb).

Record dinode := mk_dinode {
  di_type : Z;
  di_major : Z;
  di_minor : Z;
  di_nlink : Z;
  di_size : Z;
  di_addrs : list Z
}.

Definition dec_dinode (d : list Z) : dinode :=
  mk_dinode (s16 (rd 2 d 0)) (s16 (rd 2 d 2)) (s16 (rd 2 d 4)) (s16 (rd 2 d 6)) (rd 4 d 8)
    (rd_u32s d 12 (Z.to_nat (NDIRECT + 1))).

Definition enc_dinode (i : dinode) : list Z :=
  le_enc 2 (di_type i) ++ le_enc 2 (di_major i) ++ le_enc 2 (di_minor i) ++
  le_enc 2 (di_nlink i) ++ le_enc 4 (di_size i) ++ enc_u32s (di_addrs i).

Record dirent := mk_dirent {
  de_inum : Z;
  de_name : list Z
}.

Definition dec_dirent (d : list Z) : dirent := mk_dirent (rd 2 d 0) (slice d 2 (Z.to_nat DIRSIZ)).
Definition enc_dirent (e : dirent) : list Z := le_enc 2 (de_inum e) ++ de_name e.

(** ** ext2.h *)
Record ext2_superblock := mk_ext2_superblock {
  s_inodes_count : Z;
  s_blocks_count : Z;
  s_r_blocks_count : Z;
  s_free_blocks_count : Z;
  s_free_inodes_count : Z;
  s_first_data_block : Z;
  s_log_block_size : Z;
  s_log_frag_size : Z;
  s_blocks_per_group : Z;
  s_frags_per_group : Z;
  s_inodes_per_group : Z;
  s_mtime : Z;
  s_wtime : Z;
  s_mnt_count : Z;
  s_max_mnt_count : Z;
  s_magic : Z;
  s_state : Z;
  s_errors : Z;
  s_minor_rev_level : Z;
  s_lastcheck : Z;
  s_checkinterval : Z;
  s_creator_os : Z;
  s_rev_level : Z;
  s_def_resuid : Z;
  s_def_resgid : Z;
  s_first_ino : Z;
  s_inode_size : Z;
  s_block_group_nr : Z;
  s_feature_compat : Z;
  s_feature_incompat : Z;
  s_feature_ro_compat : Z;
  s_uuid : list Z;
  s_volume_name : list Z;
  s_last_mounted : list Z;
  s_algorithm_usage_bitmap : Z;
  s_prealloc_blocks : Z;
  s_prealloc_dir_blocks : Z;
  s_padding1 : Z;
  s_journal_uuid : list Z;
  s_journal_inum : Z;
  s_journal_dev : Z;
  s_last_orphan : Z;
  s_hash_seed : list Z;
  s_def_hash_version : Z;
  s_reserved_char_pad : Z;
  s_reserved_word_pad : Z;
  s_default_mount_opts : Z;
  s_first_meta_bg : Z;
  s_reserved : list Z
}.

(** The superblock occupies 1024 bytes. *)
Definition dec_ext2_superblock (d : list Z) : ext2_superblock :=
  mk_ext2_superblock (rd 4 d 0) (rd 4 d 4) (rd 4 d 8) (rd 4 d 12) (rd 4 d 16) (rd 4 d 20) (rd 4
    d 24) (rd 4 d 28) (rd 4 d 32) (rd 4 d 36) (rd 4 d 40) (rd 4 d 44) (rd 4 d 48) (rd 2 d 52)
    (rd 2 d 54) (rd 2 d 56) (rd 2 d 58) (rd 2 d 60) (rd 2 d 62) (rd 4 d 64) (rd 4 d 68) (rd 4 d
    72) (rd 4 d 76) (rd 2 d 80) (rd 2 d 82) (rd 4 d 84) (rd 2 d 88) (rd 2 d 90) (rd 4 d 92) (rd
    4 d 96) (rd 4 d 100) (slice d 104 16) (slice d 120 16) (slice d 136 64) (rd 4 d 200) (rd 1 d
    204) (rd 1 d 205) (rd 2 d 206) (slice d 208 16) (rd 4 d 224) (rd 4 d 228) (rd 4 d 232)
    (rd_u32s d 236 4) (rd 1 d 252) (rd 1 d 253) (rd 2 d 254) (rd 4 d 256) (rd 4 d 260) (rd_u32s
    d 264 190).

Record ext2_group_desc := mk_ext2_group_desc {
  bg_block_bitmap : Z;
  bg_inode_bitmap : Z;
  bg_inode_table : Z;
  bg_free_blocks_count : Z;
  bg_free_inodes_count : Z;
  bg_used_dirs_count : Z;
  bg_flags : Z;
  bg_exclude_bitmap_lo : Z;
  bg_block_bitmap_csum_lo : Z;
  bg_inode_bitmap_csum_lo : Z;
  bg_itable_unused : Z;
  bg_checksum : Z
}.

Definition dec_ext2_group_desc (d : list Z) : ext2_group_desc :=
  mk_ext2_group_desc (rd 4 d 0) (rd 4 d 4) (rd 4 d 8) (rd 2 d 12) (rd 2 d 14) (rd 2 d 16) (rd 2
    d 18) (rd 4 d 20) (rd 2 d 24) (rd 2 d 26) (rd 2 d 28) (rd 2 d 30).

(** The two unions [osd1] and [osd2] are kept as their bytes. *)
Record ext2_inode := mk_ext2_inode {
  ei_mode : Z;
  ei_uid : Z;
  ei_size : Z;
  ei_atime : Z;
  ei_ctime : Z;
  ei_mtime : Z;
  ei_dtime : Z;
  ei_gid : Z;
  ei_links_count : Z;
  ei_blocks : Z;
  ei_flags : Z;
  ei_osd1 : Z;
  ei_block : list Z;
  ei_generation : Z;
  ei_file_acl : Z;
  ei_size_high : Z;
  ei_faddr : Z;
  ei_osd2 : list Z
}.
Definition set_ei_mode (x : Z) (e : ext2_inode) : ext2_inode :=
  mk_ext2_inode x (ei_uid e) (ei_size e) (ei_atime e) (ei_ctime e) (ei_mtime e) (ei_dtime e)
    (ei_gid e) (ei_links_count e) (ei_blocks e) (ei_flags e) (ei_osd1 e) (ei_block e)
    (ei_generation e) (ei_file_acl e) (ei_size_high e) (ei_faddr e) (ei_osd2 e).
Definition set_ei_size (x : Z) (e : ext2_inode) : ext2_inode :=
  mk_ext2_inode (ei_mode e) (ei_uid e) x (ei_atime e) (ei_ctime e) (ei_mtime e) (ei_dtime e)
    (ei_gid e) (ei_links_count e) (ei_blocks e) (ei_flags e) (ei_osd1 e) (ei_block e)
    (ei_generation e) (ei_file_acl e) (ei_size_high e) (ei_faddr e) (ei_osd2 e).
Definition set_ei_links_count (x : Z) (e : ext2_inode) : ext2_inode :=
  mk_ext2_inode (ei_mode e) (ei_uid e) (ei_size e) (ei_atime e) (ei_ctime e) (ei_mtime e)
    (ei_dtime e) (ei_gid e) x (ei_blocks e) (ei_flags e) (ei_osd1 e) (ei_block e) (ei_generation
    e) (ei_file_acl e) (ei_size_high e) (ei_faddr e) (ei_osd2 e).
Definition set_ei_block (x : list Z) (e : ext2_inode) : ext2_inode :=
  mk_ext2_inode (ei_mode e) (ei_uid e) (ei_size e) (ei_atime e) (ei_ctime e) (ei_mtime e)
    (ei_dtime e) (ei_gid e) (ei_links_count e) (ei_blocks e) (ei_flags e) (ei_osd1 e) x
    (ei_generation e) (ei_file_acl e) (ei_size_high e) (ei_faddr e) (ei_osd2 e).

Definition dec_ext2_inode (d : list Z) : ext2_inode :=
  mk_ext2_inode (rd 2 d 0) (rd 2 d 2) (rd 4 d 4) (rd 4 d 8) (rd 4 d 12) (rd 4 d 16) (rd 4 d 20)
    (rd 2 d 24) (rd 2 d 26) (rd 4 d 28) (rd 4 d 32) (rd 4 d 36) (rd_u32s d 40 15) (rd 4 d 100)
    (rd 4 d 104) (rd 4 d 108) (rd 4 d 112) (slice d 116 12).

Definition enc_ext2_inode (i : ext2_inode) : list Z :=
  le_enc 2 (ei_mode i) ++ le_enc 2 (ei_uid i) ++ le_enc 4 (ei_size i) ++ le_enc 4 (ei_atime i)
  ++ le_enc 4 (ei_ctime i) ++ le_enc 4 (ei_mtime i) ++ le_enc 4 (ei_dtime i) ++ le_enc 2 (ei_gid
  i) ++ le_enc 2 (ei_links_count i) ++ le_enc 4 (ei_blocks i) ++ le_enc 4 (ei_flags i) ++ le_enc
  4 (ei_osd1 i) ++ enc_u32s (ei_block i) ++ le_enc 4 (ei_generation i) ++ le_enc 4 (ei_file_acl
  i) ++ le_enc 4 (ei_size_high i) ++ le_enc 4 (ei_faddr i) ++ ei_osd2 i.

Record ext2_dir_entry_2 := mk_ext2_dir_entry_2 {
  ed_inode : Z;
  ed_rec_len : Z;
  ed_name_len : Z;
  ed_file_type : Z;
  ed_name : list Z
}.
Definition set_ed_inode (x : Z) (e : ext2_dir_entry_2) : ext2_dir_entry_2 :=
  mk_ext2_dir_entry_2 x (ed_rec_len e) (ed_name_len e) (ed_file_type e) (ed_name e).
Definition set_ed_rec_len (x : Z) (e : ext2_dir_entry_2) : ext2_dir_entry_2 :=
  mk_ext2_dir_entry_2 (ed_inode e) x (ed_name_len e) (ed_file_type e) (ed_name e).
Definition set_ed_name_len (x : Z) (e : ext2_dir_entry_2) : ext2_dir_entry_2 :=
  mk_ext2_dir_entry_2 (ed_inode e) (ed_rec_len e) x (ed_file_type e) (ed_name e).
Definition set_ed_name (x : list Z) (e : ext2_dir_entry_2) : ext2_dir_entry_2 :=
  mk_ext2_dir_entry_2 (ed_inode e) (ed_rec_len e) (ed_name_len e) (ed_file_type e) x.

(** 263 bytes of fields, padded to 264. *)
Definition dec_ext2_dir_entry_2 (d : list Z) : ext2_dir_entry_2 :=
  mk_ext2_dir_entry_2 (rd 4 d 0) (rd 2 d 4) (rd 1 d 6) (rd 1 d 7)
    (slice d 8 (Z.to_nat EXT2_NAME_LEN)).

Definition enc_ext2_dir_entry_2 (e : ext2_dir_entry_2) (pad : Z) : list Z :=
  le_enc 4 (ed_inode e) ++ le_enc 2 (ed_rec_len e) ++ le_enc 1 (ed_name_len e) ++
  le_enc 1 (ed_file_type e) ++ ed_name e ++ [pad].

(** ** Round trips *)
Lemma rd_skip n k z l off : (n <= off)%nat -> rd k (le_enc n z ++ l) off = rd k l (off - n).
Proof.
  intros H. unfold rd, slice. f_equal. f_equal.
  by rewrite drop_app_ge; rewrite length_le_enc.
Qed.

Lemma rd_here n z l : rd n (le_enc n z ++ l) 0 = z mod 256 ^ Z.of_nat n.
Proof.
  unfold rd, slice. rewrite drop_0, take_app_length' by by rewrite length_le_enc.
  apply le_dec_enc.
Qed.

Lemma slice_skip n k z l off : (n <= off)%nat -> slice (le_enc n z ++ l) off k = slice l (off - n) k.
Proof. intros H. unfold slice. f_equal. by rewrite drop_app_ge; rewrite length_le_enc. Qed.

Lemma rd_u32s_skip n k z l off :
  (n <= off)%nat -> rd_u32s (le_enc n z ++ l) off k = rd_u32s l (off - n) k.
Proof.
  intros H. unfold rd_u32s. apply map_ext. intros i. rewrite rd_skip by lia. f_equal. lia.
Qed.

Lemma length_enc_u32s l : length (enc_u32s l) = (4 * length l)%nat.
Proof.
  induction l as [|z l IH]; [done|]. unfold enc_u32s in *. cbn [map concat].
  rewrite length_app, length_le_enc, IH. simpl length. lia.
Qed.

Lemma rd_u32s_here l post :
  Forall (fun z => 0 <= z < 2 ^ 32) l -> rd_u32s (enc_u32s l ++ post) 0 (length l) = l.
Proof.
  induction 1 as [|z l Hz _ IH]; [done|]. unfold rd_u32s, enc_u32s in *.
  simpl length. cbn [seq map concat]. rewrite <- (app_assoc (le_enc 4 z)).
  rewrite (rd_here 4), Z.mod_small by done. f_equal.
  rewrite <- seq_shift, map_map. rewrite <- IH at 2. apply map_ext. intros i.
  rewrite rd_skip by lia. f_equal. lia.
Qed.

Lemma rd_enc_u32s l post j z :
  l !! j = Some z -> rd 4 (enc_u32s l ++ post) (4 * j) = z mod 2 ^ 32.
Proof.
  revert j. induction l as [|y l IH]; intros j Hj; [done|].
  unfold enc_u32s in *. cbn [map concat]. rewrite <- (app_assoc (le_enc 4 y)).
  destruct j as [|j]; [injection Hj as ->; by rewrite Nat.mul_0_r, (rd_here 4)|].
  rewrite rd_skip by lia. replace (4 * S j - 4)%nat with (4 * j)%nat by lia. by apply IH.
Qed.

Lemma slice_here l post : slice (l ++ post) 0 (length l) = l.
Proof. unfold slice. by rewrite drop_0, take_app_length. Qed.

Lemma rd_skip_u32s k l post off :
  (4 * length l <= off)%nat -> rd k (enc_u32s l ++ post) off = rd k post (off - 4 * length l).
Proof.
  intros H. unfold rd, slice. f_equal. f_equal.
  by rewrite drop_app_ge; rewrite length_enc_u32s.
Qed.

Lemma slice_skip_u32s k l post off :
  (4 * length l <= off)%nat -> slice (enc_u32s l ++ post) off k = slice post (off - 4 * length l) k.
Proof. intros H. unfold slice. f_equal. by rewrite drop_app_ge; rewrite length_enc_u32s. Qed.

Lemma s16_mod z : s16 (z mod 2 ^ 16) = s16 z.
Proof. unfold s16. by rewrite Z.mod_mod. Qed.

Lemma s16_small z : - 2 ^ 15 <= z < 2 ^ 15 -> s16 z = z.
Proof.
  intros H. unfold s16. destruct (Z.le_gt_cases 0 z).
  - rewrite Z.mod_small by lia. destruct (Z.ltb_spec z (2 ^ 15)); lia.
  - rewrite <- (Z.mod_add z 1), Z.mod_small by lia. destruct (Z.ltb_spec (z + 1 * 2 ^ 16) (2 ^ 15)); lia.
Qed.

Definition fits (n : nat) (z : Z) : Prop := 0 <= z < 256 ^ Z.of_nat n.
Definition fits_short (z : Z) : Prop := - 2 ^ 15 <= z < 2 ^ 15.

Record superblock_fits (sb : superblock) : Prop := {
  sbf : Forall (fits 4) [sb_size sb; sb_nblocks sb; sb_ninodes sb; sb_nlog sb; sb_logstart sb;
                         sb_inodestart sb; sb_bmapstart sb]
}.

Record dinode_fits (i : dinode) : Prop := {
  dif_shorts : Forall fits_short [di_type i; di_major i; di_minor i; di_nlink i];
  dif_size : fits 4 (di_size i);
  dif_addrs : length (di_addrs i) = Z.to_nat (NDIRECT + 1) /\ Forall (fits 4) (di_addrs i)
}.

Record ext2_inode_fits (i : ext2_inode) : Prop := {
  eif_2 : Forall (fits 2) [ei_mode i; ei_uid i; ei_gid i; ei_links_count i];
  eif_4 : Forall (fits 4) [ei_size i; ei_atime i; ei_ctime i; ei_mtime i; ei_dtime i; ei_blocks i;
            ei_flags i; ei_osd1 i; ei_generation i; ei_file_acl i; ei_size_high i; ei_faddr i];
  eif_block : length (ei_block i) = 15%nat /\ Forall (fits 4) (ei_block i);
  eif_osd2 : length (ei_osd2 i) = 12%nat
}.

Record ext2_dirent_fits (e : ext2_dir_entry_2) : Prop := {
  edf : fits 4 (ed_inode e) /\ fits 2 (ed_rec_len e) /\ fits 1 (ed_name_len e) /\ fits 1 (ed_file_type e);
  edf_name : length (ed_name e) = Z.to_nat EXT2_NAME_LEN
}.

Ltac split_foralls :=
  repeat match goal with H : Forall _ (_ :: _) |- _ => apply Forall_cons in H as [? H] end.
Ltac skip_fields :=
  repeat first [ rewrite rd_skip by lia | rewrite slice_skip by lia | rewrite rd_u32s_skip by lia ];
  cbn [Nat.sub]; rewrite ?rd_here.
Ltac roundtrip := skip_fields; first [ apply Z.mod_small; assumption | idtac ].

Lemma dec_enc_superblock sb post : superblock_fits sb -> dec_superblock (enc_superblock sb ++ post) = sb.
Proof.
  intros [H]. split_foralls. destruct sb. unfold dec_superblock, enc_superblock, enc_u32s.
  cbn [map concat sb_size sb_nblocks sb_ninodes sb_nlog sb_logstart sb_inodestart sb_bmapstart] in *.
  rewrite <- !app_assoc. f_equal; roundtrip.
Qed.

Lemma dec_enc_dinode i post : dinode_fits i -> dec_dinode (enc_dinode i ++ post) = i.
Proof.
  intros [Hs Hz [Hl Ha]]. split_foralls. destruct i. unfold dec_dinode, enc_dinode.
  cbn [di_type di_major di_minor di_nlink di_size di_addrs] in *.
  rewrite <- !app_assoc. f_equal; try (skip_fields; by rewrite s16_mod, s16_small).
  - roundtrip.
  - skip_fields. rewrite <- Hl. by apply rd_u32s_here.
Qed.

Lemma dec_enc_dirent e post :
  fits 2 (de_inum e) -> length (de_name e) = Z.to_nat DIRSIZ -> dec_dirent (enc_dirent e ++ post) = e.
Proof.
  intros Hi Hn. destruct e. unfold dec_dirent, enc_dirent. cbn [de_inum de_name] in *. rewrite <- !app_assoc.
  f_equal; [roundtrip|]. skip_fields. rewrite <- Hn. apply slice_here.
Qed.

Lemma dec_enc_ext2_inode i post : ext2_inode_fits i -> dec_ext2_inode (enc_ext2_inode i ++ post) = i.
Proof.
  intros [H2 H4 [Hl Hb] Ho]. split_foralls. destruct i. unfold dec_ext2_inode, enc_ext2_inode.
  cbn [ei_mode ei_uid ei_size ei_atime ei_ctime ei_mtime ei_dtime ei_gid ei_links_count ei_blocks
       ei_flags ei_osd1 ei_block ei_generation ei_file_acl ei_size_high ei_faddr ei_osd2] in *.
  rewrite <- !app_assoc. f_equal; try (roundtrip; fail).
  - skip_fields. rewrite <- Hl. by apply rd_u32s_here.
  - skip_fields. rewrite rd_skip_u32s by lia. rewrite Hl. roundtrip.
  - skip_fields. rewrite rd_skip_u32s by lia. rewrite Hl. roundtrip.
  - skip_fields. rewrite rd_skip_u32s by lia. rewrite Hl. roundtrip.
  - skip_fields. rewrite rd_skip_u32s by lia. rewrite Hl. roundtrip.
  - skip_fields. rewrite slice_skip_u32s by lia. rewrite Hl. skip_fields. cbn [Nat.mul Nat.add Nat.sub].
    pose proof (slice_here ei_osd4 post) as Hsl. by rewrite Ho in Hsl.
Qed.

Lemma dec_enc_ext2_dirent e pad post :
  ext2_dirent_fits e -> dec_ext2_dir_entry_2 (enc_ext2_dir_entry_2 e pad ++ post) = e.
Proof.
  intros [(Hi & Hr & Hn & Ht) Hl]. destruct e. unfold dec_ext2_dir_entry_2, enc_ext2_dir_entry_2.
  cbn [ed_inode ed_rec_len ed_name_len ed_file_type ed_name] in *.
  rewrite <- !app_assoc. f_equal; try (roundtrip; fail).
  skip_fields. rewrite <- Hl. apply slice_here.
Qed.
