(* ===== verification/KState.v ===== *)
(** * State of the file-system side of the kernel

    The structures of buf.h, sleeplock.h, log.c, file.h, vfs.h and icache.h,
    and the global variables that the block, log, inode and file layers
    share.  A pointer to an element of a global array ([struct buf *],
    [struct inode *], [struct file *]) is the element's index.

    Spin locks do not appear: each is acquired and released within one
    function, so a critical section is one step of the sequential model.
    The locks themselves are the subject of Spinlock.v. *)
From S2P Require Import Prelude Params Layout.

(** ** sleeplock.h: [locked] and the pid of the holder. *)
Record sleeplock := mk_sleeplock {
  lk_locked : bool;
  lk_pid : Z
}.

(** ** buf.h.  [prev] and [next] are indices in [bcache.buf] followed by
    [bcache.head]; [qnext] is the order of [idequeue] below. *)
Record buf := mk_buf {
  b_flags : Z;
  b_dev : Z;
  b_blockno : Z;
  b_lock : sleeplock;
  b_refcnt : Z;
  b_prev : nat;
  b_next : nat;
  b_data : list Z
}.
Definition set_b_flags (x : Z) (b : buf) : buf :=
  mk_buf x (b_dev b) (b_blockno b) (b_lock b) (b_refcnt b) (b_prev b) (b_next b) (b_data b).
Definition set_b_dev (x : Z) (b : buf) : buf :=
  mk_buf (b_flags b) x (b_blockno b) (b_lock b) (b_refcnt b) (b_prev b) (b_next b) (b_data b).
Definition set_b_blockno (x : Z) (b : buf) : buf :=
  mk_buf (b_flags b) (b_dev b) x (b_lock b) (b_refcnt b) (b_prev b) (b_next b) (b_data b).
Definition set_b_lock (x : sleeplock) (b : buf) : buf :=
  mk_buf (b_flags b) (b_dev b) (b_blockno b) x (b_refcnt b) (b_prev b) (b_next b) (b_data b).
Definition set_b_refcnt (x : Z) (b : buf) : buf :=
  mk_buf (b_flags b) (b_dev b) (b_blockno b) (b_lock b) x (b_prev b) (b_next b) (b_data b).
Definition set_b_prev (x : nat) (b : buf) : buf :=
  mk_buf (b_flags b) (b_dev b) (b_blockno b) (b_lock b) (b_refcnt b) x (b_next b) (b_data b).
Definition set_b_next (x : nat) (b : buf) : buf :=
  mk_buf (b_flags b) (b_dev b) (b_blockno b) (b_lock b) (b_refcnt b) (b_prev b) x (b_data b).
Definition set_b_data (x : list Z) (b : buf) : buf :=
  mk_buf (b_flags b) (b_dev b) (b_blockno b) (b_lock b) (b_refcnt b) (b_prev b) (b_next b) x.

(** ** log.c: [struct logheader] is inlined as [lh_n] and [lh_block]. *)
Record log := mk_log {
  log_start : Z;
  log_size : Z;
  log_outstanding : Z;
  log_committing : bool;
  log_dev : Z;
  lh_n : Z;
  lh_block : list Z
}.
Definition set_log_start (x : Z) (l : log) : log :=
  mk_log x (log_size l) (log_outstanding l) (log_committing l) (log_dev l) (lh_n l) (lh_block
    l).
Definition set_log_size (x : Z) (l : log) : log :=
  mk_log (log_start l) x (log_outstanding l) (log_committing l) (log_dev l) (lh_n l) (lh_block
    l).
Definition set_log_outstanding (x : Z) (l : log) : log :=
  mk_log (log_start l) (log_size l) x (log_committing l) (log_dev l) (lh_n l) (lh_block l).
Definition set_log_committing (x : bool) (l : log) : log :=
  mk_log (log_start l) (log_size l) (log_outstanding l) x (log_dev l) (lh_n l) (lh_block l).
Definition set_log_dev (x : Z) (l : log) : log :=
  mk_log (log_start l) (log_size l) (log_outstanding l) (log_committing l) x (lh_n l) (lh_block
    l).
Definition set_lh_n (x : Z) (l : log) : log :=
  mk_log (log_start l) (log_size l) (log_outstanding l) (log_committing l) (log_dev l) x
    (lh_block l).
Definition set_lh_block (x : list Z) (l : log) : log :=
  mk_log (log_start l) (log_size l) (log_outstanding l) (log_committing l) (log_dev l) (lh_n l)
    x.

(** ** vfs.h and file.h *)
Inductive filesystem_type := inbuiltfs | ext2fs.
Global Instance filesystem_type_eq_dec : EqDecision filesystem_type.
Proof. solve_decision. Defined.

(** [struct addrs] has [NDIRECT + 1] words, [struct ext2_addrs] has
    [EXT2_N_BLOCKS]. *)
Record addrs := mk_addrs {
  a_busy : Z;
  a_addrs : list Z
}.
Definition set_a_busy (x : Z) (a : addrs) : addrs := mk_addrs x (a_addrs a).
Definition set_a_addrs (x : list Z) (a : addrs) : addrs := mk_addrs (a_busy a) x.

(** What [ip->addrs] (a [void *]) points to. *)
Inductive addrs_ptr := ANull | AAddrs (i : nat) | AExt2 (j : nat).
Global Instance addrs_ptr_eq_dec : EqDecision addrs_ptr.
Proof. solve_decision. Defined.

Record inode := mk_inode {
  i_dev : Z;
  i_inum : Z;
  i_ref : Z;
  i_lock : sleeplock;
  i_valid : bool;
  i_type : Z;
  i_major : Z;
  i_minor : Z;
  i_nlink : Z;
  i_size : Z;
  i_addrs : addrs_ptr;
  i_file_type : option filesystem_type
}.
Definition set_i_dev (x : Z) (i : inode) : inode :=
  mk_inode x (i_inum i) (i_ref i) (i_lock i) (i_valid i) (i_type i) (i_major i) (i_minor i)
    (i_nlink i) (i_size i) (i_addrs i) (i_file_type i).
Definition set_i_inum (x : Z) (i : inode) : inode :=
  mk_inode (i_dev i) x (i_ref i) (i_lock i) (i_valid i) (i_type i) (i_major i) (i_minor i)
    (i_nlink i) (i_size i) (i_addrs i) (i_file_type i).
Definition set_i_ref (x : Z) (i : inode) : inode :=
  mk_inode (i_dev i) (i_inum i) x (i_lock i) (i_valid i) (i_type i) (i_major i) (i_minor i)
    (i_nlink i) (i_size i) (i_addrs i) (i_file_type i).
Definition set_i_lock (x : sleeplock) (i : inode) : inode :=
  mk_inode (i_dev i) (i_inum i) (i_ref i) x (i_valid i) (i_type i) (i_major i) (i_minor i)
    (i_nlink i) (i_size i) (i_addrs i) (i_file_type i).
Definition set_i_valid (x : bool) (i : inode) : inode :=
  mk_inode (i_dev i) (i_inum i) (i_ref i) (i_lock i) x (i_type i) (i_major i) (i_minor i)
    (i_nlink i) (i_size i) (i_addrs i) (i_file_type i).
Definition set_i_type (x : Z) (i : inode) : inode :=
  mk_inode (i_dev i) (i_inum i) (i_ref i) (i_lock i) (i_valid i) x (i_major i) (i_minor i)
    (i_nlink i) (i_size i) (i_addrs i) (i_file_type i).
Definition set_i_major (x : Z) (i : inode) : inode :=
  mk_inode (i_dev i) (i_inum i) (i_ref i) (i_lock i) (i_valid i) (i_type i) x (i_minor i)
    (i_nlink i) (i_size i) (i_addrs i) (i_file_type i).
Definition set_i_minor (x : Z) (i : inode) : inode :=
  mk_inode (i_dev i) (i_inum i) (i_ref i) (i_lock i) (i_valid i) (i_type i) (i_major i) x
    (i_nlink i) (i_size i) (i_addrs i) (i_file_type i).
Definition set_i_nlink (x : Z) (i : inode) : inode :=
  mk_inode (i_dev i) (i_inum i) (i_ref i) (i_lock i) (i_valid i) (i_type i) (i_major i) (i_minor
    i) x (i_size i) (i_addrs i) (i_file_type i).
Definition set_i_size (x : Z) (i : inode) : inode :=
  mk_inode (i_dev i) (i_inum i) (i_ref i) (i_lock i) (i_valid i) (i_type i) (i_major i) (i_minor
    i) (i_nlink i) x (i_addrs i) (i_file_type i).
Definition set_i_addrs (x : addrs_ptr) (i : inode) : inode :=
  mk_inode (i_dev i) (i_inum i) (i_ref i) (i_lock i) (i_valid i) (i_type i) (i_major i) (i_minor
    i) (i_nlink i) (i_size i) x (i_file_type i).
Definition set_i_file_type (x : option filesystem_type) (i : inode) : inode :=
  mk_inode (i_dev i) (i_inum i) (i_ref i) (i_lock i) (i_valid i) (i_type i) (i_major i) (i_minor
    i) (i_nlink i) (i_size i) (i_addrs i) x.

Inductive fdtype := FD_NONE | FD_PIPE | FD_INODE.
Global Instance fdtype_eq_dec : EqDecision fdtype.
Proof. solve_decision. Defined.

Record file := mk_file {
  f_type : fdtype;
  f_ref : Z;
  f_readable : bool;
  f_writable : bool;
  f_pipe : Z;
  f_ip : nat;
  f_off : Z
}.
Definition set_f_type (x : fdtype) (r : file) : file :=
  mk_file x (f_ref r) (f_readable r) (f_writable r) (f_pipe r) (f_ip r) (f_off r).
Definition set_f_ref (x : Z) (r : file) : file :=
  mk_file (f_type r) x (f_readable r) (f_writable r) (f_pipe r) (f_ip r) (f_off r).
Definition set_f_readable (x : bool) (r : file) : file :=
  mk_file (f_type r) (f_ref r) x (f_writable r) (f_pipe r) (f_ip r) (f_off r).
Definition set_f_writable (x : bool) (r : file) : file :=
  mk_file (f_type r) (f_ref r) (f_readable r) x (f_pipe r) (f_ip r) (f_off r).
Definition set_f_pipe (x : Z) (r : file) : file :=
  mk_file (f_type r) (f_ref r) (f_readable r) (f_writable r) x (f_ip r) (f_off r).
Definition set_f_ip (x : nat) (r : file) : file :=
  mk_file (f_type r) (f_ref r) (f_readable r) (f_writable r) (f_pipe r) x (f_off r).
Definition set_f_off (x : Z) (r : file) : file :=
  mk_file (f_type r) (f_ref r) (f_readable r) (f_writable r) (f_pipe r) (f_ip r) x.

(** ** The global variables

    [k_disk] is the contents of the disks by device and block number (an
    absent block is a block of zeroes) and [k_writes] the disk writes so
    far, oldest first: it is there to speak of the disk at a crash. *)
Record kstate := mk_kstate {
  k_disk : gmap (Z * Z) (list Z);
  k_writes : list (Z * Z * list Z);
  k_bcache : list buf;
  k_idequeue : list nat;
  k_havedisk1 : bool;
  k_havedisk2 : bool;
  k_log : log;
  k_sb : superblock;
  k_exs : ext2_superblock;
  k_icache : list inode;
  k_iaddrs : list addrs;
  k_ext2_addrs : list addrs;
  k_pid : Z;
  k_cwd : nat
}.
Definition set_k_disk (x : gmap (Z * Z) (list Z)) (k : kstate) : kstate :=
  mk_kstate x (k_writes k) (k_bcache k) (k_idequeue k) (k_havedisk1 k) (k_havedisk2 k) (k_log k)
    (k_sb k) (k_exs k) (k_icache k) (k_iaddrs k) (k_ext2_addrs k) (k_pid k) (k_cwd k).
Definition set_k_writes (x : list (Z * Z * list Z)) (k : kstate) : kstate :=
  mk_kstate (k_disk k) x (k_bcache k) (k_idequeue k) (k_havedisk1 k) (k_havedisk2 k) (k_log k)
    (k_sb k) (k_exs k) (k_icache k) (k_iaddrs k) (k_ext2_addrs k) (k_pid k) (k_cwd k).
Definition set_k_bcache (x : list buf) (k : kstate) : kstate :=
  mk_kstate (k_disk k) (k_writes k) x (k_idequeue k) (k_havedisk1 k) (k_havedisk2 k) (k_log k)
    (k_sb k) (k_exs k) (k_icache k) (k_iaddrs k) (k_ext2_addrs k) (k_pid k) (k_cwd k).
Definition set_k_idequeue (x : list nat) (k : kstate) : kstate :=
  mk_kstate (k_disk k) (k_writes k) (k_bcache k) x (k_havedisk1 k) (k_havedisk2 k) (k_log k)
    (k_sb k) (k_exs k) (k_icache k) (k_iaddrs k) (k_ext2_addrs k) (k_pid k) (k_cwd k).
Definition set_k_havedisk1 (x : bool) (k : kstate) : kstate :=
  mk_kstate (k_disk k) (k_writes k) (k_bcache k) (k_idequeue k) x (k_havedisk2 k) (k_log k)
    (k_sb k) (k_exs k) (k_icache k) (k_iaddrs k) (k_ext2_addrs k) (k_pid k) (k_cwd k).
Definition set_k_havedisk2 (x : bool) (k : kstate) : kstate :=
  mk_kstate (k_disk k) (k_writes k) (k_bcache k) (k_idequeue k) (k_havedisk1 k) x (k_log k)
    (k_sb k) (k_exs k) (k_icache k) (k_iaddrs k) (k_ext2_addrs k) (k_pid k) (k_cwd k).
Definition set_k_log (x : log) (k : kstate) : kstate :=
  mk_kstate (k_disk k) (k_writes k) (k_bcache k) (k_idequeue k) (k_havedisk1 k) (k_havedisk2 k)
    x (k_sb k) (k_exs k) (k_icache k) (k_iaddrs k) (k_ext2_addrs k) (k_pid k) (k_cwd k).
Definition set_k_sb (x : superblock) (k : kstate) : kstate :=
  mk_kstate (k_disk k) (k_writes k) (k_bcache k) (k_idequeue k) (k_havedisk1 k) (k_havedisk2 k)
    (k_log k) x (k_exs k) (k_icache k) (k_iaddrs k) (k_ext2_addrs k) (k_pid k) (k_cwd k).
Definition set_k_exs (x : ext2_superblock) (k : kstate) : kstate :=
  mk_kstate (k_disk k) (k_writes k) (k_bcache k) (k_idequeue k) (k_havedisk1 k) (k_havedisk2 k)
    (k_log k) (k_sb k) x (k_icache k) (k_iaddrs k) (k_ext2_addrs k) (k_pid k) (k_cwd k).
Definition set_k_icache (x : list inode) (k : kstate) : kstate :=
  mk_kstate (k_disk k) (k_writes k) (k_bcache k) (k_idequeue k) (k_havedisk1 k) (k_havedisk2 k)
    (k_log k) (k_sb k) (k_exs k) x (k_iaddrs k) (k_ext2_addrs k) (k_pid k) (k_cwd k).
Definition set_k_iaddrs (x : list addrs) (k : kstate) : kstate :=
  mk_kstate (k_disk k) (k_writes k) (k_bcache k) (k_idequeue k) (k_havedisk1 k) (k_havedisk2 k)
    (k_log k) (k_sb k) (k_exs k) (k_icache k) x (k_ext2_addrs k) (k_pid k) (k_cwd k).
Definition set_k_ext2_addrs (x : list addrs) (k : kstate) : kstate :=
  mk_kstate (k_disk k) (k_writes k) (k_bcache k) (k_idequeue k) (k_havedisk1 k) (k_havedisk2 k)
    (k_log k) (k_sb k) (k_exs k) (k_icache k) (k_iaddrs k) x (k_pid k) (k_cwd k).
Definition set_k_pid (x : Z) (k : kstate) : kstate :=
  mk_kstate (k_disk k) (k_writes k) (k_bcache k) (k_idequeue k) (k_havedisk1 k) (k_havedisk2 k)
    (k_log k) (k_sb k) (k_exs k) (k_icache k) (k_iaddrs k) (k_ext2_addrs k) x (k_cwd k).
Definition set_k_cwd (x : nat) (k : kstate) : kstate :=
  mk_kstate (k_disk k) (k_writes k) (k_bcache k) (k_idequeue k) (k_havedisk1 k) (k_havedisk2 k)
    (k_log k) (k_sb k) (k_exs k) (k_icache k) (k_iaddrs k) (k_ext2_addrs k) (k_pid k) x.

Definition zero_block : list Z := replicate (Z.to_nat BSIZE) 0.

Definition disk_read (d : gmap (Z * Z) (list Z)) (dev b : Z) : list Z :=
  default zero_block (d !! (dev, b)).

(** The index of [bcache.head]. *)
Definition bhead : nat := Z.to_nat NBUF.

Definition no_lock : sleeplock := mk_sleeplock false 0.
