(* ===== verification/Driver.v ===== *)
(** * Sleep locks and the disk driver (sleeplock.c, ide.c, memide.c)

    Sleep locks as one process sees them, the buffer accessors, and the
    driver entry points: [iderw] queues the request and waits; the disk
    completes requests in queue order, each completion being a run of
    [ideintr]. *)
From S2P Require Import Prelude Params Layout KState.

(** ** sleeplock.c *)
Definition initsleeplock : sleeplock := mk_sleeplock false 0.

(** A process that finds the lock taken sleeps until [releasesleep]. *)
Definition acquiresleep (lk : sleeplock) : M kstate sleeplock :=
  if lk_locked lk then sleep_on "acquiresleep"
  else pid ← gets k_pid; mret (mk_sleeplock true pid).

Definition releasesleep (lk : sleeplock) : sleeplock := mk_sleeplock false 0.

Definition holdingsleep (lk : sleeplock) : M kstate bool :=
  pid ← gets k_pid; mret (lk_locked lk && (lk_pid lk =? pid)).

(** ** Access to [bcache.buf] *)
Definition getb (i : nat) : M kstate buf :=
  bs ← gets k_bcache; unwrap (bs !! i) "buf".

Definition updb (i : nat) (f : buf -> buf) : M kstate unit :=
  b ← getb i; modify (fun s => set_k_bcache (<[i := f b]> (k_bcache s)) s).

Definition lockb (i : nat) : M kstate unit :=
  b ← getb i; lk ← acquiresleep (b_lock b); updb i (set_b_lock lk).

(** ** ide.c *)
Module Ide.

Notation SECTOR_SIZE := 512 (only parsing).
Notation IDE_CMD_RDMUL := 196 (only parsing).
Notation IDE_CMD_WRMUL := 197 (only parsing).
Notation IDE_CMD_READ := 32 (only parsing).
Notation IDE_CMD_WRITE := 48 (only parsing).

(** The registers that [idestart] writes, in the order it writes them. *)
Definition idestart_regs (b : buf) : list (Z * Z) :=
  let sector_per_block := BSIZE / SECTOR_SIZE in
  let sector := s32 (b_blockno b * sector_per_block) in
  let read_cmd := if sector_per_block =? 1 then IDE_CMD_READ else IDE_CMD_RDMUL in
  let write_cmd := if sector_per_block =? 1 then IDE_CMD_WRITE else IDE_CMD_WRMUL in
  let portno := if b_dev b =? 1 then 496 (* 0x1f0 *) else 368 (* 0x170 *) in
  [ (if b_dev b =? 1 then 1014 (* 0x3f6 *) else 886 (* 0x376 *), 0);
    (portno + 2, u8 sector_per_block);
    (portno + 3, Z.land sector 255);
    (portno + 4, Z.land (Z.shiftr sector 8) 255);
    (portno + 5, Z.land (Z.shiftr sector 16) 255);
    (portno + 6, u8 (Z.lor (Z.lor 224 (Z.shiftl (Z.land (b_dev b) 1) 4))
                           (Z.land (Z.shiftr sector 24) 15)));
    (portno + 7, if Z.land (b_flags b) B_DIRTY =? 0 then read_cmd else write_cmd) ].

(** Start the request for buffer [i]: a write sends the data at once. *)
Definition idestart (i : nat) : M kstate unit :=
  b ← getb i;
  if (b_dev b =? 1) && (FSSIZE <=? b_blockno b) then panic "incorrect blockno"
  else if 7 <? BSIZE / SECTOR_SIZE then panic "idestart"
  else when (negb (Z.land (b_flags b) B_DIRTY =? 0))
         (modify (fun s =>
            set_k_writes (k_writes s ++ [(b_dev b, b_blockno b, b_data b)])
              (set_k_disk (<[(b_dev b, b_blockno b) := b_data b]> (k_disk s)) s))).

(** [fails dev b]: the disk answers the read of block [b] with an error, which
    [idewait(1, portno)] reports. *)
Section completion.
Context (fails : Z -> Z -> bool).

(** Completion of the request at the head of [idequeue].  When a read has
    failed, the data stays as it is, and the buffer is marked valid all the
    same. *)
Definition ideintr : M kstate unit :=
  q ← gets k_idequeue;
  match q with
  | [] => mret tt
  | i :: q' =>
      modify (set_k_idequeue q') ;;
      b ← getb i;
      d ← gets (fun s => disk_read (k_disk s) (b_dev b) (b_blockno b));
      when ((Z.land (b_flags b) B_DIRTY =? 0) && negb (fails (b_dev b) (b_blockno b))) (updb i (set_b_data d)) ;;
      updb i (set_b_flags (Z.ldiff (Z.lor (b_flags b) B_VALID) B_DIRTY)) ;;
      match q' with
      | [] => mret tt
      | j :: _ => idestart j
      end
  end.

(** [while((b->flags & (B_VALID|B_DIRTY)) != B_VALID) sleep(b, &idelock);]
    each sleep lets the disk complete one request. *)
Fixpoint idewait_done (fuel : nat) (i : nat) : M kstate unit :=
  b ← getb i;
  if Z.land (b_flags b) (Z.lor B_VALID B_DIRTY) =? B_VALID then mret tt
  else match fuel with
       | O => sleep_on "iderw"
       | S fuel => ideintr ;; idewait_done fuel i
       end.

Definition iderw (i : nat) : M kstate unit :=
  b ← getb i;
  h ← holdingsleep (b_lock b);
  if negb h then panic "iderw: buf not locked"
  else if Z.land (b_flags b) (Z.lor B_VALID B_DIRTY) =? B_VALID then panic "iderw: nothing to do"
  else
    h1 ← gets k_havedisk1;
    if negb (b_dev b =? 0) && negb h1 then panic "iderw: ide disk 1 not present"
    else
      h2 ← gets k_havedisk2;
      if negb (b_dev b =? 0) && negb h2 then panic "iderw: ide disk 2 not present"
      else
        q ← gets k_idequeue;
        modify (set_k_idequeue (q ++ [i])) ;;
        match q with [] => idestart i | _ :: _ => mret tt end ;;
        q ← gets k_idequeue;
        idewait_done (length q) i.
End completion.

End Ide.

(** ** memide.c: the disk image in memory, for device 1 only. *)
Module Memide.
Section memide.
Context (disksize : Z).

Definition iderw (i : nat) : M kstate unit :=
  b ← getb i;
  h ← holdingsleep (b_lock b);
  if negb h then panic "iderw: buf not locked"
  else if Z.land (b_flags b) (Z.lor B_VALID B_DIRTY) =? B_VALID then panic "iderw: nothing to do"
  else if negb (b_dev b =? 1) then panic "iderw: request not for disk 1"
  else if disksize <=? b_blockno b then panic "iderw: block out of range"
  else
    (if negb (Z.land (b_flags b) B_DIRTY =? 0) then
       updb i (set_b_flags (Z.ldiff (b_flags b) B_DIRTY)) ;;
       modify (fun s =>
         set_k_writes (k_writes s ++ [(b_dev b, b_blockno b, b_data b)])
           (set_k_disk (<[(b_dev b, b_blockno b) := b_data b]> (k_disk s)) s))
     else
       d ← gets (fun s => disk_read (k_disk s) (b_dev b) (b_blockno b));
       updb i (set_b_data d)) ;;
    b ← getb i;
    updb i (set_b_flags (Z.lor (b_flags b) B_VALID)).
End memide.
End Memide.

(** ** What a disk driver promises to the buffer cache

    The comment above [iderw]: "If B_DIRTY is set, write buf to disk, clear
    B_DIRTY, set B_VALID.  Else if B_VALID is not set, read buf from disk,
    set B_VALID." *)
Definition io_flags (f : Z) : Z := Z.ldiff (Z.lor f B_VALID) B_DIRTY.

Definition disk_write (dev blockno : Z) (d : list Z) (s : kstate) : kstate :=
  set_k_writes (k_writes s ++ [(dev, blockno, d)])
    (set_k_disk (<[(dev, blockno) := d]> (k_disk s)) s).

Definition sync_write (i : nat) (b : buf) (s : kstate) : kstate :=
  disk_write (b_dev b) (b_blockno b) (b_data b)
    (set_k_bcache (<[i := set_b_flags (io_flags (b_flags b)) b]> (k_bcache s)) s).

Definition sync_read (i : nat) (b : buf) (s : kstate) : kstate :=
  set_k_bcache
    (<[i := set_b_flags (io_flags (b_flags b))
              (set_b_data (disk_read (k_disk s) (b_dev b) (b_blockno b)) b)]> (k_bcache s)) s.

Definition is_valid (b : buf) : bool := negb (Z.land (b_flags b) B_VALID =? 0).
Definition is_dirty (b : buf) : bool := negb (Z.land (b_flags b) B_DIRTY =? 0).
Definition locked_by (pid : Z) (b : buf) : Prop := b_lock b = mk_sleeplock true pid.

Class DiskDriver := {
  iderw : nat -> M kstate unit;
  (** the requests the driver accepts *)
  dd_ok : kstate -> Z -> Z -> Prop;
  dd_ok_frame s s' dev b :
    k_idequeue s' = k_idequeue s -> k_havedisk1 s' = k_havedisk1 s ->
    k_havedisk2 s' = k_havedisk2 s -> dd_ok s dev b -> dd_ok s' dev b;
  iderw_write s i b :
    k_bcache s !! i = Some b -> locked_by (k_pid s) b -> is_dirty b = true ->
    dd_ok s (b_dev b) (b_blockno b) ->
    iderw i s = Ret tt (sync_write i b s);
  iderw_read s i b :
    k_bcache s !! i = Some b -> locked_by (k_pid s) b ->
    is_dirty b = false -> is_valid b = false ->
    dd_ok s (b_dev b) (b_blockno b) ->
    iderw i s = Ret tt (sync_read i b s)
}.

(** *** Both drivers keep the promise *)
Lemma land_vd_dirty f :
  negb (Z.land f B_DIRTY =? 0) = true -> (Z.land f (Z.lor B_VALID B_DIRTY) =? B_VALID) = false.
Proof.
  rewrite negb_true_iff, Z.eqb_neq, Z.eqb_neq. intros Hd Hv. apply Hd.
  replace (Z.land f B_DIRTY) with (Z.land (Z.land f (Z.lor B_VALID B_DIRTY)) B_DIRTY)
    by (rewrite <- Z.land_assoc; done). by rewrite Hv.
Qed.

Lemma land_vd_invalid f :
  negb (Z.land f B_VALID =? 0) = false -> (Z.land f (Z.lor B_VALID B_DIRTY) =? B_VALID) = false.
Proof.
  rewrite negb_false_iff, Z.eqb_eq, Z.eqb_neq. intros Hd Hv.
  assert (Z.land (Z.land f (Z.lor B_VALID B_DIRTY)) B_VALID = 0) as H
    by (rewrite <- Z.land_assoc; done). by rewrite Hv in H.
Qed.

Lemma io_flags_done f : Z.land (io_flags f) (Z.lor B_VALID B_DIRTY) = B_VALID.
Proof.
  apply Z.bits_inj'. intros n Hn. unfold io_flags.
  rewrite Z.land_spec, Z.ldiff_spec, !Z.lor_spec.
  change B_VALID with (2 ^ 1). change B_DIRTY with (2 ^ 2).
  rewrite !Z.pow2_bits_eqb by lia.
  destruct (Z.eqb_spec 1 n), (Z.eqb_spec 2 n), (Z.testbit f n); subst; done.
Qed.

Lemma io_flags_comm f : Z.lor (Z.ldiff f B_DIRTY) B_VALID = io_flags f.
Proof.
  apply Z.bits_inj'. intros n Hn. unfold io_flags.
  rewrite Z.ldiff_spec, !Z.lor_spec, Z.ldiff_spec.
  change B_VALID with (2 ^ 1). change B_DIRTY with (2 ^ 2).
  rewrite !Z.pow2_bits_eqb by lia.
  destruct (Z.eqb_spec 1 n), (Z.eqb_spec 2 n), (Z.testbit f n); subst; done.
Qed.

Lemma getb_Some s i b : k_bcache s !! i = Some b -> getb i s = Ret b s.
Proof. intros H. unfold getb, mbind, M_bind, gets. by rewrite H. Qed.

Lemma updb_Some s i b f :
  k_bcache s !! i = Some b -> updb i f s = Ret tt (set_k_bcache (<[i := f b]> (k_bcache s)) s).
Proof. intros H. unfold updb, mbind, M_bind. by rewrite (getb_Some _ _ _ H). Qed.

(** The requests that ide.c serves as promised: those the disk does not fail. *)
Definition ide_ok (fails : Z -> Z -> bool) (s : kstate) (dev blockno : Z) : Prop :=
  k_idequeue s = [] /\ k_havedisk1 s = true /\ k_havedisk2 s = true /\
  (dev = 1 -> blockno < FSSIZE) /\ fails dev blockno = false.

Lemma set_k_idequeue_id s : set_k_idequeue (k_idequeue s) s = s.
Proof. by destruct s. Qed.

Lemma idestart_run s i b :
  k_bcache s !! i = Some b -> (b_dev b = 1 -> b_blockno b < FSSIZE) ->
  Ide.idestart i s =
    Ret tt (if is_dirty b then disk_write (b_dev b) (b_blockno b) (b_data b) s else s).
Proof.
  intros Hb Hok. unfold Ide.idestart. run (getb_Some _ _ _ Hb).
  destruct (Z.eqb_spec (b_dev b) 1) as [E|E]; simpl.
  - destruct (Z.leb_spec FSSIZE (b_blockno b)); [specialize (Hok E); lia|].
    unfold is_dirty, when. by destruct (Z.land _ _ =? 0).
  - unfold is_dirty, when. by destruct (Z.land _ _ =? 0).
Qed.

(** One completion: the buffer at the head of a queue of one is done. *)
Lemma idewait_done_run fails s i b :
  k_bcache s !! i = Some b -> k_idequeue s = [i] -> fails (b_dev b) (b_blockno b) = false ->
  (Z.land (b_flags b) (Z.lor B_VALID B_DIRTY) =? B_VALID) = false ->
  Ide.idewait_done fails 1 i s =
    Ret tt (set_k_idequeue []
      (if is_dirty b
       then set_k_bcache (<[i := set_b_flags (io_flags (b_flags b)) b]> (k_bcache s)) s
       else sync_read i b s)).
Proof.
  intros Hb Hq Hfa Hf. pose proof (lookup_lt_Some _ _ _ Hb) as Hlt.
  cbn [Ide.idewait_done]. run (getb_Some _ _ _ Hb). rewrite Hf.
  unfold Ide.ideintr. rewrite !bind_bind, bind_gets, Hq. run_steps.
  run (getb_Some (set_k_idequeue [] s) _ _ Hb). run_steps. rewrite Hfa, andb_true_r. unfold when, is_dirty.
  destruct (Z.land (b_flags b) B_DIRTY =? 0); simpl negb.
  - run (updb_Some (set_k_idequeue [] s) i b (set_b_data (disk_read (k_disk s) (b_dev b) (b_blockno b))) Hb).
    set (s1 := set_k_bcache _ _).
    assert (k_bcache s1 !! i = Some (set_b_data (disk_read (k_disk s) (b_dev b) (b_blockno b)) b)) as H1
      by (unfold s1; simpl; by rewrite list_lookup_insert_eq).
    run (updb_Some _ _ _ (set_b_flags (io_flags (b_flags b))) H1). run_steps.
    set (s2 := set_k_bcache _ _).
    assert (exists b', k_bcache s2 !! i = Some b' /\ b_flags b' = io_flags (b_flags b)) as (b' & H2 & Hf').
    { eexists. split; [unfold s2; simpl; rewrite list_lookup_insert_eq; [done|by rewrite length_insert]|done]. }
    run (getb_Some _ _ _ H2). rewrite Hf', io_flags_done. simpl.
    unfold s2, s1, sync_read. simpl. rewrite list_insert_insert_eq. by destruct s.
  - run_steps. run (updb_Some (set_k_idequeue [] s) i b (set_b_flags (io_flags (b_flags b))) Hb).
    run_steps. set (s2 := set_k_bcache _ _).
    assert (exists b', k_bcache s2 !! i = Some b' /\ b_flags b' = io_flags (b_flags b)) as (b' & H2 & Hf').
    { eexists. split; [unfold s2; simpl; by rewrite list_lookup_insert_eq|done]. }
    run (getb_Some _ _ _ H2). rewrite Hf', io_flags_done. simpl. by destruct s.
Qed.

Lemma holdingsleep_run s b : locked_by (k_pid s) b -> holdingsleep (b_lock b) s = Ret true s.
Proof. intros ->. unfold holdingsleep. simpl. run_steps. by rewrite Z.eqb_refl. Qed.

Lemma ide_iderw_run fails s i b :
  k_bcache s !! i = Some b -> locked_by (k_pid s) b ->
  (Z.land (b_flags b) (Z.lor B_VALID B_DIRTY) =? B_VALID) = false ->
  ide_ok fails s (b_dev b) (b_blockno b) ->
  Ide.iderw fails i s = Ret tt (if is_dirty b then sync_write i b s else sync_read i b s).
Proof.
  intros Hb Hl Hf (Hq & H1 & H2 & Hok & Hfa). unfold Ide.iderw.
  run (getb_Some _ _ _ Hb). run (holdingsleep_run _ _ Hl). rewrite Hf.
  cbv iota. run_steps. rewrite H1; cbn [negb]; rewrite andb_false_r. run_steps. rewrite H2; cbn [negb]; rewrite andb_false_r. run_steps.
  rewrite Hq. simpl app.
  run (idestart_run (set_k_idequeue [i] s) i b Hb Hok). run_steps.
  destruct (is_dirty b) eqn:Hd; cbv iota; cbn [length k_idequeue set_k_idequeue disk_write set_k_writes set_k_disk].
  - erewrite (idewait_done_run fails (disk_write _ _ _ (set_k_idequeue [i] s)) i b); [|done..].
    rewrite Hd. destruct s; simpl in *; subst; done.
  - erewrite (idewait_done_run fails (set_k_idequeue [i] s) i b); [|done..].
    rewrite Hd. destruct s; simpl in *; subst; done.
Qed.

Program Definition ide_driver_of (fails : Z -> Z -> bool) : DiskDriver := {|
  iderw := Ide.iderw fails;
  dd_ok := ide_ok fails
|}.
Next Obligation. unfold ide_ok. intros * -> -> ->. done. Qed.
Next Obligation.
  intros fails s i b Hb Hl Hd Hok. rewrite (ide_iderw_run fails s i b); auto using land_vd_dirty. by rewrite Hd.
Qed.
Next Obligation.
  intros fails s i b Hb Hl Hd Hv Hok. rewrite (ide_iderw_run fails s i b); auto using land_vd_invalid. by rewrite Hd.
Qed.

Definition ide_driver : DiskDriver := ide_driver_of (fun _ _ => false).

(** A failed read returns, with the buffer marked valid and its old data. *)
Lemma ide_failed_read fails s i b :
  k_bcache s !! i = Some b -> locked_by (k_pid s) b -> is_dirty b = false -> is_valid b = false ->
  k_idequeue s = [] -> k_havedisk1 s = true -> k_havedisk2 s = true -> (b_dev b = 1 -> b_blockno b < FSSIZE) ->
  fails (b_dev b) (b_blockno b) = true ->
  Ide.iderw fails i s = Ret tt (set_k_bcache (<[i := set_b_flags (io_flags (b_flags b)) b]> (k_bcache s)) s).
Proof.
  intros Hb Hl Hd Hv Hq H1 H2 Hok Hfa. pose proof (lookup_lt_Some _ _ _ Hb) as Hlt. unfold Ide.iderw.
  run (getb_Some _ _ _ Hb). run (holdingsleep_run _ _ Hl). rewrite (land_vd_invalid _ Hv).
  cbv iota. run_steps. rewrite H1; cbn [negb]; rewrite andb_false_r. run_steps. rewrite H2; cbn [negb]; rewrite andb_false_r. run_steps.
  rewrite Hq. simpl app. run (idestart_run (set_k_idequeue [i] s) i b Hb Hok). run_steps. rewrite Hd. cbn [length k_idequeue set_k_idequeue].
  cbn [Ide.idewait_done]. run (getb_Some (set_k_idequeue [i] s) _ _ Hb). rewrite (land_vd_invalid _ Hv).
  unfold Ide.ideintr. rewrite !bind_bind, bind_gets. cbn [k_idequeue set_k_idequeue]. run_steps.
  run (getb_Some (set_k_idequeue [] (set_k_idequeue [i] s)) _ _ Hb). run_steps. rewrite Hfa, andb_false_r. cbn [when]. run_steps.
  run (updb_Some (set_k_idequeue [] (set_k_idequeue [i] s)) i b (set_b_flags (io_flags (b_flags b))) Hb). run_steps.
  set (s2 := set_k_bcache _ _).
  assert (k_bcache s2 !! i = Some (set_b_flags (io_flags (b_flags b)) b)) as Hs2 by (unfold s2; simpl; by rewrite list_lookup_insert_eq).
  run (getb_Some _ _ _ Hs2). cbn [b_flags set_b_flags]. rewrite io_flags_done. simpl. unfold s2. destruct s; simpl in *; by subst.
Qed.

(** memide.c: the same promise, for the blocks of the image. *)
Definition memide_ok (disksize : Z) (s : kstate) (dev blockno : Z) : Prop :=
  dev = 1 /\ blockno < disksize.

Lemma memide_iderw_run disksize s i b :
  k_bcache s !! i = Some b -> locked_by (k_pid s) b ->
  (Z.land (b_flags b) (Z.lor B_VALID B_DIRTY) =? B_VALID) = false ->
  memide_ok disksize s (b_dev b) (b_blockno b) ->
  Memide.iderw disksize i s = Ret tt (if is_dirty b then sync_write i b s else sync_read i b s).
Proof.
  intros Hb Hl Hf (Hdev & Hlt). pose proof (lookup_lt_Some _ _ _ Hb) as Hlen.
  unfold Memide.iderw. run (getb_Some _ _ _ Hb). run (holdingsleep_run _ _ Hl).
  rewrite Hf, Hdev, Z.eqb_refl. cbn [negb].
  destruct (Z.leb_spec disksize (b_blockno b)); [lia|]. cbv iota.
  change (negb (Z.land (b_flags b) B_DIRTY =? 0)) with (is_dirty b).
  destruct (is_dirty b) eqn:Hd; cbv iota.
  - rewrite bind_bind. run (updb_Some _ _ _ (set_b_flags (Z.ldiff (b_flags b) B_DIRTY)) Hb). run_steps.
    set (s1 := set_k_writes _ _).
    assert (k_bcache s1 !! i = Some (set_b_flags (Z.ldiff (b_flags b) B_DIRTY) b)) as H1
      by (unfold s1; simpl; by rewrite list_lookup_insert_eq).
    run (getb_Some _ _ _ H1). rewrite (updb_Some _ _ _ _ H1). cbn [b_flags set_b_flags].
    rewrite io_flags_comm. unfold s1, sync_write, disk_write. simpl.
    rewrite list_insert_insert_eq, Hdev. by destruct s.
  - run_steps. rewrite <- Hdev. run (updb_Some _ _ _ (set_b_data (disk_read (k_disk s) (b_dev b) (b_blockno b))) Hb).
    set (s1 := set_k_bcache _ _).
    assert (k_bcache s1 !! i = Some (set_b_data (disk_read (k_disk s) (b_dev b) (b_blockno b)) b)) as H1
      by (unfold s1; simpl; by rewrite list_lookup_insert_eq).
    run (getb_Some _ _ _ H1). rewrite (updb_Some _ _ _ _ H1). cbn [b_flags set_b_data].
    unfold s1, sync_read. simpl. rewrite list_insert_insert_eq.
    assert (Z.lor (b_flags b) B_VALID = io_flags (b_flags b)) as ->; [|by destruct s].
    apply negb_false_iff, Z.eqb_eq in Hd. rewrite <- io_flags_comm. f_equal.
    symmetry. apply Z.bits_inj'. intros n Hn. rewrite Z.ldiff_spec.
    apply (f_equal (fun z => Z.testbit z n)) in Hd. rewrite Z.land_spec, Z.bits_0 in Hd.
    by destruct (Z.testbit (b_flags b) n), (Z.testbit B_DIRTY n).
Qed.

Program Definition memide_driver (disksize : Z) : DiskDriver := {|
  iderw := Memide.iderw disksize;
  dd_ok := memide_ok disksize
|}.
Next Obligation. done. Qed.
Next Obligation.
  intros n s i b Hb Hl Hd Hok. rewrite (memide_iderw_run n s i b); auto using land_vd_dirty.
  by rewrite Hd.
Qed.
Next Obligation.
  intros n s i b Hb Hl Hd Hv Hok. rewrite (memide_iderw_run n s i b); auto using land_vd_invalid.
  by rewrite Hd.
Qed.

(** ** Theorems *)

(** The two drivers cannot be told apart on a request for device 1 inside
    both disks when the queue is empty, errors included. *)
Theorem ide_memide_agree fails disksize i s b :
  k_bcache s !! i = Some b -> b_dev b = 1 -> b_blockno b < FSSIZE -> b_blockno b < disksize ->
  k_idequeue s = [] -> k_havedisk1 s = true -> k_havedisk2 s = true -> fails 1 (b_blockno b) = false ->
  Ide.iderw fails i s = Memide.iderw disksize i s.
Proof.
  intros Hb Hdev Hf Hd Hq H1 H2 Hfa. rewrite <- Hdev in Hfa.
  destruct (lk_locked (b_lock b) && (lk_pid (b_lock b) =? k_pid s)) eqn:Hl.
  - assert (locked_by (k_pid s) b) as Hlk.
    { unfold locked_by. apply andb_true_iff in Hl as [? E%Z.eqb_eq]. destruct (b_lock b); by simplify_eq/=. }
    destruct (Z.land (b_flags b) (Z.lor B_VALID B_DIRTY) =? B_VALID) eqn:Hfl.
    + unfold Ide.iderw, Memide.iderw. do 2 (run (getb_Some _ _ _ Hb); run (holdingsleep_run _ _ Hlk); rewrite Hfl).
      done.
    + rewrite (ide_iderw_run fails s i b), (memide_iderw_run disksize s i b); done.
  - unfold Ide.iderw, Memide.iderw. do 2 run (getb_Some _ _ _ Hb).
    unfold holdingsleep. run_steps. by rewrite Hl.
Qed.

(** *** The disk address in the task-file registers *)

(** The sectors that the ATA controller on the port of [regs] transfers:
    channel, drive, first sector (28-bit LBA) and count. *)
Definition reg (regs : list (Z * Z)) (i : nat) : Z := default 0 ((regs !! i) ≫= fun r => Some r.2).
Definition regs_lba (regs : list (Z * Z)) : Z :=
  reg regs 2 + 2 ^ 8 * reg regs 3 + 2 ^ 16 * reg regs 4 + 2 ^ 24 * Z.land (reg regs 5) 15.
Definition regs_drive (regs : list (Z * Z)) : Z := Z.land (Z.shiftr (reg regs 5) 4) 1.
Definition regs_port (regs : list (Z * Z)) : Z := default 0 ((regs !! 1%nat) ≫= fun r => Some (r.1 - 2)).

Lemma land_ones8 z : Z.land z 255 = z mod 2 ^ 8.
Proof. by rewrite <- (Z.land_ones z 8). Qed.

Lemma lba_split z : 0 <= z < 2 ^ 28 ->
  z mod 2 ^ 8 + 2 ^ 8 * ((z / 2 ^ 8) mod 2 ^ 8) + 2 ^ 16 * ((z / 2 ^ 16) mod 2 ^ 8) +
  2 ^ 24 * ((z / 2 ^ 24) mod 2 ^ 4) = z.
Proof. intros H. Z.div_mod_to_equations. lia. Qed.

Lemma drive_head z d : 0 <= d <= 1 ->
  let r := u8 (Z.lor (Z.lor 224 (Z.shiftl d 4)) (Z.land (Z.shiftr z 24) 15)) in
  Z.land r 15 = Z.land (Z.shiftr z 24) 15 /\ Z.land (Z.shiftr r 4) 1 = d.
Proof.
  intros Hd r. subst r. change 15 with (Z.ones 4). rewrite (Z.land_ones (Z.shiftr z 24)) by lia.
  pose proof (Z.mod_pos_bound (Z.shiftr z 24) (2 ^ 4) ltac:(lia)) as Hb. revert Hb.
  generalize (Z.shiftr z 24 mod 2 ^ 4). intros x Hx.
  assert (x ∈ seqZ 0 16) as Hin by (apply elem_of_seqZ; lia).
  assert (d ∈ seqZ 0 2) as Hin2 by (apply elem_of_seqZ; lia).
  revert x Hx Hin d Hd Hin2.
  assert (Forall (fun x => Forall (fun d => 
     Z.land (u8 (Z.lor (Z.lor 224 (Z.shiftl d 4)) x)) (Z.ones 4) = x /\
     Z.land (Z.shiftr (u8 (Z.lor (Z.lor 224 (Z.shiftl d 4)) x)) 4) 1 = d) (seqZ 0 2)) (seqZ 0 16)) as HF.
  { repeat constructor. }
  intros x Hx Hin d Hd Hin2. rewrite Forall_forall in HF. specialize (HF x Hin).
  rewrite Forall_forall in HF. by apply HF.
Qed.

(** The registers that [idestart] writes make the controller transfer the
    four sectors of the buffer's block, on the primary channel's second drive
    for device 1 and on the secondary channel for any other device. *)
Theorem idestart_addresses b :
  0 <= b_blockno b < 2 ^ 26 -> 
  let regs := Ide.idestart_regs b in
  regs_lba regs = b_blockno b * (BSIZE / Ide.SECTOR_SIZE) /\
  reg regs 1 = BSIZE / Ide.SECTOR_SIZE /\
  regs_port regs = (if b_dev b =? 1 then 496 else 368) /\
  regs_drive regs = b_dev b mod 2.
Proof.
  intros Hb regs. change (BSIZE / Ide.SECTOR_SIZE) with 4.
  assert (Z.land (b_dev b) 1 = b_dev b mod 2) as Hd1 by apply (Z.land_ones (b_dev b) 1 ltac:(lia)).
  assert (0 <= Z.land (b_dev b) 1 <= 1) as Hd by (rewrite Hd1; pose proof (Z.mod_pos_bound (b_dev b) 2); lia).
  destruct (drive_head (s32 (b_blockno b * 4)) _ Hd) as [E1 E2].
  split_and!.
  - unfold regs_lba, reg, regs, Ide.idestart_regs. change (BSIZE / Ide.SECTOR_SIZE) with 4. simpl.
    rewrite E1. rewrite s32_small by lia. rewrite !land_ones8, !Z.shiftr_div_pow2 by lia.
    change 15 with (Z.ones 4). rewrite Z.land_ones by lia. apply lba_split. lia.
  - done.
  - unfold regs_port. simpl. destruct (b_dev b =? 1); done.
  - unfold regs_drive, reg, regs, Ide.idestart_regs. change (BSIZE / Ide.SECTOR_SIZE) with 4. simpl.
    by rewrite E2.
Qed.

(** ** The theorems at concrete states *)
Definition demo_buf : buf := mk_buf B_DIRTY 1 7 (mk_sleeplock true 3) 1 0 0 [1; 2; 3].
Definition demo_req (pid : Z) : kstate :=
  mk_kstate ∅ [] [demo_buf] [] true true (mk_log 0 0 0 false 0 0 [])
    (mk_superblock 0 0 0 0 0 0 0) (dec_ext2_superblock []) [] [] [] pid 0.

Lemma ide_memide_agree_witness :
  Ide.iderw (fun _ _ => false) 0 (demo_req 3) = Memide.iderw 500 0 (demo_req 3) /\
  Ide.iderw (fun _ _ => false) 0 (demo_req 4) = Memide.iderw 500 0 (demo_req 4).
Proof. split; apply (ide_memide_agree (fun _ _ => false) 500 0 _ demo_buf); reflexivity. Defined.

Lemma idestart_addresses_witness :
  regs_lba (Ide.idestart_regs demo_buf) = 28 /\ regs_port (Ide.idestart_regs demo_buf) = 496.
Proof.
  destruct (idestart_addresses demo_buf) as (E1 & _ & E2 & _); [simpl; lia|].
  split; [exact E1|exact E2].
Defined.
