(* ===== verification/Dll.v ===== *)
(** * Doubly linked segments

    [dll nx pv p l e]: from node [p], the [next] links go through the nodes
    [l] and reach [e], and the [prev] links go back.  A circular list with
    head [h] and nodes [l] is [dll nx pv h l h]. *)
From S2P Require Import Prelude.

Fixpoint dll (nx pv : nat -> nat) (p : nat) (l : list nat) (e : nat) : Prop :=
  match l with
  | [] => nx p = e /\ pv e = p
  | x :: l => nx p = x /\ pv x = p /\ dll nx pv x l e
  end.

Definition upd (f : nat -> nat) (i v : nat) : nat -> nat :=
  fun j => if decide (j = i) then v else f j.

Lemma upd_eq f i v : upd f i v i = v.
Proof. unfold upd. by rewrite decide_True. Qed.
Lemma upd_ne f i v j : j <> i -> upd f i v j = f j.
Proof. intros. unfold upd. by rewrite decide_False. Qed.

Lemma upd_ext f g i v j : (forall k, f k = g k) -> upd f i v j = upd g i v j.
Proof. intros H. unfold upd. by rewrite H. Qed.

Definition last_node (p : nat) (l : list nat) : nat := List.last l p.
Arguments last_node : simpl never.

Lemma dll_app nx pv p l1 x l2 e :
  dll nx pv p (l1 ++ x :: l2) e <-> dll nx pv p l1 x /\ dll nx pv x l2 e.
Proof.
  revert p. induction l1 as [|y l1 IH]; intros p; simpl; [tauto|]. rewrite IH. tauto.
Qed.

Lemma dll_frame nx pv nx' pv' p l e :
  (forall i, i ∈ p :: l -> nx' i = nx i) -> (forall i, i ∈ l ++ [e] -> pv' i = pv i) ->
  dll nx pv p l e -> dll nx' pv' p l e.
Proof.
  revert p. induction l as [|x l IH]; intros p Hn Hp; simpl.
  - intros [Hx Hy]. rewrite <- Hx at 1. rewrite <- Hy. split; [apply Hn|apply Hp]; set_solver.
  - intros (Hy & Hx & H). split; [rewrite <- Hy; apply Hn; set_solver|]. split.
    + rewrite <- Hx. apply Hp. set_solver.
    + apply IH; [..|done]; intros; [apply Hn|apply Hp]; set_solver.
Qed.

Lemma dll_next nx pv p l e : dll nx pv p l e -> nx p = hd e l.
Proof. destruct l; simpl; tauto. Qed.

Lemma last_node_cons p x l : last_node p (x :: l) = last_node x l.
Proof.
  unfold last_node. revert x p. induction l as [|y l IH]; intros x p; [done|].
  change (List.last (y :: l) p = List.last (y :: l) x). destruct l; [done|].
  rewrite (IH y p), (IH y x). done.
Qed.

Lemma last_node_elem p l : last_node p l ∈ p :: l.
Proof.
  revert p. induction l as [|x l IH]; intros p; [set_solver|].
  rewrite last_node_cons. specialize (IH x). set_solver.
Qed.

Lemma dll_last nx pv p l e : dll nx pv p l e -> nx (last_node p l) = e /\ pv e = last_node p l.
Proof.
  revert p. induction l as [|x l IH]; intros p; [done|].
  simpl. intros (_ & _ & H). rewrite last_node_cons. by apply IH.
Qed.

(** The last link of a segment is redirected to [e']. *)
Lemma dll_retarget nx pv p l e e' :
  NoDup (p :: l) -> e' ∉ l -> dll nx pv p l e ->
  dll (upd nx (last_node p l) e') (upd pv e' (last_node p l)) p l e'.
Proof.
  revert p. induction l as [|x l IH]; intros p Hnd He H.
  - simpl. unfold last_node. simpl. by rewrite !upd_eq.
  - destruct H as (Hn & Hp & H). rewrite last_node_cons. simpl.
    apply NoDup_cons in Hnd as [Hpn Hnd].
    assert (p <> last_node x l) by (intros ->; apply Hpn, last_node_elem).
    assert (x <> e') by set_solver.
    rewrite !upd_ne by done. split; [done|]. split; [done|]. apply IH; [done|set_solver|done].
Qed.

Lemma dll_unlink nx pv h l1 b l2 :
  NoDup (h :: l1 ++ b :: l2) -> dll nx pv h (l1 ++ b :: l2) h ->
  dll (upd nx (pv b) (nx b)) (upd pv (nx b) (pv b)) h (l1 ++ l2) h.
Proof.
  intros Hnd H. apply dll_app in H as [H1 H2].
  destruct (dll_last _ _ _ _ _ H1) as [_ ->]. rewrite (dll_next _ _ _ _ _ H2).
  assert (NoDup (h :: l1)) as Hnd1.
  { apply NoDup_cons in Hnd as [Hh Hnd]. apply NoDup_app in Hnd as (Hnd & _ & _).
    apply NoDup_cons. set_solver. }
  apply NoDup_cons in Hnd as [Hh Hnd]. apply NoDup_app in Hnd as (Hn1 & Hdis & Hn2).
  apply NoDup_cons in Hn2 as [Hb Hn2].
  pose proof (last_node_elem h l1) as Hlast.
  destruct l2 as [|x l2]; simpl hd.
  - rewrite app_nil_r. eapply dll_retarget; [done| |done]. set_solver.
  - apply NoDup_cons in Hn2 as [Hx Hn2]. apply dll_app. split.
    + eapply dll_retarget; [done| |done]. intros Hin. apply (Hdis x); set_solver.
    + destruct H2 as (_ & _ & H2). eapply dll_frame; [| |exact H2]; intros i Hi; apply upd_ne.
      * intros ->. apply elem_of_cons in Hlast as [E|Hl].
        { rewrite E in Hi. set_solver. }
        { eapply Hdis; [exact Hl|set_solver]. }
      * intros ->. set_solver.
Qed.

Lemma dll_push nx pv h b l :
  NoDup (h :: b :: l) -> dll nx pv h l h ->
  dll (upd (upd nx b (nx h)) h b) (upd (upd pv b h) (nx h) b) h (b :: l) h.
Proof.
  intros Hnd H. apply NoDup_cons in Hnd as [Hh Hnd]. apply NoDup_cons in Hnd as [Hb Hnd].
  assert (b <> h) by set_solver. rewrite (dll_next _ _ _ _ _ H). simpl.
  rewrite upd_eq. destruct l as [|x l]; simpl.
  - unfold upd. repeat case_decide; done.
  - apply NoDup_cons in Hnd as [Hx Hnd]. assert (b <> x) by set_solver.
    split_and!; [done|unfold upd; repeat case_decide; done..|].
    destruct H as (_ & _ & H).
    eapply dll_frame; [| |exact H]; intros i Hi.
    + assert (i <> h /\ i <> b) as [] by set_solver. by rewrite !upd_ne.
    + assert (i <> x /\ i <> b) as [] by set_solver. by rewrite !upd_ne.
Qed.

(** What [brelse] does: unlink a node and push it behind the head. *)
Lemma dll_move_front nx pv h l1 b l2 :
  let nx1 := upd nx (pv b) (nx b) in
  let pv1 := upd pv (nx b) (pv b) in
  NoDup (h :: l1 ++ b :: l2) -> dll nx pv h (l1 ++ b :: l2) h ->
  dll (upd (upd nx1 b (nx1 h)) h b) (upd (upd pv1 b h) (nx1 h) b) h (b :: l1 ++ l2) h.
Proof.
  intros nx1 pv1 Hnd H. apply dll_push.
  - apply NoDup_cons in Hnd as [Hh Hnd].
    apply NoDup_cons. split; [set_solver|].
    by rewrite Permutation_middle.
  - by apply dll_unlink.
Qed.

(** Following [prev] from the end visits the nodes backwards. *)
Lemma dll_prev nx pv p l e : dll nx pv p l e -> pv e = hd p (rev l).
Proof.
  intros H. apply dll_last in H as [_ ->]. unfold last_node.
  destruct l as [|x l] using rev_ind; [done|].
  by rewrite rev_app_distr, last_last.
Qed.
