(* ===== verification/Bio.v ===== *)
(** * Buffer cache (bio.c)

    [bcache] is a doubly linked circular list of [NBUF] buffers through
    [bcache.head], most recently used first.  The operations are translated
    at pointer level, over any disk driver.  The file shows that the links
    always form one cycle through all buffers ([bc_wf]), and what each
    operation does to the contents of the blocks as the rest of the kernel
    sees them ([bview]). *)
From S2P Require Import Prelude Params Layout KState Driver Dll.

Section bio.
Context {DD : DiskDriver}.

(** ** The operations *)
Definition binit_step (b : nat) : M kstate unit :=
  h ← getb bhead;
  updb b (fun x => set_b_prev bhead (set_b_next (b_next h) x)) ;;
  updb b (set_b_lock initsleeplock) ;;
  updb (b_next h) (set_b_prev b) ;;
  updb bhead (set_b_next b).

Fixpoint binit_loop (bs : list nat) : M kstate unit :=
  match bs with
  | [] => mret tt
  | b :: bs => binit_step b ;; binit_loop bs
  end.

Definition binit : M kstate unit :=
  updb bhead (fun x => set_b_next bhead (set_b_prev bhead x)) ;;
  binit_loop (seq 0 (Z.to_nat NBUF)).

(** Is the block already cached?  From [b], following [next]. *)
Fixpoint bget_cached (fuel : nat) (b : nat) (dev blockno : Z) : M kstate (option nat) :=
  match fuel with
  | O => out_of_fuel
  | S fuel =>
      if decide (b = bhead) then mret None
      else
        x ← getb b;
        if (b_dev x =? dev) && (b_blockno x =? blockno) then mret (Some b)
        else bget_cached fuel (b_next x) dev blockno
  end.

(** Not cached; an unused buffer, from [b], following [prev]. *)
Fixpoint bget_unused (fuel : nat) (b : nat) : M kstate (option nat) :=
  match fuel with
  | O => out_of_fuel
  | S fuel =>
      if decide (b = bhead) then mret None
      else
        x ← getb b;
        if (b_refcnt x =? 0) && (Z.land (b_flags x) B_DIRTY =? 0) then mret (Some b)
        else bget_unused fuel (b_prev x)
  end.

Definition bget (dev blockno : Z) : M kstate nat :=
  h ← getb bhead;
  r ← bget_cached (S (Z.to_nat NBUF)) (b_next h) dev blockno;
  match r with
  | Some b =>
      updb b (fun x => set_b_refcnt (u32 (b_refcnt x + 1)) x) ;;
      lockb b ;;
      mret b
  | None =>
      r ← bget_unused (S (Z.to_nat NBUF)) (b_prev h);
      match r with
      | Some b =>
          updb b (fun x => set_b_refcnt 1 (set_b_flags 0 (set_b_blockno blockno (set_b_dev dev x)))) ;;
          lockb b ;;
          mret b
      | None => panic "bget: no buffers"
      end
  end.

(** Return a locked buf with the contents of the indicated block. *)
Definition bread (dev blockno : Z) : M kstate nat :=
  b ← bget dev blockno;
  x ← getb b;
  when (Z.land (b_flags x) B_VALID =? 0) (iderw b) ;;
  mret b.

(** Write b's contents to disk.  Must be locked. *)
Definition bwrite (b : nat) : M kstate unit :=
  x ← getb b;
  h ← holdingsleep (b_lock x);
  if negb h then panic "bwrite"
  else
    updb b (set_b_flags (Z.lor (b_flags x) B_DIRTY)) ;;
    iderw b.

(** Unlink [b] and put it after [bcache.head]. *)
Definition brelse_mru (b : nat) : M kstate unit :=
  x ← getb b;
  updb (b_next x) (set_b_prev (b_prev x)) ;;
  x ← getb b;
  updb (b_prev x) (set_b_next (b_next x)) ;;
  h ← getb bhead;
  updb b (fun x => set_b_prev bhead (set_b_next (b_next h) x)) ;;
  h ← getb bhead;
  updb (b_next h) (set_b_prev b) ;;
  updb bhead (set_b_next b).

(** Release a locked buffer.  Move to the head of the MRU list. *)
Definition brelse (b : nat) : M kstate unit :=
  x ← getb b;
  h ← holdingsleep (b_lock x);
  if negb h then panic "brelse"
  else
    updb b (fun x => set_b_lock (releasesleep (b_lock x)) x) ;;
    updb b (fun x => set_b_refcnt (u32 (b_refcnt x - 1)) x) ;;
    x ← getb b;
    when (b_refcnt x =? 0) (brelse_mru b).

(** ** Well-formed caches *)
Definition nxt (bs : list buf) (i : nat) : nat :=
  match bs !! i with Some x => b_next x | None => 0%nat end.
Definition prv (bs : list buf) (i : nat) : nat :=
  match bs !! i with Some x => b_prev x | None => 0%nat end.

(** [l] is the order of the buffers from most to least recently used. *)
Definition lru (bs : list buf) (l : list nat) : Prop :=
  Permutation l (seq 0 (Z.to_nat NBUF)) /\ dll (nxt bs) (prv bs) bhead l bhead.

(** A buffer has never been used ([dev] is 0) or holds the contents of a
    block; it is free or locked by this process; if it is neither locked nor
    dirty it holds what the disk holds. *)
Record buf_ok (s : kstate) (x : buf) : Prop := {
  ok_data : length (b_data x) = Z.to_nat BSIZE;
  ok_flags : (b_dev x = 0 /\ b_flags x = 0 /\ b_lock x = no_lock) \/
             (b_dev x <> 0 /\ (b_flags x = B_VALID \/ b_flags x = Z.lor B_VALID B_DIRTY));
  ok_lock : (b_lock x = no_lock /\ b_refcnt x = 0) \/
            (b_lock x = mk_sleeplock true (k_pid s) /\ b_refcnt x = 1);
  ok_clean : b_lock x = no_lock -> b_flags x = B_VALID ->
             b_data x = disk_read (k_disk s) (b_dev x) (b_blockno x)
}.

Record bc_wf (s : kstate) : Prop := {
  wf_len : length (k_bcache s) = S (Z.to_nat NBUF);
  wf_lru : exists l, lru (k_bcache s) l;
  wf_buf : forall i x, k_bcache s !! i = Some x -> buf_ok s x;
  wf_head : forall x, k_bcache s !! bhead = Some x -> b_dev x = 0;
  wf_uniq : forall i j x y, k_bcache s !! i = Some x -> k_bcache s !! j = Some y ->
            b_dev x <> 0 -> b_dev x = b_dev y -> b_blockno x = b_blockno y -> i = j;
  wf_disk : forall dev b, length (disk_read (k_disk s) dev b) = Z.to_nat BSIZE
}.

(** ** The contents of a block as the kernel sees them *)
Definition buf_is (dev blockno : Z) (x : buf) : bool :=
  (b_dev x =? dev) && (b_blockno x =? blockno).

Fixpoint bfind (bs : list buf) (dev blockno : Z) : option buf :=
  match bs with
  | [] => None
  | x :: bs => if buf_is dev blockno x then Some x else bfind bs dev blockno
  end.

Definition bview (s : kstate) (dev blockno : Z) : list Z :=
  match bfind (k_bcache s) dev blockno with
  | Some x => if is_valid x then b_data x else disk_read (k_disk s) dev blockno
  | None => disk_read (k_disk s) dev blockno
  end.

(** Buffer [i] is locked by this process and holds the contents [d] of a block. *)
Definition held (s : kstate) (i : nat) (dev blockno : Z) (d : list Z) : Prop :=
  exists x, k_bcache s !! i = Some x /\ b_lock x = mk_sleeplock true (k_pid s) /\
    b_dev x = dev /\ b_blockno x = blockno /\ b_data x = d.

(** The block is cached in a buffer marked [B_DIRTY]. *)
Definition dirtyb (s : kstate) (dev blockno : Z) : bool :=
  match bfind (k_bcache s) dev blockno with Some x => is_dirty x | None => false end.

(** Buffers that cannot be recycled. *)
Definition pin (x : buf) : bool := lk_locked (b_lock x) || is_dirty x.
Definition pinned (s : kstate) : nat := length (List.filter pin (k_bcache s)).

(** ** The recency list *)
Lemma buf_is_spec dev b x : buf_is dev b x = true <-> b_dev x = dev /\ b_blockno x = b.
Proof. unfold buf_is. rewrite andb_true_iff, !Z.eqb_eq. done. Qed.

Lemma nxt_insert bs i x j :
  (i < length bs)%nat -> nxt (<[i := x]> bs) j = upd (nxt bs) i (b_next x) j.
Proof.
  intros. unfold nxt, upd. case_decide; subst; [by rewrite list_lookup_insert_eq|].
  by rewrite list_lookup_insert_ne.
Qed.

Lemma prv_insert bs i x j :
  (i < length bs)%nat -> prv (<[i := x]> bs) j = upd (prv bs) i (b_prev x) j.
Proof.
  intros. unfold prv, upd. case_decide; subst; [by rewrite list_lookup_insert_eq|].
  by rewrite list_lookup_insert_ne.
Qed.

Lemma nxt_Some bs i x : bs !! i = Some x -> nxt bs i = b_next x.
Proof. unfold nxt. by intros ->. Qed.
Lemma prv_Some bs i x : bs !! i = Some x -> prv bs i = b_prev x.
Proof. unfold prv. by intros ->. Qed.

(** Links are all that the recency list depends on. *)
Lemma lru_links bs bs' l :
  (forall i, nxt bs' i = nxt bs i) -> (forall i, prv bs' i = prv bs i) -> lru bs l -> lru bs' l.
Proof.
  intros Hn Hp [? H]. split; [done|]. eapply dll_frame; [..|exact H]; auto.
Qed.

Lemma lru_insert_same bs i x x' l :
  bs !! i = Some x -> b_next x' = b_next x -> b_prev x' = b_prev x ->
  lru bs l -> lru (<[i := x']> bs) l.
Proof.
  intros Hi Hn Hp. pose proof (lookup_lt_Some _ _ _ Hi).
  apply lru_links; intros j; [rewrite nxt_insert by done|rewrite prv_insert by done];
    unfold upd; case_decide; subst; [|done| |done].
  - by rewrite Hn, (nxt_Some _ _ _ Hi).
  - by rewrite Hp, (prv_Some _ _ _ Hi).
Qed.

Lemma lru_NoDup bs l : lru bs l -> NoDup (bhead :: l) /\ (forall i, i ∈ l <-> (i < bhead)%nat).
Proof.
  intros [Hp _]. assert (forall i, i ∈ l <-> (i < bhead)%nat) as Hin.
  { intros i. rewrite Hp, elem_of_seq. unfold bhead. lia. }
  split; [|done]. apply NoDup_cons. split.
  - rewrite Hin. lia.
  - rewrite Hp. apply NoDup_seq.
Qed.

(** The scans of [bget] are searches along the recency list. *)
Definition cached_at (bs : list buf) (dev blockno : Z) (i : nat) : bool :=
  match bs !! i with Some x => buf_is dev blockno x | None => false end.
Definition unused_at (bs : list buf) (i : nat) : bool :=
  match bs !! i with
  | Some x => (b_refcnt x =? 0) && (Z.land (b_flags x) B_DIRTY =? 0)
  | None => false
  end.

Lemma bget_cached_run s p l dev b fuel :
  dll (nxt (k_bcache s)) (prv (k_bcache s)) p l bhead -> bhead ∉ l ->
  (forall i, i ∈ l -> is_Some (k_bcache s !! i)) -> (length l < fuel)%nat ->
  bget_cached fuel (nxt (k_bcache s) p) dev b s =
    Ret (List.find (cached_at (k_bcache s) dev b) l) s.
Proof.
  revert p fuel. induction l as [|x l IH]; intros p fuel Hd Hh Hs Hf;
    (destruct fuel as [|fuel]; [simpl in Hf; lia|]); simpl in Hd; cbn [bget_cached List.find].
  - destruct Hd as [-> _]. by rewrite decide_True.
  - destruct Hd as (-> & _ & Hd). rewrite decide_False by set_solver.
    destruct (Hs x ltac:(set_solver)) as [y Hy]. run (getb_Some _ _ _ Hy).
    change ((b_dev y =? dev) && (b_blockno y =? b)) with (buf_is dev b y).
    unfold cached_at at 1. rewrite Hy. destruct (buf_is dev b y); [done|].
    rewrite <- (nxt_Some _ _ _ Hy). apply IH; [done|set_solver|set_solver|simpl in Hf; lia].
Qed.

Lemma dll_rev_cons_prev nx pv p l x : dll nx pv p (l ++ [x]) bhead -> pv bhead = x.
Proof. intros H. apply dll_prev in H. by rewrite rev_app_distr in H. Qed.

Lemma bget_unused_run s p l e fuel :
  dll (nxt (k_bcache s)) (prv (k_bcache s)) bhead l e -> p = prv (k_bcache s) e ->
  bhead ∉ l -> (forall i, i ∈ l -> is_Some (k_bcache s !! i)) -> (length l < fuel)%nat ->
  bget_unused fuel p s = Ret (List.find (unused_at (k_bcache s)) (rev l)) s.
Proof.
  revert p e fuel. induction l as [|x l IH] using rev_ind; intros p e fuel Hd -> Hh Hs Hf;
    (destruct fuel as [|fuel]; [rewrite ?length_app in Hf; simpl in Hf; lia|]); cbn [bget_unused].
  - destruct Hd as [_ ->]. by rewrite decide_True.
  - apply dll_app in Hd as (Hd & _ & ->). rewrite decide_False by set_solver.
    destruct (Hs x ltac:(set_solver)) as [y Hy]. run (getb_Some _ _ _ Hy).
    rewrite rev_app_distr. cbn [rev app List.find].
    unfold unused_at at 1. rewrite Hy. destruct (_ && _); [done|].
    rewrite <- (prv_Some _ _ _ Hy). rewrite length_app in Hf. simpl in Hf.
    apply (IH _ x); [done|done|set_solver|set_solver|lia].
Qed.

(** A buffer without its links. *)
Definition strip (x : buf) : buf := set_b_next 0 (set_b_prev 0 x).

Lemma updb_alter s i f :
  (i < length (k_bcache s))%nat -> updb i f s = Ret tt (set_k_bcache (alter f i (k_bcache s)) s).
Proof.
  intros Hi. destruct (lookup_lt_is_Some_2 _ _ Hi) as [x Hx]. rewrite (updb_Some _ _ _ f Hx).
  do 2 f_equal. apply list_eq. intros j. destruct (decide (i = j)) as [<-|].
  - by rewrite list_lookup_insert_eq, list_lookup_alter_eq, Hx.
  - by rewrite list_lookup_insert_ne, list_lookup_alter_ne.
Qed.

Lemma nxt_alter f i bs j :
  (i < length bs)%nat -> nxt (alter f i bs) j =
    if decide (j = i) then match bs !! i with Some x => b_next (f x) | None => 0%nat end
    else nxt bs j.
Proof.
  intros. unfold nxt. case_decide; subst; [rewrite list_lookup_alter_eq; by destruct (bs !! i)|].
  by rewrite list_lookup_alter_ne.
Qed.

Lemma prv_alter f i bs j :
  (i < length bs)%nat -> prv (alter f i bs) j =
    if decide (j = i) then match bs !! i with Some x => b_prev (f x) | None => 0%nat end
    else prv bs j.
Proof.
  intros. unfold prv. case_decide; subst; [rewrite list_lookup_alter_eq; by destruct (bs !! i)|].
  by rewrite list_lookup_alter_ne.
Qed.

Lemma nxt_set_next v i bs j :
  (i < length bs)%nat -> nxt (alter (set_b_next v) i bs) j = upd (nxt bs) i v j.
Proof.
  intros Hi. rewrite nxt_alter by done. unfold upd. case_decide; [|done].
  destruct (lookup_lt_is_Some_2 _ _ Hi) as [x ->]. done.
Qed.
Lemma prv_set_next v i bs j :
  (i < length bs)%nat -> prv (alter (set_b_next v) i bs) j = prv bs j.
Proof.
  intros Hi. rewrite prv_alter by done. case_decide; [|done]. subst. unfold prv.
  by destruct (bs !! i).
Qed.
Lemma nxt_set_prev v i bs j :
  (i < length bs)%nat -> nxt (alter (set_b_prev v) i bs) j = nxt bs j.
Proof.
  intros Hi. rewrite nxt_alter by done. case_decide; [|done]. subst. unfold nxt.
  by destruct (bs !! i).
Qed.
Lemma prv_set_prev v i bs j :
  (i < length bs)%nat -> prv (alter (set_b_prev v) i bs) j = upd (prv bs) i v j.
Proof.
  intros Hi. rewrite prv_alter by done. unfold upd. case_decide; [|done].
  destruct (lookup_lt_is_Some_2 _ _ Hi) as [x ->]. done.
Qed.
#[local] Hint Rewrite nxt_set_next prv_set_next nxt_set_prev prv_set_prev
  using (rewrite ?length_alter; lia) : links.

Lemma strip_alter f i (bs : list buf) :
  (forall x, strip (f x) = strip x) -> strip <$> alter f i bs = strip <$> bs.
Proof.
  intros Hf. apply list_eq. intros j. rewrite !list_lookup_fmap.
  destruct (decide (i = j)) as [<-|].
  - rewrite list_lookup_alter_eq. destruct (bs !! i); simpl; by rewrite ?Hf.
  - by rewrite list_lookup_alter_ne.
Qed.

Lemma getb_lt s i :
  (i < length (k_bcache s))%nat ->
  exists x, getb i s = Ret x s /\ b_next x = nxt (k_bcache s) i /\ b_prev x = prv (k_bcache s) i.
Proof.
  intros Hi. destruct (lookup_lt_is_Some_2 _ _ Hi) as [x Hx]. exists x.
  by rewrite (getb_Some _ _ _ Hx), (nxt_Some _ _ _ Hx), (prv_Some _ _ _ Hx).
Qed.

(** The list updates of [brelse_mru] as functions of the buffer array. *)
Definition unlink_bs (b : nat) (bs : list buf) : list buf :=
  alter (set_b_next (nxt bs b)) (prv bs b) (alter (set_b_prev (prv bs b)) (nxt bs b) bs).
Definition push_bs (b : nat) (bs : list buf) : list buf :=
  let n := nxt bs bhead in
  alter (set_b_next b) bhead
    (alter (set_b_prev b) n (alter (fun x => set_b_prev bhead (set_b_next n x)) b bs)).

Lemma length_unlink_bs b bs : length (unlink_bs b bs) = length bs.
Proof. unfold unlink_bs. by rewrite !length_alter. Qed.
Lemma length_push_bs b bs : length (push_bs b bs) = length bs.
Proof. unfold push_bs. by rewrite !length_alter. Qed.

Lemma links_set_both p n i bs j :
  (i < length bs)%nat ->
  nxt (alter (fun x => set_b_prev p (set_b_next n x)) i bs) j = upd (nxt bs) i n j /\
  prv (alter (fun x => set_b_prev p (set_b_next n x)) i bs) j = upd (prv bs) i p j.
Proof.
  intros Hi. rewrite nxt_alter, prv_alter by done. unfold upd.
  destruct (lookup_lt_is_Some_2 _ _ Hi) as [x ->]. by case_decide.
Qed.

Lemma links_unlink_bs b bs j :
  (nxt bs b < length bs)%nat -> (prv bs b < length bs)%nat ->
  nxt (unlink_bs b bs) j = upd (nxt bs) (prv bs b) (nxt bs b) j /\
  prv (unlink_bs b bs) j = upd (prv bs) (nxt bs b) (prv bs b) j.
Proof.
  intros HN HP. unfold unlink_bs. split; autorewrite with links; [|done].
  unfold upd. case_decide; [done|]. by autorewrite with links.
Qed.

Lemma links_push_bs b bs j :
  (b < length bs)%nat -> (bhead < length bs)%nat -> (nxt bs bhead < length bs)%nat ->
  nxt (push_bs b bs) j = upd (upd (nxt bs) b (nxt bs bhead)) bhead b j /\
  prv (push_bs b bs) j = upd (upd (prv bs) b bhead) (nxt bs bhead) b j.
Proof.
  intros Hb Hh Hn. unfold push_bs. split.
  - rewrite nxt_set_next by (rewrite !length_alter; lia). unfold upd at 1 2. case_decide; [done|].
    rewrite nxt_set_prev by (rewrite length_alter; lia). by apply links_set_both.
  - rewrite prv_set_next by (rewrite !length_alter; lia).
    rewrite prv_set_prev by (rewrite !length_alter; lia). unfold upd at 1 2. case_decide; [done|].
    by apply links_set_both.
Qed.

Lemma strip_unlink_push b bs : strip <$> push_bs b (unlink_bs b bs) = strip <$> bs.
Proof. unfold push_bs, unlink_bs. by rewrite !strip_alter. Qed.

Section circular.
Context (bs : list buf) (l1 : list nat) (b : nat) (l2 : list nat).
Context (Hlen : length bs = S bhead) (Hlru : lru bs (l1 ++ b :: l2)).

Lemma lru_lt i : i ∈ bhead :: l1 ++ b :: l2 -> (i < length bs)%nat.
Proof.
  intros Hi. destruct (lru_NoDup _ _ Hlru) as [_ Hin].
  apply elem_of_cons in Hi as [->|Hi]; [lia|]. apply Hin in Hi. lia.
Qed.

Lemma lru_neighbours :
  (nxt bs b < length bs)%nat /\ (prv bs b < length bs)%nat /\ nxt bs b <> b.
Proof.
  destruct (lru_NoDup _ _ Hlru) as [Hnd _]. destruct Hlru as [_ Hd].
  apply dll_app in Hd as [H1 H2]. rewrite (dll_next _ _ _ _ _ H2).
  destruct (dll_last _ _ _ _ _ H1) as [_ ->]. pose proof (last_node_elem bhead l1). split_and!.
  - apply lru_lt. destruct l2; set_solver.
  - apply lru_lt. set_solver.
  - apply NoDup_cons in Hnd as [Hnh Hnd]. apply NoDup_app in Hnd as (_ & _ & Hnd).
    apply NoDup_cons in Hnd as [Hnb _]. destruct l2; simpl; set_solver.
Qed.

Lemma lru_unlink_push : lru (push_bs b (unlink_bs b bs)) (b :: l1 ++ l2).
Proof.
  destruct lru_neighbours as (HN & HP & Hne).
  destruct (lru_NoDup _ _ Hlru) as [Hnd _]. destruct Hlru as [Hperm Hd].
  split; [by rewrite <- Hperm, Permutation_middle|].
  assert (nxt (unlink_bs b bs) bhead < length bs)%nat as Hn.
  { pose proof (dll_unlink _ _ _ _ _ _ Hnd Hd) as Hu. apply dll_next in Hu.
    rewrite (proj1 (links_unlink_bs b bs bhead HN HP)), Hu. apply lru_lt.
    destruct l1, l2; set_solver. }
  pose proof (dll_move_front _ _ _ _ _ _ Hnd Hd) as Hmove. cbv zeta in Hmove.
  assert (b < length bs)%nat by (apply lru_lt; set_solver).
  assert (bhead < length bs)%nat by lia.
  assert (forall i, (i < length bs)%nat -> (i < length (unlink_bs b bs))%nat) as Hl
    by (intros; by rewrite length_unlink_bs).
  pose proof (fun j => proj1 (links_unlink_bs b bs j HN HP)) as Un.
  pose proof (fun j => proj2 (links_unlink_bs b bs j HN HP)) as Up.
  eapply dll_frame; [| |exact Hmove]; intros i _.
  - rewrite (proj1 (links_push_bs b (unlink_bs b bs) i ltac:(auto) ltac:(auto) ltac:(auto))), Un.
    apply upd_ext. intros. by apply upd_ext.
  - rewrite (proj2 (links_push_bs b (unlink_bs b bs) i ltac:(auto) ltac:(auto) ltac:(auto))), Un.
    apply upd_ext. intros. by apply upd_ext.
Qed.

Lemma brelse_mru_run s :
  k_bcache s = bs -> brelse_mru b s = Ret tt (set_k_bcache (push_bs b (unlink_bs b bs)) s).
Proof.
  intros E. destruct lru_neighbours as (HN & HP & Hne).
  assert (b < length bs)%nat as Hb by (apply lru_lt; set_solver).
  unfold brelse_mru.
  destruct (getb_lt s b ltac:(by rewrite E)) as (x & Hx & Hxn & Hxp). rewrite E in Hxn, Hxp.
  run Hx. rewrite Hxn, Hxp. run (updb_alter s (nxt bs b) (set_b_prev (prv bs b)) ltac:(by rewrite E)).
  rewrite E. set (bs1 := alter _ _ bs). assert (length bs1 = length bs) as L1 by apply length_alter.
  destruct (getb_lt (set_k_bcache bs1 s) b ltac:(simpl; lia)) as (x1 & Hx1 & Hn1 & Hp1).
  simpl in Hn1, Hp1. unfold bs1 in Hn1, Hp1. autorewrite with links in Hn1, Hp1.
  rewrite upd_ne in Hp1 by done. run Hx1. rewrite Hn1, Hp1.
  run (updb_alter (set_k_bcache bs1 s) (prv bs b) (set_b_next (nxt bs b)) ltac:(simpl; lia)).
  change (alter (set_b_next (nxt bs b)) (prv bs b) (k_bcache (set_k_bcache bs1 s))) with (unlink_bs b bs).
  set (bs2 := unlink_bs b bs). assert (length bs2 = length bs) as L2 by apply length_unlink_bs.
  destruct (getb_lt (set_k_bcache bs2 s) bhead ltac:(simpl; lia)) as (h & Hgh & Hhn & _).
  simpl in Hhn. assert (nxt bs2 bhead < length bs)%nat as Hh2.
  { unfold bs2. rewrite (proj1 (links_unlink_bs b bs bhead HN HP)). unfold upd.
    case_decide; [done|]. destruct Hlru as [_ Hd]. rewrite (dll_next _ _ _ _ _ Hd).
    apply lru_lt. destruct l1; set_solver. }
  run Hgh. rewrite Hhn.
  run (updb_alter (set_k_bcache bs2 s) b (fun x => set_b_prev bhead (set_b_next (nxt bs2 bhead) x)) ltac:(simpl; lia)).
  set (s3 := set_k_bcache _ _).
  assert (b <> bhead) as Hbh by (destruct (lru_NoDup _ _ Hlru) as [Hnd _]; apply NoDup_cons in Hnd; set_solver).
  destruct (getb_lt s3 bhead ltac:(unfold s3; simpl; rewrite length_alter; lia)) as (h' & Hgh' & Hhn' & _).
  unfold s3 in Hhn'. simpl in Hhn'. rewrite (proj1 (links_set_both bhead (nxt bs2 bhead) b bs2 bhead ltac:(lia))), upd_ne in Hhn' by done.
  run Hgh'. rewrite Hhn'.
  run (updb_alter s3 (nxt bs2 bhead) (set_b_prev b) ltac:(unfold s3; simpl; rewrite length_alter; lia)).
  rewrite updb_alter by (simpl; rewrite !length_alter; lia). done.
Qed.
End circular.

(** ** Block contents *)
Lemma bfind_Some bs dev b x :
  bfind bs dev b = Some x -> exists i, bs !! i = Some x /\ b_dev x = dev /\ b_blockno x = b.
Proof.
  induction bs as [|y bs IH]; [done|]. simpl. destruct (buf_is dev b y) eqn:E.
  - intros [= ->]. exists 0%nat. by apply buf_is_spec in E.
  - intros (i & ? & ?)%IH. by exists (S i).
Qed.

Lemma bfind_None bs dev b :
  bfind bs dev b = None <->
  forall i x, bs !! i = Some x -> ~ (b_dev x = dev /\ b_blockno x = b).
Proof.
  induction bs as [|y bs IH]; simpl.
  - split; [|done]. intros _ i x H. by rewrite lookup_nil in H.
  - destruct (buf_is dev b y) eqn:E.
    + apply buf_is_spec in E. split; [done|]. intros H. by destruct (H 0%nat y eq_refl).
    + assert (~ (b_dev y = dev /\ b_blockno y = b)) by (rewrite <- buf_is_spec; congruence).
      rewrite IH. split.
      * intros H' [|i] x Hx; simpl in Hx; [naive_solver|]. by eapply H'.
      * intros H' i x Hx. by apply (H' (S i)).
Qed.

Lemma bfind_insert_ne bs i x x' dev b :
  bs !! i = Some x -> buf_is dev b x = false -> buf_is dev b x' = false ->
  bfind (<[i := x']> bs) dev b = bfind bs dev b.
Proof.
  revert i. induction bs as [|y bs IH]; intros [|i] Hi H H'; simplify_eq/=; [by rewrite H, H'|].
  by rewrite (IH i).
Qed.

Lemma bfind_cached s i x :
  bc_wf s -> k_bcache s !! i = Some x -> b_dev x <> 0 ->
  bfind (k_bcache s) (b_dev x) (b_blockno x) = Some x.
Proof.
  intros Hwf Hi Hd. destruct (bfind _ _ _) as [y|] eqn:E.
  - apply bfind_Some in E as (j & Hj & Ed & Eb).
    assert (j = i) as -> by (eapply (wf_uniq _ Hwf); eauto; congruence). congruence.
  - rewrite bfind_None in E. naive_solver.
Qed.

Lemma ok_valid s x : buf_ok s x -> b_dev x <> 0 -> is_valid x = true.
Proof.
  intros Hok H0. unfold is_valid.
  destruct (ok_flags _ _ Hok) as [(? & _)|(_ & [-> | ->])]; done.
Qed.

Lemma bview_cached s i x :
  bc_wf s -> k_bcache s !! i = Some x -> b_dev x <> 0 ->
  bview s (b_dev x) (b_blockno x) = b_data x.
Proof.
  intros Hwf Hi Hd. unfold bview. rewrite (bfind_cached s i x) by done.
  by rewrite (ok_valid s x (wf_buf _ Hwf _ _ Hi) Hd).
Qed.

Lemma bview_uncached s dev b :
  (forall i x, k_bcache s !! i = Some x -> ~ (b_dev x = dev /\ b_blockno x = b)) ->
  bview s dev b = disk_read (k_disk s) dev b /\ dirtyb s dev b = false.
Proof. intros H. unfold bview, dirtyb. by rewrite (proj2 (bfind_None _ _ _) H). Qed.

Lemma held_bview s i dev b d : bc_wf s -> dev <> 0 -> held s i dev b d -> bview s dev b = d.
Proof. intros Hwf Hd (x & Hx & Hl & <- & <- & <-). by eapply bview_cached. Qed.

Lemma bview_length s dev b : bc_wf s -> length (bview s dev b) = Z.to_nat BSIZE.
Proof.
  intros Hwf. unfold bview. destruct (bfind _ _ _) as [x|] eqn:E; [|apply (wf_disk _ Hwf)].
  apply bfind_Some in E as (i & Hi & _). destruct (is_valid x); [|apply (wf_disk _ Hwf)].
  apply (wf_buf _ Hwf _ _ Hi).
Qed.

(** One buffer changes, its links excepted. *)
Lemma bc_wf_set s i x x' :
  bc_wf s -> k_bcache s !! i = Some x -> i <> bhead ->
  b_next x' = b_next x -> b_prev x' = b_prev x -> buf_ok s x' ->
  (b_dev x' <> 0 -> forall j y, j <> i -> k_bcache s !! j = Some y ->
     ~ (b_dev y = b_dev x' /\ b_blockno y = b_blockno x')) ->
  bc_wf (set_k_bcache (<[i := x']> (k_bcache s)) s).
Proof.
  intros Hwf Hi Hh Hn Hp Hok Hu. split; simpl.
  - rewrite length_insert. apply (wf_len _ Hwf).
  - destruct (wf_lru _ Hwf) as [l Hl]. exists l. by eapply lru_insert_same.
  - intros j y. destruct (decide (i = j)) as [<-|].
    + rewrite list_lookup_insert_eq by (by eapply lookup_lt_Some). intros [= <-].
      destruct Hok. by split.
    + rewrite list_lookup_insert_ne by done. intros Hy. destruct (wf_buf _ Hwf _ _ Hy). by split.
  - intros y. rewrite list_lookup_insert_ne by done. apply (wf_head _ Hwf).
  - intros j k y z Hj Hk Hd E1 E2. pose proof (lookup_lt_Some _ _ _ Hi).
    destruct (decide (i = j)) as [<-|], (decide (i = k)) as [<-|]; [done|..].
    + rewrite list_lookup_insert_eq in Hj by done. rewrite list_lookup_insert_ne in Hk by done.
      simplify_eq. exfalso. by eapply (Hu Hd k z); eauto.
    + rewrite list_lookup_insert_eq in Hk by done. rewrite list_lookup_insert_ne in Hj by done.
      simplify_eq. exfalso. eapply (Hu ltac:(congruence) j y); eauto.
    + rewrite list_lookup_insert_ne in Hj, Hk by done. by eapply (wf_uniq _ Hwf).
  - apply (wf_disk _ Hwf).
Qed.

(** The ids stay: the only condition left is on the buffer itself. *)
Lemma bc_wf_set_same s i x x' :
  bc_wf s -> k_bcache s !! i = Some x -> i <> bhead ->
  b_next x' = b_next x -> b_prev x' = b_prev x -> b_dev x' = b_dev x ->
  b_blockno x' = b_blockno x -> buf_ok s x' ->
  bc_wf (set_k_bcache (<[i := x']> (k_bcache s)) s).
Proof.
  intros Hwf Hi Hh Hn Hp Hd Hb Hok. eapply bc_wf_set; try done.
  rewrite Hd, Hb. intros H0 j y Hne Hj [E1 E2]. apply Hne.
  eapply (wf_uniq _ Hwf j i y x); eauto; congruence.
Qed.

Lemma bfind_set_same s i x x' dev b :
  bc_wf (set_k_bcache (<[i := x']> (k_bcache s)) s) -> k_bcache s !! i = Some x ->
  b_dev x' = b_dev x -> b_blockno x' = b_blockno x -> dev <> 0 ->
  bfind (<[i := x']> (k_bcache s)) dev b =
    if buf_is dev b x' then Some x' else bfind (k_bcache s) dev b.
Proof.
  intros Hwf Hi Hd Hb H0. destruct (buf_is dev b x') eqn:E.
  - apply buf_is_spec in E as [<- <-]. pose proof (lookup_lt_Some _ _ _ Hi).
    apply (bfind_cached _ i _ Hwf); [|done]. simpl. by rewrite list_lookup_insert_eq.
  - eapply bfind_insert_ne; [done| |done]. unfold buf_is in *. by rewrite <- Hd, <- Hb.
Qed.

Lemma length_filter_insert {A} (f : A -> bool) (l : list A) i x x' :
  l !! i = Some x ->
  (length (List.filter f (<[i := x']> l)) + Nat.b2n (f x) =
   length (List.filter f l) + Nat.b2n (f x'))%nat.
Proof.
  revert i. induction l as [|y l IH]; intros [|i] Hi; simplify_eq/=.
  - destruct (f x), (f x'); simpl; lia.
  - specialize (IH i Hi). destruct (f y); simpl; lia.
Qed.

Lemma held_set s i x x' j dev b d :
  k_bcache s !! i = Some x ->
  held (set_k_bcache (<[i := x']> (k_bcache s)) s) j dev b d <->
  (j = i /\ b_lock x' = mk_sleeplock true (k_pid s) /\ b_dev x' = dev /\ b_blockno x' = b /\
   b_data x' = d) \/ (j <> i /\ held s j dev b d).
Proof.
  intros Hi. pose proof (lookup_lt_Some _ _ _ Hi). unfold held. simpl.
  destruct (decide (j = i)) as [->|].
  - rewrite list_lookup_insert_eq by done. naive_solver.
  - rewrite list_lookup_insert_ne by done. naive_solver.
Qed.

(** ** [bget] and [bread] *)
Lemma lockb_run s i x :
  k_bcache s !! i = Some x -> b_lock x = no_lock ->
  lockb i s = Ret tt (set_k_bcache (<[i := set_b_lock (mk_sleeplock true (k_pid s)) x]> (k_bcache s)) s).
Proof.
  intros Hi Hl. unfold lockb. run (getb_Some _ _ _ Hi). rewrite Hl. unfold acquiresleep. simpl.
  run_steps. by apply updb_Some.
Qed.

Lemma find_cached s dev b l :
  bc_wf s -> lru (k_bcache s) l -> dev <> 0 ->
  match List.find (cached_at (k_bcache s) dev b) l with
  | Some i => exists x, k_bcache s !! i = Some x /\ b_dev x = dev /\ b_blockno x = b /\ i <> bhead
  | None => forall i x, k_bcache s !! i = Some x -> ~ (b_dev x = dev /\ b_blockno x = b)
  end.
Proof.
  intros Hwf Hl H0. destruct (lru_NoDup _ _ Hl) as [_ Hin]. destruct (List.find _ l) as [i|] eqn:E.
  - apply find_some in E as [Hil E]. unfold cached_at in E.
    destruct (k_bcache s !! i) as [x|] eqn:Hx; [|done]. apply buf_is_spec in E as [? ?].
    exists x. split_and!; [done..|]. intros ->. apply list_elem_of_In, Hin in Hil. lia.
  - intros i x Hi [Ed Eb]. pose proof (lookup_lt_Some _ _ _ Hi) as Hlt.
    rewrite (wf_len _ Hwf) in Hlt. destruct (decide (i = bhead)) as [->|].
    + pose proof (wf_head _ Hwf _ Hi). congruence.
    + apply (find_none _ _ ) with (x := i) in E; [|apply list_elem_of_In, Hin; unfold bhead in *; lia].
      unfold cached_at in E. rewrite Hi in E. apply not_true_iff_false in E. apply E.
      by apply buf_is_spec.
Qed.

Lemma pin_unused s i x :
  bc_wf s -> k_bcache s !! i = Some x -> unused_at (k_bcache s) i = negb (pin x).
Proof.
  intros Hwf Hi. unfold unused_at, pin, is_dirty. rewrite Hi, negb_orb, negb_involutive. f_equal.
  destruct (ok_lock _ _ (wf_buf _ Hwf _ _ Hi)) as [[-> ->]|[-> ->]]; done.
Qed.

Lemma filter_all {A} (f : A -> bool) (l : list A) :
  (forall i x, l !! i = Some x -> f x = true) -> List.filter f l = l.
Proof.
  induction l as [|x l IH]; intros H; simpl; [done|]. rewrite (H 0%nat x eq_refl), IH; [done|].
  intros i y Hy. by apply (H (S i)).
Qed.

(** A buffer to recycle is found while fewer than [NBUF] are pinned. *)
Lemma find_unused s l :
  bc_wf s -> lru (k_bcache s) l -> (pinned s < Z.to_nat NBUF)%nat ->
  exists i x, List.find (unused_at (k_bcache s)) (rev l) = Some i /\ k_bcache s !! i = Some x /\
    i <> bhead /\ b_lock x = no_lock /\ is_dirty x = false /\ pin x = false.
Proof.
  intros Hwf Hl Hp. destruct (lru_NoDup _ _ Hl) as [_ Hin].
  destruct (List.find _ (rev l)) as [i|] eqn:E.
  - apply find_some in E as [Hil E]. apply in_rev, list_elem_of_In, Hin in Hil.
    destruct (lookup_lt_is_Some_2 (k_bcache s) i) as [x Hx]; [rewrite (wf_len _ Hwf); unfold bhead in *; lia|].
    exists i, x. rewrite (pin_unused s i x Hwf Hx), negb_true_iff in E.
    split_and!; [done|done|lia| | |done]; unfold pin in E; apply orb_false_iff in E as [El Ed]; [|done].
    destruct (ok_lock _ _ (wf_buf _ Hwf _ _ Hx)) as [[? ?]|[Hlk _]]; [done|by rewrite Hlk in El].
  - exfalso. unfold pinned in Hp. rewrite <- (take_drop (Z.to_nat NBUF) (k_bcache s)) in Hp.
    rewrite List.filter_app, length_app, filter_all, length_take, (wf_len _ Hwf) in Hp; [lia|].
    intros i x Hx. apply lookup_take_Some in Hx as [Hx Hi].
    apply (find_none _ _) with (x := i) in E; [|rewrite <- in_rev; apply list_elem_of_In, Hin; exact Hi].
    rewrite (pin_unused s i x Hwf Hx) in E. by apply negb_false_iff in E.
Qed.

(** The lists of [bget]: at most [NBUF] steps. *)
Lemma bget_scans s l dev b :
  bc_wf s -> lru (k_bcache s) l ->
  exists h, getb bhead s = Ret h s /\
    bget_cached (S (Z.to_nat NBUF)) (b_next h) dev b s =
      Ret (List.find (cached_at (k_bcache s) dev b) l) s /\
    bget_unused (S (Z.to_nat NBUF)) (b_prev h) s = Ret (List.find (unused_at (k_bcache s)) (rev l)) s.
Proof.
  intros Hwf Hl. destruct (lru_NoDup _ _ Hl) as [Hnd Hin]. apply NoDup_cons in Hnd as [Hnh Hnd].
  pose proof (wf_len _ Hwf) as Hlen. destruct (getb_lt s bhead) as (h & Hh & Hn & Hp); [unfold bhead; lia|].
  assert (length l < S (Z.to_nat NBUF))%nat as Hll.
  { destruct Hl as [Hperm _]. rewrite Hperm, length_seq. lia. }
  assert (forall i, i ∈ l -> is_Some (k_bcache s !! i)) as Hs.
  { intros i Hi%Hin. apply lookup_lt_is_Some. unfold bhead in *. lia. }
  exists h. rewrite Hn, Hp. destruct Hl as [_ Hd]. split_and!; [done|by apply bget_cached_run|].
  by eapply bget_unused_run.
Qed.

(** The buffer [bread] returns: locked, with the contents of the block; the
    flags stay if the block was cached and are [B_VALID] otherwise. *)
Definition locked_buf (pid dev b fl : Z) (d : list Z) (x : buf) : buf :=
  mk_buf fl dev b (mk_sleeplock true pid) 1 (b_prev x) (b_next x) d.

Lemma locked_cached s i x :
  bc_wf s -> k_bcache s !! i = Some x -> b_lock x = no_lock ->
  set_b_lock (mk_sleeplock true (k_pid s)) (set_b_refcnt (u32 (b_refcnt x + 1)) x) =
  locked_buf (k_pid s) (b_dev x) (b_blockno x) (b_flags x) (b_data x) x.
Proof.
  intros Hwf Hi Hl. assert (b_refcnt x = 0) as E.
  { destruct (ok_lock _ _ (wf_buf _ Hwf _ _ Hi)) as [[_ ?]|[E _]]; [done|by rewrite E in Hl]. }
  unfold locked_buf, set_b_lock. simpl. by rewrite E.
Qed.

Lemma bread_cached s i x :
  bc_wf s -> k_bcache s !! i = Some x -> b_dev x <> 0 -> b_lock x = no_lock ->
  bread (b_dev x) (b_blockno x) s =
  Ret i (set_k_bcache (<[i := locked_buf (k_pid s) (b_dev x) (b_blockno x) (b_flags x)
                                (b_data x) x]> (k_bcache s)) s).
Proof.
  intros Hwf Hi H0 Hl. pose proof (lookup_lt_Some _ _ _ Hi) as Hlt.
  destruct (wf_lru _ Hwf) as [l Hlru].
  destruct (bget_scans s l (b_dev x) (b_blockno x) Hwf Hlru) as (h & Hh & Hc & _).
  pose proof (find_cached s (b_dev x) (b_blockno x) l Hwf Hlru H0) as Hf.
  destruct (List.find _ l) as [j|]; [|by destruct (Hf i x Hi)].
  destruct Hf as (y & Hy & Ed & Eb & _).
  assert (j = i) as -> by (eapply (wf_uniq _ Hwf j i y x); eauto; congruence). simplify_eq.
  unfold bread, bget. rewrite bind_bind. run Hh. run Hc. rewrite bind_bind.
  run (updb_Some _ _ _ (fun x => set_b_refcnt (u32 (b_refcnt x + 1)) x) Hi).
  set (s1 := set_k_bcache _ s).
  assert (k_bcache s1 !! i = Some (set_b_refcnt (u32 (b_refcnt x + 1)) x)) as H1
    by (unfold s1; simpl; by rewrite list_lookup_insert_eq).
  run (lockb_run s1 i _ H1 Hl). run_steps.
  change (k_pid s1) with (k_pid s). rewrite (locked_cached s i x Hwf Hi Hl).
  set (s2 := set_k_bcache _ _).
  assert (s2 = set_k_bcache (<[i := locked_buf (k_pid s) (b_dev x) (b_blockno x) (b_flags x)
                                (b_data x) x]> (k_bcache s)) s) as ->
    by (unfold s2, s1; simpl; by rewrite list_insert_insert_eq).
  erewrite bind_Ret; [|apply getb_Some; simpl; by rewrite list_lookup_insert_eq]. cbv beta.
  pose proof (ok_valid s x (wf_buf _ Hwf _ _ Hi) H0) as Hv. unfold is_valid in Hv.
  simpl b_flags. apply negb_true_iff in Hv. by rewrite Hv.
Qed.

Lemma bread_recycle s dev b l :
  bc_wf s -> lru (k_bcache s) l -> dev <> 0 -> dd_ok s dev b -> (pinned s < Z.to_nat NBUF)%nat ->
  (forall i x, k_bcache s !! i = Some x -> ~ (b_dev x = dev /\ b_blockno x = b)) ->
  exists i x, k_bcache s !! i = Some x /\ i <> bhead /\ pin x = false /\ b_lock x = no_lock /\
    List.find (unused_at (k_bcache s)) (rev l) = Some i /\
    bread dev b s =
    Ret i (set_k_bcache (<[i := locked_buf (k_pid s) dev b B_VALID
                                  (disk_read (k_disk s) dev b) x]> (k_bcache s)) s).
Proof.
  intros Hwf Hlru H0 Hok Hp Hnc.
  destruct (bget_scans s l dev b Hwf Hlru) as (h & Hh & Hc & Hu).
  pose proof (find_cached s dev b l Hwf Hlru H0) as Hf.
  destruct (List.find (cached_at _ _ _) l) as [j|] eqn:Efind.
  { destruct Hf as (y & Hy & ? & ? & _). by destruct (Hnc j y Hy). }
  destruct (find_unused s l Hwf Hlru Hp) as (i & x & Hfi & Hi & Hhd & Hl & Hd & Hpin).
  exists i, x. split_and!; [done..|]. pose proof (lookup_lt_Some _ _ _ Hi) as Hlt.
  unfold bread, bget. rewrite bind_bind. run Hh. run Hc. rewrite bind_bind. rewrite Hfi in Hu. run Hu.
  run (updb_Some _ _ _ (fun x => set_b_refcnt 1 (set_b_flags 0 (set_b_blockno b (set_b_dev dev x)))) Hi).
  set (x1 := set_b_refcnt 1 _). set (s1 := set_k_bcache _ s).
  assert (k_bcache s1 !! i = Some x1) as H1 by (unfold s1; simpl; by rewrite list_lookup_insert_eq).
  run (lockb_run s1 i _ H1 Hl). run_steps.
  set (x2 := set_b_lock _ x1). set (s2 := set_k_bcache _ s1).
  assert (k_bcache s2 !! i = Some x2) as H2
    by (unfold s2; simpl; rewrite list_lookup_insert_eq; [done|by rewrite length_insert]).
  run (getb_Some _ _ _ H2). change (Z.land (b_flags x2) B_VALID =? 0) with true. unfold when.
  rewrite (bind_Ret _ _ _ (sync_read i x2 s2) tt).
  - unfold sync_read, s2, s1. simpl. rewrite !list_insert_insert_eq. done.
  - apply iderw_read; [done|done|done|done|]. eapply dd_ok_frame; [..|exact Hok]; done.
Qed.

(** ** Specifications of the operations

    In terms of [bview] (contents), [held] (locked buffers), [dirtyb] and
    the number of pinned buffers; device 0 is never used. *)
Definition not_held (s : kstate) (dev b : Z) : Prop := forall j d, ~ held s j dev b d.

Record bread_post (s : kstate) (dev b : Z) (i : nat) (s' : kstate) : Prop := {
  br_wf : bc_wf s';
  br_frame : s' = set_k_bcache (k_bcache s') s;
  br_held : forall j dev' b' d, held s' j dev' b' d <->
    (j = i /\ dev' = dev /\ b' = b /\ d = bview s dev b) \/ (j <> i /\ held s j dev' b' d);
  br_new : forall dev' b' d, ~ held s i dev' b' d;
  br_view : forall dev' b', dev' <> 0 -> bview s' dev' b' = bview s dev' b';
  br_dirty : forall dev' b', dev' <> 0 -> dirtyb s' dev' b' = dirtyb s dev' b';
  br_sync : dirtyb s dev b = false -> disk_read (k_disk s) dev b = bview s dev b;
  br_pin : pinned s' = (pinned s + Nat.b2n (negb (dirtyb s dev b)))%nat
}.

Lemma locked_buf_ok s dev b fl d x :
  dev <> 0 -> length d = Z.to_nat BSIZE -> fl = B_VALID \/ fl = Z.lor B_VALID B_DIRTY ->
  buf_ok s (locked_buf (k_pid s) dev b fl d x).
Proof. intros H0 Hd Hf. split; simpl; auto. done. Qed.

Lemma ok_flags_dev s x : buf_ok s x -> b_dev x <> 0 ->
  b_flags x = B_VALID \/ b_flags x = Z.lor B_VALID B_DIRTY.
Proof. intros Hok H0. destruct (ok_flags _ _ Hok) as [(? & _)|[_ ?]]; done. Qed.

Lemma buf_is_false dev b x : buf_is dev b x = false <-> ~ (b_dev x = dev /\ b_blockno x = b).
Proof. rewrite <- buf_is_spec. by destruct (buf_is dev b x). Qed.

Lemma bread_post_cached s i x :
  bc_wf s -> k_bcache s !! i = Some x -> b_dev x <> 0 -> b_lock x = no_lock ->
  bread_post s (b_dev x) (b_blockno x) i
    (set_k_bcache (<[i := locked_buf (k_pid s) (b_dev x) (b_blockno x) (b_flags x)
                            (b_data x) x]> (k_bcache s)) s).
Proof.
  intros Hwf Hi H0 Hl. pose proof (wf_buf _ Hwf _ _ Hi) as Hok.
  pose proof (bfind_cached s i x Hwf Hi H0) as Hfind. pose proof (bview_cached s i x Hwf Hi H0) as Hview.
  set (x' := locked_buf _ _ _ _ _ _).
  assert (bc_wf (set_k_bcache (<[i := x']> (k_bcache s)) s)) as Hwf'.
  { eapply bc_wf_set_same; try done.
    - intros ->. by apply (wf_head _ Hwf) in Hi.
    - apply locked_buf_ok; [done|apply Hok|by eapply ok_flags_dev]. }
  assert (forall dev b, dev <> 0 -> bfind (<[i := x']> (k_bcache s)) dev b =
    if buf_is dev b x' then Some x' else bfind (k_bcache s) dev b) as Hf
    by (intros; by eapply bfind_set_same).
  split; try done.
  - intros j dev' b' d. rewrite (held_set s i x x') by done. rewrite Hview. naive_solver.
  - intros dev' b' d (y & Hy & Hly & _). simplify_eq. by rewrite Hl in Hly.
  - intros dev' b' Hd. unfold bview. simpl. rewrite Hf by done. destruct (buf_is dev' b' x') eqn:E; [|done].
    apply buf_is_spec in E as [<- <-]. change (b_dev x') with (b_dev x). change (b_blockno x') with (b_blockno x).
    by rewrite Hfind.
  - intros dev' b' Hd. unfold dirtyb. simpl. rewrite Hf by done. destruct (buf_is dev' b' x') eqn:E; [|done].
    apply buf_is_spec in E as [<- <-]. change (b_dev x') with (b_dev x). change (b_blockno x') with (b_blockno x).
    by rewrite Hfind.
  - unfold dirtyb. rewrite Hfind, Hview. intros Hd. symmetry. apply Hok; [done|].
    destruct (ok_flags_dev _ _ Hok H0) as [?|E]; [done|]. unfold is_dirty in Hd. by rewrite E in Hd.
  - unfold dirtyb, pinned. rewrite Hfind. simpl.
    pose proof (length_filter_insert pin (k_bcache s) i x x' Hi) as Hlen.
    unfold pin in Hlen at 2 4. rewrite Hl in Hlen. simpl in Hlen. destruct (is_dirty x); simpl in *; lia.
Qed.

(** Buffer [i] is recycled for a block that was not cached. *)
Lemma bfind_recycled s i x x' dev b :
  bc_wf s -> bc_wf (set_k_bcache (<[i := x']> (k_bcache s)) s) -> k_bcache s !! i = Some x ->
  dev <> 0 ->
  bfind (<[i := x']> (k_bcache s)) dev b =
    if buf_is dev b x' then Some x' else if buf_is dev b x then None
    else bfind (k_bcache s) dev b.
Proof.
  intros Hwf Hwf' Hi H0. pose proof (lookup_lt_Some _ _ _ Hi) as Hlt.
  destruct (buf_is dev b x') eqn:E'; [|destruct (buf_is dev b x) eqn:E].
  - apply buf_is_spec in E' as [<- <-]. apply (bfind_cached _ i x' Hwf'); [|done].
    simpl. by rewrite list_lookup_insert_eq.
  - apply bfind_None. intros j y Hy [E1 E2]. apply buf_is_spec in E as [E3 E4].
    apply buf_is_false in E'. destruct (decide (i = j)) as [<-|Hne].
    + rewrite list_lookup_insert_eq in Hy by done. naive_solver.
    + rewrite list_lookup_insert_ne in Hy by done.
      apply Hne, (wf_uniq _ Hwf i j x y); congruence.
  - by eapply bfind_insert_ne.
Qed.

Lemma clean_bview s i x :
  bc_wf s -> k_bcache s !! i = Some x -> b_dev x <> 0 -> pin x = false ->
  bview s (b_dev x) (b_blockno x) = disk_read (k_disk s) (b_dev x) (b_blockno x) /\
  dirtyb s (b_dev x) (b_blockno x) = false.
Proof.
  intros Hwf Hi H0 Hp. pose proof (wf_buf _ Hwf _ _ Hi) as Hok.
  apply orb_false_iff in Hp as [Hl Hd]. rewrite (bview_cached s i x) by done. split.
  - apply Hok.
    + destruct (ok_lock _ _ Hok) as [[? _]|[E _]]; [done|by rewrite E in Hl].
    + destruct (ok_flags_dev _ _ Hok H0) as [?|E]; [done|]. unfold is_dirty in Hd. by rewrite E in Hd.
  - unfold dirtyb. by rewrite (bfind_cached s i x).
Qed.

Lemma bread_post_recycle s dev b i x :
  bc_wf s -> dev <> 0 -> k_bcache s !! i = Some x -> i <> bhead -> pin x = false ->
  b_lock x = no_lock ->
  (forall i x, k_bcache s !! i = Some x -> ~ (b_dev x = dev /\ b_blockno x = b)) ->
  bread_post s dev b i
    (set_k_bcache (<[i := locked_buf (k_pid s) dev b B_VALID (disk_read (k_disk s) dev b) x]>
                     (k_bcache s)) s).
Proof.
  intros Hwf H0 Hi Hh Hp Hl Hnc. destruct (bview_uncached s dev b Hnc) as [Hview Hdirty].
  set (x' := locked_buf _ _ _ _ _ _).
  assert (bc_wf (set_k_bcache (<[i := x']> (k_bcache s)) s)) as Hwf'.
  { eapply bc_wf_set; try done; [apply locked_buf_ok; [done|apply (wf_disk _ Hwf)|by left]|].
    intros _ j y _ Hj. by apply (Hnc j). }
  pose proof (fun dev b => bfind_recycled s i x x' dev b Hwf Hwf' Hi) as Hf.
  split; try done.
  - intros j dev' b' d. rewrite (held_set s i x x') by done. rewrite Hview. naive_solver.
  - intros dev' b' d (y & Hy & Hly & _). simplify_eq. by rewrite Hl in Hly.
  - intros dev' b' Hd. unfold bview at 1. simpl. rewrite Hf by done.
    destruct (buf_is dev' b' x') eqn:E'; [apply buf_is_spec in E' as [<- <-]; symmetry; exact Hview|].
    destruct (buf_is dev' b' x) eqn:E; [|done]. apply buf_is_spec in E as [<- <-].
    symmetry. by eapply clean_bview.
  - intros dev' b' Hd. unfold dirtyb at 1. simpl. rewrite Hf by done.
    destruct (buf_is dev' b' x') eqn:E'; [apply buf_is_spec in E' as [<- <-]; symmetry; exact Hdirty|].
    destruct (buf_is dev' b' x) eqn:E; [|done]. apply buf_is_spec in E as [<- <-].
    symmetry. by eapply clean_bview.
  - rewrite Hdirty. unfold pinned. simpl.
    pose proof (length_filter_insert pin (k_bcache s) i x x' Hi) as Hlen. rewrite Hp in Hlen.
    simpl in Hlen. lia.
Qed.

(** [bread] of a block that is not locked returns its contents, as long as
    one buffer is not pinned or the block is cached as a dirty block. *)
Lemma bread_spec s dev b :
  bc_wf s -> dev <> 0 -> dd_ok s dev b -> not_held s dev b ->
  dirtyb s dev b = true \/ (pinned s < Z.to_nat NBUF)%nat ->
  wp (bread dev b) (bread_post s dev b) s.
Proof.
  intros Hwf H0 Hok Hnh Hp. unfold wp. destruct (bfind (k_bcache s) dev b) as [x|] eqn:E.
  - apply bfind_Some in E as (i & Hi & <- & <-).
    assert (b_lock x = no_lock) as Hl.
    { destruct (ok_lock _ _ (wf_buf _ Hwf _ _ Hi)) as [[? _]|[Hl _]]; [done|].
      destruct (Hnh i (b_data x)). by exists x. }
    rewrite (bread_cached s i x) by done. by apply bread_post_cached.
  - destruct Hp as [Hd|Hp]; [unfold dirtyb in Hd; by rewrite E in Hd|].
    rewrite bfind_None in E. destruct (wf_lru _ Hwf) as [l Hlru].
    destruct (bread_recycle s dev b l) as (i & x & Hi & Hh & Hpin & Hl & _ & ->); try done.
    by apply bread_post_recycle.
Qed.

(** A clean block nobody holds is in the cache as it is on disk. *)
Lemma view_sync s dev b :
  bc_wf s -> dev <> 0 -> not_held s dev b -> dirtyb s dev b = false ->
  disk_read (k_disk s) dev b = bview s dev b.
Proof.
  intros Hwf H0 Hnh Hd. destruct (bfind (k_bcache s) dev b) as [x|] eqn:E.
  - unfold dirtyb in Hd. rewrite E in Hd. apply bfind_Some in E as (i & Hi & <- & <-).
    pose proof (wf_buf _ Hwf _ _ Hi) as Hok. rewrite (bview_cached s i x) by done. symmetry.
    apply Hok.
    + destruct (ok_lock _ _ Hok) as [[? _]|[Hl _]]; [done|]. destruct (Hnh i (b_data x)). by exists x.
    + destruct (ok_flags_dev _ _ Hok H0) as [?|Ef]; [done|]. unfold is_dirty in Hd. by rewrite Ef in Hd.
  - unfold bview. by rewrite E.
Qed.

(** *** Storing into [b->data] of a locked buffer *)
Definition bdata (i : nat) : M kstate (list Z) := x ← getb i; mret (b_data x).
Definition bput (i : nat) (d : list Z) : M kstate unit := updb i (set_b_data d).

(** What the operations on a locked buffer [i] of block [(dev, b)] have in
    common: its contents become [d], the other buffers stay. *)
Record step_post (s : kstate) (i : nat) (dev b : Z) (d : list Z) (dty : bool) (s' : kstate) : Prop := {
  st_wf : bc_wf s';
  st_held : forall j dev' b' d', held s' j dev' b' d' <->
    (j = i /\ dev' = dev /\ b' = b /\ d' = d) \/ (j <> i /\ held s j dev' b' d');
  st_view : forall dev' b', dev' <> 0 ->
    bview s' dev' b' = if decide (dev' = dev /\ b' = b) then d else bview s dev' b';
  st_dirty : forall dev' b', dev' <> 0 ->
    dirtyb s' dev' b' = if decide (dev' = dev /\ b' = b) then dty else dirtyb s dev' b';
  st_pin : pinned s' = pinned s
}.

Lemma step_same_disk s i x x' :
  bc_wf s -> k_bcache s !! i = Some x -> b_dev x <> 0 ->
  b_lock x = mk_sleeplock true (k_pid s) -> b_lock x' = b_lock x -> b_refcnt x' = b_refcnt x ->
  b_next x' = b_next x -> b_prev x' = b_prev x -> b_dev x' = b_dev x -> b_blockno x' = b_blockno x ->
  length (b_data x') = Z.to_nat BSIZE -> b_flags x' = B_VALID \/ b_flags x' = Z.lor B_VALID B_DIRTY ->
  step_post s i (b_dev x) (b_blockno x) (b_data x') (is_dirty x')
    (set_k_bcache (<[i := x']> (k_bcache s)) s).
Proof.
  intros Hwf Hi H0 Hl Hl' Hr Hn Hp Hd Hb Hlen Hfl. pose proof (wf_buf _ Hwf _ _ Hi) as Hok.
  assert (buf_ok s x') as Hok'.
  { split; [done|rewrite Hd; by right| |rewrite Hl', Hl; done].
    rewrite Hl', Hr. apply Hok. }
  assert (bc_wf (set_k_bcache (<[i := x']> (k_bcache s)) s)) as Hwf'.
  { eapply bc_wf_set_same; try done. intros ->. by apply (wf_head _ Hwf) in Hi. }
  assert (forall dev b, dev <> 0 -> bfind (<[i := x']> (k_bcache s)) dev b =
    if buf_is dev b x' then Some x' else bfind (k_bcache s) dev b) as Hf
    by (intros; by eapply bfind_set_same).
  assert (forall dev b, buf_is dev b x' = bool_decide (dev = b_dev x /\ b = b_blockno x)) as His.
  { intros dev b. unfold buf_is. rewrite Hd, Hb. case_bool_decide as E.
    - destruct E as [-> ->]. by rewrite !Z.eqb_refl.
    - destruct (Z.eqb_spec (b_dev x) dev), (Z.eqb_spec (b_blockno x) b); naive_solver. }
  split; try done.
  - intros j dev' b' d'. rewrite (held_set s i x x') by done. rewrite Hl', Hd, Hb. naive_solver.
  - intros dev' b' H0'. unfold bview at 1. simpl. rewrite Hf, His by done.
    case_bool_decide as E; [rewrite decide_True by done|by rewrite decide_False].
    rewrite (ok_valid s x' Hok'); [done|congruence].
  - intros dev' b' H0'. unfold dirtyb at 1. simpl. rewrite Hf, His by done.
    case_bool_decide as E; [by rewrite decide_True|by rewrite decide_False].
  - unfold pinned. simpl. pose proof (length_filter_insert pin (k_bcache s) i x x' Hi) as Hlen'.
    unfold pin in Hlen' at 2 4. rewrite Hl', Hl in Hlen'. simpl in Hlen'. lia.
Qed.

Lemma bput_spec s i dev b d0 d :
  bc_wf s -> dev <> 0 -> held s i dev b d0 -> length d = Z.to_nat BSIZE ->
  wp (bput i d) (fun _ s' => step_post s i dev b d (dirtyb s dev b) s' /\
                             s' = set_k_bcache (k_bcache s') s) s.
Proof.
  intros Hwf H0 (x & Hx & Hl & <- & <- & _) Hd. unfold wp, bput. rewrite (updb_Some _ _ _ _ Hx).
  split; [|done]. replace (dirtyb s (b_dev x) (b_blockno x)) with (is_dirty (set_b_data d x))
    by (unfold dirtyb; by rewrite (bfind_cached s i x)).
  apply (step_same_disk s i x (set_b_data d x)); try done.
  apply (ok_flags_dev s x (wf_buf _ Hwf _ _ Hx) H0).
Qed.

Lemma bdata_spec s i dev b d Q : held s i dev b d -> Q d s -> wp (bdata i) Q s.
Proof.
  intros (x & Hx & _ & _ & _ & <-) HQ. unfold wp, bdata. by rewrite (bind_Ret _ _ _ _ _ (getb_Some _ _ _ Hx)).
Qed.

(** *** Marking a locked buffer dirty, as [log_write] does *)
Definition bdirty (i : nat) : M kstate unit :=
  updb i (fun x => set_b_flags (Z.lor (b_flags x) B_DIRTY) x).

Lemma bdirty_spec s i dev b d :
  bc_wf s -> dev <> 0 -> held s i dev b d ->
  wp (bdirty i) (fun _ s' => step_post s i dev b d true s' /\ s' = set_k_bcache (k_bcache s') s) s.
Proof.
  intros Hwf H0 (x & Hx & Hl & <- & <- & <-). unfold wp, bdirty. rewrite (updb_Some _ _ _ _ Hx).
  split; [|done]. pose proof (ok_flags_dev s x (wf_buf _ Hwf _ _ Hx) H0) as Hfl.
  set (x' := set_b_flags _ x).
  assert (b_flags x' = Z.lor B_VALID B_DIRTY) as Hf' by (unfold x'; simpl; by destruct Hfl as [->| ->]).
  replace true with (is_dirty x') by (unfold is_dirty; by rewrite Hf').
  apply (step_same_disk s i x x'); try done; [|by right].
  apply (wf_buf _ Hwf _ _ Hx).
Qed.

(** *** Writing a locked buffer to disk *)
Lemma disk_read_insert_ne d dev b v dev' b' :
  ~ (dev' = dev /\ b' = b) -> disk_read (<[(dev, b) := v]> d) dev' b' = disk_read d dev' b'.
Proof. intros H. unfold disk_read. rewrite lookup_insert_ne; [done|naive_solver]. Qed.

Lemma disk_read_insert_eq d dev b v : disk_read (<[(dev, b) := v]> d) dev b = v.
Proof. unfold disk_read. by rewrite lookup_insert_eq. Qed.

Lemma bc_wf_disk_write s i dev b d :
  bc_wf s -> dev <> 0 -> held s i dev b d -> bc_wf (disk_write dev b d s).
Proof.
  intros Hwf H0 (x & Hx & Hl & Ed & Eb & Edat). pose proof (wf_buf _ Hwf _ _ Hx) as Hokx.
  split; try apply Hwf.
  - intros j y Hy. simpl in Hy. destruct (wf_buf _ Hwf _ _ Hy) as [H1 H2 H3 H4]. split; [done..|].
    intros Hly Hfy. simpl. destruct (decide (b_dev y = dev /\ b_blockno y = b)) as [[E1 E2]|Hne].
    + assert (j = i) as -> by (eapply (wf_uniq _ Hwf j i y x); eauto; congruence).
      assert (y = x) as -> by congruence. by rewrite Hl in Hly.
    + rewrite disk_read_insert_ne by done. by apply H4.
  - intros dev' b'. simpl. destruct (decide (dev' = dev /\ b' = b)) as [[-> ->]|Hne].
    + rewrite disk_read_insert_eq, <- Edat. apply Hokx.
    + rewrite disk_read_insert_ne by done. apply (wf_disk _ Hwf).
Qed.

Lemma bview_disk_write s i dev b d dev' b' :
  bc_wf s -> dev <> 0 -> held s i dev b d -> bview (disk_write dev b d s) dev' b' = bview s dev' b'.
Proof.
  intros Hwf H0 Hh. destruct (decide (dev' = dev /\ b' = b)) as [[-> ->]|Hne].
  - rewrite (held_bview s i dev b d), (held_bview _ i dev b d); try done.
    by eapply bc_wf_disk_write.
  - unfold bview. simpl. by rewrite disk_read_insert_ne.
Qed.

Lemma bwrite_run s i x :
  bc_wf s -> k_bcache s !! i = Some x -> b_dev x <> 0 ->
  b_lock x = mk_sleeplock true (k_pid s) -> dd_ok s (b_dev x) (b_blockno x) ->
  bwrite i s = Ret tt (disk_write (b_dev x) (b_blockno x) (b_data x)
                 (set_k_bcache (<[i := set_b_flags B_VALID x]> (k_bcache s)) s)).
Proof.
  intros Hwf Hx H0 Hl Hok. pose proof (lookup_lt_Some _ _ _ Hx) as Hlt.
  unfold bwrite. run (getb_Some _ _ _ Hx). run (holdingsleep_run s x Hl).
  run (updb_Some _ _ _ (set_b_flags (Z.lor (b_flags x) B_DIRTY)) Hx).
  set (x1 := set_b_flags (Z.lor (b_flags x) B_DIRTY) x). set (s1 := set_k_bcache _ s).
  assert (k_bcache s1 !! i = Some x1) as H1 by (unfold s1; simpl; by rewrite list_lookup_insert_eq).
  destruct (ok_flags_dev s x (wf_buf _ Hwf _ _ Hx) H0) as [Ef|Ef];
    (rewrite (iderw_write s1 i x1);
     [|done|done|unfold x1, is_dirty; simpl; by rewrite Ef|by eapply dd_ok_frame; [..|exact Hok]]);
    unfold sync_write, s1, x1; simpl; rewrite list_insert_insert_eq, Ef; done.
Qed.

Lemma bwrite_spec s i dev b d :
  bc_wf s -> dev <> 0 -> held s i dev b d -> dd_ok s dev b ->
  wp (bwrite i) (fun _ s' => step_post s i dev b d false s' /\
                   s' = disk_write dev b d (set_k_bcache (k_bcache s') s)) s.
Proof.
  intros Hwf H0 Hh Hok. destruct Hh as (x & Hx & Hl & <- & <- & <-).
  unfold wp. rewrite (bwrite_run s i x) by done. split; [|done].
  set (s1 := set_k_bcache _ s).
  assert (step_post s i (b_dev x) (b_blockno x) (b_data x) false s1) as Hst.
  { apply (step_same_disk s i x (set_b_flags B_VALID x)); try done; [|by left].
    apply (wf_buf _ Hwf _ _ Hx). }
  assert (held s1 i (b_dev x) (b_blockno x) (b_data x)) as Hh1 by (apply (st_held _ _ _ _ _ _ _ Hst); by left).
  pose proof (st_wf _ _ _ _ _ _ _ Hst) as Hwf1. split.
  - by eapply bc_wf_disk_write.
  - apply Hst.
  - intros. erewrite bview_disk_write by done. by apply Hst.
  - apply Hst.
  - apply Hst.
Qed.

(** *** Releasing *)
Definition dropi (i : nat) (s s' : kstate) : Prop :=
  forall j dev b d, held s' j dev b d <-> j <> i /\ held s j dev b d.

Record brelse_post (s : kstate) (i : nat) (dty : bool) (s' : kstate) : Prop := {
  re_wf : bc_wf s';
  re_frame : s' = set_k_bcache (k_bcache s') s;
  re_held : dropi i s s';
  re_view : forall dev b, dev <> 0 -> bview s' dev b = bview s dev b;
  re_dirty : forall dev b, dev <> 0 -> dirtyb s' dev b = dirtyb s dev b;
  re_pin : (pinned s' + Nat.b2n (negb dty) = pinned s)%nat
}.

Lemma bfind_strip bs dev b : strip <$> bfind bs dev b = bfind (strip <$> bs) dev b.
Proof.
  induction bs as [|x bs IH]; simpl; [done|].
  change (buf_is dev b (strip x)) with (buf_is dev b x). by destruct (buf_is dev b x).
Qed.

Lemma filter_pin_strip bs bs' :
  strip <$> bs' = strip <$> bs -> length (List.filter pin bs') = length (List.filter pin bs).
Proof.
  revert bs. induction bs' as [|y ys IH]; intros [|x xs] H; [done..|].
  rewrite !fmap_cons in H. apply (inj2 cons) in H as [Hx H]. simpl.
  assert (pin y = pin x) as -> by (destruct x, y; unfold strip in *; by simplify_eq/=).
  destruct (pin x); simpl; by rewrite (IH xs).
Qed.

(** Nothing but the recency list depends on the links. *)
Section relink.
Context (s : kstate) (bs' : list buf) (l : list nat).
Context (Hwf : bc_wf s) (Hstrip : strip <$> bs' = strip <$> k_bcache s) (Hl : lru bs' l).

Lemma relink_lookup j y :
  bs' !! j = Some y -> exists x, k_bcache s !! j = Some x /\ strip y = strip x.
Proof.
  intros Hy. pose proof (f_equal (.!! j) Hstrip) as H. cbv beta in H.
  rewrite !list_lookup_fmap, Hy in H. destruct (k_bcache s !! j) as [x|]; [|done].
  apply (inj Some) in H. by exists x.
Qed.

Lemma relink_wf : bc_wf (set_k_bcache bs' s).
Proof.
  split; simpl.
  - pose proof (f_equal length Hstrip) as H. rewrite !length_fmap in H. rewrite H. apply Hwf.
  - eauto.
  - intros j y (x & Hx & E)%relink_lookup. destruct (wf_buf _ Hwf _ _ Hx).
    destruct x, y; unfold strip in E; simplify_eq/=. by split.
  - intros y (x & Hx & E)%relink_lookup. apply (wf_head _ Hwf) in Hx.
    destruct x, y; unfold strip in E; simplify_eq/=. done.
  - intros j k y z (x & Hx & E)%relink_lookup (w & Hw & E')%relink_lookup.
    pose proof (wf_uniq _ Hwf j k x w Hx Hw). destruct x, y, z, w; unfold strip in *; simplify_eq/=. auto.
  - apply Hwf.
Qed.

Lemma relink_find dev b : strip <$> bfind bs' dev b = strip <$> bfind (k_bcache s) dev b.
Proof. by rewrite !bfind_strip, Hstrip. Qed.

Lemma relink_view dev b : bview (set_k_bcache bs' s) dev b = bview s dev b.
Proof.
  unfold bview. simpl. pose proof (relink_find dev b) as H.
  destruct (bfind bs' dev b) as [[]|], (bfind (k_bcache s) dev b) as [[]|]; unfold strip in H; by simplify_eq/=.
Qed.

Lemma relink_dirty dev b : dirtyb (set_k_bcache bs' s) dev b = dirtyb s dev b.
Proof.
  unfold dirtyb. simpl. pose proof (relink_find dev b) as H.
  destruct (bfind bs' dev b) as [[]|], (bfind (k_bcache s) dev b) as [[]|]; unfold strip in H; by simplify_eq/=.
Qed.

Lemma relink_pinned : pinned (set_k_bcache bs' s) = pinned s.
Proof. by apply filter_pin_strip. Qed.

Lemma relink_held j dev b d : held (set_k_bcache bs' s) j dev b d <-> held s j dev b d.
Proof.
  unfold held. simpl. pose proof (f_equal (.!! j) Hstrip) as H. cbv beta in H.
  rewrite !list_lookup_fmap in H.
  destruct (bs' !! j) as [y|], (k_bcache s !! j) as [x|]; simplify_eq/=; [|naive_solver].
  destruct x, y; unfold strip in H; simplify_eq/=.
  split; intros (? & [= <-] & ?); eexists; (split; [done|]); done.
Qed.
End relink.

Definition unlocked_buf (x : buf) : buf := set_b_refcnt 0 (set_b_lock no_lock x).

(** The code of [brelse] on a locked buffer: unlock it and move it to the front. *)
Lemma brelse_run s i x :
  bc_wf s -> k_bcache s !! i = Some x -> b_lock x = mk_sleeplock true (k_pid s) ->
  brelse i s = brelse_mru i (set_k_bcache (<[i := unlocked_buf x]> (k_bcache s)) s).
Proof.
  intros Hwf Hx Hl. pose proof (lookup_lt_Some _ _ _ Hx) as Hlt.
  assert (b_refcnt x = 1) as Hr.
  { destruct (ok_lock _ _ (wf_buf _ Hwf _ _ Hx)) as [[E _]|[_ ?]]; [by rewrite Hl in E|done]. }
  unfold brelse. run (getb_Some _ _ _ Hx). run (holdingsleep_run s x Hl).
  run (updb_Some _ _ _ (fun x => set_b_lock (releasesleep (b_lock x)) x) Hx).
  set (s1 := set_k_bcache _ s).
  assert (k_bcache s1 !! i = Some (set_b_lock no_lock x)) as H1
    by (unfold s1; simpl; by rewrite list_lookup_insert_eq).
  run (updb_Some _ _ _ (fun x => set_b_refcnt (u32 (b_refcnt x - 1)) x) H1).
  assert (set_b_refcnt (u32 (b_refcnt (set_b_lock no_lock x) - 1)) (set_b_lock no_lock x) =
          unlocked_buf x) as -> by (unfold unlocked_buf; simpl; by rewrite Hr).
  unfold s1. simpl k_bcache. rewrite list_insert_insert_eq.
  erewrite bind_Ret; [|apply getb_Some; simpl; by rewrite list_lookup_insert_eq]. done.
Qed.

Lemma unlock_post s i x :
  bc_wf s -> k_bcache s !! i = Some x -> b_dev x <> 0 ->
  b_lock x = mk_sleeplock true (k_pid s) ->
  is_dirty x = true \/ disk_read (k_disk s) (b_dev x) (b_blockno x) = b_data x ->
  brelse_post s i (is_dirty x) (set_k_bcache (<[i := unlocked_buf x]> (k_bcache s)) s).
Proof.
  intros Hwf Hx H0 Hl Hsync. pose proof (wf_buf _ Hwf _ _ Hx) as Hok.
  pose proof (ok_flags_dev _ _ Hok H0) as Hfl. pose proof (lookup_lt_Some _ _ _ Hx) as Hlt.
  assert (bc_wf (set_k_bcache (<[i := unlocked_buf x]> (k_bcache s)) s)) as Hwf'.
  { eapply bc_wf_set_same; try done; [intros ->; by apply (wf_head _ Hwf) in Hx|].
    split; simpl; [apply Hok|by right|by left|]. intros _ Ef.
    destruct Hsync as [Hd|]; [|done]. unfold is_dirty in Hd. by rewrite Ef in Hd. }
  assert (forall dev b, dev <> 0 -> bfind (<[i := unlocked_buf x]> (k_bcache s)) dev b =
    if buf_is dev b x then Some (unlocked_buf x) else bfind (k_bcache s) dev b) as Hf.
  { intros. erewrite bfind_set_same by done. done. }
  split; try done.
  - intros j dev b d. rewrite (held_set s i x) by done. simpl. split; [|naive_solver].
    intros [(_ & [=] & _)|?]; done.
  - intros dev b Hd. unfold bview. simpl. rewrite Hf by done. destruct (buf_is dev b x) eqn:E; [|done].
    apply buf_is_spec in E as [<- <-]. by rewrite (bfind_cached s i x).
  - intros dev b Hd. unfold dirtyb. simpl. rewrite Hf by done. destruct (buf_is dev b x) eqn:E; [|done].
    apply buf_is_spec in E as [<- <-]. by rewrite (bfind_cached s i x).
  - unfold pinned. simpl. pose proof (length_filter_insert pin (k_bcache s) i x (unlocked_buf x) Hx) as Hlen.
    unfold pin in Hlen at 2 4. rewrite Hl in Hlen. simpl in Hlen.
    change (is_dirty (unlocked_buf x)) with (is_dirty x) in Hlen.
    destruct (is_dirty x); simpl in *; lia.
Qed.

(** [brelse] of a buffer that is dirty (the log keeps it) or that holds what
    the disk holds; the buffer becomes the most recently used one. *)
Lemma brelse_spec_lru s i dev b d l1 l2 :
  bc_wf s -> dev <> 0 -> held s i dev b d -> lru (k_bcache s) (l1 ++ i :: l2) ->
  dirtyb s dev b = true \/ disk_read (k_disk s) dev b = d ->
  wp (brelse i) (fun _ s' => brelse_post s i (dirtyb s dev b) s' /\
                   lru (k_bcache s') (i :: l1 ++ l2)) s.
Proof.
  intros Hwf H0 (x & Hx & Hl & <- & <- & <-) Hlru Hsync.
  assert (dirtyb s (b_dev x) (b_blockno x) = is_dirty x) as Edirty
    by (unfold dirtyb; by rewrite (bfind_cached s i x)). rewrite Edirty in *.
  pose proof (unlock_post s i x Hwf Hx H0 Hl Hsync) as Hun.
  unfold wp. rewrite (brelse_run s i x) by done. set (s1 := set_k_bcache _ s) in *.
  pose proof (re_wf _ _ _ _ Hun) as Hwf1.
  apply (lru_insert_same _ i x (unlocked_buf x)) in Hlru; [|done..]. change (<[i:=unlocked_buf x]> (k_bcache s)) with (k_bcache s1) in Hlru.
  pose proof (wf_len _ Hwf1) as Hlen1. change (Z.to_nat NBUF) with bhead in Hlen1.
  rewrite (brelse_mru_run (k_bcache s1) l1 i l2 Hlen1 Hlru s1 eq_refl).
  pose proof (lru_unlink_push (k_bcache s1) l1 i l2 Hlen1 Hlru) as Hl'.
  pose proof (strip_unlink_push i (k_bcache s1)) as Hst.
  split; [split|].
  - by eapply relink_wf.
  - done.
  - intros j dev b d. rewrite relink_held by done. apply (re_held _ _ _ _ Hun).
  - intros. erewrite relink_view by done. by apply (re_view _ _ _ _ Hun).
  - intros. erewrite relink_dirty by done. by apply (re_dirty _ _ _ _ Hun).
  - erewrite relink_pinned by done. apply (re_pin _ _ _ _ Hun).
  - done.
Qed.

Lemma held_in_lru s i dev b d l : bc_wf s -> held s i dev b d -> dev <> 0 -> lru (k_bcache s) l -> i ∈ l.
Proof.
  intros Hwf (x & Hx & _ & <- & _) H0 Hlru. destruct (lru_NoDup _ _ Hlru) as [_ Hin]. apply Hin.
  pose proof (lookup_lt_Some _ _ _ Hx) as Hlt. rewrite (wf_len _ Hwf) in Hlt.
  assert (i <> bhead) by (intros ->; by apply (wf_head _ Hwf) in Hx). unfold bhead in *. lia.
Qed.

Lemma brelse_spec s i dev b d :
  bc_wf s -> dev <> 0 -> held s i dev b d ->
  dirtyb s dev b = true \/ disk_read (k_disk s) dev b = d ->
  wp (brelse i) (fun _ s' => brelse_post s i (dirtyb s dev b) s') s.
Proof.
  intros Hwf H0 Hh Hsync. destruct (wf_lru _ Hwf) as [l Hlru].
  pose proof (held_in_lru s i dev b d l Hwf Hh H0 Hlru) as Hil.
  apply list_elem_of_split in Hil as (l1 & l2 & ->).
  eapply wp_mono; [by eapply brelse_spec_lru|]. by intros _ s' [? _].
Qed.

(** *** The replacement policy *)

(** C5: Reading a block that is not cached recycles the buffer that was released
    longest ago among those neither referenced nor dirty (the last such one
    of the list [l] of buffers by recency), and brings in the block's
    contents; the contents of every block, evicted ones included, stay the
    same.  Releasing the buffer moves it to the front of the list. *)
Theorem bread_evicts_lru s dev b l :
  bc_wf s -> lru (k_bcache s) l -> dev <> 0 -> dd_ok s dev b -> (pinned s < Z.to_nat NBUF)%nat ->
  (forall i x, k_bcache s !! i = Some x -> ~ (b_dev x = dev /\ b_blockno x = b)) ->
  exists l1 i l2 s', l = l1 ++ i :: l2 /\ bread dev b s = Ret i s' /\
    unused_at (k_bcache s) i = true /\ Forall (fun j => unused_at (k_bcache s) j = false) l2 /\
    lru (k_bcache s') l /\ held s' i dev b (disk_read (k_disk s) dev b) /\
    (forall dev' b', dev' <> 0 -> bview s' dev' b' = bview s dev' b') /\
    wp (brelse i) (fun _ s'' => lru (k_bcache s'') (i :: l1 ++ l2)) s'.
Proof.
  intros Hwf Hlru H0 Hok Hp Hnc.
  destruct (bread_recycle s dev b l) as (i & x & Hi & Hh & Hpin & Hl & Hf & E); try done.
  assert (exists l1 l2, l = l1 ++ i :: l2 /\ unused_at (k_bcache s) i = true /\
    Forall (fun j => unused_at (k_bcache s) j = false) l2) as (l1 & l2 & -> & Hu & Hfa).
  { clear -Hf. induction l as [|j l IH] using rev_ind; [done|]. rewrite rev_app_distr in Hf. simpl in Hf.
    destruct (unused_at (k_bcache s) j) eqn:Ej; [simplify_eq; by exists l, []|].
    destruct (IH Hf) as (l1 & l2 & -> & ? & ?). exists l1, (l2 ++ [j]). split_and!; [|done|].
    - by rewrite <- app_assoc.
    - apply Forall_app. split; [done|]. by constructor. }
  set (s' := set_k_bcache _ s) in E. exists l1, i, l2, s'.
  assert (bread_post s dev b i s') as P' by (by apply bread_post_recycle).
  assert (lru (k_bcache s') (l1 ++ i :: l2)) as Hlru' by (by eapply lru_insert_same).
  assert (bview s dev b = disk_read (k_disk s) dev b) as Ev by (by apply bview_uncached).
  assert (held s' i dev b (bview s dev b)) as Hh' by (apply P'; by left).
  rewrite Ev in Hh'. split_and!; try done; [apply P'|].
  eapply wp_mono; [eapply brelse_spec_lru; try done; [apply P'|by right]|]. by intros _ s'' [_ ?].
Qed.

(** ** [binit]

    [bcache] is zero-initialised memory; [binit] links the buffers behind
    the head, the last one first. *)
Definition zero_buf (d : list Z) : buf := mk_buf 0 0 0 no_lock 0 0 0 d.
Definition linked_buf (d : list Z) (i : nat) : buf :=
  mk_buf 0 0 0 no_lock 0 (if decide (i = bhead) then 0 else S i)%nat
    (match i with O => bhead | S i => i end) d.
Definition booted_bcache (d : list Z) : list buf := map (linked_buf d) (seq 0 (S bhead)).

Lemma binit_run d s :
  k_bcache s = replicate (S bhead) (zero_buf d) -> binit s = Ret tt (set_k_bcache (booted_bcache d) s).
Proof. intros E. destruct s. simpl in E. subst. vm_compute. reflexivity. Qed.

Lemma booted_lookup d i x : booted_bcache d !! i = Some x -> x = linked_buf d i.
Proof.
  unfold booted_bcache. rewrite list_lookup_fmap. intros H.
  destruct (seq 0 (S bhead) !! i) as [j|] eqn:E; [|done]. apply lookup_seq in E as [-> _].
  by injection H as <-.
Qed.

Lemma booted_lru d : lru (booted_bcache d) (rev (seq 0 bhead)).
Proof. split; [by rewrite Permutation_rev, rev_involutive|]. vm_compute. repeat split. Qed.

Lemma binit_spec d s :
  k_bcache s = replicate (S bhead) (zero_buf d) -> length d = Z.to_nat BSIZE ->
  (forall dev b, length (disk_read (k_disk s) dev b) = Z.to_nat BSIZE) ->
  wp binit (fun _ s' => bc_wf s' /\ s' = set_k_bcache (k_bcache s') s /\ pinned s' = 0%nat /\
              (forall i dev b x, ~ held s' i dev b x) /\
              (forall dev b, dev <> 0 -> bview s' dev b = disk_read (k_disk s) dev b) /\
              (forall dev b, dev <> 0 -> dirtyb s' dev b = false)) s.
Proof.
  intros Hz Hd Hdisk. unfold wp. rewrite (binit_run d s Hz).
  assert (forall dev b, dev <> 0 -> forall i x, booted_bcache d !! i = Some x ->
            ~ (b_dev x = dev /\ b_blockno x = b)) as Hno.
  { intros dev b H0 i x ->%booted_lookup [E _]. by apply H0. }
  split_and!.
  - split; cbn [k_bcache set_k_bcache k_disk].
    + unfold booted_bcache. by rewrite length_map, length_seq.
    + eexists. apply booted_lru.
    + intros i x ->%booted_lookup. split; simpl; auto. done.
    + by intros x ->%booted_lookup.
    + by intros i j x y ->%booted_lookup.
    + done.
  - done.
  - unfold pinned. cbn [k_bcache set_k_bcache]. unfold booted_bcache. assert (forall l, List.filter pin (map (linked_buf d) l) = []) as ->; [|done].
    induction l; done.
  - intros i dev b x (y & Hy & Hl & _). apply booted_lookup in Hy as ->. done.
  - intros dev b H0. by apply (bview_uncached (set_k_bcache _ s)), Hno.
  - intros dev b H0. by apply (bview_uncached (set_k_bcache _ s)), Hno.
Qed.

End bio.
