(* ===== verification/Cache.v ===== *)
(** * The buffer cache as its clients see it

  An abstract cache [cache]: the contents of every block, the blocks pinned
  by [B_DIRTY], the buffers this process holds, the disk and the trace of
  disk writes.  [rep s c] says the kernel state [s] implements [c]; the
  rules [wp_bread], [wp_bdata], [wp_bput], [wp_bdirty], [wp_bwrite] and
  [wp_brelse] show that the code of bio.c (Bio.v) implements the abstract
  operations [a_bread] ... [a_brelse].  The log and the file systems are
  proved against these rules only. *)
From S2P Require Import Prelude Params KState Driver Dll Bio.

Notation blk := (Z * Z)%type.

Record cache := mk_cache {
  c_view : blk -> list Z;
  c_dirty : blk -> bool;
  c_held : gmap nat blk;
  c_disk : gmap blk (list Z);
  c_writes : list (blk * list Z)
}.

Definition a_bread (i : nat) (k : blk) (c : cache) : cache :=
  mk_cache (c_view c) (c_dirty c) (<[i := k]> (c_held c)) (c_disk c) (c_writes c).
Definition a_bput (k : blk) (d : list Z) (c : cache) : cache :=
  mk_cache (<[k := d]> (c_view c)) (c_dirty c) (c_held c) (c_disk c) (c_writes c).
Definition a_bdirty (k : blk) (c : cache) : cache :=
  mk_cache (c_view c) (<[k := true]> (c_dirty c)) (c_held c) (c_disk c) (c_writes c).
Definition a_bwrite (k : blk) (c : cache) : cache :=
  mk_cache (c_view c) (<[k := false]> (c_dirty c)) (c_held c)
    (<[k := c_view c k]> (c_disk c)) (c_writes c ++ [(k, c_view c k)]).
Definition a_brelse (i : nat) (c : cache) : cache :=
  mk_cache (c_view c) (c_dirty c) (delete i (c_held c)) (c_disk c) (c_writes c).

(** The cache, with no buffer held, after the blocks of [ws] have been
    written through it in order. *)
Definition replayf {A} (f : blk -> A) (ws : list (blk * A)) : blk -> A :=
  foldl (fun f w => <[w.1 := w.2]> f) f ws.
Definition replay (d : gmap blk (list Z)) (ws : list (blk * list Z)) : gmap blk (list Z) :=
  foldl (fun d w => <[w.1 := w.2]> d) d ws.
Definition a_wrote (ws : list (blk * list Z)) (c : cache) : cache :=
  mk_cache (replayf (c_view c) ws) (replayf (c_dirty c) ((fun w => (w.1, false)) <$> ws))
    (c_held c) (replay (c_disk c) ws) (c_writes c ++ ws).

(** The contents of a block on disk. *)
Definition dread (d : gmap blk (list Z)) (k : blk) : list Z := disk_read d k.1 k.2.

(** Every dirty block is in a list that leaves room for one more buffer. *)
Definition free_buf (c : cache) : Prop :=
  exists l, (forall k, k.1 <> 0 -> c_dirty c k = true -> k ∈ l) /\
    (length l + size (c_held c) < Z.to_nat NBUF)%nat.

(** *** Sequences of writes *)
Lemma replayf_app {A} (f : blk -> A) ws1 ws2 : replayf f (ws1 ++ ws2) = replayf (replayf f ws1) ws2.
Proof. apply foldl_app. Qed.
Lemma replay_app d ws1 ws2 : replay d (ws1 ++ ws2) = replay (replay d ws1) ws2.
Proof. apply foldl_app. Qed.
Lemma a_wrote_app ws1 ws2 c : a_wrote (ws1 ++ ws2) c = a_wrote ws2 (a_wrote ws1 c).
Proof. unfold a_wrote. simpl. by rewrite fmap_app, !replayf_app, replay_app, app_assoc. Qed.

Lemma replayf_notin {A} (f : blk -> A) ws k : k ∉ ws.*1 -> replayf f ws k = f k.
Proof.
  revert f. induction ws as [|[k' v] ws IH]; intros f Hk; [done|].
  rewrite fmap_cons, not_elem_of_cons in Hk. destruct Hk as [Hne Hk].
  simpl. rewrite IH by done. by rewrite fn_lookup_insert_ne.
Qed.

Lemma replayf_in {A} (f : blk -> A) ws k v : NoDup ws.*1 -> (k, v) ∈ ws -> replayf f ws k = v.
Proof.
  revert f. induction ws as [|[k' v'] ws IH]; intros f Hnd Hin; [by apply elem_of_nil in Hin|].
  rewrite fmap_cons in Hnd. apply NoDup_cons in Hnd as [Hni Hnd].
  apply elem_of_cons in Hin as [[= <- <-]|Hin]; [|by apply IH].
  simpl. rewrite replayf_notin by done. by rewrite fn_lookup_insert.
Qed.

(** Reading the disk after a replay. *)
Lemma dread_insert d k v k' : dread (<[k := v]> d) k' = <[k := v]> (dread d) k'.
Proof.
  destruct k as [a b], k' as [a' b']. unfold dread. simpl. destruct (decide ((a', b') = (a, b))) as [[= -> ->]|Hne].
  - by rewrite fn_lookup_insert, disk_read_insert_eq.
  - rewrite fn_lookup_insert_ne by done. apply disk_read_insert_ne. naive_solver.
Qed.

Lemma replayf_ext {A} (f g : blk -> A) ws k : (forall k, f k = g k) -> replayf f ws k = replayf g ws k.
Proof.
  revert f g. induction ws as [|[k' v] ws IH]; intros f g H; [apply H|]. simpl. apply IH. intros k''.
  destruct (decide (k'' = k')) as [->|]; [by rewrite !fn_lookup_insert|by rewrite !fn_lookup_insert_ne].
Qed.

Lemma dread_replay d ws k : dread (replay d ws) k = replayf (dread d) ws k.
Proof.
  revert d. induction ws as [|[k' v] ws IH]; intros d; [done|]. simpl. rewrite IH.
  apply replayf_ext. intros. apply dread_insert.
Qed.

Lemma replayf_false (f : blk -> bool) ws k :
  replayf f ((fun w : blk * list Z => (w.1, false)) <$> ws) k = true <-> f k = true /\ k ∉ ws.*1.
Proof.
  revert f. induction ws as [|[k' v] ws IH]; intros f.
  - simpl. split; [intros ?; split; [done|by apply not_elem_of_nil]|by intros []].
  - simpl. rewrite IH, not_elem_of_cons. destruct (decide (k = k')) as [->|Hne].
    + rewrite fn_lookup_insert. naive_solver.
    + rewrite fn_lookup_insert_ne by done. naive_solver.
Qed.

Section cache.
Context {DD : DiskDriver}.

Record rep (s : kstate) (c : cache) : Prop := {
  rep_wf : bc_wf s;
  rep_view : forall dev b, dev <> 0 -> bview s dev b = c_view c (dev, b);
  rep_dirty : forall dev b, dev <> 0 -> dirtyb s dev b = c_dirty c (dev, b);
  rep_held : forall i dev b d, held s i dev b d <-> c_held c !! i = Some (dev, b) /\ d = c_view c (dev, b);
  rep_dev : forall i k, c_held c !! i = Some k -> k.1 <> 0;
  rep_disk : k_disk s = c_disk c;
  rep_writes : k_writes s = c_writes c
}.

Definition bio_frame (s s' : kstate) : Prop :=
  s' = set_k_bcache (k_bcache s') (set_k_disk (k_disk s') (set_k_writes (k_writes s') s)).

Global Instance bio_frame_preorder : PreOrder bio_frame.
Proof.
  split; unfold bio_frame; [by intros []|].
  intros x y z H1 H2. rewrite H2. simpl. rewrite H1. by destruct x.
Qed.

Lemma dd_ok_bio s s' dev b : bio_frame s s' -> dd_ok s dev b -> dd_ok s' dev b.
Proof. intros H. rewrite H. by apply dd_ok_frame. Qed.

Lemma bio_frame_cache s s' : s' = set_k_bcache (k_bcache s') s -> bio_frame s s'.
Proof. intros H. unfold bio_frame. rewrite H. by destruct s. Qed.

Lemma frame_disk s s' : s' = set_k_bcache (k_bcache s') s -> k_disk s' = k_disk s /\ k_writes s' = k_writes s.
Proof. intros H. rewrite H. by destruct s. Qed.

Lemma rep_inj s c i j k : rep s c -> c_held c !! i = Some k -> c_held c !! j = Some k -> i = j.
Proof.
  intros R Hi Hj. pose proof (rep_dev _ _ R _ _ Hi) as H0. destruct k as [dev b].
  destruct (proj2 (rep_held _ _ R i dev b _) (conj Hi eq_refl)) as (x & Hx & _ & Ex & Ex' & _).
  destruct (proj2 (rep_held _ _ R j dev b _) (conj Hj eq_refl)) as (y & Hy & _ & Ey & Ey' & _).
  simpl in H0. apply (wf_uniq _ (rep_wf _ _ R) i j x y); congruence.
Qed.

Lemma rep_is_held s c i dev b :
  rep s c -> c_held c !! i = Some (dev, b) -> held s i dev b (c_view c (dev, b)) /\ dev <> 0.
Proof.
  intros R Hi. split; [by apply (rep_held _ _ R)|]. by apply (rep_dev _ _ R) in Hi.
Qed.

Lemma rep_length s c k : rep s c -> k.1 <> 0 -> length (c_view c k) = Z.to_nat BSIZE.
Proof.
  intros R H0. destruct k as [dev b]. rewrite <- (rep_view _ _ R) by done.
  apply bview_length, (rep_wf _ _ R).
Qed.

Lemma rep_dread_length s c k : rep s c -> length (dread (c_disk c) k) = Z.to_nat BSIZE.
Proof. intros R. unfold dread. rewrite <- (rep_disk _ _ R). apply (wf_disk _ (rep_wf _ _ R)). Qed.

(** A clean block that is not held is on disk what the cache says. *)
Lemma rep_sync s c k :
  rep s c -> k.1 <> 0 -> (forall i, c_held c !! i <> Some k) -> c_dirty c k = false ->
  dread (c_disk c) k = c_view c k.
Proof.
  intros R H0 Hn Hd. destruct k as [dev b]. unfold dread. rewrite <- (rep_disk _ _ R).
  rewrite <- (rep_view _ _ R) by done. apply view_sync; [apply R|done| |by rewrite (rep_dirty _ _ R)].
  intros j d Hh. apply (rep_held _ _ R) in Hh as [Hh _]. by eapply Hn.
Qed.

(** *** Counting pinned buffers *)
Lemma filter_lookup {A} (P : A -> bool) (l : list A) j x :
  List.filter P l !! j = Some x -> exists i, l !! i = Some x /\ P x = true.
Proof.
  intros H. apply list_elem_of_lookup_2 in H. apply list_elem_of_In, filter_In in H as [H HP].
  apply list_elem_of_In, list_elem_of_lookup in H as [i Hi]. eauto.
Qed.

Lemma NoDup_keys (bs : list buf) (P : buf -> bool) :
  (forall i j x y, bs !! i = Some x -> bs !! j = Some y -> P x = true ->
     b_dev x = b_dev y -> b_blockno x = b_blockno y -> i = j) ->
  NoDup ((fun x => (b_dev x, b_blockno x)) <$> List.filter P bs).
Proof.
  induction bs as [|x bs IH]; intros H; simpl; [constructor|].
  assert (NoDup ((fun x => (b_dev x, b_blockno x)) <$> List.filter P bs)) as IH'.
  { apply IH. intros i j y z Hy Hz ???. assert (S i = S j) by (by eapply H). lia. }
  destruct (P x) eqn:E; [|done]. rewrite fmap_cons. constructor; [|done].
  intros (y & Ey & Hy)%list_elem_of_fmap. apply list_elem_of_lookup in Hy as [j Hy].
  apply filter_lookup in Hy as (i & Hi & _). simplify_eq.
  assert (0%nat = S i) by (eapply H; eauto). lia.
Qed.

Lemma pinned_le s c l :
  rep s c -> (forall k, k.1 <> 0 -> c_dirty c k = true -> k ∈ l) ->
  (pinned s <= length l + size (c_held c))%nat.
Proof.
  intros R Hl. unfold pinned.
  rewrite <- (length_fmap (fun x => (b_dev x, b_blockno x))).
  transitivity (length (l ++ (map_to_list (c_held c)).*2)).
  2:{ rewrite length_app, length_fmap, length_map_to_list. lia. }
  pose proof (rep_wf _ _ R) as Hwf.
  assert (forall i x, k_bcache s !! i = Some x -> pin x = true -> b_dev x <> 0) as Hpin.
  { intros i x Hx Hp. destruct (ok_flags _ _ (wf_buf _ Hwf _ _ Hx)) as [(_ & Ef & El)|[? _]]; [|done].
    unfold pin, is_dirty in Hp. by rewrite Ef, El in Hp. }
  apply submseteq_length, NoDup_submseteq.
  { apply NoDup_keys. intros i j x y Hx Hy Hp. apply (wf_uniq _ Hwf i j x y Hx Hy). by eapply Hpin. }
  intros k (x & -> & Hx)%list_elem_of_fmap. apply list_elem_of_lookup in Hx as [j Hx].
  apply filter_lookup in Hx as (i & Hi & Hp). pose proof (Hpin _ _ Hi Hp) as H0.
  rewrite elem_of_app. unfold pin in Hp. apply orb_true_iff in Hp as [Hp|Hp].
  - right. apply list_elem_of_fmap. exists (i, (b_dev x, b_blockno x)). split; [done|].
    apply elem_of_map_to_list, (rep_held _ _ R i (b_dev x) (b_blockno x) (b_data x)).
    exists x. destruct (ok_lock _ _ (wf_buf _ Hwf _ _ Hi)) as [[El _]|[El _]]; [by rewrite El in Hp|done].
  - left. apply Hl; [done|]. rewrite <- (rep_dirty _ _ R) by done. unfold dirtyb.
    by rewrite (bfind_cached s i x).
Qed.

(** *** The operations *)
Lemma wp_bread s c dev b (Q : nat -> kstate -> Prop) :
  rep s c -> dev <> 0 -> dd_ok s dev b -> (forall j, c_held c !! j <> Some (dev, b)) ->
  c_dirty c (dev, b) = true \/ free_buf c ->
  (forall i s', c_held c !! i = None -> rep s' (a_bread i (dev, b) c) -> bio_frame s s' -> Q i s') ->
  wp (bread dev b) Q s.
Proof.
  intros R H0 Hok Hn Hf HQ. eapply wp_mono; [apply bread_spec; try done|].
  - apply R.
  - intros j d (Hh & _)%(rep_held _ _ R). by eapply Hn.
  - rewrite (rep_dirty _ _ R) by done. destruct Hf as [?|(l & Hl & Hlt)]; [by left|right].
    pose proof (pinned_le s c l R Hl). lia.
  - intros i s' P. destruct (frame_disk _ _ (br_frame _ _ _ _ _ P)) as [Ed Ew].
    assert (c_held c !! i = None) as Hi.
    { destruct (c_held c !! i) as [[dev' b']|] eqn:E; [|done].
      destruct (rep_is_held s c i dev' b' R E) as [Hh _]. by apply (br_new _ _ _ _ _ P) in Hh. }
    apply HQ; [done| |apply bio_frame_cache, P]. split; simpl.
    + apply P.
    + intros. rewrite (br_view _ _ _ _ _ P) by done. by apply R.
    + intros. rewrite (br_dirty _ _ _ _ _ P) by done. by apply R.
    + intros j dev' b' d. rewrite (br_held _ _ _ _ _ P), (rep_held _ _ R), (rep_view _ _ R) by done.
      destruct (decide (j = i)) as [->|?]; [rewrite lookup_insert_eq|rewrite lookup_insert_ne by done]; naive_solver.
    + intros j k. destruct (decide (j = i)) as [->|?]; [rewrite lookup_insert_eq|rewrite lookup_insert_ne by done].
      * by intros [= <-].
      * apply (rep_dev _ _ R).
    + rewrite Ed. apply R.
    + rewrite Ew. apply R.
Qed.

Lemma wp_bdata s c i k Q : rep s c -> c_held c !! i = Some k -> Q (c_view c k) s -> wp (bdata i) Q s.
Proof.
  intros R Hi HQ. destruct k as [dev b]. destruct (rep_is_held _ _ _ _ _ R Hi) as [Hh _].
  by eapply bdata_spec.
Qed.

Lemma rep_held_step s c i dev b (V : blk -> list Z) (d' : list Z) s' :
  rep s c -> c_held c !! i = Some (dev, b) -> V (dev, b) = d' ->
  (forall k, k <> (dev, b) -> V k = c_view c k) ->
  (forall j dev' b' d, held s' j dev' b' d <->
    (j = i /\ dev' = dev /\ b' = b /\ d = d') \/ (j <> i /\ held s j dev' b' d)) ->
  forall j dev' b' d, held s' j dev' b' d <-> c_held c !! j = Some (dev', b') /\ d = V (dev', b').
Proof.
  intros R Hi HV HV' Hh j dev' b' d. rewrite Hh, (rep_held _ _ R). split.
  - intros [(-> & -> & -> & ->)|(Hne & Hj & ->)]; [done|]. rewrite HV'; [done|].
    intros E. rewrite E in Hj. by destruct Hne; eapply rep_inj.
  - intros [Hj ->]. destruct (decide (j = i)) as [->|Hne]; [left; naive_solver|right].
    split; [done|]. split; [done|]. apply HV'. intros E. rewrite E in Hj. by destruct Hne; eapply rep_inj.
Qed.

(** What [bput], [bdirty] and [bwrite] have in common. *)
Lemma rep_step s c i dev b d' dty s' c' :
  rep s c -> c_held c !! i = Some (dev, b) -> step_post s i dev b d' dty s' ->
  (forall k, c_view c' k = <[(dev, b) := d']> (c_view c) k) ->
  (forall k, c_dirty c' k = <[(dev, b) := dty]> (c_dirty c) k) ->
  c_held c' = c_held c -> k_disk s' = c_disk c' -> k_writes s' = c_writes c' -> rep s' c'.
Proof.
  intros R Hi P HV HD HH Hd Hw. split; try done.
  - apply P.
  - intros dev' b' H0. rewrite (st_view _ _ _ _ _ _ _ P), HV by done.
    destruct (decide (dev' = dev /\ b' = b)) as [[-> ->]|Hne]; [by rewrite fn_lookup_insert|].
    rewrite fn_lookup_insert_ne by naive_solver. by apply R.
  - intros dev' b' H0. rewrite (st_dirty _ _ _ _ _ _ _ P), HD by done.
    destruct (decide (dev' = dev /\ b' = b)) as [[-> ->]|Hne]; [by rewrite fn_lookup_insert|].
    rewrite fn_lookup_insert_ne by naive_solver. by apply R.
  - rewrite HH. eapply rep_held_step; [done..|by rewrite HV, fn_lookup_insert| |apply P].
    intros k Hk. by rewrite HV, fn_lookup_insert_ne.
  - rewrite HH. apply R.
Qed.

Lemma fn_insert_id {A B} `{EqDecision A} (f : A -> B) a k : <[a := f a]> f k = f k.
Proof.
  destruct (decide (k = a)) as [->|]; [by rewrite fn_lookup_insert|by rewrite fn_lookup_insert_ne].
Qed.

Lemma wp_bput s c i k d (Q : unit -> kstate -> Prop) :
  rep s c -> c_held c !! i = Some k -> length d = Z.to_nat BSIZE ->
  (forall s', rep s' (a_bput k d c) -> bio_frame s s' -> Q tt s') -> wp (bput i d) Q s.
Proof.
  intros R Hi Hd HQ. destruct k as [dev b]. destruct (rep_is_held _ _ _ _ _ R Hi) as [Hh H0].
  eapply wp_mono; [eapply bput_spec; try done; apply R|]. intros [] s' [P Hf].
  destruct (frame_disk _ _ Hf) as [Ed Ew]. apply HQ; [|by apply bio_frame_cache].
  eapply rep_step; [done..| | |done| |]; simpl.
  - done.
  - intros k. by rewrite (rep_dirty _ _ R), fn_insert_id by done.
  - rewrite Ed. apply R.
  - rewrite Ew. apply R.
Qed.

Lemma wp_bdirty s c i k (Q : unit -> kstate -> Prop) :
  rep s c -> c_held c !! i = Some k ->
  (forall s', rep s' (a_bdirty k c) -> bio_frame s s' -> Q tt s') -> wp (bdirty i) Q s.
Proof.
  intros R Hi HQ. destruct k as [dev b]. destruct (rep_is_held _ _ _ _ _ R Hi) as [Hh H0].
  eapply wp_mono; [eapply bdirty_spec; try done; apply R|]. intros [] s' [P Hf].
  destruct (frame_disk _ _ Hf) as [Ed Ew]. apply HQ; [|by apply bio_frame_cache].
  eapply rep_step; [done..| | |done| |]; simpl.
  - intros k. by rewrite fn_insert_id.
  - done.
  - rewrite Ed. apply R.
  - rewrite Ew. apply R.
Qed.

Lemma wp_bwrite s c i k (Q : unit -> kstate -> Prop) :
  rep s c -> c_held c !! i = Some k -> dd_ok s k.1 k.2 ->
  (forall s', rep s' (a_bwrite k c) -> bio_frame s s' -> Q tt s') -> wp (bwrite i) Q s.
Proof.
  intros R Hi Hok HQ. destruct k as [dev b]. destruct (rep_is_held _ _ _ _ _ R Hi) as [Hh H0].
  eapply wp_mono; [eapply bwrite_spec; try done; apply R|]. intros [] s' [P Hf].
  assert (k_disk s' = <[(dev, b) := c_view c (dev, b)]> (k_disk s) /\
          k_writes s' = k_writes s ++ [(dev, b, c_view c (dev, b))]) as [Ed Ew]
    by (rewrite Hf; by destruct s).
  apply HQ; [|unfold bio_frame; rewrite Ed, Ew, Hf; by destruct s].
  eapply rep_step; [done..| | |done| |]; simpl.
  - intros k. by rewrite fn_insert_id.
  - done.
  - by rewrite Ed, (rep_disk _ _ R).
  - by rewrite Ew, (rep_writes _ _ R).
Qed.

Lemma wp_brelse s c i k (Q : unit -> kstate -> Prop) :
  rep s c -> c_held c !! i = Some k -> c_dirty c k = true \/ dread (c_disk c) k = c_view c k ->
  (forall s', rep s' (a_brelse i c) -> bio_frame s s' -> Q tt s') -> wp (brelse i) Q s.
Proof.
  intros R Hi Hs HQ. destruct k as [dev b]. destruct (rep_is_held _ _ _ _ _ R Hi) as [Hh H0].
  eapply wp_mono; [eapply brelse_spec; try done; [apply R|]|].
  { rewrite (rep_dirty _ _ R), (rep_disk _ _ R) by done. done. }
  intros [] s' P. pose proof (re_frame _ _ _ _ P) as Hf.
  destruct (frame_disk _ _ Hf) as [Ed Ew]. apply HQ; [|by apply bio_frame_cache]. split; simpl.
  - apply P.
  - intros. rewrite (re_view _ _ _ _ P) by done. by apply R.
  - intros. rewrite (re_dirty _ _ _ _ P) by done. by apply R.
  - intros j dev' b' d. rewrite (re_held _ _ _ _ P j), (rep_held _ _ R).
    destruct (decide (j = i)) as [->|?]; [rewrite lookup_delete_eq|rewrite lookup_delete_ne by done]; naive_solver.
  - intros j k [_ Hj]%lookup_delete_Some. by eapply (rep_dev _ _ R).
  - rewrite Ed. apply R.
  - rewrite Ew. apply R.
Qed.

Lemma rep_ext s c c' :
  rep s c -> (forall k, c_view c' k = c_view c k) -> (forall k, c_dirty c' k = c_dirty c k) ->
  c_held c' = c_held c -> c_disk c' = c_disk c -> c_writes c' = c_writes c -> rep s c'.
Proof.
  intros R Hv Hd Hh Hdk Hw. split; try rewrite Hh; try setoid_rewrite Hv; try setoid_rewrite Hd.
  - apply R.
  - apply (rep_view _ _ R).
  - apply (rep_dirty _ _ R).
  - apply (rep_held _ _ R).
  - apply (rep_dev _ _ R).
  - rewrite Hdk. apply R.
  - rewrite Hw. apply R.
Qed.

(** Copying the contents of one held block to another and writing it out, as
    [install_trans] and [write_log] do. *)
Definition copy_out (src dst : nat) : M kstate unit :=
  d ← bdata src;
  bput dst d ;;
  bwrite dst ;;
  brelse src ;;
  brelse dst.

Lemma copy_out_spec s c i j src dst (Q : unit -> kstate -> Prop) :
  rep s c -> c_held c !! i = Some src -> c_held c !! j = Some dst -> src <> dst ->
  dd_ok s dst.1 dst.2 -> c_dirty c src = true \/ dread (c_disk c) src = c_view c src ->
  (forall s', rep s' (a_brelse j (a_brelse i (a_wrote [(dst, c_view c src)] c))) -> bio_frame s s' -> Q tt s') ->
  wp (copy_out i j) Q s.
Proof.
  intros R Hi Hj Hne Hok Hs HQ. unfold copy_out. wp_step.
  assert (i <> j) as Hij by congruence.
  eapply wp_bdata; [done..|]. wp_step.
  eapply wp_bput; [done..| |].
  { apply (rep_length _ _ _ R), (rep_dev _ _ R _ _ Hi). }
  intros s1 R1 F1. wp_step. eapply wp_bwrite; [done..|by eapply dd_ok_bio|].
  intros s2 R2 F2. wp_step. eapply wp_brelse; [exact R2|exact Hi| |].
  { simpl. rewrite dread_insert, !fn_lookup_insert_ne by done. done. }
  intros s3 R3 F3. eapply wp_brelse; [exact R3|simpl; by rewrite lookup_delete_ne| |].
  { right. simpl. by rewrite dread_insert, !fn_lookup_insert. }
  intros s4 R4 F4. apply HQ; [|by do 3 (etrans; [eassumption|])].
  eapply rep_ext; [exact R4|done..| |]; simpl; by rewrite fn_lookup_insert.
Qed.

(** The two orders in which a pair of blocks is read and released. *)
Lemma rep_copied s c i j k k' ws :
  c_held c = ∅ -> c_held (a_bread j k' c) !! i = None ->
  rep s (a_brelse i (a_brelse j (a_wrote ws (a_bread i k (a_bread j k' c))))) \/
  rep s (a_brelse j (a_brelse i (a_wrote ws (a_bread i k (a_bread j k' c))))) ->
  rep s (a_wrote ws c).
Proof.
  simpl. intros Hh Hi [R|R]; (eapply rep_ext; [exact R|done..| |done|done]); simpl; rewrite Hh in *.
  - rewrite delete_delete, delete_insert_id, delete_insert_id by done. done.
  - rewrite delete_insert_id, delete_insert_id by done. done.
Qed.

(** ** The cache implements the abstract one

    The operations a client calls, the steps of the abstract cache and when
    a client may take them. *)
Inductive bop :=
| OBread (dev b : Z)
| OBdata (i : nat)
| OBput (i : nat) (d : list Z)
| OBdirty (i : nat)
| OBwrite (i : nat)
| OBrelse (i : nat).

Inductive bres := RBuf (i : nat) | RData (d : list Z) | RUnit.

Definition run_bop (o : bop) : M kstate bres :=
  match o with
  | OBread dev b => i ← bread dev b; mret (RBuf i)
  | OBdata i => d ← bdata i; mret (RData d)
  | OBput i d => bput i d ;; mret RUnit
  | OBdirty i => bdirty i ;; mret RUnit
  | OBwrite i => bwrite i ;; mret RUnit
  | OBrelse i => brelse i ;; mret RUnit
  end.

Inductive a_step : cache -> bop -> bres -> cache -> Prop :=
| AS_bread c dev b i : c_held c !! i = None -> a_step c (OBread dev b) (RBuf i) (a_bread i (dev, b) c)
| AS_bdata c i k : c_held c !! i = Some k -> a_step c (OBdata i) (RData (c_view c k)) c
| AS_bput c i k d : c_held c !! i = Some k -> a_step c (OBput i d) RUnit (a_bput k d c)
| AS_bdirty c i k : c_held c !! i = Some k -> a_step c (OBdirty i) RUnit (a_bdirty k c)
| AS_bwrite c i k : c_held c !! i = Some k -> a_step c (OBwrite i) RUnit (a_bwrite k c)
| AS_brelse c i k : c_held c !! i = Some k -> a_step c (OBrelse i) RUnit (a_brelse i c).

Definition a_enabled (s : kstate) (c : cache) (o : bop) : Prop :=
  match o with
  | OBread dev b => dev <> 0 /\ dd_ok s dev b /\ (forall j, c_held c !! j <> Some (dev, b)) /\
                    (c_dirty c (dev, b) = true \/ free_buf c)
  | OBdata i | OBdirty i => is_Some (c_held c !! i)
  | OBput i d => is_Some (c_held c !! i) /\ length d = Z.to_nat BSIZE
  | OBwrite i => exists k, c_held c !! i = Some k /\ dd_ok s k.1 k.2
  | OBrelse i => exists k, c_held c !! i = Some k /\ (c_dirty c k = true \/ dread (c_disk c) k = c_view c k)
  end.

(** C4: Forward simulation: in a state that implements the abstract cache [c],
    every enabled operation returns (no panic, no sleep, no fault), its
    result and effect are a step of the abstract cache, and nothing outside
    the cache and the disk changes. *)
Theorem bcache_simulation s c o :
  rep s c -> a_enabled s c o ->
  exists r s' c', run_bop o s = Ret r s' /\ a_step c o r c' /\ rep s' c' /\ bio_frame s s'.
Proof.
  intros R He.
  enough (wp (run_bop o) (fun r s' => exists c', a_step c o r c' /\ rep s' c' /\ bio_frame s s') s) as Hwp.
  { apply wp_Ret in Hwp as (r & s' & E & c' & H). by exists r, s', c'. }
  destruct o as [dev b|i|i d|i|i|i]; simpl in He |- *; wp_step.
  - destruct He as (H0 & Hok & Hn & Hf). eapply wp_bread; [done..|]. intros i s' Hi R' F. wp_step.
    eexists. split_and!; [by constructor|done..].
  - destruct He as [k Hk]. eapply wp_bdata; [done..|]. wp_step. eexists. split_and!; [by econstructor|done|done].
  - destruct He as [[k Hk] Hd]. eapply wp_bput; [done..|]. intros s' R' F. wp_step.
    eexists. split_and!; [by econstructor|done..].
  - destruct He as [k Hk]. eapply wp_bdirty; [done..|]. intros s' R' F. wp_step.
    eexists. split_and!; [by econstructor|done..].
  - destruct He as (k & Hk & Hok). eapply wp_bwrite; [done..|]. intros s' R' F. wp_step.
    eexists. split_and!; [by econstructor|done..].
  - destruct He as (k & Hk & Hs). eapply wp_brelse; [done..|]. intros s' R' F. wp_step.
    eexists. split_and!; [by econstructor|done..].
Qed.
End cache.
