(* ===== verification/Log.v ===== *)
(** * The write-ahead log (log.c)

  The operations of log.c over the buffer cache, the invariant that ties the
  in-memory header to the blocks pinned in the cache, and their
  specifications.  [commit_writes] is the exact sequence of disk writes of a
  commit; LogCrash.v derives from it that a crash at any point of a commit
  leaves, after recovery, all or none of the transaction. *)
From S2P Require Import Prelude Params Layout KState Driver Dll Bio Cache.

Definition updlog (f : log -> log) : M kstate unit := modify (fun s => set_k_log (f (k_log s)) s).

(** sizeof(struct logheader) *)
Notation sizeof_logheader := (4 + 4 * LOGSIZE) (only parsing).

(** The header block: [int n; int block[LOGSIZE]]. *)
Definition hd_n (d : list Z) : Z := s32 (rd 4 d 0).
Definition hd_block (d : list Z) (i : nat) : Z := s32 (rd 4 d (4 + 4 * i)).
Definition hd_blocks (d : list Z) : list Z := hd_block d <$> seq 0 (Z.to_nat (hd_n d)).

(** The in-memory header: the block numbers of the transaction. *)
Definition logged (l : log) : list Z := take (Z.to_nat (lh_n l)) (lh_block l).

(** [hb->n = n; hb->block[i] = block[i] for i < n]: consecutive words. *)
Definition head_put (n : Z) (bs : list Z) (d : list Z) : list Z := splice d 0 (enc_u32s (n :: bs)).
Global Arguments head_put : simpl never.

Section log.
Context {DD : DiskDriver}.

(** ** The operations *)

(** fs.c: the superblock is in block 1. *)
Definition readsb (dev : Z) : M kstate superblock :=
  bp ← bread dev 1;
  d ← bdata bp;
  brelse bp ;;
  mret (dec_superblock d).

Definition install_trans_iter (tail : nat) : M kstate unit :=
  l ← gets k_log;
  lbuf ← bread (log_dev l) (u32 (log_start l + Z.of_nat tail + 1));
  b ← unwrap (lh_block l !! tail) "log.lh.block";
  dbuf ← bread (log_dev l) (u32 b);
  copy_out lbuf dbuf.

Definition install_trans : M kstate unit :=
  l ← gets k_log;
  forM (seq 0 (Z.to_nat (lh_n l))) install_trans_iter.

Definition read_head : M kstate unit :=
  l ← gets k_log;
  buf ← bread (log_dev l) (u32 (log_start l));
  d ← bdata buf;
  if LOGSIZE <? hd_n d then fault "log.lh.block" else
  updlog (fun l => set_lh_block (hd_blocks d ++ drop (Z.to_nat (hd_n d)) (lh_block l)) (set_lh_n (hd_n d) l)) ;;
  brelse buf.

Definition write_head : M kstate unit :=
  l ← gets k_log;
  buf ← bread (log_dev l) (u32 (log_start l));
  d ← bdata buf;
  if LOGSIZE <? lh_n l then fault "log.lh.block" else
  bput buf (head_put (lh_n l) (logged l) d) ;;
  bwrite buf ;;
  brelse buf.

Definition recover_from_log : M kstate unit :=
  read_head ;;
  install_trans ;;
  updlog (set_lh_n 0) ;;
  write_head.

Definition initlog (dev : Z) : M kstate unit :=
  if BSIZE <=? sizeof_logheader then panic "initlog: too big logheader" else
  sb ← readsb dev;
  updlog (fun l => set_log_dev dev (set_log_size (s32 (sb_nlog sb)) (set_log_start (s32 (sb_logstart sb)) l))) ;;
  recover_from_log.

Definition begin_op : M kstate unit :=
  l ← gets k_log;
  if log_committing l then sleep_on "log"
  else if LOGSIZE <? lh_n l + (log_outstanding l + 1) * MAXOPBLOCKS then sleep_on "log"
  else updlog (fun l => set_log_outstanding (log_outstanding l + 1) l).

Definition write_log_iter (tail : nat) : M kstate unit :=
  l ← gets k_log;
  to ← bread (log_dev l) (u32 (log_start l + Z.of_nat tail + 1));
  b ← unwrap (lh_block l !! tail) "log.lh.block";
  from ← bread (log_dev l) (u32 b);
  copy_out from to.

Definition write_log : M kstate unit :=
  l ← gets k_log;
  forM (seq 0 (Z.to_nat (lh_n l))) write_log_iter.

Definition commit : M kstate unit :=
  l ← gets k_log;
  if 0 <? lh_n l then
    write_log ;;
    write_head ;;
    install_trans ;;
    updlog (set_lh_n 0) ;;
    write_head
  else mret tt.

Definition end_op : M kstate unit :=
  updlog (fun l => set_log_outstanding (log_outstanding l - 1) l) ;;
  l ← gets k_log;
  if log_committing l then panic "log.committing" else
  if log_outstanding l =? 0 then
    updlog (set_log_committing true) ;;
    commit ;;
    updlog (set_log_committing false)
  else mret tt.

(** The index of the first entry equal to [b], else the number of entries. *)
Fixpoint absorb (bs : list Z) (b : Z) : nat :=
  match bs with
  | [] => 0
  | x :: bs => if u32 x =? b then 0 else S (absorb bs b)
  end.

Definition log_record (b : Z) (l : log) : log :=
  let i := absorb (logged l) b in
  let l' := set_lh_block (<[i := s32 b]> (lh_block l)) l in
  if Z.of_nat i =? lh_n l then set_lh_n (lh_n l + 1) l' else l'.

Definition log_write (i : nat) : M kstate unit :=
  l ← gets k_log;
  if (LOGSIZE <=? lh_n l) || (log_size l - 1 <=? lh_n l) then panic "too big a transaction" else
  if log_outstanding l <? 1 then panic "log_write outside of trans" else
  x ← getb i;
  updlog (log_record (b_blockno x)) ;;
  bdirty i.

(** ** The invariant *)
Definition in_log (l : log) (b : Z) : Prop := log_start l <= b < log_start l + log_size l.

(** The block is one the file system may log: a block of the disk outside
    the log. *)
Definition home (l : log) (b : Z) : Prop := 0 <= b < FSSIZE /\ ~ in_log l b.

Record log_wf (l : log) : Prop := {
  lw_dev : log_dev l <> 0;
  lw_region : 0 <= log_start l /\ 1 <= log_size l <= LOGSIZE /\ log_start l + log_size l <= 2 ^ 31;
  lw_n : 0 <= lh_n l <= log_size l - 1;
  lw_len : length (lh_block l) = Z.to_nat LOGSIZE;
  lw_nodup : NoDup (logged l);
  lw_home : Forall (home l) (logged l)
}.

(** The driver serves the log's blocks and the transaction's. *)
Definition log_dd (s : kstate) (l : log) : Prop :=
  forall b, in_log l b \/ b ∈ logged l -> dd_ok s (log_dev l) b.

(** The blocks pinned in the cache are exactly the transaction's. *)
Definition log_pins (c : cache) (l : log) : Prop :=
  forall k, k.1 <> 0 -> c_dirty c k = true <-> k.1 = log_dev l /\ k.2 ∈ logged l.

Definition sub_pins (c : cache) (l : log) : Prop :=
  forall k, k.1 <> 0 -> c_dirty c k = true -> k.1 = log_dev l /\ k.2 ∈ logged l.

Definition log_frame (s s' : kstate) : Prop :=
  s' = set_k_log (k_log s') (set_k_bcache (k_bcache s') (set_k_disk (k_disk s') (set_k_writes (k_writes s') s))).

(** The disk writes of a commit of the transaction [l], whose blocks have
    the contents [V]: the log blocks, the header, the home blocks, and the
    cleared header.  [hd] is the header block before the commit. *)
Definition log_ws (l : log) (V : blk -> list Z) : list (blk * list Z) :=
  imap (fun j b => ((log_dev l, log_start l + Z.of_nat j + 1), V (log_dev l, b))) (logged l).
Definition home_ws (l : log) (V : blk -> list Z) : list (blk * list Z) :=
  (fun b => ((log_dev l, b), V (log_dev l, b))) <$> logged l.
Definition head_w (l : log) (n : Z) (bs hd : list Z) : list (blk * list Z) :=
  [((log_dev l, log_start l), head_put n bs hd)].
Definition commit_writes (l : log) (V : blk -> list Z) (hd : list Z) : list (blk * list Z) :=
  log_ws l V ++ head_w l (lh_n l) (logged l) hd ++ home_ws l V ++
  head_w l 0 [] (head_put (lh_n l) (logged l) hd).

(** *** The header block *)
Lemma length_head_put n bs d :
  (4 * S (length bs) <= length d)%nat -> length (head_put n bs d) = length d.
Proof. intros H. apply length_splice. rewrite length_enc_u32s. simpl length. lia. Qed.

Lemma head_put_app n bs d :
  head_put n bs d = enc_u32s (n :: bs) ++ drop (4 * S (length bs)) d.
Proof. unfold head_put, splice. rewrite take_0, length_enc_u32s. done. Qed.

Lemma s32_mod z : s32 (z mod 2 ^ 32) = s32 z.
Proof. unfold s32. by rewrite Z.mod_mod. Qed.

Lemma hd_n_head_put n bs d : - 2 ^ 31 <= n < 2 ^ 31 -> hd_n (head_put n bs d) = n.
Proof.
  intros Hn. unfold hd_n. rewrite head_put_app.
  rewrite (rd_enc_u32s (n :: bs) _ 0 n) by done. by rewrite s32_mod, s32_small.
Qed.

Lemma hd_blocks_head_put n bs d :
  n = Z.of_nat (length bs) -> n < 2 ^ 31 -> Forall (fun b => 0 <= b < 2 ^ 31) bs ->
  hd_blocks (head_put n bs d) = bs.
Proof.
  intros -> Hn Hbs. unfold hd_blocks. rewrite hd_n_head_put by lia. rewrite Nat2Z.id.
  apply list_eq. intros j. rewrite list_lookup_fmap.
  destruct (bs !! j) as [b|] eqn:E.
  - pose proof (lookup_lt_Some _ _ _ E). rewrite lookup_seq_lt by done. simpl. f_equal.
    unfold hd_block. rewrite head_put_app.
    replace (4 + 4 * j)%nat with (4 * S j)%nat by lia.
    rewrite (rd_enc_u32s (_ :: bs) _ (S j) b) by done.
    rewrite s32_mod. apply s32_small. rewrite Forall_lookup in Hbs. specialize (Hbs _ _ E). lia.
  - rewrite lookup_seq_ge; [done|]. by apply lookup_ge_None.
Qed.

(** *** Facts about a well-formed log *)
Lemma length_logged l : log_wf l -> length (logged l) = Z.to_nat (lh_n l).
Proof.
  intros W. unfold logged. rewrite length_take, (lw_len _ W).
  pose proof (lw_n _ W). pose proof (lw_region _ W). lia.
Qed.

Lemma logged_lookup l j : log_wf l -> (j < Z.to_nat (lh_n l))%nat ->
  exists b, lh_block l !! j = Some b /\ logged l !! j = Some b /\ home l b.
Proof.
  intros W Hj. destruct (lookup_lt_is_Some_2 (logged l) j) as [b Hb]; [by rewrite length_logged|].
  exists b. split_and!; [|done|].
  - unfold logged in Hb. by rewrite lookup_take_lt in Hb.
  - apply (proj1 (Forall_lookup _ _) (lw_home _ W) _ _ Hb).
Qed.

Lemma log_block_u32 l j : log_wf l -> (j < Z.to_nat (lh_n l))%nat ->
  u32 (log_start l + Z.of_nat j + 1) = log_start l + Z.of_nat j + 1 /\
  in_log l (log_start l + Z.of_nat j + 1) /\ log_start l + Z.of_nat j + 1 <> log_start l.
Proof.
  intros W Hj. pose proof (lw_region _ W). pose proof (lw_n _ W). unfold in_log.
  rewrite u32_small; lia.
Qed.

Lemma log_start_u32 l : log_wf l -> u32 (log_start l) = log_start l /\ in_log l (log_start l).
Proof. intros W. pose proof (lw_region _ W). unfold in_log. rewrite u32_small; lia. Qed.

Lemma home_range l b : home l b -> 0 <= b < 2 ^ 31.
Proof. intros [H _]. klia. Qed.
Lemma home_u32 l b : home l b -> u32 b = b.
Proof. intros [H _]. apply u32_small. klia. Qed.

Lemma logged_home l b : log_wf l -> b ∈ logged l -> home l b.
Proof. intros W Hb. by apply (proj1 (Forall_forall _ _) (lw_home _ W)). Qed.

Lemma pins_sub c l : log_pins c l -> sub_pins c l.
Proof. intros P k H0 Hd. by apply P. Qed.

Lemma sub_pins_free_buf c l : log_wf l -> sub_pins c l -> c_held c = ∅ -> free_buf c.
Proof.
  intros W P Hh. exists ((fun b => (log_dev l, b)) <$> logged l). split.
  - intros [dev b] H0 [Hd Hb]%P; [|done]. simpl in *. subst. apply list_elem_of_fmap. by exists b.
  - rewrite length_fmap, length_logged, Hh, map_size_empty by done.
    pose proof (lw_n _ W). pose proof (lw_region _ W). klia.
Qed.

Lemma free_buf_sub c c' :
  (forall k, k.1 <> 0 -> c_dirty c' k = true -> c_dirty c k = true) ->
  (size (c_held c') <= size (c_held c))%nat -> free_buf c -> free_buf c'.
Proof. intros Hd Hh (l & Hl & Hlt). exists l. split; [auto|lia]. Qed.

Lemma wrote_dirty ws c k : c_dirty (a_wrote ws c) k = true <-> c_dirty c k = true /\ k ∉ ws.*1.
Proof. apply replayf_false. Qed.

Lemma free_buf_wrote ws c : free_buf c -> free_buf (a_wrote ws c).
Proof. apply free_buf_sub; [|done]. by intros k _ [? _]%wrote_dirty. Qed.

(** *** Writing the log *)
Lemma log_ws_lookup l V j b :
  logged l !! j = Some b ->
  log_ws l V !! j = Some ((log_dev l, log_start l + Z.of_nat j + 1), V (log_dev l, b)).
Proof. intros H. unfold log_ws. by rewrite list_lookup_imap, H. Qed.

Lemma log_ws_keys l V k : log_wf l -> k ∈ (log_ws l V).*1 -> k.1 = log_dev l /\ in_log l k.2 /\ k.2 <> log_start l.
Proof.
  intros W Hk. apply list_elem_of_fmap in Hk as ([k' v] & -> & Hin).
  apply elem_of_lookup_imap in Hin as (j & b & E & Hj). simplify_eq/=.
  apply lookup_lt_Some in Hj. rewrite length_logged in Hj by done.
  by destruct (log_block_u32 l j W Hj) as (_ & ? & ?).
Qed.

Lemma take_sub {A} (ws : list A) t x : x ∈ take t ws -> x ∈ ws.
Proof. intros H. rewrite <- (take_drop t ws). apply elem_of_app. by left. Qed.

Lemma take_keys {A} (ws : list (blk * A)) t k : k ∈ (take t ws).*1 -> k ∈ ws.*1.
Proof. rewrite fmap_take. apply take_sub. Qed.

Lemma write_log_iter_spec s c l t :
  rep s (a_wrote (take t (log_ws l (c_view c))) c) -> c_held c = ∅ -> k_log s = l ->
  log_wf l -> log_pins c l -> log_dd s l -> (t < Z.to_nat (lh_n l))%nat ->
  wp (write_log_iter t) (fun _ s' => rep s' (a_wrote (take (t + 1) (log_ws l (c_view c))) c) /\ bio_frame s s') s.
Proof.
  intros R Hh Hl W P D Ht. destruct (logged_lookup l t W Ht) as (b & Hb & Hlb & Hhome).
  destruct (log_block_u32 l t W Ht) as (Eu & Hin & Hns).
  assert (b ∈ logged l) as Hbl by (by eapply list_elem_of_lookup_2).
  set (ws := take t (log_ws l (c_view c))) in *.
  assert ((log_dev l, b) ∉ ws.*1) as Hnw.
  { intros (_ & Hx & _)%take_keys%log_ws_keys; [|done]. by apply Hhome in Hx. }
  unfold write_log_iter. wp_steps. rewrite Hl, Hb, Eu.
  eapply wp_bread; [exact R|apply W|apply D; by left|simpl; by rewrite Hh|right|].
  { apply free_buf_wrote. eapply sub_pins_free_buf; [done|by apply pins_sub|done]. }
  intros to s1 Hto R1 F1. wp_steps. rewrite (home_u32 l b) by done.
  eapply wp_bread; [exact R1|apply W|eapply dd_ok_bio; [done|apply D; by right]| |left|].
  { intros j. simpl. rewrite Hh. intros [[-> Hj]|[_ Hj]]%lookup_insert_Some; [|done].
    simplify_eq. apply Hhome, Hin. }
  { apply wrote_dirty. split; [|done]. apply P; [apply W|done]. }
  intros from s2 Hfrom R2 F2. eapply copy_out_spec; [exact R2| | | | | |].
  - simpl. by rewrite lookup_insert_eq.
  - simpl in *. rewrite lookup_insert_ne, lookup_insert_eq; [done|].
    intros ->. by rewrite lookup_insert_eq in Hfrom.
  - intros [=]. subst. apply Hhome, Hin.
  - eapply dd_ok_bio; [exact F2|]. eapply dd_ok_bio; [exact F1|]. apply D. by left.
  - left. apply wrote_dirty. split; [|done]. apply P; [apply W|done].
  - intros s3 R3 F3. split; [|by etrans; [exact F1|etrans]].
    rewrite Nat.add_1_r, (take_S_r _ _ _ (log_ws_lookup l (c_view c) t b Hlb)). fold ws.
    rewrite a_wrote_app. eapply rep_copied; [done|exact Hfrom|right].
    simpl in R3. rewrite replayf_notin in R3 by done. exact R3.
Qed.

Lemma write_log_spec s c l :
  rep s c -> c_held c = ∅ -> k_log s = l -> log_wf l -> log_pins c l -> log_dd s l ->
  wp write_log (fun _ s' => rep s' (a_wrote (log_ws l (c_view c)) c) /\ bio_frame s s') s.
Proof.
  intros R Hh Hl W P D. unfold write_log. wp_steps. rewrite Hl. eapply wp_mono.
  - apply (wp_forM_seq _ (fun t s' => rep s' (a_wrote (take t (log_ws l (c_view c))) c) /\ bio_frame s s')).
    + split; [|done]. rewrite take_0. eapply rep_ext; [exact R|done..|]. simpl. by rewrite app_nil_r.
    + intros t s' Ht [R' F]. eapply wp_mono; [apply write_log_iter_spec; try done|].
      * by rewrite F.
      * intros b Hb. eapply dd_ok_bio; [exact F|]. by apply D.
      * lia.
      * intros _ s'' [R'' F'']. split; [done|by etrans].
  - intros _ s' [R' F]. split; [|done]. rewrite take_ge in R'; [done|].
    unfold log_ws. rewrite length_imap, length_logged by done. lia.
Qed.

(** *** Installing the log *)
Definition install_ws (l : log) (V : blk -> list Z) : list (blk * list Z) :=
  imap (fun j b => ((log_dev l, b), V (log_dev l, log_start l + Z.of_nat j + 1))) (logged l).

Lemma install_ws_lookup l V j b :
  logged l !! j = Some b ->
  install_ws l V !! j = Some ((log_dev l, b), V (log_dev l, log_start l + Z.of_nat j + 1)).
Proof. intros H. unfold install_ws. by rewrite list_lookup_imap, H. Qed.

Lemma install_ws_keys l V k :
  log_wf l -> k ∈ (install_ws l V).*1 -> k.1 = log_dev l /\ k.2 ∈ logged l /\ ~ in_log l k.2.
Proof.
  intros W Hk. apply list_elem_of_fmap in Hk as ([k' v] & -> & Hin).
  apply elem_of_lookup_imap in Hin as (j & b & E & Hj). simplify_eq/=.
  split_and!; [done|by eapply list_elem_of_lookup_2|].
  apply (proj1 (Forall_lookup _ _) (lw_home _ W) _ _ Hj).
Qed.

(** While a log block is held, there is a buffer for a clean home block. *)
Lemma sub_pins_free_buf2 c l b i k :
  log_wf l -> sub_pins c l -> c_held c = ∅ -> b ∈ logged l -> c_dirty c (log_dev l, b) = false ->
  free_buf (a_bread i k c).
Proof.
  intros W P Hh Hb Hc. exists ((fun b => (log_dev l, b)) <$> filter (fun x => x <> b) (logged l)). split.
  - intros [dev b'] H0 Hd. simpl in Hd. destruct (P _ H0 Hd) as [Hdev Hb']. simpl in *. subst.
    apply list_elem_of_fmap. exists b'. split; [done|]. apply list_elem_of_filter. split; [|done].
    intros ->. congruence.
  - simpl. rewrite length_fmap, Hh, map_size_insert_None, map_size_empty by done.
    assert (length (filter (fun x => x <> b) (logged l)) < length (logged l))%nat as Hlt.
    { apply length_filter_lt with b; [done|]. tauto. }
    rewrite length_logged in Hlt by done. pose proof (lw_n _ W). pose proof (lw_region _ W). klia.
Qed.

Lemma install_trans_iter_spec s c l t :
  rep s (a_wrote (take t (install_ws l (c_view c))) c) -> c_held c = ∅ -> k_log s = l ->
  log_wf l -> sub_pins c l -> log_dd s l -> (t < Z.to_nat (lh_n l))%nat ->
  wp (install_trans_iter t)
     (fun _ s' => rep s' (a_wrote (take (t + 1) (install_ws l (c_view c))) c) /\ bio_frame s s') s.
Proof.
  intros R Hh Hl W P D Ht. destruct (logged_lookup l t W Ht) as (b & Hb & Hlb & Hhome).
  destruct (log_block_u32 l t W Ht) as (Eu & Hin & Hns).
  assert (b ∈ logged l) as Hbl by (by eapply list_elem_of_lookup_2).
  set (ws := take t (install_ws l (c_view c))) in *.
  set (src := (log_dev l, log_start l + Z.of_nat t + 1)).
  assert (src ∉ ws.*1) as Hnw by (by intros (_ & _ & Hx)%take_keys%install_ws_keys).
  assert (sub_pins (a_wrote ws c) l) as P' by (intros k H0 [? _]%wrote_dirty; by apply P).
  assert (c_dirty (a_wrote ws c) src = false) as Hcl.
  { apply not_true_iff_false. intros Hd. apply (P' src) in Hd as [_ Hd]; [|apply W].
    by apply (logged_home l) in Hd as [_ []]. }
  unfold install_trans_iter. wp_steps. rewrite Hl, Hb, Eu.
  eapply wp_bread; [exact R|apply W|apply D; by left|simpl; by rewrite Hh|right|].
  { by eapply sub_pins_free_buf. }
  intros lbuf s1 Hlb1 R1 F1. wp_steps. rewrite (home_u32 l b) by done.
  eapply wp_bread; [exact R1|apply W|eapply dd_ok_bio; [done|apply D; by right]| | |].
  { intros j. simpl. rewrite Hh. intros [[-> Hj]|[_ Hj]]%lookup_insert_Some; [|done].
    simplify_eq. apply Hhome, Hin. }
  { destruct (c_dirty (a_wrote ws c) (log_dev l, b)) eqn:E; [by left|right].
    by eapply sub_pins_free_buf2. }
  intros dbuf s2 Hdb R2 F2. eapply copy_out_spec; [exact R2| | | | | |].
  - simpl in *. rewrite lookup_insert_ne, lookup_insert_eq; [done|].
    intros ->. by rewrite lookup_insert_eq in Hdb.
  - simpl. by rewrite lookup_insert_eq.
  - intros [=]. subst. apply Hhome, Hin.
  - eapply dd_ok_bio; [exact F2|]. eapply dd_ok_bio; [exact F1|]. apply D. by right.
  - right. simpl. apply (rep_sync _ _ src R); [apply W|simpl; by rewrite Hh|done].
  - intros s3 R3 F3. split; [|by etrans; [exact F1|etrans]].
    rewrite Nat.add_1_r, (take_S_r _ _ _ (install_ws_lookup l (c_view c) t b Hlb)). fold ws.
    rewrite a_wrote_app. eapply rep_copied; [done|exact Hdb|left].
    simpl in R3. rewrite replayf_notin in R3 by done. exact R3.
Qed.

Lemma install_trans_spec s c l :
  rep s c -> c_held c = ∅ -> k_log s = l -> log_wf l -> sub_pins c l -> log_dd s l ->
  wp install_trans (fun _ s' => rep s' (a_wrote (install_ws l (c_view c)) c) /\ bio_frame s s') s.
Proof.
  intros R Hh Hl W P D. unfold install_trans. wp_steps. rewrite Hl. eapply wp_mono.
  - apply (wp_forM_seq _ (fun t s' => rep s' (a_wrote (take t (install_ws l (c_view c))) c) /\ bio_frame s s')).
    + split; [|done]. rewrite take_0. eapply rep_ext; [exact R|done..|]. simpl. by rewrite app_nil_r.
    + intros t s' Ht [R' F]. eapply wp_mono; [apply install_trans_iter_spec; try done|].
      * by rewrite F.
      * intros b Hb. eapply dd_ok_bio; [exact F|]. by apply D.
      * lia.
      * intros _ s'' [R'' F'']. split; [done|by etrans].
  - intros _ s' [R' F]. split; [|done]. rewrite take_ge in R'; [done|].
    unfold install_ws. rewrite length_imap, length_logged by done. lia.
Qed.

(** *** Writing the header *)
Lemma write_head_spec s c l :
  rep s c -> c_held c = ∅ -> k_log s = l -> log_wf l -> sub_pins c l -> log_dd s l ->
  wp write_head (fun _ s' => rep s' (a_wrote (head_w l (lh_n l) (logged l)
                   (c_view c (log_dev l, log_start l))) c) /\ bio_frame s s') s.
Proof.
  intros R Hh Hl W P D. destruct (log_start_u32 l W) as [Eu Hin].
  unfold write_head. wp_steps. rewrite Hl, Eu.
  eapply wp_bread; [exact R|apply W|apply D; by left|by rewrite Hh|right; by eapply sub_pins_free_buf|].
  intros buf s1 Hb R1 F1. wp_steps.
  assert (c_held (a_bread buf (log_dev l, log_start l) c) !! buf = Some (log_dev l, log_start l)) as Hbuf
    by (simpl; by rewrite lookup_insert_eq).
  eapply wp_bdata; [exact R1|exact Hbuf|]. pose proof (lw_n _ W) as Hn. pose proof (lw_region _ W) as Hr.
  destruct (Z.ltb_spec LOGSIZE (lh_n l)) as [?|_]; [lia|]. wp_steps.
  eapply wp_bput; [exact R1|exact Hbuf| |].
  { rewrite length_head_put; [apply (rep_length _ _ _ R1), W|].
    rewrite length_logged, (rep_length _ _ _ R1) by (done || apply W). klia. }
  intros s2 R2 F2. wp_steps. eapply wp_bwrite; [exact R2|exact Hbuf| |].
  { eapply dd_ok_bio; [exact F2|]. eapply dd_ok_bio; [exact F1|]. apply D. by left. }
  intros s3 R3 F3. eapply wp_brelse; [exact R3|exact Hbuf| |].
  { right. simpl. by rewrite dread_insert, !fn_lookup_insert. }
  intros s4 R4 F4. split; [|by do 3 (etrans; [eassumption|])].
  eapply rep_ext; [exact R4|done..| | |]; simpl; rewrite ?fn_lookup_insert; [|done..].
  by rewrite delete_insert_id.
Qed.

(** *** Commit *)
Global Instance log_frame_preorder : PreOrder log_frame.
Proof.
  split; unfold log_frame; [by intros []|].
  intros x y z H1 H2. rewrite H2. simpl. rewrite H1. by destruct x.
Qed.

Lemma bio_log_frame s s' : bio_frame s s' -> log_frame s s' /\ k_log s' = k_log s.
Proof. intros F. split; [unfold log_frame|]; rewrite F; by destruct s. Qed.

Lemma dd_ok_log s s' dev b : log_frame s s' -> dd_ok s dev b -> dd_ok s' dev b.
Proof. intros H. rewrite H. by apply dd_ok_frame. Qed.

Lemma updlog_frame s l : log_frame s (set_k_log l s).
Proof. unfold log_frame. by destruct s. Qed.

Lemma rep_updlog s l c : rep s c -> rep (set_k_log l s) c.
Proof.
  intros R. pose proof (rep_wf _ _ R) as W. split; try apply R. split; try apply W.
  intros i x Hx. destruct (wf_buf _ W i x Hx). by split.
Qed.

(** The log after the transaction has been erased. *)
Lemma log_wf_clear l : log_wf l -> log_wf (set_lh_n 0 l).
Proof.
  intros W. pose proof (lw_region _ W). split; try apply W; simpl.
  - lia.
  - constructor.
  - constructor.
Qed.

Lemma log_dd_clear s s' l : log_frame s s' -> log_dd s l -> log_dd s' (set_lh_n 0 l).
Proof.
  intros F D b [Hb|Hb]; [|by apply elem_of_nil in Hb]. eapply dd_ok_log; [done|]. apply D. by left.
Qed.

Lemma log_dd_bio s s' l : bio_frame s s' -> log_dd s l -> log_dd s' l.
Proof. intros F D b Hb. eapply dd_ok_bio; [done|]. by apply D. Qed.

Lemma NoDup_log_keys l V : NoDup (log_ws l V).*1.
Proof.
  apply NoDup_alt. intros i j x Hi Hj. rewrite list_lookup_fmap in Hi, Hj.
  destruct (log_ws l V !! i) as [[? ?]|] eqn:Ei; [|done].
  destruct (log_ws l V !! j) as [[? ?]|] eqn:Ej; [|done]. simpl in *.
  apply list_lookup_imap_Some in Ei as (? & _ & Ei). apply list_lookup_imap_Some in Ej as (? & _ & Ej).
  simplify_eq. lia.
Qed.

Lemma log_ws_read l V (f : blk -> list Z) j b :
  logged l !! j = Some b ->
  replayf f (log_ws l V) (log_dev l, log_start l + Z.of_nat j + 1) = V (log_dev l, b).
Proof.
  intros Hj. apply replayf_in; [apply NoDup_log_keys|].
  eapply list_elem_of_lookup_2. by apply log_ws_lookup.
Qed.

(** Installing what was just logged writes the transaction's blocks home. *)
Lemma install_ws_home l V f hd n bs :
  log_wf l ->
  install_ws l (replayf (replayf f (log_ws l V)) (head_w l n bs hd)) = home_ws l V.
Proof.
  intros W. unfold install_ws, home_ws. apply list_eq. intros j.
  rewrite list_lookup_imap, list_lookup_fmap. destruct (logged l !! j) as [b|] eqn:E; [|done]. simpl.
  rewrite fn_lookup_insert_ne by (intros [=]; lia). by rewrite (log_ws_read l V f j b).
Qed.

Lemma home_ws_keys l V k : k ∈ (home_ws l V).*1 <-> k.1 = log_dev l /\ k.2 ∈ logged l.
Proof.
  unfold home_ws. rewrite <- list_fmap_compose, list_elem_of_fmap. destruct k as [dev b]. simpl. naive_solver.
Qed.

Lemma commit_spec s c l :
  rep s c -> c_held c = ∅ -> k_log s = l -> log_wf l -> log_pins c l -> log_dd s l -> 0 < lh_n l ->
  wp commit (fun _ s' =>
    rep s' (a_wrote (commit_writes l (c_view c) (c_view c (log_dev l, log_start l))) c) /\
    log_frame s s' /\ k_log s' = set_lh_n 0 l) s.
Proof.
  intros R Hh Hl W P D Hn. unfold commit. wp_steps. rewrite Hl.
  destruct (Z.ltb_spec 0 (lh_n l)) as [_|?]; [|lia]. wp_steps.
  set (V := c_view c). set (k0 := (log_dev l, log_start l)).
  wp_call (write_log_spec s c l R Hh Hl W P D). intros _ s1 [R1 F1]. fold V in R1.
  destruct (bio_log_frame _ _ F1) as [G1 L1].
  wp_call (write_head_spec s1 _ l R1 Hh ltac:(congruence) W).
  { intros k H0 [Hd _]%wrote_dirty. by apply P. }
  { by eapply log_dd_bio. }
  intros _ s2 [R2 F2]. destruct (bio_log_frame _ _ F2) as [G2 L2]. rewrite <- a_wrote_app in R2.
  assert (c_view (a_wrote (log_ws l V) c) k0 = V k0) as Ek0.
  { simpl. apply replayf_notin. intros (_ & _ & ?)%log_ws_keys; done. }
  fold k0 in R2. rewrite Ek0 in R2.
  wp_call (install_trans_spec s2 _ l R2 Hh ltac:(congruence) W).
  { intros k H0 [Hd _]%wrote_dirty. by apply P. }
  { eapply log_dd_bio; [exact F2|]. by eapply log_dd_bio. }
  intros _ s3 [R3 F3]. destruct (bio_log_frame _ _ F3) as [G3 L3]. rewrite <- a_wrote_app in R3.
  cbn [c_view a_wrote] in R3. rewrite replayf_app, install_ws_home in R3 by done.
  unfold updlog. wp_steps. set (l0 := set_lh_n 0 l). replace (set_lh_n 0 (k_log s3)) with l0 by (unfold l0; congruence).
  wp_call (write_head_spec (set_k_log l0 s3) _ l0 (rep_updlog _ l0 _ R3) Hh eq_refl (log_wf_clear l W)).
  { intros k H0 [Hd Hnk]%wrote_dirty. destruct (proj1 (P k H0) Hd) as [Hk1 Hk2]. destruct Hnk.
    rewrite fmap_app, elem_of_app. right. by apply home_ws_keys. }
  { eapply log_dd_clear; [|exact D]. etrans; [|apply updlog_frame]. by do 2 (etrans; [eassumption|]). }
  intros _ s4 [R4 F4]. destruct (bio_log_frame _ _ F4) as [G4 L4]. rewrite <- a_wrote_app in R4.
  split_and!; [| |done].
  - unfold commit_writes. rewrite !app_assoc. cbn [c_view a_wrote] in R4.
    rewrite replayf_app, (replayf_notin _ (home_ws l V)) in R4.
    2:{ intros [_ Hin]%home_ws_keys. destruct (logged_home l _ W Hin) as [_ Hnl]. by apply Hnl, log_start_u32. }
    rewrite replayf_app in R4. cbn [replayf head_w foldl fst snd] in R4.
    by rewrite fn_lookup_insert in R4.
  - etrans; [exact G1|]. etrans; [exact G2|]. etrans; [exact G3|]. etrans; [apply updlog_frame|exact G4].
Qed.

(** *** Recovery *)

(** The log after [read_head] has loaded the header block [d]. *)
Definition head_load (d : list Z) (l : log) : log :=
  set_lh_block (hd_blocks d ++ drop (Z.to_nat (hd_n d)) (lh_block l)) (set_lh_n (hd_n d) l).

Definition recover_writes (l : log) (V : blk -> list Z) : list (blk * list Z) :=
  install_ws l V ++ head_w l 0 [] (V (log_dev l, log_start l)).

Definition clean (c : cache) : Prop := forall k, k.1 <> 0 -> c_dirty c k = false.

Lemma clean_sub_pins c l : clean c -> sub_pins c l.
Proof. intros Hc k H0 Hd. by rewrite Hc in Hd. Qed.

Lemma clean_wrote c ws : clean c -> clean (a_wrote ws c).
Proof. intros Hc k H0. apply not_true_iff_false. intros [Hd _]%wrote_dirty. by rewrite Hc in Hd. Qed.

(** Reading a block and releasing it leaves the cache as it was. *)
Lemma rep_peek s c i k :
  rep s (a_brelse i (a_bread i k c)) -> c_held c !! i = None -> rep s c.
Proof. intros R Hi. eapply rep_ext; [exact R|done..| |done|done]. simpl. by rewrite delete_insert_id. Qed.

Lemma read_head_spec s c l :
  rep s c -> c_held c = ∅ -> clean c ->
  l = head_load (c_view c (log_dev (k_log s), log_start (k_log s))) (k_log s) ->
  log_wf l -> log_dd s l ->
  wp read_head (fun _ s' => rep s' c /\ log_frame s s' /\ k_log s' = l) s.
Proof.
  intros R Hh Hc El W D. unfold read_head, updlog. wp_steps.
  assert (log_dev (k_log s) = log_dev l /\ log_start (k_log s) = log_start l) as [E1 E2] by (by rewrite El).
  rewrite E1, E2 in *. destruct (log_start_u32 l W) as [Eu Hin]. rewrite Eu.
  eapply wp_bread; [exact R|apply W|apply D; by left|by rewrite Hh| |].
  { right. eapply sub_pins_free_buf; [done|by apply clean_sub_pins|done]. }
  intros buf s1 Hb R1 F1. wp_steps. destruct (bio_log_frame _ _ F1) as [G1 L1].
  assert (c_held (a_bread buf (log_dev l, log_start l) c) !! buf = Some (log_dev l, log_start l)) as Hbuf
    by (simpl; by rewrite lookup_insert_eq).
  eapply wp_bdata; [exact R1|exact Hbuf|]. cbn [a_bread c_view].
  assert (hd_n (c_view c (log_dev l, log_start l)) = lh_n l) as En
    by (symmetry; exact (f_equal lh_n El)).
  pose proof (lw_n _ W). pose proof (lw_region _ W). rewrite En.
  destruct (Z.ltb_spec LOGSIZE (lh_n l)) as [?|_]; [lia|]. wp_steps. rewrite L1, <- En.
  change (set_lh_block _ _) with (head_load (c_view c (log_dev l, log_start l)) (k_log s)). rewrite <- El.
  eapply wp_brelse; [by apply rep_updlog|exact Hbuf| |].
  { right. apply (rep_sync _ _ _ R); [apply W|by rewrite Hh|apply Hc, W]. }
  intros s2 R2 F2. destruct (bio_log_frame _ _ F2) as [G2 L2]. split_and!; [|..|done].
  - by eapply rep_peek.
  - etrans; [exact G1|]. etrans; [apply updlog_frame|exact G2].
Qed.

Lemma recover_spec s c l :
  rep s c -> c_held c = ∅ -> clean c ->
  l = head_load (c_view c (log_dev (k_log s), log_start (k_log s))) (k_log s) ->
  log_wf l -> log_dd s l ->
  wp recover_from_log (fun _ s' => rep s' (a_wrote (recover_writes l (c_view c)) c) /\
    log_frame s s' /\ k_log s' = set_lh_n 0 l) s.
Proof.
  intros R Hh Hc El W D. unfold recover_from_log, updlog. wp_steps.
  wp_call (read_head_spec s c l R Hh Hc El W D). intros _ s1 (R1 & G1 & L1).
  wp_call (install_trans_spec s1 c l R1 Hh L1 W (clean_sub_pins c l Hc)).
  { intros b Hb. eapply dd_ok_log; [done|]. by apply D. }
  intros _ s2 [R2 F2]. destruct (bio_log_frame _ _ F2) as [G2 L2]. wp_steps.
  set (l0 := set_lh_n 0 l). replace (set_lh_n 0 (k_log s2)) with l0 by (unfold l0; congruence).
  wp_call (write_head_spec (set_k_log l0 s2) _ l0 (rep_updlog _ l0 _ R2) Hh eq_refl (log_wf_clear l W)).
  { by apply clean_sub_pins, clean_wrote. }
  { eapply log_dd_clear; [|exact D]. etrans; [exact G1|]. etrans; [exact G2|apply updlog_frame]. }
  intros _ s3 [R3 F3]. destruct (bio_log_frame _ _ F3) as [G3 L3]. rewrite <- a_wrote_app in R3.
  split_and!; [| |done].
  - unfold recover_writes. cbn [c_view a_wrote] in R3. rewrite replayf_notin in R3; [exact R3|].
    intros (_ & _ & Hn)%install_ws_keys; [|done]. by apply Hn, log_start_u32.
  - etrans; [exact G1|]. etrans; [exact G2|]. etrans; [apply updlog_frame|exact G3].
Qed.

Lemma readsb_spec s c dev :
  rep s c -> dev <> 0 -> dd_ok s dev 1 -> (forall i, c_held c !! i <> Some (dev, 1)) ->
  c_dirty c (dev, 1) = false -> free_buf c ->
  wp (readsb dev) (fun sb s' => rep s' c /\ bio_frame s s' /\ sb = dec_superblock (c_view c (dev, 1))) s.
Proof.
  intros R H0 Hok Hn Hd Hf. unfold readsb. wp_steps.
  eapply wp_bread; [done..|by right|]. intros i s1 Hi R1 F1. wp_steps.
  assert (c_held (a_bread i (dev, 1) c) !! i = Some (dev, 1)) as Hbuf by (simpl; by rewrite lookup_insert_eq).
  eapply wp_bdata; [done..|]. wp_steps. eapply wp_brelse; [done..| |].
  { right. by apply (rep_sync _ _ _ R). }
  intros s2 R2 F2. wp_steps. split_and!; [by eapply rep_peek|by etrans|done].
Qed.

(** The log as [initlog] sets it up from the superblock, before recovery. *)
Definition log_geom (dev : Z) (sb : superblock) (l : log) : log :=
  set_log_dev dev (set_log_size (s32 (sb_nlog sb)) (set_log_start (s32 (sb_logstart sb)) l)).

Lemma initlog_spec s c dev l0 l :
  rep s c -> c_held c = ∅ -> clean c -> dd_ok s dev 1 ->
  l0 = log_geom dev (dec_superblock (c_view c (dev, 1))) (k_log s) ->
  l = head_load (c_view c (dev, log_start l0)) l0 -> log_wf l -> log_dd s l ->
  wp (initlog dev) (fun _ s' => rep s' (a_wrote (recover_writes l (c_view c)) c) /\
    log_frame s s' /\ k_log s' = set_lh_n 0 l) s.
Proof.
  intros R Hh Hc H1 E0 El W D. unfold initlog, updlog.
  destruct (Z.leb_spec BSIZE sizeof_logheader) as [Hbad|_]; [klia|].
  assert (dev <> 0) as H0 by (replace dev with (log_dev l) by (by rewrite El, E0); apply W).
  wp_call (readsb_spec s c dev R H0 H1).
  { by rewrite Hh. }
  { by apply Hc. }
  { eapply sub_pins_free_buf; [done|by apply clean_sub_pins|done]. }
  intros sb s1 (R1 & F1 & Esb). destruct (bio_log_frame _ _ F1) as [G1 L1]. wp_steps.
  rewrite L1. change (set_log_dev _ _) with (log_geom dev sb (k_log s)). rewrite Esb, <- E0.
  eapply wp_mono; [apply (recover_spec _ c l); try done|].
  - by apply rep_updlog.
  - simpl. by replace (log_dev l0) with dev by (by rewrite E0).
  - intros b Hb. eapply dd_ok_log; [etrans; [exact G1|apply updlog_frame]|]. by apply D.
  - intros _ s2 (R2 & G2 & L2). split_and!; [done| |done].
    etrans; [exact G1|]. etrans; [apply updlog_frame|exact G2].
Qed.

(** *** Recording a block in the transaction *)
Lemma absorb_in l b :
  Forall (fun x => 0 <= x < 2 ^ 31) l -> b ∈ l -> l !! absorb l b = Some b.
Proof.
  intros Hl. induction Hl as [|x l Hx Hl IH]; intros Hb; [by apply elem_of_nil in Hb|].
  simpl. rewrite u32_small by lia. destruct (Z.eqb_spec x b) as [->|Hne]; [done|].
  simpl. apply IH. by apply elem_of_cons in Hb as [->|?].
Qed.

Lemma absorb_notin l b :
  Forall (fun x => 0 <= x < 2 ^ 31) l -> b ∉ l -> absorb l b = length l.
Proof.
  intros Hl. induction Hl as [|x l Hx Hl IH]; intros Hb; [done|].
  apply not_elem_of_cons in Hb as [Hne Hb]. simpl. rewrite u32_small by lia.
  destruct (Z.eqb_spec x b) as [->|_]; [done|]. by rewrite IH.
Qed.

Lemma logged_range l : log_wf l -> Forall (fun x => 0 <= x < 2 ^ 31) (logged l).
Proof. intros W. eapply Forall_impl; [apply (lw_home _ W)|]. apply home_range. Qed.

Lemma log_record_absorbed l b : log_wf l -> home l b -> b ∈ logged l -> log_record b l = l.
Proof.
  intros W Hb%home_range Hin. pose proof (absorb_in _ _ (logged_range l W) Hin) as Ha.
  pose proof (lookup_lt_Some _ _ _ Ha) as Hlt. rewrite length_logged in Hlt by done.
  unfold logged in Ha. rewrite lookup_take_lt in Ha by done. fold (logged l) in Ha.
  unfold log_record. destruct (Z.eqb_spec (Z.of_nat (absorb (logged l) b)) (lh_n l)); [lia|].
  rewrite s32_small by lia. rewrite list_insert_id by done. by destruct l.
Qed.

Lemma log_record_new l b :
  log_wf l -> home l b -> b ∉ logged l -> lh_n l < log_size l - 1 ->
  log_wf (log_record b l) /\ logged (log_record b l) = logged l ++ [b] /\ lh_n (log_record b l) = lh_n l + 1.
Proof.
  intros W Hh Hnin Hlt. pose proof (absorb_notin _ _ (logged_range l W) Hnin) as Ha.
  rewrite length_logged in Ha by done. pose proof (lw_n _ W) as Hn. pose proof (lw_region _ W) as Hr.
  pose proof (lw_len _ W) as Hlen.
  assert (log_record b l = set_lh_n (lh_n l + 1) (set_lh_block (<[Z.to_nat (lh_n l) := b]> (lh_block l)) l)) as E.
  { unfold log_record. rewrite Ha, Z2Nat.id, Z.eqb_refl by lia. rewrite s32_small; [done|]. pose proof (home_range _ _ Hh). lia. }
  assert (logged (log_record b l) = logged l ++ [b]) as El.
  { rewrite E. unfold logged. simpl. replace (Z.to_nat (lh_n l + 1)) with (S (Z.to_nat (lh_n l))) by lia.
    rewrite (take_S_r _ _ b) by (rewrite list_lookup_insert_eq; [done|lia]). by rewrite take_insert_ge by lia. }
  split_and!; [|done|by rewrite E].
  split; rewrite ?El; try rewrite E; try apply W; simpl.
  - lia.
  - by rewrite length_insert.
  - apply NoDup_app. split_and!; [apply W| |apply NoDup_singleton].
    intros x Hx Hx'. apply list_elem_of_singleton in Hx' as ->. done.
  - apply Forall_app. split; [apply W|]. constructor; [done|constructor].
Qed.

(** The transaction after a block has been recorded: the block is in it, and
    log absorption keeps it there once. *)
Lemma log_write_spec s c l i b :
  rep s c -> k_log s = l -> log_wf l -> log_pins c l ->
  c_held c !! i = Some (log_dev l, b) -> home l b -> 1 <= log_outstanding l -> lh_n l < log_size l - 1 ->
  wp (log_write i) (fun _ s' => rep s' (a_bdirty (log_dev l, b) c) /\ log_frame s s' /\
    k_log s' = log_record b l /\ log_wf (log_record b l) /\
    log_pins (a_bdirty (log_dev l, b) c) (log_record b l) /\
    logged (log_record b l) = if decide (b ∈ logged l) then logged l else logged l ++ [b]) s.
Proof.
  intros R Hl W P Hi Hh Ho Hn. unfold log_write, updlog. wp_steps. rewrite Hl.
  pose proof (lw_region _ W) as Hr.
  destruct (Z.leb_spec LOGSIZE (lh_n l)); [lia|]. destruct (Z.leb_spec (log_size l - 1) (lh_n l)); [lia|].
  destruct (Z.ltb_spec (log_outstanding l) 1); [lia|]. cbn [orb]. wp_steps.
  destruct (rep_is_held _ _ _ _ _ R Hi) as [(x & Hx & _ & _ & Ex & _) _].
  unfold wp at 1. rewrite (getb_Some _ _ _ Hx). wp_steps. rewrite Ex, Hl.
  eapply wp_bdirty; [by apply rep_updlog|exact Hi|]. intros s1 R1 F1.
  destruct (bio_log_frame _ _ F1) as [G1 L1].
  assert (log_wf (log_record b l) /\
    logged (log_record b l) = if decide (b ∈ logged l) then logged l else logged l ++ [b]) as [W' El].
  { destruct (decide (b ∈ logged l)) as [Hin|Hnin]; [by rewrite log_record_absorbed|].
    by destruct (log_record_new l b) as (? & ? & _). }
  split_and!; try done.
  intros k Hk0. simpl.
  assert (log_dev (log_record b l) = log_dev l) as -> by (unfold log_record; by destruct (_ =? _)).
  rewrite El. destruct (decide (k = (log_dev l, b))) as [->|Hne].
  - rewrite fn_lookup_insert. simpl. split; [|done]. intros _. split; [done|].
    destruct (decide _); [done|]. apply elem_of_app. right. by apply list_elem_of_singleton.
  - rewrite fn_lookup_insert_ne by done. etrans; [exact (P k Hk0)|].
    destruct k as [dev' b']. simpl in *. destruct (decide _); [done|].
    rewrite elem_of_app, list_elem_of_singleton. naive_solver.
Qed.

(** *** The system-call brackets *)
Lemma begin_op_spec s :
  log_committing (k_log s) = false ->
  lh_n (k_log s) + (log_outstanding (k_log s) + 1) * MAXOPBLOCKS <= LOGSIZE ->
  begin_op s = Ret tt (set_k_log (set_log_outstanding (log_outstanding (k_log s) + 1) (k_log s)) s).
Proof.
  intros Hc Hn. unfold begin_op, updlog. run_steps. rewrite Hc.
  destruct (Z.ltb_spec LOGSIZE (lh_n (k_log s) + (log_outstanding (k_log s) + 1) * MAXOPBLOCKS)); [lia|done].
Qed.

Lemma log_wf_flags l o cm :
  log_wf l -> log_wf (set_log_committing cm (set_log_outstanding o l)).
Proof. by intros []. Qed.

Definition end_log (l : log) : log :=
  set_log_committing false (set_lh_n 0 (set_log_outstanding (log_outstanding l - 1) l)).

Lemma end_op_spec s c l :
  rep s c -> c_held c = ∅ -> k_log s = l -> log_wf l -> log_pins c l -> log_dd s l ->
  log_outstanding l = 1 -> log_committing l = false ->
  wp end_op (fun _ s' =>
    rep s' (if lh_n l =? 0 then c
            else a_wrote (commit_writes l (c_view c) (c_view c (log_dev l, log_start l))) c) /\
    log_frame s s' /\ k_log s' = end_log l) s.
Proof.
  intros R Hh Hl W P D Ho Hc. unfold end_op, updlog. wp_steps. rewrite Hl. simpl log_committing. rewrite Hc.
  simpl log_outstanding. rewrite Ho. change (1 - 1 =? 0) with true. cbv iota. wp_steps.
  set (l1 := set_log_committing true (set_log_outstanding (1 - 1) l)).
  set (s1 := set_k_log _ (set_k_log _ s)).
  assert (rep s1 c) as R1 by (do 2 apply rep_updlog; done).
  assert (log_wf l1) as W1 by (by apply log_wf_flags).
  assert (log_frame s s1) as G1 by (etrans; apply updlog_frame).
  assert (k_log s1 = l1) as L1 by done.
  assert (end_log l = set_log_committing false (set_lh_n 0 l1)) as ->
    by (unfold end_log, l1; by rewrite Ho).
  destruct (Z.eqb_spec (lh_n l) 0) as [E0|Hne].
  - unfold commit. wp_steps. rewrite L1. destruct (Z.ltb_spec 0 (lh_n l1)) as [Hlt|_]; [simpl in Hlt; lia|].
    wp_steps. split_and!; [by apply rep_updlog|done|]. simpl. rewrite <- E0. by destruct l.
  - wp_call (commit_spec s1 c l1 R1 Hh L1 W1 P).
    { intros b Hb. eapply dd_ok_log; [exact G1|]. by apply D. }
    { pose proof (lw_n _ W). simpl. lia. }
    intros _ s2 (R2 & G2 & L2). wp_steps. split_and!; [by apply rep_updlog| |simpl; by rewrite L2].
    etrans; [exact G1|]. etrans; [exact G2|apply updlog_frame].
Qed.

(** A read-modify-write of a block inside a transaction, as the file system
    does it: [bread], store, [log_write], [brelse]. *)
Definition bmodify (dev b : Z) (f : list Z -> list Z) : M kstate unit :=
  bp ← bread dev b;
  d ← bdata bp;
  bput bp (f d) ;;
  log_write bp ;;
  brelse bp.

Record txn (s : kstate) (c : cache) (l : log) : Prop := {
  tx_rep : rep s c;
  tx_log : k_log s = l;
  tx_wf : log_wf l;
  tx_pins : log_pins c l;
  tx_out : 1 <= log_outstanding l
}.

(** The abstract cache after the update, with the same buffers held. *)
Definition a_modify (k : blk) (d : list Z) (c : cache) : cache :=
  mk_cache (<[k := d]> (c_view c)) (<[k := true]> (c_dirty c)) (c_held c) (c_disk c) (c_writes c).

Lemma bmodify_spec s c l b f :
  txn s c l -> home l b -> dd_ok s (log_dev l) b -> (forall j, c_held c !! j <> Some (log_dev l, b)) ->
  lh_n l < log_size l - 1 -> (lh_n l + Z.of_nat (size (c_held c)) < NBUF) ->
  length (f (c_view c (log_dev l, b))) = Z.to_nat BSIZE ->
  wp (bmodify (log_dev l) b f) (fun _ s' =>
    txn s' (a_modify (log_dev l, b) (f (c_view c (log_dev l, b))) c) (log_record b l) /\
    log_frame s s') s.
Proof.
  intros [R Hl W P Ho] Hb Hok Hn Hlt Hfree Hlen. unfold bmodify. wp_step.
  eapply wp_bread; [exact R|apply W|done|done|right|].
  { exists ((fun b => (log_dev l, b)) <$> logged l). split.
    - intros [dev b'] H0 [Hd Hb']%P; [|done]. simpl in *. subst. apply list_elem_of_fmap. by exists b'.
    - rewrite length_fmap, length_logged by done. pose proof (lw_n _ W). lia. }
  intros i s1 Hi R1 F1. wp_steps. destruct (bio_log_frame _ _ F1) as [G1 L1].
  assert (c_held (a_bread i (log_dev l, b) c) !! i = Some (log_dev l, b)) as Hbuf
    by (simpl; by rewrite lookup_insert_eq).
  eapply wp_bdata; [exact R1|exact Hbuf|]. wp_steps.
  eapply wp_bput; [exact R1|exact Hbuf|done|]. intros s2 R2 F2. wp_steps.
  destruct (bio_log_frame _ _ F2) as [G2 L2].
  eapply wp_mono; [apply (log_write_spec s2 _ l i b R2); try done; congruence|].
  intros _ s3 (R3 & G3 & L3 & W3 & P3 & _).
  eapply wp_brelse; [exact R3|exact Hbuf| |].
  { left. simpl. by rewrite fn_lookup_insert. }
  intros s4 R4 F4. destruct (bio_log_frame _ _ F4) as [G4 L4]. split.
  - split; [|by rewrite L4|done|exact P3|].
    + eapply rep_ext; [exact R4|done..| |done|done]. simpl. by rewrite delete_insert_id.
    + unfold log_record. by destruct (_ =? _).
  - do 3 (etrans; [eassumption|]). done.
Qed.

(** *** Transactions *)
Definition add_block (bs : list Z) (b : Z) : list Z := if decide (b ∈ bs) then bs else bs ++ [b].

Lemma log_record_logged l b :
  log_wf l -> home l b -> lh_n l < log_size l - 1 ->
  log_wf (log_record b l) /\ logged (log_record b l) = add_block (logged l) b /\
  lh_n l <= lh_n (log_record b l) <= lh_n l + 1.
Proof.
  intros W Hb Hn. unfold add_block. destruct (decide _) as [Hin|Hnin].
  - rewrite log_record_absorbed by done. split_and!; [done|done|lia|lia].
  - destruct (log_record_new l b) as (? & ? & ->); try done. split_and!; [done|done|lia|lia].
Qed.

Lemma log_record_geom l b :
  log_dev (log_record b l) = log_dev l /\ log_start (log_record b l) = log_start l /\
  log_size (log_record b l) = log_size l.
Proof. unfold log_record. by destruct (_ =? _). Qed.

Lemma home_record l b b' : home (log_record b l) b' <-> home l b'.
Proof. destruct (log_record_geom l b) as (_ & E2 & E3). unfold home, in_log. by rewrite E2, E3. Qed.

(** C6: A system call updates a sequence of blocks through the log: the cache
    has every update, each block is recorded once however often it is
    written, and neither the disk nor the trace of disk writes changes before
    the commit. *)
Theorem txn_updates s c l (us : list (Z * (list Z -> list Z))) :
  txn s c l -> c_held c = ∅ -> lh_n l + Z.of_nat (length us) <= log_size l - 1 ->
  Forall (fun u => home l u.1 /\ dd_ok s (log_dev l) u.1) us ->
  (forall u d, u ∈ us -> length d = Z.to_nat BSIZE -> length (u.2 d) = Z.to_nat BSIZE) ->
  wp (forM us (fun u => bmodify (log_dev l) u.1 u.2)) (fun _ s' => exists c' l',
    txn s' c' l' /\ c_held c' = ∅ /\
    logged l' = foldl add_block (logged l) us.*1 /\
    c_view c' = foldl (fun V u => <[(log_dev l, u.1) := u.2 (V (log_dev l, u.1))]> V) (c_view c) us /\
    k_disk s' = k_disk s /\ k_writes s' = k_writes s) s.
Proof.
  revert s c l. induction us as [|[b f] us IH]; intros s c l T Hh Hn Hus Hf; cbn [forM].
  { wp_step. by exists c, l. }
  apply Forall_cons in Hus as [[Hb Hok] Hus]. simpl in Hb, Hok. cbn [length] in Hn.
  pose proof (tx_wf _ _ _ T) as W. pose proof (lw_n _ W) as Hn0. pose proof (lw_region _ W) as Hr.
  destruct (log_record_logged l b W Hb ltac:(lia)) as (W' & El & Hn').
  destruct (log_record_geom l b) as (G1 & G2 & G3).
  wp_call (bmodify_spec s c l b f T Hb Hok); cbn [fst snd].
  { by rewrite Hh. }
  { lia. }
  { rewrite Hh, map_size_empty. klia. }
  { apply (Hf (b, f)); [by apply elem_of_cons; left|]. apply (rep_length _ _ _ (tx_rep _ _ _ T)), W. }
  intros _ s1 [T1 F1]. rewrite <- G1.
  eapply wp_mono; [apply (IH s1 _ _ T1)|].
  - done.
  - rewrite G3. lia.
  - eapply Forall_impl; [exact Hus|]. intros u [Hu1 Hu2]. rewrite home_record, G1. split; [done|].
    by eapply dd_ok_log.
  - intros u d Hu. apply Hf. apply elem_of_cons. by right.
  - intros _ s2 (c2 & l2 & T2 & Hh2 & El2 & Ev2 & Ed & Ew). exists c2, l2. split_and!; try done.
    + by rewrite El2, El.
    + rewrite Ev2. by rewrite G1.
    + rewrite Ed, (rep_disk _ _ (tx_rep _ _ _ T1)). by rewrite (rep_disk _ _ (tx_rep _ _ _ T)).
    + rewrite Ew, (rep_writes _ _ (tx_rep _ _ _ T1)). by rewrite (rep_writes _ _ (tx_rep _ _ _ T)).
Qed.
End log.
