(* ===== verification/LogCrash.v ===== *)
(** * Crash safety of the log

  The logical contents of a disk are what recovery makes of it:
  [recovered l dk] replays the transaction a committed header on [dk]
  describes.  The theorems show that booting ([binit] and [initlog])
  reaches these contents from every disk with a well-formed log, that a
  crash during recovery does not change them, and that across every prefix
  of the writes of a commit they change once, from the old contents of all
  the transaction's blocks to the new ones. *)
From S2P Require Import Prelude Params Layout KState Driver Dll Bio Cache Log.

Section crash.
Context {DD : DiskDriver}.

(** Blocks outside the log of [l]. *)
Definition off_log (l : log) (k : blk) : Prop := k.1 <> 0 /\ ~ (k.1 = log_dev l /\ in_log l k.2).

(** The in-memory log that [initlog] builds from the header on [dk]. *)
Definition disk_log (l : log) (dk : gmap blk (list Z)) : log :=
  let hd := dread dk (log_dev l, log_start l) in set_lh_block (hd_blocks hd) (set_lh_n (hd_n hd) l).

Definition recovered (l : log) (dk : gmap blk (list Z)) : blk -> list Z :=
  replayf (dread dk) (install_ws (disk_log l dk) (dread dk)).

(** A disk with the log where [l] says, and a header that is empty or
    committed. *)
Record log_disk (l : log) (dk : gmap blk (list Z)) : Prop := {
  ld_len : forall k, length (dread dk k) = Z.to_nat BSIZE;
  ld_start : s32 (sb_logstart (dec_superblock (dread dk (log_dev l, 1)))) = log_start l;
  ld_size : s32 (sb_nlog (dec_superblock (dread dk (log_dev l, 1)))) = log_size l;
  ld_dev : log_dev l <> 0;
  ld_region : 2 <= log_start l /\ 1 <= log_size l <= LOGSIZE /\ log_start l + log_size l <= 2 ^ 31;
  ld_n : 0 <= hd_n (dread dk (log_dev l, log_start l)) <= log_size l - 1;
  ld_nodup : NoDup (hd_blocks (dread dk (log_dev l, log_start l)));
  ld_home : Forall (fun b => home l b /\ b <> 1) (hd_blocks (dread dk (log_dev l, log_start l)))
}.

Lemma length_hd_blocks d : length (hd_blocks d) = Z.to_nat (hd_n d).
Proof. unfold hd_blocks. by rewrite length_fmap, length_seq. Qed.

Lemma logged_disk_log l dk :
  logged (disk_log l dk) = hd_blocks (dread dk (log_dev l, log_start l)).
Proof. unfold logged, disk_log. simpl. rewrite take_ge; [done|]. by rewrite length_hd_blocks. Qed.

Lemma in_log_disk_log l dk b : in_log (disk_log l dk) b <-> in_log l b.
Proof. done. Qed.

(** The same log area. *)
Definition same_log (l l' : log) : Prop :=
  log_dev l' = log_dev l /\ log_start l' = log_start l /\ log_size l' = log_size l.

Lemma log_disk_same l l' dk : same_log l l' -> log_disk l dk -> log_disk l' dk.
Proof.
  intros (E1 & E2 & E3) L. split; rewrite ?E1, ?E2, ?E3; try apply L.
  eapply Forall_impl; [apply L|]. intros b [[Hb Hn] H1]. split; [|done]. split; [done|].
  unfold in_log. by rewrite E2, E3.
Qed.

(** *** Reading through the installation of a transaction *)
Lemma install_ws_key l V k : k ∈ (install_ws l V).*1 <-> k.1 = log_dev l /\ k.2 ∈ logged l.
Proof.
  unfold install_ws. rewrite list_elem_of_fmap. setoid_rewrite elem_of_lookup_imap.
  destruct k as [dev b]. split.
  - intros ([k v] & E1 & j & b' & E2 & Hj). simplify_eq/=. split; [done|by eapply list_elem_of_lookup_2].
  - simpl. intros [-> [j Hj]%list_elem_of_lookup]. eexists (_, _). split; [|exists j, b; done]. done.
Qed.

Lemma install_ws_read l V f j b :
  NoDup (logged l) -> logged l !! j = Some b ->
  replayf f (install_ws l V) (log_dev l, b) = V (log_dev l, log_start l + Z.of_nat j + 1).
Proof.
  intros Hnd Hj. apply replayf_in.
  - apply NoDup_alt. intros i i' x Hi Hi'. rewrite list_lookup_fmap in Hi, Hi'.
    destruct (install_ws l V !! i) as [[? ?]|] eqn:Ei; [|done].
    destruct (install_ws l V !! i') as [[? ?]|] eqn:Ej; [|done]. simpl in *.
    apply list_lookup_imap_Some in Ei as (? & Ei & E1). apply list_lookup_imap_Some in Ej as (? & Ej & E2).
    simplify_eq. by eapply NoDup_lookup.
  - eapply list_elem_of_lookup_2. by apply install_ws_lookup.
Qed.

Lemma recovered_logged l dk j b :
  NoDup (hd_blocks (dread dk (log_dev l, log_start l))) ->
  hd_blocks (dread dk (log_dev l, log_start l)) !! j = Some b ->
  recovered l dk (log_dev l, b) = dread dk (log_dev l, log_start l + Z.of_nat j + 1).
Proof.
  intros Hnd Hj. unfold recovered. apply (install_ws_read (disk_log l dk)); by rewrite logged_disk_log.
Qed.

Lemma recovered_other l dk k :
  ~ (k.1 = log_dev l /\ k.2 ∈ hd_blocks (dread dk (log_dev l, log_start l))) ->
  recovered l dk k = dread dk k.
Proof.
  intros Hn. unfold recovered. apply replayf_notin. rewrite install_ws_key, logged_disk_log. done.
Qed.

(** Two disks with the same header, log and other blocks recover alike. *)
Lemma recovered_ext l dk dk' k :
  log_disk l dk ->
  dread dk' (log_dev l, log_start l) = dread dk (log_dev l, log_start l) ->
  (forall b, in_log l b -> dread dk' (log_dev l, b) = dread dk (log_dev l, b)) ->
  (~ (k.1 = log_dev l /\ k.2 ∈ hd_blocks (dread dk (log_dev l, log_start l))) -> dread dk' k = dread dk k) ->
  recovered l dk' k = recovered l dk k.
Proof.
  intros L Eh El Eo. pose proof (ld_n _ _ L) as Hn. pose proof (ld_nodup _ _ L) as Hnd.
  destruct k as [dev b]. destruct (decide (dev = log_dev l /\ b ∈ hd_blocks (dread dk (log_dev l, log_start l)))) as [[-> Hb]|Hk].
  - apply list_elem_of_lookup in Hb as [j Hj]. rewrite (recovered_logged l dk j b) by done.
    rewrite (recovered_logged l dk' j b) by (by rewrite Eh). apply El.
    apply lookup_lt_Some in Hj. rewrite length_hd_blocks in Hj. unfold in_log. lia.
  - rewrite !recovered_other; [by apply Eo|done|by rewrite Eh].
Qed.

(** ** Booting *)

(** The kernel state at boot: memory is zero, the disk is [dk]. *)
Record booting (s : kstate) (dk : gmap blk (list Z)) : Prop := {
  bt_cache : k_bcache s = replicate (S bhead) (zero_buf (replicate (Z.to_nat BSIZE) 0));
  bt_disk : k_disk s = dk;
  bt_log : length (lh_block (k_log s)) = Z.to_nat LOGSIZE
}.

Definition boot_cache (s : kstate) : cache :=
  mk_cache (dread (k_disk s)) (fun _ => false) ∅ (k_disk s) (k_writes s).

Definition boot_fs (dev : Z) : M kstate unit := binit ;; initlog dev.

Lemma binit_rep s dk :
  booting s dk -> (forall k, length (dread dk k) = Z.to_nat BSIZE) ->
  wp binit (fun _ s' => rep s' (boot_cache s) /\ bio_frame s s') s.
Proof.
  intros [Hc Hd _] Hlen. eapply wp_mono; [apply (binit_spec _ s Hc)|].
  - by rewrite length_replicate.
  - intros dev b. rewrite Hd. apply (Hlen (dev, b)).
  - intros _ s' (W & F & _ & Hh & Hv & Hdty). destruct (frame_disk _ _ F) as [Ed Ew].
    split; [|by apply bio_frame_cache]. split; try done.
    intros j dev b d. split; [by intros ?%Hh|by intros [? _]].
Qed.

(** What [initlog] makes of a well-formed disk. *)
Lemma boot_log_wf l dk l1 :
  log_disk l dk -> length (lh_block l1) = Z.to_nat LOGSIZE ->
  let sb := dec_superblock (dread dk (log_dev l, 1)) in
  let l2 := head_load (dread dk (log_dev l, log_start l)) (log_geom (log_dev l) sb l1) in
  log_wf l2 /\ log_dev l2 = log_dev l /\ log_start l2 = log_start l /\ log_size l2 = log_size l /\
  logged l2 = hd_blocks (dread dk (log_dev l, log_start l)).
Proof.
  intros L Hlen sb l2. pose proof (ld_n _ _ L) as Hn. pose proof (ld_region _ _ L) as Hr.
  assert (log_start l2 = log_start l) as Es by apply L.
  assert (log_size l2 = log_size l) as Ez by apply L.
  assert (logged l2 = hd_blocks (dread dk (log_dev l, log_start l))) as El.
  { unfold logged, l2, head_load. simpl. by rewrite take_app_length' by by rewrite length_hd_blocks. }
  split_and!; try done. split.
  - apply L.
  - rewrite Es, Ez. lia.
  - rewrite Ez. apply L.
  - simpl. rewrite length_app, length_hd_blocks, length_drop, Hlen. lia.
  - rewrite El. apply L.
  - rewrite El. eapply Forall_impl; [apply (ld_home _ _ L)|]. intros b [[? Hb] _]. split; [done|].
    unfold in_log. by rewrite Es, Ez.
Qed.

(** The writes of recovery from [dk]. *)
Definition recovery_writes (l : log) (dk : gmap blk (list Z)) : list (blk * list Z) :=
  recover_writes (disk_log l dk) (dread dk).

Lemma recover_writes_disk l dk l2 :
  log_dev l2 = log_dev l -> log_start l2 = log_start l ->
  logged l2 = hd_blocks (dread dk (log_dev l, log_start l)) ->
  recover_writes l2 (dread dk) = recovery_writes l dk.
Proof.
  intros E1 E2 E3. unfold recovery_writes, recover_writes, install_ws, head_w.
  rewrite logged_disk_log, E1, E2, E3. done.
Qed.

Lemma boot_fs_spec s dk l :
  booting s dk -> log_disk l dk ->
  (forall b, b = 1 \/ in_log l b \/ b ∈ hd_blocks (dread dk (log_dev l, log_start l)) -> dd_ok s (log_dev l) b) ->
  wp (boot_fs (log_dev l)) (fun _ s' =>
    rep s' (a_wrote (recovery_writes l dk) (boot_cache s)) /\ log_frame s s' /\
    log_wf (k_log s') /\ logged (k_log s') = [] /\ same_log l (k_log s') /\
    log_outstanding (k_log s') = log_outstanding (k_log s) /\
    log_committing (k_log s') = log_committing (k_log s)) s.
Proof.
  intros B L D. unfold boot_fs. wp_call (binit_rep s dk B (ld_len _ _ L)). intros _ s1 [R1 F1].
  destruct (bio_log_frame _ _ F1) as [G1 L1].
  destruct (boot_log_wf l dk (k_log s) L (bt_log _ _ B)) as (W & E1 & E2 & E3 & E4).
  set (l2 := head_load _ _) in *.
  eapply wp_mono; [eapply (initlog_spec s1 (boot_cache s) (log_dev l) _ l2 R1); try done|].
  - eapply dd_ok_log; [done|]. apply D. by left.
  - rewrite L1. cbn [boot_cache c_view]. rewrite (bt_disk _ _ B). set (l0 := log_geom _ _ _).
    change (log_start l0) with (s32 (sb_logstart (dec_superblock (dread dk (log_dev l, 1))))).
    by rewrite (ld_start _ _ L).
  - intros b Hb. eapply dd_ok_log; [done|]. rewrite E1. apply D. right.
    unfold in_log in *. by rewrite E2, E3, E4 in Hb.
  - intros _ s' (R & G & Ek). split_and!.
    + simpl in R. rewrite (bt_disk _ _ B) in R. by rewrite (recover_writes_disk l dk) in R.
    + etrans; done.
    + rewrite Ek. by apply log_wf_clear.
    + by rewrite Ek.
    + by rewrite Ek.
    + by rewrite Ek.
    + by rewrite Ek.
Qed.

(** ** Crashes during recovery *)
Lemma log_disk_ext l dk dk' :
  log_disk l dk -> (forall k, length (dread dk' k) = Z.to_nat BSIZE) ->
  dread dk' (log_dev l, 1) = dread dk (log_dev l, 1) ->
  dread dk' (log_dev l, log_start l) = dread dk (log_dev l, log_start l) -> log_disk l dk'.
Proof. intros L Hlen E1 E2. split; rewrite ?E1, ?E2; try apply L. done. Qed.

Lemma replay_length dk ws :
  (forall k, length (dread dk k) = Z.to_nat BSIZE) -> Forall (fun w => length w.2 = Z.to_nat BSIZE) ws ->
  forall k, length (dread (replay dk ws) k) = Z.to_nat BSIZE.
Proof.
  intros Hd Hws. revert dk Hd. induction Hws as [|[k' v] ws Hv Hws IH]; intros dk Hd k; [apply Hd|].
  simpl. apply IH. intros k''. rewrite dread_insert.
  destruct (decide (k'' = k')) as [->|]; [by rewrite fn_lookup_insert|by rewrite fn_lookup_insert_ne].
Qed.

Lemma dread_replay_notin dk ws k : k ∉ ws.*1 -> dread (replay dk ws) k = dread dk k.
Proof. intros Hk. rewrite dread_replay. by apply replayf_notin. Qed.

Lemma log_disk_empty l dk dk' hd :
  log_disk l dk -> (forall k, length (dread dk' k) = Z.to_nat BSIZE) ->
  dread dk' (log_dev l, 1) = dread dk (log_dev l, 1) ->
  dread dk' (log_dev l, log_start l) = head_put 0 [] hd ->
  log_disk l dk' /\ forall k, recovered l dk' k = dread dk' k.
Proof.
  intros L Hlen E1 E2. pose proof (ld_region _ _ L) as Hr.
  assert (hd_n (head_put 0 [] hd) = 0) as En by (apply hd_n_head_put; lia).
  assert (hd_blocks (head_put 0 [] hd) = []) as Eb by (unfold hd_blocks; by rewrite En).
  split.
  - split; rewrite ?E1, ?E2, ?En, ?Eb; try apply L; [done|lia|constructor|constructor].
  - intros k. apply recovered_other. rewrite E2, Eb. intros [_ ?%elem_of_nil]. done.
Qed.

Lemma recovery_lengths l dk :
  log_disk l dk -> Forall (fun w => length w.2 = Z.to_nat BSIZE) (recovery_writes l dk).
Proof.
  intros L. unfold recovery_writes, recover_writes. apply Forall_app. split.
  - apply Forall_forall. intros w (j & b & -> & _)%elem_of_lookup_imap. apply (ld_len _ _ L).
  - constructor; [|constructor]. cbn [snd]. rewrite length_head_put; [apply (ld_len _ _ L)|].
    rewrite (ld_len _ _ L). simpl length. klia.
Qed.

Lemma install_home l dk k :
  log_disk l dk -> k ∈ (install_ws (disk_log l dk) (dread dk)).*1 -> k.1 = log_dev l /\
  k.2 ∈ hd_blocks (dread dk (log_dev l, log_start l)) /\ ~ in_log l k.2 /\ k.2 <> 1.
Proof.
  intros L [Hk1 Hk2]%install_ws_key. rewrite logged_disk_log in Hk2.
  pose proof (proj1 (Forall_forall _ _) (ld_home _ _ L) _ Hk2) as [[_ ?] ?]. done.
Qed.

Lemma header_in_log l dk : log_disk l dk -> in_log l (log_start l).
Proof. intros L. pose proof (ld_region _ _ L). unfold in_log. lia. Qed.

Lemma recovery_done l dk :
  log_disk l dk ->
  log_disk l (replay dk (recovery_writes l dk)) /\
  forall k, off_log l k ->
    recovered l (replay dk (recovery_writes l dk)) k = recovered l dk k /\
    dread (replay dk (recovery_writes l dk)) k = recovered l dk k.
Proof.
  intros L. pose proof (header_in_log l dk L) as Hin. pose proof (ld_region _ _ L) as Hr.
  assert (forall k, k <> (log_dev l, log_start l) ->
    dread (replay dk (recovery_writes l dk)) k = recovered l dk k) as Hoff.
  { intros k Hk. unfold recovery_writes, recover_writes.
    rewrite replay_app, dread_replay_notin by (simpl; rewrite list_elem_of_singleton; done).
    apply dread_replay. }
  destruct (log_disk_empty l dk (replay dk (recovery_writes l dk)) (dread dk (log_dev l, log_start l))) as [L' E].
  - done.
  - apply replay_length; [apply L|by apply recovery_lengths].
  - rewrite Hoff by (intros [=]; lia). apply recovered_other. intros [_ H1].
    by destruct (proj1 (Forall_forall _ _) (ld_home _ _ L) _ H1) as [_ ?].
  - unfold recovery_writes, recover_writes. rewrite replay_app. simpl. by rewrite dread_insert, fn_lookup_insert.
  - split; [done|]. intros k [H0 Hk]. rewrite E. split; (apply Hoff; intros ->; apply Hk; done).
Qed.

Lemma recovery_prefix l dk m :
  log_disk l dk ->
  log_disk l (replay dk (take m (recovery_writes l dk))) /\
  forall k, off_log l k -> recovered l (replay dk (take m (recovery_writes l dk))) k = recovered l dk k.
Proof.
  intros L. pose proof (header_in_log l dk L) as Hin.
  destruct (decide (m <= length (install_ws (disk_log l dk) (dread dk)))%nat) as [Hm|Hm].
  2:{ rewrite take_ge by (unfold recovery_writes, recover_writes; rewrite length_app; simpl; lia).
      destruct (recovery_done l dk L) as [L' E]. split; [done|]. intros k Hk. by apply E. }
  unfold recovery_writes, recover_writes. rewrite take_app_le by done.
  set (ws := take m _). assert (forall k, k ∈ ws.*1 -> k ∈ (install_ws (disk_log l dk) (dread dk)).*1) as Hsub
    by (intros k; apply take_keys).
  assert (forall b, in_log l b -> dread (replay dk ws) (log_dev l, b) = dread dk (log_dev l, b)) as Hlog.
  { intros b Hb. apply dread_replay_notin. intros (_ & _ & Hn & _)%Hsub%install_home; done. }
  split.
  - apply (log_disk_ext l dk); [done| | |by apply Hlog].
    + apply replay_length; [apply L|]. apply Forall_take.
      pose proof (recovery_lengths l dk L) as Hl. by apply Forall_app in Hl as [? _].
    + apply dread_replay_notin. intros (_ & _ & _ & Hn)%Hsub%install_home; done.
  - intros k Hk. apply recovered_ext; [done|by apply Hlog|done|].
    intros Hn. apply dread_replay_notin. intros (? & ? & _)%Hsub%install_home; [|done]. by apply Hn.
Qed.

Lemma replayf_cases {A} (f : blk -> A) ws k : replayf f ws k = f k \/ (k, replayf f ws k) ∈ ws.
Proof.
  revert f. induction ws as [|[k' v] ws IH]; intros f; [by left|]. simpl.
  destruct (IH (<[k' := v]> f)) as [E|E]; [|right; by apply elem_of_cons; right].
  rewrite E. destruct (decide (k = k')) as [->|Hne].
  - rewrite fn_lookup_insert. right. apply elem_of_cons. by left.
  - rewrite fn_lookup_insert_ne by done. by left.
Qed.

(** ** Crashes during a commit *)
Section commit.
Variables (l : log) (d0 : gmap blk (list Z)) (V : blk -> list Z).
Let k0 : blk := (log_dev l, log_start l).
Hypothesis W : log_wf l.
Hypothesis L : log_disk l d0.
Hypothesis Hempty : hd_n (dread d0 k0) = 0.
Hypothesis Hone : 1 ∉ logged l.
Hypothesis HV : forall b, length (V (log_dev l, b)) = Z.to_nat BSIZE.
Hypothesis Hsync : forall k, k.1 <> 0 -> ~ (k.1 = log_dev l /\ k.2 ∈ logged l) -> dread d0 k = V k.

Lemma sync_header : dread d0 k0 = V k0.
Proof using W L Hsync.
  apply Hsync; [apply W|]. intros [_ Hk]. destruct (logged_home l _ W Hk) as [_ Hn].
  by apply Hn, header_in_log with d0.
Qed.

Lemma log_ws_lengths : Forall (fun w => length w.2 = Z.to_nat BSIZE) (log_ws l V).
Proof using HV. apply Forall_forall. intros w (j & b & -> & _)%elem_of_lookup_imap. apply HV. Qed.

Lemma home_ws_lengths : Forall (fun w => length w.2 = Z.to_nat BSIZE) (home_ws l V).
Proof using HV. apply Forall_forall. intros w (b & -> & _)%list_elem_of_fmap. apply HV. Qed.

Lemma head_w_lengths n bs hd :
  (length bs <= Z.to_nat LOGSIZE)%nat -> length hd = Z.to_nat BSIZE ->
  Forall (fun w => length w.2 = Z.to_nat BSIZE) (head_w l n bs hd).
Proof using.
  intros Hb Hd. constructor; [|constructor]. cbn [snd]. rewrite length_head_put; [done|]. rewrite Hd. klia.
Qed.

(** Before the header is written, the log blocks are all that changed. *)
Lemma commit_before m :
  (m <= length (logged l))%nat ->
  log_disk l (replay d0 (take m (log_ws l V))) /\
  forall k, off_log l k -> recovered l (replay d0 (take m (log_ws l V))) k = dread d0 k.
Proof using W L Hempty HV.
  intros Hm. pose proof (ld_region _ _ L) as Hr. set (ws := take m _).
  assert (forall k, k ∈ ws.*1 -> k.1 = log_dev l /\ in_log l k.2 /\ k.2 <> log_start l) as Hsub
    by (intros k ?%take_keys; by apply log_ws_keys with V).
  assert (dread (replay d0 ws) k0 = dread d0 k0) as E0
    by (apply dread_replay_notin; by intros (_ & _ & ?)%Hsub).
  split.
  - apply (log_disk_ext l d0); [done| | |done].
    + apply replay_length; [apply L|]. apply Forall_take, log_ws_lengths.
    + apply dread_replay_notin. intros (_ & H1 & _)%Hsub. unfold in_log in H1. simpl in H1. lia.
  - intros k [_ Hk]. rewrite recovered_other.
    + apply dread_replay_notin. intros (? & ? & _)%Hsub. by apply Hk.
    + fold k0. rewrite E0. unfold hd_blocks. rewrite Hempty. by intros [_ ?%elem_of_nil].
Qed.

(** The disk after the header and part of the installation. *)
Definition committed_ws (j : nat) : list (blk * list Z) :=
  log_ws l V ++ head_w l (lh_n l) (logged l) (V k0) ++ take j (home_ws l V).

Lemma committed_header j : dread (replay d0 (committed_ws j)) k0 = head_put (lh_n l) (logged l) (V k0).
Proof using W L.
  unfold committed_ws. rewrite !replay_app, dread_replay_notin.
  - simpl. by rewrite dread_insert, fn_lookup_insert.
  - intros [_ Hk]%take_keys%home_ws_keys. destruct (logged_home l _ W Hk) as [_ Hn].
    by apply Hn, header_in_log with d0.
Qed.

Lemma committed_log j i b :
  logged l !! i = Some b ->
  dread (replay d0 (committed_ws j)) (log_dev l, log_start l + Z.of_nat i + 1) = V (log_dev l, b).
Proof using W.
  intros Hi. pose proof (lookup_lt_Some _ _ _ Hi) as Hlt. rewrite length_logged in Hlt by done.
  destruct (log_block_u32 l i W Hlt) as (_ & Hin & Hne).
  unfold committed_ws. rewrite !replay_app, dread_replay_notin.
  - simpl. rewrite dread_insert, fn_lookup_insert_ne by (intros [=]; lia).
    rewrite dread_replay. by apply log_ws_read.
  - intros [_ Hk]%take_keys%home_ws_keys. by destruct (logged_home l _ W Hk) as [_ ?].
Qed.

Lemma committed_other j k :
  off_log l k -> ~ (k.1 = log_dev l /\ k.2 ∈ logged l) -> dread (replay d0 (committed_ws j)) k = V k.
Proof using W L Hsync.
  intros [H0 Hoff] Hk. rewrite dread_replay_notin; [by apply Hsync|].
  unfold committed_ws. rewrite !fmap_app, !elem_of_app. intros [Hi|[Hi|Hi]].
  - apply log_ws_keys in Hi as (? & ? & _); [|done]. by apply Hoff.
  - simpl in Hi. apply list_elem_of_singleton in Hi as ->. apply Hoff. split; [done|]. by apply header_in_log with d0.
  - by apply take_keys, home_ws_keys in Hi.
Qed.

Lemma block1_off_log : off_log l (log_dev l, 1).
Proof using W L. split; [apply W|]. intros [_ H]. pose proof (ld_region _ _ L). unfold in_log in H. simpl in H. lia. Qed.

Lemma block1_sync : dread d0 (log_dev l, 1) = V (log_dev l, 1).
Proof using W Hone Hsync. apply Hsync; [apply W|]. by intros [_ ?]. Qed.

Lemma committed_lengths j k : length (dread (replay d0 (committed_ws j)) k) = Z.to_nat BSIZE.
Proof using W L HV.
  apply replay_length; [apply L|]. pose proof (lw_n _ W). pose proof (lw_region _ W).
  repeat apply Forall_app_2; [apply log_ws_lengths| |apply Forall_take, home_ws_lengths].
  apply head_w_lengths; [rewrite length_logged by done; lia|apply HV].
Qed.

(** Once the header is written, the transaction has happened. *)
Lemma commit_after j :
  log_disk l (replay d0 (committed_ws j)) /\
  forall k, off_log l k -> recovered l (replay d0 (committed_ws j)) k = V k.
Proof using W L Hone HV Hsync.
  pose proof (lw_n _ W) as Hn. pose proof (lw_region _ W) as Hr.
  assert (hd_n (head_put (lh_n l) (logged l) (V k0)) = lh_n l) as En by (apply hd_n_head_put; klia).
  assert (hd_blocks (head_put (lh_n l) (logged l) (V k0)) = logged l) as Eb.
  { apply hd_blocks_head_put; [rewrite length_logged by done; lia|klia|by apply logged_range]. }
  pose proof (committed_header j) as Eh. unfold k0 in *.
  split.
  - assert (dread (replay d0 (committed_ws j)) (log_dev l, 1) = dread d0 (log_dev l, 1)) as E1.
    { rewrite block1_sync. apply committed_other; [apply block1_off_log|by intros [_ ?]]. }
    split; rewrite ?Eh, ?E1, ?En, ?Eb; try apply L; try apply W.
    + apply committed_lengths.
    + apply Forall_forall. intros b Hb. split; [by apply logged_home|]. by intros ->.
  - intros [dev b] Hk. destruct (decide (dev = log_dev l /\ b ∈ logged l)) as [[-> Hb]|Hn'].
    + apply list_elem_of_lookup in Hb as [i Hi].
      rewrite (recovered_logged l _ i b); rewrite ?Eh, ?Eb; [by apply committed_log|apply W|done].
    + rewrite recovered_other; [by apply committed_other|]. by rewrite Eh, Eb.
Qed.

(** The whole commit leaves an empty log. *)
Lemma commit_done :
  log_disk l (replay d0 (commit_writes l V (V k0))) /\
  forall k, off_log l k -> recovered l (replay d0 (commit_writes l V (V k0))) k = V k.
Proof using W L Hone HV Hsync.
  set (ws := committed_ws (length (logged l))).
  assert (commit_writes l V (V k0) = ws ++ head_w l 0 [] (head_put (lh_n l) (logged l) (V k0))) as Ews.
  { unfold ws, committed_ws, commit_writes. rewrite take_ge by (unfold home_ws; by rewrite length_fmap).
    by rewrite <- !app_assoc. }
  assert (forall k, k <> k0 -> dread (replay d0 (commit_writes l V (V k0))) k = dread (replay d0 ws) k) as Hne.
  { intros k Hk. rewrite Ews, replay_app. apply dread_replay_notin. simpl. by rewrite list_elem_of_singleton. }
  pose proof (ld_region _ _ L) as Hr. destruct (commit_after (length (logged l))) as [L1 E1].
  destruct (log_disk_empty l (replay d0 ws) (replay d0 (commit_writes l V (V k0)))
    (head_put (lh_n l) (logged l) (V k0))) as [L2 E2].
  - done.
  - rewrite Ews, replay_app. apply replay_length; [apply committed_lengths|]. apply head_w_lengths; [simpl; lia|].
    rewrite <- (committed_header 0). apply committed_lengths.
  - apply Hne. intros [=]. lia.
  - rewrite Ews, replay_app. simpl. by rewrite dread_insert, fn_lookup_insert.
  - split; [done|]. intros [dev b] Hk. rewrite E2, Hne.
    2:{ intros [= -> ->]. destruct Hk as [_ Hk]. apply Hk. split; [done|]. by apply header_in_log with d0. }
    destruct (decide (dev = log_dev l /\ b ∈ logged l)) as [[-> Hb]|Hn]; [|by apply committed_other].
    unfold ws, committed_ws. rewrite take_ge by (unfold home_ws; by rewrite length_fmap).
    rewrite !replay_app, dread_replay. apply replayf_in.
    + unfold home_ws. rewrite <- list_fmap_compose. apply NoDup_fmap_2; [|apply W]. by intros ?? [=].
    + apply list_elem_of_fmap. by exists b.
Qed.

Lemma commit_prefix m :
  log_disk l (replay d0 (take m (commit_writes l V (V k0)))) /\
  forall k, off_log l k -> recovered l (replay d0 (take m (commit_writes l V (V k0)))) k =
    if decide (length (logged l) < m)%nat then V k else dread d0 k.
Proof using W L Hempty Hone HV Hsync.
  set (n := length (logged l)).
  assert (length (log_ws l V) = n) as E1 by apply length_imap.
  assert (length (home_ws l V) = n) as E2 by apply length_fmap.
  destruct (decide (n < m)%nat) as [Hm|Hm].
  - destruct (decide (n + 1 + n < m)%nat) as [Hm2|Hm2].
    + rewrite take_ge; [apply commit_done|]. unfold commit_writes. rewrite !length_app, E1, E2. simpl. lia.
    + replace (take m (commit_writes l V (V k0))) with (committed_ws (m - n - 1)); [apply commit_after|].
      unfold commit_writes, committed_ws. rewrite (take_app_ge (log_ws l V)) by lia. f_equal.
      rewrite E1, (take_app_ge (head_w _ _ _ _)) by (simpl; lia). f_equal. simpl length.
      by rewrite take_app_le by lia.
  - unfold commit_writes. rewrite (take_app_le (log_ws l V)) by lia. apply commit_before. lia.
Qed.

Lemma commit_prefix_blocks m b :
  b ∈ hd_blocks (dread (replay d0 (take m (commit_writes l V (V k0)))) k0) -> b ∈ logged l.
Proof using W L Hempty.
  pose proof (lw_n _ W) as Hn. pose proof (lw_region _ W) as Hr.
  rewrite dread_replay. set (ws := take m _). destruct (replayf_cases (dread d0) ws k0) as [->|Hin].
  - unfold hd_blocks. rewrite Hempty. by intros ?%elem_of_nil.
  - apply take_sub in Hin. unfold commit_writes in Hin. rewrite !elem_of_app in Hin.
    destruct Hin as [Hin|[Hin|[Hin|Hin]]].
    + apply (list_elem_of_fmap_2 fst), log_ws_keys in Hin as (_ & _ & ?); done.
    + apply list_elem_of_singleton in Hin as [= ->]. rewrite hd_blocks_head_put; [done|..].
      * rewrite length_logged by done. lia.
      * klia.
      * by apply logged_range.
    + apply (list_elem_of_fmap_2 fst), home_ws_keys in Hin as [_ Hk].
      destruct (logged_home l _ W Hk) as [_ []]. by apply header_in_log with d0.
    + apply list_elem_of_singleton in Hin as [= ->]. rewrite hd_blocks_head_put by (done || constructor).
      by intros ?%elem_of_nil.
Qed.
End commit.

(** ** The theorems *)
Definition boot_dd (s : kstate) (l : log) (dk : gmap blk (list Z)) : Prop :=
  forall b, b = 1 \/ in_log l b \/ b ∈ hd_blocks (dread dk (log_dev l, log_start l)) ->
    dd_ok s (log_dev l) b.

Lemma boot_fs_recovers s dk l :
  booting s dk -> log_disk l dk -> boot_dd s l dk ->
  wp (boot_fs (log_dev l)) (fun _ s' =>
    k_writes s' = k_writes s ++ recovery_writes l dk /\ k_disk s' = replay dk (recovery_writes l dk) /\
    (forall k, off_log l k -> bview s' k.1 k.2 = recovered l dk k) /\
    log_wf (k_log s') /\ logged (k_log s') = []) s.
Proof.
  intros B L D. eapply wp_mono; [by apply boot_fs_spec|]. intros _ s' (R & _ & W & E & _).
  split_and!; [..|done|done].
  - rewrite (rep_writes _ _ R). done.
  - rewrite (rep_disk _ _ R). simpl. by rewrite (bt_disk _ _ B).
  - intros [dev b] [H0 Hk]. rewrite (rep_view _ _ R) by done. simpl. rewrite (bt_disk _ _ B), <- dread_replay.
    apply (recovery_done l dk L). done.
Qed.

(** C2: Booting on a disk whose log is empty or committed reaches the disk's
    logical contents, and a crash at any point of the recovery leaves a disk
    with the same logical contents. *)
Theorem recovery_crash_safe s dk l :
  booting s dk -> log_disk l dk -> boot_dd s l dk ->
  wp (boot_fs (log_dev l)) (fun _ s' => exists ws,
    k_writes s' = k_writes s ++ ws /\ k_disk s' = replay dk ws /\
    (forall k, off_log l k -> bview s' k.1 k.2 = recovered l dk k) /\
    (forall m, log_disk l (replay dk (take m ws)) /\
       forall k, off_log l k -> recovered l (replay dk (take m ws)) k = recovered l dk k)) s.
Proof.
  intros B L D. eapply wp_mono; [by apply boot_fs_recovers|]. intros _ s' (Ew & Ed & Hv & _).
  exists (recovery_writes l dk). split_and!; try done. intros m. by apply recovery_prefix.
Qed.

(** C1: A transaction commits atomically: at whatever point of [commit] the
    machine stops, booting it gives every block outside the log either its
    new contents (those in the cache) or, for all blocks, the contents on disk
    before the commit; the header write decides. *)
Theorem commit_crash_safe s c l :
  rep s c -> c_held c = ∅ -> k_log s = l -> log_wf l -> log_pins c l -> log_dd s l ->
  0 < lh_n l -> 1 ∉ logged l -> log_disk l (k_disk s) ->
  hd_n (dread (k_disk s) (log_dev l, log_start l)) = 0 ->
  wp commit (fun _ s' => exists ws,
    k_writes s' = k_writes s ++ ws /\ k_disk s' = replay (k_disk s) ws /\
    forall m s0, booting s0 (replay (k_disk s) (take m ws)) -> dd_ok s0 (log_dev l) 1 -> log_dd s0 l ->
      wp (boot_fs (log_dev l)) (fun _ s1 =>
        (forall k, off_log l k -> bview s1 k.1 k.2 =
           if decide (length (logged l) < m)%nat then bview s k.1 k.2 else dread (k_disk s) k) /\
        logged (k_log s1) = []) s0) s.
Proof.
  intros R Hh Hl W P D Hn H1 L He. eapply wp_mono; [by apply (commit_spec s c l)|].
  intros _ s' (R' & _ & _). rewrite (rep_disk _ _ R) in *.
  assert (forall b, length (c_view c (log_dev l, b)) = Z.to_nat BSIZE) as HV
    by (intros b; apply (rep_length _ _ _ R), W).
  assert (forall k, k.1 <> 0 -> ~ (k.1 = log_dev l /\ k.2 ∈ logged l) -> dread (c_disk c) k = c_view c k) as Hs.
  { intros k H0 Hk. apply (rep_sync _ _ _ R); [done|by rewrite Hh|].
    apply not_true_iff_false. intros Hd. by apply Hk, (P k H0). }
  eexists. split_and!; [by rewrite (rep_writes _ _ R'), (rep_writes _ _ R)|by rewrite (rep_disk _ _ R')|].
  intros m s0 B D1 Dl. destruct (commit_prefix l (c_disk c) (c_view c) W L He H1 HV Hs m) as [L' E].
  eapply wp_mono; [apply (boot_fs_recovers _ _ l B L')|].
  - intros b [->|[Hb|Hb]]; [done|apply Dl; by left|]. apply Dl. right.
    by eapply (commit_prefix_blocks l (c_disk c) (c_view c) W L He m).
  - intros _ s1 (_ & _ & Hv & _ & Hlog). split; [|done]. intros [dev b] Hk. rewrite Hv, E by done.
    destruct (decide _); [|done]. symmetry. apply (rep_view _ _ R). apply Hk.
Qed.

(** What a commit leaves outside the log: the contents [V] of the blocks of
    the transaction. *)
Lemma commit_at l V hd (f : blk -> list Z) k :
  log_wf l -> off_log l k ->
  replayf f (commit_writes l V hd) k = if decide (k.1 = log_dev l /\ k.2 ∈ logged l) then V k else f k.
Proof.
  intros W Hk. pose proof (lw_region _ W) as Hr.
  assert (forall n bs d, k ∉ (head_w l n bs d).*1) as Hh.
  { intros n bs d. simpl. rewrite list_elem_of_singleton. intros ->. apply Hk. split; [done|]. unfold in_log. simpl. lia. }
  unfold commit_writes. rewrite !replayf_app. rewrite (replayf_notin _ (head_w l 0 _ _)) by done.
  destruct (decide _) as [Hl|Hl].
  - apply replayf_in.
    + unfold home_ws. rewrite <- list_fmap_compose. apply NoDup_fmap_2; [|apply W]. by intros ?? [=].
    + apply list_elem_of_fmap. exists k.2. destruct k, Hl. by simplify_eq/=.
  - rewrite !replayf_notin; [done| |done|by rewrite home_ws_keys].
    intros (? & ? & _)%log_ws_keys; [|done]. by apply Hk.
Qed.

Lemma commit_durable l d0 V k :
  log_wf l -> log_disk l d0 -> 1 ∉ logged l ->
  (forall b, length (V (log_dev l, b)) = Z.to_nat BSIZE) ->
  (forall k, k.1 <> 0 -> ~ (k.1 = log_dev l /\ k.2 ∈ logged l) -> dread d0 k = V k) ->
  off_log l k ->
  let ws := commit_writes l V (V (log_dev l, log_start l)) in
  dread (replay d0 ws) k = V k /\ replayf V ws k = V k.
Proof.
  intros W L H1 HV Hs Hk ws. unfold ws. rewrite dread_replay, !commit_at by done.
  destruct (decide _); [done|]. split; [|done]. apply Hs; [apply Hk|done].
Qed.

(** C3: When the last outstanding system call ends, its transaction is on disk:
    every block outside the log has on disk the contents the cache had before,
    the cache still has them, nothing is pinned, and the log is empty. *)
Theorem end_op_durable s c l :
  rep s c -> c_held c = ∅ -> k_log s = l -> log_wf l -> log_pins c l -> log_dd s l ->
  log_outstanding l = 1 -> log_committing l = false -> 1 ∉ logged l -> log_disk l (k_disk s) ->
  wp end_op (fun _ s' =>
    (forall k, off_log l k -> dread (k_disk s') k = bview s k.1 k.2 /\ bview s' k.1 k.2 = bview s k.1 k.2) /\
    (forall k, off_log l k -> dirtyb s' k.1 k.2 = false) /\
    logged (k_log s') = [] /\ log_outstanding (k_log s') = 0) s.
Proof.
  intros R Hh Hl W P D Ho Hc H1 L. eapply wp_mono; [by apply (end_op_spec s c l)|].
  intros _ s' (R' & _ & E). rewrite (rep_disk _ _ R) in L.
  assert (forall b, length (c_view c (log_dev l, b)) = Z.to_nat BSIZE) as HV
    by (intros b; apply (rep_length _ _ _ R), W).
  assert (forall k, k.1 <> 0 -> ~ (k.1 = log_dev l /\ k.2 ∈ logged l) -> dread (c_disk c) k = c_view c k) as Hs.
  { intros k H0 Hk. apply (rep_sync _ _ _ R); [done|by rewrite Hh|].
    apply not_true_iff_false. intros Hd. by apply Hk, (P k H0). }
  split_and!; [| |by rewrite E|rewrite E; simpl; lia].
  - intros [dev b] [H0 Hk]. simpl in H0. rewrite (rep_disk _ _ R'), (rep_view _ _ R'), (rep_view _ _ R) by done.
    destruct (Z.eqb_spec (lh_n l) 0) as [E0|E0].
    + split; [|done]. apply Hs; [done|]. unfold logged. rewrite E0. intros [_ Hx]. by apply elem_of_nil in Hx.
    + apply (commit_durable l (c_disk c) (c_view c) (dev, b)); done.
  - intros [dev b] [H0 Hk]. simpl in H0. rewrite (rep_dirty _ _ R') by done. apply not_true_iff_false.
    destruct (Z.eqb_spec (lh_n l) 0) as [E0|E0].
    + intros Hd. apply P in Hd as [_ Hd]; [|done]. unfold logged in Hd. rewrite E0 in Hd. by apply elem_of_nil in Hd.
    + intros [Hd Hn]%wrote_dirty. apply Hn. unfold commit_writes. rewrite !fmap_app, !elem_of_app. right; right; left.
      apply home_ws_keys. by apply P.
Qed.
End crash.
