(* ===== verification/CString.v ===== *)
(** * Byte and string functions (string.c)

  The memory functions act on one array of bytes, given the offsets of their
  arguments, so that overlap can be expressed; the string functions act on
  the bytes from their argument to the end of its object, and return [None]
  when they run off that end. *)
From S2P Require Import Prelude.

(** ** Memory *)

(** [stosb(addr, c, n)] and [stosl(addr, w, n)] of x86.h: [rep stos]. *)
Definition stosb (mem : list Z) (addr : nat) (c : Z) (n : nat) : list Z :=
  splice mem addr (replicate n (c mod 256)).
Definition stosl (mem : list Z) (addr : nat) (w : Z) (n : nat) : list Z :=
  splice mem addr (concat (replicate n (le_enc 4 w))).

Definition memset (mem : list Z) (dst : nat) (c : Z) (n : nat) : list Z :=
  if (Z.of_nat dst mod 4 =? 0) && (Z.of_nat n mod 4 =? 0) then
    let c := Z.land c 255 in
    stosl mem dst (Z.lor (Z.lor (Z.lor (Z.shiftl c 24) (Z.shiftl c 16)) (Z.shiftl c 8)) c) (n / 4)
  else stosb mem dst c n.

Fixpoint memcmp (s1 s2 : list Z) (n : nat) {struct n} : option Z :=
  match n with
  | O => Some 0
  | S n =>
      match s1, s2 with
      | a :: s1, b :: s2 => if a =? b then memcmp s1 s2 n else Some (a - b)
      | _, _ => None
      end
  end.

Definition getm (mem : list Z) (i : nat) : Z := default 0 (mem !! i).

(** [while(n-- > 0) *d++ = *s++] and [while(n-- > 0) *--d = *--s] *)
Fixpoint copy_up (mem : list Z) (d s n : nat) : list Z :=
  match n with
  | O => mem
  | S n => copy_up (<[d := getm mem s]> mem) (S d) (S s) n
  end.
Fixpoint copy_down (mem : list Z) (d s n : nat) : list Z :=
  match n with
  | O => mem
  | S n => copy_down (<[(d - 1)%nat := getm mem (s - 1)]> mem) (d - 1) (s - 1) n
  end.

Definition memmove (mem : list Z) (dst src n : nat) : list Z :=
  if decide (src < dst /\ dst < src + n)%nat
  then copy_down mem (dst + n) (src + n) n
  else copy_up mem dst src n.

(** ** Strings *)
Fixpoint strncmp (p q : list Z) (n : nat) {struct n} : option Z :=
  match n with
  | O => Some 0
  | S n =>
      match p, q with
      | a :: p, b :: q => if negb (a =? 0) && (a =? b) then strncmp p q n else Some (a - b)
      | _, _ => None
      end
  end.

(** The bytes that [strncpy(s, t, n)] stores at [s]. *)
Fixpoint strncpy (t : list Z) (n : nat) {struct n} : option (list Z) :=
  match n with
  | O => Some []
  | S n =>
      match t with
      | [] => None
      | c :: t => if c =? 0 then Some (0 :: replicate n 0)
                  else r ← strncpy t n; Some (c :: r)
      end
  end.

(** The bytes that [safestrcpy(s, t, n)] stores at [s]. *)
Fixpoint safestrcpy_loop (t : list Z) (n : nat) {struct n} : option (list Z) :=
  match n with
  | O => Some [0]
  | S n =>
      match t with
      | [] => None
      | c :: t => if c =? 0 then Some [0; 0] else r ← safestrcpy_loop t n; Some (c :: r)
      end
  end.
Definition safestrcpy (t : list Z) (n : Z) : option (list Z) :=
  if n <=? 0 then Some [] else safestrcpy_loop t (Z.to_nat (n - 1)).

Fixpoint strlen (s : list Z) : option nat :=
  match s with
  | [] => None
  | c :: s => if c =? 0 then Some 0%nat else S <$> strlen s
  end.

(** ** What they compute *)

(** The string at the start of [s]: the bytes before the first NUL. *)
Fixpoint cstr (s : list Z) : list Z :=
  match s with
  | [] => []
  | c :: s => if c =? 0 then [] else c :: cstr s
  end.
Definition terminated (s : list Z) : Prop := 0 ∈ s.

Lemma cstr_nonzero s : 0 ∉ cstr s.
Proof.
  induction s as [|c s IH]; simpl; [apply not_elem_of_nil|].
  destruct (Z.eqb_spec c 0); [apply not_elem_of_nil|]. apply not_elem_of_cons. done.
Qed.

Lemma cstr_split s : terminated s -> exists r, s = cstr s ++ 0 :: r.
Proof.
  unfold terminated. induction s as [|c s IH]; intros H; [by apply elem_of_nil in H|]. simpl.
  destruct (Z.eqb_spec c 0) as [->|Hne]; [by exists s|].
  apply elem_of_cons in H as [H|H]; [by destruct Hne|]. destruct (IH H) as [r Hr]. exists r. simpl. by rewrite <- Hr.
Qed.

(** *** Copies *)
Lemma lookup_copy_up mem d s n i :
  (d + n <= length mem)%nat -> (s + n <= length mem)%nat -> (d <= s \/ s + n <= d)%nat ->
  copy_up mem d s n !! i =
    if decide (d <= i < d + n)%nat then mem !! (s + (i - d))%nat else mem !! i.
Proof.
  revert mem d s. induction n as [|n IH]; intros mem d s Hd Hs Ho; simpl.
  { by rewrite decide_False by lia. }
  assert (is_Some (mem !! s)) as [x Hx] by (apply lookup_lt_is_Some; lia).
  rewrite IH by (rewrite ?length_insert; lia). unfold getm. rewrite Hx. simpl.
  destruct (decide (S d <= i < S d + n)%nat) as [Hi|Hi].
  - rewrite !decide_True by lia. rewrite list_lookup_insert_ne by lia.
    by replace (S (s + (i - S d)))%nat with (s + (i - d))%nat by lia.
  - destruct (decide (i = d)) as [->|Hne].
    + rewrite decide_False, decide_True by lia. rewrite list_lookup_insert_eq by lia. rewrite <- Hx.
      by replace (s + (d - d))%nat with s by lia.
    + rewrite !decide_False by lia. by rewrite list_lookup_insert_ne by lia.
Qed.

Lemma lookup_copy_down mem d s n i :
  (n <= s)%nat -> (s <= d)%nat -> (d <= length mem)%nat ->
  copy_down mem d s n !! i =
    if decide (d - n <= i < d)%nat then mem !! (s - n + (i - (d - n)))%nat else mem !! i.
Proof.
  revert mem d s. induction n as [|n IH]; intros mem d s Hn Hs Hd; simpl.
  { by rewrite decide_False by lia. }
  assert (is_Some (mem !! (s - 1)%nat)) as [x Hx] by (apply lookup_lt_is_Some; lia).
  rewrite IH by (rewrite ?length_insert; lia). unfold getm. rewrite Hx. simpl.
  destruct (decide (d - 1 - n <= i < d - 1)%nat) as [Hi|Hi].
  - rewrite decide_True by lia. rewrite list_lookup_insert_ne by lia.
    by replace (s - 1 - n + (i - (d - 1 - n)))%nat with (s - S n + (i - (d - S n)))%nat by lia.
  - destruct (decide (i = d - 1)%nat) as [->|Hne].
    + rewrite decide_True by lia. rewrite list_lookup_insert_eq by lia. rewrite <- Hx.
      by replace (s - S n + (d - 1 - (d - S n)))%nat with (s - 1)%nat by lia.
    + rewrite decide_False by lia. by rewrite list_lookup_insert_ne by lia.
Qed.

Lemma lookup_splice d off bs i :
  (off + length bs <= length d)%nat ->
  splice d off bs !! i = if decide (off <= i < off + length bs)%nat then bs !! (i - off)%nat else d !! i.
Proof.
  intros Hl. unfold splice. destruct (decide (off <= i < off + length bs)%nat) as [Hi|Hi].
  - rewrite lookup_app_r by (rewrite length_take; lia). rewrite length_take, Nat.min_l by lia.
    by rewrite lookup_app_l by lia.
  - destruct (decide (i < off)%nat).
    + rewrite lookup_app_l by (rewrite length_take; lia). by rewrite lookup_take_lt by lia.
    + rewrite lookup_app_r by (rewrite length_take; lia). rewrite length_take, Nat.min_l by lia.
      rewrite lookup_app_r by lia. rewrite lookup_drop. f_equal. lia.
Qed.

Lemma lookup_slice d off n i : slice d off n !! i = if decide (i < n)%nat then d !! (off + i)%nat else None.
Proof.
  unfold slice. destruct (decide (i < n)%nat) as [Hi|Hi].
  - by rewrite lookup_take_lt, lookup_drop by done.
  - by rewrite lookup_take_ge by lia.
Qed.

(** [memmove] stores at [dst] the bytes that were at [src], also when the
    two areas overlap, and changes nothing else. *)
Theorem memmove_correct mem dst src n :
  (dst + n <= length mem)%nat -> (src + n <= length mem)%nat ->
  memmove mem dst src n = splice mem dst (slice mem src n).
Proof.
  intros Hd Hs. apply list_eq. intros i.
  rewrite lookup_splice by (rewrite length_slice by done; done). rewrite length_slice by done.
  unfold memmove. destruct (decide (src < dst /\ dst < src + n)%nat) as [Ho|Ho].
  - rewrite lookup_copy_down by lia. replace (dst + n - n)%nat with dst by lia.
    replace (src + n - n)%nat with src by lia.
    destruct (decide _) as [Hi|_]; [|done]. by rewrite lookup_slice, decide_True by lia.
  - rewrite lookup_copy_up by lia.
    destruct (decide _) as [Hi|_]; [|done]. by rewrite lookup_slice, decide_True by lia.
Qed.

Lemma le_enc_rep c : 0 <= c < 256 ->
  le_enc 4 (Z.lor (Z.lor (Z.lor (Z.shiftl c 24) (Z.shiftl c 16)) (Z.shiftl c 8)) c) = replicate 4 c.
Proof.
  intros Hc. assert (Z.lor (Z.lor (Z.lor (Z.shiftl c 24) (Z.shiftl c 16)) (Z.shiftl c 8)) c = c * 16843009) as ->.
  { assert (c ∈ seqZ 0 256) as Hin by (apply elem_of_seqZ; lia).
    assert (Forall (fun c => Z.lor (Z.lor (Z.lor (Z.shiftl c 24) (Z.shiftl c 16)) (Z.shiftl c 8)) c = c * 16843009) (seqZ 0 256)) as HF.
    { apply Forall_forall. intros x Hx. revert x Hx. apply Forall_forall.
      apply (bool_decide_unpack _). vm_compute. exact I. }
    by apply (proj1 (Forall_forall _ _) HF). }
  assert (c * 16843009 / 256 = c * 65793) as E1 by (Z.div_mod_to_equations; lia).
  assert (c * 65793 / 256 = c * 257) as E2 by (Z.div_mod_to_equations; lia).
  assert (c * 257 / 256 = c) as E3 by (Z.div_mod_to_equations; lia).
  unfold le_enc. rewrite E1, E2, E3. cbn [replicate].
  do 4 (apply (f_equal2 cons); [Z.div_mod_to_equations; lia|]). done.
Qed.

(** The word loop of [memset] stores the same bytes as the byte loop. *)
Theorem memset_correct mem dst c n :
  memset mem dst c n = splice mem dst (replicate n (c mod 256)).
Proof.
  unfold memset. destruct ((Z.of_nat dst mod 4 =? 0) && (Z.of_nat n mod 4 =? 0)) eqn:E; [|done].
  apply andb_true_iff in E as [_ E%Z.eqb_eq]. unfold stosl. f_equal. cbv zeta.
  assert (Z.land c 255 = c mod 256) as -> by apply (Z.land_ones c 8 ltac:(lia)).
  rewrite le_enc_rep by (apply Z.mod_pos_bound; lia).
  assert (n = 4 * (n / 4))%nat as Hn.
  { apply Nat.Div0.div_exact. apply Nat2Z.inj. rewrite Nat2Z.inj_mod. exact E. }
  rewrite Hn at 2. generalize (n / 4)%nat. intros m. induction m as [|m IH]; [done|].
  rewrite replicate_S. cbn [concat]. rewrite IH, <- replicate_add. f_equal. lia.
Qed.

(** *** Comparison *)

(** [memcmp] is zero exactly when the [n] bytes agree, and otherwise the
    difference of the first bytes that do not. *)
Lemma memcmp_zero s1 s2 n :
  (n <= length s1)%nat -> (n <= length s2)%nat ->
  exists r, memcmp s1 s2 n = Some r /\ (r = 0 <-> take n s1 = take n s2).
Proof.
  revert s1 s2. induction n as [|n IH]; intros s1 s2 H1 H2; [exists 0; by rewrite !take_0|].
  destruct s1 as [|a s1], s2 as [|b s2]; simpl in *; try lia.
  destruct (Z.eqb_spec a b) as [->|Hne].
  - destruct (IH s1 s2 ltac:(lia) ltac:(lia)) as (r & Hr & E). exists r. split; [done|].
    rewrite E. split; [by intros ->|by intros [=]].
  - exists (a - b). split; [done|]. split; [lia|by intros [=]].
Qed.

(** [strncmp] compares the first [n] characters of two strings: it returns
    zero exactly when they agree. *)
Lemma strncmp_zero p q n :
  terminated p \/ (n <= length p)%nat -> terminated q \/ (n <= length q)%nat ->
  exists r, strncmp p q n = Some r /\ (r = 0 <-> take n (cstr p) = take n (cstr q)).
Proof.
  revert p q. induction n as [|n IH]; intros p q Hp Hq; [exists 0; by rewrite !take_0|].
  unfold terminated in *. destruct p as [|a p].
  { exfalso. destruct Hp as [Hp|Hp]; [by apply elem_of_nil in Hp|simpl in Hp; lia]. }
  destruct q as [|b q].
  { exfalso. destruct Hq as [Hq|Hq]; [by apply elem_of_nil in Hq|simpl in Hq; lia]. }
  simpl.
  destruct (Z.eqb_spec a 0) as [->|Ha]; simpl.
  - exists (0 - b). split; [done|]. destruct (Z.eqb_spec b 0) as [->|Hb]; [done|]. split; [lia|done].
  - destruct (Z.eqb_spec a b) as [->|Hab].
    + destruct (Z.eqb_spec b 0) as [|_]; [done|].
      destruct (IH p q) as (r & Hr & E).
      * destruct Hp as [Hp|Hp]; [left|right; simpl in Hp; lia]. by apply elem_of_cons in Hp as [?|?].
      * destruct Hq as [Hq|Hq]; [left|right; simpl in Hq; lia]. by apply elem_of_cons in Hq as [?|?].
      * exists r. split; [done|]. rewrite E. simpl. split; [by intros ->|by intros [=]].
    + exists (a - b). split; [done|]. split; [lia|]. destruct (Z.eqb_spec b 0) as [->|Hb]; [done|].
      simpl. by intros [=].
Qed.

(** *** Copying strings *)

(** [strncpy] stores exactly [n] bytes: the string, cut at [n] characters,
    padded with NULs. *)
Lemma strncpy_correct t n :
  terminated t \/ (n <= length t)%nat ->
  strncpy t n = Some (take n (cstr t) ++ replicate (n - length (cstr t)) 0).
Proof.
  revert t. induction n as [|n IH]; intros t Ht; [done|]. simpl.
  unfold terminated in *. destruct t as [|c t].
  { exfalso. destruct Ht as [Ht|Ht]; [by apply elem_of_nil in Ht|simpl in Ht; lia]. }
  simpl. destruct (Z.eqb_spec c 0) as [->|Hc]; [done|].
  rewrite IH; [done|]. destruct Ht as [Ht|Ht]; [left|right; simpl in Ht; lia].
  by apply elem_of_cons in Ht as [?|?].
Qed.

(** [safestrcpy] with room for [n > 0] bytes stores at most [n] bytes, of
    which the string is [t] cut at [n - 1] characters. *)
Theorem safestrcpy_correct t n :
  terminated t \/ n <= Z.of_nat (length t) -> 0 < n ->
  exists bs, safestrcpy t n = Some bs /\ Z.of_nat (length bs) <= n /\ terminated bs /\
    cstr bs = take (Z.to_nat (n - 1)) (cstr t).
Proof.
  intros Ht Hn. unfold safestrcpy. destruct (Z.leb_spec n 0); [lia|].
  assert (terminated t \/ (Z.to_nat (n - 1) <= length t)%nat) as Ht' by (destruct Ht; [by left|right; lia]).
  assert (n = Z.of_nat (Z.to_nat (n - 1)) + 1) as En by lia. revert En Ht'. generalize (Z.to_nat (n - 1)).
  clear Ht Hn H. intros m. unfold terminated. revert n t. induction m as [|m IH]; intros n t En Ht; simpl.
  { exists [0]. split_and!; [done|simpl; lia|apply elem_of_cons; by left|done]. }
  destruct t as [|c t].
  { exfalso. destruct Ht as [Ht|Ht]; [by apply elem_of_nil in Ht|simpl in Ht; lia]. }
  simpl. destruct (Z.eqb_spec c 0) as [->|Hc].
  { exists [0; 0]. split_and!; [done|simpl; lia|apply elem_of_cons; by left|done]. }
  destruct (IH (n - 1) t) as (bs & -> & Hl & H0 & E); [lia| |].
  { destruct Ht as [Ht|Ht]; [left|right; simpl in Ht; lia]. by apply elem_of_cons in Ht as [?|?]. }
  exists (c :: bs). split_and!; [done|simpl; lia|by apply elem_of_cons; right|]. simpl.
  destruct (Z.eqb_spec c 0); [done|]. by rewrite E.
Qed.

Lemma strlen_correct s : terminated s -> strlen s = Some (length (cstr s)).
Proof.
  unfold terminated. induction s as [|c s IH]; intros H; [by apply elem_of_nil in H|]. simpl.
  destruct (Z.eqb_spec c 0) as [->|Hc]; [done|]. apply elem_of_cons in H as [H|H]; [by destruct Hc|].
  by rewrite IH.
Qed.
