(* ===== verification/FsBase.v ===== *)
(** * The file system inside a transaction

  What the file-system code of the root device may assume while a system
  call runs between [begin_op] and [end_op], as rules for the buffer-cache
  and log calls: [fsx s c l] is the invariant of such a state, [fs_next]
  relates the states before and after an operation, in terms of the contents
  of the blocks. *)
From S2P Require Import Prelude Params Layout KState Driver Dll Bio Cache Log LogCrash.

Section fsbase.
Context {DD : DiskDriver}.

Record fsx (s : kstate) (c : cache) (l : log) : Prop := {
  fx_txn : txn s c l;
  fx_root : log_dev l = ROOTDEV;
  fx_dd : forall b, 0 <= b < FSSIZE -> dd_ok s ROOTDEV b
}.

(** The log is where it was, and the same system calls are running. *)
Definition same_txn (l l' : log) : Prop :=
  log_dev l' = log_dev l /\ log_start l' = log_start l /\ log_size l' = log_size l /\
  log_outstanding l' = log_outstanding l /\ log_committing l' = log_committing l.

Definition not_in (c : cache) (b : Z) : Prop := forall j, c_held c !! j <> Some (ROOTDEV, b).

(** Room for one more buffer. *)
Definition room (c : cache) (l : log) : Prop := lh_n l + Z.of_nat (size (c_held c)) < NBUF.

(** The state after an operation that has logged at most the blocks [bs] and
    has given the blocks the contents [V]. *)
Record fs_next (s : kstate) (c : cache) (l : log) (bs : list Z) (V : blk -> list Z)
    (s' : kstate) (c' : cache) (l' : log) : Prop := {
  fn_fsx : fsx s' c' l';
  fn_same : same_txn l l';
  fn_logs : forall b, b ∈ logged l' -> b ∈ logged l \/ b ∈ bs;
  fn_frame : log_frame s s';
  fn_held : c_held c' = c_held c;
  fn_view : forall k, c_view c' k = V k;
  fn_disk : c_disk c' = c_disk c;
  fn_writes : c_writes c' = c_writes c
}.

Lemma same_txn_refl l : same_txn l l.
Proof. done. Qed.
Lemma same_txn_trans l1 l2 l3 : same_txn l1 l2 -> same_txn l2 l3 -> same_txn l1 l3.
Proof. intros (?&?&?&?&?) (?&?&?&?&?). split_and!; congruence. Qed.
Lemma same_txn_home l l' b : same_txn l l' -> home l' b <-> home l b.
Proof. intros (_ & E2 & E3 & _). unfold home, in_log. by rewrite E2, E3. Qed.

Lemma fs_next_refl s c l : fsx s c l -> fs_next s c l [] (c_view c) s c l.
Proof. intros F. split; try done. intros b Hb. by left. Qed.

Lemma fs_next_trans s c l bs V s1 c1 l1 bs' V' s2 c2 l2 :
  fs_next s c l bs V s1 c1 l1 -> fs_next s1 c1 l1 bs' V' s2 c2 l2 ->
  fs_next s c l (bs ++ bs') V' s2 c2 l2.
Proof.
  intros H1 H2. split.
  - apply H2.
  - eapply same_txn_trans; [apply H1|apply H2].
  - intros b [Hb|Hb]%(fn_logs _ _ _ _ _ _ _ _ H2); rewrite elem_of_app; [|by auto].
    apply (fn_logs _ _ _ _ _ _ _ _ H1) in Hb. naive_solver.
  - etrans; [apply H1|apply H2].
  - rewrite (fn_held _ _ _ _ _ _ _ _ H2). apply H1.
  - apply H2.
  - rewrite (fn_disk _ _ _ _ _ _ _ _ H2). apply H1.
  - rewrite (fn_writes _ _ _ _ _ _ _ _ H2). apply H1.
Qed.

Lemma fs_next_mono s c l bs V s' c' l' bs' V' :
  fs_next s c l bs V s' c' l' -> bs ⊆ bs' -> (forall k, V' k = V k) -> fs_next s c l bs' V' s' c' l'.
Proof.
  intros H Hm HV. split; try apply H.
  - intros b Hb. apply (fn_logs _ _ _ _ _ _ _ _ H) in Hb as [?|?]; [by left|right; by apply Hm].
  - intros k. rewrite HV. apply H.
Qed.

(** How far the transaction has grown. *)
Lemma fs_next_n s c l bs V s' c' l' :
  log_wf l -> fs_next s c l bs V s' c' l' -> lh_n l' <= lh_n l + Z.of_nat (length bs).
Proof.
  intros W H. pose proof (tx_wf _ _ _ (fx_txn _ _ _ (fn_fsx _ _ _ _ _ _ _ _ H))) as W'.
  assert (length (logged l') <= length (logged l ++ bs))%nat as Hle.
  { apply submseteq_length, NoDup_submseteq; [apply W'|]. intros b Hb. apply elem_of_app.
    by apply (fn_logs _ _ _ _ _ _ _ _ H). }
  rewrite length_app, !length_logged in Hle by done. pose proof (lw_n _ W). pose proof (lw_n _ W'). lia.
Qed.

Lemma fsx_bio s c l s' c' :
  fsx s c l -> bio_frame s s' -> rep s' c' -> (forall k, c_dirty c' k = c_dirty c k) -> fsx s' c' l.
Proof.
  intros [[R Hl W P Ho] Hr Hdd] F R' Hd. destruct (bio_log_frame _ _ F) as [G L].
  split; [split; try done; [congruence|]|done|].
  - intros k H0. rewrite Hd. by apply P.
  - intros b Hb. eapply dd_ok_bio; [done|]. by apply Hdd.
Qed.

(** *** Rules *)
Lemma fx_bread s c l b (Q : nat -> kstate -> Prop) :
  fsx s c l -> 0 <= b < FSSIZE -> not_in c b -> room c l ->
  (forall i s', c_held c !! i = None -> fsx s' (a_bread i (ROOTDEV, b) c) l -> bio_frame s s' ->
     (c_dirty c (ROOTDEV, b) = true \/ dread (c_disk c) (ROOTDEV, b) = c_view c (ROOTDEV, b)) -> Q i s') ->
  wp (bread ROOTDEV b) Q s.
Proof.
  intros F Hb Hn Hroom HQ. pose proof (fx_txn _ _ _ F) as [R Hl W P Ho].
  eapply wp_bread; [exact R|done|by apply F|done|right|].
  - exists ((fun b => (log_dev l, b)) <$> logged l). split.
    + intros [dev b'] H0 [Hd Hb']%P; [|done]. simpl in *. subst. apply list_elem_of_fmap. by exists b'.
    + rewrite length_fmap, length_logged by done. pose proof (lw_n _ W). unfold room in Hroom. lia.
  - intros i s' Hi R' F'. apply HQ; [done|by eapply fsx_bio|done|].
    destruct (c_dirty c (ROOTDEV, b)) eqn:E; [by left|right]. by apply (rep_sync _ _ _ R).
Qed.

Lemma fx_bdata s c l i k Q : fsx s c l -> c_held c !! i = Some k -> Q (c_view c k) s -> wp (bdata i) Q s.
Proof. intros F. apply wp_bdata, F. Qed.

Lemma fx_bput s c l i k d (Q : unit -> kstate -> Prop) :
  fsx s c l -> c_held c !! i = Some k -> length d = Z.to_nat BSIZE ->
  (forall s', fsx s' (a_bput k d c) l -> bio_frame s s' -> Q tt s') -> wp (bput i d) Q s.
Proof.
  intros F Hi Hd HQ. eapply wp_bput; [apply F|done..|]. intros s' R' F'. apply HQ; [|done].
  by eapply fsx_bio.
Qed.

Lemma fx_log_write s c l i b (Q : unit -> kstate -> Prop) :
  fsx s c l -> c_held c !! i = Some (ROOTDEV, b) -> home l b -> lh_n l < log_size l - 1 ->
  (forall s', fsx s' (a_bdirty (ROOTDEV, b) c) (log_record b l) -> log_frame s s' ->
     same_txn l (log_record b l) -> (forall x, x ∈ logged (log_record b l) -> x ∈ logged l \/ x = b) -> Q tt s') ->
  wp (log_write i) Q s.
Proof.
  intros [[R Hl W P Ho] Hr Hdd] Hi Hh Hn HQ.
  destruct (log_record_logged l b W Hh Hn) as (W' & El & _).
  assert (same_txn l (log_record b l)) as Hs by (unfold log_record; by destruct (_ =? _)).
  eapply wp_mono; [apply (log_write_spec s c l i b); try done; by rewrite Hr|].
  intros [] s' (R' & F' & L' & _ & P' & _). rewrite Hr in *.
  apply HQ; [|done|done|].
  2:{ intros x. rewrite El. unfold add_block. destruct (decide _); [by left|].
      rewrite elem_of_app, list_elem_of_singleton. naive_solver. }
  split; [split; try done|..].
  - unfold log_record. by destruct (_ =? _).
  - destruct Hs as (-> & _). done.
  - intros b' Hb'. eapply dd_ok_log; [done|]. by apply Hdd.
Qed.

Lemma fx_brelse s c l i k (Q : unit -> kstate -> Prop) :
  fsx s c l -> c_held c !! i = Some k -> c_dirty c k = true \/ dread (c_disk c) k = c_view c k ->
  (forall s', fsx s' (a_brelse i c) l -> bio_frame s s' -> Q tt s') -> wp (brelse i) Q s.
Proof.
  intros F Hi Hs HQ. eapply wp_brelse; [apply F|done..|]. intros s' R' F'. apply HQ; [|done].
  by eapply fsx_bio.
Qed.

Lemma fx_length s c l b : fsx s c l -> length (c_view c (ROOTDEV, b)) = Z.to_nat BSIZE.
Proof. intros F. by apply (rep_length s c _ (tx_rep _ _ _ (fx_txn _ _ _ F))). Qed.

Lemma bread_held i k c : c_held (a_bread i k c) !! i = Some k.
Proof. simpl. by rewrite lookup_insert_eq. Qed.
End fsbase.

(** Chaining frames. *)
Ltac frames :=
  solve [ repeat first
    [ assumption
    | match goal with
      | |- log_frame ?s ?s => reflexivity
      | H : bio_frame ?s ?t |- log_frame ?s _ => transitivity t; [apply (bio_log_frame s t H)|clear H]
      | H : log_frame ?s ?t |- log_frame ?s _ => transitivity t; [exact H|clear H]
      end ] ].
