(* ===== verification/FsAlloc.v ===== *)
(** * Block allocation on the root device (fs.c)

  [bzero], [balloc] and [bfree] and the free bitmap they maintain. *)
From S2P Require Import Prelude Params Layout KState Driver Dll Bio Cache Log LogCrash FsBase.

(** Bit [i] of a bitmap block: [data[i/8] & (1 << (i % 8))]. *)
Definition byte_at (d : list Z) (i : Z) : Z := default 0 (d !! Z.to_nat i).
Definition bit_mask (i : Z) : Z := Z.shiftl 1 (i mod 8).
Definition bit_set (d : list Z) (i : Z) : bool := negb (Z.land (byte_at d (i / 8)) (bit_mask i) =? 0).
Definition set_bit (d : list Z) (i : Z) : list Z :=
  <[Z.to_nat (i / 8) := Z.lor (byte_at d (i / 8)) (bit_mask i)]> d.
Definition clear_bit (d : list Z) (i : Z) : list Z :=
  <[Z.to_nat (i / 8) := Z.ldiff (byte_at d (i / 8)) (bit_mask i)]> d.

(** [for(bi = 0; bi < BPB && b + bi < sb.size; bi++)]: the first free bit. *)
Fixpoint scan_free (fuel : nat) (d : list Z) (size b bi : Z) : option Z :=
  match fuel with
  | O => None
  | S fuel =>
      if size <=? b + bi then None
      else if bit_set d bi then scan_free fuel d size b (bi + 1)
      else Some bi
  end.

Section alloc.
Context {DD : DiskDriver}.

Definition bzero (dev bno : Z) : M kstate unit :=
  bp ← bread dev bno;
  bput bp zero_block ;;
  (if dev =? ROOTDEV then log_write bp else bwrite bp) ;;
  brelse bp.

Fixpoint balloc_loop (fuel : nat) (dev b : Z) : M kstate Z :=
  match fuel with
  | O => out_of_fuel
  | S fuel =>
      sb ← gets k_sb;
      if sb_size sb <=? b then panic "balloc: out of blocks" else
      bp ← bread dev (BBLOCK b sb);
      d ← bdata bp;
      match scan_free (Z.to_nat BPB) d (sb_size sb) b 0 with
      | Some bi =>
          bput bp (set_bit d bi) ;;
          log_write bp ;;
          brelse bp ;;
          bzero dev (b + bi) ;;
          mret (b + bi)
      | None => brelse bp ;; balloc_loop fuel dev (b + BPB)
      end
  end.

Definition balloc (dev : Z) : M kstate Z :=
  sb ← gets k_sb; balloc_loop (Z.to_nat (sb_size sb / BPB + 2)) dev 0.

Definition bfree (dev b : Z) : M kstate unit :=
  sb ← gets k_sb;
  bp ← bread dev (BBLOCK b sb);
  d ← bdata bp;
  let bi := b mod BPB in
  if negb (bit_set d bi) then panic "freeing free block" else
  bput bp (clear_bit d bi) ;;
  log_write bp ;;
  brelse bp.

(** ** Specifications *)

(** The block is marked in use in the bitmap of the contents [V]. *)
Definition used (sb : superblock) (V : blk -> list Z) (b : Z) : bool :=
  bit_set (V (ROOTDEV, BBLOCK b sb)) (b mod BPB).

(** The layout the superblock describes: the bitmap and the inode blocks are
    outside the log, on the disk and apart from each other. *)
Record sb_ok (sb : superblock) (l : log) : Prop := {
  so_size : 0 < sb_size sb <= FSSIZE;
  so_bmap : forall b, 0 <= b < sb_size sb ->
    0 <= b / BPB + sb_bmapstart sb < FSSIZE /\ home l (b / BPB + sb_bmapstart sb);
  so_inodes : forall inum, 0 <= inum < sb_ninodes sb ->
    0 <= inum / IPB + sb_inodestart sb < FSSIZE /\ home l (inum / IPB + sb_inodestart sb);
  so_apart : forall b inum, 0 <= b < sb_size sb -> 0 <= inum < sb_ninodes sb ->
    b / BPB + sb_bmapstart sb <> inum / IPB + sb_inodestart sb
}.

(** A block that can hold the contents of a file: not in the log, the bitmap
    or the inode blocks, and not block 0. *)
Record data_block (sb : superblock) (l : log) (b : Z) : Prop := {
  db_home : home l b;
  db_pos : 0 < b;
  db_bmap : forall b', 0 <= b' < sb_size sb -> b <> BBLOCK b' sb;
  db_inode : forall inum, 0 <= inum < sb_ninodes sb -> b <> IBLOCK inum sb
}.

Definition a_balloc (sb : superblock) (b : Z) (V : blk -> list Z) : blk -> list Z :=
  <[(ROOTDEV, b) := zero_block]>
    (<[(ROOTDEV, BBLOCK b sb) := set_bit (V (ROOTDEV, BBLOCK b sb)) (b mod BPB)]> V).

Definition a_bfree (sb : superblock) (b : Z) (V : blk -> list Z) : blk -> list Z :=
  <[(ROOTDEV, BBLOCK b sb) := clear_bit (V (ROOTDEV, BBLOCK b sb)) (b mod BPB)]> V.

Lemma sb_ok_same sb l l' : same_txn l l' -> sb_ok sb l -> sb_ok sb l'.
Proof.
  intros S [Hs Hm Hi Ha]. split; [done|..|done].
  - intros x Hx. destruct (Hm x Hx) as [? ?]. split; [done|]. by apply (same_txn_home l l' _ S).
  - intros x Hx. destruct (Hi x Hx) as [? ?]. split; [done|]. by apply (same_txn_home l l' _ S).
Qed.
Lemma data_block_same sb l l' b : same_txn l l' -> data_block sb l b -> data_block sb l' b.
Proof. intros S []. split; try done. by apply (same_txn_home l l' _ S). Qed.

Lemma length_set_bit d i : length (set_bit d i) = length d.
Proof. apply length_insert. Qed.
Lemma length_clear_bit d i : length (clear_bit d i) = length d.
Proof. apply length_insert. Qed.

Lemma sb_bblock sb l b : sb_ok sb l -> 0 <= b < sb_size sb ->
  BBLOCK b sb = b / BPB + sb_bmapstart sb /\ 0 <= BBLOCK b sb < FSSIZE /\ home l (BBLOCK b sb).
Proof.
  intros H Hb. destruct (so_bmap _ _ H b Hb) as [H1 H2].
  assert (BBLOCK b sb = b / BPB + sb_bmapstart sb) as -> by (apply u32_small; klia). done.
Qed.

(** *** Bits *)
Lemma land_mask_pow x i : 0 <= i -> Z.land x (Z.shiftl 1 i) = 0 <-> Z.testbit x i = false.
Proof.
  intros Hi. rewrite Z.shiftl_1_l. split.
  - intros H. apply (f_equal (fun z => Z.testbit z i)) in H.
    rewrite Z.land_spec, Z.pow2_bits_true, Z.bits_0, andb_true_r in H by done. done.
  - intros H. apply Z.bits_inj'. intros n Hn. rewrite Z.land_spec, Z.bits_0, Z.pow2_bits_eqb by done.
    destruct (Z.eqb_spec i n) as [->|]; [by rewrite H|apply andb_false_r].
Qed.

Lemma bit_set_testbit d i : bit_set d i = Z.testbit (byte_at d (i / 8)) (i mod 8).
Proof.
  unfold bit_set, bit_mask. pose proof (Z.mod_pos_bound i 8 ltac:(lia)) as Hm.
  pose proof (land_mask_pow (byte_at d (i / 8)) (i mod 8) ltac:(lia)) as H.
  destruct (Z.eqb_spec (Z.land (byte_at d (i / 8)) (1 ≪ (i mod 8))) 0) as [E|E]; simpl.
  - symmetry. by apply H.
  - destruct (Z.testbit _ _); [done|]. destruct E. by apply H.
Qed.

Lemma byte_at_insert d i j v : 0 <= i -> 0 <= j -> (Z.to_nat i < length d)%nat ->
  byte_at (<[Z.to_nat i := v]> d) j = if i =? j then v else byte_at d j.
Proof.
  intros Hi Hj Hl. unfold byte_at. destruct (Z.eqb_spec i j) as [->|Hne].
  - by rewrite list_lookup_insert_eq.
  - rewrite list_lookup_insert_ne by lia. done.
Qed.

Lemma bit_set_set d i j : 0 <= i -> 0 <= j -> (Z.to_nat (i / 8) < length d)%nat ->
  bit_set (set_bit d i) j = (i =? j) || bit_set d j.
Proof.
  intros Hi Hj Hl. rewrite !bit_set_testbit. unfold set_bit.
  rewrite byte_at_insert by (try done; apply Z.div_pos; lia).
  pose proof (Z.mod_pos_bound i 8 ltac:(lia)). pose proof (Z.mod_pos_bound j 8 ltac:(lia)).
  destruct (Z.eqb_spec (i / 8) (j / 8)) as [E|E].
  - rewrite E. unfold bit_mask. rewrite Z.lor_spec, Z.shiftl_1_l, Z.pow2_bits_eqb by lia.
    destruct (Z.eqb_spec i j) as [->|Hne]; [by rewrite Z.eqb_refl, orb_true_r|].
    destruct (Z.eqb_spec (i mod 8) (j mod 8)) as [E2|_]; [|by rewrite orb_false_r].
    destruct Hne. rewrite (Z.div_mod i 8), (Z.div_mod j 8) by lia. congruence.
  - destruct (Z.eqb_spec i j) as [->|]; [done|]. done.
Qed.

Lemma bit_set_clear d i j : 0 <= i -> 0 <= j -> (Z.to_nat (i / 8) < length d)%nat ->
  bit_set (clear_bit d i) j = negb (i =? j) && bit_set d j.
Proof.
  intros Hi Hj Hl. rewrite !bit_set_testbit. unfold clear_bit.
  rewrite byte_at_insert by (try done; apply Z.div_pos; lia).
  pose proof (Z.mod_pos_bound i 8 ltac:(lia)). pose proof (Z.mod_pos_bound j 8 ltac:(lia)).
  destruct (Z.eqb_spec (i / 8) (j / 8)) as [E|E].
  - rewrite E. unfold bit_mask. rewrite Z.ldiff_spec, Z.shiftl_1_l, Z.pow2_bits_eqb by lia.
    destruct (Z.eqb_spec i j) as [->|Hne]; [by rewrite Z.eqb_refl, andb_false_r|].
    destruct (Z.eqb_spec (i mod 8) (j mod 8)) as [E2|_]; [|by rewrite andb_true_r].
    destruct Hne. rewrite (Z.div_mod i 8), (Z.div_mod j 8) by lia. congruence.
  - destruct (Z.eqb_spec i j) as [->|]; [done|]. done.
Qed.

Lemma scan_free_Some fuel d size b bi r :
  scan_free fuel d size b bi = Some r ->
  bi <= r < bi + Z.of_nat fuel /\ b + r < size /\ bit_set d r = false /\
  forall j, bi <= j < r -> bit_set d j = true.
Proof.
  revert bi. induction fuel as [|fuel IH]; intros bi H; simpl in H; [done|].
  destruct (Z.leb_spec size (b + bi)); [done|]. destruct (bit_set d bi) eqn:E.
  - destruct (IH _ H) as (? & ? & ? & Hj). split_and!; try done; try lia.
    intros j Hj'. destruct (decide (j = bi)) as [->|]; [done|]. apply Hj. lia.
  - simplify_eq. split_and!; try done; try lia.
Qed.

Lemma scan_free_None fuel d size b bi :
  scan_free fuel d size b bi = None ->
  forall j, bi <= j < bi + Z.of_nat fuel -> b + j < size -> bit_set d j = true.
Proof.
  revert bi. induction fuel as [|fuel IH]; intros bi H j Hj Hs; [lia|]. simpl in H.
  destruct (Z.leb_spec size (b + bi)); [lia|]. destruct (bit_set d bi) eqn:E; [|done].
  destruct (decide (j = bi)) as [->|]; [done|]. apply (IH _ H); lia.
Qed.

(** Storing into a block of the root device and logging it. *)
Lemma fx_store s c l i b d (Q : unit -> kstate -> Prop) :
  fsx s (a_bread i (ROOTDEV, b) c) l -> c_held c !! i = None -> home l b -> lh_n l < log_size l - 1 ->
  length d = Z.to_nat BSIZE ->
  (forall s' c' l', fs_next s c l [b] (<[(ROOTDEV, b) := d]> (c_view c)) s' c' l' -> Q tt s') ->
  wp (bput i d ;; log_write i ;; brelse i) Q s.
Proof.
  intros F Hi Hh Hn Hd HQ. wp_step. eapply fx_bput; [exact F|apply bread_held|done|]. intros s1 F1 G1.
  wp_step. eapply fx_log_write; [exact F1|apply bread_held|done|done|]. intros s2 F2 G2 Hs Hn2.
  eapply fx_brelse; [exact F2|apply bread_held|left; simpl; by rewrite fn_lookup_insert|]. intros s3 F3 G3.
  eapply (HQ s3 (mk_cache (<[(ROOTDEV, b) := d]> (c_view c)) (<[(ROOTDEV, b) := true]> (c_dirty c)) (c_held c) (c_disk c) (c_writes c)) (log_record b l)).
  split; try done; [| |frames].
  2:{ intros x Hx. apply Hn2 in Hx as [?| ->]; [by left|right; by constructor]. }
  destruct F3 as [[R3 ? ? ? ?] ? ?]. split; [split; try done|done|done].
  eapply rep_ext; [exact R3|done..| |done|done]. simpl. by rewrite delete_insert_id.
Qed.

(** Reading a block of the root device and releasing it unchanged. *)
Lemma fx_release s c l i b s1 (Q : unit -> kstate -> Prop) :
  fsx s1 (a_bread i (ROOTDEV, b) c) l -> c_held c !! i = None ->
  c_dirty c (ROOTDEV, b) = true \/ dread (c_disk c) (ROOTDEV, b) = c_view c (ROOTDEV, b) ->
  bio_frame s s1 ->
  (forall s', fs_next s c l [] (c_view c) s' c l -> Q tt s') -> wp (brelse i) Q s1.
Proof.
  intros F Hi Hs G HQ. eapply fx_brelse; [exact F|apply bread_held|done|]. intros s2 F2 G2. apply HQ.
  split; try done; [|intros x Hx; by left|frames]. destruct F2 as [[R2 ? ? ? ?] ? ?]. split; [split; try done|done|done].
  by eapply rep_peek.
Qed.

Lemma bzero_spec s c l b :
  fsx s c l -> 0 <= b < FSSIZE -> home l b -> not_in c b -> room c l -> lh_n l < log_size l - 1 ->
  wp (bzero ROOTDEV b)
     (fun _ s' => exists c' l', fs_next s c l [b] (<[(ROOTDEV, b) := zero_block]> (c_view c)) s' c' l') s.
Proof.
  intros F Hb Hh Hn Hr Hl. unfold bzero. wp_step. eapply fx_bread; [done..|]. intros i s1 Hi F1 G1 _.
  change (ROOTDEV =? ROOTDEV) with true. cbv iota.
  eapply fx_store; [exact F1|done..|apply length_replicate|]. intros s2 c2 l2 N2. exists c2, l2.
  destruct N2. split; try done. frames.
Qed.

(** The bitmap marks every block that is not data as used. *)
Definition bitmap_ok (sb : superblock) (l : log) (V : blk -> list Z) : Prop :=
  forall b, 0 <= b < sb_size sb -> used sb V b = false -> data_block sb l b.

Lemma used_range q j : 0 <= q -> 0 <= j < BPB -> (q * BPB + j) / BPB = q /\ (q * BPB + j) mod BPB = j.
Proof.
  intros Hq Hj. rewrite Z.add_comm, Z.div_add, Z.mod_add by klia.
  rewrite Z.div_small, Z.mod_small by done. lia.
Qed.

(** What [balloc] needs of the state: none of the blocks it may touch is
    held, and the log and the cache have room. *)
Record balloc_pre (sb : superblock) (s : kstate) (c : cache) (l : log) : Prop := {
  bp_fsx : fsx s c l;
  bp_sb : k_sb s = sb;
  bp_ok : sb_ok sb l;
  bp_bitmap : bitmap_ok sb l (c_view c);
  bp_map : forall b, 0 <= b < sb_size sb -> not_in c (BBLOCK b sb);
  bp_free : forall b, 0 <= b < sb_size sb -> used sb (c_view c) b = false -> not_in c b;
  bp_log : lh_n l + 2 <= log_size l - 1;
  bp_room : lh_n l + 1 + Z.of_nat (size (c_held c)) < NBUF
}.

Lemma BBLOCK_base sb q j : 0 <= q -> 0 <= j < BPB -> BBLOCK (q * BPB + j) sb = BBLOCK (q * BPB) sb.
Proof.
  intros Hq Hj. unfold BBLOCK. destruct (used_range q j Hq Hj) as [-> _].
  by rewrite Z.div_mul by klia.
Qed.

Lemma used_base sb V q j : 0 <= q -> 0 <= j < BPB ->
  used sb V (q * BPB + j) = bit_set (V (ROOTDEV, BBLOCK (q * BPB) sb)) j.
Proof. intros Hq Hj. unfold used. by rewrite BBLOCK_base, (proj2 (used_range q j Hq Hj)). Qed.

(** The branch that has found a free bit. *)
Lemma balloc_found s c l sb q bi i s1 :
  balloc_pre sb s c l -> 0 <= q -> 0 <= bi < BPB -> q * BPB + bi < sb_size sb ->
  used sb (c_view c) (q * BPB + bi) = false ->
  c_held c !! i = None -> fsx s1 (a_bread i (ROOTDEV, BBLOCK (q * BPB) sb) c) l -> bio_frame s s1 ->
  wp (bput i (set_bit (c_view c (ROOTDEV, BBLOCK (q * BPB) sb)) bi) ;; log_write i ;; brelse i ;;
      bzero ROOTDEV (q * BPB + bi) ;; mret (q * BPB + bi))
     (fun b s' => b = q * BPB + bi /\ exists c' l', fs_next s c l [BBLOCK b sb; b] (a_balloc sb b (c_view c)) s' c' l') s1.
Proof.
  intros P Hq Hbi Hlt Hu Hi F1 G1. set (b := q * BPB + bi) in *.
  assert (0 <= b < sb_size sb) as Hb by klia. pose proof (bp_log _ _ _ _ P) as Hlog. pose proof (bp_room _ _ _ _ P) as Hroom.
  destruct (sb_bblock sb l b (bp_ok _ _ _ _ P) Hb) as (_ & _ & Hhm).
  destruct (bp_bitmap _ _ _ _ P b Hb Hu) as [Hh _ Hnb _]. pose proof (so_size _ _ (bp_ok _ _ _ _ P)).
  assert (BBLOCK b sb = BBLOCK (q * BPB) sb) as Eb by (by apply BBLOCK_base).
  rewrite <- Eb in *. 
  apply wp_seq3.
  eapply fx_store; [exact F1|done|done|lia| |].
  { rewrite length_set_bit. by apply (fx_length s c l), P. }
  intros s2 c2 l2 N2. assert (fs_next s c l [BBLOCK b sb] (<[(ROOTDEV, BBLOCK b sb):=set_bit (c_view c (ROOTDEV, BBLOCK b sb)) bi]> (c_view c)) s2 c2 l2) as N2'.
  { destruct N2. split; try done. frames. }
  pose proof (fs_next_n _ _ _ _ _ _ _ _ (tx_wf _ _ _ (fx_txn _ _ _ (bp_fsx _ _ _ _ P))) N2') as Hn2. simpl in Hn2. destruct (fn_same _ _ _ _ _ _ _ _ N2') as (_ & _ & Sz & _).
  wp_call (bzero_spec s2 c2 l2 b).
  - apply N2.
  - lia.
  - apply (same_txn_home l); [apply N2|done].
  - intros j. rewrite (fn_held _ _ _ _ _ _ _ _ N2). by apply (bp_free _ _ _ _ P).
  - unfold room. rewrite (fn_held _ _ _ _ _ _ _ _ N2). lia.
  - rewrite Sz. lia.
  - intros _ s3 (c3 & l3 & N3). wp_step. split; [done|]. exists c3, l3.
    eapply fs_next_mono; [eapply fs_next_trans; [exact N2'|exact N3]|done|]. intros k.
    unfold a_balloc. replace (b mod BPB) with bi by (unfold b; by rewrite (proj2 (used_range q bi Hq Hbi))).
    destruct (decide (k = (ROOTDEV, b))) as [->|Hne]; [by rewrite !fn_lookup_insert|].
    rewrite !(fn_lookup_insert_ne _ (ROOTDEV, b)) by done. symmetry. apply N2.
Qed.

Lemma balloc_loop_spec sb fuel : forall s c l q b0,
  balloc_pre sb s c l -> 0 <= q -> q * BPB <= b0 < sb_size sb -> used sb (c_view c) b0 = false ->
  (forall b, 0 <= b < q * BPB -> used sb (c_view c) b = true) ->
  b0 < q * BPB + Z.of_nat fuel * BPB ->
  wp (balloc_loop fuel ROOTDEV (q * BPB)) (fun b s' =>
    0 <= b < sb_size sb /\ used sb (c_view c) b = false /\ (forall b', 0 <= b' < b -> used sb (c_view c) b' = true) /\
    exists c' l', fs_next s c l [BBLOCK b sb; b] (a_balloc sb b (c_view c)) s' c' l') s.
Proof.
  induction fuel as [|fuel IH]; intros s c l q b0 P Hq Hb0 Hu Hall Hf; [klia|].
  cbn [balloc_loop]. wp_steps. rewrite (bp_sb _ _ _ _ P).
  destruct (Z.leb_spec (sb_size sb) (q * BPB)); [lia|].
  assert (0 <= q * BPB < sb_size sb) as Hqr by klia.
  destruct (sb_bblock sb l (q * BPB) (bp_ok _ _ _ _ P) Hqr) as (_ & Hd & Hh).
  pose proof (bp_room _ _ _ _ P) as Hroom. wp_step.
  eapply fx_bread; [apply P|done|by apply (bp_map _ _ _ _ P)|unfold room; lia|]. intros i s1 Hi F1 G1 Hsync.
  wp_step. eapply fx_bdata; [exact F1|apply bread_held|]. cbn [a_bread c_view].
  destruct (scan_free _ _ _ _ _) as [bi|] eqn:E.
  - destruct (scan_free_Some _ _ _ _ _ _ E) as (Hbi & Hlt & Hbit & Hbelow).
    rewrite Z2Nat.id in Hbi by klia.
    eapply wp_mono; [apply (balloc_found s c l sb q bi i s1); try done|].
    + rewrite used_base; [done|done|lia].
    + intros b s' [-> N]. split_and!; [lia|lia|rewrite used_base; [done|done|lia]| |done].
      intros b' Hb'. destruct (decide (b' < q * BPB)) as [?|?]; [apply Hall; lia|].
      replace b' with (q * BPB + (b' - q * BPB)) by lia. rewrite used_base by lia. apply Hbelow. lia.
  - pose proof (scan_free_None _ _ _ _ _ E) as Hnone. rewrite Z2Nat.id in Hnone by klia.
    wp_step. eapply fx_release; [exact F1|done|done|exact G1|]. intros s2 N2.
    replace (q * BPB + BPB) with ((q + 1) * BPB) by lia.
    assert (forall j, 0 <= j < BPB -> q * BPB + j < sb_size sb -> used sb (c_view c) (q * BPB + j) = true) as Hq'.
    { intros j Hj Hlt. rewrite used_base by done. apply Hnone; lia. }
    assert ((q + 1) * BPB <= b0) as Hge.
    { destruct (decide ((q + 1) * BPB <= b0)) as [?|Hn]; [done|].
      pose proof (Hq' (b0 - q * BPB) ltac:(lia) ltac:(lia)) as Hx.
      replace (q * BPB + (b0 - q * BPB)) with b0 in Hx by lia. congruence. }
    assert (balloc_pre sb s2 c l) as P2.
    { destruct P. split; try done; [apply N2|]. rewrite (fn_frame _ _ _ _ _ _ _ _ N2). done. }
    eapply wp_mono; [apply (IH s2 c l (q + 1) b0 P2); try lia; try done|].
    + intros b Hb. destruct (decide (b < q * BPB)) as [?|?]; [apply Hall; lia|].
      replace b with (q * BPB + (b - q * BPB)) by lia. apply Hq'; lia.
    + intros b s' (? & ? & ? & c' & l' & N). do 3 (split; [done|]). exists c', l'.
      apply (fs_next_trans _ _ _ [] _ _ _ _ [_; _] _ _ _ _ N2 N).
Qed.

Lemma balloc_spec sb s c l b0 :
  balloc_pre sb s c l -> 0 <= b0 < sb_size sb -> used sb (c_view c) b0 = false ->
  wp (balloc ROOTDEV) (fun b s' =>
    0 <= b < sb_size sb /\ used sb (c_view c) b = false /\ (forall b', 0 <= b' < b -> used sb (c_view c) b' = true) /\
    exists c' l', fs_next s c l [BBLOCK b sb; b] (a_balloc sb b (c_view c)) s' c' l') s.
Proof.
  intros P Hb0 Hu. unfold balloc. wp_steps. rewrite (bp_sb _ _ _ _ P).
  apply (balloc_loop_spec sb _ s c l 0 b0); try done; [intros; lia|].
  pose proof (Z.mul_succ_div_gt (sb_size sb) BPB ltac:(klia)) as Hgt.
  pose proof (Z.div_pos (sb_size sb) BPB ltac:(lia) ltac:(klia)) as Hpos.
  rewrite Z2Nat.id by lia. unfold Z.succ in Hgt. revert Hgt Hpos. generalize (sb_size sb / BPB). intros x. klia.
Qed.

(** *** A full disk *)
Lemma balloc_loop_full sb fuel : forall s c l q,
  balloc_pre sb s c l -> 0 <= q -> (forall b, 0 <= b < sb_size sb -> used sb (c_view c) b = true) ->
  (1 <= fuel)%nat -> sb_size sb <= q * BPB + Z.of_nat fuel * BPB - BPB ->
  balloc_loop fuel ROOTDEV (q * BPB) s = Panic "balloc: out of blocks".
Proof.
  induction fuel as [|fuel IH]; intros s c l q P Hq Hall H1 Hf; [lia|]. cbn [balloc_loop].
  run_steps. rewrite (bp_sb _ _ _ _ P). destruct (Z.leb_spec (sb_size sb) (q * BPB)) as [|Hlt]; [done|].
  assert (0 <= q * BPB < sb_size sb) as Hqr by klia.
  destruct (sb_bblock sb l (q * BPB) (bp_ok _ _ _ _ P) Hqr) as (_ & Hd & Hh).
  pose proof (bp_room _ _ _ _ P) as Hroom. apply wp_panic.
  eapply fx_bread; [apply P|done|by apply (bp_map _ _ _ _ P)|unfold room; lia|]. intros i s1 Hi F1 G1 Hsync.
  apply wp_panic. eapply fx_bdata; [exact F1|apply bread_held|]. cbn [a_bread c_view].
  destruct (scan_free _ _ _ _ _) as [bi|] eqn:E.
  - destruct (scan_free_Some _ _ _ _ _ _ E) as (Hbi & Hlt' & Hbit & _). rewrite Z2Nat.id in Hbi by klia.
    rewrite <- (used_base sb (c_view c) q bi) in Hbit by lia. rewrite Hall in Hbit; [done|klia].
  - apply wp_panic. eapply fx_release; [exact F1|done|done|exact G1|]. intros s2 N2.
    replace (q * BPB + BPB) with ((q + 1) * BPB) by lia. apply (IH s2 c l); try done; [|lia|klia|lia].
    destruct P. split; try done; [apply N2|]. rewrite (fn_frame _ _ _ _ _ _ _ _ N2). done.
Qed.

(** *** Freeing *)
Lemma bfree_spec sb s c l b :
  fsx s c l -> k_sb s = sb -> sb_ok sb l -> 0 <= b < sb_size sb -> not_in c (BBLOCK b sb) ->
  room c l -> lh_n l < log_size l - 1 -> used sb (c_view c) b = true ->
  wp (bfree ROOTDEV b) (fun _ s' => exists c' l', fs_next s c l [BBLOCK b sb] (a_bfree sb b (c_view c)) s' c' l') s.
Proof.
  intros F Hsb Hok Hb Hn Hr Hl Hu. destruct (sb_bblock sb l b Hok Hb) as (_ & Hd & Hh).
  unfold bfree. wp_steps. rewrite Hsb. eapply fx_bread; [done..|]. intros i s1 Hi F1 G1 _. wp_step.
  eapply fx_bdata; [exact F1|apply bread_held|]. cbn [a_bread c_view].
  unfold used in Hu. rewrite Hu. cbn [negb].
  eapply fx_store; [exact F1|done..| |].
  { rewrite length_clear_bit. by apply (fx_length s c l). }
  intros s2 c2 l2 N2. exists c2, l2. destruct N2. split; try done. frames.
Qed.

Lemma bfree_unused sb s c l b :
  fsx s c l -> k_sb s = sb -> sb_ok sb l -> 0 <= b < sb_size sb -> not_in c (BBLOCK b sb) ->
  room c l -> used sb (c_view c) b = false ->
  bfree ROOTDEV b s = Panic "freeing free block".
Proof.
  intros F Hsb Hok Hb Hn Hr Hu. destruct (sb_bblock sb l b Hok Hb) as (_ & Hd & Hh).
  unfold bfree. run_steps. rewrite Hsb. apply wp_panic. eapply fx_bread; [done..|]. intros i s1 Hi F1 G1 _.
  apply wp_panic. eapply fx_bdata; [exact F1|apply bread_held|]. cbn [a_bread c_view].
  unfold used in Hu. by rewrite Hu.
Qed.

(** *** The bitmap as a set of blocks *)
Lemma bblock_inj sb b b' : 0 <= b -> 0 <= b' ->
  0 <= b / BPB + sb_bmapstart sb < 2 ^ 32 -> 0 <= b' / BPB + sb_bmapstart sb < 2 ^ 32 ->
  BBLOCK b sb = BBLOCK b' sb -> b mod BPB = b' mod BPB -> b = b'.
Proof.
  intros H0 H0' Hr Hr' E Em. unfold BBLOCK in E. rewrite !u32_small in E by done.
  assert (0 < BPB) as Hp by klia. rewrite (Z.div_mod b BPB), (Z.div_mod b' BPB) by lia. rewrite Em. f_equal. f_equal. lia.
Qed.

Lemma bit_in_block b : 0 <= b -> (Z.to_nat (b mod BPB / 8) < Z.to_nat BSIZE)%nat.
Proof.
  intros Hb. pose proof (Z.mod_pos_bound b BPB ltac:(klia)) as Hm.
  assert (b mod BPB / 8 < BSIZE) by (apply Z.div_lt_upper_bound; klia).
  pose proof (Z.div_pos (b mod BPB) 8 ltac:(lia) ltac:(lia)). lia.
Qed.

Lemma used_insert_other sb V k d b : k <> (ROOTDEV, BBLOCK b sb) -> used sb (<[k := d]> V) b = used sb V b.
Proof. intros Hne. unfold used. by rewrite fn_lookup_insert_ne. Qed.

Section bitmap.
Context (sb : superblock) (l : log) (V : blk -> list Z) (b b' : Z).
Context (Hok : sb_ok sb l) (Hb : 0 <= b < sb_size sb) (Hb' : 0 <= b' < sb_size sb).
Context (HV : length (V (ROOTDEV, BBLOCK b sb)) = Z.to_nat BSIZE).

Lemma used_mark :
  used sb (<[(ROOTDEV, BBLOCK b sb) := set_bit (V (ROOTDEV, BBLOCK b sb)) (b mod BPB)]> V) b' =
  (b =? b') || used sb V b'.
Proof using Hok Hb Hb' HV.
  destruct (so_bmap _ _ Hok b Hb) as [Hr _], (so_bmap _ _ Hok b' Hb') as [Hr' _].
  pose proof (bit_in_block b ltac:(lia)) as Hlt. unfold used.
  pose proof (Z.mod_pos_bound b BPB ltac:(klia)). pose proof (Z.mod_pos_bound b' BPB ltac:(klia)).
  destruct (decide (BBLOCK b' sb = BBLOCK b sb)) as [E|E].
  - rewrite E, fn_lookup_insert, bit_set_set by lia. f_equal.
    destruct (Z.eqb_spec b b') as [->|Hne]; [by rewrite Z.eqb_refl|].
    destruct (Z.eqb_spec (b mod BPB) (b' mod BPB)) as [Em|]; [|done]. destruct Hne.
    eapply bblock_inj; try done; klia.
  - rewrite fn_lookup_insert_ne by congruence. destruct (Z.eqb_spec b b') as [->|]; done.
Qed.

Lemma used_unmark : used sb (a_bfree sb b V) b' = negb (b =? b') && used sb V b'.
Proof using Hok Hb Hb' HV.
  destruct (so_bmap _ _ Hok b Hb) as [Hr _], (so_bmap _ _ Hok b' Hb') as [Hr' _].
  pose proof (bit_in_block b ltac:(lia)) as Hlt. unfold used, a_bfree.
  pose proof (Z.mod_pos_bound b BPB ltac:(klia)). pose proof (Z.mod_pos_bound b' BPB ltac:(klia)).
  destruct (decide (BBLOCK b' sb = BBLOCK b sb)) as [E|E].
  - rewrite E, fn_lookup_insert, bit_set_clear by lia. f_equal. f_equal.
    destruct (Z.eqb_spec b b') as [->|Hne]; [by rewrite Z.eqb_refl|].
    destruct (Z.eqb_spec (b mod BPB) (b' mod BPB)) as [Em|]; [|done]. destruct Hne.
    eapply bblock_inj; try done; klia.
  - rewrite fn_lookup_insert_ne by congruence. destruct (Z.eqb_spec b b') as [->|]; done.
Qed.

Lemma used_balloc :
  (forall x, 0 <= x < sb_size sb -> b <> BBLOCK x sb) -> used sb (a_balloc sb b V) b' = (b =? b') || used sb V b'.
Proof using Hok Hb Hb' HV.
  intros Hn. unfold a_balloc. rewrite used_insert_other; [apply used_mark|].
  intros [=]. by apply (Hn b').
Qed.
End bitmap.

(** ** Theorems *)

(** C21: [balloc] returns the lowest free block, zeroed; it is then marked in
    use, no other block's mark changes, and no block but it and its bitmap
    block changes. *)
Theorem balloc_fresh sb s c l b0 :
  balloc_pre sb s c l -> 0 <= b0 < sb_size sb -> used sb (c_view c) b0 = false ->
  wp (balloc ROOTDEV) (fun b s' => exists c' l', fsx s' c' l' /\
    0 <= b < sb_size sb /\ used sb (c_view c) b = false /\
    (forall b', 0 <= b' < b -> used sb (c_view c) b' = true) /\
    c_view c' (ROOTDEV, b) = zero_block /\
    (forall b', 0 <= b' < sb_size sb -> used sb (c_view c') b' = (b =? b') || used sb (c_view c) b') /\
    (forall k, k <> (ROOTDEV, b) -> k <> (ROOTDEV, BBLOCK b sb) -> c_view c' k = c_view c k)) s.
Proof.
  intros P Hb0 Hu. eapply wp_mono; [by eapply balloc_spec|].
  intros b s' (Hb & Hub & Hleast & c' & l' & N). exists c', l'.
  pose proof (fn_view _ _ _ _ _ _ _ _ N) as HV. destruct (bp_bitmap _ _ _ _ P b Hb Hub) as [_ _ Hnb _].
  split_and!; [apply N|lia|lia|done|done| | |].
  - by rewrite HV; unfold a_balloc; rewrite fn_lookup_insert.
  - intros b' Hb'. rewrite <- (used_balloc sb l (c_view c) b b' (bp_ok _ _ _ _ P) Hb Hb'); [|apply (fx_length s c l), P|done].
    unfold used. by rewrite HV.
  - intros k H1 H2. rewrite HV. unfold a_balloc. by rewrite !fn_lookup_insert_ne.
Qed.

(** With every block in use, [balloc] panics. *)
Theorem balloc_full sb s c l :
  balloc_pre sb s c l -> (forall b, 0 <= b < sb_size sb -> used sb (c_view c) b = true) ->
  balloc ROOTDEV s = Panic "balloc: out of blocks".
Proof.
  intros P Hall. unfold balloc. run_steps. rewrite (bp_sb _ _ _ _ P).
  pose proof (so_size _ _ (bp_ok _ _ _ _ P)) as Hs.
  pose proof (Z.mul_succ_div_gt (sb_size sb) BPB ltac:(klia)) as Hgt.
  pose proof (Z.div_pos (sb_size sb) BPB ltac:(lia) ltac:(klia)) as Hpos.
  apply (balloc_loop_full sb _ s c l 0 P); [lia|done|lia|].
  rewrite Z2Nat.id by lia. unfold Z.succ in Hgt. revert Hgt Hpos. generalize (sb_size sb / BPB). intros x. klia.
Qed.

Lemma clear_set_bit d i : bit_set d i = false -> clear_bit (set_bit d i) i = d.
Proof.
  intros Hb. unfold clear_bit, set_bit. rewrite list_insert_insert_eq.
  destruct (decide (Z.to_nat (i / 8) < length d)%nat) as [Hl|Hl].
  2:{ apply list_insert_ge. lia. }
  apply list_insert_id. unfold byte_at. rewrite list_lookup_insert_eq by done. simpl.
  apply lookup_lt_is_Some in Hl as [x Hx]. rewrite Hx. f_equal. simpl.
  unfold bit_set, byte_at in Hb. rewrite Hx in Hb. simpl in Hb.
  apply negb_false_iff, Z.eqb_eq in Hb. apply Z.bits_inj'. intros n Hn.
  apply (f_equal (fun z => Z.testbit z n)) in Hb. rewrite Z.land_spec, Z.bits_0 in Hb.
  rewrite Z.ldiff_spec, Z.lor_spec. destruct (Z.testbit x n), (Z.testbit (bit_mask i) n); done.
Qed.

(** Freeing the block just allocated restores the contents of every other
    block, the bitmap included, and freeing it a second time panics. *)
Theorem balloc_bfree sb s c l b0 :
  balloc_pre sb s c l -> lh_n l + 3 <= log_size l - 1 -> lh_n l + 3 + Z.of_nat (size (c_held c)) < NBUF ->
  0 <= b0 < sb_size sb -> used sb (c_view c) b0 = false ->
  wp (b ← balloc ROOTDEV; bfree ROOTDEV b ;; mret b) (fun b s' => exists c' l', fsx s' c' l' /\
    (forall k, k <> (ROOTDEV, b) -> c_view c' k = c_view c k) /\
    bfree ROOTDEV b s' = Panic "freeing free block") s.
Proof.
  intros P Hlog Hroom Hb0 Hu. wp_call (balloc_spec sb s c l b0 P Hb0 Hu).
  intros b s1 (Hb & Hub & _ & c1 & l1 & N1). pose proof (bp_ok _ _ _ _ P) as Hok.
  destruct (bp_bitmap _ _ _ _ P b Hb Hub) as [_ _ Hnb _].
  assert (sb_ok sb l1) as Hok1.
  { eapply sb_ok_same; [apply N1|done]. }
  assert (not_in c1 (BBLOCK b sb)) as Hn1
    by (intros j; rewrite (fn_held _ _ _ _ _ _ _ _ N1); by apply (bp_map _ _ _ _ P)).
  assert (k_sb s1 = sb) as Hsb1 by (rewrite (fn_frame _ _ _ _ _ _ _ _ N1); apply P).
  pose proof (fs_next_n _ _ _ _ _ _ _ _ (tx_wf _ _ _ (fx_txn _ _ _ (bp_fsx _ _ _ _ P))) N1) as Hn. simpl in Hn. destruct (fn_same _ _ _ _ _ _ _ _ N1) as (_ & _ & Sz & _).
  assert (used sb (c_view c1) b = true) as Hu1.
  { unfold used. rewrite (fn_view _ _ _ _ _ _ _ _ N1). fold (used sb (a_balloc sb b (c_view c)) b).
    rewrite (used_balloc sb l) by (try done; apply (fx_length s c l), P). by rewrite Z.eqb_refl. }
  wp_call (bfree_spec sb s1 c1 l1 b).
  all: try done; try apply N1.
  { unfold room. rewrite (fn_held _ _ _ _ _ _ _ _ N1). lia. }
  { rewrite Sz. lia. }
  intros _ s2 (c2 & l2 & N2). wp_step. exists c2, l2. split; [apply N2|]. split.
  - intros k Hk. rewrite (fn_view _ _ _ _ _ _ _ _ N2). unfold a_bfree.
    destruct (decide (k = (ROOTDEV, BBLOCK b sb))) as [->|Hne].
    + rewrite fn_lookup_insert, (fn_view _ _ _ _ _ _ _ _ N1). unfold a_balloc.
      rewrite fn_lookup_insert_ne by done. rewrite fn_lookup_insert. by apply clear_set_bit.
    + rewrite fn_lookup_insert_ne by done. rewrite (fn_view _ _ _ _ _ _ _ _ N1). unfold a_balloc.
      by rewrite !fn_lookup_insert_ne.
  - pose proof (fs_next_n _ _ _ _ _ _ _ _ (tx_wf _ _ _ (fx_txn _ _ _ (fn_fsx _ _ _ _ _ _ _ _ N1))) N2) as Hn2. simpl in Hn2.
    apply (bfree_unused sb s2 c2 l2 b); try done; [apply N2| | | | |].
    + by rewrite (fn_frame _ _ _ _ _ _ _ _ N2).
    + eapply sb_ok_same; [apply N2|done].
    + intros j. rewrite (fn_held _ _ _ _ _ _ _ _ N2). apply Hn1.
    + unfold room. rewrite (fn_held _ _ _ _ _ _ _ _ N2), (fn_held _ _ _ _ _ _ _ _ N1). lia.
    + unfold used. rewrite (fn_view _ _ _ _ _ _ _ _ N2). fold (used sb (a_bfree sb b (c_view c1)) b).
      rewrite (used_unmark sb l1); try done; [by rewrite Z.eqb_refl|]. by apply (fx_length s1 c1 l1), N1.
Qed.
End alloc.
