(* ===== verification/Inode.v ===== *)
(** * The inode cache and the inodes of the root device (fs.c)

  [icache.inode], the tables [addrs] and [ext2_addrs] it shares between its
  entries, and the operations of fs.c that allocate, find, lock and write
  back inodes.  A pointer to an inode is its index in the cache. *)
From S2P Require Import Prelude Params Layout KState Driver Dll Bio Cache Log LogCrash FsBase FsAlloc.

(** ** Access to the tables *)
Definition getip (i : nat) : M kstate inode :=
  ips ← gets k_icache; unwrap (ips !! i) "inode".
Definition updip (i : nat) (f : inode -> inode) : M kstate unit :=
  ip ← getip i; modify (fun s => set_k_icache (<[i := f ip]> (k_icache s)) s).

(** [((struct addrs * )ip->addrs)->addrs]: dereferencing a null pointer or
    the other file system's structure is a fault. *)
Definition get_addrs (p : addrs_ptr) : M kstate (list Z) :=
  match p with
  | AAddrs i => l ← gets k_iaddrs; a ← unwrap (l !! i) "addrs"; mret (a_addrs a)
  | ANull => fault "addrs: null pointer"
  | AExt2 _ => fault "addrs: points to ext2_addrs"
  end.
Definition upd_addrs (p : addrs_ptr) (f : addrs -> addrs) : M kstate unit :=
  match p with
  | AAddrs i =>
      l ← gets k_iaddrs; a ← unwrap (l !! i) "addrs";
      modify (fun s => set_k_iaddrs (<[i := f a]> (k_iaddrs s)) s)
  | ANull => fault "addrs: null pointer"
  | AExt2 _ => fault "addrs: points to ext2_addrs"
  end.
Definition get_ext2_addrs (p : addrs_ptr) : M kstate (list Z) :=
  match p with
  | AExt2 j => l ← gets k_ext2_addrs; a ← unwrap (l !! j) "ext2_addrs"; mret (a_addrs a)
  | ANull => fault "ext2_addrs: null pointer"
  | AAddrs _ => fault "ext2_addrs: points to addrs"
  end.
Definition upd_ext2_addrs (p : addrs_ptr) (f : addrs -> addrs) : M kstate unit :=
  match p with
  | AExt2 j =>
      l ← gets k_ext2_addrs; a ← unwrap (l !! j) "ext2_addrs";
      modify (fun s => set_k_ext2_addrs (<[j := f a]> (k_ext2_addrs s)) s)
  | ANull => fault "ext2_addrs: null pointer"
  | AAddrs _ => fault "ext2_addrs: points to addrs"
  end.

(** ** Finding an inode: [iget] (the same code in fs.c and ext2fs.c) *)

(** The first loop: the cached entry, or the first empty one. *)
Fixpoint iget_scan (ips : list inode) (k : nat) (dev inum : Z) (empty : option nat) : nat + option nat :=
  match ips with
  | [] => inr empty
  | ip :: ips =>
      if (0 <? i_ref ip) && (i_dev ip =? dev) && (i_inum ip =? inum) then inl k
      else iget_scan ips (S k) dev inum
             (match empty with Some e => Some e | None => if i_ref ip =? 0 then Some k else None end)
  end.

(** The index of the first entry that is not busy, else [NINODE]. *)
Fixpoint free_slot (l : list addrs) : nat :=
  match l with
  | [] => 0
  | a :: l => if a_busy a =? 0 then 0 else S (free_slot l)
  end.

Definition iget (dev inum : Z) : M kstate nat :=
  ips ← gets k_icache;
  match iget_scan ips 0 dev inum None with
  | inl k => updip k (fun ip => set_i_ref (i_ref ip + 1) ip) ;; mret k
  | inr empty =>
      i ← gets (fun s => free_slot (k_iaddrs s));
      j ← gets (fun s => free_slot (k_ext2_addrs s));
      match empty with
      | None => panic "iget: no inodes"
      | Some k =>
          updip k (fun ip => set_i_valid false (set_i_ref 1 (set_i_inum inum (set_i_dev dev ip)))) ;;
          (if dev =? ROOTDEV then
             updip k (fun ip => set_i_addrs (AAddrs i) (set_i_file_type (Some inbuiltfs) ip)) ;;
             upd_addrs (AAddrs i) (set_a_busy 1)
           else
             updip k (fun ip => set_i_addrs (AExt2 j) (set_i_file_type (Some ext2fs) ip)) ;;
             upd_ext2_addrs (AExt2 j) (set_a_busy 1)) ;;
          mret k
      end
  end.

Definition idup (i : nat) : M kstate nat :=
  updip i (fun ip => set_i_ref (i_ref ip + 1) ip) ;; mret i.

Section inode.
Context {DD : DiskDriver}.

Definition iinit (dev : Z) : M kstate unit :=
  forM (seq 0 (Z.to_nat NINODE)) (fun i => updip i (set_i_lock initsleeplock)) ;;
  sb ← readsb dev;
  modify (set_k_sb sb).

(** [(struct dinode * )bp->data + inum%IPB] *)
Definition dinode_off (inum : Z) : nat := Z.to_nat (inum mod IPB * sizeof_dinode).
Definition get_dinode (d : list Z) (inum : Z) : dinode :=
  dec_dinode (slice d (dinode_off inum) (Z.to_nat sizeof_dinode)).
Definition put_dinode (d : list Z) (inum : Z) (di : dinode) : list Z :=
  splice d (dinode_off inum) (enc_dinode di).

Fixpoint ialloc_loop (fuel : nat) (dev type inum : Z) : M kstate nat :=
  match fuel with
  | O => out_of_fuel
  | S fuel =>
      sb ← gets k_sb;
      if sb_ninodes sb <=? inum then panic "ialloc: no inodes" else
      bp ← bread dev (IBLOCK inum sb);
      d ← bdata bp;
      if di_type (get_dinode d inum) =? 0 then
        bput bp (put_dinode d inum (mk_dinode type 0 0 0 0 (replicate (Z.to_nat (NDIRECT + 1)) 0))) ;;
        log_write bp ;;
        brelse bp ;;
        iget dev inum
      else
        brelse bp ;;
        ialloc_loop fuel dev type (inum + 1)
  end.
Definition ialloc (dev type : Z) : M kstate nat :=
  sb ← gets k_sb; ialloc_loop (Z.to_nat (sb_ninodes sb + 1)) dev type 1.

Definition iupdate (i : nat) : M kstate unit :=
  ip ← getip i;
  sb ← gets k_sb;
  bp ← bread (i_dev ip) (IBLOCK (i_inum ip) sb);
  d ← bdata bp;
  a ← get_addrs (i_addrs ip);
  bput bp (put_dinode d (i_inum ip)
    (mk_dinode (i_type ip) (i_major ip) (i_minor ip) (i_nlink ip) (i_size ip) a)) ;;
  log_write bp ;;
  brelse bp.

Definition ilock (i : nat) : M kstate unit :=
  ip ← getip i;
  if i_ref ip <? 1 then panic "ilock" else
  lk ← acquiresleep (i_lock ip);
  updip i (set_i_lock lk) ;;
  if i_valid ip then mret tt else
  sb ← gets k_sb;
  bp ← bread (i_dev ip) (IBLOCK (i_inum ip) sb);
  d ← bdata bp;
  let dip := get_dinode d (i_inum ip) in
  updip i (fun ip => set_i_file_type (Some inbuiltfs) (set_i_size (di_size dip)
    (set_i_nlink (di_nlink dip) (set_i_minor (di_minor dip) (set_i_major (di_major dip)
    (set_i_type (di_type dip) ip)))))) ;;
  upd_addrs (i_addrs ip) (set_a_addrs (di_addrs dip)) ;;
  brelse bp ;;
  updip i (set_i_valid true) ;;
  if di_type dip =? 0 then panic "ilock: no type" else mret tt.

Definition iunlock (i : nat) : M kstate unit :=
  ip ← getip i;
  h ← holdingsleep (i_lock ip);
  if negb h || (i_ref ip <? 1) then panic "iunlock" else
  updip i (set_i_lock (releasesleep (i_lock ip))).
End inode.

(** [struct stat] *)
Record stat := mk_stat {
  st_type : Z;
  st_dev_ : Z;
  st_ino : Z;
  st_nlink : Z;
  st_size_ : Z
}.
Definition stati (i : nat) : M kstate stat :=
  ip ← getip i; mret (mk_stat (i_type ip) (i_dev ip) (i_inum ip) (i_nlink ip) (i_size ip)).

(** ** The invariant of the inode cache *)

(** What an entry in use points to. *)
Definition entry_ok (ip : inode) : Prop :=
  if decide (i_dev ip = ROOTDEV)
  then i_file_type ip = Some inbuiltfs /\ exists j, i_addrs ip = AAddrs j
  else i_file_type ip = Some ext2fs /\ exists j, i_addrs ip = AExt2 j.

Definition busy_at (l : list addrs) (j : nat) : Prop := exists a, l !! j = Some a /\ a_busy a <> 0.

Record icache_ok (s : kstate) : Prop := {
  ic_len : length (k_icache s) = Z.to_nat NINODE;
  ic_alen : length (k_iaddrs s) = Z.to_nat NINODE;
  ic_elen : length (k_ext2_addrs s) = Z.to_nat NINODE;
  ic_ref : forall i ip, k_icache s !! i = Some ip -> 0 <= i_ref ip;
  ic_uniq : forall i j ip jp, k_icache s !! i = Some ip -> k_icache s !! j = Some jp ->
    0 < i_ref ip -> 0 < i_ref jp -> i_dev ip = i_dev jp -> i_inum ip = i_inum jp -> i = j;
  ic_entry : forall i ip, k_icache s !! i = Some ip -> 0 < i_ref ip -> entry_ok ip;
  ic_share : forall i j ip jp, k_icache s !! i = Some ip -> k_icache s !! j = Some jp ->
    0 < i_ref ip -> 0 < i_ref jp -> i_addrs ip = i_addrs jp -> i = j;
  ic_busy : forall j, busy_at (k_iaddrs s) j <->
    exists i ip, k_icache s !! i = Some ip /\ 0 < i_ref ip /\ i_addrs ip = AAddrs j;
  ic_ebusy : forall j, busy_at (k_ext2_addrs s) j <->
    exists i ip, k_icache s !! i = Some ip /\ 0 < i_ref ip /\ i_addrs ip = AExt2 j
}.

(** *** The scans *)
Definition is_cached (dev inum : Z) (ip : inode) : bool :=
  (0 <? i_ref ip) && (i_dev ip =? dev) && (i_inum ip =? inum).

Lemma is_cached_spec dev inum ip :
  is_cached dev inum ip = true <-> 0 < i_ref ip /\ i_dev ip = dev /\ i_inum ip = inum.
Proof. unfold is_cached. rewrite !andb_true_iff, Z.ltb_lt, !Z.eqb_eq. naive_solver. Qed.

Lemma iget_scan_inl ips n dev inum e k :
  iget_scan ips n dev inum e = inl k ->
  exists ip, (n <= k)%nat /\ ips !! (k - n)%nat = Some ip /\ is_cached dev inum ip = true.
Proof.
  revert n e. induction ips as [|ip ips IH]; intros n e H; [done|]. simpl in H.
  fold (is_cached dev inum ip) in H. destruct (is_cached dev inum ip) eqn:E.
  - simplify_eq. exists ip. rewrite Nat.sub_diag. done.
  - destruct (IH _ _ H) as (jp & Hk & Hl & Hc). exists jp. split_and!; [lia| |done].
    replace (k - n)%nat with (S (k - S n)) by lia. done.
Qed.

Lemma iget_scan_inr ips n dev inum e e' :
  iget_scan ips n dev inum e = inr e' ->
  Forall (fun ip => is_cached dev inum ip = false) ips /\
  match e with
  | Some x => e' = Some x
  | None => match e' with
            | Some k => exists ip, (n <= k)%nat /\ ips !! (k - n)%nat = Some ip /\ i_ref ip = 0
            | None => Forall (fun ip => i_ref ip <> 0) ips
            end
  end.
Proof.
  revert n e. induction ips as [|ip ips IH]; intros n e H; simpl in H.
  { simplify_eq. split; [constructor|]. destruct e'; [done|constructor]. }
  fold (is_cached dev inum ip) in H. destruct (is_cached dev inum ip) eqn:E; [done|].
  destruct (IH _ _ H) as [Hf He]. split; [by constructor|]. destruct e as [x|]; [done|].
  destruct (Z.eqb_spec (i_ref ip) 0) as [E0|E0].
  - subst. exists ip. rewrite Nat.sub_diag. done.
  - destruct e' as [k|]; [|by constructor]. destruct He as (jp & Hk & Hl & Hr). exists jp.
    split_and!; [lia| |done]. replace (k - n)%nat with (S (k - S n)) by lia. done.
Qed.

Lemma free_slot_spec l :
  (free_slot l < length l)%nat /\ (exists a, l !! free_slot l = Some a /\ a_busy a = 0) \/
  free_slot l = length l /\ forall j, (j < length l)%nat -> busy_at l j.
Proof.
  induction l as [|a l IH]; simpl; [right; split; [done|lia]|].
  destruct (Z.eqb_spec (a_busy a) 0) as [E|E]; [left; split; [lia|by exists a]|].
  destruct IH as [[Hlt (b & Hb & Hb0)]|[Heq Hall]].
  - left. split; [lia|]. by exists b.
  - right. split; [by rewrite Heq|]. intros [|j] Hj; [by exists a|].
    destruct (Hall j) as (b & Hb & Hn); [lia|]. by exists b.
Qed.

(** *** A free entry leaves a free slot *)
Lemma length_omap_lt {A B} (f : A -> option B) l i x :
  l !! i = Some x -> f x = None -> (length (omap f l) < length l)%nat.
Proof.
  revert i. induction l as [|y l IH]; intros i Hi Hx; [done|]. csimpl.
  assert (length (omap f l) <= length l)%nat as Hle.
  { clear. induction l as [|y l IH]; csimpl; [lia|]. destruct (f y); simpl; lia. }
  destruct i as [|i]; simpl in Hi.
  - simplify_eq. rewrite Hx. lia.
  - specialize (IH _ Hi Hx). destruct (f y); simpl; lia.
Qed.

Lemma slot_available (ips : list inode) (l : list addrs) (sel : addrs_ptr -> option nat) k kp :
  length ips = length l ->
  (forall j, busy_at l j -> exists i ip, ips !! i = Some ip /\ 0 < i_ref ip /\ sel (i_addrs ip) = Some j) ->
  ips !! k = Some kp -> i_ref kp = 0 ->
  (free_slot l < length l)%nat /\ exists a, l !! free_slot l = Some a /\ a_busy a = 0.
Proof.
  intros Hlen Hb Hk Hr. destruct (free_slot_spec l) as [?|[_ Hall]]; [done|]. exfalso.
  set (f := fun ip => if 0 <? i_ref ip then sel (i_addrs ip) else None).
  assert (length (seq 0 (length l)) <= length (omap f ips))%nat as Hle.
  { apply submseteq_length, NoDup_submseteq; [apply NoDup_seq|]. intros j Hj. apply elem_of_seq in Hj.
    destruct (Hb j) as (i & ip & Hi & Hri & Hs); [apply Hall; lia|].
    apply list_elem_of_omap. exists ip. split; [by eapply list_elem_of_lookup_2|].
    unfold f. by destruct (Z.ltb_spec 0 (i_ref ip)); [|lia]. }
  rewrite length_seq in Hle. pose proof (length_omap_lt f ips k kp Hk) as Hlt.
  assert (f kp = None) as Hf by (unfold f; by rewrite Hr). specialize (Hlt Hf). lia.
Qed.

Lemma getip_Some s i ip : k_icache s !! i = Some ip -> getip i s = Ret ip s.
Proof. intros H. unfold getip. run_steps. unfold unwrap. by rewrite H. Qed.
Lemma updip_Some s i ip f :
  k_icache s !! i = Some ip -> updip i f s = Ret tt (set_k_icache (<[i := f ip]> (k_icache s)) s).
Proof. intros H. unfold updip. by run (getip_Some _ _ _ H). Qed.

(** Updating the fields of an entry that the tables do not depend on. *)
Lemma icache_ok_upd s k ip ip' :
  icache_ok s -> k_icache s !! k = Some ip ->
  i_dev ip' = i_dev ip -> i_inum ip' = i_inum ip -> i_addrs ip' = i_addrs ip ->
  i_file_type ip' = i_file_type ip -> 0 <= i_ref ip' -> (0 < i_ref ip' <-> 0 < i_ref ip) ->
  icache_ok (set_k_icache (<[k := ip']> (k_icache s)) s).
Proof.
  intros Ok Hk Ed En Ea Ef H0 Hr.
  assert (forall i jp, <[k := ip']> (k_icache s) !! i = Some jp ->
    exists jp0, k_icache s !! i = Some jp0 /\ i_dev jp = i_dev jp0 /\ i_inum jp = i_inum jp0 /\
      i_addrs jp = i_addrs jp0 /\ i_file_type jp = i_file_type jp0 /\ (0 < i_ref jp <-> 0 < i_ref jp0) /\
      0 <= i_ref jp) as Hget.
  { intros i jp Hi. destruct (decide (i = k)) as [->|Hne].
    - rewrite list_lookup_insert_eq in Hi by (by eapply lookup_lt_Some). simplify_eq. by exists ip.
    - rewrite list_lookup_insert_ne in Hi by done. exists jp. split_and!; try done. by eapply (ic_ref _ Ok). }
  assert (forall P : addrs_ptr, (exists i jp, <[k := ip']> (k_icache s) !! i = Some jp /\ 0 < i_ref jp /\ i_addrs jp = P) <->
    (exists i jp, k_icache s !! i = Some jp /\ 0 < i_ref jp /\ i_addrs jp = P)) as Hex.
  { intros P. split; intros (i & jp & Hi & Hrj & HP).
    - destruct (Hget _ _ Hi) as (jp0 & ? & _ & _ & Ea' & _ & Hr' & _). exists i, jp0.
      split_and!; [done|by apply Hr'|congruence].
    - exists i. destruct (decide (i = k)) as [->|Hne].
      + simplify_eq. exists ip'. rewrite list_lookup_insert_eq by (by eapply lookup_lt_Some).
        split_and!; [done|by apply Hr|done].
      + exists jp. rewrite list_lookup_insert_ne by done. done. }
  split; simpl; try apply Ok.
  - rewrite length_insert. apply Ok.
  - intros i jp Hi. by destruct (Hget _ _ Hi) as (_ & _ & _ & _ & _ & _ & _ & ?).
  - intros i j jp kp Hi Hj Hri Hrj. destruct (Hget _ _ Hi) as (i0 & ? & Ed1 & En1 & _ & _ & Hr1 & _).
    destruct (Hget _ _ Hj) as (j0 & ? & Ed2 & En2 & _ & _ & Hr2 & _). intros. eapply (ic_uniq _ Ok); try done;
      [by apply Hr1|by apply Hr2|congruence|congruence].
  - intros i jp Hi Hri. destruct (Hget _ _ Hi) as (i0 & Hi0 & Ed1 & _ & Ea1 & Ef1 & Hr1 & _).
    pose proof (ic_entry _ Ok _ _ Hi0 (proj1 Hr1 Hri)) as He. unfold entry_ok in *. by rewrite Ed1, Ea1, Ef1.
  - intros i j jp kp Hi Hj Hri Hrj E. destruct (Hget _ _ Hi) as (i0 & ? & _ & _ & Ea1 & _ & Hr1 & _).
    destruct (Hget _ _ Hj) as (j0 & ? & _ & _ & Ea2 & _ & Hr2 & _). eapply (ic_share _ Ok); try done;
      [by apply Hr1|by apply Hr2|congruence].
  - intros j. rewrite Hex. apply Ok.
  - intros j. rewrite Hex. apply Ok.
Qed.

(** A cached inode: its reference count goes up. *)
Lemma iget_hit s dev inum k ip :
  icache_ok s -> k_icache s !! k = Some ip -> 0 < i_ref ip -> i_dev ip = dev -> i_inum ip = inum ->
  iget dev inum s = Ret k (set_k_icache (<[k := set_i_ref (i_ref ip + 1) ip]> (k_icache s)) s).
Proof.
  intros Ok Hk Hr Hd Hn. unfold iget. run_steps.
  destruct (iget_scan (k_icache s) 0 dev inum None) as [k'|e] eqn:E.
  - destruct (iget_scan_inl _ _ _ _ _ _ E) as (jp & _ & Hj & (Hrj & Hdj & Hnj)%is_cached_spec).
    rewrite Nat.sub_0_r in Hj.
    assert (k' = k) as -> by (eapply (ic_uniq _ Ok k' k); eauto; congruence). simplify_eq.
    by run (updip_Some _ _ _ (fun ip => set_i_ref (i_ref ip + 1) ip) Hk).
  - destruct (iget_scan_inr _ _ _ _ _ _ E) as [Hf _]. rewrite Forall_lookup in Hf.
    specialize (Hf _ _ Hk). apply not_true_iff_false in Hf. destruct Hf. by apply is_cached_spec.
Qed.

Definition fresh_inode (dev inum : Z) (p : addrs_ptr) (ft : filesystem_type) (ip : inode) : inode :=
  set_i_addrs p (set_i_file_type (Some ft)
    (set_i_valid false (set_i_ref 1 (set_i_inum inum (set_i_dev dev ip))))).

Definition not_cached (s : kstate) (dev inum : Z) : Prop :=
  forall i ip, k_icache s !! i = Some ip -> 0 < i_ref ip -> ~ (i_dev ip = dev /\ i_inum ip = inum).

(** An inode that is not cached takes an empty entry and a free slot. *)
Lemma iget_miss s dev inum :
  icache_ok s -> not_cached s dev inum -> (exists k ip, k_icache s !! k = Some ip /\ i_ref ip = 0) ->
  exists k ip j a, k_icache s !! k = Some ip /\ i_ref ip = 0 /\
    (if decide (dev = ROOTDEV) then k_iaddrs s else k_ext2_addrs s) !! j = Some a /\ a_busy a = 0 /\
    iget dev inum s = Ret k
      (if decide (dev = ROOTDEV)
       then set_k_iaddrs (<[j := set_a_busy 1 a]> (k_iaddrs s))
              (set_k_icache (<[k := fresh_inode dev inum (AAddrs j) inbuiltfs ip]> (k_icache s)) s)
       else set_k_ext2_addrs (<[j := set_a_busy 1 a]> (k_ext2_addrs s))
              (set_k_icache (<[k := fresh_inode dev inum (AExt2 j) ext2fs ip]> (k_icache s)) s)).
Proof.
  intros Ok Hnc (k0 & ip0 & Hk0 & Hr0). unfold iget.
  destruct (iget_scan (k_icache s) 0 dev inum None) as [k'|e] eqn:E.
  { destruct (iget_scan_inl _ _ _ _ _ _ E) as (jp & _ & Hj & (Hrj & Hdj & Hnj)%is_cached_spec).
    rewrite Nat.sub_0_r in Hj. by destruct (Hnc _ _ Hj Hrj). }
  destruct (iget_scan_inr _ _ _ _ _ _ E) as [_ He]. destruct e as [k|].
  2:{ rewrite Forall_lookup in He. by destruct (He _ _ Hk0). }
  destruct He as (ip & _ & Hk & Hr). rewrite Nat.sub_0_r in Hk.
  pose proof (lookup_lt_Some _ _ _ Hk) as Hlt.
  destruct (slot_available (k_icache s) (k_iaddrs s) (fun p => match p with AAddrs j => Some j | _ => None end) k ip)
    as (Hs1 & a1 & Ha1 & Hb1); [by rewrite (ic_len _ Ok), (ic_alen _ Ok)| |done|done|].
  { intros j (i & jp & ? & ? & Ej)%(ic_busy _ Ok). exists i, jp. by rewrite Ej. }
  destruct (slot_available (k_icache s) (k_ext2_addrs s) (fun p => match p with AExt2 j => Some j | _ => None end) k ip)
    as (Hs2 & a2 & Ha2 & Hb2); [by rewrite (ic_len _ Ok), (ic_elen _ Ok)| |done|done|].
  { intros j (i & jp & ? & ? & Ej)%(ic_ebusy _ Ok). exists i, jp. by rewrite Ej. }
  run_steps. rewrite E. run_steps.
  run (updip_Some _ _ _ (fun ip => set_i_valid false (set_i_ref 1 (set_i_inum inum (set_i_dev dev ip)))) Hk).
  set (ip1 := set_i_valid _ _). set (s1 := set_k_icache _ s).
  assert (k_icache s1 !! k = Some ip1) as Hk1 by (unfold s1; simpl; by rewrite list_lookup_insert_eq).
  destruct (Z.eqb_spec dev ROOTDEV) as [Ed|Ed].
  - exists k, ip, (free_slot (k_iaddrs s)), a1. rewrite !decide_True by done. split_and!; try done.
    run_steps. run (updip_Some _ _ _ (fun ip => set_i_addrs (AAddrs (free_slot (k_iaddrs s))) (set_i_file_type (Some inbuiltfs) ip)) Hk1).
    unfold upd_addrs. run_steps. cbn [k_iaddrs set_k_icache s1]. rewrite Ha1. cbn [unwrap]. run_steps.
    unfold s1. simpl. by rewrite list_insert_insert_eq.
  - exists k, ip, (free_slot (k_ext2_addrs s)), a2. rewrite !decide_False by done. split_and!; try done.
    run_steps. run (updip_Some _ _ _ (fun ip => set_i_addrs (AExt2 (free_slot (k_ext2_addrs s))) (set_i_file_type (Some ext2fs) ip)) Hk1).
    unfold upd_ext2_addrs. run_steps. cbn [k_ext2_addrs set_k_icache s1]. rewrite Ha2. cbn [unwrap]. run_steps.
    unfold s1. simpl. by rewrite list_insert_insert_eq.
Qed.

(** *** Taking an entry *)
Lemma busy_insert l j a j' :
  l !! j = Some a -> busy_at (<[j := set_a_busy 1 a]> l) j' <-> j' = j \/ busy_at l j'.
Proof.
  intros Hj. unfold busy_at. destruct (decide (j' = j)) as [->|Hne].
  - rewrite list_lookup_insert_eq by (by eapply lookup_lt_Some). split; [by left|]. intros _.
    exists (set_a_busy 1 a). by destruct a.
  - rewrite list_lookup_insert_ne by done. naive_solver.
Qed.

Lemma held_after_take (ips : list inode) k ip ip' (P : addrs_ptr) :
  ips !! k = Some ip -> i_ref ip = 0 -> 0 < i_ref ip' ->
  (exists i jp, <[k := ip']> ips !! i = Some jp /\ 0 < i_ref jp /\ i_addrs jp = P) <->
  i_addrs ip' = P \/ (exists i jp, ips !! i = Some jp /\ 0 < i_ref jp /\ i_addrs jp = P).
Proof.
  intros Hk Hr Hr'. split.
  - intros (i & jp & Hi & Hrj & HP). destruct (decide (i = k)) as [->|Hne].
    + rewrite list_lookup_insert_eq in Hi by (by eapply lookup_lt_Some). simplify_eq. by left.
    + rewrite list_lookup_insert_ne in Hi by done. right. by exists i, jp.
  - intros [HP|(i & jp & Hi & Hrj & HP)].
    + exists k, ip'. by rewrite list_lookup_insert_eq by (by eapply lookup_lt_Some).
    + exists i, jp. rewrite list_lookup_insert_ne; [done|]. intros ->. simplify_eq. lia.
Qed.

(** The clauses of the invariant that concern the entries only. *)
Record entries_ok (ips : list inode) : Prop := {
  en_len : length ips = Z.to_nat NINODE;
  en_ref : forall i ip, ips !! i = Some ip -> 0 <= i_ref ip;
  en_uniq : forall i j ip jp, ips !! i = Some ip -> ips !! j = Some jp ->
    0 < i_ref ip -> 0 < i_ref jp -> i_dev ip = i_dev jp -> i_inum ip = i_inum jp -> i = j;
  en_entry : forall i ip, ips !! i = Some ip -> 0 < i_ref ip -> entry_ok ip;
  en_share : forall i j ip jp, ips !! i = Some ip -> ips !! j = Some jp ->
    0 < i_ref ip -> 0 < i_ref jp -> i_addrs ip = i_addrs jp -> i = j
}.
Lemma icache_entries s : icache_ok s -> entries_ok (k_icache s).
Proof. intros []. by split. Qed.

Lemma entries_ok_take s k ip ip' :
  icache_ok s -> k_icache s !! k = Some ip -> i_ref ip = 0 -> 0 < i_ref ip' -> entry_ok ip' ->
  not_cached s (i_dev ip') (i_inum ip') ->
  (forall i jp, k_icache s !! i = Some jp -> 0 < i_ref jp -> i_addrs jp <> i_addrs ip') ->
  entries_ok (<[k := ip']> (k_icache s)).
Proof.
  intros Ok Hk Hr Hr' He Hnc Hns.
  assert (forall i jp, <[k := ip']> (k_icache s) !! i = Some jp ->
    i = k /\ jp = ip' \/ i <> k /\ k_icache s !! i = Some jp) as Hget.
  { intros i jp Hi. destruct (decide (i = k)) as [->|Hne]; [left|right].
    - rewrite list_lookup_insert_eq in Hi by (by eapply lookup_lt_Some). by simplify_eq.
    - by rewrite list_lookup_insert_ne in Hi. }
  split.
  - rewrite length_insert. apply Ok.
  - intros i jp [[-> ->]|[_ Hi]]%Hget; [lia|by eapply (ic_ref _ Ok)].
  - intros i j jp kp [[-> ->]|[_ Hi]]%Hget [[-> ->]|[_ Hj]]%Hget Hri Hrj Hd Hn; [done| | |by eapply (ic_uniq _ Ok)].
    + by destruct (Hnc _ _ Hj Hrj).
    + by destruct (Hnc _ _ Hi Hri).
  - intros i jp [[-> ->]|[_ Hi]]%Hget Hri; [done|by eapply (ic_entry _ Ok)].
  - intros i j jp kp [[-> ->]|[_ Hi]]%Hget [[-> ->]|[_ Hj]]%Hget Hri Hrj Ha; [done| | |by eapply (ic_share _ Ok)].
    + by destruct (Hns _ _ Hj Hrj).
    + by destruct (Hns _ _ Hi Hri).
Qed.

Lemma icache_ok_take_root s k ip inum j a :
  icache_ok s -> k_icache s !! k = Some ip -> i_ref ip = 0 -> not_cached s ROOTDEV inum ->
  k_iaddrs s !! j = Some a -> a_busy a = 0 ->
  icache_ok (set_k_iaddrs (<[j := set_a_busy 1 a]> (k_iaddrs s))
    (set_k_icache (<[k := fresh_inode ROOTDEV inum (AAddrs j) inbuiltfs ip]> (k_icache s)) s)).
Proof.
  intros Ok Hk Hr Hnc Hj Hb. set (ip' := fresh_inode _ _ _ _ _).
  assert (~ exists i jp, k_icache s !! i = Some jp /\ 0 < i_ref jp /\ i_addrs jp = AAddrs j) as Hfree.
  { intros H%(ic_busy _ Ok). destruct H as (a' & ? & ?). simplify_eq. }
  destruct (entries_ok_take s k ip ip' Ok Hk Hr) as []; try done.
  { unfold entry_ok. rewrite decide_True by done. eauto. }
  { intros i jp Hi Hri E. apply Hfree. by exists i, jp. }
  split; simpl; try done; try apply Ok; try (rewrite length_insert; apply Ok).
  - intros j'. rewrite (busy_insert _ _ _ _ Hj), (held_after_take _ k ip ip' (AAddrs j') Hk Hr) by done.
    rewrite (ic_busy _ Ok). simpl. naive_solver.
  - intros j'. rewrite (held_after_take _ k ip ip' (AExt2 j') Hk Hr) by done.
    rewrite (ic_ebusy _ Ok). simpl. naive_solver.
Qed.

Lemma icache_ok_take_ext2 s k ip dev inum j a :
  icache_ok s -> k_icache s !! k = Some ip -> i_ref ip = 0 -> dev <> ROOTDEV -> not_cached s dev inum ->
  k_ext2_addrs s !! j = Some a -> a_busy a = 0 ->
  icache_ok (set_k_ext2_addrs (<[j := set_a_busy 1 a]> (k_ext2_addrs s))
    (set_k_icache (<[k := fresh_inode dev inum (AExt2 j) ext2fs ip]> (k_icache s)) s)).
Proof.
  intros Ok Hk Hr Hd Hnc Hj Hb. set (ip' := fresh_inode _ _ _ _ _).
  assert (~ exists i jp, k_icache s !! i = Some jp /\ 0 < i_ref jp /\ i_addrs jp = AExt2 j) as Hfree.
  { intros H%(ic_ebusy _ Ok). destruct H as (a' & ? & ?). simplify_eq. }
  destruct (entries_ok_take s k ip ip' Ok Hk Hr) as []; try done.
  { unfold entry_ok. rewrite decide_False by done. eauto. }
  { intros i jp Hi Hri E. apply Hfree. by exists i, jp. }
  split; simpl; try done; try apply Ok; try (rewrite length_insert; apply Ok).
  - intros j'. rewrite (held_after_take _ k ip ip' (AAddrs j') Hk Hr) by done.
    rewrite (ic_busy _ Ok). simpl. naive_solver.
  - intros j'. rewrite (busy_insert _ _ _ _ Hj), (held_after_take _ k ip ip' (AExt2 j') Hk Hr) by done.
    rewrite (ic_ebusy _ Ok). simpl. naive_solver.
Qed.

(** ** The reference counts of the cached inodes *)

(** The number of references the cache holds on an inode, and that inode's
    entry: the abstract view of [icache]. *)
Definition entry (ips : list inode) (dev inum : Z) : option inode :=
  snd <$> list_find (fun ip => is_cached dev inum ip = true) ips.
Definition iref (s : kstate) (dev inum : Z) : Z :=
  match entry (k_icache s) dev inum with Some ip => i_ref ip | None => 0 end.

Lemma entry_unique ips dev inum k ip :
  entries_ok ips -> ips !! k = Some ip -> 0 < i_ref ip -> i_dev ip = dev -> i_inum ip = inum ->
  entry ips dev inum = Some ip.
Proof.
  intros Ok Hk Hr Hd Hn. unfold entry. destruct (list_find _ ips) as [[k' jp]|] eqn:E.
  - apply list_find_Some in E as (Hk' & (? & ? & ?)%is_cached_spec & _).
    assert (k' = k) as -> by (eapply (en_uniq _ Ok); eauto; congruence). by simplify_eq.
  - apply list_find_None in E. rewrite Forall_lookup in E. destruct (E _ _ Hk). by apply is_cached_spec.
Qed.
Lemma entry_none (ips : list inode) dev inum :
  (forall i ip, ips !! i = Some ip -> 0 < i_ref ip -> ~ (i_dev ip = dev /\ i_inum ip = inum)) ->
  entry ips dev inum = None.
Proof.
  intros H. unfold entry. destruct (list_find _ ips) as [[k' jp]|] eqn:E; [|done].
  apply list_find_Some in E as (Hk' & (? & ? & ?)%is_cached_spec & _). by destruct (H _ _ Hk').
Qed.
Lemma entry_cases (ips : list inode) dev inum :
  (exists k ip, ips !! k = Some ip /\ 0 < i_ref ip /\ i_dev ip = dev /\ i_inum ip = inum) \/
  (forall i ip, ips !! i = Some ip -> 0 < i_ref ip -> ~ (i_dev ip = dev /\ i_inum ip = inum)).
Proof.
  destruct (list_find (fun ip => is_cached dev inum ip = true) ips) as [[k ip]|] eqn:E.
  - apply list_find_Some in E as (Hk' & ?%is_cached_spec & _). left. by exists k, ip.
  - right. apply list_find_None in E. rewrite Forall_lookup in E. intros i ip Hi Hr Hn.
    destruct (E _ _ Hi). apply is_cached_spec. naive_solver.
Qed.

(** An entry that changes only under the name [(dev, inum)] changes only that
    inode's view. *)
Lemma entry_other ips k ip ip' dev inum :
  entries_ok ips -> entries_ok (<[k := ip']> ips) -> ips !! k = Some ip ->
  (0 < i_ref ip -> ~ (i_dev ip = dev /\ i_inum ip = inum)) ->
  (0 < i_ref ip' -> ~ (i_dev ip' = dev /\ i_inum ip' = inum)) ->
  entry (<[k := ip']> ips) dev inum = entry ips dev inum.
Proof.
  intros Ok Ok' Hk H1 H2. destruct (entry_cases ips dev inum) as [(i & jp & Hi & Hr & Hd & Hn)|Hno].
  - assert (i <> k) by (intros ->; simplify_eq; naive_solver).
    rewrite (entry_unique ips dev inum i jp) by done.
    apply (entry_unique _ dev inum i jp); try done. by rewrite list_lookup_insert_ne.
  - rewrite (entry_none ips) by done. apply entry_none. intros i jp Hi Hr.
    destruct (decide (i = k)) as [->|Hne].
    + rewrite list_lookup_insert_eq in Hi by (by eapply lookup_lt_Some). simplify_eq. by apply H2.
    + rewrite list_lookup_insert_ne in Hi by done. eauto.
Qed.

(** What [iget] promises: the entry of the inode, one more reference on it,
    every other inode as it was, and the contents to be read again unless
    the inode was cached. *)
Definition iget_post (s : kstate) (dev inum : Z) (k : nat) (s' : kstate) : Prop :=
  icache_ok s' /\
  iref s' dev inum = iref s dev inum + 1 /\
  (exists ip, k_icache s' !! k = Some ip /\ i_dev ip = dev /\ i_inum ip = inum /\
     entry (k_icache s') dev inum = Some ip /\
     (iref s dev inum = 0 -> i_valid ip = false) /\
     (forall ip0, entry (k_icache s) dev inum = Some ip0 -> ip = set_i_ref (i_ref ip0 + 1) ip0)) /\
  (forall d n, (d, n) <> (dev, inum) -> entry (k_icache s') d n = entry (k_icache s) d n).

Lemma iget_post_hit s dev inum k ip :
  icache_ok s -> k_icache s !! k = Some ip -> 0 < i_ref ip -> i_dev ip = dev -> i_inum ip = inum ->
  iget_post s dev inum k (set_k_icache (<[k := set_i_ref (i_ref ip + 1) ip]> (k_icache s)) s).
Proof.
  intros Ok Hk Hr Hd Hn. set (ip' := set_i_ref _ ip). set (s' := set_k_icache _ s).
  assert (icache_ok s') as Ok'.
  { apply (icache_ok_upd s k ip ip' Ok Hk); try done; unfold ip'; simpl; lia. }
  assert (k_icache s' !! k = Some ip') as Hk'.
  { unfold s'. simpl. rewrite list_lookup_insert_eq; [done|by eapply lookup_lt_Some]. }
  pose proof (icache_entries _ Ok) as En. pose proof (icache_entries _ Ok') as En'.
  assert (entry (k_icache s) dev inum = Some ip) as E by (by eapply entry_unique).
  assert (entry (k_icache s') dev inum = Some ip') as E'.
  { eapply entry_unique; [done|exact Hk'|unfold ip'; simpl; lia|done|done]. }
  split_and!; [done| | |].
  - unfold iref. by rewrite E, E'.
  - exists ip'. split_and!; try done.
    + unfold iref. rewrite E. lia.
    + intros ip0. rewrite E. intros [=<-]. done.
  - intros d n Hne. apply (entry_other _ _ ip); try done; unfold ip'; simpl; intros; naive_solver.
Qed.

Lemma iget_post_miss s dev inum k ip ip' s' :
  icache_ok s -> not_cached s dev inum -> k_icache s !! k = Some ip -> i_ref ip = 0 ->
  icache_ok s' -> k_icache s' = <[k := ip']> (k_icache s) ->
  i_ref ip' = 1 -> i_dev ip' = dev -> i_inum ip' = inum -> i_valid ip' = false ->
  iget_post s dev inum k s'.
Proof.
  intros Ok Hnc Hk Hr Ok' Hs Hr' Hd Hn Hv.
  pose proof (icache_entries _ Ok) as En. pose proof (icache_entries _ Ok') as En'.
  assert (k_icache s' !! k = Some ip') as Hk'.
  { rewrite Hs, list_lookup_insert_eq; [done|by eapply lookup_lt_Some]. }
  assert (entry (k_icache s) dev inum = None) as E by (by apply entry_none).
  assert (entry (k_icache s') dev inum = Some ip') as E'.
  { eapply entry_unique; [done|exact Hk'|lia|done|done]. }
  split_and!; [done| | |].
  - unfold iref. rewrite E, E'. lia.
  - exists ip'. split_and!; try done. intros ip0. by rewrite E.
  - intros d n Hne. rewrite Hs in En' |- *. apply (entry_other _ _ ip); try done; intros; [lia|naive_solver].
Qed.

Lemma iget_spec s dev inum :
  icache_ok s -> 0 < iref s dev inum \/ (exists k ip, k_icache s !! k = Some ip /\ i_ref ip = 0) ->
  exists k s', iget dev inum s = Ret k s' /\ iget_post s dev inum k s' /\
    s' = set_k_icache (k_icache s') (set_k_iaddrs (k_iaddrs s') (set_k_ext2_addrs (k_ext2_addrs s') s)).
Proof.
  intros Ok Hav. destruct (entry_cases (k_icache s) dev inum) as [(k & ip & Hk & Hr & Hd & Hn)|Hno].
  - eexists k, _. split; [by apply iget_hit|]. split; [by apply iget_post_hit|]. by destruct s.
  - assert (exists k ip, k_icache s !! k = Some ip /\ i_ref ip = 0) as He.
    { destruct Hav as [Hav|?]; [|done]. unfold iref in Hav. rewrite entry_none in Hav by done. lia. }
    destruct (iget_miss s dev inum Ok Hno He) as (k & ip & j & a & Hk & Hr & Ha & Hb & ->).
    eexists k, _. split; [done|]. destruct (decide (dev = ROOTDEV)) as [->|Hd].
    + split; [|by destruct s]. eapply iget_post_miss; try done. by apply icache_ok_take_root.
    + split; [|by destruct s]. eapply iget_post_miss; try done. by apply icache_ok_take_ext2.
Qed.

(** [iget] on a well-formed inode cache returns the cache entry of the
    inode: it adds exactly one reference to it, leaves every other cached
    inode and the rest of the kernel state as they were, marks the contents
    as not read when the inode was not cached, and never gives two entries
    the same slot of the [addrs] tables; it needs a free entry only when the
    inode is not cached, and panics when there is none. *)
Theorem iget_correct s dev inum :
  icache_ok s ->
  (0 < iref s dev inum \/ (exists k ip, k_icache s !! k = Some ip /\ i_ref ip = 0) ->
   exists k s', iget dev inum s = Ret k s' /\ iget_post s dev inum k s' /\
     s' = set_k_icache (k_icache s') (set_k_iaddrs (k_iaddrs s') (set_k_ext2_addrs (k_ext2_addrs s') s))) /\
  (iref s dev inum = 0 -> (forall k ip, k_icache s !! k = Some ip -> i_ref ip <> 0) ->
   iget dev inum s = Panic "iget: no inodes").
Proof.
  intros Ok. split; [by apply iget_spec|]. intros H0 Hfull. unfold iget. run_steps.
  destruct (iget_scan (k_icache s) 0 dev inum None) as [k'|e] eqn:E.
  - destruct (iget_scan_inl _ _ _ _ _ _ E) as (jp & _ & Hj & (Hrj & Hdj & Hnj)%is_cached_spec).
    rewrite Nat.sub_0_r in Hj. unfold iref in H0.
    rewrite (entry_unique _ dev inum k' jp) in H0 by (try done; by apply icache_entries). lia.
  - destruct (iget_scan_inr _ _ _ _ _ _ E) as [_ He]. destruct e as [k|].
    + destruct He as (ip & _ & Hk & Hr). rewrite Nat.sub_0_r in Hk. by destruct (Hfull _ _ Hk).
    + by run_steps.
Qed.
