(* ===== verification/Ext2.v ===== *)
(** * The ext2 file system: superblock, groups, bitmaps and inodes (ext2fs.c)

  The block and inode allocators and the reading and writing of inodes of the
  second disk.  Blocks of that disk are written through ([bwrite]), not
  logged.  The integers are those of the code: [int] and [uint] conversions
  are written out, a division by zero and an access past the end of a buffer
  are faults. *)
From S2P Require Import Prelude Params Layout KState Driver Dll Bio Cache Log LogCrash FsBase FsAlloc Inode.

(** ** Arithmetic and accesses that can fail *)
Definition udiv (a b : Z) : M kstate Z := if b =? 0 then fault "divide error" else mret (a / b).
Definition umod (a b : Z) : M kstate Z := if b =? 0 then fault "divide error" else mret (a mod b).
Definition idiv (a b : Z) : M kstate Z := if b =? 0 then fault "divide error" else mret (Z.quot a b).
Definition irem (a b : Z) : M kstate Z := if b =? 0 then fault "divide error" else mret (Z.rem a b).

(** [memmove(&x, d + off, n)] and [memmove(d + off, bs, n)] on the data of a
    buffer. *)
Definition load (d : list Z) (off n : Z) : M kstate (list Z) :=
  if (0 <=? off) && (off + n <=? Z.of_nat (length d))
  then mret (slice d (Z.to_nat off) (Z.to_nat n)) else fault "load: past the buffer".
Definition store (d : list Z) (off : Z) (bs : list Z) : M kstate (list Z) :=
  if (0 <=? off) && (off + Z.of_nat (length bs) <=? Z.of_nat (length d))
  then mret (splice d (Z.to_nat off) bs) else fault "store: past the buffer".

(** [((uint * )bp->data)[j]] *)
Definition get_word (bp : nat) (j : Z) : M kstate Z := d ← bdata bp; mret (rd 4 d (Z.to_nat (4 * j))).

(** ** ext2.h: group and index of an inode *)
Definition GN (inum : Z) (exs : ext2_superblock) : M kstate Z := udiv (u32 (inum - 1)) (s_inodes_per_group exs).
Definition IO (inum : Z) (exs : ext2_superblock) : M kstate Z := umod (u32 (inum - 1)) (s_inodes_per_group exs).

(** The copy of [iget] in ext2fs.c has the text of the one in fs.c. *)
Definition ext2_iget : Z -> Z -> M kstate nat := iget.

Section ext2.
Context {DD : DiskDriver}.

Definition put_word (bp : nat) (j v : Z) : M kstate unit :=
  d ← bdata bp; bput bp (wr 4 d (Z.to_nat (4 * j)) v).

Definition ext2_readsb (dev : Z) : M kstate ext2_superblock :=
  bp ← bread dev 0;
  d ← bdata bp;
  brelse bp ;;
  mret (dec_ext2_superblock (slice d 1024 1024)).

Definition ext2_iinit (dev : Z) : M kstate unit := sb ← ext2_readsb dev; modify (set_k_exs sb).

(** [for (b = 0; b < exs.s_blocks_per_group * 8; b++)]: the first clear bit,
    set, or -1. *)
Fixpoint zeroth_bit_loop (fuel : nat) (bmap : list Z) (n b : Z) : M kstate (Z * list Z) :=
  match fuel with
  | O => out_of_fuel
  | S fuel =>
      if n <=? b then mret (-1, bmap) else
      x ← unwrap (bmap !! Z.to_nat (b / 8)) "zeroth_bit: past the block";
      if Z.land x (Z.shiftl 1 (b mod 8)) =? 0
      then mret (b, <[Z.to_nat (b / 8) := Z.lor x (Z.shiftl 1 (b mod 8))]> bmap)
      else zeroth_bit_loop fuel bmap n (b + 1)
  end.
Definition zeroth_bit (bp : nat) : M kstate Z :=
  exs ← gets k_exs;
  bmap ← bdata bp;
  r ← zeroth_bit_loop (S (Z.to_nat (BSIZE * 8))) bmap (u32 (s_blocks_per_group exs * 8)) 0;
  bput bp r.2 ;;
  mret r.1.

(** [memmove(&gd, gdbp->data + group_no * sizeof(gd), sizeof(gd))] *)
Definition load_gd (d : list Z) (group_no : Z) : M kstate ext2_group_desc :=
  bs ← load d (u32 (group_no * sizeof_ext2_group_desc)) sizeof_ext2_group_desc;
  mret (dec_ext2_group_desc bs).

Definition ext2_balloc (dev inum : Z) : M kstate Z :=
  exs ← gets k_exs;
  group_no ← GN inum exs;
  gdbp ← bread dev 1;
  d ← bdata gdbp;
  gd ← load_gd d group_no;
  brelse gdbp ;;
  bp ← bread dev (bg_block_bitmap gd);
  zbit ← zeroth_bit bp;
  if -1 <? zbit then
    let bblock := u32 (bg_block_bitmap gd + zbit) in
    bwrite bp ;;
    bzero dev bblock ;;
    brelse bp ;;
    mret bblock
  else
    brelse bp ;;
    panic "balloc: out of blocks".

(** Clearing bit [index] of the bitmap in [bp]. *)
Definition clear_index (bp : nat) (index : Z) (msg : string) : M kstate unit :=
  d ← bdata bp;
  x ← unwrap (d !! Z.to_nat (index / 8)) "bitmap: past the block";
  let m := Z.shiftl 1 (index mod 8) in
  if Z.land x m =? 0 then panic msg else
  bput bp (<[Z.to_nat (index / 8) := Z.ldiff x m]> d).

Definition ext2_bfree (dev b : Z) : M kstate unit :=
  exs ← gets k_exs;
  bg ← udiv b (s_blocks_per_group exs);
  index ← umod b (s_blocks_per_group exs);
  gd_bp ← bread dev 1;
  d ← bdata gd_bp;
  gd ← load_gd d bg;
  bp ← bread dev (bg_block_bitmap gd);
  clear_index bp (u32 (index - bg_block_bitmap gd)) "freeing free block" ;;
  bwrite bp ;;
  brelse bp ;;
  brelse gd_bp.

Definition ext2_ifree (i : nat) : M kstate unit :=
  ip ← getip i;
  exs ← gets k_exs;
  group_no ← GN (i_inum ip) exs;
  gd_bp ← bread (i_dev ip) 1;
  d ← bdata gd_bp;
  gd ← load_gd d group_no;
  brelse gd_bp ;;
  bp ← bread (i_dev ip) (bg_inode_bitmap gd);
  index ← umod (u32 (i_inum ip - 1)) (s_inodes_per_group exs);
  clear_index bp index "freeing free inode" ;;
  bwrite bp ;;
  brelse bp.

Definition mode_of (type m : Z) : Z :=
  if type =? T_FILE then S_IFREG else if type =? T_DIR then S_IFDIR else m.

(** One group per turn; [bp] is the variable of the function, which the
    statement after the loop releases. *)
Fixpoint ext2_ialloc_loop (fuel : nat) (dev type b_grp_count i : Z) (bp : option nat) : M kstate nat :=
  match fuel with
  | O => out_of_fuel
  | S fuel =>
      if b_grp_count <? i then
        bp ← unwrap bp "ext2_ialloc: bp";
        brelse bp ;;
        panic "ialloc: no inodes"
      else
      gd_bp ← bread dev 1;
      d ← bdata gd_bp;
      gd ← load_gd d i;
      brelse gd_bp ;;
      bp ← bread dev (bg_inode_bitmap gd);
      index ← zeroth_bit bp;
      if index =? -1 then
        brelse gd_bp ;;
        brelse bp ;;
        ext2_ialloc_loop fuel dev type b_grp_count (i + 1) (Some bp)
      else
        let per := BSIZE / sizeof_ext2_inode in
        ibp ← bread dev (u32 (bg_inode_table gd + index / per));
        id ← bdata ibp;
        let off := index mod per * sizeof_ext2_inode in
        id ← store id off (replicate (Z.to_nat sizeof_ext2_inode) 0);
        bput ibp (wr 2 id (Z.to_nat off) (mode_of type 0)) ;;
        bwrite ibp ;;
        bwrite bp ;;
        brelse ibp ;;
        brelse bp ;;
        exs ← gets k_exs;
        ext2_iget dev (u32 (i * s_inodes_per_group exs + index + 1))
  end.
Definition ext2_ialloc (dev type : Z) : M kstate nat :=
  exs ← gets k_exs;
  b_grp_count ← udiv (s_blocks_count exs) (s_blocks_per_group exs);
  ext2_ialloc_loop (Z.to_nat (b_grp_count + 2)) dev type b_grp_count 0 None.

(** [i_dtime], [i_faddr], [i_file_acl], [i_flags], [i_generation], [i_gid],
    [i_mtime], [i_size_high], [i_uid] and [i_atime] are cleared. *)
Definition fill_ext2_fields (e : ext2_inode) : ext2_inode :=
  mk_ext2_inode (ei_mode e) 0 (ei_size e) 0 (ei_ctime e) 0 0 0 (ei_links_count e) (ei_blocks e) 0
    (ei_osd1 e) (ei_block e) 0 0 0 0 (ei_osd2 e).

(** Where the inode is: the block of the inode table, and the offset in it. *)
Definition inode_place (gd : ext2_group_desc) (exs : ext2_superblock) (inode_off : Z) : M kstate (Z * Z) :=
  per ← idiv BSIZE (s_inode_size exs);
  q ← idiv inode_off per;
  inode_index ← irem inode_off per;
  mret (u32 (bg_inode_table gd + q), u32 (inode_index * s_inode_size exs)).

(** What [ext2_iupdate] makes of the inode it read. *)
Definition ext2_fill (ip : inode) (a : list Z) (e : ext2_inode) : ext2_inode :=
  set_ei_block a (fill_ext2_fields
    (set_ei_size (i_size ip) (set_ei_links_count (u16 (i_nlink ip))
      (set_ei_mode (mode_of (i_type ip) (ei_mode e)) e)))).

Definition ext2_iupdate (i : nat) : M kstate unit :=
  ip ← getip i;
  exs ← gets k_exs;
  group_no ← GN (i_inum ip) exs;
  inode_off ← IO (i_inum ip) exs;
  gdbp ← bread (i_dev ip) 1;
  d ← bdata gdbp;
  gd ← load_gd d group_no;
  pl ← inode_place gd exs (s32 inode_off);
  bp ← bread (i_dev ip) pl.1;
  d ← bdata bp;
  bs ← load d pl.2 sizeof_ext2_inode;
  a ← get_ext2_addrs (i_addrs ip);
  d' ← store d pl.2 (enc_ext2_inode (ext2_fill ip a (dec_ext2_inode bs)));
  bput bp d' ;;
  bwrite bp ;;
  brelse gdbp ;;
  brelse bp.

(** The type [ext2_ilock] gives the inode: unchanged for a mode it does not
    know. *)
Definition type_of_mode (mode old : Z) : Z :=
  if S_ISDIR mode || (mode =? T_DIR) then T_DIR
  else if S_ISREG mode || (mode =? T_FILE) then T_FILE
  else old.

Definition ext2_ilock (i : nat) : M kstate unit :=
  ip ← getip i;
  if i_ref ip <? 1 then panic "ilock" else
  lk ← acquiresleep (i_lock ip);
  updip i (set_i_lock lk) ;;
  if i_valid ip then mret tt else
  exs ← gets k_exs;
  group_no ← GN (i_inum ip) exs;
  inode_off ← IO (i_inum ip) exs;
  bp1 ← bread (i_dev ip) 1;
  d ← bdata bp1;
  gd ← load_gd d group_no;
  brelse bp1 ;;
  pl ← inode_place gd exs (s32 inode_off);
  bp ← bread (i_dev ip) pl.1;
  d ← bdata bp;
  bs ← load d pl.2 sizeof_ext2_inode;
  let e := dec_ext2_inode bs in
  updip i (fun ip => set_i_size (ei_size e) (set_i_nlink (s16 (ei_links_count e))
    (set_i_minor 0 (set_i_major 0 (set_i_type (type_of_mode (ei_mode e) (i_type ip)) ip))))) ;;
  upd_ext2_addrs (i_addrs ip) (set_a_addrs (ei_block e)) ;;
  brelse bp ;;
  updip i (set_i_valid true) ;;
  if type_of_mode (ei_mode e) (i_type ip) =? 0 then panic "ilock: no type" else mret tt.
End ext2.
