(* ===== verification/Vfs.v ===== *)
(** * Inode contents and the dispatch between the two file systems

  [bmap], [itrunc], [iput], [readi] and [writei] of fs.c and their ext2
  counterparts, and the calls through [ip->file_type->iops].  The data that
  [readi] copies to its destination is returned with the count; the source
  of [writei] is the array of bytes at [src]. *)
From S2P Require Import Prelude Params Layout KState Driver Dll Bio Cache Log LogCrash FsBase FsAlloc Inode Ext2.

(** [devsw]: the functions of the devices by major number. *)
Class Devsw := {
  dev_read : Z -> option (nat -> Z -> M kstate (Z * list Z));
  dev_write : Z -> option (nat -> list Z -> Z -> M kstate Z)
}.

(** [ip->file_type->iops->f(ip, ...)] *)
Definition iops {A} (i : nat) (f_inbuilt f_ext2 : M kstate A) : M kstate A :=
  ip ← getip i;
  match i_file_type ip with
  | Some inbuiltfs => f_inbuilt
  | Some ext2fs => f_ext2
  | None => fault "file_type: null pointer"
  end.

(** [if((addr = ad->addrs[k]) == 0) ad->addrs[k] = addr = alloc] *)
Definition addr_slot (p : addrs_ptr) (k : Z) (alloc : M kstate Z) : M kstate Z :=
  a ← get_addrs p;
  addr ← unwrap (a !! Z.to_nat k) "ad->addrs";
  if addr =? 0 then
    addr ← alloc;
    upd_addrs p (fun x => set_a_addrs (<[Z.to_nat k := addr]> (a_addrs x)) x) ;;
    mret addr
  else mret addr.
Definition ext2_addr_slot (p : addrs_ptr) (k : Z) (alloc : M kstate Z) : M kstate Z :=
  a ← get_ext2_addrs p;
  addr ← unwrap (a !! Z.to_nat k) "ad->addrs";
  if addr =? 0 then
    addr ← alloc;
    upd_ext2_addrs p (fun x => set_a_addrs (<[Z.to_nat k := addr]> (a_addrs x)) x) ;;
    mret addr
  else mret addr.

Section vfs.
Context {DD : DiskDriver} {DS : Devsw}.

Definition iops_iupdate (i : nat) : M kstate unit := iops i (iupdate i) (ext2_iupdate i).
Definition iops_ilock (i : nat) : M kstate unit := iops i (ilock i) (ext2_ilock i).
Definition iops_iunlock (i : nat) : M kstate unit := iops i (iunlock i) (iunlock i).
Definition iops_stati (i : nat) : M kstate stat := iops i (stati i) (stati i).

(** ** Blocks of a file *)
Definition bmap (i : nat) (bn : Z) : M kstate Z :=
  ip ← getip i;
  if bn <? NDIRECT then addr_slot (i_addrs ip) bn (balloc (i_dev ip)) else
  let bn := bn - NDIRECT in
  if bn <? NINDIRECT then
    addr ← addr_slot (i_addrs ip) NDIRECT (balloc (i_dev ip));
    bp ← bread (i_dev ip) addr;
    addr ← get_word bp bn;
    addr ← (if addr =? 0 then
              addr ← balloc (i_dev ip);
              put_word bp bn addr ;;
              log_write bp ;;
              mret addr
            else mret addr);
    brelse bp ;;
    mret addr
  else panic "bmap: out of range".

(** [if((addr = a[j]) == 0) a[j] = addr = ext2_balloc(ip->dev, ip->inum)] *)
Definition ext2_word_slot (bp : nat) (j dev inum : Z) : M kstate Z :=
  addr ← get_word bp j;
  if addr =? 0 then addr ← ext2_balloc dev inum; put_word bp j addr ;; mret addr else mret addr.

(** In the double and triple indirect branches [b] and [c] are [bp->data],
    as is [a]. *)
Definition ext2_bmap (i : nat) (bn : Z) : M kstate Z :=
  ip ← getip i;
  let alloc := ext2_balloc (i_dev ip) (i_inum ip) in
  if bn <? EXT2_NDIR_BLOCKS then ext2_addr_slot (i_addrs ip) bn alloc else
  let bn := bn - EXT2_NDIR_BLOCKS in
  if bn <? NINDIRECT1 then
    addr ← ext2_addr_slot (i_addrs ip) EXT2_IND_BLOCK alloc;
    bp ← bread (i_dev ip) addr;
    addr ← ext2_word_slot bp bn (i_dev ip) (i_inum ip);
    brelse bp ;;
    mret addr
  else
  let bn := bn - NINDIRECT1 in
  if bn <? NDINDIRECT then
    addr ← ext2_addr_slot (i_addrs ip) EXT2_DIND_BLOCK alloc;
    bp ← bread (i_dev ip) addr;
    addr ← ext2_word_slot bp (bn / NINDIRECT1) (i_dev ip) (i_inum ip);
    bp1 ← bread (i_dev ip) addr;
    addr ← ext2_word_slot bp (bn / NINDIRECT1) (i_dev ip) (i_inum ip);
    brelse bp1 ;;
    brelse bp ;;
    mret addr
  else
  let bn := bn - NDINDIRECT in
  if bn <? NTINDIRECT then
    addr ← ext2_addr_slot (i_addrs ip) EXT2_TIND_BLOCK alloc;
    bp ← bread (i_dev ip) addr;
    (if NINDIRECT1 <=? bn / NINDIRECT1 then fault "a[bn / NINDIRECT1]: past the buffer" else mret tt) ;;
    addr ← ext2_word_slot bp (bn / NINDIRECT1) (i_dev ip) (i_inum ip);
    bp1 ← bread (i_dev ip) addr;
    addr ← ext2_word_slot bp (bn / NINDIRECT1) (i_dev ip) (i_inum ip);
    bp2 ← bread (i_dev ip) addr;
    addr ← ext2_word_slot bp (bn / NINDIRECT1) (i_dev ip) (i_inum ip);
    brelse bp2 ;;
    brelse bp1 ;;
    brelse bp ;;
    mret addr
  else panic "bmap: out of range".

(** ** Truncation *)
Definition set_addr (k : Z) (v : Z) (x : addrs) : addrs := set_a_addrs (<[Z.to_nat k := v]> (a_addrs x)) x.

Definition itrunc_direct (i k : nat) : M kstate unit :=
  ip ← getip i;
  a ← get_addrs (i_addrs ip);
  addr ← unwrap (a !! k) "ad->addrs";
  if addr =? 0 then mret tt else
  bfree (i_dev ip) addr ;;
  upd_addrs (i_addrs ip) (set_addr (Z.of_nat k) 0).

Definition itrunc (i : nat) : M kstate unit :=
  forM (seq 0 (Z.to_nat NDIRECT)) (itrunc_direct i) ;;
  ip ← getip i;
  a ← get_addrs (i_addrs ip);
  ind ← unwrap (a !! Z.to_nat NDIRECT) "ad->addrs";
  (if ind =? 0 then mret tt else
     bp ← bread (i_dev ip) ind;
     forM (seq 0 (Z.to_nat NINDIRECT)) (fun j =>
       x ← get_word bp (Z.of_nat j);
       if x =? 0 then mret tt else bfree (i_dev ip) x) ;;
     brelse bp ;;
     bfree (i_dev ip) ind ;;
     upd_addrs (i_addrs ip) (set_addr NDIRECT 0)) ;;
  updip i (set_i_size 0) ;;
  iops_iupdate i.

(** [if(a[j]){ body; ext2_bfree(ip->dev, a[j]); a[j] = 0; }] *)
Definition ext2_free_word (bp : nat) (dev : Z) (j : nat) (body : Z -> M kstate unit) : M kstate unit :=
  x ← get_word bp (Z.of_nat j);
  if x =? 0 then mret tt else
  body x ;;
  x ← get_word bp (Z.of_nat j);
  ext2_bfree dev x ;;
  put_word bp (Z.of_nat j) 0.
Definition words (f : nat -> M kstate unit) : M kstate unit := forM (seq 0 (Z.to_nat (BSIZE / 4))) f.

Definition ext2_addr (i : nat) (k : Z) : M kstate Z :=
  ip ← getip i; a ← get_ext2_addrs (i_addrs ip); unwrap (a !! Z.to_nat k) "addrs->addrs".

Definition ext2_itrunc_direct (i k : nat) : M kstate unit :=
  ip ← getip i;
  addr ← ext2_addr i (Z.of_nat k);
  if addr =? 0 then mret tt else
  ext2_bfree (i_dev ip) addr ;;
  upd_ext2_addrs (i_addrs ip) (set_addr (Z.of_nat k) 0).

(** The statements after the loop over a block of addresses: the block in
    slot [k] is freed, and slot [k'] cleared. *)
Definition ext2_drop (i : nat) (k k' : Z) : M kstate unit :=
  ip ← getip i;
  addr ← ext2_addr i k;
  ext2_bfree (i_dev ip) addr ;;
  upd_ext2_addrs (i_addrs ip) (set_addr k' 0).

Definition ext2_itrunc_ind (i : nat) : M kstate unit :=
  ip ← getip i;
  addr ← ext2_addr i EXT2_IND_BLOCK;
  if addr =? 0 then mret tt else
  bp ← bread (i_dev ip) addr;
  words (fun j => ext2_free_word bp (i_dev ip) j (fun _ => mret tt)) ;;
  brelse bp ;;
  ext2_drop i EXT2_IND_BLOCK EXT2_IND_BLOCK.

(** Here [b] is [bp->data]: the inner loop frees the words of [bp]. *)
Definition ext2_itrunc_dind (i : nat) : M kstate unit :=
  ip ← getip i;
  addr ← ext2_addr i EXT2_DIND_BLOCK;
  if addr =? 0 then mret tt else
  bp ← bread (i_dev ip) addr;
  words (fun j => ext2_free_word bp (i_dev ip) j (fun x =>
    bp1 ← bread (i_dev ip) x;
    words (fun k => ext2_free_word bp (i_dev ip) k (fun _ => mret tt)) ;;
    brelse bp1)) ;;
  brelse bp ;;
  ext2_drop i EXT2_DIND_BLOCK EXT2_DIND_BLOCK.

(** Here the first level is read from slot [EXT2_DIND_BLOCK] and the third
    from [a[j]]. *)
Definition ext2_itrunc_tind (i : nat) : M kstate unit :=
  ip ← getip i;
  addr ← ext2_addr i EXT2_TIND_BLOCK;
  if addr =? 0 then mret tt else
  addr ← ext2_addr i EXT2_DIND_BLOCK;
  bp ← bread (i_dev ip) addr;
  words (fun j => ext2_free_word bp (i_dev ip) j (fun x =>
    bp1 ← bread (i_dev ip) x;
    words (fun k => ext2_free_word bp1 (i_dev ip) k (fun _ =>
      y ← get_word bp (Z.of_nat j);
      bp2 ← bread (i_dev ip) y;
      words (fun l => ext2_free_word bp2 (i_dev ip) l (fun _ => mret tt)) ;;
      brelse bp2)) ;;
    brelse bp1)) ;;
  brelse bp ;;
  ext2_drop i EXT2_DIND_BLOCK EXT2_TIND_BLOCK ;;
  updip i (set_i_size 0) ;;
  iops_iupdate i.

Definition ext2_itrunc (i : nat) : M kstate unit :=
  forM (seq 0 (Z.to_nat EXT2_NDIR_BLOCKS)) (ext2_itrunc_direct i) ;;
  ext2_itrunc_ind i ;;
  ext2_itrunc_dind i ;;
  ext2_itrunc_tind i.

(** ** Dropping a reference *)
Definition unlock_ip (i : nat) : M kstate unit := updip i (fun ip => set_i_lock (releasesleep (i_lock ip)) ip).

Definition iput (i : nat) : M kstate unit :=
  ip ← getip i;
  lk ← acquiresleep (i_lock ip);
  updip i (set_i_lock lk) ;;
  (if i_valid ip && (i_nlink ip =? 0) && (i_ref ip =? 1) then
     itrunc i ;;
     updip i (set_i_type 0) ;;
     iops_iupdate i ;;
     updip i (fun ip => set_i_addrs ANull (set_i_file_type None (set_i_valid false ip)))
   else mret tt) ;;
  unlock_ip i ;;
  updip i (fun ip => set_i_ref (i_ref ip - 1) ip) ;;
  ip' ← getip i;
  if i_ref ip' =? 0 then
    upd_addrs (i_addrs ip) (set_a_busy 0) ;;
    updip i (set_i_addrs ANull)
  else mret tt.

Definition ext2_iput (i : nat) : M kstate unit :=
  ip ← getip i;
  lk ← acquiresleep (i_lock ip);
  updip i (set_i_lock lk) ;;
  (if i_valid ip && (i_nlink ip =? 0) && (i_ref ip =? 1) then
     ext2_ifree i ;;
     ext2_itrunc i ;;
     updip i (fun ip => set_i_size 0 (set_i_type 0 ip)) ;;
     iops_iupdate i ;;
     updip i (fun ip => set_i_file_type None (set_i_valid false ip))
   else mret tt) ;;
  unlock_ip i ;;
  updip i (fun ip => set_i_ref (i_ref ip - 1) ip) ;;
  ip' ← getip i;
  if i_ref ip' =? 0 then
    upd_ext2_addrs (i_addrs ip) (set_a_busy 0) ;;
    updip i (set_i_file_type None)
  else mret tt.

Definition iops_iput (i : nat) : M kstate unit := iops i (iput i) (ext2_iput i).

Definition iunlockput (i : nat) : M kstate unit :=
  iops_iunlock i ;;
  iops_iput i.
Definition iops_iunlockput (i : nat) : M kstate unit := iops i (iunlockput i) (iunlockput i).

(** ** Reading and writing *)
Fixpoint readi_loop (bm : nat -> Z -> M kstate Z) (fuel i : nat) (n tot off : Z) (dst : list Z) : M kstate (list Z) :=
  match fuel with
  | O => out_of_fuel
  | S fuel =>
      if tot <? n then
        ip ← getip i;
        b ← bm i (off / BSIZE);
        bp ← bread (i_dev ip) b;
        let m := Z.min (n - tot) (BSIZE - off mod BSIZE) in
        d ← bdata bp;
        brelse bp ;;
        readi_loop bm fuel i n (tot + m) (off + m) (dst ++ slice d (Z.to_nat (off mod BSIZE)) (Z.to_nat m))
      else mret dst
  end.

Definition readi_with (bm : nat -> Z -> M kstate Z) (i : nat) (off n : Z) : M kstate (Z * list Z) :=
  ip ← getip i;
  if i_type ip =? T_DEV then
    if (i_major ip <? 0) || (NDEV <=? i_major ip) then mret (-1, []) else
    match dev_read (i_major ip) with
    | None => mret (-1, [])
    | Some read => read i (s32 n)
    end
  else if (i_size ip <? off) || (u32 (off + n) <? off) then mret (-1, []) else
  let n := if i_size ip <? off + n then i_size ip - off else n in
  dst ← readi_loop bm (S (Z.to_nat n)) i n 0 off [];
  mret (s32 n, dst).

Definition readi : nat -> Z -> Z -> M kstate (Z * list Z) := readi_with bmap.
Definition ext2_readi : nat -> Z -> Z -> M kstate (Z * list Z) := readi_with ext2_bmap.
Definition iops_readi (i : nat) (off n : Z) : M kstate (Z * list Z) := iops i (readi i off n) (ext2_readi i off n).

Fixpoint writei_loop (bm : nat -> Z -> M kstate Z) (wb : nat -> M kstate unit) (fuel i : nat)
    (src : list Z) (n tot off : Z) : M kstate Z :=
  match fuel with
  | O => out_of_fuel
  | S fuel =>
      if tot <? n then
        ip ← getip i;
        b ← bm i (off / BSIZE);
        bp ← bread (i_dev ip) b;
        let m := Z.min (n - tot) (BSIZE - off mod BSIZE) in
        d ← bdata bp;
        bs ← load src tot m;
        bput bp (splice d (Z.to_nat (off mod BSIZE)) bs) ;;
        wb bp ;;
        brelse bp ;;
        writei_loop bm wb fuel i src n (tot + m) (off + m)
      else mret off
  end.

Definition writei_with (bm : nat -> Z -> M kstate Z) (wb : nat -> M kstate unit) (max : Z)
    (i : nat) (src : list Z) (off n : Z) : M kstate Z :=
  ip ← getip i;
  if i_type ip =? T_DEV then
    if (i_major ip <? 0) || (NDEV <=? i_major ip) then mret (-1) else
    match dev_write (i_major ip) with
    | None => mret (-1)
    | Some write => write i src (s32 n)
    end
  else if (i_size ip <? off) || (u32 (off + n) <? off) then mret (-1) else
  if max <? off + n then mret (-1) else
  off' ← writei_loop bm wb (S (Z.to_nat n)) i src n 0 off;
  ip ← getip i;
  (if (0 <? n) && (i_size ip <? off') then
     updip i (set_i_size off') ;;
     iops_iupdate i
   else mret tt) ;;
  mret (s32 n).

Definition writei : nat -> list Z -> Z -> Z -> M kstate Z := writei_with bmap log_write (MAXFILE * BSIZE).
Definition ext2_writei : nat -> list Z -> Z -> Z -> M kstate Z :=
  writei_with ext2_bmap bwrite (u32 (EXT2_MAXFILE * BSIZE)).
Definition iops_writei (i : nat) (src : list Z) (off n : Z) : M kstate Z :=
  iops i (writei i src off n) (ext2_writei i src off n).
End vfs.
