(* ===== verification/Content.v ===== *)
(** * The contents of files on the root device

  The bytes of a file as the blocks of the cache and the block addresses of
  its inode give them ([fbyte]), the well-formedness of a file ([file_ok]),
  and the specifications of [bmap], [readi], [iupdate] and [writei] of fs.c
  in those terms. *)
From S2P Require Import Prelude Params Layout KState Driver Dll Bio Cache Log LogCrash FsBase FsAlloc Inode Ext2 Vfs.

(** ** Files *)
Definition addr_at (a : list Z) (k : Z) : Z := default 0 (a !! Z.to_nat k).
Definition ind (a : list Z) : Z := addr_at a NDIRECT.
Definition word (d : list Z) (j : Z) : Z := rd 4 d (Z.to_nat (4 * j)).

(** The block that holds block [bn] of the file, or 0. *)
Definition fblock (V : blk -> list Z) (a : list Z) (bn : Z) : Z :=
  if bn <? NDIRECT then addr_at a bn
  else if ind a =? 0 then 0
  else word (V (ROOTDEV, ind a)) (bn - NDIRECT).

(** Byte [o] of the file; a block that is not allocated reads as zeroes. *)
Definition fbyte (V : blk -> list Z) (a : list Z) (o : Z) : Z :=
  let b := fblock V a (o / BSIZE) in
  if b =? 0 then 0 else default 0 (V (ROOTDEV, b) !! Z.to_nat (o mod BSIZE)).

(** The [n] bytes from [off] on. *)
Definition fbytes (V : blk -> list Z) (a : list Z) (off : Z) (n : nat) : list Z :=
  (fun k => fbyte V a (off + Z.of_nat k)) <$> seq 0 n.

(** The indirect block, if there is one. *)
Definition inds (a : list Z) : list Z := if ind a =? 0 then [] else [ind a].

Definition in_file (V : blk -> list Z) (a : list Z) (b : Z) : Prop :=
  b <> 0 /\ (b = ind a \/ exists bn, 0 <= bn < MAXFILE /\ b = fblock V a bn).

Definition owned (sb : superblock) (l : log) (V : blk -> list Z) (b : Z) : Prop :=
  0 <= b < sb_size sb /\ used sb V b = true /\ data_block sb l b.

(** The blocks of a file are data blocks marked in use, and no two parts of
    the file share one. *)
Record file_ok (sb : superblock) (l : log) (V : blk -> list Z) (a : list Z) : Prop := {
  fo_len : length a = Z.to_nat (NDIRECT + 1);
  fo_own : forall b, in_file V a b -> owned sb l V b;
  fo_inj : forall bn bn', 0 <= bn < MAXFILE -> 0 <= bn' < MAXFILE ->
    fblock V a bn <> 0 -> fblock V a bn = fblock V a bn' -> bn = bn';
  fo_ind : forall bn, 0 <= bn < MAXFILE -> fblock V a bn <> 0 -> fblock V a bn <> ind a
}.

(** The file has at most gained blocks that were free: every other block in
    use has its contents. *)
Record grows (sb : superblock) (V : blk -> list Z) (a : list Z) (V' : blk -> list Z) (a' : list Z) : Prop := {
  gr_used : forall b, 0 <= b < sb_size sb -> used sb V b = true -> used sb V' b = true;
  gr_mono : forall b, in_file V a b -> in_file V' a' b;
  gr_new : forall b, in_file V' a' b -> in_file V a b \/ 0 <= b < sb_size sb /\ used sb V b = false;
  gr_other : forall k, k <> (ROOTDEV, BBLOCK 0 sb) -> (k.1 = ROOTDEV -> ~ in_file V' a' k.2) -> V' k = V k
}.

(** The file has the same bytes and at least the same blocks. *)
Record ext_rel (sb : superblock) (l : log) (V : blk -> list Z) (a : list Z) (V' : blk -> list Z) (a' : list Z) : Prop := {
  er_file : file_ok sb l V' a';
  er_bitmap : bitmap_ok sb l V';
  er_keep : forall bn, 0 <= bn < MAXFILE -> fblock V a bn <> 0 -> fblock V' a' bn = fblock V a bn;
  er_bytes : forall o, 0 <= o < MAXFILE * BSIZE -> fbyte V' a' o = fbyte V a o;
  er_ind : ind a <> 0 -> ind a' = ind a;
  er_grows : grows sb V a V' a'
}.

Definition nfree (sb : superblock) (V : blk -> list Z) : nat :=
  length (filter (fun b => used sb V b = false) (seqZ 0 (sb_size sb))).

(** ** Words of a block *)
Lemma le_dec_zeroes n : le_dec (replicate n 0) = 0.
Proof. induction n as [|n IH]; [done|]. change (0 + 256 * le_dec (replicate n 0) = 0). by rewrite IH. Qed.
Lemma word_zero j : word zero_block j = 0.
Proof.
  unfold word, rd, slice, zero_block. rewrite drop_replicate, take_replicate. apply le_dec_zeroes.
Qed.
Lemma word_wr d j v j' :
  length d = Z.to_nat BSIZE -> 0 <= j < NINDIRECT -> 0 <= j' < NINDIRECT -> 0 <= v < 2 ^ 32 ->
  word (wr 4 d (Z.to_nat (4 * j)) v) j' = if j' =? j then v else word d j'.
Proof.
  intros Hd Hj Hj' Hv. unfold word. destruct (Z.eqb_spec j' j) as [->|Hne].
  - rewrite rd_wr by klia. apply Z.mod_small. lia.
  - apply rd_wr_disjoint; klia.
Qed.
Lemma length_put_word d j v : length d = Z.to_nat BSIZE -> 0 <= j < NINDIRECT ->
  length (wr 4 d (Z.to_nat (4 * j)) v) = Z.to_nat BSIZE.
Proof. intros Hd Hj. rewrite length_wr by klia. done. Qed.

(** ** Functions of the contents respect pointwise equality *)
Section ext.
Context (sb : superblock) (l : log) (V V' : blk -> list Z) (HV : forall k, V' k = V k).
Lemma used_ext b : used sb V' b = used sb V b.
Proof using HV. unfold used. by rewrite HV. Qed.
Lemma fblock_ext a bn : fblock V' a bn = fblock V a bn.
Proof using HV. unfold fblock. by rewrite HV. Qed.
Lemma fbyte_ext a o : fbyte V' a o = fbyte V a o.
Proof using HV. unfold fbyte. by rewrite fblock_ext, HV. Qed.
Lemma nfree_ext : nfree sb V' = nfree sb V.
Proof using HV.
  unfold nfree. f_equal. apply list_filter_iff. intros b. by rewrite used_ext.
Qed.
Lemma in_file_ext a b : in_file V' a b <-> in_file V a b.
Proof using HV. unfold in_file. by setoid_rewrite fblock_ext. Qed.
Lemma bitmap_ok_ext : bitmap_ok sb l V -> bitmap_ok sb l V'.
Proof using HV. intros H b Hb. rewrite used_ext. by apply H. Qed.
Lemma file_ok_ext a : file_ok sb l V a -> file_ok sb l V' a.
Proof using HV.
  intros [H1 H2 H3 H4]. split; [done|..].
  - intros b Hb%in_file_ext. unfold owned. rewrite used_ext. by apply H2.
  - intros bn bn'. rewrite !fblock_ext. apply H3.
  - intros bn. rewrite fblock_ext. apply H4.
Qed.
End ext.

Lemma ext_rel_ext sb l V a V' a' V'' :
  (forall k, V'' k = V' k) -> ext_rel sb l V a V' a' -> ext_rel sb l V a V'' a'.
Proof.
  intros HV [Hf Hb Hk Hy Hi [G1 G2 G3 G4]]. split.
  - by eapply file_ok_ext.
  - by eapply bitmap_ok_ext.
  - intros bn. rewrite (fblock_ext V' V'' HV). apply Hk.
  - intros o. rewrite (fbyte_ext V' V'' HV). apply Hy.
  - done.
  - split.
    + intros b. rewrite (used_ext sb V' V'' HV). apply G1.
    + intros b. rewrite (in_file_ext V' V'' HV). apply G2.
    + intros b. rewrite (in_file_ext V' V'' HV). apply G3.
    + intros k. rewrite HV, (in_file_ext V' V'' HV). apply G4.
Qed.

Lemma grows_refl sb V a : grows sb V a V a.
Proof. split; auto. Qed.
Lemma grows_trans sb V a V1 a1 V2 a2 :
  grows sb V a V1 a1 -> grows sb V1 a1 V2 a2 -> grows sb V a V2 a2.
Proof.
  intros [U1 M1 N1 O1] [U2 M2 N2 O2]. split; [by auto|by auto|..].
  - intros b [Hb|[Hr Hb]]%N2; [by apply N1|]. right. split; [done|].
    destruct (used sb V b) eqn:E; [|done]. by rewrite (U1 b Hr E) in Hb.
  - intros k Hk Hn. rewrite O2, O1; [done|done| |done|done]. intros E Hin. by apply (Hn E), M2.
Qed.
Lemma ext_rel_refl sb l V a : file_ok sb l V a -> bitmap_ok sb l V -> ext_rel sb l V a V a.
Proof. intros. split; auto using grows_refl. Qed.
Lemma ext_rel_trans sb l V a V1 a1 V2 a2 :
  ext_rel sb l V a V1 a1 -> ext_rel sb l V1 a1 V2 a2 -> ext_rel sb l V a V2 a2.
Proof.
  intros [F1 B1 K1 Y1 I1 G1] [F2 B2 K2 Y2 I2 G2]. split; try done.
  - intros bn Hbn H0. pose proof (K1 bn Hbn H0) as E. rewrite K2; [done|done|congruence].
  - intros o Ho. by rewrite Y2, Y1.
  - intros H0. pose proof (I1 H0) as E. rewrite I2; congruence.
  - by eapply grows_trans.
Qed.

(** ** Allocation, in terms of the contents *)
Record alloc_rel (sb : superblock) (l : log) (V : blk -> list Z) (b : Z) (V' : blk -> list Z) : Prop := {
  ar_range : 0 <= b < sb_size sb;
  ar_free : used sb V b = false;
  ar_data : data_block sb l b;
  ar_zero : V' (ROOTDEV, b) = zero_block;
  ar_used : forall b', 0 <= b' < sb_size sb -> used sb V' b' = (b =? b') || used sb V b';
  ar_frame : forall k, k <> (ROOTDEV, b) -> k <> (ROOTDEV, BBLOCK 0 sb) -> V' k = V k
}.

Lemma BBLOCK_0 sb l b : sb_ok sb l -> 0 <= b < sb_size sb -> BBLOCK b sb = BBLOCK 0 sb.
Proof.
  intros Ok Hb. pose proof (so_size _ _ Ok). unfold BBLOCK. f_equal. f_equal.
  rewrite !Z.div_small; [done|klia|klia].
Qed.

Lemma owned_frame sb l V b V' b' :
  sb_ok sb l -> alloc_rel sb l V b V' -> owned sb l V b' -> V' (ROOTDEV, b') = V (ROOTDEV, b') /\ b' <> b /\ owned sb l V' b'.
Proof.
  intros Ok A (Hr & Hu & Hd). assert (b' <> b) as Hne.
  { intros ->. by rewrite (ar_free _ _ _ _ _ A) in Hu. }
  pose proof (so_size _ _ Ok).
  split_and!; [|done|].
  - apply (ar_frame _ _ _ _ _ A); [by intros [=]|]. intros [= E]. apply (db_bmap _ _ _ Hd 0); [lia|done].
  - split; [done|]. split; [|done]. rewrite (ar_used _ _ _ _ _ A) by done. by rewrite Hu, orb_true_r.
Qed.

Lemma bitmap_ok_alloc sb l V b V' : alloc_rel sb l V b V' -> bitmap_ok sb l V -> bitmap_ok sb l V'.
Proof.
  intros A B b' Hr. rewrite (ar_used _ _ _ _ _ A) by done. intros [_ Hu]%orb_false_iff. by apply B.
Qed.

Lemma filter_ext_in (P Q : Z -> Prop) `{!forall x, Decision (P x), !forall x, Decision (Q x)} (l : list Z) :
  (forall x, x ∈ l -> P x <-> Q x) -> filter P l = filter Q l.
Proof.
  induction l as [|x l IH]; intros HPQ; [done|]. rewrite !filter_cons.
  rewrite IH by (intros y Hy; apply HPQ; by constructor).
  assert (P x <-> Q x) as E by (apply HPQ; constructor).
  destruct (decide (P x)); [rewrite decide_True by tauto|rewrite decide_False by tauto]; done.
Qed.

Lemma length_filter_update (P Q : Z -> Prop) `{!forall x, Decision (P x), !forall x, Decision (Q x)} (l : list Z) b :
  NoDup l -> b ∈ l -> P b -> (forall x, x ∈ l -> Q x <-> P x /\ x <> b) ->
  length (filter P l) = S (length (filter Q l)).
Proof.
  induction 1 as [|x l Hx Hnd IH]; intros Hb HP HQ; [by apply elem_of_nil in Hb|].
  rewrite !filter_cons. apply elem_of_cons in Hb as [<-|Hb].
  - rewrite decide_True by done. rewrite decide_False by (rewrite HQ by constructor; naive_solver).
    simpl. f_equal. f_equal. apply filter_ext_in. intros y Hy. rewrite HQ by (by constructor).
    split; [|naive_solver]. intros Hp. split; [done|]. by intros ->.
  - assert (b <> x) by congruence.
    destruct (decide (P x)); [rewrite decide_True by (rewrite HQ by constructor; auto)|
      rewrite decide_False by (rewrite HQ by constructor; naive_solver)]; simpl;
      rewrite IH; try done; intros y Hy; apply HQ; by constructor.
Qed.

Lemma nfree_alloc sb l V b V' : alloc_rel sb l V b V' -> nfree sb V = S (nfree sb V').
Proof.
  intros A. unfold nfree. pose proof (ar_range _ _ _ _ _ A) as Hr.
  apply (length_filter_update _ _ _ b); [apply NoDup_seqZ|apply elem_of_seqZ; lia|apply A|].
  intros x Hx%elem_of_seqZ. rewrite (ar_used _ _ _ _ _ A) by lia.
  destruct (Z.eqb_spec b x) as [->|Hne]; simpl; [|naive_solver].
  rewrite (ar_free _ _ _ _ _ A). naive_solver.
Qed.

Lemma nfree_pos sb V : (0 < nfree sb V)%nat -> exists b, 0 <= b < sb_size sb /\ used sb V b = false.
Proof.
  unfold nfree. intros H. destruct (filter _ (seqZ 0 (sb_size sb))) as [|b bs] eqn:E; [simpl in H; lia|].
  assert (b ∈ filter (fun b => used sb V b = false) (seqZ 0 (sb_size sb))) as Hb by (rewrite E; constructor).
  apply list_elem_of_filter in Hb as [Hu Hb%elem_of_seqZ]. exists b. split; [lia|done].
Qed.

Lemma addr_at_insert a k v k' : (Z.to_nat k < length a)%nat -> 0 <= k -> 0 <= k' ->
  addr_at (<[Z.to_nat k := v]> a) k' = if k' =? k then v else addr_at a k'.
Proof.
  intros Hl Hk Hk'. unfold addr_at. destruct (Z.eqb_spec k' k) as [->|Hne].
  - by rewrite list_lookup_insert_eq.
  - by rewrite list_lookup_insert_ne by lia.
Qed.

Section add.
Context (sb : superblock) (l : log) (V : blk -> list Z) (a : list Z) (b : Z) (V1 : blk -> list Z).
Context (Ok : sb_ok sb l) (F : file_ok sb l V a) (B : bitmap_ok sb l V) (A : alloc_rel sb l V b V1).

Lemma fresh_pos : b <> 0.
Proof using A. pose proof (db_pos _ _ _ (ar_data _ _ _ _ _ A)). lia. Qed.

Lemma fresh_notin : ~ in_file V a b.
Proof using F A. intros H. destruct (fo_own _ _ _ _ F b H) as (_ & Hu & _). by rewrite (ar_free _ _ _ _ _ A) in Hu. Qed.

Lemma ind_in : ind a <> 0 -> in_file V a (ind a).
Proof. intros H. split; [done|by left]. Qed.
Lemma fblock_in bn : 0 <= bn < MAXFILE -> fblock V a bn <> 0 -> in_file V a (fblock V a bn).
Proof. intros Hbn H. split; [done|]. right. by exists bn. Qed.

(** A block gained by the file, at [bn]; only the indirect block may have
    changed besides what the allocation changed. *)
Lemma ext_add (V' : blk -> list Z) a' bn :
  0 <= bn < MAXFILE -> fblock V a bn = 0 -> ind a' = ind a -> length a' = length a ->
  (forall bn', 0 <= bn' < MAXFILE -> fblock V' a' bn' = if bn' =? bn then b else fblock V a bn') ->
  (forall k, ind a = 0 \/ k <> (ROOTDEV, ind a) -> V' k = V1 k) ->
  ext_rel sb l V a V' a'.
Proof using Ok F B A.
  intros Hbn H0 Hi Hl Hb Hk. pose proof fresh_pos as Hp. pose proof fresh_notin as Hn.
  pose proof (so_size _ _ Ok) as Hsz.
  assert (forall b', owned sb l V b' -> b' <> ind a -> V' (ROOTDEV, b') = V (ROOTDEV, b')) as Hdata.
  { intros b' Ho Hne. rewrite Hk by (right; by intros [=]). by apply (owned_frame sb l V b V1). }
  assert (V' (ROOTDEV, BBLOCK 0 sb) = V1 (ROOTDEV, BBLOCK 0 sb)) as Hbm.
  { apply Hk. destruct (decide (ind a = 0)) as [?|Hne]; [by left|right]. intros [= E].
    destruct (fo_own _ _ _ _ F (ind a) (ind_in Hne)) as (_ & _ & D). apply (db_bmap _ _ _ D 0); [lia|done]. }
  assert (forall b', 0 <= b' < sb_size sb -> used sb V' b' = (b =? b') || used sb V b') as Hu.
  { intros b' Hr. rewrite <- (ar_used _ _ _ _ _ A) by done. unfold used. by rewrite (BBLOCK_0 sb l b'), Hbm. }
  assert (forall b', in_file V' a' b' <-> in_file V a b' \/ b' = b) as Hin.
  { intros b'. unfold in_file. rewrite Hi. split.
    - intros [Hz [E|(bn' & Hr & E)]]; [by auto|]. rewrite Hb in E by done.
      destruct (bn' =? bn); [by right|left]. split; [done|]. right. by exists bn'.
    - intros [[Hz [E|(bn' & Hr & E)]]| ->].
      + by auto.
      + split; [done|]. right. exists bn'. split; [done|]. rewrite Hb by done.
        destruct (Z.eqb_spec bn' bn) as [->|]; congruence.
      + split; [done|]. right. exists bn. split; [done|]. rewrite Hb by done. by rewrite Z.eqb_refl. }
  assert (forall b', in_file V a b' -> owned sb l V' b') as Hown.
  { intros b' H. destruct (fo_own _ _ _ _ F b' H) as (? & Hub & ?). split; [done|]. split; [|done].
    by rewrite Hu, Hub, orb_true_r by done. }
  split.
  - split.
    + rewrite Hl. apply F.
    + intros b' [H| ->]%Hin; [by apply Hown|]. split; [apply A|]. split; [|apply A].
      rewrite Hu by apply A. by rewrite Z.eqb_refl.
    + intros x y Hx Hy. rewrite !Hb by done. destruct (Z.eqb_spec x bn) as [->|], (Z.eqb_spec y bn) as [->|]; [done|..].
      * intros Hz E. destruct Hn. rewrite E. apply fblock_in; [done|congruence].
      * intros Hz E. destruct Hn. rewrite <- E. by apply fblock_in.
      * by apply (fo_inj _ _ _ _ F).
    + intros x Hx. rewrite Hi, Hb by done. destruct (Z.eqb_spec x bn) as [->|]; [|by apply (fo_ind _ _ _ _ F)].
      intros _ E. destruct Hn. rewrite E. apply ind_in. congruence.
  - intros b' Hr. rewrite Hu by done. intros [_ Hub]%orb_false_iff. by apply B.
  - intros x Hx Hz. rewrite Hb by done. by destruct (Z.eqb_spec x bn) as [->|].
  - intros o Ho. unfold fbyte. assert (0 <= o / BSIZE < MAXFILE) as Hr.
    { split; [apply Z.div_pos; klia|apply Z.div_lt_upper_bound; klia]. }
    rewrite Hb by done. destruct (Z.eqb_spec (o / BSIZE) bn) as [->|].
    + rewrite H0. destruct (Z.eqb_spec b 0) as [|_]; [done|]. simpl.
      rewrite Hk by (destruct (decide (ind a = 0)) as [?|Hne]; [by left|right; intros [= E]; apply Hn; rewrite E; by apply ind_in]).
      rewrite (ar_zero _ _ _ _ _ A). unfold zero_block. destruct (_ !! _) eqn:E; [|done]. by apply lookup_replicate in E as [-> _].
    + destruct (Z.eqb_spec (fblock V a (o / BSIZE)) 0); [done|].
      rewrite Hdata; [done| |by apply (fo_ind _ _ _ _ F)]. by apply (fo_own _ _ _ _ F), fblock_in.
  - done.
  - split.
    + intros b' Hr Hub. by rewrite Hu, Hub, orb_true_r by done.
    + intros b' H. apply Hin. by left.
    + intros b' [H| ->]%Hin; [by left|right]. split; apply A.
    + intros [dev b'] Hk0 Hnin. simpl in Hnin. rewrite Hk.
      * apply (ar_frame _ _ _ _ _ A); [|done]. intros [= -> ->]. apply Hnin; [done|]. apply Hin. by right.
      * destruct (decide (ind a = 0)) as [?|Hne]; [by left|right]. intros [= -> ->].
        apply Hnin; [done|]. apply Hin. left. by apply ind_in.
Qed.

(** The indirect block gained. *)
Lemma ext_ind : ind a = 0 -> ext_rel sb l V a V1 (<[Z.to_nat NDIRECT := b]> a).
Proof using Ok F B A.
  intros H0. pose proof fresh_pos as Hp. pose proof fresh_notin as Hn. pose proof (fo_len _ _ _ _ F) as Hlen.
  set (a1 := <[Z.to_nat NDIRECT := b]> a).
  assert (ind a1 = b) as Hi by (unfold ind, a1; rewrite addr_at_insert by klia; done).
  assert (forall bn, 0 <= bn -> fblock V1 a1 bn = fblock V a bn) as Hb.
  { intros bn Hbn. unfold fblock. rewrite Hi, H0. destruct (Z.ltb_spec bn NDIRECT) as [|Hge].
    - unfold a1. rewrite addr_at_insert by klia. by destruct (Z.eqb_spec bn NDIRECT); [lia|].
    - destruct (Z.eqb_spec b 0); [done|]. simpl. rewrite (ar_zero _ _ _ _ _ A). apply word_zero. }
  assert (forall b', in_file V1 a1 b' <-> in_file V a b' \/ b' = b) as Hin.
  { intros b'. unfold in_file. rewrite Hi, H0. split.
    - intros [Hz [E|(bn' & Hr & E)]]; [by auto|]. rewrite Hb in E by lia. left. split; [done|]. right. by exists bn'.
    - intros [[Hz [E|(bn' & Hr & E)]]| ->]; [done| |by auto].
      split; [done|]. right. exists bn'. by rewrite Hb by lia. }
  split.
  - split.
    + unfold a1. by rewrite length_insert.
    + intros b' [H| ->]%Hin; [by apply (owned_frame sb l V b V1), (fo_own _ _ _ _ F)|].
      split; [apply A|]. split; [|apply A]. rewrite (ar_used _ _ _ _ _ A) by apply A. by rewrite Z.eqb_refl.
    + intros x y Hx Hy. rewrite !Hb by lia. by apply (fo_inj _ _ _ _ F).
    + intros x Hx. rewrite Hi, Hb by lia. intros Hz E. apply Hn. rewrite <- E. by apply fblock_in.
  - by eapply bitmap_ok_alloc.
  - intros x Hx Hz. by rewrite Hb by lia.
  - intros o Ho. unfold fbyte. assert (0 <= o / BSIZE < MAXFILE) as Hr.
    { split; [apply Z.div_pos; klia|apply Z.div_lt_upper_bound; klia]. }
    rewrite Hb by lia. destruct (Z.eqb_spec (fblock V a (o / BSIZE)) 0); [done|].
    f_equal. f_equal. by apply (owned_frame sb l V b V1), (fo_own _ _ _ _ F), fblock_in.
  - done.
  - split.
    + intros b' Hr Hub. rewrite (ar_used _ _ _ _ _ A) by done. by rewrite Hub, orb_true_r.
    + intros b' H. apply Hin. by left.
    + intros b' [H| ->]%Hin; [by left|right]. split; apply A.
    + intros [dev b'] Hk0 Hnin. apply (ar_frame _ _ _ _ _ A); [|done]. intros [= -> ->].
      apply Hnin; [done|]. apply Hin. by right.
Qed.

(** A direct block gained. *)
Lemma ext_direct bn : 0 <= bn < NDIRECT -> addr_at a bn = 0 -> ext_rel sb l V a V1 (<[Z.to_nat bn := b]> a).
Proof using Ok F B A.
  intros Hbn H0. pose proof (fo_len _ _ _ _ F) as Hlen.
  assert (ind (<[Z.to_nat bn := b]> a) = ind a) as Hi.
  { unfold ind. rewrite addr_at_insert by klia. by destruct (Z.eqb_spec NDIRECT bn); [lia|]. }
  assert (fblock V a bn = 0) as Hf by (unfold fblock; by destruct (Z.ltb_spec bn NDIRECT); [|lia]).
  apply (ext_add V1 _ bn); [klia|done|done|by rewrite length_insert| |done].
  intros bn' Hbn'. unfold fblock. rewrite Hi. destruct (Z.ltb_spec bn' NDIRECT).
  - by rewrite addr_at_insert by klia.
  - destruct (Z.eqb_spec bn' bn); [lia|]. destruct (Z.eqb_spec (ind a) 0) as [|Hne]; [done|].
    f_equal. by apply (owned_frame sb l V b V1), (fo_own _ _ _ _ F), ind_in.
Qed.

(** A block gained through the indirect block. *)
Lemma ext_indirect (V' : blk -> list Z) bn :
  NDIRECT <= bn < MAXFILE -> ind a <> 0 -> fblock V a bn = 0 -> (forall k, V' k =
    <[(ROOTDEV, ind a) := wr 4 (V1 (ROOTDEV, ind a)) (Z.to_nat (4 * (bn - NDIRECT))) b]> V1 k) ->
  length (V1 (ROOTDEV, ind a)) = Z.to_nat BSIZE -> ext_rel sb l V a V' a.
Proof using Ok F B A.
  intros Hbn Hi H0 HV' Hlen. pose proof (ar_range _ _ _ _ _ A) as Hr. pose proof (so_size _ _ Ok) as Hsz.
  assert (V1 (ROOTDEV, ind a) = V (ROOTDEV, ind a)) as HV1
    by (by apply (owned_frame sb l V b V1), (fo_own _ _ _ _ F), ind_in).
  apply (ext_add _ _ bn); try done; [klia| |].
  - intros bn' Hbn'. unfold fblock. destruct (Z.eqb_spec (ind a) 0) as [|_]; [done|].
    destruct (Z.ltb_spec bn' NDIRECT); [by destruct (Z.eqb_spec bn' bn); [lia|]|].
    rewrite HV', fn_lookup_insert, word_wr by (try done; klia). rewrite HV1.
    destruct (Z.eqb_spec (bn' - NDIRECT) (bn - NDIRECT)), (Z.eqb_spec bn' bn); done || lia.
  - intros k [?|Hk]; [done|]. rewrite HV'. by rewrite fn_lookup_insert_ne.
Qed.
End add.

(** ** Operations on an open inode *)
Section ops.
Context {DD : DiskDriver} {DS : Devsw}.

(** An inode of the root device in the cache, with no buffer held. *)
Record oinode (sb : superblock) (s : kstate) (c : cache) (l : log) (i : nat) (ip : inode) (j : nat) (x : addrs) : Prop := {
  oi_fsx : fsx s c l;
  oi_sb : k_sb s = sb;
  oi_ok : sb_ok sb l;
  oi_bitmap : bitmap_ok sb l (c_view c);
  oi_held : c_held c = ∅;
  oi_ip : k_icache s !! i = Some ip;
  oi_dev : i_dev ip = ROOTDEV;
  oi_addrs : i_addrs ip = AAddrs j;
  oi_x : k_iaddrs s !! j = Some x;
  oi_file : file_ok sb l (c_view c) (a_addrs x)
}.

Lemma rep_iaddrs s c ia : rep s c -> rep (set_k_iaddrs ia s) c.
Proof.
  intros R. pose proof (rep_wf _ _ R) as W. split; try apply R. split; try apply W.
  intros i x Hx. destruct (wf_buf _ W i x Hx). by split.
Qed.
Lemma fsx_iaddrs s c l ia : fsx s c l -> fsx (set_k_iaddrs ia s) c l.
Proof.
  intros [[R ? ? ? ?] ? Hd]. split; [split; try done; by apply rep_iaddrs|done|].
  intros b Hb. eapply dd_ok_frame; [..|exact (Hd b Hb)]; done.
Qed.
Lemma rep_icache s c ic : rep s c -> rep (set_k_icache ic s) c.
Proof.
  intros R. pose proof (rep_wf _ _ R) as W. split; try apply R. split; try apply W.
  intros i x Hx. destruct (wf_buf _ W i x Hx). by split.
Qed.
Lemma fsx_icache s c l ic : fsx s c l -> fsx (set_k_icache ic s) c l.
Proof.
  intros [[R ? ? ? ?] ? Hd]. split; [split; try done; by apply rep_icache|done|].
  intros b Hb. eapply dd_ok_frame; [..|exact (Hd b Hb)]; done.
Qed.

(** *** States up to the inode tables *)
Definition tables (ic : list inode) (ia : list addrs) (s : kstate) : kstate := set_k_icache ic (set_k_iaddrs ia s).

Lemma fsx_tables ic ia s c l : fsx s c l -> fsx (tables ic ia s) c l.
Proof. intros F. by apply fsx_icache, fsx_iaddrs. Qed.

(** The state after an operation that may also have changed the tables of
    the inode cache. *)
Definition fi_next (s : kstate) (c : cache) (l : log) (bs : list Z) (s' : kstate) (c' : cache) (l' : log) : Prop :=
  fs_next s c l bs (c_view c') (tables (k_icache s) (k_iaddrs s) s') c' l'.

Lemma fs_next_tables ic ia s c l bs V s' c' l' :
  fs_next s c l bs V s' c' l' -> fs_next (tables ic ia s) c l bs V (tables ic ia s') c' l'.
Proof.
  intros [F S L G Hh Hv Hd Hw]. split; try done; [by apply fsx_tables|]. unfold log_frame. rewrite G. by destruct s.
Qed.
Lemma fi_of s c l bs V s' c' l' :
  fs_next s c l bs V s' c' l' -> fi_next s c l bs s' c' l' /\ k_icache s' = k_icache s /\ k_iaddrs s' = k_iaddrs s.
Proof.
  intros N. pose proof (fn_frame _ _ _ _ _ _ _ _ N) as G.
  assert (k_icache s' = k_icache s /\ k_iaddrs s' = k_iaddrs s) as [E1 E2] by (rewrite G; by destruct s).
  split; [|done]. unfold fi_next, tables. rewrite <- E1, <- E2.
  replace (set_k_icache _ _) with s' by (by destruct s'). eapply fs_next_mono; [exact N|done|apply N].
Qed.
Lemma fi_trans s c l bs s1 c1 l1 bs' s2 c2 l2 :
  fi_next s c l bs s1 c1 l1 -> fi_next s1 c1 l1 bs' s2 c2 l2 -> fi_next s c l (bs ++ bs') s2 c2 l2.
Proof.
  intros N1 N2. eapply fs_next_trans; [exact N1|].
  apply (fs_next_tables (k_icache s) (k_iaddrs s)) in N2. exact N2.
Qed.
Lemma fi_mono s c l bs s' c' l' bs' : fi_next s c l bs s' c' l' -> bs ⊆ bs' -> fi_next s c l bs' s' c' l'.
Proof. intros N H. by eapply fs_next_mono. Qed.
Lemma fi_iaddrs s c l bs s' c' l' ia : fi_next s c l bs s' c' l' -> fi_next s c l bs (set_k_iaddrs ia s') c' l'.
Proof. done. Qed.
Lemma fi_icache s c l bs s' c' l' ic : fi_next s c l bs s' c' l' -> fi_next s c l bs (set_k_icache ic s') c' l'.
Proof. done. Qed.
Lemma fi_fsx s c l bs s' c' l' : fi_next s c l bs s' c' l' -> fsx s' c' l'.
Proof.
  intros N. pose proof (fsx_tables (k_icache s') (k_iaddrs s') _ _ _ (fn_fsx _ _ _ _ _ _ _ _ N)) as F.
  replace (tables _ _ _) with s' in F by (by destruct s'). done.
Qed.
Lemma fi_sb s c l bs s' c' l' : fi_next s c l bs s' c' l' -> k_sb s' = k_sb s.
Proof.
  intros N. pose proof (fn_frame _ _ _ _ _ _ _ _ N) as G. apply (f_equal k_sb) in G. exact G.
Qed.
Lemma fi_same s c l bs s' c' l' : fi_next s c l bs s' c' l' -> same_txn l l'.
Proof. apply fn_same. Qed.
Lemma fi_held s c l bs s' c' l' : fi_next s c l bs s' c' l' -> c_held c' = c_held c.
Proof. apply fn_held. Qed.
Lemma fi_n s c l bs s' c' l' :
  fsx s c l -> fi_next s c l bs s' c' l' ->
  lh_n l' <= lh_n l + Z.of_nat (length bs) /\ log_size l' = log_size l.
Proof.
  intros F N. split; [eapply fs_next_n; [apply F|exact N]|].
  by destruct (fi_same _ _ _ _ _ _ _ N) as (_ & _ & ? & _).
Qed.

Lemma file_ok_same sb l l' V a : same_txn l l' -> file_ok sb l V a -> file_ok sb l' V a.
Proof.
  intros S [? H ? ?]. split; try done. intros b Hb. destruct (H b Hb) as (? & ? & ?).
  split; [done|]. split; [done|]. by eapply data_block_same.
Qed.
Lemma bitmap_ok_same sb l l' V : same_txn l l' -> bitmap_ok sb l V -> bitmap_ok sb l' V.
Proof. intros S H b Hb Hu. eapply data_block_same; [done|]. by apply H. Qed.

Lemma ext_rel_same sb l l' V a V' a' : same_txn l l' -> ext_rel sb l' V a V' a' -> ext_rel sb l V a V' a'.
Proof.
  intros S [? ? ? ? ? ?]. assert (same_txn l' l) as S' by (destruct S as (?&?&?&?&?); split_and!; congruence).
  split; try done; [by eapply file_ok_same|by eapply bitmap_ok_same].
Qed.

Lemma oinode_next sb s c l i ip j x bs s' c' l' ip' x' :
  oinode sb s c l i ip j x -> fi_next s c l bs s' c' l' ->
  k_icache s' !! i = Some ip' -> i_dev ip' = i_dev ip -> i_addrs ip' = i_addrs ip ->
  k_iaddrs s' !! j = Some x' ->
  file_ok sb l (c_view c') (a_addrs x') -> bitmap_ok sb l (c_view c') ->
  oinode sb s' c' l' i ip' j x'.
Proof.
  intros O N Hi Hd Ha Hx Hf Hb. pose proof (fi_same _ _ _ _ _ _ _ N) as S. split; try done.
  - by eapply fi_fsx.
  - rewrite (fi_sb _ _ _ _ _ _ _ N). apply O.
  - eapply sb_ok_same; [done|apply O].
  - by eapply bitmap_ok_same.
  - rewrite (fi_held _ _ _ _ _ _ _ N). apply O.
  - rewrite Hd. apply O.
  - rewrite Ha. apply O.
  - by eapply file_ok_same.
Qed.

(** *** Access to the tables *)
Lemma get_addrs_Some s j x : k_iaddrs s !! j = Some x -> get_addrs (AAddrs j) s = Ret (a_addrs x) s.
Proof. intros H. unfold get_addrs. run_steps. by rewrite H. Qed.
Lemma upd_addrs_Some s j x f : k_iaddrs s !! j = Some x ->
  upd_addrs (AAddrs j) f s = Ret tt (set_k_iaddrs (<[j := f x]> (k_iaddrs s)) s).
Proof. intros H. unfold upd_addrs. run_steps. by rewrite H. Qed.

Lemma addr_slot_hit s j x k alloc :
  k_iaddrs s !! j = Some x -> (Z.to_nat k < length (a_addrs x))%nat -> addr_at (a_addrs x) k <> 0 ->
  addr_slot (AAddrs j) k alloc s = Ret (addr_at (a_addrs x) k) s.
Proof.
  intros Hx Hk H0. unfold addr_slot. run (get_addrs_Some _ _ _ Hx).
  apply lookup_lt_is_Some in Hk as [v Hv].
  assert (addr_at (a_addrs x) k = v) as E by (unfold addr_at; by rewrite Hv). rewrite E in *.
  rewrite (bind_unwrap _ v) by done. by destruct (Z.eqb_spec v 0).
Qed.

(** *** The allocator, in terms of the contents *)
Lemma balloc_rel sb s c l :
  balloc_pre sb s c l -> (0 < nfree sb (c_view c))%nat ->
  wp (balloc ROOTDEV) (fun b s' => exists c' l',
    fs_next s c l [BBLOCK 0 sb; b] (c_view c') s' c' l' /\ alloc_rel sb l (c_view c) b (c_view c')) s.
Proof.
  intros P (b0 & Hb0 & Hu0)%nfree_pos. eapply wp_mono; [by eapply balloc_spec|].
  intros b s' (Hb & Hub & _ & c' & l' & N). exists c', l'.
  pose proof (fn_view _ _ _ _ _ _ _ _ N) as HV. pose proof (bp_ok _ _ _ _ P) as Ok.
  pose proof (bp_bitmap _ _ _ _ P b Hb Hub) as D. pose proof (BBLOCK_0 sb l b Ok Hb) as E0.
  split; [eapply fs_next_mono; [exact N|by rewrite E0|done]|].
  split; try done.
  - rewrite HV. unfold a_balloc. by rewrite fn_lookup_insert.
  - intros b' Hb'. rewrite <- (used_balloc sb l (c_view c) b b' Ok Hb Hb');
      [unfold used; by rewrite HV|apply (fx_length s c l), P|apply D].
  - intros k H1 H2. rewrite HV. unfold a_balloc. by rewrite !fn_lookup_insert_ne by congruence.
Qed.

Lemma not_in_empty c b : c_held c = ∅ -> not_in c b.
Proof. intros H j. by rewrite H, lookup_empty. Qed.

Lemma oinode_balloc sb s c l i ip j x :
  oinode sb s c l i ip j x -> lh_n l + 2 <= log_size l - 1 -> balloc_pre sb s c l.
Proof.
  intros O Hn. pose proof (lw_region _ (tx_wf _ _ _ (fx_txn _ _ _ (oi_fsx _ _ _ _ _ _ _ _ O)))) as Hreg.
  pose proof (oi_held _ _ _ _ _ _ _ _ O) as Hh. split; try apply O; try done.
  - intros b _. by apply not_in_empty.
  - intros b _ _. by apply not_in_empty.
  - rewrite Hh, map_size_empty. klia.
Qed.

Lemma tables_id s : tables (k_icache s) (k_iaddrs s) s = s.
Proof. by destruct s. Qed.
Lemma fi_refl s c l : fsx s c l -> fi_next s c l [] s c l.
Proof. intros F. unfold fi_next. rewrite tables_id. by apply fs_next_refl. Qed.
Lemma iaddrs_id s j x : k_iaddrs s !! j = Some x -> k_iaddrs s = <[j := set_a_addrs (a_addrs x) x]> (k_iaddrs s).
Proof. intros H. rewrite list_insert_id; [done|]. by destruct x. Qed.

(** What looking a block address up, allocating it if need be, promises. *)
Definition slot_post (sb : superblock) (s : kstate) (c : cache) (l : log) (j : nat) (x : addrs) (n : nat)
    (s' : kstate) (c' : cache) (l' : log) (bs a' : list Z) : Prop :=
  fi_next s c l bs s' c' l' /\ k_icache s' = k_icache s /\
  k_iaddrs s' = <[j := set_a_addrs a' x]> (k_iaddrs s) /\
  ext_rel sb l (c_view c) (a_addrs x) (c_view c') a' /\
  (nfree sb (c_view c) <= nfree sb (c_view c') + n)%nat.

Lemma slot_post_refl sb s c l i ip j x bs n :
  oinode sb s c l i ip j x -> slot_post sb s c l j x n s c l bs (a_addrs x).
Proof.
  intros O. split_and!.
  - eapply fi_mono; [apply fi_refl, O|]. apply list_subseteq_nil.
  - done.
  - apply iaddrs_id, O.
  - apply ext_rel_refl; apply O.
  - lia.
Qed.

Lemma addr_slot_spec sb s c l i ip j x k :
  oinode sb s c l i ip j x -> 0 <= k <= NDIRECT -> lh_n l + 2 <= log_size l - 1 -> (0 < nfree sb (c_view c))%nat ->
  wp (addr_slot (AAddrs j) k (balloc ROOTDEV)) (fun b s' => exists c' l' a',
    slot_post sb s c l j x 1 s' c' l' [BBLOCK 0 sb; b] a' /\ addr_at a' k = b /\ b <> 0) s.
Proof.
  intros O Hk Hn Hf. pose proof (oi_x _ _ _ _ _ _ _ _ O) as Hx. pose proof (oi_file _ _ _ _ _ _ _ _ O) as F.
  pose proof (fo_len _ _ _ _ F) as Hlen. assert (Z.to_nat k < length (a_addrs x))%nat as Hlt by klia.
  destruct (decide (addr_at (a_addrs x) k = 0)) as [H0|H0].
  2:{ unfold wp. rewrite (addr_slot_hit s j x k) by done. exists c, l, (a_addrs x).
      split; [by eapply slot_post_refl|done]. }
  unfold addr_slot. eapply wp_run; [by apply get_addrs_Some|]. apply lookup_lt_is_Some in Hlt as [v Hv].
  assert (v = 0) as -> by (unfold addr_at in H0; by rewrite Hv in H0). wp_step. eapply wp_unwrap; [exact Hv|].
  change (0 =? 0) with true. cbv iota.
  wp_call (balloc_rel sb s c l); [by eapply oinode_balloc|done|].
  intros b s1 (c1 & l1 & N & A). destruct (fi_of _ _ _ _ _ _ _ _ N) as (N1 & E1 & E2).
  eapply wp_run; [apply upd_addrs_Some; rewrite E2; exact Hx|]. wp_step.
  exists c1, l1, (<[Z.to_nat k := b]> (a_addrs x)).
  assert (addr_at (<[Z.to_nat k := b]> (a_addrs x)) k = b) as Ek.
  { rewrite addr_at_insert by klia. by rewrite Z.eqb_refl. }
  split; [|split; [done|by eapply fresh_pos]]. split_and!.
  - by apply fi_iaddrs.
  - done.
  - simpl. by rewrite E2.
  - destruct (decide (k = NDIRECT)) as [->|Hne].
    + eapply ext_ind; [apply O|apply O|apply O|done|done].
    + eapply ext_direct; [apply O|apply O|apply O|done|lia|done].
  - rewrite (nfree_alloc _ _ _ _ _ A). lia.
Qed.

Lemma fx_get_word s c l i k j (Q : Z -> kstate -> Prop) :
  fsx s c l -> c_held c !! i = Some k -> Q (word (c_view c k) j) s -> wp (get_word i j) Q s.
Proof. intros F Hi HQ. unfold get_word. wp_step. eapply fx_bdata; [done..|]. by wp_step. Qed.

(** Storing a word in a block that is held, logging and releasing it. *)
Lemma fx_put_word s c l i b j v {A} (r : A) (Q : A -> kstate -> Prop) :
  fsx s c l -> c_held c !! i = Some (ROOTDEV, b) -> home l b -> lh_n l < log_size l - 1 -> 0 <= j < NINDIRECT ->
  (forall s' c' l', fsx s' c' l' -> log_frame s s' -> same_txn l l' ->
     (forall y, y ∈ logged l' -> y ∈ logged l \/ y = b) ->
     c_held c' = delete i (c_held c) -> c_disk c' = c_disk c -> c_writes c' = c_writes c ->
     (forall k, c_view c' k = <[(ROOTDEV, b) := wr 4 (c_view c (ROOTDEV, b)) (Z.to_nat (4 * j)) v]> (c_view c) k) ->
     Q r s') ->
  wp (r ← (put_word i j v ;; log_write i ;; mret r); brelse i ;; mret r) Q s.
Proof.
  intros F Hi Hh Hn Hj HQ. do 2 wp_step. unfold put_word. wp_step. eapply fx_bdata; [done..|].
  eapply fx_bput; [exact F|exact Hi|apply length_put_word; [by apply (fx_length s c l)|done]|]. intros s1 F1 G1.
  wp_step. eapply fx_log_write; [exact F1|exact Hi|done|done|]. intros s2 F2 G2 Hs Hl2. wp_step.
  wp_step. eapply fx_brelse; [exact F2|exact Hi|left; simpl; by rewrite fn_lookup_insert|]. intros s3 F3 G3. wp_step.
  eapply (HQ s3 _ _ F3); try done. frames.
Qed.

Lemma balloc_pre_held sb s c l i ip j x s1 i0 b :
  oinode sb s c l i ip j x -> owned sb l (c_view c) b -> bio_frame s s1 ->
  fsx s1 (a_bread i0 (ROOTDEV, b) c) l -> lh_n l + 2 <= log_size l - 1 ->
  balloc_pre sb s1 (a_bread i0 (ROOTDEV, b) c) l.
Proof.
  intros O (Hr & Hu & D) G F1 Hn.
  pose proof (lw_region _ (tx_wf _ _ _ (fx_txn _ _ _ F1))) as Hreg. pose proof (oi_held _ _ _ _ _ _ _ _ O) as Hh.
  assert (forall b', b' <> b -> not_in (a_bread i0 (ROOTDEV, b) c) b') as Hni.
  { intros b' Hne j'. simpl. rewrite Hh. destruct (decide (j' = i0)) as [->|].
    - rewrite lookup_insert_eq. congruence.
    - by rewrite lookup_insert_ne. }
  split; try done; try apply O.
  - rewrite G. apply O.
  - intros b' Hb'. apply Hni. intros E. by apply (db_bmap _ _ _ D b').
  - intros b' Hb' Hu'. apply Hni. intros ->. change (used sb (c_view c) b = false) in Hu'. congruence.
  - simpl. rewrite Hh, insert_empty, map_size_singleton. klia.
Qed.

(** Storing into the indirect block leaves the bitmap as it is. *)
Lemma nfree_store sb l V V' b d :
  data_block sb l b -> (forall k, V' k = <[(ROOTDEV, b) := d]> V k) -> nfree sb V' = nfree sb V.
Proof.
  intros D HV. unfold nfree. f_equal. apply filter_ext_in. intros b' Hb'%elem_of_seqZ. unfold used.
  rewrite HV, fn_lookup_insert_ne; [done|]. intros [= E]. apply (db_bmap _ _ _ D b'); [lia|done].
Qed.

Section ind_slot.
Context (sb : superblock) (s : kstate) (c : cache) (l : log) (i : nat) (ip : inode) (j : nat) (x : addrs) (bn : Z).
Context (O : oinode sb s c l i ip j x) (Hbn : NDIRECT <= bn < MAXFILE) (Hi : ind (a_addrs x) <> 0).
Context (Hn : lh_n l + 3 <= log_size l - 1) (Hf : (0 < nfree sb (c_view c))%nat).
Notation a := (a_addrs x).

Definition ind_slot_post (b : Z) (s' : kstate) : Prop :=
  exists c' l', slot_post sb s c l j x 1 s' c' l' [BBLOCK 0 sb; ind a; b] a /\
    fblock (c_view c') a bn = b /\ b <> 0.

Lemma ind_owned : owned sb l (c_view c) (ind a).
Proof using O Hi. apply (fo_own _ _ _ _ (oi_file _ _ _ _ _ _ _ _ O)). by apply ind_in. Qed.
Lemma fblock_ind V : fblock V a bn = word (V (ROOTDEV, ind a)) (bn - NDIRECT).
Proof using Hi Hbn Hf.
  unfold fblock. destruct (Z.ltb_spec bn NDIRECT); [lia|]. by destruct (Z.eqb_spec (ind a) 0).
Qed.

Lemma ind_slot_stored b s1 i0 s2 c2 l2 s3 c3 l3 :
  c_held c !! i0 = None -> bio_frame s s1 ->
  fs_next s1 (a_bread i0 (ROOTDEV, ind a) c) l [BBLOCK 0 sb; b] (c_view c2) s2 c2 l2 ->
  alloc_rel sb l (c_view c) b (c_view c2) -> fblock (c_view c) a bn = 0 ->
  fsx s3 c3 l3 -> log_frame s2 s3 -> same_txn l2 l3 ->
  (forall y, y ∈ logged l3 -> y ∈ logged l2 \/ y = ind a) ->
  c_held c3 = delete i0 (c_held c2) -> c_disk c3 = c_disk c2 -> c_writes c3 = c_writes c2 ->
  (forall k, c_view c3 k = <[(ROOTDEV, ind a) :=
     wr 4 (c_view c2 (ROOTDEV, ind a)) (Z.to_nat (4 * (bn - NDIRECT))) b]> (c_view c2) k) ->
  ind_slot_post b s3.
Proof using O Hbn Hi Hn Hf.
  intros Hi0 G1 N2 A E0 F3 G3 S3 L3 H3 Hd3 Hw3 V3. exists c3, l3.
  pose proof ind_owned as (Hr & Hu & D). pose proof (so_size _ _ (oi_ok _ _ _ _ _ _ _ _ O)) as Hsz.
  assert (length (c_view c2 (ROOTDEV, ind a)) = Z.to_nat BSIZE) as Hlen by (by apply (fx_length s2 c2 l2), N2).
  assert (fs_next s c l [BBLOCK 0 sb; ind a; b] (c_view c3) s3 c3 l3) as N.
  { split; try done.
    - eapply same_txn_trans; [apply N2|done].
    - intros y [Hy| ->]%L3; [|right; set_solver]. apply (fn_logs _ _ _ _ _ _ _ _ N2) in Hy. set_solver.
    - pose proof (fn_frame _ _ _ _ _ _ _ _ N2) as G2. frames.
    - rewrite H3, (fn_held _ _ _ _ _ _ _ _ N2). simpl. by rewrite delete_insert_id.
    - rewrite Hd3. apply N2.
    - rewrite Hw3. apply N2. }
  destruct (fi_of _ _ _ _ _ _ _ _ N) as (N' & E1 & E2).
  pose proof (ar_range _ _ _ _ _ A) as Hb.
  split; [split_and!; [done|done|rewrite E2; apply iaddrs_id, O| |]|split].
  - eapply (ext_indirect sb l (c_view c) a b (c_view c2)); try done; apply O.
  - rewrite (nfree_store sb l _ _ _ _ D V3), (nfree_alloc _ _ _ _ _ A). lia.
  - rewrite fblock_ind, V3, fn_lookup_insert, word_wr by (done || klia). by rewrite Z.eqb_refl.
  - by eapply fresh_pos.
Qed.

Lemma ind_slot_alloc s1 i0 :
  fsx s1 (a_bread i0 (ROOTDEV, ind a) c) l -> bio_frame s s1 -> c_held c !! i0 = None ->
  fblock (c_view c) a bn = 0 ->
  wp (r ← (addr ← balloc ROOTDEV; put_word i0 (bn - NDIRECT) addr ;; log_write i0 ;; mret addr);
      brelse i0 ;; mret r) ind_slot_post s1.
Proof using O Hbn Hi Hn Hf.
  intros F1 G1 Hi0 E0. do 2 wp_step. pose proof ind_owned as Ho. pose proof Ho as (Hr & Hu & D).
  eapply wp_mono; [apply (balloc_rel sb s1 (a_bread i0 (ROOTDEV, ind a) c) l); [|done]|].
  { eapply balloc_pre_held; [exact O|exact Ho|done|done|lia]. }
  intros b s2 (c2 & l2 & N2 & A). pose proof (fn_same _ _ _ _ _ _ _ _ N2) as S2.
  pose proof (fs_next_n _ _ _ _ _ _ _ _ (tx_wf _ _ _ (fx_txn _ _ _ F1)) N2) as Hn2. simpl in Hn2.
  assert (log_size l2 = log_size l) as Sz by (by destruct S2 as (_ & _ & ? & _)).
  refine (proj1 (wp_bind _ _ _ _) _). eapply fx_put_word; [apply N2|..|].
  - rewrite (fn_held _ _ _ _ _ _ _ _ N2). apply bread_held.
  - apply (same_txn_home l); [done|apply D].
  - lia.
  - klia.
  - intros s3 c3 l3 F3 G3 S3 L3 H3 Hd3 Hw3 V3. by eapply (ind_slot_stored b s1 i0 s2 c2 l2).
Qed.

Lemma ind_slot_spec :
  wp (bp ← bread ROOTDEV (ind a);
      addr ← get_word bp (bn - NDIRECT);
      addr ← (if addr =? 0 then
                addr ← balloc ROOTDEV;
                put_word bp (bn - NDIRECT) addr ;;
                log_write bp ;;
                mret addr
              else mret addr);
      brelse bp ;;
      mret addr) ind_slot_post s.
Proof using O Hbn Hi Hn Hf.
  pose proof ind_owned as (Hr & Hu & D). pose proof (oi_held _ _ _ _ _ _ _ _ O) as Hh.
  pose proof (so_size _ _ (oi_ok _ _ _ _ _ _ _ _ O)) as Hsz.
  pose proof (lw_region _ (tx_wf _ _ _ (fx_txn _ _ _ (oi_fsx _ _ _ _ _ _ _ _ O)))) as Hreg.
  wp_step. eapply fx_bread; [apply O|lia|by apply not_in_empty|unfold room; rewrite Hh, map_size_empty; klia|].
  intros i0 s1 Hi0 F1 G1 Hsync. wp_step. eapply fx_get_word; [exact F1|apply bread_held|].
  cbn [a_bread c_view]. rewrite <- fblock_ind. destruct (Z.eqb_spec (fblock (c_view c) a bn) 0) as [E0|E0].
  - by apply ind_slot_alloc.
  - do 3 wp_step. eapply fx_release; [exact F1|done|done|exact G1|]. intros s2 N2. wp_step.
    destruct (fi_of _ _ _ _ _ _ _ _ N2) as (N & E1 & E2). exists c, l. split; [|done].
    split_and!; [eapply fi_mono; [exact N|apply list_subseteq_nil]|done|rewrite E2; apply iaddrs_id, O| |lia].
    apply ext_rel_refl; apply O.
Qed.
End ind_slot.

(** *** [bmap] *)
Lemma bmap_spec sb s c l i ip j x bn :
  oinode sb s c l i ip j x -> 0 <= bn < MAXFILE -> lh_n l + 5 <= log_size l - 1 -> (2 <= nfree sb (c_view c))%nat ->
  wp (bmap i bn) (fun b s' => exists c' l' a',
    slot_post sb s c l j x 2 s' c' l' (BBLOCK 0 sb :: b :: inds a') a' /\ fblock (c_view c') a' bn = b /\ b <> 0) s.
Proof.
  intros O Hbn Hn Hf. unfold bmap. eapply wp_run; [apply getip_Some, O|].
  rewrite (oi_dev _ _ _ _ _ _ _ _ O), (oi_addrs _ _ _ _ _ _ _ _ O). destruct (Z.ltb_spec bn NDIRECT) as [Hlt|Hge].
  - eapply wp_mono; [eapply addr_slot_spec; [done|lia|lia|lia]|].
    intros b s' (c' & l' & a' & (N & E1 & E2 & X & Hf') & Ea & H0). exists c', l', a'.
    split; [|split; [|done]].
    + split_and!; try done; [eapply fi_mono; [done|set_solver]|lia].
    + unfold fblock. by destruct (Z.ltb_spec bn NDIRECT); [|lia].
  - destruct (Z.ltb_spec (bn - NDIRECT) NINDIRECT) as [_|]; [|klia].
    wp_call addr_slot_spec; [done|klia|lia|lia|].
    intros b1 s1 (c1 & l1 & a1 & (N1 & E1 & E2 & X1 & Hf1) & Ea & H0).
    set (x1 := set_a_addrs a1 x).
    assert (oinode sb s1 c1 l1 i ip j x1) as O1.
    { eapply oinode_next; [exact O|exact N1| |done|done| |apply X1|apply X1].
      - rewrite E1. apply O.
      - rewrite E2, list_lookup_insert_eq; [done|]. eapply lookup_lt_Some, O. }
    destruct (fi_n _ _ _ _ _ _ _ (oi_fsx _ _ _ _ _ _ _ _ O) N1) as [Hn1 Sz]. simpl in Hn1.
    rewrite <- Ea. change (addr_at a1 NDIRECT) with (ind (a_addrs x1)).
    assert (ind (a_addrs x1) <> 0) as Hi1 by (intros E; apply H0; rewrite <- Ea; exact E).
    eapply wp_mono; [apply (ind_slot_spec sb s1 c1 l1 i ip j x1 bn O1); done || lia|].
    intros b s2 (c2 & l2 & (N2 & E3 & E4 & X2 & Hf2) & Eb & Hb0). exists c2, l2, a1.
    split; [|done]. split_and!.
    + eapply fi_mono; [eapply fi_trans; [exact N1|exact N2]|]. rewrite <- Ea. change (addr_at a1 NDIRECT) with (ind a1).
      unfold inds. destruct (Z.eqb_spec (ind a1) 0); [done|]. simpl. set_solver.
    + congruence.
    + rewrite E4, E2, list_insert_insert_eq. done.
    + eapply ext_rel_trans; [exact X1|].
      eapply ext_rel_same; [by eapply fi_same|exact X2].
    + lia.
Qed.

(** *** Reading *)
Lemma fbytes_app V a off n m : fbytes V a off (n + m) = fbytes V a off n ++ fbytes V a (off + Z.of_nat n) m.
Proof.
  unfold fbytes. rewrite seq_app, fmap_app. f_equal. rewrite Nat.add_0_l.
  apply list_eq. intros k. rewrite !list_lookup_fmap.
  destruct (decide (k < m)%nat).
  - rewrite !lookup_seq_lt by done. simpl. do 2 f_equal. lia.
  - rewrite !lookup_seq_ge by lia. done.
Qed.

Lemma block_split o k : 0 <= o -> 0 <= k -> k < BSIZE - o mod BSIZE ->
  (o + k) / BSIZE = o / BSIZE /\ (o + k) mod BSIZE = o mod BSIZE + k.
Proof.
  intros Ho Hk Hlt. pose proof (Z.mod_pos_bound o BSIZE ltac:(klia)) as Hm.
  rewrite (Z.div_mod o BSIZE) at 1 3 by klia.
  replace (BSIZE * (o / BSIZE) + o mod BSIZE + k) with (o mod BSIZE + k + o / BSIZE * BSIZE) by lia.
  rewrite Z.div_add, Z.mod_add by klia. rewrite Z.div_small, Z.mod_small by lia. lia.
Qed.

Lemma fbytes_block V a off m :
  0 <= off -> fblock V a (off / BSIZE) <> 0 -> length (V (ROOTDEV, fblock V a (off / BSIZE))) = Z.to_nat BSIZE ->
  0 <= m <= BSIZE - off mod BSIZE ->
  slice (V (ROOTDEV, fblock V a (off / BSIZE))) (Z.to_nat (off mod BSIZE)) (Z.to_nat m) = fbytes V a off (Z.to_nat m).
Proof.
  intros Ho H0 Hlen Hm. pose proof (Z.mod_pos_bound off BSIZE ltac:(klia)) as Hb.
  apply list_eq. intros k. unfold slice, fbytes. rewrite list_lookup_fmap.
  destruct (decide (k < Z.to_nat m)%nat) as [Hk|Hk].
  - rewrite lookup_take_lt, lookup_drop by done. rewrite lookup_seq_lt by done. simpl. unfold fbyte.
    destruct (block_split off (Z.of_nat k)) as [-> ->]; [lia..|].
    destruct (Z.eqb_spec (fblock V a (off / BSIZE)) 0); [done|].
    replace (Z.to_nat (off mod BSIZE + Z.of_nat k)) with (Z.to_nat (off mod BSIZE) + k)%nat by lia.
    destruct (lookup_lt_is_Some_2 (V (ROOTDEV, fblock V a (off / BSIZE))) (Z.to_nat (off mod BSIZE) + k)) as [v Hv];
      [klia|]. by rewrite Hv.
  - rewrite lookup_seq_ge by lia. apply lookup_ge_None. rewrite length_take. lia.
Qed.

Lemma bmap_hit sb s c l i ip j x bn :
  oinode sb s c l i ip j x -> 0 <= bn < MAXFILE -> fblock (c_view c) (a_addrs x) bn <> 0 ->
  wp (bmap i bn) (fun b s' => b = fblock (c_view c) (a_addrs x) bn /\ fs_next s c l [] (c_view c) s' c l) s.
Proof.
  intros O Hbn Hb. pose proof (oi_x _ _ _ _ _ _ _ _ O) as Hx. pose proof (oi_file _ _ _ _ _ _ _ _ O) as F.
  pose proof (fo_len _ _ _ _ F) as Hlen. unfold bmap. eapply wp_run; [apply getip_Some, O|].
  rewrite (oi_dev _ _ _ _ _ _ _ _ O), (oi_addrs _ _ _ _ _ _ _ _ O). destruct (Z.ltb_spec bn NDIRECT) as [Hlt|Hge].
  - assert (fblock (c_view c) (a_addrs x) bn = addr_at (a_addrs x) bn) as E.
    { unfold fblock. by destruct (Z.ltb_spec bn NDIRECT); [|lia]. }
    rewrite E in Hb. unfold wp. rewrite (addr_slot_hit s j x bn) by (try done; klia).
    split; [done|]. apply fs_next_refl, O.
  - destruct (Z.ltb_spec (bn - NDIRECT) NINDIRECT) as [_|]; [|klia].
    assert (ind (a_addrs x) <> 0) as Hi.
    { intros E. apply Hb. unfold fblock. rewrite E. by destruct (Z.ltb_spec bn NDIRECT); [lia|]. }
    eapply wp_run; [apply (addr_slot_hit s j x NDIRECT); try done; klia|].
    change (addr_at (a_addrs x) NDIRECT) with (ind (a_addrs x)).
    destruct (fo_own _ _ _ _ F _ (ind_in (c_view c) _ Hi)) as (Hr & Hu & D).
    pose proof (oi_held _ _ _ _ _ _ _ _ O) as Hh. pose proof (so_size _ _ (oi_ok _ _ _ _ _ _ _ _ O)) as Hsz.
    pose proof (tx_wf _ _ _ (fx_txn _ _ _ (oi_fsx _ _ _ _ _ _ _ _ O))) as W.
    pose proof (lw_region _ W). pose proof (lw_n _ W).
    assert (fblock (c_view c) (a_addrs x) bn = word (c_view c (ROOTDEV, ind (a_addrs x))) (bn - NDIRECT)) as Eb.
    { unfold fblock. destruct (Z.ltb_spec bn NDIRECT); [lia|]. by destruct (Z.eqb_spec (ind (a_addrs x)) 0). }
    wp_step. eapply fx_bread; [apply O|lia|by apply not_in_empty|unfold room; rewrite Hh, map_size_empty; klia|].
    intros i0 s1 Hi0 F1 G1 Hsync. wp_step. eapply fx_get_word; [exact F1|apply bread_held|].
    cbn [a_bread c_view]. rewrite <- Eb. destruct (Z.eqb_spec (fblock (c_view c) (a_addrs x) bn) 0) as [E0|E0]; [done|].
    do 3 wp_step. eapply fx_release; [exact F1|done|done|exact G1|]. intros s2 N2. by wp_step.
Qed.

Lemma oinode_peek sb s c l i ip j x s' :
  oinode sb s c l i ip j x -> fs_next s c l [] (c_view c) s' c l -> oinode sb s' c l i ip j x.
Proof.
  intros O N. destruct (fi_of _ _ _ _ _ _ _ _ N) as (N' & E1 & E2).
  eapply oinode_next; [exact O|exact N'|rewrite E1; apply O|done|done|rewrite E2; apply O|apply O|apply O].
Qed.

(** Reading a data block of the root device. *)
Lemma fx_read_block sb s c l i ip j x b {A} (k : list Z -> M kstate A) (Q : A -> kstate -> Prop) :
  oinode sb s c l i ip j x -> in_file (c_view c) (a_addrs x) b ->
  (forall s', fs_next s c l [] (c_view c) s' c l -> wp (k (c_view c (ROOTDEV, b))) Q s') ->
  wp (bp ← bread ROOTDEV b; d ← bdata bp; brelse bp ;; k d) Q s.
Proof.
  intros O Hin HQ. destruct (fo_own _ _ _ _ (oi_file _ _ _ _ _ _ _ _ O) _ Hin) as (Hr & Hu & D).
  pose proof (oi_held _ _ _ _ _ _ _ _ O) as Hh. pose proof (so_size _ _ (oi_ok _ _ _ _ _ _ _ _ O)) as Hsz.
  pose proof (tx_wf _ _ _ (fx_txn _ _ _ (oi_fsx _ _ _ _ _ _ _ _ O))) as W.
  pose proof (lw_region _ W). pose proof (lw_n _ W).
  wp_step. eapply fx_bread; [apply O|lia|by apply not_in_empty|unfold room; rewrite Hh, map_size_empty; klia|].
  intros i0 s1 Hi0 F1 G1 Hsync. wp_step. eapply fx_bdata; [exact F1|apply bread_held|].
  wp_step. eapply fx_release; [exact F1|done|done|exact G1|]. intros s2 N2. by apply HQ.
Qed.

(** No block of the range is missing. *)
Definition no_holes (V : blk -> list Z) (a : list Z) (off n : Z) : Prop :=
  forall bn, 0 < n -> off / BSIZE <= bn <= (off + n - 1) / BSIZE -> fblock V a bn <> 0.

Lemma div_range o n k : 0 <= o -> 0 <= k < n -> o / BSIZE <= (o + k) / BSIZE <= (o + n - 1) / BSIZE.
Proof. intros Ho Hk. split; apply Z.div_le_mono; klia. Qed.
Lemma div_max o : 0 <= o < MAXFILE * BSIZE -> 0 <= o / BSIZE < MAXFILE.
Proof. intros Ho. split; [apply Z.div_pos; klia|apply Z.div_lt_upper_bound; klia]. Qed.

Lemma readi_loop_spec sb c l i ip j x off n fuel : forall s tot,
  oinode sb s c l i ip j x -> 0 <= off -> 0 <= tot <= n -> off + n <= MAXFILE * BSIZE ->
  no_holes (c_view c) (a_addrs x) off n -> (Z.to_nat (n - tot) < fuel)%nat ->
  wp (readi_loop bmap fuel i n tot (off + tot) (fbytes (c_view c) (a_addrs x) off (Z.to_nat tot)))
     (fun bs s' => bs = fbytes (c_view c) (a_addrs x) off (Z.to_nat n) /\ fs_next s c l [] (c_view c) s' c l) s.
Proof.
  induction fuel as [|fuel IH]; intros s tot O Ho Ht Hmax Hnh Hf; [lia|]. cbn [readi_loop].
  destruct (Z.ltb_spec tot n) as [Hlt|Hge].
  2:{ wp_step. replace tot with n by lia. split; [done|]. apply fs_next_refl, O. }
  eapply wp_run; [apply getip_Some, O|]. rewrite (oi_dev _ _ _ _ _ _ _ _ O).
  set (o := off + tot) in *. set (bn := o / BSIZE).
  assert (0 <= bn < MAXFILE) as Hbn by (apply div_max; lia).
  assert (fblock (c_view c) (a_addrs x) bn <> 0) as Hb by (apply Hnh; [lia|unfold bn, o; apply div_range; lia]).
  wp_call (bmap_hit sb s c l i ip j x bn O Hbn Hb). intros b s1 [-> N1].
  pose proof (oinode_peek _ _ _ _ _ _ _ _ _ O N1) as O1.
  eapply fx_read_block; [exact O1|by apply fblock_in|]. intros s2 N2. cbv zeta.
  pose proof (oinode_peek _ _ _ _ _ _ _ _ _ O1 N2) as O2.
  pose proof (Z.mod_pos_bound o BSIZE ltac:(klia)) as Hm.
  set (m := Z.min (n - tot) (BSIZE - o mod BSIZE)).
  unfold bn in *. rewrite fbytes_block by (try done; try lia; apply (fx_length s1 c l), O1).
  replace o with (off + Z.of_nat (Z.to_nat tot)) by lia.
  rewrite <- fbytes_app, <- Z2Nat.inj_add by lia.
  replace (off + Z.of_nat (Z.to_nat tot) + m) with (off + (tot + m)) by lia.
  eapply wp_mono; [apply IH; try done; lia|]. intros bs s3 [-> N3]. split; [done|].
  apply (fs_next_trans _ _ _ [] _ _ _ _ [] _ _ _ _ N1 (fs_next_trans _ _ _ [] _ _ _ _ [] _ _ _ _ N2 N3)).
Qed.

(** The number of bytes a read of [n] bytes at [off] returns. *)
Definition clip (ip : inode) (off n : Z) : Z := Z.min n (i_size ip - off).

Lemma readi_spec sb s c l i ip j x off n :
  oinode sb s c l i ip j x -> i_type ip <> T_DEV -> 0 <= off <= i_size ip -> 0 <= n -> off + n < 2 ^ 32 ->
  i_size ip <= MAXFILE * BSIZE -> no_holes (c_view c) (a_addrs x) off (clip ip off n) ->
  wp (readi i off n) (fun r s' =>
    r = (clip ip off n, fbytes (c_view c) (a_addrs x) off (Z.to_nat (clip ip off n))) /\
    fs_next s c l [] (c_view c) s' c l) s.
Proof.
  intros O Ht Ho Hn Hw Hs Hnh. unfold readi, readi_with. eapply wp_run; [apply getip_Some, O|].
  destruct (Z.eqb_spec (i_type ip) T_DEV); [done|].
  destruct (Z.ltb_spec (i_size ip) off); [lia|]. rewrite u32_small by lia. destruct (Z.ltb_spec (off + n) off); [lia|].
  cbn [orb]. cbv zeta. assert ((if i_size ip <? off + n then i_size ip - off else n) = clip ip off n) as E.
  { unfold clip. destruct (Z.ltb_spec (i_size ip) (off + n)); lia. }
  rewrite E. set (n' := clip ip off n) in *. assert (0 <= n' /\ off + n' <= MAXFILE * BSIZE) by (unfold n', clip; lia).
  pose proof (readi_loop_spec sb c l i ip j x off n' (S (Z.to_nat n')) s 0 O) as L.
  rewrite Z.add_0_r in L. wp_call L; try done; try lia. intros bs s' [-> N]. wp_step.
  split; [|done]. rewrite s32_small by klia. done.
Qed.

(** *** Writing *)
Lemma fx_write_block sb s c l i ip j x b src tot m o {A} (k : M kstate A) (Q : A -> kstate -> Prop) :
  oinode sb s c l i ip j x -> in_file (c_view c) (a_addrs x) b -> lh_n l < log_size l - 1 ->
  0 <= tot -> 0 <= m -> tot + m <= Z.of_nat (length src) -> 0 <= o -> o + m <= BSIZE ->
  (forall s' c' l', fs_next s c l [b]
     (<[(ROOTDEV, b) := splice (c_view c (ROOTDEV, b)) (Z.to_nat o) (slice src (Z.to_nat tot) (Z.to_nat m))]> (c_view c))
     s' c' l' -> wp k Q s') ->
  wp (bp ← bread ROOTDEV b; d ← bdata bp; bs ← load src tot m;
      bput bp (splice d (Z.to_nat o) bs) ;; log_write bp ;; brelse bp ;; k) Q s.
Proof.
  intros O Hin Hn Ht Hm Hs Ho Hom HQ. destruct (fo_own _ _ _ _ (oi_file _ _ _ _ _ _ _ _ O) _ Hin) as (Hr & Hu & D).
  pose proof (oi_held _ _ _ _ _ _ _ _ O) as Hh. pose proof (so_size _ _ (oi_ok _ _ _ _ _ _ _ _ O)) as Hsz.
  pose proof (tx_wf _ _ _ (fx_txn _ _ _ (oi_fsx _ _ _ _ _ _ _ _ O))) as W.
  pose proof (lw_region _ W). pose proof (lw_n _ W).
  wp_step. eapply fx_bread; [apply O|lia|by apply not_in_empty|unfold room; rewrite Hh, map_size_empty; klia|].
  intros i0 s1 Hi0 F1 G1 Hsync. wp_step. eapply fx_bdata; [exact F1|apply bread_held|].
  assert (load src tot m s1 = Ret (slice src (Z.to_nat tot) (Z.to_nat m)) s1) as L.
  { unfold load. destruct (Z.leb_spec 0 tot), (Z.leb_spec (tot + m) (Z.of_nat (length src))); done || lia. }
  eapply wp_run; [exact L|]. apply wp_seq3. eapply fx_store; [exact F1|done|apply D|done| |].
  { rewrite length_splice; [by apply (fx_length s c l), O|].
    rewrite length_slice by lia. cbn [a_bread c_view]. rewrite (fx_length s c l) by apply O. klia. }
  intros s2 c2 l2 N2. apply (HQ s2 c2 l2). destruct N2. split; try done. frames.
Qed.

(** A store into a data block of the file. *)
Lemma fblock_store V a bn d V' bn' :
  fblock V a bn <> ind a -> (forall k, V' k = <[(ROOTDEV, fblock V a bn) := d]> V k) ->
  fblock V' a bn' = fblock V a bn'.
Proof.
  generalize (fblock V a bn) as b. intros b Hi HV. unfold fblock. rewrite HV, fn_lookup_insert_ne; [done|]. congruence.
Qed.

Lemma used_store sb l V b d V' b' :
  data_block sb l b -> 0 <= b' < sb_size sb -> (forall k, V' k = <[(ROOTDEV, b) := d]> V k) ->
  used sb V' b' = used sb V b'.
Proof.
  intros D Hb HV. unfold used. rewrite HV, fn_lookup_insert_ne; [done|]. intros [= E]. by apply (db_bmap _ _ _ D b').
Qed.

Section store.
Context (sb : superblock) (l : log) (V : blk -> list Z) (a : list Z) (bn : Z) (d : list Z) (V' : blk -> list Z).
Context (F : file_ok sb l V a) (B : bitmap_ok sb l V) (Hbn : 0 <= bn < MAXFILE) (H0 : fblock V a bn <> 0).
Context (HV : forall k, V' k = <[(ROOTDEV, fblock V a bn) := d]> V k).

Lemma store_data : data_block sb l (fblock V a bn).
Proof using F Hbn H0. by apply (fo_own _ _ _ _ F), fblock_in. Qed.
Lemma store_fblock bn' : fblock V' a bn' = fblock V a bn'.
Proof using F Hbn H0 HV. eapply fblock_store; [by apply (fo_ind _ _ _ _ F)|exact HV]. Qed.
Lemma store_in_file b : in_file V' a b <-> in_file V a b.
Proof using F Hbn H0 HV. unfold in_file. by setoid_rewrite store_fblock. Qed.

Lemma store_file_ok : file_ok sb l V' a.
Proof using F Hbn H0 HV.
  destruct F as [H1 H2 H3 H4]. split; [done|..].
  - intros b Hb%store_in_file. destruct (H2 b Hb) as (? & ? & ?). split; [done|]. split; [|done].
    by rewrite (used_store sb l V _ d V' b store_data).
  - intros x y. rewrite !store_fblock. apply H3.
  - intros x. rewrite store_fblock. apply H4.
Qed.
Lemma store_bitmap : bitmap_ok sb l V'.
Proof using F B Hbn H0 HV.
  intros b Hb. rewrite (used_store sb l V _ d V' b store_data) by done. by apply B.
Qed.
Lemma store_grows : grows sb V a V' a.
Proof using F Hbn H0 HV.
  split.
  - intros b Hb. by rewrite (used_store sb l V _ d V' b store_data).
  - intros b Hb. by apply store_in_file.
  - intros b Hb%store_in_file. by left.
  - intros k Hk Hn. rewrite HV, fn_lookup_insert_ne; [done|]. intros <-. apply Hn; [done|].
    apply store_in_file. by apply fblock_in.
Qed.
Lemma store_fbyte o :
  0 <= o < MAXFILE * BSIZE ->
  fbyte V' a o = if o / BSIZE =? bn then default 0 (d !! Z.to_nat (o mod BSIZE)) else fbyte V a o.
Proof using F Hbn H0 HV.
  intros Ho. unfold fbyte. rewrite store_fblock. destruct (Z.eqb_spec (o / BSIZE) bn) as [->|Hne].
  - destruct (Z.eqb_spec (fblock V a bn) 0); [done|]. by rewrite HV, fn_lookup_insert.
  - destruct (Z.eqb_spec (fblock V a (o / BSIZE)) 0); [done|]. rewrite HV, fn_lookup_insert_ne; [done|].
    intros [= E]. apply Hne. apply (fo_inj _ _ _ _ F); [by apply div_max|done|done|done].
Qed.
End store.
End ops.
