(* ===== verification/FileIO.v ===== *)
(** * Reading and writing files of the root device

  The specification of [writei] and [iupdate] of fs.c in terms of the bytes
  of the file (Content.v), and the theorems on [readi] and [writei]. *)
From S2P Require Import Prelude Params Layout KState Driver Dll Bio Cache Log LogCrash FsBase FsAlloc Inode Ext2 Vfs Content.

(** The block numbers that [tot] bytes from [off] on touch. *)
Definition touched (off tot : Z) : list Z :=
  if tot <=? 0 then [] else seqZ (off / BSIZE) ((off + tot - 1) / BSIZE - off / BSIZE + 1).

Lemma elem_of_touched off tot bn :
  bn ∈ touched off tot <-> 0 < tot /\ off / BSIZE <= bn <= (off + tot - 1) / BSIZE.
Proof.
  unfold touched. destruct (Z.leb_spec tot 0) as [H|H].
  - rewrite elem_of_nil. lia.
  - rewrite elem_of_seqZ. lia.
Qed.
Lemma length_touched off tot : 0 < tot ->
  Z.of_nat (length (touched off tot)) = (off + tot - 1) / BSIZE - off / BSIZE + 1.
Proof.
  intros H. unfold touched. destruct (Z.leb_spec tot 0); [lia|]. rewrite length_seqZ.
  pose proof (Z.div_le_mono off (off + tot - 1) BSIZE ltac:(klia) ltac:(lia)). lia.
Qed.
Lemma touched_mono off tot tot' : tot <= tot' -> (length (touched off tot) <= length (touched off tot'))%nat.
Proof.
  intros H. destruct (decide (0 < tot)) as [Ht|Ht].
  - pose proof (length_touched off tot Ht). pose proof (length_touched off tot' ltac:(lia)).
    pose proof (Z.div_le_mono (off + tot - 1) (off + tot' - 1) BSIZE ltac:(klia) ltac:(lia)). lia.
  - unfold touched at 1. destruct (Z.leb_spec tot 0); [simpl; lia|lia].
Qed.

(** The bytes of [off, off + tot) of the file are those of [src], the rest of
    the file is as it was, and the range has its blocks. *)
Record wr_rel (sb : superblock) (l : log) (V : blk -> list Z) (a : list Z) (off : Z) (src : list Z) (tot : Z)
    (V' : blk -> list Z) (a' : list Z) : Prop := {
  wl_file : file_ok sb l V' a';
  wl_bitmap : bitmap_ok sb l V';
  wl_ind : ind a <> 0 -> ind a' = ind a;
  wl_bytes : forall o, 0 <= o < MAXFILE * BSIZE ->
    fbyte V' a' o = if (off <=? o) && (o <? off + tot) then default 0 (src !! Z.to_nat (o - off)) else fbyte V a o;
  wl_alloc : forall bn, bn ∈ touched off tot -> fblock V' a' bn <> 0;
  wl_keep : forall bn, 0 <= bn < MAXFILE -> fblock V a bn <> 0 -> fblock V' a' bn = fblock V a bn;
  wl_grows : grows sb V a V' a'
}.

Lemma wr_rel_refl sb l V a off src : file_ok sb l V a -> bitmap_ok sb l V -> wr_rel sb l V a off src 0 V a.
Proof.
  intros. split; auto using grows_refl.
  - intros o Ho. destruct (Z.leb_spec off o), (Z.ltb_spec o (off + 0)); done || lia.
  - intros bn Hbn%elem_of_touched. lia.
Qed.

Lemma splice_lookup d p bs k : (p + length bs <= length d)%nat ->
  splice d p bs !! k = if decide (p <= k < p + length bs)%nat then bs !! (k - p)%nat else d !! k.
Proof.
  intros H. unfold splice. destruct (decide (k < p)%nat) as [Hk|Hk].
  - rewrite lookup_app_l by (rewrite length_take; lia). rewrite lookup_take_lt by done.
    by rewrite decide_False by lia.
  - rewrite lookup_app_r by (rewrite length_take; lia). rewrite length_take, Nat.min_l by lia.
    case_decide as Hd.
    + by rewrite lookup_app_l by lia.
    + rewrite lookup_app_r by lia. rewrite lookup_drop. f_equal. lia.
Qed.

Lemma touched_last o m : 0 <= o -> 0 < m <= BSIZE - o mod BSIZE -> (o + m - 1) / BSIZE = o / BSIZE.
Proof.
  intros Ho Hm. replace (o + m - 1) with (o + (m - 1)) by lia. by destruct (block_split o (m - 1)) as [-> _]; [lia..|].
Qed.
Lemma touched_step off tot m bn : 0 <= off -> 0 <= tot -> 0 < m <= BSIZE - (off + tot) mod BSIZE ->
  bn ∈ touched off (tot + m) <-> off / BSIZE <= bn <= (off + tot) / BSIZE.
Proof.
  intros Ho Ht Hm. rewrite elem_of_touched. replace (off + (tot + m) - 1) with (off + tot + m - 1) by lia.
  rewrite touched_last by lia. lia.
Qed.
Lemma touched_sub off tot m bn : 0 <= off -> 0 <= tot -> 0 < m <= BSIZE - (off + tot) mod BSIZE ->
  bn ∈ touched off tot -> bn ∈ touched off (tot + m).
Proof.
  intros Ho Ht Hm Hb. apply touched_step; try done. apply elem_of_touched in Hb.
  pose proof (Z.div_le_mono (off + tot - 1) (off + tot) BSIZE ltac:(klia) ltac:(lia)). lia.
Qed.

Lemma touched_turn off tot m :
  0 <= off -> 0 <= tot -> 0 < m <= BSIZE - (off + tot) mod BSIZE -> tot = 0 \/ (off + tot) mod BSIZE = 0 ->
  length (touched off (tot + m)) = S (length (touched off tot)).
Proof.
  intros Hoff Ht Hm Hal. pose proof (length_touched off (tot + m) ltac:(lia)) as L.
  assert ((off + (tot + m) - 1) / BSIZE = (off + tot) / BSIZE) as E.
  { replace (off + (tot + m) - 1) with (off + tot + m - 1) by lia. apply touched_last; lia. }
  rewrite E in L. destruct (decide (tot = 0)) as [->|Hne]; [rewrite Z.add_0_r in *; simpl; lia|].
  destruct Hal as [|Hal]; [done|]. pose proof (length_touched off tot ltac:(lia)) as L'.
  pose proof (Z.div_mod (off + tot) BSIZE ltac:(klia)) as D. rewrite Hal in D.
  assert ((off + tot - 1) / BSIZE = (off + tot) / BSIZE - 1) as E'.
  { symmetry. apply (Z.div_unique _ _ _ (BSIZE - 1)); [left; klia|]. lia. }
  lia.
Qed.
(** The blocks touched by one more turn: those before and the next. *)
Lemma touched_cover off tot m bn : 0 <= off -> 0 <= tot -> 0 < m <= BSIZE - (off + tot) mod BSIZE ->
  tot = 0 \/ (off + tot) mod BSIZE = 0 -> bn ∈ touched off (tot + m) -> bn ∈ touched off tot \/ bn = (off + tot) / BSIZE.
Proof.
  intros Hoff Htot Hm Hal Hb. destruct (decide (bn ∈ touched off tot)) as [|Hnin]; [by left|right].
  apply touched_step in Hb as Hr; [|done..]. rewrite elem_of_touched in Hnin.
  destruct Hal as [->|Hal]; [rewrite Z.add_0_r in *; lia|].
  pose proof (Z.div_mod (off + tot) BSIZE ltac:(klia)) as D. rewrite Hal in D.
  pose proof (Z.div_le_mono off (off + tot - 1) BSIZE ltac:(klia)) as Hd.
  assert ((off + tot) / BSIZE - 1 <= (off + tot - 1) / BSIZE) by (apply Z.div_le_lower_bound; klia).
  destruct (decide (tot = 0)) as [->|]; [rewrite Z.add_0_r in *; lia|]. lia.
Qed.

(** One turn of the loop: a block found or allocated, and a store into it. *)
Section turn.
Context (sb : superblock) (l : log) (V : blk -> list Z) (a : list Z) (off : Z) (src : list Z) (tot : Z).
Context (V1 : blk -> list Z) (a1 : list Z) (V2 : blk -> list Z) (a2 : list Z) (V3 : blk -> list Z) (m : Z).
Context (R : wr_rel sb l V a off src tot V1 a1) (X : ext_rel sb l V1 a1 V2 a2).
Notation o := (off + tot).
Notation bn := ((off + tot) / BSIZE).
Context (Hoff : 0 <= off) (Htot : 0 <= tot) (Hm : 0 < m <= BSIZE - o mod BSIZE) (Hmax : o + m <= MAXFILE * BSIZE).
Context (Hsrc : tot + m <= Z.of_nat (length src)) (Hb : fblock V2 a2 bn <> 0).
Context (Hlen : length (V2 (ROOTDEV, fblock V2 a2 bn)) = Z.to_nat BSIZE).
Context (HV3 : forall k, V3 k = <[(ROOTDEV, fblock V2 a2 bn) :=
   splice (V2 (ROOTDEV, fblock V2 a2 bn)) (Z.to_nat (o mod BSIZE)) (slice src (Z.to_nat tot) (Z.to_nat m))]> V2 k).

Lemma turn_bn : 0 <= bn < MAXFILE.
Proof using All. apply div_max. lia. Qed.
Lemma turn_bytes o' : 0 <= o' < MAXFILE * BSIZE ->
  fbyte V3 a2 o' = if (off <=? o') && (o' <? off + (tot + m)) then default 0 (src !! Z.to_nat (o' - off)) else fbyte V a o'.
Proof using All.
  intros Ho'. rewrite (store_fbyte sb l V2 a2 bn _ V3 (er_file _ _ _ _ _ _ X) turn_bn Hb HV3) by done.
  pose proof (Z.mod_pos_bound o BSIZE ltac:(klia)) as Hmo.
  assert (length (slice src (Z.to_nat tot) (Z.to_nat m)) = Z.to_nat m) as Hls by (apply length_slice; lia).
  destruct (Z.eqb_spec (o' / BSIZE) bn) as [E|E].
  - rewrite splice_lookup by klia. rewrite Hls.
    pose proof (Z.div_mod o BSIZE ltac:(klia)) as D1. pose proof (Z.div_mod o' BSIZE ltac:(klia)) as D2. rewrite E in D2.
    pose proof (Z.mod_pos_bound o' BSIZE ltac:(klia)) as Hmo'.
    case_decide as Hd.
    + destruct (Z.leb_spec off o'), (Z.ltb_spec o' (off + (tot + m))); try lia. cbn [andb].
      unfold slice. rewrite lookup_take_lt, lookup_drop by lia. f_equal. f_equal. lia.
    + assert (default 0 (V2 (ROOTDEV, fblock V2 a2 bn) !! Z.to_nat (o' mod BSIZE)) = fbyte V2 a2 o') as ->.
      { unfold fbyte. rewrite E. by destruct (Z.eqb_spec (fblock V2 a2 bn) 0). }
      rewrite (er_bytes _ _ _ _ _ _ X), (wl_bytes _ _ _ _ _ _ _ _ _ R) by done.
      destruct (Z.leb_spec off o'), (Z.ltb_spec o' (off + tot)), (Z.ltb_spec o' (off + (tot + m))); done || lia.
  - rewrite (er_bytes _ _ _ _ _ _ X), (wl_bytes _ _ _ _ _ _ _ _ _ R) by done.
    destruct (Z.leb_spec off o'), (Z.ltb_spec o' (off + tot)), (Z.ltb_spec o' (off + (tot + m))); try done; try lia.
    destruct E. replace o' with (o + (o' - o)) by lia. by destruct (block_split o (o' - o)) as [-> _]; [lia..|].
Qed.

Lemma turn_rel : (tot = 0 \/ o mod BSIZE = 0) -> wr_rel sb l V a off src (tot + m) V3 a2.
Proof using All.
  intros Hal. pose proof turn_bn as Hbn. pose proof (er_file _ _ _ _ _ _ X) as F2.
  pose proof (store_fblock sb l V2 a2 bn _ V3 F2 Hbn Hb HV3) as Hfb. split.
  - by eapply store_file_ok.
  - eapply store_bitmap; try done. apply X.
  - intros H0. pose proof (wl_ind _ _ _ _ _ _ _ _ _ R H0) as E. rewrite (er_ind _ _ _ _ _ _ X); congruence.
  - exact turn_bytes.
  - intros bn' Hbn'. rewrite Hfb. destruct (touched_cover off tot m bn') as [Hin| ->]; [lia|lia|done|done|done| |done].
    pose proof (wl_alloc _ _ _ _ _ _ _ _ _ R bn' Hin) as Hnz. rewrite (er_keep _ _ _ _ _ _ X); [done| |done].
    apply elem_of_touched in Hin. pose proof (Z.div_pos off BSIZE ltac:(lia) ltac:(klia)).
    pose proof (Z.div_le_mono (o - 1) o BSIZE ltac:(klia) ltac:(lia)). lia.
  - intros x Hx H0. rewrite Hfb. pose proof (wl_keep _ _ _ _ _ _ _ _ _ R x Hx H0) as E.
    rewrite (er_keep _ _ _ _ _ _ X); [done|done|congruence].
  - eapply grows_trans; [apply R|]. eapply grows_trans; [apply X|]. by eapply store_grows.
Qed.
End turn.

Section writing.
Context {DD : DiskDriver} {DS : Devsw}.

(** ** The loop of [writei] *)
Section loop.
Context (sb : superblock) (s0 : kstate) (c0 : cache) (l0 : log) (i : nat) (ip : inode) (j : nat) (x : addrs).
Context (off : Z) (src : list Z) (n : Z).
Context (O0 : oinode sb s0 c0 l0 i ip j x) (Hoff : 0 <= off) (Hn : 0 <= n) (Hmax : off + n <= MAXFILE * BSIZE).
Context (Hsrc : n <= Z.of_nat (length src)).
Context (Hfree : (2 * length (touched off n) <= nfree sb (c_view c0))%nat).
Context (Hlog : lh_n l0 + Z.of_nat (length (touched off n)) + 6 <= log_size l0 - 1).

(** The blocks logged so far. *)
Definition logs (V : blk -> list Z) (a : list Z) (tot : Z) : list Z :=
  BBLOCK 0 sb :: inds a ++ (fblock V a <$> touched off tot).

Lemma length_logs V a tot : Z.of_nat (length (logs V a tot)) <= 2 + Z.of_nat (length (touched off tot)).
Proof using All.
  unfold logs, inds. simpl. rewrite length_app, length_fmap. destruct (ind a =? 0); simpl; lia.
Qed.

Record wstate (tot : Z) (s : kstate) (c : cache) (l : log) (a : list Z) : Prop := {
  ws_o : oinode sb s c l i ip j (set_a_addrs a x);
  ws_next : fi_next s0 c0 l0 (logs (c_view c) a tot) s c l;
  ws_ic : k_icache s = k_icache s0;
  ws_ia : k_iaddrs s = <[j := set_a_addrs a x]> (k_iaddrs s0);
  ws_rel : wr_rel sb l0 (c_view c0) (a_addrs x) off src tot (c_view c) a;
  ws_free : (nfree sb (c_view c0) <= nfree sb (c_view c) + 2 * length (touched off tot))%nat;
  ws_align : tot = 0 \/ (off + tot) mod BSIZE = 0 \/ tot = n
}.

Lemma wstate_init : wstate 0 s0 c0 l0 (a_addrs x).
Proof using All.
  split.
  - replace (set_a_addrs (a_addrs x) x) with x by (by destruct x). done.
  - eapply fi_mono; [apply fi_refl, O0|apply list_subseteq_nil].
  - done.
  - apply iaddrs_id, O0.
  - apply wr_rel_refl; apply O0.
  - lia.
  - by left.
Qed.

Lemma logs_turn V a tot m V1 a1 :
  0 <= tot -> 0 < m <= BSIZE - (off + tot) mod BSIZE ->
  (forall bn, bn ∈ touched off tot -> fblock V a bn <> 0) -> off + (tot + m) <= MAXFILE * BSIZE ->
  (forall bn, 0 <= bn < MAXFILE -> fblock V a bn <> 0 -> fblock V1 a1 bn = fblock V a bn) ->
  (ind a <> 0 -> ind a1 = ind a) ->
  logs V a tot ++ (BBLOCK 0 sb :: fblock V1 a1 ((off + tot) / BSIZE) :: inds a1) ++ [fblock V1 a1 ((off + tot) / BSIZE)]
    ⊆ logs V1 a1 (tot + m).
Proof using All.
  intros Ht Hm Hal Hmx Hk Hi.
  assert (fblock V1 a1 ((off + tot) / BSIZE) ∈ fblock V1 a1 <$> touched off (tot + m)) as Hb.
  { apply list_elem_of_fmap. exists ((off + tot) / BSIZE). split; [done|].
    apply touched_step; try done. pose proof (Z.div_le_mono off (off + tot) BSIZE ltac:(klia) ltac:(lia)). lia. }
  intros y. unfold logs. rewrite !elem_of_app, !elem_of_cons, !elem_of_app, elem_of_nil.
  intros [[->|[Hy|Hy]]|[[->|[->|Hy]]|[->|[]]]].
  - by left.
  - right. left. unfold inds in *. destruct (Z.eqb_spec (ind a) 0) as [|Hne]; [by apply elem_of_nil in Hy|].
    rewrite (Hi Hne). by destruct (Z.eqb_spec (ind a) 0).
  - right. right. apply list_elem_of_fmap in Hy as (bn & -> & Hbn). apply list_elem_of_fmap. exists bn. split.
    + symmetry. apply Hk; [|by apply Hal]. apply elem_of_touched in Hbn.
      pose proof (Z.div_pos off BSIZE ltac:(lia) ltac:(klia)).
      assert ((off + tot - 1) / BSIZE < MAXFILE) by (apply Z.div_lt_upper_bound; klia). lia.
    + by apply touched_sub.
  - by left.
  - by right; right.
  - by right; left.
  - by right; right.
Qed.

Lemma inds_len a : (length (inds a) <= 1)%nat.
Proof. unfold inds. by destruct (ind a =? 0); simpl; lia. Qed.

(** One turn keeps the invariant. *)
Lemma wstate_turn tot s c l a s1 c1 l1 a1 s2 c2 l2 m :
  wstate tot s c l a -> 0 <= tot < n -> m = Z.min (n - tot) (BSIZE - (off + tot) mod BSIZE) ->
  slot_post sb s c l j (set_a_addrs a x) 2 s1 c1 l1
    (BBLOCK 0 sb :: fblock (c_view c1) a1 ((off + tot) / BSIZE) :: inds a1) a1 ->
  fblock (c_view c1) a1 ((off + tot) / BSIZE) <> 0 ->
  oinode sb s1 c1 l1 i ip j (set_a_addrs a1 x) ->
  fs_next s1 c1 l1 [fblock (c_view c1) a1 ((off + tot) / BSIZE)]
    (<[(ROOTDEV, fblock (c_view c1) a1 ((off + tot) / BSIZE)) :=
       splice (c_view c1 (ROOTDEV, fblock (c_view c1) a1 ((off + tot) / BSIZE)))
         (Z.to_nat ((off + tot) mod BSIZE)) (slice src (Z.to_nat tot) (Z.to_nat m))]> (c_view c1)) s2 c2 l2 ->
  wstate (tot + m) s2 c2 l2 a1.
Proof using All.
  intros W Ht Em (N1 & E1 & E2 & X1 & Hf1) Hb O1 N2. destruct (fi_of _ _ _ _ _ _ _ _ N2) as (N2' & E3 & E4).
  pose proof (fn_view _ _ _ _ _ _ _ _ N2) as HV. set (b := fblock (c_view c1) a1 _) in *.
  pose proof (Z.mod_pos_bound (off + tot) BSIZE ltac:(klia)) as Hmo.
  assert (0 < m <= BSIZE - (off + tot) mod BSIZE) as Hm by lia.
  assert (tot = 0 \/ (off + tot) mod BSIZE = 0) as Hal by (destruct (ws_align _ _ _ _ _ W) as [?|[?|?]]; auto; lia).
  assert (same_txn l0 l) as S by (by eapply fi_same, W).
  apply (ext_rel_same sb l0 l) in X1 as X; [|done].
  assert (0 <= (off + tot) / BSIZE < MAXFILE) as Hbn by (apply div_max; lia).
  assert (wr_rel sb l0 (c_view c0) (a_addrs x) off src (tot + m) (c_view c2) a1) as R.
  { apply (turn_rel sb l0 (c_view c0) (a_addrs x) off src tot (c_view c) a (c_view c1) a1 (c_view c2) m); try done; try lia.
    - apply W.
    - by apply (fx_length s1 c1 l1), O1. }
  assert (forall bn, fblock (c_view c2) a1 bn = fblock (c_view c1) a1 bn) as Hfb
    by (intros bn; eapply store_fblock; [apply X1|exact Hbn|done|exact HV]).
  split; try done.
  - eapply oinode_next; [exact O1|exact N2'|rewrite E3; apply O1|done|done|rewrite E4; apply O1|..].
    + eapply store_file_ok; [apply O1|done|done|exact HV].
    + eapply store_bitmap; [apply O1|apply O1|done|done|exact HV].
  - eapply fi_mono; [eapply fi_trans; [apply W|eapply fi_trans; [exact N1|exact N2']]|].
    unfold b. rewrite <- !Hfb. apply logs_turn; try done; try lia.
    + apply W.
    + intros bn Hr H0. rewrite Hfb. by apply (er_keep _ _ _ _ _ _ X1).
    + apply X1.
  - rewrite E3, E1. apply W.
  - rewrite E4, E2, (ws_ia _ _ _ _ _ W), list_insert_insert_eq. done.
  - rewrite touched_turn by (done || lia). pose proof (ws_free _ _ _ _ _ W).
    rewrite (nfree_store sb l1 _ _ b _ (store_data _ _ _ _ _ (oi_file _ _ _ _ _ _ _ _ O1) Hbn Hb) HV). lia.
  - destruct (decide (m = n - tot)) as [->|Hne]; [right; right; lia|]. right. left.
    replace (off + (tot + m)) with (off + tot + (BSIZE - (off + tot) mod BSIZE)) by lia.
    pose proof (Z.div_mod (off + tot) BSIZE ltac:(klia)) as D.
    replace (off + tot + (BSIZE - (off + tot) mod BSIZE)) with (((off + tot) / BSIZE + 1) * BSIZE) by lia.
    apply Z.mod_mul. klia.
Qed.

Lemma wstate_n tot s c l a : wstate tot s c l a -> tot <= n ->
  lh_n l <= lh_n l0 + 2 + Z.of_nat (length (touched off tot)) /\ log_size l = log_size l0.
Proof using All.
  intros W Ht. destruct (fi_n _ _ _ _ _ _ _ (oi_fsx _ _ _ _ _ _ _ _ O0) (ws_next _ _ _ _ _ W)) as [H1 H2].
  pose proof (length_logs (c_view c) a tot). lia.
Qed.

Lemma writei_loop_spec fuel : forall tot s c l a,
  wstate tot s c l a -> 0 <= tot <= n -> (Z.to_nat (n - tot) < fuel)%nat ->
  wp (writei_loop bmap log_write fuel i src n tot (off + tot))
     (fun o s' => o = off + n /\ exists c' l' a', wstate n s' c' l' a') s.
Proof using All.
  induction fuel as [|fuel IH]; intros tot s c l a W Ht Hf; [lia|]. cbn [writei_loop].
  destruct (Z.ltb_spec tot n) as [Hlt|Hge].
  2:{ wp_step. replace tot with n in * by lia. split; [done|]. by exists c, l, a. }
  pose proof (ws_o _ _ _ _ _ W) as O. eapply wp_run; [apply getip_Some, O|]. rewrite (oi_dev _ _ _ _ _ _ _ _ O).
  destruct (wstate_n _ _ _ _ _ W ltac:(lia)) as [Hn1 Sz]. pose proof (Z.mod_pos_bound (off + tot) BSIZE ltac:(klia)) as Hmo.
  assert (0 <= (off + tot) / BSIZE < MAXFILE) as Hbn by (apply div_max; lia).
  set (m := Z.min (n - tot) (BSIZE - (off + tot) mod BSIZE)).
  assert (length (touched off (tot + m)) <= length (touched off n))%nat as Hlen by (apply touched_mono; lia).
  assert (tot = 0 \/ (off + tot) mod BSIZE = 0) as Hal by (destruct (ws_align _ _ _ _ _ W) as [?|[?|?]]; auto; lia).
  rewrite touched_turn in Hlen by (done || lia). pose proof (ws_free _ _ _ _ _ W) as Hfr.
  wp_call (bmap_spec sb s c l i ip j (set_a_addrs a x) ((off + tot) / BSIZE) O Hbn); [lia|lia|].
  intros b s1 (c1 & l1 & a1 & P & Eb & Hb). rewrite <- Eb in P, Hb.
  assert (oinode sb s1 c1 l1 i ip j (set_a_addrs a1 x)) as O1.
  { destruct P as (N1 & E1 & E2 & X1 & _). eapply oinode_next; [exact O|exact N1|rewrite E1; apply O|done|done| |apply X1|apply X1].
    rewrite E2, list_lookup_insert_eq; [done|]. eapply lookup_lt_Some, O. }
  destruct (fi_n _ _ _ _ _ _ _ (oi_fsx _ _ _ _ _ _ _ _ O) (proj1 P)) as [Hn2 Sz2].
  pose proof (inds_len a1). simpl in Hn2. rewrite <- Eb.
  eapply fx_write_block; [exact O1|by apply fblock_in|lia|lia|lia|lia|lia|lia|]. intros s2 c2 l2 N2.
  replace (off + tot + m) with (off + (tot + m)) by lia. apply (IH _ s2 c2 l2 a1); [|lia|lia].
  eapply wstate_turn; done || lia.
Qed.
End loop.

(** ** Writing the inode *)
Definition dinode_of (ip : inode) (a : list Z) : dinode :=
  mk_dinode (i_type ip) (i_major ip) (i_minor ip) (i_nlink ip) (i_size ip) a.

Lemma length_enc_dinode di : length (di_addrs di) = Z.to_nat (NDIRECT + 1) -> length (enc_dinode di) = Z.to_nat sizeof_dinode.
Proof.
  intros H. unfold enc_dinode. rewrite !length_app, !length_le_enc, length_enc_u32s, H. done.
Qed.
Lemma dinode_off_bound inum : (dinode_off inum + Z.to_nat sizeof_dinode <= Z.to_nat BSIZE)%nat.
Proof.
  unfold dinode_off. pose proof (Z.mod_pos_bound inum IPB ltac:(klia)). klia.
Qed.

Lemma iblock_ok sb l inum : sb_ok sb l -> 0 <= inum < sb_ninodes sb ->
  IBLOCK inum sb = inum / IPB + sb_inodestart sb /\ 0 <= IBLOCK inum sb < FSSIZE /\ home l (IBLOCK inum sb) /\
  forall b, 0 <= b < sb_size sb -> IBLOCK inum sb <> BBLOCK b sb.
Proof.
  intros H Hi. destruct (so_inodes _ _ H inum Hi) as [H1 H2].
  assert (IBLOCK inum sb = inum / IPB + sb_inodestart sb) as E by (apply u32_small; klia).
  rewrite E. split_and!; try done; try lia. intros b Hb. destruct (sb_bblock sb l b H Hb) as (Eb & _).
  rewrite Eb. intros E2. by apply (so_apart _ _ H b inum Hb Hi).
Qed.

Definition a_iupdate (sb : superblock) (ip : inode) (a : list Z) (V : blk -> list Z) : blk -> list Z :=
  <[(ROOTDEV, IBLOCK (i_inum ip) sb) :=
    put_dinode (V (ROOTDEV, IBLOCK (i_inum ip) sb)) (i_inum ip) (dinode_of ip a)]> V.

Lemma iupdate_spec sb s c l i ip j x :
  oinode sb s c l i ip j x -> 0 <= i_inum ip < sb_ninodes sb -> lh_n l < log_size l - 1 ->
  wp (iupdate i) (fun _ s' => exists c' l',
    fs_next s c l [IBLOCK (i_inum ip) sb] (a_iupdate sb ip (a_addrs x) (c_view c)) s' c' l') s.
Proof.
  intros O Hi Hn. destruct (iblock_ok sb l (i_inum ip) (oi_ok _ _ _ _ _ _ _ _ O) Hi) as (_ & Hr & Hh & _).
  pose proof (oi_held _ _ _ _ _ _ _ _ O) as Hhe. pose proof (lw_region _ (tx_wf _ _ _ (fx_txn _ _ _ (oi_fsx _ _ _ _ _ _ _ _ O)))).
  unfold iupdate. eapply wp_run; [apply getip_Some, O|]. wp_steps.
  rewrite (oi_sb _ _ _ _ _ _ _ _ O), (oi_dev _ _ _ _ _ _ _ _ O), (oi_addrs _ _ _ _ _ _ _ _ O).
  eapply fx_bread; [apply O|done|by apply not_in_empty|unfold room; rewrite Hhe, map_size_empty; klia|].
  intros i0 s1 Hi0 F1 G1 Hsync. wp_step. eapply fx_bdata; [exact F1|apply bread_held|].
  eapply wp_run; [apply get_addrs_Some; rewrite G1; apply O|].
  eapply fx_store; [exact F1|done|done|done| |].
  { unfold put_dinode. assert (length (c_view c (ROOTDEV, IBLOCK (i_inum ip) sb)) = Z.to_nat BSIZE) as Hl
      by (apply (fx_length s c l), O). cbn [a_bread c_view]. rewrite length_splice; [done|].
    rewrite length_enc_dinode, Hl; [apply dinode_off_bound|apply O]. }
  intros s2 c2 l2 N2. exists c2, l2. destruct N2. split; try done. frames.
Qed.

(** A store into an inode block leaves every file as it is. *)
Lemma meta_store sb l V a b d V' :
  sb_ok sb l -> file_ok sb l V a -> bitmap_ok sb l V ->
  (forall b', owned sb l V b' -> b' <> b) -> (forall b', 0 <= b' < sb_size sb -> b <> BBLOCK b' sb) ->
  (forall k, V' k = <[(ROOTDEV, b) := d]> V k) ->
  file_ok sb l V' a /\ bitmap_ok sb l V' /\
  (forall bn, fblock V' a bn = fblock V a bn) /\ (forall o, 0 <= o < MAXFILE * BSIZE -> fbyte V' a o = fbyte V a o).
Proof.
  intros Ok F B Hd Hb HV.
  assert (forall b', b' <> b -> V' (ROOTDEV, b') = V (ROOTDEV, b')) as HV'.
  { intros b' Hne. rewrite HV, fn_lookup_insert_ne; [done|]. by intros [=]. }
  assert (forall b', in_file V a b' -> V' (ROOTDEV, b') = V (ROOTDEV, b')) as Hin.
  { intros b' H. by apply HV', Hd, (fo_own _ _ _ _ F). }
  assert (forall b', 0 <= b' < sb_size sb -> used sb V' b' = used sb V b') as Hu.
  { intros b' Hr. unfold used. rewrite HV'; [done|]. intros E. by apply (Hb b'). }
  assert (forall bn, fblock V' a bn = fblock V a bn) as Hf.
  { intros bn. unfold fblock. destruct (Z.eqb_spec (ind a) 0) as [|H0]; [done|]. by rewrite Hin by (by apply ind_in). }
  split_and!; try done.
  - destruct F as [H1 H2 H3 H4]. split; [done|..].
    + intros b'. unfold in_file. setoid_rewrite Hf. intros H. destruct (H2 b' H) as (? & ? & ?).
      split; [done|]. split; [by rewrite Hu|done].
    + intros y z. rewrite !Hf. apply H3.
    + intros y. rewrite Hf. apply H4.
  - intros b' Hr. rewrite Hu by done. by apply B.
  - intros o Ho. unfold fbyte. rewrite Hf. destruct (Z.eqb_spec (fblock V a (o / BSIZE)) 0); [done|].
    rewrite Hin; [done|]. by apply fblock_in; [apply div_max|].
Qed.

Lemma iupdate_keeps sb l V ip a V' a' :
  sb_ok sb l -> 0 <= i_inum ip < sb_ninodes sb -> file_ok sb l V a' -> bitmap_ok sb l V ->
  (forall k, V' k = a_iupdate sb ip a V k) ->
  file_ok sb l V' a' /\ bitmap_ok sb l V' /\
  (forall bn, fblock V' a' bn = fblock V a' bn) /\ (forall o, 0 <= o < MAXFILE * BSIZE -> fbyte V' a' o = fbyte V a' o).
Proof.
  intros Ok Hi F B HV. destruct (iblock_ok sb l (i_inum ip) Ok Hi) as (_ & _ & _ & Hb).
  eapply meta_store; [exact Ok|done|done| |done|exact HV]. intros b' (_ & _ & D) ->. by apply (db_inode _ _ _ D (i_inum ip)).
Qed.

(** ** [writei] *)
Definition extends (ip : inode) (off n : Z) : bool := (0 <? n) && (i_size ip <? off + n).
Definition grown (ip : inode) (off n : Z) : inode := if extends ip off n then set_i_size (off + n) ip else ip.

(** The state after a write: the bytes of the range are those of [src], the
    other bytes of the file, the other inodes and the blocks of the other
    files are as they were, and the inode on disk is updated when the file
    has grown. *)
Record written (sb : superblock) (s : kstate) (c : cache) (l : log) (i : nat) (ip : inode) (j : nat) (x : addrs)
    (off : Z) (src : list Z) (n : Z) (s' : kstate) (c' : cache) (l' : log) (a' : list Z) : Prop := {
  wn_o : oinode sb s' c' l' i (grown ip off n) j (set_a_addrs a' x);
  wn_bytes : forall o, 0 <= o < MAXFILE * BSIZE -> fbyte (c_view c') a' o =
    if (off <=? o) && (o <? off + n) then default 0 (src !! Z.to_nat (o - off)) else fbyte (c_view c) (a_addrs x) o;
  wn_alloc : forall bn, bn ∈ touched off n -> fblock (c_view c') a' bn <> 0;
  wn_keep : forall bn, 0 <= bn < MAXFILE -> fblock (c_view c) (a_addrs x) bn <> 0 ->
    fblock (c_view c') a' bn = fblock (c_view c) (a_addrs x) bn;
  wn_other : forall b, owned sb l (c_view c) b -> ~ in_file (c_view c) (a_addrs x) b ->
    c_view c' (ROOTDEV, b) = c_view c (ROOTDEV, b);
  wn_used : forall b, 0 <= b < sb_size sb -> used sb (c_view c) b = true -> used sb (c_view c') b = true;
  wn_mono : forall b, in_file (c_view c) (a_addrs x) b -> in_file (c_view c') a' b;
  wn_new : forall b, in_file (c_view c') a' b ->
    in_file (c_view c) (a_addrs x) b \/ 0 <= b < sb_size sb /\ used sb (c_view c) b = false;
  wn_rest : forall k, k <> (ROOTDEV, BBLOCK 0 sb) -> k <> (ROOTDEV, IBLOCK (i_inum ip) sb) ->
    (k.1 = ROOTDEV -> ~ in_file (c_view c') a' k.2) -> c_view c' k = c_view c k;
  wn_inode : c_view c' (ROOTDEV, IBLOCK (i_inum ip) sb) =
    (if extends ip off n then a_iupdate sb (grown ip off n) a' (c_view c) else c_view c) (ROOTDEV, IBLOCK (i_inum ip) sb);
  wn_icache : k_icache s' = <[i := grown ip off n]> (k_icache s);
  wn_iaddrs : k_iaddrs s' = <[j := set_a_addrs a' x]> (k_iaddrs s);
  wn_logs : exists bs, fi_next s c l bs s' c' l' /\ Z.of_nat (length bs) <= Z.of_nat (length (touched off n)) + 3;
  wn_free : (nfree sb (c_view c) <= nfree sb (c_view c') + 2 * length (touched off n))%nat
}.

Section writei.
Context (sb : superblock) (s : kstate) (c : cache) (l : log) (i : nat) (ip : inode) (j : nat) (x : addrs).
Context (off : Z) (src : list Z) (n : Z).
Context (O : oinode sb s c l i ip j x) (Hoff : 0 <= off) (Hn : 0 <= n) (Hmax : off + n <= MAXFILE * BSIZE).
Context (Hsrc : n <= Z.of_nat (length src)).
Context (Hfree : (2 * length (touched off n) <= nfree sb (c_view c))%nat).
Context (Hlog : lh_n l + Z.of_nat (length (touched off n)) + 6 <= log_size l - 1).
Context (Hinum : 0 <= i_inum ip < sb_ninodes sb).

(** The blocks of the loop that are neither of the file nor the bitmap. *)
Lemma wstate_frame s1 c1 l1 a1 b :
  wstate sb s c l i ip j x off src n n s1 c1 l1 a1 ->
  (forall y, 0 <= y < sb_size sb -> b <> BBLOCK y sb) -> ~ in_file (c_view c) (a_addrs x) b ->
  (owned sb l (c_view c) b \/ ~ data_block sb l b) -> c_view c1 (ROOTDEV, b) = c_view c (ROOTDEV, b).
Proof using All.
  intros W Hb Hni Hor. pose proof (wl_grows _ _ _ _ _ _ _ _ _ (ws_rel _ _ _ _ _ _ _ _ _ _ _ _ _ _ _ _ W)) as G.
  pose proof (so_size _ _ (oi_ok _ _ _ _ _ _ _ _ O)) as Hsz.
  apply (gr_other _ _ _ _ _ G); [intros [= E]; apply (Hb 0); [lia|done]|]. simpl. intros _ Hin.
  destruct (gr_new _ _ _ _ _ G b Hin) as [|[Hr Hu]]; [done|].
  destruct Hor as [(_ & Hu' & _)|Hd]; [congruence|]. apply Hd. by apply (oi_bitmap _ _ _ _ _ _ _ _ O).
Qed.

Lemma not_data_iblock : ~ data_block sb l (IBLOCK (i_inum ip) sb).
Proof using All. intros D. by apply (db_inode _ _ _ D (i_inum ip)). Qed.
Lemma not_in_iblock : ~ in_file (c_view c) (a_addrs x) (IBLOCK (i_inum ip) sb).
Proof using All.
  intros H. destruct (fo_own _ _ _ _ (oi_file _ _ _ _ _ _ _ _ O) _ H) as (_ & _ & D). by apply not_data_iblock.
Qed.
Lemma iblock_not_bmap y : 0 <= y < sb_size sb -> IBLOCK (i_inum ip) sb <> BBLOCK y sb.
Proof using All. intros Hy. by apply (iblock_ok sb l (i_inum ip) (oi_ok _ _ _ _ _ _ _ _ O) Hinum). Qed.

(** The file does not grow: the state after the loop is the final one. *)
Lemma written_same s1 c1 l1 a1 :
  wstate sb s c l i ip j x off src n n s1 c1 l1 a1 -> extends ip off n = false ->
  written sb s c l i ip j x off src n s1 c1 l1 a1.
Proof using All.
  intros W E. pose proof (ws_rel _ _ _ _ _ _ _ _ _ _ _ _ _ _ _ _ W) as R.
  assert (grown ip off n = ip) as Eg by (unfold grown; by rewrite E). split; try rewrite Eg; try rewrite E.
  - apply W.
  - apply R.
  - apply R.
  - apply R.
  - intros b Ho Hni. apply (wstate_frame _ _ _ _ _ W); [|done|by left]. intros y Hy Ey. destruct Ho as (_ & _ & D).
    by apply (db_bmap _ _ _ D y).
  - apply R.
  - apply R.
  - apply R.
  - intros k H1 _. by apply R.
  - apply (wstate_frame _ _ _ _ _ W); [apply iblock_not_bmap|apply not_in_iblock|right; apply not_data_iblock].
  - rewrite list_insert_id; [apply W|apply O].
  - apply W.
  - eexists. split; [apply W|]. pose proof (length_logs sb s c l i ip j x off src n O Hoff Hn Hmax Hsrc Hfree Hlog (c_view c1) a1 n). lia.
  - apply W.
Qed.

(** The file grows: the size is set and the inode written. *)
Lemma written_grown s1 c1 l1 a1 s2 c2 l2 :
  wstate sb s c l i ip j x off src n n s1 c1 l1 a1 -> extends ip off n = true ->
  oinode sb (set_k_icache (<[i := grown ip off n]> (k_icache s1)) s1) c1 l1 i (grown ip off n) j (set_a_addrs a1 x) ->
  fs_next (set_k_icache (<[i := grown ip off n]> (k_icache s1)) s1) c1 l1 [IBLOCK (i_inum ip) sb]
    (a_iupdate sb (grown ip off n) a1 (c_view c1)) s2 c2 l2 ->
  written sb s c l i ip j x off src n s2 c2 l2 a1.
Proof using All.
  intros W E O1 N2. pose proof (ws_rel _ _ _ _ _ _ _ _ _ _ _ _ _ _ _ _ W) as R.
  pose proof (fn_view _ _ _ _ _ _ _ _ N2) as HV. destruct (fi_of _ _ _ _ _ _ _ _ N2) as (N2' & E1 & E2).
  assert (i_inum (grown ip off n) = i_inum ip) as Ei by (unfold grown; by destruct (extends ip off n)).
  pose proof (oi_ok _ _ _ _ _ _ _ _ O) as Ok. assert (0 <= i_inum (grown ip off n) < sb_ninodes sb) as Hgi by by rewrite Ei.
  destruct (iupdate_keeps sb l (c_view c1) (grown ip off n) a1 (c_view c2) a1 Ok Hgi
    (wl_file _ _ _ _ _ _ _ _ _ R) (wl_bitmap _ _ _ _ _ _ _ _ _ R) HV) as (F2 & B2 & Hfb & Hby).
  assert (forall b, b <> IBLOCK (i_inum ip) sb -> c_view c2 (ROOTDEV, b) = c_view c1 (ROOTDEV, b)) as Hfr.
  { intros b Hb. rewrite HV. unfold a_iupdate. rewrite fn_lookup_insert_ne; [done|]. intros [= Eb]. apply Hb. congruence. }
  assert (same_txn l l1) as S1 by (eapply fi_same, W).
  split; try rewrite E.
  - eapply oinode_next; [exact O1|exact N2'|rewrite E1; apply O1|done|done|rewrite E2; apply O1|by eapply file_ok_same|by eapply bitmap_ok_same].
  - intros o Ho. rewrite Hby by done. by apply (wl_bytes _ _ _ _ _ _ _ _ _ R).
  - intros bn Hbn. rewrite Hfb. by apply (wl_alloc _ _ _ _ _ _ _ _ _ R).
  - intros bn Hbn H0. rewrite Hfb. by apply (wl_keep _ _ _ _ _ _ _ _ _ R).
  - intros b Ho Hni. pose proof Ho as (_ & _ & D). rewrite Hfr.
    + apply (wstate_frame _ _ _ _ _ W); [|done|by left]. intros y Hy Ey. by apply (db_bmap _ _ _ D y).
    + by apply (db_inode _ _ _ D).
  - intros b Hb Hu. unfold used. rewrite Hfr by (intros Eb; by apply (iblock_not_bmap b)). by apply (wl_grows _ _ _ _ _ _ _ _ _ R).
  - intros b Hb. apply (gr_mono _ _ _ _ _ (wl_grows _ _ _ _ _ _ _ _ _ R)) in Hb. unfold in_file. setoid_rewrite Hfb. exact Hb.
  - intros b. unfold in_file. setoid_rewrite Hfb. apply (gr_new _ _ _ _ _ (wl_grows _ _ _ _ _ _ _ _ _ R)).
  - intros k H1 H2 H3. rewrite HV. unfold a_iupdate. rewrite fn_lookup_insert_ne by (rewrite Ei; congruence).
    apply (gr_other _ _ _ _ _ (wl_grows _ _ _ _ _ _ _ _ _ R)); [done|]. unfold in_file in *. setoid_rewrite <- Hfb. exact H3.
  - rewrite HV. unfold a_iupdate. rewrite Ei, !fn_lookup_insert. f_equal.
    apply (wstate_frame _ _ _ _ _ W); [apply iblock_not_bmap|apply not_in_iblock|right; apply not_data_iblock].
  - rewrite E1. simpl. by rewrite (ws_ic _ _ _ _ _ _ _ _ _ _ _ _ _ _ _ _ W).
  - rewrite E2. simpl. apply W.
  - eexists. split; [eapply fi_trans; [apply fi_icache, W|exact N2']|].
    rewrite length_app, Nat2Z.inj_add. change (Z.of_nat (length [IBLOCK (i_inum ip) sb])) with 1.
    pose proof (length_logs sb s c l i ip j x off src n O Hoff Hn Hmax Hsrc Hfree Hlog (c_view c1) a1 n). lia.
  - assert (nfree sb (c_view c2) = nfree sb (c_view c1)) as ->.
    { unfold nfree. f_equal. apply filter_ext_in. intros b Hb%elem_of_seqZ. unfold used. rewrite Hfr; [done|].
      intros Eb. by apply (iblock_not_bmap b); [lia|]. }
    apply W.
Qed.

Lemma writei_spec :
  i_file_type ip = Some inbuiltfs -> i_type ip <> T_DEV -> off <= i_size ip ->
  wp (writei i src off n) (fun r s' => r = n /\ exists c' l' a', written sb s c l i ip j x off src n s' c' l' a') s.
Proof using All.
  intros Hft Hty Hsz. unfold writei, writei_with. eapply wp_run; [apply getip_Some, O|].
  destruct (Z.eqb_spec (i_type ip) T_DEV); [done|]. destruct (Z.ltb_spec (i_size ip) off); [lia|].
  rewrite u32_small by klia. destruct (Z.ltb_spec (off + n) off); [lia|]. cbn [orb].
  destruct (Z.ltb_spec (MAXFILE * BSIZE) (off + n)); [lia|].
  pose proof (writei_loop_spec sb s c l i ip j x off src n O Hoff Hn Hmax Hsrc Hfree Hlog (S (Z.to_nat n)) 0 s c l (a_addrs x)) as L.
  rewrite Z.add_0_r in L. wp_call L; [by apply wstate_init|lia|lia|]. intros o s1 [-> (c1 & l1 & a1 & W)].
  pose proof (ws_o _ _ _ _ _ _ _ _ _ _ _ _ _ _ _ _ W) as O1. eapply wp_run; [apply getip_Some, O1|].
  fold (extends ip off n). rewrite s32_small by klia. destruct (extends ip off n) eqn:E.
  2:{ do 2 wp_step. wp_step. split; [done|]. exists c1, l1, a1. by apply written_same. }
  assert (grown ip off n = set_i_size (off + n) ip) as Eg by (unfold grown; by rewrite E).
  wp_step. wp_step. unfold wp at 1. rewrite (updip_Some _ _ _ _ (oi_ip _ _ _ _ _ _ _ _ O1)). rewrite <- Eg.
  set (s1' := set_k_icache _ s1).
  assert (oinode sb s1' c1 l1 i (grown ip off n) j (set_a_addrs a1 x)) as O1'.
  { eapply oinode_next; [exact O1|apply fi_icache, fi_refl, O1| |by rewrite Eg|by rewrite Eg|apply O1|apply O1|apply O1].
    simpl. rewrite list_lookup_insert_eq; [done|]. eapply lookup_lt_Some, O1. }
  unfold iops_iupdate, iops. eapply wp_run; [apply getip_Some, O1'|].
  assert (i_file_type (grown ip off n) = Some inbuiltfs) as -> by (by rewrite Eg).
  destruct (wstate_n sb s c l i ip j x off src n O Hoff Hn Hmax Hsrc Hfree Hlog n s1 c1 l1 a1 W ltac:(lia)) as [Hn1 Sz].
  eapply wp_mono; [eapply iupdate_spec; [exact O1'|by rewrite Eg|lia]|]. intros _ s2 (c2 & l2 & N2). wp_step.
  split; [done|]. exists c2, l2, a1. apply (written_grown s1 c1 l1 a1); try done.
  replace (i_inum (grown ip off n)) with (i_inum ip) in N2 by (by rewrite Eg). exact N2.
Qed.
End writei.

(** ** Theorems *)
Lemma io_rejects s i ip off n :
  k_icache s !! i = Some ip -> i_type ip <> T_DEV -> i_size ip < off \/ 2 ^ 32 <= off + n -> 0 <= off < 2 ^ 32 -> 0 <= n < 2 ^ 32 ->
  (i_size ip <? off) || (u32 (off + n) <? off) = true.
Proof.
  intros _ _ Hor Ho Hn. destruct (Z.ltb_spec (i_size ip) off) as [|Hs]; [done|]. destruct Hor as [?|Hw]; [lia|]. cbn [orb].
  apply Z.ltb_lt. unfold u32. replace (off + n) with (off + n - 2 ^ 32 + 1 * 2 ^ 32) by lia.
  rewrite Z.mod_add, Z.mod_small by lia. lia.
Qed.

(** C15: [readi] on a file of the root device returns the bytes of the file
    from [off] on, as many as asked for and present, and changes nothing but
    the buffer cache, when every block of the range is allocated (as those
    that [writei] has written are; [bmap] would allocate a missing one);
    an offset past the end of the file, or one that overflows, is rejected
    with -1. *)
Theorem readi_correct sb s c l i ip j x off n :
  oinode sb s c l i ip j x -> i_type ip <> T_DEV -> 0 <= off < 2 ^ 32 -> 0 <= n < 2 ^ 32 ->
  i_size ip <= MAXFILE * BSIZE ->
  (off <= i_size ip -> off + n < 2 ^ 32 -> no_holes (c_view c) (a_addrs x) off (clip ip off n) ->
   wp (readi i off n) (fun r s' =>
     r = (clip ip off n, fbytes (c_view c) (a_addrs x) off (Z.to_nat (clip ip off n))) /\
     fs_next s c l [] (c_view c) s' c l) s) /\
  (i_size ip < off \/ 2 ^ 32 <= off + n -> readi i off n s = Ret (-1, []) s).
Proof.
  intros O Ht Ho Hn Hs. split.
  - intros Hoff Hw Hnh. apply (readi_spec sb s c l i ip j x); done || lia.
  - intros Hor. unfold readi, readi_with. run (getip_Some _ _ _ (oi_ip _ _ _ _ _ _ _ _ O)).
    destruct (Z.eqb_spec (i_type ip) T_DEV); [done|]. by rewrite (io_rejects s i ip _ _ (oi_ip _ _ _ _ _ _ _ _ O)).
Qed.

(** C12: [writei] on a file of the root device writes all [n] bytes: the
    bytes of the range become those of the source, every other byte of the
    file, every other cached inode and every block in use by other files
    keeps its value, the size grows to the end of the range if that is past
    it and the inode is then written back, and the transaction gains at most
    three blocks more than the range touches; it panics neither for lack of
    log space nor of disk space, given two free blocks for each block of the
    range and six free entries of the log besides one for each.  An offset past the end of the file, an
    overflow and a range past the maximal file size are rejected with -1. *)
Theorem writei_correct sb s c l i ip j x off src n :
  oinode sb s c l i ip j x -> i_file_type ip = Some inbuiltfs -> i_type ip <> T_DEV ->
  0 <= i_inum ip < sb_ninodes sb -> 0 <= off < 2 ^ 32 -> 0 <= n < 2 ^ 32 -> n <= Z.of_nat (length src) ->
  (off <= i_size ip -> off + n <= MAXFILE * BSIZE ->
   (2 * length (touched off n) <= nfree sb (c_view c))%nat ->
   lh_n l + Z.of_nat (length (touched off n)) + 6 <= log_size l - 1 ->
   wp (writei i src off n) (fun r s' => r = n /\ exists c' l' a', written sb s c l i ip j x off src n s' c' l' a') s) /\
  (i_size ip < off \/ 2 ^ 32 <= off + n \/ MAXFILE * BSIZE < off + n -> writei i src off n s = Ret (-1) s).
Proof.
  intros O Hft Ht Hi Ho Hn Hsrc. split.
  - intros. apply writei_spec; done || lia.
  - intros Hor. unfold writei, writei_with. run (getip_Some _ _ _ (oi_ip _ _ _ _ _ _ _ _ O)).
    destruct (Z.eqb_spec (i_type ip) T_DEV); [done|].
    destruct ((i_size ip <? off) || (u32 (off + n) <? off)) eqn:E; [done|].
    destruct (Z.ltb_spec (MAXFILE * BSIZE) (off + n)); [done|].
    rewrite (io_rejects s i ip _ _ (oi_ip _ _ _ _ _ _ _ _ O)) in E; try done. destruct Hor as [?|[?|?]]; auto; lia.
Qed.

Lemma written_bytes sb s c l i ip j x off src n s' c' l' a' :
  written sb s c l i ip j x off src n s' c' l' a' -> 0 <= off -> 0 <= n -> off + n <= MAXFILE * BSIZE ->
  n <= Z.of_nat (length src) -> fbytes (c_view c') a' off (Z.to_nat n) = take (Z.to_nat n) src.
Proof.
  intros W Ho Hn Hm Hs. apply list_eq. intros k. unfold fbytes. rewrite list_lookup_fmap.
  destruct (decide (k < Z.to_nat n)%nat) as [Hk|Hk].
  - rewrite lookup_seq_lt, lookup_take_lt by done. simpl. rewrite (wn_bytes _ _ _ _ _ _ _ _ _ _ _ _ _ _ _ W) by lia.
    destruct (Z.leb_spec off (off + Z.of_nat k)), (Z.ltb_spec (off + Z.of_nat k) (off + n)); try lia. cbn [andb].
    replace (Z.to_nat (off + Z.of_nat k - off)) with k by lia.
    destruct (lookup_lt_is_Some_2 src k) as [v ->]; [lia|done].
  - rewrite lookup_seq_ge, lookup_take_ge by lia. done.
Qed.

(** C13: What [writei] writes, [readi] reads back. *)
Theorem writei_readi sb s c l i ip j x off src n :
  oinode sb s c l i ip j x -> i_file_type ip = Some inbuiltfs -> i_type ip <> T_DEV ->
  0 <= i_inum ip < sb_ninodes sb -> 0 <= off <= i_size ip -> 0 <= n <= Z.of_nat (length src) ->
  off + n <= MAXFILE * BSIZE -> i_size ip <= MAXFILE * BSIZE ->
  (2 * length (touched off n) <= nfree sb (c_view c))%nat ->
  lh_n l + Z.of_nat (length (touched off n)) + 6 <= log_size l - 1 ->
  wp (writei i src off n ;; readi i off n) (fun r _ => r = (n, take (Z.to_nat n) src)) s.
Proof.
  intros O Hft Ht Hi Ho Hn Hm Hs Hf Hl. wp_call (writei_spec sb s c l i ip j x off src n O); try done; try lia.
  intros r s1 [-> (c1 & l1 & a1 & W)]. pose proof (wn_o _ _ _ _ _ _ _ _ _ _ _ _ _ _ _ W) as O1.
  assert (i_type (grown ip off n) = i_type ip) as Et by (unfold grown; by destruct (extends ip off n)).
  assert (off + n <= i_size (grown ip off n) <= MAXFILE * BSIZE \/ n = 0 /\ i_size (grown ip off n) = i_size ip) as Hsz.
  { unfold grown, extends. destruct (Z.ltb_spec 0 n), (Z.ltb_spec (i_size ip) (off + n)); simpl; lia. }
  assert (clip (grown ip off n) off n = n) as Ec by (unfold clip; lia).
  eapply wp_mono; [apply (readi_spec sb s1 c1 l1 i (grown ip off n) j (set_a_addrs a1 x) off n O1); try lia|].
  - klia.
  - rewrite Ec. intros bn H0 Hbn. apply (wn_alloc _ _ _ _ _ _ _ _ _ _ _ _ _ _ _ W), elem_of_touched. lia.
  - intros r s2 [-> _]. rewrite Ec. f_equal. by eapply written_bytes; [exact W|lia..].
Qed.

(** C14: Writing to a file leaves every other file that shares no block with
    it as it was: the same blocks and the same bytes. *)
Theorem writei_isolation sb s c l i ip j x off src n a2 :
  oinode sb s c l i ip j x -> i_file_type ip = Some inbuiltfs -> i_type ip <> T_DEV ->
  0 <= i_inum ip < sb_ninodes sb -> 0 <= off <= i_size ip -> 0 <= n <= Z.of_nat (length src) ->
  off + n <= MAXFILE * BSIZE ->
  (2 * length (touched off n) <= nfree sb (c_view c))%nat ->
  lh_n l + Z.of_nat (length (touched off n)) + 6 <= log_size l - 1 ->
  file_ok sb l (c_view c) a2 -> (forall b, in_file (c_view c) a2 b -> ~ in_file (c_view c) (a_addrs x) b) ->
  wp (writei i src off n) (fun _ s' => exists c' l' a', oinode sb s' c' l' i (grown ip off n) j (set_a_addrs a' x) /\
    (forall bn, fblock (c_view c') a2 bn = fblock (c_view c) a2 bn) /\
    (forall o, 0 <= o < MAXFILE * BSIZE -> fbyte (c_view c') a2 o = fbyte (c_view c) a2 o)) s.
Proof.
  intros O Hft Ht Hi Ho Hn Hm Hf Hl F2 Hdis. eapply wp_mono; [apply (writei_spec sb s c l i ip j x off src n O); done || lia|].
  intros r s1 [-> (c1 & l1 & a1 & W)]. exists c1, l1, a1. split; [apply W|].
  assert (forall b, in_file (c_view c) a2 b -> c_view c1 (ROOTDEV, b) = c_view c (ROOTDEV, b)) as Hsame.
  { intros b Hb. apply (wn_other _ _ _ _ _ _ _ _ _ _ _ _ _ _ _ W); [by apply (fo_own _ _ _ _ F2)|by apply Hdis]. }
  assert (forall bn, fblock (c_view c1) a2 bn = fblock (c_view c) a2 bn) as Hfb.
  { intros bn. unfold fblock. destruct (Z.eqb_spec (ind a2) 0) as [|H0]; [done|]. by rewrite Hsame by (by apply ind_in). }
  split; [done|]. intros o Hor. unfold fbyte. rewrite Hfb.
  destruct (Z.eqb_spec (fblock (c_view c) a2 (o / BSIZE)) 0); [done|]. rewrite Hsame; [done|].
  by apply fblock_in; [apply div_max|].
Qed.
End writing.
