(* ===== verification/Ext2Spec.v ===== *)
(** * Files of the ext2 disk (ext2fs.c)

  What [ext2_balloc], [ext2_bmap], [ext2_writei], [ext2_readi] and
  [ext2_iupdate] do to the blocks of the second disk, for the blocks an inode
  addresses directly.  Every block is written through, so between operations
  the disk has what the cache has. *)
From S2P Require Import Prelude Params Layout KState Driver Dll Bio Cache Log LogCrash FsBase FsAlloc Inode Ext2 Vfs Content FileIO.

(** ** The blocks of a file

    Block [bn] of the file, for [bn] below [EXT2_NDIR_BLOCKS], is [addr_at a
    bn].  The allocator takes bit [z] of the group's bitmap for block
    [bg_block_bitmap + z] (ext2fs.c:86), where the ext2 format means block
    [s_first_data_block + z] of the first group.  On a disk made by mkfs.ext2 the low bits are
    set up to the first free block, so that the allocator's blocks are past
    the inode table; bits whose block, so counted, is past the end of the
    disk may be clear.  [xbitmap_ok] says what a write needs of the bitmap:
    a clear bit whose block is on the disk is not a block of the file system's
    own tables. *)
Definition XMAX : Z := EXT2_NDIR_BLOCKS * BSIZE.
Definition xbyte (V : blk -> list Z) (a : list Z) (o : Z) : Z :=
  let b := addr_at a (o / BSIZE) in
  if b =? 0 then 0 else default 0 (V (EXT2DEV, b) !! Z.to_nat (o mod BSIZE)).
Definition xbytes (V : blk -> list Z) (a : list Z) (off : Z) (n : nat) : list Z :=
  (fun k => xbyte V a (off + Z.of_nat k)) <$> seq 0 n.

(** The clear bits among the first [n] of a bitmap block, and the number of
    bits that stand, for the allocator, for a block of the disk. *)
Definition clearbits (n : Z) (d : list Z) : nat := length (filter (fun z => bit_set d z = false) (seqZ 0 n)).
Definition xbits (exs : ext2_superblock) (gd : ext2_group_desc) : Z := Z.min BPB (s_blocks_count exs - bg_block_bitmap gd).
Notation nfreex exs gd V := (clearbits (xbits exs gd) (V (EXT2DEV, bg_block_bitmap gd))).

Section xfile.
Context (exs : ext2_superblock) (gd : ext2_group_desc).
Notation bm := (bg_block_bitmap gd).

(** The blocks that describe the file system. *)
Definition xmeta (b : Z) : Prop :=
  b = 0 \/ b = 1 \/ b = bm \/ b = bg_inode_bitmap gd \/
  exists io, 0 <= io < s_inodes_per_group exs /\ b = bg_inode_table gd + io / (BSIZE / s_inode_size exs).
Definition xdata (b : Z) : Prop := 0 < b < s_blocks_count exs /\ ~ xmeta b.
Definition xbit (V : blk -> list Z) (b : Z) : bool := bit_set (V (EXT2DEV, bm)) (b - bm).
Definition xowned (V : blk -> list Z) (b : Z) : Prop := xdata b /\ bm < b /\ xbit V b = true.
Definition xin (a : list Z) (b : Z) : Prop := exists bn, 0 <= bn < EXT2_NDIR_BLOCKS /\ addr_at a bn = b.

Definition xbitmap_ok (V : blk -> list Z) : Prop :=
  forall z, 0 <= z < xbits exs gd -> bit_set (V (EXT2DEV, bm)) z = false -> xdata (bm + z).
Record xfile_ok (V : blk -> list Z) (a : list Z) : Prop := {
  xo_len : length a = Z.to_nat EXT2_N_BLOCKS;
  xo_own : forall bn, 0 <= bn < EXT2_NDIR_BLOCKS -> addr_at a bn <> 0 -> xowned V (addr_at a bn);
  xo_inj : forall bn bn', 0 <= bn < EXT2_NDIR_BLOCKS -> 0 <= bn' < EXT2_NDIR_BLOCKS -> addr_at a bn <> 0 ->
    addr_at a bn = addr_at a bn' -> bn = bn'
}.

(** What a write has done so far: the bytes of [off, off + tot) are those of
    [src]; other files and the blocks that describe the file system, but for
    the bitmap, are as they were. *)
Record xrel (V : blk -> list Z) (a : list Z) (off : Z) (src : list Z) (tot : Z) (V' : blk -> list Z) (a' : list Z) : Prop := {
  xl_file : xfile_ok V' a';
  xl_bitmap : xbitmap_ok V';
  xl_bytes : forall o, 0 <= o < XMAX ->
    xbyte V' a' o = if (off <=? o) && (o <? off + tot) then default 0 (src !! Z.to_nat (o - off)) else xbyte V a o;
  xl_alloc : forall bn, bn ∈ touched off tot -> addr_at a' bn <> 0;
  xl_keep : forall bn, 0 <= bn < EXT2_NDIR_BLOCKS -> addr_at a bn <> 0 -> addr_at a' bn = addr_at a bn;
  xl_tail : drop (Z.to_nat EXT2_NDIR_BLOCKS) a' = drop (Z.to_nat EXT2_NDIR_BLOCKS) a;
  xl_other : forall b, xowned V b -> ~ xin a b -> xowned V' b /\ ~ xin a' b /\ V' (EXT2DEV, b) = V (EXT2DEV, b);
  xl_meta : forall b, xmeta b -> b <> bm -> V' (EXT2DEV, b) = V (EXT2DEV, b);
  xl_dev : forall k, k.1 <> EXT2DEV -> V' k = V k
}.

Lemma xin_range V a b : xfile_ok V a -> xin a b -> b <> 0 -> xowned V b.
Proof. intros F (bn & Hbn & <-) H0. by apply (xo_own _ _ F). Qed.
Lemma xdata_not_meta b : xdata b -> b <> 0 /\ b <> 1 /\ b <> bm.
Proof. intros [_ H]. unfold xmeta in H. naive_solver. Qed.
Lemma addr_at_drop (a : list Z) n v : 0 <= n < EXT2_NDIR_BLOCKS ->
  drop (Z.to_nat EXT2_NDIR_BLOCKS) (<[Z.to_nat n := v]> a) = drop (Z.to_nat EXT2_NDIR_BLOCKS) a.
Proof. intros H. rewrite drop_insert_lt; [done|]. lia. Qed.

(** Giving the file a fresh block. *)
Section alloc.
Context (V V1 : blk -> list Z) (a : list Z) (bn z : Z).
Context (F : xfile_ok V a) (B : xbitmap_ok V) (Hbn : 0 <= bn < EXT2_NDIR_BLOCKS) (H0 : addr_at a bn = 0).
Context (Hl : length (V (EXT2DEV, bm)) = Z.to_nat BSIZE) (Hz : 0 <= z < xbits exs gd) (Hc : bit_set (V (EXT2DEV, bm)) z = false).
Context (HV : forall k, V1 k = <[(EXT2DEV, bm + z) := zero_block]> (<[(EXT2DEV, bm) := set_bit (V (EXT2DEV, bm)) z]> V) k).
Notation f := (bm + z).
Notation a1 := (<[Z.to_nat bn := f]> a).

Lemma fresh_data : xdata f /\ f <> 0 /\ f <> bm /\ 1 <= z.
Proof using All. pose proof (B z Hz Hc) as D. destruct (xdata_not_meta _ D) as (? & ? & ?). split; [done|]. split; [done|]. split; [done|]. lia. Qed.
Lemma alloc_at bn' : 0 <= bn' < EXT2_NDIR_BLOCKS -> addr_at a1 bn' = if bn' =? bn then f else addr_at a bn'.
Proof using All. intros H. apply addr_at_insert; [rewrite (xo_len _ _ F)|lia|lia]. change EXT2_N_BLOCKS with 15. lia. Qed.
Lemma alloc_bits j : 0 <= j -> bit_set (V1 (EXT2DEV, bm)) j = (z =? j) || bit_set (V (EXT2DEV, bm)) j.
Proof using All.
  intros Hj. destruct fresh_data as (_ & _ & Hne & _). rewrite HV, fn_lookup_insert_ne by (intros [=]; lia). rewrite fn_lookup_insert.
  assert (0 <= z < BPB) as Hzb by (unfold xbits in Hz; lia).
  apply bit_set_set; [lia|done|]. rewrite Hl. assert (z / 8 < BSIZE) by (apply Z.div_lt_upper_bound; klia).
  pose proof (Z.div_pos z 8 ltac:(lia) ltac:(lia)). lia.
Qed.
Lemma alloc_owned b : xowned V b -> b <> f /\ xowned V1 b /\ V1 (EXT2DEV, b) = V (EXT2DEV, b).
Proof using All.
  intros (D & Hb & Hu). destruct (xdata_not_meta _ D) as (_ & _ & Hbm). assert (b <> f) as Hf.
  { intros ->. unfold xbit in Hu. replace (f - bm) with z in Hu by lia. congruence. }
  split; [done|]. split; [|by rewrite HV, !fn_lookup_insert_ne by (intros [=]; lia)]. split; [done|]. split; [done|].
  unfold xbit in *. rewrite alloc_bits by lia. rewrite Hu. apply orb_true_r.
Qed.
Lemma alloc_file : xfile_ok V1 a1.
Proof using All.
  destruct fresh_data as (D & Hf0 & Hfb & Hz1). split.
  - rewrite length_insert. apply F.
  - intros bn' Hb'. rewrite alloc_at by done. destruct (Z.eqb_spec bn' bn) as [->|Hne].
    + intros _. split; [done|]. split; [lia|]. unfold xbit. rewrite alloc_bits by lia. replace (f - bm) with z by lia. by rewrite Z.eqb_refl.
    + intros H. by apply alloc_owned, F.
  - intros b1 b2 H1 H2. rewrite !alloc_at by done. destruct (Z.eqb_spec b1 bn) as [->|N1], (Z.eqb_spec b2 bn) as [->|N2]; [done|..].
    + intros _ E. exfalso. destruct (alloc_owned (addr_at a b2)) as [? _]; [|congruence]. apply F; [done|congruence].
    + intros H E. exfalso. destruct (alloc_owned (addr_at a b1)) as [? _]; [|congruence]. by apply F.
    + by apply F.
Qed.
Lemma alloc_bitmap : xbitmap_ok V1.
Proof using All. intros j Hj. rewrite alloc_bits by lia. rewrite orb_false_iff. intros [_ H]. by apply B. Qed.
Lemma alloc_bytes o : 0 <= o < XMAX -> xbyte V1 a1 o = xbyte V a o.
Proof using All.
  intros Ho. assert (0 <= o / BSIZE < EXT2_NDIR_BLOCKS) as Hr.
  { split; [apply Z.div_pos; klia|]. apply Z.div_lt_upper_bound; unfold XMAX in *; klia. }
  unfold xbyte. rewrite alloc_at by done. destruct fresh_data as (D & Hf0 & _). destruct (Z.eqb_spec (o / BSIZE) bn) as [->|Hne].
  - rewrite H0. destruct (Z.eqb_spec f 0); [done|]. simpl. rewrite HV, fn_lookup_insert. unfold zero_block.
    destruct (replicate _ 0 !! _) eqn:E; [|done]. by apply lookup_replicate in E as [-> _].
  - destruct (Z.eqb_spec (addr_at a (o / BSIZE)) 0); [done|]. by destruct (alloc_owned (addr_at a (o / BSIZE))) as (_ & _ & ->); [apply F|].
Qed.
Lemma alloc_free : nfreex exs gd V = S (nfreex exs gd V1).
Proof using All.
  unfold clearbits. apply (length_filter_update _ _ _ z); [apply NoDup_seqZ|apply elem_of_seqZ; lia|done|].
  intros y Hy%elem_of_seqZ. rewrite alloc_bits by lia. destruct (Z.eqb_spec z y) as [->|]; simpl; naive_solver.
Qed.
End alloc.
Lemma xrel_refl V a off src : xfile_ok V a -> xbitmap_ok V -> xrel V a off src 0 V a.
Proof.
  intros F B. split; try done.
  - intros o Ho. destruct (Z.leb_spec off o), (Z.ltb_spec o (off + 0)); done || lia.
  - intros bn Hbn%elem_of_touched. lia.
Qed.

Lemma xrel_alloc V a off src tot V1 a1 V2 bn z :
  xrel V a off src tot V1 a1 -> 0 <= off -> off + tot <= XMAX -> 0 <= bn < EXT2_NDIR_BLOCKS -> addr_at a1 bn = 0 ->
  length (V1 (EXT2DEV, bm)) = Z.to_nat BSIZE -> 0 <= z < xbits exs gd -> bit_set (V1 (EXT2DEV, bm)) z = false ->
  (forall k, V2 k = <[(EXT2DEV, bm + z) := zero_block]> (<[(EXT2DEV, bm) := set_bit (V1 (EXT2DEV, bm)) z]> V1) k) ->
  xrel V a off src tot V2 (<[Z.to_nat bn := bm + z]> a1) /\ nfreex exs gd V1 = S (nfreex exs gd V2).
Proof.
  intros R Ho Hmx Hbn H0 Hl Hz Hc HV. pose proof (xl_file _ _ _ _ _ _ _ R) as F. pose proof (xl_bitmap _ _ _ _ _ _ _ R) as B.
  pose proof (fresh_data V1 V2 a1 bn z F B Hbn H0 Hl Hz Hc HV) as (D & Hf0 & Hfb & Hz1).
  pose proof (alloc_at V1 V2 a1 bn z F B Hbn H0 Hl Hz Hc HV) as Hat. split; [split|by eapply alloc_free].
  - by apply (alloc_file V1 V2 a1 bn z).
  - by apply (alloc_bitmap V1 V2 a1 bn z).
  - intros o Hr. rewrite (alloc_bytes V1 V2 a1 bn z) by done. by apply (xl_bytes _ _ _ _ _ _ _ R).
  - intros bn' Hb. pose proof (xl_alloc _ _ _ _ _ _ _ R bn' Hb) as Hn. rewrite Hat.
    + by destruct (Z.eqb_spec bn' bn).
    + apply elem_of_touched in Hb as [? ?]. pose proof (Z.div_pos off BSIZE ltac:(lia) ltac:(klia)).
      assert ((off + tot - 1) / BSIZE < EXT2_NDIR_BLOCKS) by (apply Z.div_lt_upper_bound; unfold XMAX in *; klia). lia.
  - intros bn' Hb Hn. pose proof (xl_keep _ _ _ _ _ _ _ R bn' Hb Hn) as E. rewrite Hat by done.
    destruct (Z.eqb_spec bn' bn) as [->|]; [congruence|done].
  - rewrite addr_at_drop by done. apply R.
  - intros b Hb Hni. destruct (xl_other _ _ _ _ _ _ _ R b Hb Hni) as (O1 & N1 & E1).
    destruct (alloc_owned V1 V2 a1 bn z F B Hbn H0 Hl Hz Hc HV b O1) as (Hbf & O2 & E2). split; [done|]. split; [|congruence].
    intros (bn' & Hb' & E). rewrite Hat in E by done. destruct (Z.eqb_spec bn' bn) as [->|]; [congruence|]. apply N1. by exists bn'.
  - intros b Hm Hne. rewrite HV, !fn_lookup_insert_ne; [by apply (xl_meta _ _ _ _ _ _ _ R)|congruence|]. intros [= E]. apply D. by rewrite E.
  - intros k Hk. rewrite HV, !fn_lookup_insert_ne by (intros <-; by apply Hk). by apply (xl_dev _ _ _ _ _ _ _ R).
Qed.

Lemma xrel_store V a off src tot V1 a1 V2 m :
  let o := off + tot in let b := addr_at a1 (o / BSIZE) in
  xrel V a off src tot V1 a1 -> 0 <= off -> 0 <= tot -> 0 < m <= BSIZE - o mod BSIZE -> o + m <= XMAX ->
  tot = 0 \/ o mod BSIZE = 0 -> tot + m <= Z.of_nat (length src) -> b <> 0 -> length (V1 (EXT2DEV, b)) = Z.to_nat BSIZE ->
  (forall k, V2 k = <[(EXT2DEV, b) := splice (V1 (EXT2DEV, b)) (Z.to_nat (o mod BSIZE)) (slice src (Z.to_nat tot) (Z.to_nat m))]> V1 k) ->
  xrel V a off src (tot + m) V2 a1 /\ nfreex exs gd V2 = nfreex exs gd V1.
Proof.
  intros o b R Ho Ht Hm Hmx Hal Hs Hb Hl HV. pose proof (xl_file _ _ _ _ _ _ _ R) as F.
  assert (0 <= o / BSIZE < EXT2_NDIR_BLOCKS) as Hbn.
  { split; [apply Z.div_pos; unfold o; klia|]. apply Z.div_lt_upper_bound; unfold XMAX in *; klia. }
  pose proof (xo_own _ _ F _ Hbn Hb) as Own. fold b in Own. destruct Own as (D & Hgt & Hu). destruct (xdata_not_meta _ D) as (_ & _ & Hbm).
  assert (V2 (EXT2DEV, bm) = V1 (EXT2DEV, bm)) as Ebm by (rewrite HV, fn_lookup_insert_ne; [done|congruence]).
  assert (forall y, xowned V2 y <-> xowned V1 y) as Hown by (intros y; unfold xowned, xbit; by rewrite Ebm).
  split; [split|unfold clearbits; by rewrite Ebm].
  - split; [apply F| |apply F]. intros bn H1 H2. apply Hown. by apply F.
  - intros y. rewrite Ebm. apply R.
  - intros y Hy. pose proof (xl_bytes _ _ _ _ _ _ _ R y Hy) as E. unfold xbyte in E |- *.
    pose proof (Z.mod_pos_bound o BSIZE ltac:(klia)). pose proof (Z.mod_pos_bound y BSIZE ltac:(klia)).
    assert (0 <= y / BSIZE < EXT2_NDIR_BLOCKS) as Hyb.
    { split; [apply Z.div_pos; klia|]. apply Z.div_lt_upper_bound; unfold XMAX in *; klia. }
    pose proof (Z.div_mod o BSIZE ltac:(klia)) as D1. pose proof (Z.div_mod y BSIZE ltac:(klia)) as D2.
    assert (length (slice src (Z.to_nat tot) (Z.to_nat m)) = Z.to_nat m) as Hls by (apply length_slice; lia).
    destruct (decide (y / BSIZE = o / BSIZE)) as [Eb|Nb].
    + rewrite Eb in *. fold b in E |- *. destruct (Z.eqb_spec b 0); [done|]. rewrite HV, fn_lookup_insert.
      rewrite splice_lookup by klia. rewrite Hls. case_decide as Hd.
      * destruct (Z.leb_spec off y), (Z.ltb_spec y (off + (tot + m))); try (unfold o in *; lia). cbn [andb].
        unfold slice. rewrite lookup_take_lt, lookup_drop by lia. f_equal. f_equal. unfold o in *. lia.
      * rewrite E. destruct (Z.leb_spec off y), (Z.ltb_spec y (off + tot)), (Z.ltb_spec y (off + (tot + m))); done || (unfold o in *; lia).
    + transitivity (xbyte V1 a1 y).
      { unfold xbyte. destruct (Z.eqb_spec (addr_at a1 (y / BSIZE)) 0); [done|]. rewrite HV, fn_lookup_insert_ne; [done|].
        intros [= E']. apply Nb. symmetry. by apply (xo_inj _ _ F). }
      unfold xbyte. rewrite E. destruct (Z.leb_spec off y), (Z.ltb_spec y (off + tot)), (Z.ltb_spec y (off + (tot + m))); try done; try lia.
      destruct Nb. replace y with (o + (y - o)) by lia. by destruct (block_split o (y - o)) as [-> _]; [unfold o in *; lia..|].
  - intros bn Hbn'. destruct (touched_cover off tot m bn) as [Hin| ->]; [lia|lia|done|done|done| |done]. by apply (xl_alloc _ _ _ _ _ _ _ R).
  - apply R.
  - apply R.
  - intros y Hy Hni. destruct (xl_other _ _ _ _ _ _ _ R y Hy Hni) as (O1 & N1 & E1). split; [by apply Hown|]. split; [done|].
    rewrite HV, fn_lookup_insert_ne; [done|]. intros [= E]. apply N1. by exists (o / BSIZE).
  - intros y Hy Hne. rewrite HV, fn_lookup_insert_ne; [by apply (xl_meta _ _ _ _ _ _ _ R)|]. intros [= E]. apply D. by rewrite E.
  - intros k Hk. rewrite HV, fn_lookup_insert_ne by (intros <-; by apply Hk). by apply (xl_dev _ _ _ _ _ _ _ R).
Qed.
End xfile.

(** ** Blocks of the ext2 disk through the cache *)
Section ext2spec.
Context {DD : DiskDriver}.

Record xt (s : kstate) (c : cache) : Prop := {
  xt_rep : rep s c;
  xt_dd : forall b, dd_ok s EXT2DEV b;
  xt_clean : forall b, c_dirty c (EXT2DEV, b) = false;
  xt_room : exists L, (forall k, k.1 <> 0 -> c_dirty c k = true -> k ∈ L) /\ (length L + 3 < Z.to_nat NBUF)%nat
}.

Lemma xt_frame s s' c c' : xt s c -> rep s' c' -> bio_frame s s' -> (forall k, c_dirty c' k = true -> c_dirty c k = true) -> xt s' c'.
Proof.
  intros X R F Hd. split; [done|..].
  - intros b. eapply dd_ok_frame; [..|by apply X]; by rewrite F.
  - intros b. apply not_true_iff_false. intros Hb%Hd. by rewrite (xt_clean _ _ X) in Hb.
  - destruct (xt_room _ _ X) as (L & HL & Hlt). exists L. split; [|done]. intros k H0 Hk. apply HL; auto.
Qed.

Lemma x_bread s c b (Q : nat -> kstate -> Prop) :
  xt s c -> (forall j, c_held c !! j <> Some (EXT2DEV, b)) -> (size (c_held c) <= 2)%nat ->
  (forall i s', c_held c !! i = None -> xt s' (a_bread i (EXT2DEV, b) c) -> bio_frame s s' ->
     dread (c_disk c) (EXT2DEV, b) = c_view c (EXT2DEV, b) -> Q i s') -> wp (bread EXT2DEV b) Q s.
Proof.
  intros X Hn Hs HQ. eapply wp_bread; [apply X|done|by apply X|done| |].
  { right. destruct (xt_room _ _ X) as (L & HL & Hlt). exists L. split; [done|lia]. }
  intros i s' Hi R F. apply HQ; [done| |done|].
  - eapply xt_frame; [exact X|done|done|done].
  - apply (rep_sync _ _ _ (xt_rep _ _ X)); [done|done|apply X].
Qed.
Lemma x_bput s c i k d (Q : unit -> kstate -> Prop) :
  xt s c -> c_held c !! i = Some k -> length d = Z.to_nat BSIZE ->
  (forall s', xt s' (a_bput k d c) -> bio_frame s s' -> Q tt s') -> wp (bput i d) Q s.
Proof.
  intros X Hi Hd HQ. eapply wp_bput; [apply X|done..|]. intros s' R F. apply HQ; [|done]. by eapply xt_frame.
Qed.
Lemma x_bwrite s c i b (Q : unit -> kstate -> Prop) :
  xt s c -> c_held c !! i = Some (EXT2DEV, b) ->
  (forall s', xt s' (a_bwrite (EXT2DEV, b) c) -> bio_frame s s' -> Q tt s') -> wp (bwrite i) Q s.
Proof.
  intros X Hi HQ. eapply wp_bwrite; [apply X|done|by apply X|]. intros s' R F. apply HQ; [|done].
  eapply xt_frame; [exact X|done|done|]. intros k. simpl. destruct (decide (k = (EXT2DEV, b))) as [->|]; [by rewrite fn_lookup_insert|by rewrite fn_lookup_insert_ne].
Qed.
Lemma x_brelse s c i k (Q : unit -> kstate -> Prop) :
  xt s c -> c_held c !! i = Some k -> dread (c_disk c) k = c_view c k ->
  (forall s', xt s' (a_brelse i c) -> bio_frame s s' -> Q tt s') -> wp (brelse i) Q s.
Proof.
  intros X Hi Hs HQ. eapply wp_brelse; [apply X|done|by right|]. intros s' R F. apply HQ; [|done]. by eapply xt_frame.
Qed.
Lemma x_bdata s c i k Q : xt s c -> c_held c !! i = Some k -> Q (c_view c k) s -> wp (bdata i) Q s.
Proof. intros X. apply wp_bdata, X. Qed.
Lemma x_length s c b : xt s c -> length (c_view c (EXT2DEV, b)) = Z.to_nat BSIZE.
Proof. intros X. by apply (rep_length _ _ _ (xt_rep _ _ X)). Qed.
Lemma x_synced s c b : xt s c -> c_held c = ∅ -> dread (k_disk s) (EXT2DEV, b) = c_view c (EXT2DEV, b).
Proof.
  intros X Hh. rewrite (rep_disk _ _ (xt_rep _ _ X)). apply (rep_sync _ _ _ (xt_rep _ _ X)); [done|by rewrite Hh|apply X].
Qed.

(** The state after the blocks [ws] have been written, in order. *)
Definition xws (ws : list (Z * list Z)) : list (blk * list Z) := (fun w => ((EXT2DEV, w.1), w.2)) <$> ws.

Record xnext (s : kstate) (c : cache) (ws : list (Z * list Z)) (s' : kstate) (c' : cache) : Prop := {
  xn_xt : xt s' c';
  xn_frame : bio_frame s s';
  xn_held : c_held c' = c_held c;
  xn_view : forall k, c_view c' k = replayf (c_view c) (xws ws) k;
  xn_writes : c_writes c' = c_writes c ++ xws ws
}.
Lemma xnext_refl s c : xt s c -> xnext s c [] s c.
Proof. intros X. split; try done. by rewrite app_nil_r. Qed.
Lemma xnext_trans s c ws s1 c1 ws' s2 c2 : xnext s c ws s1 c1 -> xnext s1 c1 ws' s2 c2 -> xnext s c (ws ++ ws') s2 c2.
Proof.
  intros N1 N2. split; [apply N2|etrans; [apply N1|apply N2]|rewrite (xn_held _ _ _ _ _ N2); apply N1|..].
  - intros k. rewrite (xn_view _ _ _ _ _ N2). unfold xws. rewrite fmap_app, replayf_app. apply replayf_ext. apply N1.
  - rewrite (xn_writes _ _ _ _ _ N2), (xn_writes _ _ _ _ _ N1). unfold xws. by rewrite fmap_app, app_assoc.
Qed.

(** ** [ext2_balloc] *)
Lemma zeroth_bit_loop_run fuel d n z s : forall b,
  0 <= b <= z -> z < n -> (Z.to_nat (z / 8) < length d)%nat -> z - b < Z.of_nat fuel ->
  (forall j, b <= j < z -> bit_set d j = true) -> bit_set d z = false ->
  zeroth_bit_loop fuel d n b s = Ret (z, set_bit d z) s.
Proof.
  induction fuel as [|fuel IH]; intros b Hb Hn Hl Hf Hs Hz; [lia|]. cbn [zeroth_bit_loop].
  destruct (Z.leb_spec n b); [lia|].
  assert (b / 8 <= z / 8) by (apply Z.div_le_mono; lia). pose proof (Z.div_pos b 8 ltac:(lia) ltac:(lia)).
  destruct (lookup_lt_is_Some_2 d (Z.to_nat (b / 8)) ltac:(lia)) as [x Hx].
  rewrite (bind_unwrap _ _ _ _ _ Hx).
  assert ((Z.land x (Z.shiftl 1 (b mod 8)) =? 0) = negb (bit_set d b)) as ->.
  { unfold bit_set, byte_at, bit_mask. rewrite Hx. simpl. by rewrite negb_involutive. }
  destruct (decide (b = z)) as [->|Hne].
  - rewrite Hz. cbn [negb]. unfold set_bit, byte_at, bit_mask. by rewrite Hx.
  - rewrite Hs by lia. cbn [negb]. apply IH; [lia|done|done|lia|intros; apply Hs; lia|done].
Qed.

(** The lowest clear bit of a bitmap block. *)
Definition lowest (d : list Z) : option Z := scan_free (Z.to_nat BPB) d BPB 0 0.

Lemma lowest_Some d z : lowest d = Some z -> 0 <= z < BPB /\ bit_set d z = false /\ forall j, 0 <= j < z -> bit_set d j = true.
Proof.
  unfold lowest. generalize (Z.to_nat BPB). intros n H. apply scan_free_Some in H as (H1 & H2 & H3 & H4).
  split; [lia|]. split; [done|]. done.
Qed.
Lemma scan_clear n d size z : 0 <= z < Z.of_nat n -> z < size -> bit_set d z = false -> exists y, scan_free n d size 0 0 = Some y.
Proof.
  intros Hz Hs Hc. destruct (scan_free n d size 0 0) as [y|] eqn:E; [by exists y|]. exfalso.
  pose proof (scan_free_None _ _ _ _ _ E z ltac:(lia) ltac:(lia)). congruence.
Qed.
Lemma lowest_clear d z : 0 <= z < BPB -> bit_set d z = false -> exists y, lowest d = Some y.
Proof. intros Hz. apply scan_clear; [|lia]. rewrite Z2Nat.id; [done|]. lia. Qed.
Global Opaque lowest.

(** The group [g] of inode [inum] and its descriptor [gd] in block 1. *)
Record xgroup (exs : ext2_superblock) (V : blk -> list Z) (inum g : Z) (gd : ext2_group_desc) : Prop := {
  xg_ipg : s_inodes_per_group exs <> 0;
  xg_g : u32 (inum - 1) / s_inodes_per_group exs = g;
  xg_fits : 0 <= g /\ (g + 1) * sizeof_ext2_group_desc <= BSIZE;
  xg_gd : dec_ext2_group_desc (slice (V (EXT2DEV, 1)) (Z.to_nat (g * sizeof_ext2_group_desc)) (Z.to_nat sizeof_ext2_group_desc)) = gd;
  xg_bits : BPB <= u32 (s_blocks_per_group exs * 8);
  xg_bm : 1 < bg_block_bitmap gd < s_blocks_count exs;
  xg_count : s_blocks_count exs <= 2 ^ 26
}.

Lemma GN_run exs V inum g gd s : xgroup exs V inum g gd -> GN inum exs s = Ret g s.
Proof. intros G. unfold GN, udiv. destruct (Z.eqb_spec (s_inodes_per_group exs) 0); [by destruct (xg_ipg _ _ _ _ _ G)|]. by rewrite (xg_g _ _ _ _ _ G). Qed.
Lemma load_gd_run exs V inum g gd s : xgroup exs V inum g gd -> length (V (EXT2DEV, 1)) = Z.to_nat BSIZE ->
  load_gd (V (EXT2DEV, 1)) g s = Ret gd s.
Proof.
  intros G Hl. destruct (xg_fits _ _ _ _ _ G) as [Hg Hb]. unfold load_gd, load. change sizeof_ext2_group_desc with 32 in *.
  rewrite u32_small by klia. rewrite Hl. destruct (Z.leb_spec 0 (g * 32)), (Z.leb_spec (g * 32 + 32) (Z.of_nat (Z.to_nat BSIZE))); try klia.
  cbn [andb]. run_steps. f_equal. apply G.
Qed.
Lemma not_held_empty {A} (m : gmap nat A) j x : m = ∅ -> m !! j <> Some x.
Proof. by intros ->. Qed.

Lemma zeroth_bit_spec s c bp bm z exs (Q : Z -> kstate -> Prop) :
  xt s c -> c_held c !! bp = Some (EXT2DEV, bm) -> k_exs s = exs -> BPB <= u32 (s_blocks_per_group exs * 8) ->
  lowest (c_view c (EXT2DEV, bm)) = Some z ->
  (forall s', xt s' (a_bput (EXT2DEV, bm) (set_bit (c_view c (EXT2DEV, bm)) z) c) -> bio_frame s s' -> Q z s') ->
  wp (zeroth_bit bp) Q s.
Proof.
  intros X Hh Ex Hn Hz HQ. destruct (lowest_Some _ _ Hz) as (Hr & Hc & Hs). pose proof (x_length s c bm X) as Hl.
  unfold zeroth_bit. wp_steps. eapply x_bdata; [exact X|exact Hh|]. rewrite Ex.
  eapply wp_run.
  { apply zeroth_bit_loop_run with (z := z); [lia|lia| |rewrite Nat2Z.inj_succ, Z2Nat.id by klia; klia|done|done].
    rewrite Hl. assert (z / 8 < BSIZE) by (apply Z.div_lt_upper_bound; klia). pose proof (Z.div_pos z 8 ltac:(lia) ltac:(lia)). lia. }
  cbn [fst snd]. wp_step. eapply x_bput; [exact X|exact Hh|by rewrite length_set_bit|]. intros s' X' F. wp_step. by apply HQ.
Qed.

Lemma brelse_bread i k c : c_held c !! i = None -> a_brelse i (a_bread i k c) = c.
Proof. intros H. unfold a_brelse, a_bread. simpl. rewrite delete_insert_id by done. by destruct c. Qed.
Lemma bread_at i k c : c_held (a_bread i k c) !! i = Some k.
Proof. apply lookup_insert_eq. Qed.

(** Reading and writing back one block: what is held otherwise stays. *)
Definition a_put (i : nat) (b : Z) (d : list Z) (c : cache) : cache := a_bwrite (EXT2DEV, b) (a_bput (EXT2DEV, b) d (a_bread i (EXT2DEV, b) c)).
Lemma put_view i b d c k : c_view (a_put i b d c) k = <[(EXT2DEV, b) := d]> (c_view c) k.
Proof. done. Qed.
Lemma put_writes i b d c : c_writes (a_put i b d c) = c_writes c ++ xws [(b, d)].
Proof. simpl. by rewrite fn_lookup_insert. Qed.
Lemma put_synced i b d c : dread (c_disk (a_put i b d c)) (EXT2DEV, b) = c_view (a_put i b d c) (EXT2DEV, b).
Proof. unfold a_put, dread, disk_read. simpl. by rewrite lookup_insert_eq. Qed.

Lemma x_bzero s c b (Q : unit -> kstate -> Prop) :
  xt s c -> (forall j, c_held c !! j <> Some (EXT2DEV, b)) -> (size (c_held c) <= 2)%nat ->
  (forall i s', c_held c !! i = None -> xt s' (a_brelse i (a_put i b zero_block c)) -> bio_frame s s' -> Q tt s') ->
  wp (bzero EXT2DEV b) Q s.
Proof.
  intros X Hn Hs HQ. unfold bzero. wp_step. eapply x_bread; [done..|]. intros i s1 Hi X1 F1 _. wp_step.
  eapply x_bput; [exact X1|apply bread_at|apply length_replicate|]. intros s2 X2 F2. wp_step.
  change (EXT2DEV =? ROOTDEV) with false. cbv iota. eapply x_bwrite; [exact X2|apply bread_at|]. intros s3 X3 F3.
  eapply x_brelse; [exact X3|apply bread_at|apply put_synced|]. intros s4 X4 F4.
  apply (HQ i); [done|done|]. do 3 (etrans; [eassumption|]). done.
Qed.

Lemma ext2_balloc_spec s c exs inum g gd z :
  xt s c -> c_held c = ∅ -> k_exs s = exs -> xgroup exs (c_view c) inum g gd ->
  let bm := bg_block_bitmap gd in
  lowest (c_view c (EXT2DEV, bm)) = Some z -> 1 <= z -> bm + z < s_blocks_count exs ->
  wp (ext2_balloc EXT2DEV inum) (fun r s' => r = bm + z /\ exists c',
    xnext s c [(bm, set_bit (c_view c (EXT2DEV, bm)) z); (bm + z, zero_block)] s' c') s.
Proof.
  intros X Hh Ex G bm Hz Hz1 Hlt. pose proof (xg_bm _ _ _ _ _ G) as Hbm. fold bm in Hbm. pose proof (xg_count _ _ _ _ _ G) as Hct.
  unfold ext2_balloc. do 2 wp_step. rewrite Ex. eapply wp_run; [by eapply GN_run|]. wp_step.
  eapply x_bread; [exact X|by intros j; apply not_held_empty|rewrite Hh, map_size_empty; lia|]. intros i1 s1 Hi1 X1 F1 Hd1. wp_step.
  eapply x_bdata; [exact X1|apply bread_at|]. eapply wp_run; [eapply load_gd_run; [exact G|by eapply x_length]|]. wp_step.
  eapply x_brelse; [exact X1|apply bread_at|exact Hd1|]. rewrite brelse_bread by done. intros s2 X2 F2. wp_step. fold bm.
  eapply x_bread; [exact X2|by intros j; apply not_held_empty|rewrite Hh, map_size_empty; lia|]. intros bp s3 Hbp X3 F3 Hd3. wp_step.
  assert (k_exs s3 = exs) as Ex3 by (rewrite F3, F2, F1; done).
  eapply zeroth_bit_spec; [exact X3|apply bread_at|exact Ex3|apply G|exact Hz|]. intros s4 X4 F4.
  destruct (Z.ltb_spec (-1) z); [|lia]. rewrite u32_small by klia. wp_step.
  eapply x_bwrite; [exact X4|apply bread_at|]. intros s5 X5 F5. wp_step.
  eapply x_bzero; [exact X5| |simpl; rewrite Hh, insert_empty, map_size_singleton; lia|].
  { intros j. simpl. rewrite Hh, insert_empty. intros [_ [= E]]%lookup_singleton_Some. lia. }
  intros i2 s6 Hi2 X6 F6. wp_step.
  assert (bp <> i2) as Hne by (intros ->; simpl in Hi2; by rewrite lookup_insert_eq in Hi2).
  eapply x_brelse; [exact X6| | |].
  { simpl. rewrite lookup_delete_ne, lookup_insert_ne by done. apply bread_at. }
  { unfold dread, disk_read. simpl. rewrite lookup_insert_ne by (intros [=]; lia). rewrite lookup_insert_eq. simpl.
    rewrite fn_lookup_insert, fn_lookup_insert_ne by (intros [=]; lia). by rewrite fn_lookup_insert. }
  intros s7 X7 F7. wp_step. split; [done|]. eexists. split; [exact X7| | | |].
  - do 6 (etrans; [eassumption|]). done.
  - simpl. rewrite (delete_insert_id _ i2) by (simpl in Hi2; done). rewrite delete_insert_id; [done|by rewrite Hh].
  - intros k. done.
  - simpl. rewrite !fn_lookup_insert, <- app_assoc. done.
Qed.

(** ** An inode of the ext2 disk *)
Definition xframe (s s' : kstate) : Prop :=
  s' = set_k_icache (k_icache s') (set_k_ext2_addrs (k_ext2_addrs s')
    (set_k_bcache (k_bcache s') (set_k_disk (k_disk s') (set_k_writes (k_writes s') s)))).
Global Instance xframe_preorder : PreOrder xframe.
Proof.
  split; unfold xframe; [by intros []|].
  intros x y z H1 H2. rewrite H2. simpl. rewrite H1. by destruct x.
Qed.
Lemma bio_xframe s s' : bio_frame s s' -> xframe s s'.
Proof. unfold bio_frame, xframe. intros ->. by destruct s. Qed.

Record xinode (exs : ext2_superblock) (gd : ext2_group_desc) (s : kstate) (c : cache) (i : nat) (ip : inode) (j : nat) (x : addrs) : Prop := {
  xi_xt : xt s c;
  xi_held : c_held c = ∅;
  xi_exs : k_exs s = exs;
  xi_group : exists g, xgroup exs (c_view c) (i_inum ip) g gd;
  xi_ip : k_icache s !! i = Some ip;
  xi_dev : i_dev ip = EXT2DEV;
  xi_addrs : i_addrs ip = AExt2 j;
  xi_x : k_ext2_addrs s !! j = Some x;
  xi_bitmap : xbitmap_ok exs gd (c_view c);
  xi_file : xfile_ok exs gd (c_view c) (a_addrs x)
}.

Lemma xt_ext s s' c : xt s c -> s' = set_k_icache (k_icache s') (set_k_ext2_addrs (k_ext2_addrs s') s) -> xt s' c.
Proof.
  intros [R Hd Hc Hr] E. split; [|intros b; eapply dd_ok_frame; [..|exact (Hd b)]; by rewrite E|done|done].
  rewrite E. pose proof (rep_wf _ _ R) as W. split; try apply R. split; try apply W.
  intros k y Hy. destruct (wf_buf _ W k y Hy). by split.
Qed.
Lemma xinode_next exs gd s c i ip j x s' c' ip' x' :
  xinode exs gd s c i ip j x -> xt s' c' -> c_held c' = ∅ -> k_exs s' = exs ->
  c_view c' (EXT2DEV, 1) = c_view c (EXT2DEV, 1) -> k_icache s' !! i = Some ip' -> i_dev ip' = i_dev ip -> i_inum ip' = i_inum ip ->
  i_addrs ip' = i_addrs ip -> k_ext2_addrs s' !! j = Some x' -> xbitmap_ok exs gd (c_view c') -> xfile_ok exs gd (c_view c') (a_addrs x') ->
  xinode exs gd s' c' i ip' j x'.
Proof.
  intros I X' Hh Ex HV Hip Hd Hi Ha Hx B F. split; try done; [|rewrite Hd; apply I|rewrite Ha; apply I].
  destruct (xi_group _ _ _ _ _ _ _ _ I) as [g [? ? ? ? ? ? ?]]. exists g. rewrite Hi. split; try done. by rewrite HV.
Qed.
Lemma xinode_peek exs gd s c i ip j x s' : xinode exs gd s c i ip j x -> xt s' c -> bio_frame s s' -> xinode exs gd s' c i ip j x.
Proof.
  intros I X F. eapply xinode_next; [exact I|done|apply I|rewrite F; apply I|done|rewrite F; apply I|done..|rewrite F; apply I|apply I|apply I].
Qed.

Lemma filter_pos {A} (P : A -> Prop) `{!forall x, Decision (P x)} l : (0 < length (filter P l))%nat -> exists x, x ∈ l /\ P x.
Proof.
  intros Hp. destruct (filter P l) as [|x xs] eqn:E; [simpl in Hp; lia|]. exists x.
  assert (x ∈ filter P l) as Hx by (rewrite E; left). by apply list_elem_of_filter in Hx as [? ?].
Qed.
Lemma clearbits_pos n d : (0 < clearbits n d)%nat -> exists z, 0 <= z < n /\ bit_set d z = false.
Proof. intros (z & Hr%elem_of_seqZ & Hc)%filter_pos. by exists z. Qed.
Lemma lowest_pos d n : n <= BPB -> (0 < clearbits n d)%nat -> exists z, lowest d = Some z /\ 0 <= z < n.
Proof.
  intros Hn (z & Hr & Hc)%clearbits_pos. destruct (lowest_clear d z ltac:(lia) Hc) as [y Hy]. exists y. split; [done|].
  destruct (lowest_Some _ _ Hy) as (Hy1 & _ & Hs). destruct (decide (z < y)); [|lia]. rewrite Hs in Hc by lia. done.
Qed.

Lemma ext2_addr_slot_hit s j x bn alloc :
  k_ext2_addrs s !! j = Some x -> 0 <= bn -> addr_at (a_addrs x) bn <> 0 ->
  ext2_addr_slot (AExt2 j) bn alloc s = Ret (addr_at (a_addrs x) bn) s.
Proof.
  intros Hx Hbn H0. unfold ext2_addr_slot, get_ext2_addrs. run_steps. rewrite Hx. cbn [unwrap]. run_steps.
  unfold addr_at in *. destruct (a_addrs x !! Z.to_nat bn) as [v|] eqn:E; [|done]. cbn [unwrap]. run_steps. simpl in H0 |- *.
  by destruct (Z.eqb_spec v 0).
Qed.

(** [ext2_bmap] of a direct block: the block there is, or a fresh one. *)
Lemma ext2_bmap_direct exs gd s c i ip j x bn V a off src tot :
  xinode exs gd s c i ip j x -> 0 <= bn < EXT2_NDIR_BLOCKS -> (0 < nfreex exs gd (c_view c))%nat ->
  xrel exs gd V a off src tot (c_view c) (a_addrs x) -> 0 <= off -> off + tot <= XMAX ->
  wp (ext2_bmap i bn) (fun b s' => exists c' a', b = addr_at a' bn /\ b <> 0 /\
    xinode exs gd s' c' i ip j (set_a_addrs a' x) /\ xrel exs gd V a off src tot (c_view c') a' /\
    (nfreex exs gd (c_view c) <= S (nfreex exs gd (c_view c')))%nat /\ xframe s s' /\ k_icache s' = k_icache s /\
    k_ext2_addrs s' = <[j := set_a_addrs a' x]> (k_ext2_addrs s)) s.
Proof.
  intros I Hbn Hf R Ho Hmx. unfold ext2_bmap. eapply wp_run; [apply getip_Some, I|]. cbv zeta.
  destruct (Z.ltb_spec bn EXT2_NDIR_BLOCKS); [|lia]. rewrite (xi_addrs _ _ _ _ _ _ _ _ I), (xi_dev _ _ _ _ _ _ _ _ I).
  assert (set_a_addrs (a_addrs x) x = x) as Ex by (by destruct x). pose proof (xi_x _ _ _ _ _ _ _ _ I) as Hx.
  destruct (decide (addr_at (a_addrs x) bn = 0)) as [H0|H0].
  2:{ unfold wp. rewrite (ext2_addr_slot_hit s j x) by (done || lia). exists c, (a_addrs x). rewrite Ex.
      split; [done|]. split; [done|]. split; [done|]. split; [done|]. split; [lia|]. split; [done|]. split; [done|]. by rewrite list_insert_id. }
  unfold ext2_addr_slot, get_ext2_addrs. do 3 wp_step. rewrite Hx. cbn [unwrap]. wp_steps.
  pose proof (xi_file _ _ _ _ _ _ _ _ I) as F. pose proof (xi_bitmap _ _ _ _ _ _ _ _ I) as B. pose proof (xi_xt _ _ _ _ _ _ _ _ I) as X.
  assert (a_addrs x !! Z.to_nat bn = Some 0) as Hat.
  { destruct (lookup_lt_is_Some_2 (a_addrs x) (Z.to_nat bn)) as [v Hv].
    - rewrite (xo_len _ _ _ _ F). change EXT2_N_BLOCKS with 15. lia.
    - unfold addr_at in H0. rewrite Hv in H0 |- *. simpl in H0. by subst v. }
  rewrite Hat. cbn [unwrap]. wp_steps. cbn [Z.eqb]. destruct (lowest_pos _ (xbits exs gd) ltac:(unfold xbits; lia) Hf) as (z & Hz & Hr).
  destruct (lowest_Some _ _ Hz) as (_ & Hc & _).
  pose proof (B z Hr Hc) as D. destruct (xdata_not_meta _ _ _ D) as (Hz0 & _ & Hzb). destruct (xi_group _ _ _ _ _ _ _ _ I) as [g G].
  wp_step. eapply wp_mono; [eapply ext2_balloc_spec; [exact X|apply I|apply I|exact G|exact Hz|lia|apply D]|].
  intros b s1 (-> & c1 & N). pose proof (xn_frame _ _ _ _ _ N) as F1. wp_step. unfold upd_ext2_addrs. wp_step. wp_step. wp_step.
  rewrite F1. cbn [k_ext2_addrs set_k_bcache set_k_disk set_k_writes]. rewrite Hx. cbn [unwrap]. wp_steps. rewrite <- F1.
  pose proof (xn_view _ _ _ _ _ N) as HV. pose proof (xn_xt _ _ _ _ _ N) as X1.
  destruct (xrel_alloc exs gd V a off src tot (c_view c) (a_addrs x) (c_view c1) bn z R Ho Hmx Hbn H0 ltac:(by eapply x_length) Hr Hc HV) as [R1 Hf1].
  exists c1, (<[Z.to_nat bn := bg_block_bitmap gd + z]> (a_addrs x)).
  assert (k_ext2_addrs s1 = k_ext2_addrs s) as Ee by (by rewrite F1). assert (k_icache s1 = k_icache s) as Ei by (by rewrite F1).
  split; [|split; [done|split; [|split; [done|split; [lia|split; [|split; [done|by rewrite Ee]]]]]]].
  - by unfold addr_at; rewrite list_lookup_insert_eq by (by eapply lookup_lt_Some).
  - assert (1 <> bg_block_bitmap gd) as Hb1 by (pose proof (xg_bm _ _ _ _ _ G); lia).
    eapply xinode_next; [exact I|by eapply xt_ext|rewrite (xn_held _ _ _ _ _ N); apply I|simpl; rewrite F1; apply I| | |done..| |apply R1|apply R1].
    + rewrite HV. unfold xws. simpl. rewrite !fn_lookup_insert_ne; [done|congruence|]. intros [= E]. destruct (xdata_not_meta _ _ _ D). lia.
    + simpl. rewrite Ei. apply I.
    + simpl. rewrite Ee, list_lookup_insert_eq; [done|]. by eapply lookup_lt_Some.
  - etrans; [by apply bio_xframe|]. by destruct s1.
Qed.

(** Storing a piece of the source into a block. *)
Lemma x_write_block s c b src tot m o {A} (k : M kstate A) (Q : A -> kstate -> Prop) :
  xt s c -> c_held c = ∅ -> 0 <= tot -> 0 <= m -> tot + m <= Z.of_nat (length src) -> 0 <= o -> o + m <= BSIZE ->
  (forall s' c', xnext s c [(b, splice (c_view c (EXT2DEV, b)) (Z.to_nat o) (slice src (Z.to_nat tot) (Z.to_nat m)))] s' c' -> wp k Q s') ->
  wp (bp ← bread EXT2DEV b; d ← bdata bp; bs ← load src tot m;
      bput bp (splice d (Z.to_nat o) bs) ;; bwrite bp ;; brelse bp ;; k) Q s.
Proof.
  intros X Hh Ht Hm Hs Ho Hom HQ. wp_step.
  eapply x_bread; [exact X|by intros j; apply not_held_empty|rewrite Hh, map_size_empty; lia|]. intros i s1 Hi X1 F1 _. wp_step.
  eapply x_bdata; [exact X1|apply bread_at|].
  assert (load src tot m s1 = Ret (slice src (Z.to_nat tot) (Z.to_nat m)) s1) as L.
  { unfold load. destruct (Z.leb_spec 0 tot), (Z.leb_spec (tot + m) (Z.of_nat (length src))); done || lia. }
  eapply wp_run; [exact L|]. wp_step. eapply x_bput; [exact X1|apply bread_at| |].
  { rewrite length_splice; [by eapply x_length|]. rewrite length_slice by lia. simpl. rewrite (x_length s c) by done. klia. }
  intros s2 X2 F2. wp_step. eapply x_bwrite; [exact X2|apply bread_at|]. intros s3 X3 F3. wp_step.
  eapply x_brelse; [exact X3|apply bread_at|apply put_synced|]. intros s4 X4 F4.
  eapply HQ. split; [exact X4|do 3 (etrans; [eassumption|]); done|simpl; by rewrite delete_insert_id|done|].
  simpl. by rewrite fn_lookup_insert.
Qed.

(** ** [ext2_iupdate]

    Block and offset of inode [inum] in the inode table of its group. *)
Definition xplace (exs : ext2_superblock) (gd : ext2_group_desc) (inum : Z) : Z * Z :=
  let io := u32 (inum - 1) mod s_inodes_per_group exs in
  let per := BSIZE / s_inode_size exs in
  (bg_inode_table gd + io / per, io mod per * s_inode_size exs).
Record xplaced (exs : ext2_superblock) (gd : ext2_group_desc) (inum : Z) : Prop := {
  xp_ipg : 0 < s_inodes_per_group exs <= 2 ^ 31;
  xp_isz : sizeof_ext2_inode <= s_inode_size exs <= BSIZE;
  xp_blk : 1 < (xplace exs gd inum).1 < s_blocks_count exs;
  xp_count : s_blocks_count exs <= 2 ^ 26;
  xp_tab : 0 <= bg_inode_table gd
}.
(** The inode on the disk. *)
Definition xinode_at (exs : ext2_superblock) (gd : ext2_group_desc) (V : blk -> list Z) (inum : Z) : ext2_inode :=
  dec_ext2_inode (slice (V (EXT2DEV, (xplace exs gd inum).1)) (Z.to_nat (xplace exs gd inum).2) (Z.to_nat sizeof_ext2_inode)).

Lemma xplace_fits exs gd inum : xplaced exs gd inum -> 0 <= (xplace exs gd inum).2 /\ (xplace exs gd inum).2 + sizeof_ext2_inode <= BSIZE.
Proof.
  intros P. pose proof (xp_isz _ _ _ P) as Hi. change sizeof_ext2_inode with 128 in *. unfold xplace. simpl.
  set (sz := s_inode_size exs) in *. set (io := _ mod s_inodes_per_group exs).
  assert (0 < BSIZE / sz) as Hp by (apply Z.div_str_pos; lia). pose proof (Z.mod_pos_bound io (BSIZE / sz) Hp) as Hm.
  pose proof (Z.mul_div_le BSIZE sz ltac:(lia)). split; [nia|]. nia.
Qed.
Lemma xplace_meta exs gd inum : xplaced exs gd inum -> xmeta exs gd (xplace exs gd inum).1.
Proof.
  intros P. pose proof (xp_ipg _ _ _ P). do 4 right. exists (u32 (inum - 1) mod s_inodes_per_group exs). split; [|done]. apply Z.mod_pos_bound. lia.
Qed.
Lemma inode_place_run exs gd inum s : xplaced exs gd inum ->
  inode_place gd exs (s32 (u32 (inum - 1) mod s_inodes_per_group exs)) s = Ret (xplace exs gd inum) s.
Proof.
  intros P. pose proof (xplace_fits _ _ _ P) as [F1 F2]. pose proof (xp_isz _ _ _ P) as Hi. pose proof (xp_ipg _ _ _ P) as Hg.
  pose proof (xp_blk _ _ _ P) as Hb. pose proof (xp_count _ _ _ P) as Hct. change sizeof_ext2_inode with 128 in *. unfold xplace in *. cbn [fst snd] in *.
  pose proof (Z.mod_pos_bound (u32 (inum - 1)) (s_inodes_per_group exs) ltac:(lia)) as Hio.
  set (sz := s_inode_size exs) in *. set (io := _ mod s_inodes_per_group exs) in *.
  assert (0 < BSIZE / sz) as Hp by (apply Z.div_str_pos; lia).
  unfold inode_place, idiv, irem. fold sz. destruct (Z.eqb_spec sz 0); [lia|]. rewrite Z.quot_div_nonneg by klia. run_steps.
  rewrite s32_small by lia. destruct (Z.eqb_spec (BSIZE / sz) 0); [lia|]. run_steps. rewrite Z.quot_div_nonneg, Z.rem_mod_nonneg by lia.
  rewrite !u32_small by klia. done.
Qed.

Lemma length_enc_ext2_inode e : length (ei_block e) = Z.to_nat EXT2_N_BLOCKS -> length (ei_osd2 e) = 12%nat ->
  length (enc_ext2_inode e) = Z.to_nat sizeof_ext2_inode.
Proof. intros H1 H2. unfold enc_ext2_inode. rewrite !length_app, !length_le_enc, length_enc_u32s, H1, H2. done. Qed.

(** Writing the block held in [bp] while [i1] holds block 1, and releasing
    both. *)
Lemma x_put_two s c i1 bp b d (Q : unit -> kstate -> Prop) :
  xt s (a_bread bp (EXT2DEV, b) (a_bread i1 (EXT2DEV, 1) c)) -> c_held c = ∅ -> bp <> i1 -> b <> 1 ->
  length d = Z.to_nat BSIZE -> dread (c_disk c) (EXT2DEV, 1) = c_view c (EXT2DEV, 1) ->
  (forall s' c', xnext s c [(b, d)] s' c' -> Q tt s') ->
  wp (bput bp d ;; bwrite bp ;; brelse i1 ;; brelse bp) Q s.
Proof.
  intros X Hh Hne Hb1 Hd Hd1 HQ. wp_step. eapply x_bput; [exact X|apply bread_at|done|].
  intros s3 X3 F3. wp_step. eapply x_bwrite; [exact X3|apply bread_at|]. intros s4 X4 F4. wp_step.
  eapply x_brelse; [exact X4|simpl; rewrite lookup_insert_ne by done; apply bread_at| |].
  { unfold dread, disk_read. simpl. rewrite lookup_insert_ne, fn_lookup_insert_ne by congruence. exact Hd1. }
  intros s5 X5 F5. eapply x_brelse; [exact X5| |apply (put_synced bp)|].
  { simpl. rewrite lookup_delete_ne by congruence. apply lookup_insert_eq. }
  intros s6 X6 F6. eapply HQ. split; [exact X6|do 3 (etrans; [eassumption|]); done| |done|].
  - simpl. rewrite delete_insert_ne by done. rewrite Hh, insert_empty, delete_singleton_eq, insert_empty. apply delete_singleton_eq.
  - simpl. by rewrite fn_lookup_insert.
Qed.

Lemma ext2_iupdate_spec exs gd s c i ip j x :
  xinode exs gd s c i ip j x -> xplaced exs gd (i_inum ip) ->
  let pl := xplace exs gd (i_inum ip) in
  wp (ext2_iupdate i) (fun _ s' => exists c',
    xnext s c [(pl.1, splice (c_view c (EXT2DEV, pl.1)) (Z.to_nat pl.2)
      (enc_ext2_inode (ext2_fill ip (a_addrs x) (xinode_at exs gd (c_view c) (i_inum ip)))))] s' c') s.
Proof.
  intros I P pl. destruct (xi_group _ _ _ _ _ _ _ _ I) as [g G]. pose proof (xi_held _ _ _ _ _ _ _ _ I) as Hh.
  pose proof (xi_xt _ _ _ _ _ _ _ _ I) as X. destruct (xplace_fits _ _ _ P) as [Hp1 Hp2]. fold pl in Hp1, Hp2.
  pose proof (xp_blk _ _ _ P) as Hb. fold pl in Hb. pose proof (x_length s c pl.1 X) as Hl.
  pose proof (fun s => inode_place_run _ _ _ s P) as Hrun. unfold xinode_at. fold pl in Hrun |- *. clearbody pl.
  unfold ext2_iupdate. eapply wp_run; [apply getip_Some, I|]. do 2 wp_step. rewrite (xi_exs _ _ _ _ _ _ _ _ I), (xi_dev _ _ _ _ _ _ _ _ I).
  eapply wp_run; [by eapply GN_run|]. eapply wp_run.
  { unfold IO, umod. destruct (Z.eqb_spec (s_inodes_per_group exs) 0); [by destruct (xg_ipg _ _ _ _ _ G)|done]. }
  wp_step. eapply x_bread; [exact X|by intros k; apply not_held_empty|rewrite Hh, map_size_empty; lia|]. intros i1 s1 Hi1 X1 F1 Hd1.
  wp_step. eapply x_bdata; [exact X1|apply bread_at|]. eapply wp_run; [eapply load_gd_run; [exact G|by eapply x_length]|].
  eapply wp_run; [apply Hrun|]. wp_step.
  eapply x_bread; [exact X1| |simpl; rewrite Hh, insert_empty, map_size_singleton; lia|].
  { intros k. simpl. rewrite Hh, insert_empty. intros [_ E]%lookup_singleton_Some. apply (f_equal snd) in E. cbn [snd] in E. lia. }
  intros bp s2 Hbp X2 F2 Hd2. wp_step. eapply x_bdata; [exact X2|apply bread_at|].
  eapply wp_run.
  { unfold load. cbn [a_bread c_view]. rewrite Hl. destruct (Z.leb_spec 0 pl.2), (Z.leb_spec (pl.2 + sizeof_ext2_inode) (Z.of_nat (Z.to_nat BSIZE))); (done || (change sizeof_ext2_inode with 128 in *; klia)). }
  assert (k_ext2_addrs s2 = k_ext2_addrs s) as Ea by (rewrite F2; cbn [k_ext2_addrs set_k_bcache set_k_disk set_k_writes]; by rewrite F1).
  eapply wp_run.
  { unfold get_ext2_addrs. rewrite (xi_addrs _ _ _ _ _ _ _ _ I). run_steps. rewrite Ea, (xi_x _ _ _ _ _ _ _ _ I). cbn [unwrap]. by run_steps. }
  set (e := ext2_fill _ _ _). assert (length (enc_ext2_inode e) = Z.to_nat sizeof_ext2_inode) as He.
  { apply length_enc_ext2_inode; [apply (xo_len _ _ _ _ (xi_file _ _ _ _ _ _ _ _ I))|]. simpl.
    assert (length (slice (c_view c (EXT2DEV, pl.1)) (Z.to_nat pl.2) (Z.to_nat sizeof_ext2_inode)) = 128%nat) as E
      by (apply length_slice; rewrite Hl; change sizeof_ext2_inode with 128 in *; klia).
    apply length_slice. rewrite E. lia. }
  eapply wp_run.
  { unfold store. cbn [a_bread c_view]. rewrite Hl, He.
    destruct (Z.leb_spec 0 pl.2), (Z.leb_spec (pl.2 + Z.of_nat (Z.to_nat sizeof_ext2_inode)) (Z.of_nat (Z.to_nat BSIZE))); (done || (change sizeof_ext2_inode with 128 in *; klia)). }
  assert (bp <> i1) as Hne by (intros ->; simpl in Hbp; by rewrite lookup_insert_eq in Hbp).
  eapply x_put_two; [exact X2|done|done|lia| |exact Hd1|].
  { rewrite length_splice; [by eapply x_length|rewrite He; cbn [a_bread c_view]; rewrite Hl; change sizeof_ext2_inode with 128 in *; klia]. }
  intros s3 c3 [? F3 ? ? ?]. exists c3. split; try done. etrans; [exact F1|]. by etrans.
Qed.

(** ** [ext2_writei] *)
Section xwrite.
Context (exs : ext2_superblock) (gd : ext2_group_desc) (s0 : kstate) (c0 : cache) (i : nat) (ip : inode) (j : nat) (x : addrs).
Context (off : Z) (src : list Z) (n : Z).
Context (I0 : xinode exs gd s0 c0 i ip j x) (Hoff : 0 <= off) (Hn : 0 <= n) (Hmax : off + n <= XMAX) (Hsrc : n <= Z.of_nat (length src)).
Context (Hfree : (length (touched off n) <= nfreex exs gd (c_view c0))%nat).

Record xw (tot : Z) (s : kstate) (c : cache) (a : list Z) : Prop := {
  xw_i : xinode exs gd s c i ip j (set_a_addrs a x);
  xw_frame : xframe s0 s;
  xw_ic : k_icache s = k_icache s0;
  xw_ea : k_ext2_addrs s = <[j := set_a_addrs a x]> (k_ext2_addrs s0);
  xw_rel : xrel exs gd (c_view c0) (a_addrs x) off src tot (c_view c) a;
  xw_free : (nfreex exs gd (c_view c0) <= nfreex exs gd (c_view c) + length (touched off tot))%nat;
  xw_align : tot = 0 \/ (off + tot) mod BSIZE = 0 \/ tot = n
}.

Lemma xw_init : xw 0 s0 c0 (a_addrs x).
Proof using All.
  assert (set_a_addrs (a_addrs x) x = x) as Ex by (by destruct x). split; [by rewrite Ex|done|done| | |lia|by left].
  - rewrite Ex, list_insert_id; [done|]. apply I0.
  - apply xrel_refl; apply I0.
Qed.

Lemma align_turn tot m : 0 <= tot -> m = Z.min (n - tot) (BSIZE - (off + tot) mod BSIZE) ->
  tot + m = 0 \/ (off + (tot + m)) mod BSIZE = 0 \/ tot + m = n.
Proof using All.
  intros Ht ->. destruct (Z.min_spec (n - tot) (BSIZE - (off + tot) mod BSIZE)) as [[_ ->]|[_ ->]]; [right; right; lia|]. right. left.
  pose proof (Z.div_mod (off + tot) BSIZE ltac:(klia)).
  replace (off + (tot + (BSIZE - (off + tot) mod BSIZE))) with (((off + tot) / BSIZE + 1) * BSIZE) by lia. apply Z.mod_mul. klia.
Qed.

Lemma xw_turn tot s c a s1 c1 a1 s2 c2 m b :
  xw tot s c a -> 0 <= tot < n -> m = Z.min (n - tot) (BSIZE - (off + tot) mod BSIZE) -> tot = 0 \/ (off + tot) mod BSIZE = 0 ->
  b = addr_at a1 ((off + tot) / BSIZE) -> b <> 0 -> xinode exs gd s1 c1 i ip j (set_a_addrs a1 (set_a_addrs a x)) ->
  xrel exs gd (c_view c0) (a_addrs x) off src tot (c_view c1) a1 -> (nfreex exs gd (c_view c) <= S (nfreex exs gd (c_view c1)))%nat ->
  xframe s s1 -> k_icache s1 = k_icache s -> k_ext2_addrs s1 = <[j := set_a_addrs a1 (set_a_addrs a x)]> (k_ext2_addrs s) ->
  xnext s1 c1 [(b, splice (c_view c1 (EXT2DEV, b)) (Z.to_nat ((off + tot) mod BSIZE)) (slice src (Z.to_nat tot) (Z.to_nat m)))] s2 c2 ->
  xw (tot + m) s2 c2 a1.
Proof using All.
  intros W Ht Em Hal -> Hb I1 R1 Hf Fr Ei Ee N. pose proof (Z.mod_pos_bound (off + tot) BSIZE ltac:(klia)) as Hmo.
  change (set_a_addrs a1 (set_a_addrs a x)) with (set_a_addrs a1 x) in *. pose proof (xn_frame _ _ _ _ _ N) as F2.
  assert (0 < m <= BSIZE - (off + tot) mod BSIZE) as Hm by lia. pose proof (xn_view _ _ _ _ _ N) as HV.
  destruct (xrel_store exs gd (c_view c0) (a_addrs x) off src tot (c_view c1) a1 (c_view c2) m R1) as [R2 Hf2]; try done; try lia.
  { eapply x_length, I1. }
  assert (k_ext2_addrs s2 = k_ext2_addrs s1) as Ee2 by (by rewrite F2). assert (k_icache s2 = k_icache s1) as Ei2 by (by rewrite F2).
  split; [|etrans; [apply W|etrans; [exact Fr|by apply bio_xframe]]|rewrite Ei2, Ei; apply W| |done| |apply align_turn; [lia|done]].
  - eapply xinode_next; [exact I1|apply N|rewrite (xn_held _ _ _ _ _ N); apply I1|rewrite F2; apply I1| |rewrite Ei2; apply I1|done..
      |rewrite Ee2; apply I1|apply R2|apply R2].
    assert (1 <> bg_block_bitmap gd) as Hb1 by (destruct (xi_group _ _ _ _ _ _ _ _ I0) as [g G]; pose proof (xg_bm _ _ _ _ _ G); lia).
    assert (xmeta exs gd 1) as M1 by (right; by left).
    by rewrite (xl_meta _ _ _ _ _ _ _ _ _ R2), (xl_meta _ _ _ _ _ _ _ _ _ R1).
  - by rewrite Ee2, Ee, (xw_ea _ _ _ _ W), list_insert_insert_eq.
  - rewrite touched_turn by (done || lia). pose proof (xw_free _ _ _ _ W). lia.
Qed.

Lemma xwrite_loop fuel : forall tot s c a, xw tot s c a -> 0 <= tot <= n -> (Z.to_nat (n - tot) < fuel)%nat ->
  wp (writei_loop ext2_bmap bwrite fuel i src n tot (off + tot)) (fun o s' => o = off + n /\ exists c' a', xw n s' c' a') s.
Proof using All.
  induction fuel as [|fuel IH]; intros tot s c a W Ht Hf; [lia|]. cbn [writei_loop].
  destruct (Z.ltb_spec tot n) as [Hlt|Hge].
  2:{ wp_step. replace tot with n in * by lia. split; [done|]. by exists c, a. }
  pose proof (xw_i _ _ _ _ W) as I. eapply wp_run; [apply getip_Some, I|]. rewrite (xi_dev _ _ _ _ _ _ _ _ I).
  pose proof (Z.mod_pos_bound (off + tot) BSIZE ltac:(klia)) as Hmo.
  assert (0 <= (off + tot) / BSIZE < EXT2_NDIR_BLOCKS) as Hbn.
  { split; [apply Z.div_pos; klia|]. apply Z.div_lt_upper_bound; unfold XMAX in *; klia. }
  set (m := Z.min (n - tot) (BSIZE - (off + tot) mod BSIZE)).
  assert (length (touched off (tot + m)) <= length (touched off n))%nat as Hlen by (apply touched_mono; lia).
  assert (tot = 0 \/ (off + tot) mod BSIZE = 0) as Hal by (destruct (xw_align _ _ _ _ W) as [?|[?|?]]; auto; lia).
  rewrite touched_turn in Hlen by (done || lia). pose proof (xw_free _ _ _ _ W) as Hfr.
  wp_call (ext2_bmap_direct exs gd s c i ip j (set_a_addrs a x) ((off + tot) / BSIZE) _ _ _ _ _ I Hbn ltac:(lia) (xw_rel _ _ _ _ W)); [lia|lia|].
  intros b s1 (c1 & a1 & Eb & Hb & I1 & R1 & Hf1 & Fr1 & Ei1 & Ee1).
  pose proof (xo_own _ _ _ _ (xl_file _ _ _ _ _ _ _ _ _ R1) _ Hbn ltac:(congruence)) as (D & _ & _).
  eapply x_write_block; [apply I1|apply I1|lia|lia|lia|lia|lia|].
  intros s2 c2 N2. replace (off + tot + m) with (off + (tot + m)) by lia. apply (IH _ s2 c2 a1); [|lia|lia].
  eapply xw_turn; done || lia.
Qed.

(** *** The result of a write *)
Record xwritten (s : kstate) (c : cache) (a : list Z) : Prop := {
  xv_i : xinode exs gd s c i (grown ip off n) j (set_a_addrs a x);
  xv_frame : xframe s0 s;
  xv_ic : k_icache s = <[i := grown ip off n]> (k_icache s0);
  xv_ea : k_ext2_addrs s = <[j := set_a_addrs a x]> (k_ext2_addrs s0);
  xv_bytes : forall o, 0 <= o < XMAX ->
    xbyte (c_view c) a o = if (off <=? o) && (o <? off + n) then default 0 (src !! Z.to_nat (o - off)) else xbyte (c_view c0) (a_addrs x) o;
  xv_alloc : forall bn, bn ∈ touched off n -> addr_at a bn <> 0;
  xv_keep : forall bn, 0 <= bn < EXT2_NDIR_BLOCKS -> addr_at (a_addrs x) bn <> 0 -> addr_at a bn = addr_at (a_addrs x) bn;
  xv_other : forall b, xowned exs gd (c_view c0) b -> ~ xin (a_addrs x) b ->
    xowned exs gd (c_view c) b /\ ~ xin a b /\ c_view c (EXT2DEV, b) = c_view c0 (EXT2DEV, b);
  xv_meta : forall b, xmeta exs gd b -> b <> bg_block_bitmap gd -> b <> (xplace exs gd (i_inum ip)).1 ->
    c_view c (EXT2DEV, b) = c_view c0 (EXT2DEV, b);
  xv_dev : forall k, k.1 <> EXT2DEV -> c_view c k = c_view c0 k;
  xv_inode : let pl := xplace exs gd (i_inum ip) in c_view c (EXT2DEV, pl.1) =
    if extends ip off n
    then splice (c_view c0 (EXT2DEV, pl.1)) (Z.to_nat pl.2) (enc_ext2_inode (ext2_fill (grown ip off n) a (xinode_at exs gd (c_view c0) (i_inum ip))))
    else c_view c0 (EXT2DEV, pl.1);
  xv_disk : forall b, dread (k_disk s) (EXT2DEV, b) = c_view c (EXT2DEV, b)
}.
Context (P : xplaced exs gd (i_inum ip)) (Hpb : (xplace exs gd (i_inum ip)).1 <> bg_block_bitmap gd).

Lemma xwritten_same s c a : xw n s c a -> extends ip off n = false -> xwritten s c a.
Proof using All.
  intros W E. assert (grown ip off n = ip) as Eg by (unfold grown; by rewrite E). pose proof (xw_rel _ _ _ _ W) as R. pose proof (xw_i _ _ _ _ W) as I.
  split; try rewrite Eg; try apply W; try apply R.
  - rewrite (xw_ic _ _ _ _ W), list_insert_id; [done|]. apply I0.
  - intros b Hb Hm _. by apply (xl_meta _ _ _ _ _ _ _ _ _ R).
  - rewrite E. apply (xl_meta _ _ _ _ _ _ _ _ _ R); [by apply xplace_meta|done].
  - intros b. eapply x_synced; apply I.
Qed.

Lemma xwritten_grown s c a s' c' :
  xw n s c a -> extends ip off n = true ->
  let pl := xplace exs gd (i_inum ip) in
  xnext (set_k_icache (<[i := grown ip off n]> (k_icache s)) s) c
    [(pl.1, splice (c_view c (EXT2DEV, pl.1)) (Z.to_nat pl.2) (enc_ext2_inode (ext2_fill (grown ip off n) a (xinode_at exs gd (c_view c) (i_inum ip)))))] s' c' ->
  xwritten s' c' a.
Proof using All.
  intros W E pl N. pose proof (xw_rel _ _ _ _ W) as R. pose proof (xw_i _ _ _ _ W) as I. pose proof (xplace_meta _ _ _ P) as Mp. fold pl in Mp.
  pose proof (xn_frame _ _ _ _ _ N) as Fr. pose proof (xn_view _ _ _ _ _ N) as HV.
  assert (c_view c (EXT2DEV, pl.1) = c_view c0 (EXT2DEV, pl.1)) as Ep by (by apply (xl_meta _ _ _ _ _ _ _ _ _ R)).
  assert (xinode_at exs gd (c_view c) (i_inum ip) = xinode_at exs gd (c_view c0) (i_inum ip)) as Ei by (unfold xinode_at; fold pl; by rewrite Ep).
  assert (forall b, b <> pl.1 -> c_view c' (EXT2DEV, b) = c_view c (EXT2DEV, b)) as Hne.
  { intros b Hb. rewrite HV. unfold xws. unfold replayf. cbn [fmap list_fmap foldl fst snd]. rewrite fn_lookup_insert_ne; [done|]. intros Eq. apply Hb.
    apply (f_equal snd) in Eq. by cbn [snd] in Eq. }
  assert (forall b, xdata exs gd b -> b <> pl.1) as Hd by (by intros b [_ Hb] ->).
  assert (k_ext2_addrs s' = k_ext2_addrs s) as Ee by (rewrite Fr; done).
  assert (k_icache s' = <[i := grown ip off n]> (k_icache s)) as Ec by (rewrite Fr; done).
  assert (1 <> pl.1) as H1 by (pose proof (xp_blk _ _ _ P) as Hb; fold pl in Hb; lia).
  assert (c_view c' (EXT2DEV, bg_block_bitmap gd) = c_view c (EXT2DEV, bg_block_bitmap gd)) as Ebm by (apply Hne; exact (not_eq_sym Hpb)).
  assert (forall b, xowned exs gd (c_view c') b <-> xowned exs gd (c_view c) b) as Hown by (intros b; unfold xowned, xbit; by rewrite Ebm).
  assert (xinode exs gd s' c' i (grown ip off n) j (set_a_addrs a x)) as I'.
  { assert (grown ip off n = set_i_size (off + n) ip) as Eg by (unfold grown; by rewrite E). destruct (xi_file _ _ _ _ _ _ _ _ I) as [L1 L2 L3].
    eapply xinode_next; [exact I|apply N|rewrite (xn_held _ _ _ _ _ N); apply I|rewrite Fr; apply I|by apply Hne| |by rewrite Eg..| | |].
    - rewrite Ec, list_lookup_insert_eq; [done|]. eapply lookup_lt_Some, I.
    - rewrite Ee. apply I.
    - intros z. rewrite Ebm. apply I.
    - split; [done| |done]. intros bn Hb H0. apply Hown. by apply L2. }
  split; [exact I'|etrans; [apply W|]; etrans; [|by apply bio_xframe]; by destruct s|by rewrite Ec, (xw_ic _ _ _ _ W)|rewrite Ee; apply W| | | | | | | |].
  - intros o Ho. rewrite <- (xl_bytes _ _ _ _ _ _ _ _ _ R o Ho). unfold xbyte. destruct (Z.eqb_spec (addr_at a (o / BSIZE)) 0); [done|].
    rewrite Hne; [done|]. apply Hd. apply (xo_own _ _ _ _ (xl_file _ _ _ _ _ _ _ _ _ R)); [|done].
    split; [apply Z.div_pos; klia|]. apply Z.div_lt_upper_bound; unfold XMAX in *; klia.
  - apply R.
  - apply R.
  - intros b Hb Hni. destruct (xl_other _ _ _ _ _ _ _ _ _ R b Hb Hni) as (O1 & O2 & O3). split; [by apply Hown|]. split; [done|].
    rewrite Hne; [done|]. apply Hd, Hb.
  - intros b Hm Hbm Hb. rewrite Hne by done. by apply (xl_meta _ _ _ _ _ _ _ _ _ R).
  - intros k Hk. rewrite <- (xl_dev _ _ _ _ _ _ _ _ _ R k Hk), HV. unfold xws, replayf. cbn [fmap list_fmap foldl fst snd].
    rewrite fn_lookup_insert_ne; [done|]. by intros <-.
  - cbv zeta. fold pl. rewrite E, <- Ep, <- Ei. rewrite HV. unfold xws, replayf. cbn [fmap list_fmap foldl fst snd]. apply fn_lookup_insert.
  - intros b. eapply x_synced; apply I'.
Qed.

Lemma ext2_writei_spec {DS : Devsw} :
  i_file_type ip = Some ext2fs -> i_type ip <> T_DEV -> off <= i_size ip ->
  wp (ext2_writei i src off n) (fun r s' => r = n /\ exists c' a', xwritten s' c' a') s0.
Proof using All.
  intros Hft Hty Hsz. unfold ext2_writei, writei_with. eapply wp_run; [apply getip_Some, I0|]. unfold XMAX in Hmax.
  destruct (Z.eqb_spec (i_type ip) T_DEV); [done|]. destruct (Z.ltb_spec (i_size ip) off); [lia|].
  rewrite u32_small by klia. destruct (Z.ltb_spec (off + n) off); [lia|]. cbn [orb].
  change (u32 (EXT2_MAXFILE * BSIZE)) with 537919488. destruct (Z.ltb_spec 537919488 (off + n)); [klia|].
  pose proof (xwrite_loop (S (Z.to_nat n)) 0 s0 c0 (a_addrs x)) as L. rewrite Z.add_0_r in L.
  wp_call L; [apply xw_init|lia|lia|]. intros o s1 [-> (c1 & a1 & W)].
  pose proof (xw_i _ _ _ _ W) as I1. eapply wp_run; [apply getip_Some, I1|].
  fold (extends ip off n). rewrite s32_small by klia. destruct (extends ip off n) eqn:E.
  2:{ do 2 wp_step. wp_step. split; [done|]. exists c1, a1. by apply xwritten_same. }
  assert (grown ip off n = set_i_size (off + n) ip) as Eg by (unfold grown; by rewrite E).
  wp_step. wp_step. unfold wp at 1. rewrite (updip_Some _ _ _ _ (xi_ip _ _ _ _ _ _ _ _ I1)). rewrite <- Eg.
  set (s1' := set_k_icache _ s1).
  assert (xinode exs gd s1' c1 i (grown ip off n) j (set_a_addrs a1 x)) as I1'.
  { eapply xinode_next; [exact I1|by eapply xt_ext; [apply I1|]; destruct s1|apply I1|apply I1|done| |by rewrite Eg..|apply I1|apply I1|apply I1].
    simpl. rewrite list_lookup_insert_eq; [done|]. eapply lookup_lt_Some, I1. }
  unfold iops_iupdate, iops. eapply wp_run; [apply getip_Some, I1'|].
  assert (i_file_type (grown ip off n) = Some ext2fs) as -> by (by rewrite Eg).
  assert (i_inum (grown ip off n) = i_inum ip) as En by (by rewrite Eg).
  eapply wp_mono; [eapply ext2_iupdate_spec; [exact I1'|by rewrite En]|]. intros _ s2 (c2 & N2). rewrite En in N2. wp_step.
  split; [done|]. exists c2, a1. by eapply xwritten_grown.
Qed.
End xwrite.

(** ** [ext2_readi] *)
Lemma xbytes_app V a off n m : xbytes V a off (n + m) = xbytes V a off n ++ xbytes V a (off + Z.of_nat n) m.
Proof.
  unfold xbytes. rewrite seq_app, fmap_app. f_equal. rewrite Nat.add_0_l. apply list_eq. intros k. rewrite !list_lookup_fmap.
  destruct (decide (k < m)%nat).
  - rewrite !lookup_seq_lt by done. simpl. do 2 f_equal. lia.
  - by rewrite !lookup_seq_ge by lia.
Qed.
Lemma xbytes_block V a off m :
  0 <= off -> addr_at a (off / BSIZE) <> 0 -> length (V (EXT2DEV, addr_at a (off / BSIZE))) = Z.to_nat BSIZE -> 0 <= m <= BSIZE - off mod BSIZE ->
  slice (V (EXT2DEV, addr_at a (off / BSIZE))) (Z.to_nat (off mod BSIZE)) (Z.to_nat m) = xbytes V a off (Z.to_nat m).
Proof.
  intros Ho H0 Hlen Hm. pose proof (Z.mod_pos_bound off BSIZE ltac:(klia)) as Hb. apply list_eq. intros k. unfold slice, xbytes. rewrite list_lookup_fmap.
  destruct (decide (k < Z.to_nat m)%nat) as [Hk|Hk].
  - rewrite lookup_take_lt, lookup_drop by done. rewrite lookup_seq_lt by done. simpl. unfold xbyte.
    destruct (block_split off (Z.of_nat k)) as [-> ->]; [lia..|]. destruct (Z.eqb_spec (addr_at a (off / BSIZE)) 0); [done|].
    replace (Z.to_nat (off mod BSIZE + Z.of_nat k)) with (Z.to_nat (off mod BSIZE) + k)%nat by lia.
    destruct (lookup_lt_is_Some_2 (V (EXT2DEV, addr_at a (off / BSIZE))) (Z.to_nat (off mod BSIZE) + k)) as [v Hv]; [klia|]. by rewrite Hv.
  - rewrite lookup_seq_ge by lia. apply lookup_ge_None. rewrite length_take. lia.
Qed.

Lemma xread_loop exs gd c i ip j x off n fuel : forall s tot,
  xinode exs gd s c i ip j x -> 0 <= off -> 0 <= tot <= n -> off + n <= XMAX ->
  (forall bn, bn ∈ touched off n -> addr_at (a_addrs x) bn <> 0) -> (Z.to_nat (n - tot) < fuel)%nat ->
  wp (readi_loop ext2_bmap fuel i n tot (off + tot) (xbytes (c_view c) (a_addrs x) off (Z.to_nat tot)))
     (fun bs s' => bs = xbytes (c_view c) (a_addrs x) off (Z.to_nat n) /\ xnext s c [] s' c) s.
Proof.
  induction fuel as [|fuel IH]; intros s tot I Ho Ht Hmax Hnh Hf; [lia|]. cbn [readi_loop]. pose proof (xi_xt _ _ _ _ _ _ _ _ I) as X.
  destruct (Z.ltb_spec tot n) as [Hlt|Hge]; [|wp_step; replace tot with n by lia; split; [done|by apply xnext_refl]].
  eapply wp_run; [apply getip_Some, I|]. rewrite (xi_dev _ _ _ _ _ _ _ _ I). set (o := off + tot) in *.
  assert (0 <= o / BSIZE < EXT2_NDIR_BLOCKS) as Hbn.
  { split; [apply Z.div_pos; klia|]. apply Z.div_lt_upper_bound; unfold XMAX in *; klia. }
  assert (addr_at (a_addrs x) (o / BSIZE) <> 0) as Hb by (apply Hnh, elem_of_touched; split; [lia|]; unfold o; apply div_range; lia).
  eapply wp_run.
  { unfold ext2_bmap. run (getip_Some _ _ _ (xi_ip _ _ _ _ _ _ _ _ I)). destruct (Z.ltb_spec (o / BSIZE) EXT2_NDIR_BLOCKS); [|lia].
    rewrite (xi_addrs _ _ _ _ _ _ _ _ I). apply ext2_addr_slot_hit; [apply I|lia|done]. }
  destruct (xo_own _ _ _ _ (xi_file _ _ _ _ _ _ _ _ I) _ Hbn Hb) as (D & _ & _). wp_step.
  eapply x_bread; [exact X|intros k; apply not_held_empty, I|rewrite (xi_held _ _ _ _ _ _ _ _ I), map_size_empty; lia|].
  intros bp s1 Hbp X1 F1 Hd. wp_step. eapply x_bdata; [exact X1|apply bread_at|]. cbv zeta. wp_step.
  eapply x_brelse; [exact X1|apply bread_at|exact Hd|]. rewrite brelse_bread by done. intros s2 X2 F2. cbn [a_bread c_view].
  assert (bio_frame s s2) as F by (etrans; [exact F1|exact F2]). pose proof (xinode_peek _ _ _ _ _ _ _ _ _ I X2 F) as I2.
  pose proof (Z.mod_pos_bound o BSIZE ltac:(klia)) as Hm. set (m := Z.min (n - tot) (BSIZE - o mod BSIZE)).
  rewrite xbytes_block by (try done; try lia; by eapply x_length). replace o with (off + Z.of_nat (Z.to_nat tot)) by lia.
  rewrite <- xbytes_app, <- Z2Nat.inj_add by lia. replace (off + Z.of_nat (Z.to_nat tot) + m) with (off + (tot + m)) by lia.
  eapply wp_mono; [apply IH; try done; lia|]. intros bs s3 [-> N3]. split; [done|].
  destruct N3. split; try done. by etrans.
Qed.

Lemma ext2_readi_spec {DS : Devsw} exs gd s c i ip j x off n :
  xinode exs gd s c i ip j x -> i_type ip <> T_DEV -> 0 <= off <= i_size ip -> 0 <= n -> off + n < 2 ^ 32 -> i_size ip <= XMAX ->
  (forall bn, bn ∈ touched off (clip ip off n) -> addr_at (a_addrs x) bn <> 0) ->
  wp (ext2_readi i off n) (fun r s' =>
    r = (clip ip off n, xbytes (c_view c) (a_addrs x) off (Z.to_nat (clip ip off n))) /\ xnext s c [] s' c) s.
Proof.
  intros I Ht Ho Hn Hw Hs Hnh. unfold ext2_readi, readi_with. eapply wp_run; [apply getip_Some, I|]. unfold XMAX in *.
  destruct (Z.eqb_spec (i_type ip) T_DEV); [done|].
  destruct (Z.ltb_spec (i_size ip) off); [lia|]. rewrite u32_small by lia. destruct (Z.ltb_spec (off + n) off); [lia|].
  cbn [orb]. cbv zeta. assert ((if i_size ip <? off + n then i_size ip - off else n) = clip ip off n) as E.
  { unfold clip. destruct (Z.ltb_spec (i_size ip) (off + n)); lia. }
  rewrite E. set (n' := clip ip off n) in *. assert (0 <= n' /\ off + n' <= 12 * BSIZE) by (unfold n', clip; lia).
  pose proof (xread_loop exs gd c i ip j x off n' (S (Z.to_nat n')) s 0 I) as L.
  rewrite Z.add_0_r in L. wp_call L; try done; try (unfold XMAX; lia). intros bs s' [-> N]. wp_step.
  split; [|done]. rewrite s32_small by klia. done.
Qed.

(** ** Theorems *)

(** C11: [ext2_writei] on a regular file or directory of the ext2 disk, in
    the range of the directly addressed blocks, stores the bytes of [src] at
    [off] and returns their number.  The other bytes of the file, every
    allocated block that is not of this file, the descriptors, the other
    blocks of the inode table and the blocks of the other disk are as before;
    blocks the file had stay where they were; when the file grows, the inode
    on the disk has the new size and addresses; and the disk itself has every
    block, since ext2 blocks are written through.  Conditions: the group has
    a clear bit for every block of the range, counting the bits [z] for which
    [bg_block_bitmap + z] is on the disk and not a block of the file system's
    tables ([xbitmap_ok], [nfreex]; this is how ext2fs.c numbers blocks, and
    it holds of the image the Makefile builds, whose last bits are outside
    the disk in this numbering), and a block counts as allocated when its
    bit, so numbered, is set.  An offset past the end, or a range that
    overflows or passes the (wrapped) limit, is rejected with -1 and nothing
    changes. *)
Theorem ext2_writei_correct {DS : Devsw} exs gd s c i ip j x off src n :
  xinode exs gd s c i ip j x -> i_file_type ip = Some ext2fs -> i_type ip <> T_DEV -> 0 <= off < 2 ^ 32 -> 0 <= n < 2 ^ 32 ->
  (off <= i_size ip -> off + n <= XMAX -> n <= Z.of_nat (length src) -> (length (touched off n) <= nfreex exs gd (c_view c))%nat ->
   xplaced exs gd (i_inum ip) -> (xplace exs gd (i_inum ip)).1 <> bg_block_bitmap gd ->
   wp (ext2_writei i src off n) (fun r s' => r = n /\ exists c' a', xwritten exs gd s c i ip j x off src n s' c' a') s) /\
  (i_size ip < off \/ 2 ^ 32 <= off + n \/ u32 (EXT2_MAXFILE * BSIZE) < off + n -> ext2_writei i src off n s = Ret (-1) s).
Proof.
  intros I Hft Ht Ho Hn. split.
  - intros Hs Hm Hl Hf P Hb. apply ext2_writei_spec; try done; lia.
  - intros Hor. unfold ext2_writei, writei_with. run (getip_Some _ _ _ (xi_ip _ _ _ _ _ _ _ _ I)).
    destruct (Z.eqb_spec (i_type ip) T_DEV); [done|].
    destruct (decide (i_size ip < off \/ 2 ^ 32 <= off + n)) as [H|H].
    + by rewrite (io_rejects s i ip off n (xi_ip _ _ _ _ _ _ _ _ I)).
    + rewrite u32_small by lia. destruct (Z.ltb_spec (i_size ip) off); [lia|]. destruct (Z.ltb_spec (off + n) off); [lia|]. cbn [orb].
      destruct (Z.ltb_spec (u32 (EXT2_MAXFILE * BSIZE)) (off + n)); [done|]. lia.
Qed.

(** What [ext2_writei] wrote to a file of the ext2 disk, [ext2_readi]
    reads back: a write of [n] bytes at [off] followed by a read of [n] bytes
    at [off] returns those bytes and their number. *)
Theorem ext2_writei_readi {DS : Devsw} exs gd s c i ip j x off src n :
  xinode exs gd s c i ip j x -> i_file_type ip = Some ext2fs -> i_type ip <> T_DEV ->
  0 <= off <= i_size ip -> 0 <= n <= Z.of_nat (length src) -> off + n <= XMAX -> i_size ip <= XMAX ->
  (length (touched off n) <= nfreex exs gd (c_view c))%nat -> xplaced exs gd (i_inum ip) -> (xplace exs gd (i_inum ip)).1 <> bg_block_bitmap gd ->
  wp (ext2_writei i src off n ;; ext2_readi i off n) (fun r _ => r = (n, take (Z.to_nat n) src)) s.
Proof.
  intros I Hft Ht Ho Hn Hm Hs Hf P Hb. wp_call (ext2_writei_spec exs gd s c i ip j x off src n I); try done; try lia.
  intros r s1 [-> (c1 & a1 & W)]. pose proof (xv_i _ _ _ _ _ _ _ _ _ _ _ _ _ _ W) as I1.
  assert (i_type (grown ip off n) = i_type ip) as Et by (unfold grown; by destruct (extends ip off n)).
  assert (off + n <= i_size (grown ip off n) <= XMAX \/ n = 0 /\ i_size (grown ip off n) = i_size ip) as Hsz.
  { unfold grown, extends. destruct (Z.ltb_spec 0 n), (Z.ltb_spec (i_size ip) (off + n)); simpl; lia. }
  assert (clip (grown ip off n) off n = n) as Ec by (unfold clip; lia).
  eapply wp_mono; [apply (ext2_readi_spec exs gd s1 c1 i (grown ip off n) j (set_a_addrs a1 x) off n I1); try lia|].
  - unfold XMAX in *. klia.
  - rewrite Ec. apply (xv_alloc _ _ _ _ _ _ _ _ _ _ _ _ _ _ W).
  - intros r s2 [-> _]. rewrite Ec. f_equal. apply list_eq. intros k. unfold xbytes. rewrite list_lookup_fmap.
    destruct (decide (k < Z.to_nat n)%nat) as [Hk|Hk].
    + rewrite lookup_seq_lt, lookup_take_lt by done. simpl. rewrite (xv_bytes _ _ _ _ _ _ _ _ _ _ _ _ _ _ W) by lia.
      destruct (Z.leb_spec off (off + Z.of_nat k)), (Z.ltb_spec (off + Z.of_nat k) (off + n)); try lia. cbn [andb].
      replace (Z.to_nat (off + Z.of_nat k - off)) with k by lia. destruct (lookup_lt_is_Some_2 src k ltac:(lia)) as [v Hv]. by rewrite Hv.
    + rewrite lookup_seq_ge, lookup_take_ge by lia. done.
Qed.
End ext2spec.
