(* ===== verification/Dir.v ===== *)
(** * Directories and path names (fs.c, ext2fs.c, sysfile.c)

  The directory operations of both file systems, the dispatch between them,
  and the translation of path names.  A path is the list of its characters,
  without the final NUL; a [name] buffer is the array of bytes it is, since a
  name of maximal length has no NUL. *)
From S2P Require Import Prelude Params Layout KState Driver Dll Bio Cache Log LogCrash CString FsBase FsAlloc Inode Ext2 Vfs.

Notation sizeof_ext2_dirent := 264 (only parsing).

(** What the stack holds where a function has not written yet: the [de] of
    [ext2_dirlink], the bytes that follow a directory entry on the stack, and
    the [name] of [namei]. *)
Class KStack := {
  stack_de : list Z;
  stack_after_de : list Z;
  stack_name : list Z
}.

(** The string literals. *)
Definition dot : list Z := [46; 0].
Definition dotdot : list Z := [46; 46; 0].
Definition mnt : list Z := [109; 110; 116; 0].

Definition namecmp (s t : list Z) : M kstate Z := unwrap (strncmp s t (Z.to_nat DIRSIZ)) "namecmp".
Definition ext2_namecmp (s t : list Z) : M kstate Z := unwrap (strncmp s t (Z.to_nat EXT2_NAME_LEN)) "ext2_namecmp".
Definition iops_namecmp (i : nat) (s t : list Z) : M kstate Z := iops i (namecmp s t) (ext2_namecmp s t).

Section dir.
Context {DD : DiskDriver} {DS : Devsw} {KS : KStack}.

(** [readi(dp, (char * )&de, off, sizeof(de)) != sizeof(de)] *)
Definition read_de (dp : nat) (off size : Z) (msg : string) : M kstate (list Z) :=
  r ← iops_readi dp off size;
  if r.1 =? size then mret r.2 else panic msg.
Definition write_de (dp : nat) (bs : list Z) (off size : Z) (msg : string) : M kstate unit :=
  r ← iops_writei dp bs off size;
  if r =? size then mret tt else panic msg.

(** ** Looking up a name: the inode and the offset of the entry *)
Fixpoint dirlookup_loop (fuel dp : nat) (name : list Z) (off : Z) : M kstate (option (nat * Z)) :=
  match fuel with
  | O => out_of_fuel
  | S fuel =>
      ip ← getip dp;
      if i_size ip <=? off then mret None else
      bs ← read_de dp off sizeof_dirent "dirlookup read";
      let de := dec_dirent bs in
      if de_inum de =? 0 then dirlookup_loop fuel dp name (u32 (off + sizeof_dirent)) else
      r ← iops_namecmp dp name (de_name de);
      if r =? 0 then
        ip ← getip dp;
        k ← iget (i_dev ip) (de_inum de);
        mret (Some (k, off))
      else dirlookup_loop fuel dp name (u32 (off + sizeof_dirent))
  end.
Definition dirlookup (dp : nat) (name : list Z) : M kstate (option (nat * Z)) :=
  ip ← getip dp;
  if negb (i_type ip =? T_DIR) then panic "dirlookup not DIR" else
  dirlookup_loop (S (Z.to_nat (i_size ip))) dp name 0.

(** [strncpy(fname, de.name, de.name_len); fname[de.name_len] = 0] *)
Definition fname_of (bs : list Z) : M kstate (list Z) :=
  f ← unwrap (strncpy (drop 8 bs) (Z.to_nat (rd 1 bs 6))) "strncpy";
  mret (f ++ [0]).

Fixpoint ext2_dirlookup_loop (fuel dp : nat) (name : list Z) (off : Z) : M kstate (option (nat * Z)) :=
  match fuel with
  | O => out_of_fuel
  | S fuel =>
      ip ← getip dp;
      if i_size ip <=? off then mret None else
      bs ← read_de dp off sizeof_ext2_dirent "dirlookup read";
      let de := dec_ext2_dir_entry_2 bs in
      if ed_inode de =? 0 then ext2_dirlookup_loop fuel dp name (u32 (off + ed_rec_len de)) else
      fname ← fname_of bs;
      r ← iops_namecmp dp name fname;
      if r =? 0 then
        ip ← getip dp;
        k ← ext2_iget (i_dev ip) (ed_inode de);
        mret (Some (k, off))
      else ext2_dirlookup_loop fuel dp name (u32 (off + ed_rec_len de))
  end.
Definition ext2_dirlookup (dp : nat) (name : list Z) : M kstate (option (nat * Z)) :=
  ip ← getip dp; ext2_dirlookup_loop (S (Z.to_nat (i_size ip))) dp name 0.

Definition iops_dirlookup (dp : nat) (name : list Z) : M kstate (option (nat * Z)) :=
  iops dp (dirlookup dp name) (ext2_dirlookup dp name).

(** ** Adding an entry *)

(** The offset of the first free entry, or the size. *)
Fixpoint dirlink_loop (fuel dp : nat) (off : Z) : M kstate Z :=
  match fuel with
  | O => out_of_fuel
  | S fuel =>
      ip ← getip dp;
      if i_size ip <=? u32 off then mret off else
      bs ← read_de dp (u32 off) sizeof_dirent "dirlink read";
      if de_inum (dec_dirent bs) =? 0 then mret off else dirlink_loop fuel dp (s32 (off + sizeof_dirent))
  end.

Definition dirlink (dp : nat) (name : list Z) (inum : Z) : M kstate Z :=
  r ← iops_dirlookup dp name;
  match r with
  | Some (ip, _) => iops dp (iput ip) (ext2_iput ip) ;; mret (-1)
  | None =>
      ip ← getip dp;
      off ← dirlink_loop (S (Z.to_nat (i_size ip))) dp 0;
      nm ← unwrap (strncpy name (Z.to_nat DIRSIZ)) "strncpy";
      write_de dp (enc_dirent (mk_dirent inum nm)) (u32 off) sizeof_dirent "dirlink" ;;
      mret 0
  end.

(** The loop of [ext2_dirlink]: the offset and the entry when it ends. *)
Fixpoint ext2_dirlink_loop (fuel dp : nat) (off : Z) (de : list Z) : M kstate (Z * list Z) :=
  match fuel with
  | O => out_of_fuel
  | S fuel =>
      ip ← getip dp;
      if i_size ip <=? u32 off then mret (off, de) else
      de ← read_de dp (u32 off) sizeof_ext2_dirent "ext2_dirlink read 1";
      let rec_len := rd 2 de 4 in
      if (sizeof_ext2_dirent <? rec_len) && (rec_len =? BSIZE - Z.rem off BSIZE) then
        let de := wr 2 de 4 (sizeof_ext2_dirent - EXT2_NAME_LEN + rd 1 de 6) in
        write_de dp de (u32 off) sizeof_ext2_dirent "ext2_dirlink write" ;;
        let off := s32 (off + rd 2 de 4) in
        de ← read_de dp (u32 off) sizeof_ext2_dirent "ext2_dirlink read 2";
        mret (off, de)
      else ext2_dirlink_loop fuel dp (s32 (off + rec_len)) de
  end.

(** [strncpy(de.name, name, EXT2_NAME_LEN); de.name_len = strlen(de.name);
    de.inode = inum; de.rec_len = rec_len] *)
Definition fill_de (de name : list Z) (inum rec_len : Z) : M kstate (list Z) :=
  nm ← unwrap (strncpy name (Z.to_nat EXT2_NAME_LEN)) "strncpy";
  let de := splice de 8 nm in
  len ← unwrap (strlen (drop 8 de ++ stack_after_de)) "strlen";
  mret (wr 2 (wr 4 (wr 1 de 6 (Z.of_nat len)) 0 inum) 4 rec_len).

Definition ext2_dirlink (dp : nat) (name : list Z) (inum : Z) : M kstate Z :=
  r ← iops_dirlookup dp name;
  match r with
  | Some (ip, _) => iops_iput ip ;; mret (-1)
  | None =>
      ip ← getip dp;
      r ← ext2_dirlink_loop (S (Z.to_nat (i_size ip))) dp 0 stack_de;
      let off := r.1 in
      ip ← getip dp;
      if u32 off =? i_size ip then
        de ← fill_de r.2 name inum BSIZE;
        updip dp (set_i_size (u32 (off + BSIZE))) ;;
        iops_iupdate dp ;;
        write_de dp de (u32 off) sizeof_ext2_dirent "ext2_dirlink write" ;;
        mret 0
      else
        let rec_len := u16 (BSIZE - Z.rem off BSIZE) in
        de ← fill_de r.2 name inum rec_len;
        updip dp (set_i_size (u32 (off + rec_len))) ;;
        iops_iupdate dp ;;
        write_de dp (de ++ stack_after_de) (u32 off) rec_len "dirlink" ;;
        mret 0
  end.

Definition iops_dirlink (dp : nat) (name : list Z) (inum : Z) : M kstate Z :=
  iops dp (dirlink dp name inum) (ext2_dirlink dp name inum).

(** ** Removing an entry *)
Fixpoint isdirempty_loop (fuel dp : nat) (off : Z) : M kstate bool :=
  match fuel with
  | O => out_of_fuel
  | S fuel =>
      ip ← getip dp;
      if i_size ip <=? u32 off then mret true else
      bs ← read_de dp (u32 off) sizeof_dirent "isdirempty: readi";
      if de_inum (dec_dirent bs) =? 0 then isdirempty_loop fuel dp (s32 (off + sizeof_dirent)) else mret false
  end.
Definition isdirempty (dp : nat) : M kstate bool :=
  ip ← getip dp; isdirempty_loop (S (Z.to_nat (i_size ip))) dp (2 * sizeof_dirent).

Fixpoint ext2_isdirempty_loop (fuel dp : nat) (off : Z) : M kstate bool :=
  match fuel with
  | O => out_of_fuel
  | S fuel =>
      ip ← getip dp;
      if i_size ip <=? u32 off then mret true else
      bs ← read_de dp (u32 off) sizeof_ext2_dirent "isdirempty: readi";
      let de := dec_ext2_dir_entry_2 bs in
      let off' := s32 (off + ed_rec_len de) in
      r1 ← namecmp dot (ed_name de);
      if r1 =? 0 then ext2_isdirempty_loop fuel dp off' else
      r2 ← namecmp dotdot (ed_name de);
      if r2 =? 0 then ext2_isdirempty_loop fuel dp off' else
      if negb (ed_inode de =? 0) then mret false else ext2_isdirempty_loop fuel dp off'
  end.
Definition ext2_isdirempty (dp : nat) : M kstate bool :=
  ip ← getip dp; ext2_isdirempty_loop (S (Z.to_nat (i_size ip))) dp 0.
Definition iops_isdirempty (dp : nat) : M kstate bool := iops dp (isdirempty dp) (ext2_isdirempty dp).

Definition fs_unlink (dp : nat) (off : Z) : M kstate unit :=
  write_de dp (replicate (Z.to_nat sizeof_dirent) 0) off sizeof_dirent "unlink: writei".

Definition ext2_unlink (dp : nat) (off : Z) : M kstate unit :=
  de1 ← read_de dp off sizeof_ext2_dirent "dirlookup read";
  let rec_len := rd 2 de1 4 in
  let de := wr 2 (replicate (Z.to_nat sizeof_ext2_dirent) 0) 4 rec_len in
  write_de dp (de ++ stack_after_de) off rec_len "unlink: writei".
Definition iops_unlink (dp : nat) (off : Z) : M kstate unit := iops dp (fs_unlink dp off) (ext2_unlink dp off).
Definition iops_ialloc (dp : nat) (dev type : Z) : M kstate nat := iops dp (ialloc dev type) (ext2_ialloc dev type).

(** ** Path names *)
Definition slash : Z := 47.
Fixpoint skip_slashes (path : list Z) : list Z :=
  match path with
  | c :: p => if c =? slash then skip_slashes p else path
  | [] => []
  end.
(** [while( *path != '/' && *path != 0) path++]: the element and the rest. *)
Fixpoint take_elem (path : list Z) : list Z * list Z :=
  match path with
  | c :: p => if c =? slash then ([], path) else let r := take_elem p in (c :: r.1, r.2)
  | [] => ([], [])
  end.

Definition dirlength (dev : Z) : Z := if dev =? ROOTDEV then DIRSIZ else EXT2_NAME_LEN.

(** The rest of the path and the new contents of [name]. *)
Definition skipelem (path name : list Z) (dev : Z) : option (list Z * list Z) :=
  let path := skip_slashes path in
  match path with
  | [] => None
  | _ =>
      let '(e, path) := take_elem path in
      let len := Z.of_nat (length e) in
      let name := if dirlength dev <=? len then splice name 0 (take (Z.to_nat (dirlength dev)) e)
                  else <[length e := 0]> (splice name 0 e) in
      Some (skip_slashes path, name)
  end.

Fixpoint namex_loop (fuel : nat) (ip : nat) (path : list Z) (nameiparent : bool) (name : list Z)
    : M kstate (option nat * list Z) :=
  match fuel with
  | O => out_of_fuel
  | S fuel =>
      x ← getip ip;
      match skipelem path name (i_dev x) with
      | None =>
          if nameiparent then iops_iput ip ;; mret (None, name) else mret (Some ip, name)
      | Some (path, name) =>
          iops_ilock ip ;;
          x ← getip ip;
          if negb (i_type x =? T_DIR) then iops_iunlockput ip ;; mret (None, name) else
          if nameiparent && bool_decide (path = []) then iops_iunlock ip ;; mret (Some ip, name) else
          r ← namecmp name mnt;
          if r =? 0 then
            iunlockput ip ;;
            ip ← iget EXT2DEV EXT2_ROOT_INO;
            namex_loop fuel ip path nameiparent name
          else
          next ← iops_dirlookup ip name;
          match next with
          | None => iops_iunlockput ip ;; mret (None, name)
          | Some (next, _) => iops_iunlockput ip ;; namex_loop fuel next path nameiparent name
          end
      end
  end.

Definition namex (path : list Z) (nameiparent : bool) (name : list Z) : M kstate (option nat * list Z) :=
  ip ← (match path with
        | c :: _ => if c =? slash then iget ROOTDEV ROOTINO else cwd ← gets k_cwd; idup cwd
        | [] => cwd ← gets k_cwd; idup cwd
        end);
  namex_loop (S (length path)) ip path nameiparent name.

Definition namei (path : list Z) : M kstate (option nat) :=
  r ← namex path false stack_name; mret r.1.
Definition nameiparent (path name : list Z) : M kstate (option nat * list Z) := namex path true name.
End dir.
