(* ===== verification/Paths.v ===== *)
(** * Path elements

  [skipelem] against a reference definition: the elements of a path are the
  non-empty pieces between its slashes. *)
From S2P Require Import Prelude Params Layout KState CString Dir.

(** The pieces between slashes, and the non-empty ones. *)
Fixpoint pieces (path : list Z) : list (list Z) :=
  match path with
  | [] => [[]]
  | c :: p =>
      if c =? slash then [] :: pieces p
      else match pieces p with h :: t => (c :: h) :: t | [] => [[c]] end
  end.
Definition elems (path : list Z) : list (list Z) := filter (fun e => e <> []) (pieces path).

Lemma pieces_nonempty path : pieces path <> [].
Proof. destruct path as [|c p]; simpl; [done|]. destruct (c =? slash); [done|]. by destruct (pieces p). Qed.

Lemma elems_slash p : elems (slash :: p) = elems p.
Proof. unfold elems. simpl. by rewrite filter_cons_False by (intros H; by apply H). Qed.

Lemma elems_skip p : elems (skip_slashes p) = elems p.
Proof.
  induction p as [|c p IH]; [done|]. cbn [skip_slashes]. destruct (Z.eqb_spec c slash) as [->|Hc]; [|done].
  by rewrite elems_slash.
Qed.

Lemma skip_head p c q : skip_slashes p = c :: q -> c <> slash.
Proof.
  induction p as [|d p IH]; [done|]. cbn [skip_slashes]. destruct (Z.eqb_spec d slash); [done|]. by intros [= <- <-].
Qed.

Lemma length_skip p : (length (skip_slashes p) <= length p)%nat.
Proof. induction p as [|c p IH]; [done|]. cbn [skip_slashes]. destruct (c =? slash); simpl in *; lia. Qed.

Lemma take_elem_app p : p = (take_elem p).1 ++ (take_elem p).2.
Proof.
  induction p as [|c p IH]; [done|]. cbn [take_elem]. destruct (Z.eqb_spec c slash); [done|]. simpl. by rewrite <- IH.
Qed.

(** The first piece is what [take_elem] returns. *)
Lemma pieces_take p : exists t, pieces p = (take_elem p).1 :: t /\
  filter (fun e => e <> []) t = elems (take_elem p).2.
Proof.
  induction p as [|c p IH]; [by exists []|]. cbn [take_elem pieces]. destruct (Z.eqb_spec c slash) as [->|Hc].
  - exists (pieces p). split; [done|]. cbn [snd]. by rewrite elems_slash.
  - destruct IH as (t & -> & Ht). exists t. done.
Qed.

Lemma elems_cons p c q : p = c :: q -> c <> slash -> elems p = (take_elem p).1 :: elems (take_elem p).2.
Proof.
  intros -> Hc. destruct (pieces_take (c :: q)) as (t & E & Ht). unfold elems at 1. rewrite E.
  rewrite filter_cons_True; [by rewrite Ht|]. cbn [take_elem]. destruct (Z.eqb_spec c slash); [done|]. done.
Qed.

Lemma elems_nil p : elems p = [] <-> skip_slashes p = [].
Proof.
  split; intros H.
  - destruct (skip_slashes p) as [|c q] eqn:E; [done|]. rewrite <- elems_skip, E in H.
    rewrite (elems_cons (c :: q) c q) in H; [done|done|by eapply skip_head].
  - by rewrite <- elems_skip, H.
Qed.

(** ** The name buffer *)
Lemma cstr_app_zero e r : 0 ∉ e -> cstr (e ++ 0 :: r) = e.
Proof.
  induction e as [|c e IH]; intros H; [done|]. apply not_elem_of_cons in H as [Hc H]. simpl.
  destruct (Z.eqb_spec c 0); [congruence|]. by rewrite IH.
Qed.
Lemma cstr_app e r : 0 ∉ e -> cstr (e ++ r) = e ++ cstr r.
Proof.
  induction e as [|c e IH]; intros H; [done|]. apply not_elem_of_cons in H as [Hc H]. simpl.
  destruct (Z.eqb_spec c 0); [congruence|]. by rewrite IH.
Qed.
Lemma splice_0 d bs : splice d 0 bs = bs ++ drop (length bs) d.
Proof. done. Qed.

(** The buffer that [skipelem] leaves spells the element, cut at the length
    of the names of the device. *)
Definition spells (n : nat) (name e : list Z) : Prop := take n (cstr name) = take n e.

(** [skipelem] splits off the first element of a path: it fails exactly
    when the path has no element; otherwise the elements are the one it
    copies (cut at [dirlength]) followed by those of the path it returns, the
    returned path is empty exactly when the element was the last one, and it
    is shorter than the path given. *)
Theorem skipelem_correct path name dev :
  0 ∉ path -> Z.of_nat (length name) = EXT2_NAME_LEN ->
  match skipelem path name dev with
  | None => elems path = []
  | Some (path', name') => exists e, elems path = e :: elems path' /\ (path' = [] <-> elems path' = []) /\
      (length path' < length path)%nat /\ length name' = length name /\
      spells (Z.to_nat (dirlength dev)) name' e /\
      (Z.of_nat (length e) < dirlength dev -> cstr name' = e)
  end.
Proof.
  intros H0 Hlen. assert (14 <= dirlength dev <= EXT2_NAME_LEN) as Hd by (unfold dirlength; by destruct (_ =? _)).
  unfold skipelem. destruct (skip_slashes path) as [|c q] eqn:E; [by apply elems_nil|].
  assert (0 ∉ c :: q) as H0'.
  { rewrite <- E. clear -H0. induction path as [|d p IH]; [done|]. cbn [skip_slashes]. destruct (_ =? _); [|done].
    apply IH. by apply not_elem_of_cons in H0 as []. }
  pose proof (take_elem_app (c :: q)) as Ea. pose proof (skip_head _ _ _ E) as Hc.
  pose proof (elems_cons (c :: q) c q eq_refl Hc) as Ee. rewrite <- E, elems_skip in Ee.
  assert ((take_elem (c :: q)).1 <> []) as Hne by (cbn [take_elem]; destruct (Z.eqb_spec c slash); [done|done]).
  rewrite E in Ee. destruct (take_elem (c :: q)) as [e p] eqn:Et. cbn [fst snd] in *.
  assert (0 ∉ e) as He by (intros ?; apply H0'; rewrite Ea; apply elem_of_app; by left).
  exists e. rewrite elems_skip.
  assert (length (skip_slashes p) < length path)%nat as Hlt.
  { pose proof (length_skip path) as L1. pose proof (length_skip p) as L2. rewrite E in L1.
    apply (f_equal length) in Ea. rewrite length_app in Ea. destruct e; [done|]. simpl in *. lia. }
  split; [done|]. split; [symmetry; apply elems_nil|]. split; [done|].
  destruct (Z.leb_spec (dirlength dev) (Z.of_nat (length e))) as [Hle|Hle].
  - split; [rewrite length_splice; [done|rewrite length_take; lia]|]. split; [|lia]. unfold spells. rewrite splice_0.
    rewrite cstr_app by (intros (k & ?%list_elem_of_lookup_2 & _)%elem_of_take; done).
    rewrite take_app_le by (rewrite length_take; lia). rewrite take_take. f_equal. lia.
  - assert (cstr (<[length e := 0]> (splice name 0 e)) = e) as Es.
    { rewrite splice_0, insert_app_r_alt by lia. rewrite Nat.sub_diag.
      destruct (drop (length e) name) as [|b r] eqn:Edr.
      { apply (f_equal length) in Edr. rewrite length_drop in Edr. simpl in Edr. lia. }
      simpl. by apply cstr_app_zero. }
    split; [rewrite length_insert, length_splice; [done|lia]|]. split; [|done]. unfold spells. by rewrite Es.
Qed.

Definition demo_path : list Z := [47; 47; 97; 47; 47; 98; 98].
Lemma skipelem_correct_witness : skipelem demo_path (replicate 255 7) ROOTDEV = Some ([98; 98], 97 :: 0 :: replicate 253 7) /\
  exists e, elems demo_path = e :: elems [98; 98] /\ cstr (97 :: 0 :: replicate 253 7) = e.
Proof.
  assert (skipelem demo_path (replicate 255 7) ROOTDEV = Some ([98; 98], 97 :: 0 :: replicate 253 7)) as E
    by (vm_compute; reflexivity).
  assert (0 ∉ demo_path) as H0 by (apply (bool_decide_unpack _); vm_compute; exact I).
  split; [exact E|]. pose proof (skipelem_correct demo_path (replicate 255 7) ROOTDEV H0 eq_refl) as H.
  rewrite E in H. destruct H as (e & H1 & _ & _ & _ & _ & H2).
  exists e. split; [exact H1|]. apply H2. injection H1 as <-. done.
Defined.
