(* ===== verification/Directory.v ===== *)
(** * Directories of the root device

  The contents of a directory as a list of entries, and as a map from names
  to inode numbers: [dirlookup], [dirlink], [isdirempty] and [fs_unlink]
  against them. *)
From S2P Require Import Prelude Params Layout KState Driver Dll Bio Cache Log LogCrash CString FsBase FsAlloc Inode Ext2 Vfs Content FileIO Dir Paths.

(** ** The entries *)

(** A name as the directories see it: cut at [DIRSIZ] characters. *)
Definition nkey (name : list Z) : list Z := take (Z.to_nat DIRSIZ) (cstr name).
(** Names that can be passed to [strncmp]. *)
Definition name_ok (name : list Z) : Prop := terminated name \/ (Z.to_nat DIRSIZ <= length name)%nat.

Definition matches (n : list Z) (e : dirent) : Prop := de_inum e <> 0 /\ nkey (de_name e) = n.
Global Instance matches_dec n e : Decision (matches n e).
Proof. unfold matches. apply _. Defined.

Definition nents (size : Z) : nat := Z.to_nat (size / sizeof_dirent).
Definition dent (V : blk -> list Z) (a : list Z) (k : nat) : dirent :=
  dec_dirent (fbytes V a (sizeof_dirent * Z.of_nat k) (Z.to_nat sizeof_dirent)).
Definition dents (V : blk -> list Z) (a : list Z) (size : Z) : list dirent := dent V a <$> seq 0 (nents size).

(** The inode number a directory gives a name. *)
Definition dget (es : list dirent) (n : list Z) : option Z := (fun r => de_inum r.2) <$> list_find (matches n) es.
(** No name occurs twice. *)
Definition duniq (es : list dirent) : Prop := forall i j e e' n,
  es !! i = Some e -> es !! j = Some e' -> matches n e -> matches n e' -> i = j.

Record dir_ok (V : blk -> list Z) (a : list Z) (size : Z) : Prop := {
  do_size : 0 <= size <= MAXFILE * BSIZE;
  do_align : size mod sizeof_dirent = 0;
  do_full : no_holes V a 0 size
}.

Lemma nents_size V a size : dir_ok V a size -> sizeof_dirent * Z.of_nat (nents size) = size.
Proof.
  intros [H0 Ha _]. unfold nents. pose proof (Z.div_mod size 16 ltac:(lia)).
  pose proof (Z.div_pos size 16). lia.
Qed.
Lemma length_dents V a size : length (dents V a size) = nents size.
Proof. unfold dents. by rewrite length_fmap, length_seq. Qed.
Lemma lookup_dents V a size k : (k < nents size)%nat -> dents V a size !! k = Some (dent V a k).
Proof. intros Hk. unfold dents. rewrite list_lookup_fmap, lookup_seq_lt by done. done. Qed.

Lemma length_fbytes V a off n : length (fbytes V a off n) = n.
Proof. unfold fbytes. by rewrite length_fmap, length_seq. Qed.
Lemma length_dent_name V a k : length (de_name (dent V a k)) = Z.to_nat DIRSIZ.
Proof. unfold dent, dec_dirent. cbn [de_name]. rewrite length_slice; [done|]. rewrite length_fbytes. done. Qed.

Section dir.
Context {DD : DiskDriver} {DS : Devsw} {KS : KStack}.

(** A locked directory of the root device. *)
Record odir (sb : superblock) (s : kstate) (c : cache) (l : log) (i : nat) (ip : inode) (j : nat) (x : addrs) : Prop := {
  od_o : oinode sb s c l i ip j x;
  od_fs : i_file_type ip = Some inbuiltfs;
  od_type : i_type ip = T_DIR;
  od_ok : dir_ok (c_view c) (a_addrs x) (i_size ip)
}.

Lemma odir_peek sb s c l i ip j x s' :
  odir sb s c l i ip j x -> fs_next s c l [] (c_view c) s' c l -> odir sb s' c l i ip j x.
Proof. intros [O ? ? ?] N. split; try done. by eapply oinode_peek. Qed.

Lemma no_holes_sub V a size off n :
  no_holes V a 0 size -> 0 <= off -> off + n <= size -> no_holes V a off n.
Proof.
  intros H Ho Hn bn Hpos Hbn. apply H; [lia|]. split.
  - etrans; [|apply Hbn]. apply Z.div_le_mono; klia.
  - etrans; [apply Hbn|]. apply Z.div_le_mono; klia.
Qed.

(** Reading an entry. *)
Lemma read_de_spec sb s c l i ip j x k msg :
  odir sb s c l i ip j x -> (k < nents (i_size ip))%nat ->
  wp (read_de i (sizeof_dirent * Z.of_nat k) sizeof_dirent msg) (fun bs s' =>
    dec_dirent bs = dent (c_view c) (a_addrs x) k /\ fs_next s c l [] (c_view c) s' c l) s.
Proof.
  intros [O Hf Ht D] Hk. pose proof (nents_size _ _ _ D) as Hs. pose proof (do_size _ _ _ D) as Hz.
  unfold read_de, iops_readi, iops. wp_step. eapply wp_run; [apply getip_Some, O|]. rewrite Hf.
  assert (clip ip (16 * Z.of_nat k) 16 = 16) as Ec by (unfold clip; lia).
  eapply wp_mono; [apply (readi_spec sb s c l i ip j x (16 * Z.of_nat k) 16 O)|].
  - rewrite Ht. done.
  - lia.
  - lia.
  - klia.
  - lia.
  - rewrite Ec. eapply no_holes_sub; [apply D|lia|lia].
  - intros r s' [-> N]. cbn [fst snd]. rewrite Ec, Z.eqb_refl. wp_step. done.
Qed.

Lemma namecmp_spec sb s c l i ip j x name e :
  odir sb s c l i ip j x -> name_ok name -> length (de_name e) = Z.to_nat DIRSIZ ->
  exists r, iops_namecmp i name (de_name e) s = Ret r s /\ (r = 0 <-> nkey (de_name e) = nkey name).
Proof.
  intros [O Hf _ _] Hn Hl. destruct (strncmp_zero name (de_name e) (Z.to_nat DIRSIZ) Hn) as (r & E & Hr).
  { right. lia. }
  exists r. split.
  - unfold iops_namecmp, iops. run (getip_Some _ _ _ (oi_ip _ _ _ _ _ _ _ _ O)). rewrite Hf. unfold namecmp. by rewrite E.
  - rewrite Hr. done.
Qed.

(** ** Looking up *)
Definition avail (s : kstate) (dev inum : Z) : Prop :=
  0 < iref s dev inum \/ exists k ip, k_icache s !! k = Some ip /\ i_ref ip = 0.

(** The state after finding inode [inum]: a reference more on it. *)
Definition looked (s : kstate) (c : cache) (l : log) (inum : Z) (k : nat) (s' : kstate) : Prop :=
  iget_post s ROOTDEV inum k s' /\ exists s1, fs_next s c l [] (c_view c) s1 c l /\
    s' = set_k_icache (k_icache s') (set_k_iaddrs (k_iaddrs s') (set_k_ext2_addrs (k_ext2_addrs s') s1)).

Lemma next_tables s c l bs V s' c' l' :
  fs_next s c l bs V s' c' l' ->
  k_icache s' = k_icache s /\ k_iaddrs s' = k_iaddrs s /\ k_ext2_addrs s' = k_ext2_addrs s.
Proof. intros N. rewrite (fn_frame _ _ _ _ _ _ _ _ N). by destruct s. Qed.
Lemma icache_ok_next s c l bs V s' c' l' : fs_next s c l bs V s' c' l' -> icache_ok s -> icache_ok s'.
Proof.
  intros N [? ? ? ? ? ? ? ? ?]. destruct (next_tables _ _ _ _ _ _ _ _ N) as (E1 & E2 & E3).
  split; rewrite ?E1, ?E2, ?E3; done.
Qed.
Lemma avail_next s c l bs V s' c' l' dev inum : fs_next s c l bs V s' c' l' -> avail s dev inum -> avail s' dev inum.
Proof. intros N. destruct (next_tables _ _ _ _ _ _ _ _ N) as (E1 & _). unfold avail, iref. by rewrite E1. Qed.
Lemma iget_post_next s c l bs V s1 c' l' dev inum k s' :
  fs_next s c l bs V s1 c' l' -> iget_post s1 dev inum k s' -> iget_post s dev inum k s'.
Proof. intros N. destruct (next_tables _ _ _ _ _ _ _ _ N) as (E1 & _). unfold iget_post, iref. by rewrite E1. Qed.

Lemma looked_trans s c l s1 inum k s' :
  fs_next s c l [] (c_view c) s1 c l -> looked s1 c l inum k s' -> looked s c l inum k s'.
Proof.
  intros N (P & s2 & N2 & E). split; [by eapply iget_post_next|]. exists s2. split; [|done].
  exact (fs_next_trans _ _ _ [] _ _ _ _ [] _ _ _ _ N N2).
Qed.

(** What a lookup over the entries [es] returns. *)
Definition lookup_post (s : kstate) (c : cache) (l : log) (es : list dirent) (n : list Z)
    (r : option (nat * Z)) (s' : kstate) : Prop :=
  match list_find (matches n) es with
  | None => r = None /\ fs_next s c l [] (c_view c) s' c l
  | Some (k, e) => exists i', r = Some (i', sizeof_dirent * Z.of_nat k) /\ looked s c l (de_inum e) i' s'
  end.

Lemma lookup_post_trans s c l s1 es n r s' :
  fs_next s c l [] (c_view c) s1 c l -> lookup_post s1 c l es n r s' -> lookup_post s c l es n r s'.
Proof.
  intros N. unfold lookup_post. destruct (list_find _ es) as [[k e]|].
  - intros (i' & -> & L). exists i'. split; [done|]. by eapply looked_trans.
  - intros [-> N2]. split; [done|]. exact (fs_next_trans _ _ _ [] _ _ _ _ [] _ _ _ _ N N2).
Qed.

(** [list_find] from the entry [k] on. *)
Lemma find_here (n : list Z) (es : list dirent) k e :
  Forall (fun e => ~ matches n e) (take k es) -> es !! k = Some e -> matches n e ->
  list_find (matches n) es = Some (k, e).
Proof.
  intros HF Hk Hm. apply list_find_Some. split_and!; [done|done|]. intros j y Hj Hlt.
  rewrite Forall_lookup in HF. apply (HF j y). by rewrite lookup_take_lt.
Qed.
Lemma Forall_take_S {A} (P : A -> Prop) (l : list A) k x :
  Forall P (take k l) -> l !! k = Some x -> P x -> Forall P (take (S k) l).
Proof. intros H Hk Hx. erewrite take_S_r by done. apply Forall_app. split; [done|]. by apply Forall_singleton. Qed.

Lemma u32_next k n size : (k < n)%nat -> sizeof_dirent * Z.of_nat n = size -> size <= MAXFILE * BSIZE ->
  u32 (sizeof_dirent * Z.of_nat k + sizeof_dirent) = sizeof_dirent * Z.of_nat (S k).
Proof. intros. rewrite u32_small by klia. lia. Qed.

Lemma dirlookup_loop_spec sb c l i ip j x name fuel : forall s k,
  odir sb s c l i ip j x -> name_ok name -> icache_ok s ->
  let es := dents (c_view c) (a_addrs x) (i_size ip) in
  (forall e, e ∈ es -> matches (nkey name) e -> avail s ROOTDEV (de_inum e)) ->
  Forall (fun e => ~ matches (nkey name) e) (take k es) -> (k <= nents (i_size ip))%nat -> (nents (i_size ip) - k < fuel)%nat ->
  wp (dirlookup_loop fuel i name (sizeof_dirent * Z.of_nat k)) (lookup_post s c l es (nkey name)) s.
Proof.
  induction fuel as [|fuel IH]; intros s k O Hn Ok es Hav HF Hk Hfuel; [lia|]. cbn [dirlookup_loop].
  pose proof (od_o _ _ _ _ _ _ _ _ O) as O'. pose proof (nents_size _ _ _ (od_ok _ _ _ _ _ _ _ _ O)) as Hs.
  eapply wp_run; [apply getip_Some, O'|]. destruct (Z.leb_spec (i_size ip) (sizeof_dirent * Z.of_nat k)) as [Hle|Hlt].
  { wp_step. assert (k = nents (i_size ip)) as -> by (lia).
    rewrite take_ge in HF by (unfold es; rewrite length_dents; lia).
    unfold lookup_post. rewrite (proj2 (list_find_None _ _)) by done. split; [done|]. apply fs_next_refl, O'. }
  assert (k < nents (i_size ip))%nat as Hkn by (lia).
  wp_call (read_de_spec sb s c l i ip j x k "dirlookup read" O Hkn). intros bs s1 [Ede N1]. cbv zeta. rewrite Ede.
  pose proof (odir_peek _ _ _ _ _ _ _ _ _ O N1) as O1. set (e := dent (c_view c) (a_addrs x) k) in *.
  assert (es !! k = Some e) as He by (by apply lookup_dents).
  assert (~ matches (nkey name) e -> wp (dirlookup_loop fuel i name (u32 (sizeof_dirent * Z.of_nat k + sizeof_dirent)))
    (lookup_post s c l es (nkey name)) s1) as Hnext.
  { intros Hnm. rewrite (u32_next k _ _ Hkn Hs) by apply (do_size _ _ _ (od_ok _ _ _ _ _ _ _ _ O)).
    eapply wp_mono; [apply (IH s1 (S k)); try done; try lia|].
    - by eapply icache_ok_next.
    - intros e' He' Hm. eapply avail_next; [exact N1|by apply Hav].
    - by eapply Forall_take_S.
    - intros r s'. by apply lookup_post_trans. }
  destruct (Z.eqb_spec (de_inum e) 0) as [Hz|Hz]; [apply Hnext; by intros [? _]|].
  destruct (namecmp_spec sb s1 c l i ip j x name e O1 Hn (length_dent_name _ _ _)) as (r & Er & Hr).
  eapply wp_run; [exact Er|]. destruct (Z.eqb_spec r 0) as [Hr0|Hr0]; [|apply Hnext; intros [_ Hm]; tauto].
  assert (matches (nkey name) e) as Hm by (split; [done|by apply Hr]).
  eapply wp_run; [apply getip_Some, O1|]. rewrite (oi_dev _ _ _ _ _ _ _ _ O').
  destruct (iget_spec s1 ROOTDEV (de_inum e)) as (i' & s' & E & P & Efr).
  - by eapply icache_ok_next.
  - eapply avail_next; [exact N1|]. apply Hav; [by eapply list_elem_of_lookup_2|done].
  - eapply wp_run; [exact E|]. wp_step. unfold lookup_post. rewrite (find_here _ es k e) by done.
    exists i'. split; [done|]. split; [by eapply iget_post_next|]. by exists s1.
Qed.

Lemma dirlookup_spec sb s c l i ip j x name :
  odir sb s c l i ip j x -> name_ok name -> icache_ok s ->
  let es := dents (c_view c) (a_addrs x) (i_size ip) in
  (forall e, e ∈ es -> matches (nkey name) e -> avail s ROOTDEV (de_inum e)) ->
  wp (iops_dirlookup i name) (lookup_post s c l es (nkey name)) s.
Proof.
  intros O Hn Ok es Hav. pose proof (od_o _ _ _ _ _ _ _ _ O) as O'. unfold iops_dirlookup, iops.
  eapply wp_run; [apply getip_Some, O'|]. rewrite (od_fs _ _ _ _ _ _ _ _ O). unfold dirlookup.
  eapply wp_run; [apply getip_Some, O'|]. rewrite (od_type _ _ _ _ _ _ _ _ O). change (T_DIR =? T_DIR) with true. cbn [negb].
  pose proof (nents_size _ _ _ (od_ok _ _ _ _ _ _ _ _ O)) as Hs.
  replace 0 with (sizeof_dirent * Z.of_nat 0) by lia. apply (dirlookup_loop_spec sb c l i ip j x); try done; [lia|].
  lia.
Qed.

(** ** Writing an entry *)
Definition dput (es : list dirent) (k : nat) (e : dirent) : list dirent := take k es ++ e :: drop (S k) es.

Lemma lookup_dput es k e m : (k <= length es)%nat ->
  dput es k e !! m = if decide (m = k) then Some e else es !! m.
Proof.
  intros Hk. unfold dput. destruct (decide (m = k)) as [->|Hne].
  - rewrite lookup_app_r by (rewrite length_take; lia). rewrite length_take, Nat.min_l, Nat.sub_diag by lia. done.
  - destruct (decide (m < k)%nat).
    + rewrite lookup_app_l by (rewrite length_take; lia). by rewrite lookup_take_lt.
    + rewrite lookup_app_r by (rewrite length_take; lia). rewrite length_take, Nat.min_l by lia.
      rewrite lookup_cons_ne_0 by lia. rewrite lookup_drop. f_equal. lia.
Qed.

Lemma fbytes_ext V a V' a' off n :
  (forall o, off <= o < off + Z.of_nat n -> fbyte V' a' o = fbyte V a o) -> fbytes V' a' off n = fbytes V a off n.
Proof.
  intros H. unfold fbytes. apply list_fmap_ext. intros k m Hm. apply lookup_seq in Hm as [-> Hk]. apply H. lia.
Qed.
Lemma fbytes_src V a off src :
  (forall o, off <= o < off + Z.of_nat (length src) -> fbyte V a o = default 0 (src !! Z.to_nat (o - off))) ->
  fbytes V a off (length src) = src.
Proof.
  intros H. apply list_eq. intros k. unfold fbytes. rewrite list_lookup_fmap. destruct (decide (k < length src)%nat) as [Hk|Hk].
  - rewrite lookup_seq_lt by done. simpl. rewrite H by lia. replace (Z.to_nat _) with k by lia.
    by destruct (lookup_lt_is_Some_2 src k Hk) as [y ->].
  - rewrite lookup_seq_ge by lia. by rewrite lookup_ge_None_2 by lia.
Qed.

(** The block of an entry: entries do not straddle blocks. *)
Lemma entry_block k : 0 <= k -> (sizeof_dirent * k + sizeof_dirent - 1) / BSIZE = sizeof_dirent * k / BSIZE.
Proof. intros Hk. change BSIZE with (16 * 128).
  rewrite Z.mul_comm, <- !Z.div_div by lia. Z.div_mod_to_equations. lia. Qed.
Lemma touched_entry k : 0 <= k -> touched (sizeof_dirent * k) sizeof_dirent = [sizeof_dirent * k / BSIZE].
Proof.
  intros Hk. unfold touched. destruct (Z.leb_spec sizeof_dirent 0); [done|]. rewrite entry_block by done.
  rewrite Z.sub_diag. done.
Qed.

Section put.
Context (sb : superblock) (s : kstate) (c : cache) (l : log) (i : nat) (ip : inode) (j : nat) (x : addrs).
Context (k : nat) (src : list Z) (s' : kstate) (c' : cache) (l' : log) (a' : list Z).
Notation off := (sizeof_dirent * Z.of_nat k).
Context (O : odir sb s c l i ip j x) (Hk : (k <= nents (i_size ip))%nat) (Hsrc : length src = Z.to_nat sizeof_dirent).
Context (Hmax : off + sizeof_dirent <= MAXFILE * BSIZE).
Context (W : written sb s c l i ip j x off src sizeof_dirent s' c' l' a').

Lemma put_size : i_size (grown ip off sizeof_dirent) = sizeof_dirent * Z.of_nat (if decide (k < nents (i_size ip))%nat then nents (i_size ip) else S k).
Proof using All.
  pose proof (nents_size _ _ _ (od_ok _ _ _ _ _ _ _ _ O)) as Hs. unfold grown, extends in *.
  destruct (decide _); destruct (Z.ltb_spec (i_size ip) (16 * Z.of_nat k + 16)); simpl; lia.
Qed.

Lemma put_dir_ok : dir_ok (c_view c') a' (i_size (grown ip off sizeof_dirent)).
Proof using All.
  pose proof (nents_size _ _ _ (od_ok _ _ _ _ _ _ _ _ O)) as Hs. pose proof (do_size _ _ _ (od_ok _ _ _ _ _ _ _ _ O)) as Hz.
  pose proof put_size as Ez. split.
  - rewrite Ez. destruct (decide _); lia.
  - rewrite Ez, Z.mul_comm. apply Z.mod_mul. done.
  - intros bn Hpos Hbn.
    destruct (decide (fblock (c_view c) (a_addrs x) bn = 0)) as [H0|H0].
    + apply (wn_alloc _ _ _ _ _ _ _ _ _ _ _ _ _ _ _ W). rewrite touched_entry by lia. apply list_elem_of_singleton.
      assert (~ bn <= (i_size ip - 1) / BSIZE \/ i_size ip <= 0) as Hout.
      { destruct (Z.le_gt_cases (i_size ip) 0); [by right|left]. intros Hle.
        apply (do_full _ _ _ (od_ok _ _ _ _ _ _ _ _ O) bn); [lia|split; [apply Hbn|exact Hle]|done]. }
      rewrite Ez in *. rewrite Z.add_0_l in Hbn. destruct (decide _) as [Hlt|Hge].
      * exfalso. destruct Hout as [Hout|Hout]; [|lia]. apply Hout. etrans; [apply Hbn|]. apply Z.div_le_mono; klia.
      * assert (k = nents (i_size ip)) as Ek by lia.
        assert (bn <= 16 * Z.of_nat k / BSIZE) as Hle.
        { pose proof (entry_block (Z.of_nat k) ltac:(lia)) as Eb. rewrite <- Eb.
          etrans; [apply Hbn|]. apply Z.div_le_mono; klia. }
        change (0 / BSIZE) with 0 in Hbn.
        destruct Hout as [Hout|Hout]; [|replace (16 * Z.of_nat k) with 0 in * by lia; change (0 / BSIZE) with 0 in *; lia].
        assert (16 * Z.of_nat k / BSIZE <= (i_size ip - 1) / BSIZE + 1); [|lia].
        rewrite <- Z.div_add by klia. apply Z.div_le_mono; klia.
    + rewrite (wn_keep _ _ _ _ _ _ _ _ _ _ _ _ _ _ _ W); [done| |done].
      assert (bn < MAXFILE); [|split; [etrans; [|apply Hbn]; done|done]].
      eapply Z.le_lt_trans; [apply Hbn|]. apply Z.div_lt_upper_bound; [klia|]. rewrite Ez.
      destruct (decide _); klia.
Qed.

Lemma put_odir : odir sb s' c' l' i (grown ip off sizeof_dirent) j (set_a_addrs a' x).
Proof using All.
  split; [exact (wn_o _ _ _ _ _ _ _ _ _ _ _ _ _ _ _ W)| | |exact put_dir_ok].
  - unfold grown. destruct (extends _ _ _); exact (od_fs _ _ _ _ _ _ _ _ O).
  - unfold grown. destruct (extends _ _ _); exact (od_type _ _ _ _ _ _ _ _ O).
Qed.

Lemma put_dents : dents (c_view c') a' (i_size (grown ip off sizeof_dirent)) =
  dput (dents (c_view c) (a_addrs x) (i_size ip)) k (dec_dirent src).
Proof using All.
  pose proof (nents_size _ _ _ put_dir_ok) as Hs'. pose proof (nents_size _ _ _ (od_ok _ _ _ _ _ _ _ _ O)) as Hs.
  pose proof (do_size _ _ _ put_dir_ok) as Hz. pose proof put_size as Ez.
  apply list_eq. intros m. rewrite lookup_dput by (rewrite length_dents; lia).
  set (n' := nents (i_size (grown _ _ _))) in *.
  assert (n' = if decide (k < nents (i_size ip)) then nents (i_size ip) else S k)%nat as En by (lia).
  destruct (decide (m < n')%nat) as [Hm|Hm].
  2:{ rewrite !lookup_ge_None_2 by (rewrite length_dents; destruct (decide (k < _)%nat); lia).
      destruct (decide (m = k)); [|done]. subst m. destruct (decide (k < nents (i_size ip))%nat); lia. }
  rewrite lookup_dents by done. destruct (decide (m = k)) as [->|Hne].
  - f_equal. unfold dent. f_equal. rewrite <- Hsrc. apply fbytes_src. rewrite Hsrc. intros o Ho.
    rewrite (wn_bytes _ _ _ _ _ _ _ _ _ _ _ _ _ _ _ W) by (lia).
    destruct (Z.leb_spec off o), (Z.ltb_spec o (off + sizeof_dirent)); done || lia.
  - rewrite lookup_dents by (destruct (decide (k < _)%nat); lia). f_equal. unfold dent. f_equal. apply fbytes_ext. intros o Ho.
    rewrite (wn_bytes _ _ _ _ _ _ _ _ _ _ _ _ _ _ _ W) by (lia).
    destruct (Z.leb_spec off o), (Z.ltb_spec o (off + sizeof_dirent)); done || lia.
Qed.
End put.

(** Room for writing one entry: the log and the free blocks. *)
Definition dir_room (sb : superblock) (c : cache) (l : log) : Prop :=
  (2 <= nfree sb (c_view c))%nat /\ lh_n l + 7 <= log_size l - 1.

(** The state after writing the entry [e] in position [k]. *)
Record dir_put (sb : superblock) (s : kstate) (c : cache) (l : log) (i : nat) (ip : inode) (j : nat) (x : addrs)
    (k : nat) (e : dirent) (s' : kstate) (c' : cache) (l' : log) (a' : list Z) : Prop := {
  dp_w : exists src, written sb s c l i ip j x (sizeof_dirent * Z.of_nat k) src sizeof_dirent s' c' l' a';
  dp_dir : odir sb s' c' l' i (grown ip (sizeof_dirent * Z.of_nat k) sizeof_dirent) j (set_a_addrs a' x);
  dp_dents : dents (c_view c') a' (i_size (grown ip (sizeof_dirent * Z.of_nat k) sizeof_dirent)) =
    dput (dents (c_view c) (a_addrs x) (i_size ip)) k e
}.

Lemma write_de_spec sb s c l i ip j x k src msg :
  odir sb s c l i ip j x -> (k <= nents (i_size ip))%nat -> length src = Z.to_nat sizeof_dirent ->
  sizeof_dirent * Z.of_nat k + sizeof_dirent <= MAXFILE * BSIZE -> 0 <= i_inum ip < sb_ninodes sb -> dir_room sb c l ->
  wp (write_de i src (sizeof_dirent * Z.of_nat k) sizeof_dirent msg) (fun _ s' =>
    exists c' l' a', dir_put sb s c l i ip j x k (dec_dirent src) s' c' l' a') s.
Proof.
  intros D Hk Hl Hmax Hi [Hf Hlog]. pose proof (od_o _ _ _ _ _ _ _ _ D) as O.
  pose proof (nents_size _ _ _ (od_ok _ _ _ _ _ _ _ _ D)) as Hs. unfold write_de, iops_writei, iops. wp_step.
  eapply wp_run; [apply getip_Some, O|]. rewrite (od_fs _ _ _ _ _ _ _ _ D).
  eapply wp_mono; [apply (writei_spec sb s c l i ip j x (sizeof_dirent * Z.of_nat k) src sizeof_dirent O)|].
  - lia.
  - done.
  - done.
  - rewrite Hl. done.
  - rewrite touched_entry by lia. simpl. lia.
  - rewrite touched_entry by lia. simpl length. lia.
  - done.
  - apply D.
  - rewrite (od_type _ _ _ _ _ _ _ _ D). done.
  - lia.
  - intros r s' [-> (c' & l' & a' & W)]. rewrite Z.eqb_refl. wp_step.
    exists c', l', a'. split; [by exists src|by eapply put_odir|by eapply put_dents].
Qed.

(** *** [dirlink] *)
Definition dfree (es : list dirent) : nat :=
  match list_find (fun e => de_inum e = 0) es with Some (k, _) => k | None => length es end.

Lemma dfree_le es : (dfree es <= length es)%nat.
Proof.
  unfold dfree. destruct (list_find _ es) as [[k e]|] eqn:E; [|done].
  apply list_find_Some in E as (Hk & _). apply lookup_lt_Some in Hk. lia.
Qed.

Lemma dirlink_loop_spec sb c l i ip j x fuel : forall s k,
  odir sb s c l i ip j x -> let es := dents (c_view c) (a_addrs x) (i_size ip) in
  (k <= dfree es)%nat -> (nents (i_size ip) - k < fuel)%nat ->
  wp (dirlink_loop fuel i (sizeof_dirent * Z.of_nat k)) (fun r s' =>
    r = sizeof_dirent * Z.of_nat (dfree es) /\ fs_next s c l [] (c_view c) s' c l) s.
Proof.
  induction fuel as [|fuel IH]; intros s k D es Hk Hfuel; [lia|]. cbn [dirlink_loop].
  pose proof (od_o _ _ _ _ _ _ _ _ D) as O. pose proof (nents_size _ _ _ (od_ok _ _ _ _ _ _ _ _ D)) as Hs.
  pose proof (do_size _ _ _ (od_ok _ _ _ _ _ _ _ _ D)) as Hz. pose proof (dfree_le es) as Hle.
  assert (length es = nents (i_size ip)) as Hlen by apply length_dents.
  eapply wp_run; [apply getip_Some, O|]. rewrite u32_small by (klia).
  destruct (Z.leb_spec (i_size ip) (sizeof_dirent * Z.of_nat k)) as [Hge|Hlt].
  { wp_step. split; [|apply fs_next_refl, O]. do 2 f_equal. lia. }
  assert (k < nents (i_size ip))%nat as Hkn by (lia).
  wp_call (read_de_spec sb s c l i ip j x k "dirlink read" D Hkn). intros bs s1 [-> N1].
  pose proof (lookup_dents (c_view c) (a_addrs x) _ _ Hkn) as He. fold es in He.
  assert (k = dfree es <-> de_inum (dent (c_view c) (a_addrs x) k) = 0) as Hiff.
  { unfold dfree in *. destruct (list_find _ es) as [[k' e]|] eqn:E.
    - apply list_find_Some in E as (Hk' & H0 & Hb). split; [intros ->; congruence|]. intros H1.
      destruct (decide (k = k')); [done|]. exfalso. by apply (Hb k _ He); [lia|].
    - split; [lia|]. intros H0. apply list_find_None in E. rewrite Forall_lookup in E. by destruct (E _ _ He). }
  destruct (Z.eqb_spec (de_inum (dent (c_view c) (a_addrs x) k)) 0) as [H0|H0].
  { wp_step. apply Hiff in H0 as ->. done. }
  replace (s32 _) with (sizeof_dirent * Z.of_nat (S k)) by (rewrite s32_small; klia).
  eapply wp_mono; [apply (IH s1 (S k)); [by eapply odir_peek| |lia]|].
  - fold es. assert (k <> dfree es) by (intros ?; by apply H0, Hiff). lia.
  - intros r s' [-> N2]. split; [done|]. exact (fs_next_trans _ _ _ [] _ _ _ _ [] _ _ _ _ N1 N2).
Qed.

(** The bytes of a name in an entry. *)
Definition de_name_of (name : list Z) : list Z := nkey name ++ replicate (Z.to_nat DIRSIZ - length (cstr name)) 0.

Lemma cstr_zeros n : cstr (replicate n 0) = [].
Proof. by destruct n. Qed.
Lemma nkey_de_name name : nkey (de_name_of name) = nkey name.
Proof.
  unfold de_name_of, nkey. rewrite cstr_app.
  - by rewrite cstr_zeros, app_nil_r, take_take, Nat.min_id.
  - intros (k & H%list_elem_of_lookup_2 & _)%elem_of_take. by apply cstr_nonzero in H.
Qed.
Lemma length_de_name name : length (de_name_of name) = Z.to_nat DIRSIZ.
Proof. unfold de_name_of, nkey. rewrite length_app, length_take, length_replicate. lia. Qed.

(** Writes to other positions of the tables do not change the availability. *)
Lemma dir_put_trans sb s c l s1 i ip j x k e s' c' l' a' :
  fs_next s c l [] (c_view c) s1 c l -> dir_put sb s1 c l i ip j x k e s' c' l' a' -> dir_put sb s c l i ip j x k e s' c' l' a'.
Proof.
  intros N [[src W] D E]. split; try done. exists src.
  destruct (next_tables _ _ _ _ _ _ _ _ N) as (E1 & E2 & _). destruct (fi_of _ _ _ _ _ _ _ _ N) as (N' & _).
  destruct W as [? ? ? ? ? ? ? ? ? ? H1 H2 (bs & H3 & H4)]. split; try done; [by rewrite <- E1|by rewrite <- E2|].
  exists bs. split; [|done]. exact (fi_trans _ _ _ [] _ _ _ _ _ _ _ N' H3).
Qed.

Lemma dirlink_spec sb s c l i ip j x name inum :
  odir sb s c l i ip j x -> name_ok name -> icache_ok s -> 0 <= inum < 2 ^ 16 ->
  0 <= i_inum ip < sb_ninodes sb -> dir_room sb c l -> i_size ip + sizeof_dirent <= MAXFILE * BSIZE ->
  let es := dents (c_view c) (a_addrs x) (i_size ip) in
  dget es (nkey name) = None ->
  wp (iops_dirlink i name inum) (fun r s' => r = 0 /\ exists c' l' a',
    dir_put sb s c l i ip j x (dfree es) (mk_dirent inum (de_name_of name)) s' c' l' a') s.
Proof.
  intros D Hn Ok Hi Hin Hr Hmax es Hg. pose proof (od_o _ _ _ _ _ _ _ _ D) as O. unfold iops_dirlink, iops.
  eapply wp_run; [apply getip_Some, O|]. rewrite (od_fs _ _ _ _ _ _ _ _ D). unfold dirlink.
  assert (list_find (matches (nkey name)) es = None) as Hf by (unfold dget in Hg; by destruct (list_find _ es)).
  wp_call (dirlookup_spec sb s c l i ip j x name D Hn Ok).
  { intros e He Hm. apply list_find_None in Hf. rewrite Forall_forall in Hf. by destruct (Hf e He). }
  intros r s1. unfold lookup_post. fold es. rewrite Hf. intros [-> N1]. pose proof (odir_peek _ _ _ _ _ _ _ _ _ D N1) as D1.
  eapply wp_run; [apply getip_Some, (od_o _ _ _ _ _ _ _ _ D1)|]. pose proof (nents_size _ _ _ (od_ok _ _ _ _ _ _ _ _ D)) as Hs.
  pose proof (dirlink_loop_spec sb c l i ip j x (S (Z.to_nat (i_size ip))) s1 0 D1 ltac:(lia) ltac:(lia)) as L.
  rewrite Z.mul_0_r in L. wp_call L. intros off s2 [-> N2]. fold es. pose proof (odir_peek _ _ _ _ _ _ _ _ _ D1 N2) as D2.
  pose proof (dfree_le es) as Hle. assert (length es = nents (i_size ip)) as Hlen by apply length_dents.
  wp_step. eapply wp_unwrap; [by apply strncpy_correct|]. fold (nkey name). fold (de_name_of name).
  rewrite u32_small by (klia).
  wp_call (write_de_spec sb s2 c l i ip j x (dfree es)); try done.
  - lia.
  - unfold enc_dirent. cbn [de_inum de_name]. rewrite length_app, length_le_enc, length_de_name. done.
  - lia.
  - intros _ s3 (c' & l' & a' & P). wp_step. split; [done|]. exists c', l', a'.
    rewrite <- (app_nil_r (enc_dirent _)) in P. rewrite dec_enc_dirent in P; [|done|apply length_de_name].
    eapply dir_put_trans; [exact N1|]. by eapply dir_put_trans.
Qed.

(** *** [isdirempty] and [fs_unlink] *)
Lemma isdirempty_loop_spec sb c l i ip j x fuel : forall s k,
  odir sb s c l i ip j x -> let es := dents (c_view c) (a_addrs x) (i_size ip) in
  (nents (i_size ip) - k < fuel)%nat -> sizeof_dirent * Z.of_nat k < 2 ^ 31 ->
  wp (isdirempty_loop fuel i (sizeof_dirent * Z.of_nat k)) (fun r s' =>
    r = bool_decide (Forall (fun e => de_inum e = 0) (drop k es)) /\ fs_next s c l [] (c_view c) s' c l) s.
Proof.
  induction fuel as [|fuel IH]; intros s k D es Hfuel Hk; [lia|]. cbn [isdirempty_loop].
  pose proof (od_o _ _ _ _ _ _ _ _ D) as O. pose proof (nents_size _ _ _ (od_ok _ _ _ _ _ _ _ _ D)) as Hs.
  pose proof (do_size _ _ _ (od_ok _ _ _ _ _ _ _ _ D)) as Hz.
  assert (length es = nents (i_size ip)) as Hlen by apply length_dents.
  eapply wp_run; [apply getip_Some, O|]. rewrite u32_small by (klia).
  destruct (Z.leb_spec (i_size ip) (sizeof_dirent * Z.of_nat k)) as [Hge|Hlt].
  { wp_step. rewrite drop_ge by (lia). split; [done|apply fs_next_refl, O]. }
  assert (k < nents (i_size ip))%nat as Hkn by (lia).
  wp_call (read_de_spec sb s c l i ip j x k "isdirempty: readi" D Hkn). intros bs s1 [-> N1].
  pose proof (lookup_dents (c_view c) (a_addrs x) _ _ Hkn) as He. fold es in He. rewrite (drop_S _ _ _ He).
  destruct (Z.eqb_spec (de_inum (dent (c_view c) (a_addrs x) k)) 0) as [H0|H0].
  2:{ wp_step. split; [|done]. rewrite bool_decide_false; [done|]. by intros [? _]%Forall_cons. }
  replace (s32 _) with (sizeof_dirent * Z.of_nat (S k)) by (rewrite s32_small; klia).
  eapply wp_mono; [apply (IH s1 (S k)); [by eapply odir_peek|lia|klia]|].
  intros r s' [-> N2]. split; [|exact (fs_next_trans _ _ _ [] _ _ _ _ [] _ _ _ _ N1 N2)].
  apply bool_decide_ext. rewrite Forall_cons. fold es. tauto.
Qed.

Lemma fs_unlink_spec sb s c l i ip j x k :
  odir sb s c l i ip j x -> (k < nents (i_size ip))%nat -> 0 <= i_inum ip < sb_ninodes sb -> dir_room sb c l ->
  wp (iops_unlink i (sizeof_dirent * Z.of_nat k)) (fun _ s' =>
    exists c' l' a', dir_put sb s c l i ip j x k (mk_dirent 0 (replicate (Z.to_nat DIRSIZ) 0)) s' c' l' a') s.
Proof.
  intros D Hk Hi Hr. pose proof (nents_size _ _ _ (od_ok _ _ _ _ _ _ _ _ D)) as Hs.
  pose proof (do_size _ _ _ (od_ok _ _ _ _ _ _ _ _ D)) as Hz. unfold iops_unlink, iops.
  eapply wp_run; [apply getip_Some, (od_o _ _ _ _ _ _ _ _ D)|]. rewrite (od_fs _ _ _ _ _ _ _ _ D). unfold fs_unlink.
  apply (write_de_spec sb s c l i ip j x k); try done; [lia|lia].
Qed.
End dir.

(** ** The directory as a map *)
Lemma matches_inj n n' e : matches n e -> matches n' e -> n = n'.
Proof. intros [_ <-] [_ <-]. done. Qed.

Lemma dget_Some es n v : duniq es ->
  dget es n = Some v <-> exists k e, es !! k = Some e /\ matches n e /\ de_inum e = v.
Proof.
  intros Hu. unfold dget. destruct (list_find (matches n) es) as [[k e]|] eqn:E; simpl.
  - apply list_find_Some in E as (Hk & Hm & _). split.
    + intros [= <-]. eauto.
    + intros (k' & e' & Hk' & Hm' & <-). assert (k = k') as -> by (by eapply Hu). congruence.
  - apply list_find_None in E. rewrite Forall_lookup in E. split; [done|].
    intros (k & e & Hk & Hm & _). by destruct (E _ _ Hk).
Qed.
Lemma dget_None es n : dget es n = None <-> forall k e, es !! k = Some e -> ~ matches n e.
Proof.
  unfold dget. rewrite fmap_None, list_find_None, Forall_lookup. done.
Qed.

(** Position [k] holds no name. *)
Definition free_at (es : list dirent) (k : nat) : Prop := forall e n, es !! k = Some e -> ~ matches n e.
Lemma dfree_free es : free_at es (dfree es).
Proof.
  intros e n He [Hi _]. unfold dfree in He. destruct (list_find _ es) as [[k e']|] eqn:E.
  - apply list_find_Some in E as (Hk & H0 & _). congruence.
  - apply lookup_lt_Some in He. lia.
Qed.

Lemma duniq_dput es k e :
  duniq es -> (k <= length es)%nat -> (forall n, matches n e -> dget es n = None) -> duniq (dput es k e).
Proof.
  intros Hu Hk Hn i j ei ej n. rewrite !lookup_dput by done. intros Hi Hj Hmi Hmj.
  destruct (decide (i = k)) as [->|Hik], (decide (j = k)) as [->|Hjk]; simplify_eq; [done|..].
  - exfalso. exact (proj1 (dget_None _ _) (Hn n Hmi) _ _ Hj Hmj).
  - exfalso. exact (proj1 (dget_None _ _) (Hn n Hmj) _ _ Hi Hmi).
  - by eapply Hu.
Qed.

(** Adding an entry inserts its name, and nothing else. *)
Lemma dget_link es k e n :
  duniq es -> (k <= length es)%nat -> free_at es k -> de_inum e <> 0 -> dget es (nkey (de_name e)) = None ->
  dget (dput es k e) n = if decide (n = nkey (de_name e)) then Some (de_inum e) else dget es n.
Proof.
  intros Hu Hk Hf Hi Hn. assert (duniq (dput es k e)) as Hu' by (apply duniq_dput; [done..|]; by intros ? [_ <-]).
  apply option_eq. intros v. rewrite dget_Some by done. setoid_rewrite lookup_dput; [|done].
  destruct (decide (n = nkey (de_name e))) as [->|Hne].
  - split.
    + intros (m & e' & He & Hm & <-). destruct (decide (m = k)) as [->|]; [congruence|].
      exfalso. exact (proj1 (dget_None _ _) Hn _ _ He Hm).
    + intros [= <-]. exists k, e. by rewrite decide_True.
  - rewrite dget_Some by done. split; intros (m & e' & He & Hm & <-); exists m, e'.
    + destruct (decide (m = k)) as [->|]; [|done]. simplify_eq. destruct Hm as [_ Hm]. congruence.
    + destruct (decide (m = k)) as [->|]; [|done]. by destruct (Hf _ _ He Hm).
Qed.

(** Clearing an entry removes its name, and nothing else. *)
Lemma dget_unlink es k e e' n :
  duniq es -> es !! k = Some e -> de_inum e <> 0 -> de_inum e' = 0 ->
  duniq (dput es k e') /\
  dget (dput es k e') n = if decide (n = nkey (de_name e)) then None else dget es n.
Proof.
  intros Hu He Hi Hi'. assert (k < length es)%nat as Hk by (by eapply lookup_lt_Some).
  assert (duniq (dput es k e')) as Hu'.
  { apply duniq_dput; [done|lia|]. by intros ? [? _]. }
  split; [done|]. apply option_eq. intros v. rewrite dget_Some by done. setoid_rewrite lookup_dput; [|lia].
  destruct (decide (n = nkey (de_name e))) as [->|Hne].
  - split; [|done]. intros (m & y & Hy & Hm & _). destruct (decide (m = k)) as [->|Hmk]; [simplify_eq; by destruct Hm|].
    exfalso. apply Hmk. by eapply (Hu m k).
  - rewrite dget_Some by done. split; intros (m & y & Hy & Hm & <-); exists m, y.
    + destruct (decide (m = k)) as [->|]; [|done]. simplify_eq. by destruct Hm.
    + destruct (decide (m = k)) as [->|]; [|done]. simplify_eq. destruct Hm as [_ Hm]. congruence.
Qed.

(** ** The inode cache across a write *)
Lemma icache_ok_ext s s' :
  k_icache s' = k_icache s -> k_iaddrs s' = k_iaddrs s -> k_ext2_addrs s' = k_ext2_addrs s -> icache_ok s -> icache_ok s'.
Proof. intros E1 E2 E3 [? ? ? ? ? ? ? ? ?]. split; rewrite ?E1, ?E2, ?E3; done. Qed.
Lemma icache_ok_addrs s j x a :
  icache_ok s -> k_iaddrs s !! j = Some x -> icache_ok (set_k_iaddrs (<[j := set_a_addrs a x]> (k_iaddrs s)) s).
Proof.
  intros Ok Hj. split; try apply Ok; simpl; [by rewrite length_insert; apply Ok|].
  intros m. rewrite <- (ic_busy _ Ok m). unfold busy_at. destruct (decide (m = j)) as [->|Hne].
  - rewrite list_lookup_insert_eq by (by eapply lookup_lt_Some). rewrite Hj. split; intros (y & [= <-] & Hb); eauto.
  - by rewrite list_lookup_insert_ne.
Qed.

Section theorems.
Context {DD : DiskDriver} {DS : Devsw} {KS : KStack}.

Lemma written_icache sb s c l i ip j x off src n s' c' l' a' :
  icache_ok s -> oinode sb s c l i ip j x -> written sb s c l i ip j x off src n s' c' l' a' -> icache_ok s'.
Proof.
  intros Ok O W. pose proof (ic_ref _ Ok _ _ (oi_ip _ _ _ _ _ _ _ _ O)) as Hr.
  assert (icache_ok (set_k_icache (<[i := grown ip off n]> (k_icache s)) s)) as Ok1.
  { apply (icache_ok_upd s i ip); [done|apply O|..]; unfold grown; destruct (extends _ _ _); done. }
  apply (icache_ok_addrs _ j x a') in Ok1; [|apply O]. eapply icache_ok_ext; [..|exact Ok1].
  - apply W.
  - apply W.
  - destruct (wn_logs _ _ _ _ _ _ _ _ _ _ _ _ _ _ _ W) as (bs & N & _).
    pose proof (fn_frame _ _ _ _ _ _ _ _ N) as G. apply (f_equal k_ext2_addrs) in G. exact G.
Qed.

(** The iput-free part of the interface: what the entries of a directory
    promise to the code that looks names up. *)
Lemma lookup_post_dget s c l es n r s' :
  lookup_post s c l es n r s' ->
  match dget es n with
  | None => r = None /\ fs_next s c l [] (c_view c) s' c l
  | Some inum => exists i' k e, r = Some (i', sizeof_dirent * Z.of_nat k) /\ es !! k = Some e /\ matches n e /\
      de_inum e = inum /\ looked s c l inum i' s'
  end.
Proof.
  unfold lookup_post, dget. destruct (list_find _ es) as [[k e]|] eqn:E; [|done].
  intros (i' & -> & L). apply list_find_Some in E as (Hk & Hm & _). simpl. by exists i', k, e.
Qed.

(** C19: [dirlookup] on a directory of the root device finds exactly the names
    of the directory: for a name that is present it returns the cache entry
    of the inode the name maps to, with one more reference, and the offset of
    an entry with that name; for any other name it returns null. *)
Theorem dirlookup_correct sb s c l i ip j x name :
  odir sb s c l i ip j x -> name_ok name -> icache_ok s ->
  let es := dents (c_view c) (a_addrs x) (i_size ip) in
  (forall inum, dget es (nkey name) = Some inum -> avail s ROOTDEV inum) -> duniq es ->
  wp (iops_dirlookup i name) (fun r s' =>
    match dget es (nkey name) with
    | None => r = None /\ fs_next s c l [] (c_view c) s' c l
    | Some inum => exists i' k e, r = Some (i', sizeof_dirent * Z.of_nat k) /\ es !! k = Some e /\
        matches (nkey name) e /\ de_inum e = inum /\ looked s c l inum i' s'
    end) s.
Proof.
  intros D Hn Ok es Hav Hu. eapply wp_mono; [apply (dirlookup_spec sb s c l i ip j x); try done|].
  - intros e (k & He)%list_elem_of_lookup_1 Hm. apply Hav, dget_Some; [done|]. by exists k, e.
  - intros r s'. apply lookup_post_dget.
Qed.

(** C18: [dirlink] with a name that is not in the directory inserts exactly
    that name: afterwards the directory maps it to the inode number, maps
    every other name as before, and no name occurs twice; it returns 0. *)
Theorem dirlink_correct sb s c l i ip j x name inum :
  odir sb s c l i ip j x -> name_ok name -> icache_ok s -> 0 < inum < 2 ^ 16 ->
  0 <= i_inum ip < sb_ninodes sb -> dir_room sb c l -> i_size ip + sizeof_dirent <= MAXFILE * BSIZE ->
  let es := dents (c_view c) (a_addrs x) (i_size ip) in
  duniq es -> dget es (nkey name) = None ->
  wp (iops_dirlink i name inum) (fun r s' => r = 0 /\ icache_ok s' /\ exists c' l' ip' x',
    odir sb s' c' l' i ip' j x' /\
    let es' := dents (c_view c') (a_addrs x') (i_size ip') in
    duniq es' /\ forall n, dget es' n = if decide (n = nkey name) then Some inum else dget es n) s.
Proof.
  intros D Hn Ok Hi Hin Hr Hmax es Hu Hg. pose proof (od_o _ _ _ _ _ _ _ _ D) as O.
  eapply wp_mono; [apply (dirlink_spec sb s c l i ip j x); try done; lia|].
  intros r s' [-> (c' & l' & a' & [[src W] D' E])]. split; [done|]. split; [by eapply written_icache|].
  eexists c', l', _, _. split; [exact D'|]. cbv zeta. cbn [set_a_addrs a_addrs]. rewrite E. fold es.
  assert (dget es (nkey (de_name (mk_dirent inum (de_name_of name)))) = None) as Hg'.
  { cbn [de_name]. by rewrite nkey_de_name. }
  split; [apply duniq_dput; [done|apply dfree_le|]; by intros n [_ <-]|].
  intros n. rewrite dget_link; [|done|apply dfree_le|apply dfree_free|simpl; lia|done].
  cbn [de_name de_inum]. by rewrite nkey_de_name.
Qed.

(** C20: Unlinking the entry that [dirlookup] found removes exactly that name
    from the directory: the name is absent afterwards, and every other name
    maps as before. *)
Theorem unlink_correct sb s c l i ip j x k e :
  odir sb s c l i ip j x -> icache_ok s -> 0 <= i_inum ip < sb_ninodes sb -> dir_room sb c l ->
  let es := dents (c_view c) (a_addrs x) (i_size ip) in
  duniq es -> es !! k = Some e -> de_inum e <> 0 ->
  wp (iops_unlink i (sizeof_dirent * Z.of_nat k)) (fun _ s' => icache_ok s' /\ exists c' l' ip' x',
    odir sb s' c' l' i ip' j x' /\ i_size ip' = i_size ip /\
    let es' := dents (c_view c') (a_addrs x') (i_size ip') in
    duniq es' /\ forall n, dget es' n = if decide (n = nkey (de_name e)) then None else dget es n) s.
Proof.
  intros D Ok Hin Hr es Hu He Hi. pose proof (od_o _ _ _ _ _ _ _ _ D) as O.
  assert (k < nents (i_size ip))%nat as Hk.
  { rewrite <- (length_dents (c_view c) (a_addrs x)). by eapply lookup_lt_Some. }
  eapply wp_mono; [by apply (fs_unlink_spec sb s c l i ip j x)|].
  intros _ s' (c' & l' & a' & [[src W] D' E]). split; [by eapply written_icache|].
  eexists c', l', _, _. split; [exact D'|]. split.
  { pose proof (nents_size _ _ _ (od_ok _ _ _ _ _ _ _ _ D)) as Hs. unfold grown, extends in *.
    destruct (Z.ltb_spec (i_size ip) (16 * Z.of_nat k + 16)); [lia|]. by rewrite andb_false_r. }
  cbv zeta. cbn [set_a_addrs a_addrs]. rewrite E. fold es.
  split; [by eapply (dget_unlink es k e _ [])|]. intros n. by eapply dget_unlink.
Qed.

(** [isdirempty] returns true exactly when every entry after the first
    two is free. *)
Theorem isdirempty_correct sb s c l i ip j x :
  odir sb s c l i ip j x ->
  wp (isdirempty i) (fun r s' =>
    (r = true <-> forall k e, dents (c_view c) (a_addrs x) (i_size ip) !! k = Some e -> (2 <= k)%nat -> de_inum e = 0) /\
    fs_next s c l [] (c_view c) s' c l) s.
Proof.
  intros D. pose proof (nents_size _ _ _ (od_ok _ _ _ _ _ _ _ _ D)) as Hs. unfold isdirempty.
  eapply wp_run; [apply getip_Some, (od_o _ _ _ _ _ _ _ _ D)|].
  replace (2 * sizeof_dirent) with (sizeof_dirent * Z.of_nat 2) by done.
  eapply wp_mono; [apply (isdirempty_loop_spec sb c l i ip j x); [done|lia|done]|].
  intros r s' [-> N]. split; [|done]. rewrite bool_decide_eq_true, Forall_lookup. split.
  - intros H k e Hk H2. apply (H (k - 2)%nat). rewrite lookup_drop. by replace (2 + (k - 2))%nat with k by lia.
  - intros H k e. rewrite lookup_drop. intros Hk. apply (H _ _ Hk). lia.
Qed.

(** A name added by [dirlink] is found by [dirlookup], with the inode
    number it was added with. *)
Theorem dirlink_dirlookup sb s c l i ip j x name inum :
  odir sb s c l i ip j x -> name_ok name -> icache_ok s -> 0 < inum < 2 ^ 16 ->
  0 <= i_inum ip < sb_ninodes sb -> dir_room sb c l -> i_size ip + sizeof_dirent <= MAXFILE * BSIZE ->
  let es := dents (c_view c) (a_addrs x) (i_size ip) in
  duniq es -> dget es (nkey name) = None ->
  (exists k' ip', k' <> i /\ k_icache s !! k' = Some ip' /\ i_ref ip' = 0) ->
  wp (iops_dirlink i name inum ;; iops_dirlookup i name) (fun r s' =>
    exists i' off ip', r = Some (i', off) /\ k_icache s' !! i' = Some ip' /\
      i_dev ip' = ROOTDEV /\ i_inum ip' = inum /\ 0 < iref s' ROOTDEV inum) s.
Proof.
  intros D Hn Ok Hi Hin Hr Hmax es Hu Hg (k' & ip' & Hne & Hk' & Hr'). pose proof (od_o _ _ _ _ _ _ _ _ D) as O.
  wp_call (dirlink_spec sb s c l i ip j x name inum); try done; [lia|].
  intros r s' [-> (c' & l' & a' & [[src W] D' E])]. pose proof (written_icache _ _ _ _ _ _ _ _ _ _ _ _ _ _ _ Ok O W) as Ok'.
  assert (dget es (nkey (de_name (mk_dirent inum (de_name_of name)))) = None) as Hg'.
  { cbn [de_name]. by rewrite nkey_de_name. }
  wp_call (dirlookup_spec sb s' c' l' i _ j _ name D' Hn Ok').
  { intros e _ _. right. exists k', ip'. rewrite (wn_icache _ _ _ _ _ _ _ _ _ _ _ _ _ _ _ W).
    by rewrite list_lookup_insert_ne by done. }
  intros r s2 L. apply lookup_post_dget in L. cbn [set_a_addrs a_addrs] in L. rewrite E in L. fold es in L.
  rewrite dget_link in L; [|done|apply dfree_le|apply dfree_free|simpl; lia|done].
  cbn [de_name de_inum] in L. rewrite nkey_de_name, decide_True in L by done.
  destruct L as (i' & k & e & -> & _ & _ & _ & (_ & Href & (ip2 & Hip & Hd & Hnm & _) & _) & _).
  exists i', (sizeof_dirent * Z.of_nat k), ip2. split_and!; try done. rewrite Href.
  unfold iref. destruct (entry _ _ _) as [y|] eqn:Ey; [|lia]. unfold entry in Ey.
  destruct (list_find _ (k_icache s')) as [[m z]|] eqn:Ez; [|done]. apply list_find_Some in Ez as (Hz & _). simplify_eq/=.
  pose proof (ic_ref _ Ok' _ _ Hz). lia.
Qed.
End theorems.
