(* ===== verification/Mkfs.v ===== *)
(** * Building the root disk (mkfs.c)

  The image file as the list of its blocks, with the two counters of mkfs.
  The files named on the command line are given with what [read] returns for
  each, buffer by buffer; a failing [assert] and [exit(1)] are [Panic]. *)
From S2P Require Import Prelude Params Layout CString KState Driver Dll Bio Cache Log LogCrash FsBase FsAlloc Inode.

Notation NINODES := 200 (only parsing).
Notation nbitmap := (FSSIZE / (BSIZE * 8) + 1) (only parsing).
Notation ninodeblocks := (NINODES / IPB + 1) (only parsing).
Notation nlog := LOGSIZE (only parsing).
Notation nmeta := (2 + nlog + ninodeblocks + nbitmap) (only parsing).
Notation nblocks := (FSSIZE - nmeta) (only parsing).

(** The integer whose bytes in memory are those of [x], lowest first, on a
    little-endian host. *)
Definition xshort (x : Z) : Z := le_dec [x mod 256; Z.shiftr x 8 mod 256].
Definition xint (x : Z) : Z := le_dec [x mod 256; Z.shiftr x 8 mod 256; Z.shiftr x 16 mod 256; Z.shiftr x 24 mod 256].

Definition mkfs_sb : superblock := Eval cbv in
  mk_superblock (xint FSSIZE) (xint nblocks) (xint NINODES) (xint nlog) (xint 2) (xint (2 + nlog)) (xint (2 + nlog + ninodeblocks)).

Record image := mk_image {
  im_blocks : list (list Z);
  im_freeinode : Z;
  im_freeblock : Z
}.
Definition set_im_blocks (x : list (list Z)) (s : image) : image := mk_image x (im_freeinode s) (im_freeblock s).
Definition set_im_freeinode (x : Z) (s : image) : image := mk_image (im_blocks s) x (im_freeblock s).
Definition set_im_freeblock (x : Z) (s : image) : image := mk_image (im_blocks s) (im_freeinode s) x.

Module Img.
(** [sec * BSIZE] is a [uint]. *)
Definition sect (sec : Z) : nat := Z.to_nat (u32 (sec * BSIZE) / BSIZE).

(** Writing past the end leaves a hole that reads as zeroes. *)
Definition put_sect (n : nat) (buf : list Z) (d : list (list Z)) : list (list Z) :=
  <[n := buf]> (d ++ replicate (S n - length d) zero_block).
Definition wsect (sec : Z) (buf : list Z) : M image unit :=
  modify (fun s => set_im_blocks (put_sect (sect sec) buf (im_blocks s)) s).
(** [read] returns 0 at the end of the file. *)
Definition rsect (sec : Z) : M image (list Z) :=
  d ← gets im_blocks;
  match d !! sect sec with Some buf => mret buf | None => panic "read" end.

Definition winode (inum : Z) (ip : dinode) : M image unit :=
  let bn := IBLOCK inum mkfs_sb in
  buf ← rsect bn;
  wsect bn (put_dinode buf inum ip).
Definition rinode (inum : Z) : M image dinode :=
  let bn := IBLOCK inum mkfs_sb in
  buf ← rsect bn;
  mret (get_dinode buf inum).

(** [freeinode++] and [freeblock++] *)
Definition next_inode : M image Z :=
  n ← gets im_freeinode; modify (set_im_freeinode (u32 (n + 1))) ;; mret n.
Definition next_block : M image Z :=
  n ← gets im_freeblock; modify (set_im_freeblock (u32 (n + 1))) ;; mret n.

Definition ialloc (type : Z) : M image Z :=
  inum ← next_inode;
  winode inum (mk_dinode (xshort type) 0 0 (xshort 1) (xint 0) (replicate (Z.to_nat (NDIRECT + 1)) 0)) ;;
  mret inum.

Fixpoint mark (used : nat) (buf : list Z) : list Z :=
  match used with
  | O => buf
  | S i => set_bit (mark i buf) (Z.of_nat i)
  end.
Definition balloc (used : Z) : M image unit :=
  if negb (used <? BSIZE * 8) then panic "used < BSIZE*8" else
  wsect (sb_bmapstart mkfs_sb) (mark (Z.to_nat used) zero_block).

(** The block of the file that holds block [fbn], and the addresses in the
    inode; first when the inode has an indirect block. *)
Definition iappend_indirect (a : list Z) (fbn : Z) : M image (Z * list Z) :=
  x ← unwrap (a !! Z.to_nat NDIRECT) "din.addrs";
  indirect ← rsect (xint x);
  let j := Z.to_nat (4 * (fbn - NDIRECT)) in
  if rd 4 indirect j =? 0 then
    w ← next_block;
    wsect (xint x) (wr 4 indirect j (xint w)) ;;
    mret (xint (xint w), a)
  else mret (xint (rd 4 indirect j), a).
Definition iappend_block (a : list Z) (fbn : Z) : M image (Z * list Z) :=
  if fbn <? NDIRECT then
    x ← unwrap (a !! Z.to_nat fbn) "din.addrs";
    if xint x =? 0 then x ← next_block; mret (xint (xint x), <[Z.to_nat fbn := xint x]> a)
    else mret (xint x, a)
  else
    x ← unwrap (a !! Z.to_nat NDIRECT) "din.addrs";
    if xint x =? 0 then x ← next_block; iappend_indirect (<[Z.to_nat NDIRECT := xint x]> a) fbn
    else iappend_indirect a fbn.

Fixpoint iappend_loop (fuel : nat) (a : list Z) (off : Z) (p : list Z) : M image (list Z * Z) :=
  match fuel with
  | O => out_of_fuel
  | S fuel =>
      let n := Z.of_nat (length p) in
      if 0 <? n then
        let fbn := off / BSIZE in
        if negb (fbn <? MAXFILE) then panic "fbn < MAXFILE" else
        r ← iappend_block a fbn;
        let '(x, a) := r in
        let n1 := Z.min n ((fbn + 1) * BSIZE - off) in
        buf ← rsect x;
        wsect x (splice buf (Z.to_nat (off - fbn * BSIZE)) (take (Z.to_nat n1) p)) ;;
        iappend_loop fuel a (off + n1) (drop (Z.to_nat n1) p)
      else mret (a, off)
  end.
Definition iappend (inum : Z) (p : list Z) : M image unit :=
  din ← rinode inum;
  let off := xint (di_size din) in
  r ← iappend_loop (S (length p)) (di_addrs din) off p;
  winode inum (mk_dinode (di_type din) (di_major din) (di_minor din) (di_nlink din) (xint r.2) r.1).

(** [bzero(&de, sizeof(de)); de.inum = xshort(inum); strncpy(de.name, name, DIRSIZ);
    iappend(dir, &de, sizeof(de))]; for a short name [strcpy] stores the same. *)
Definition add_entry (dir inum : Z) (name : list Z) : M image unit :=
  nm ← unwrap (strncpy name (Z.to_nat DIRSIZ)) "strncpy";
  iappend dir (enc_dirent (mk_dirent (xshort inum) nm)).

Notation name_dot := [46; 0] (only parsing).
Notation name_dotdot := [46; 46; 0] (only parsing).
Notation name_mnt := [109; 110; 116; 0] (only parsing).

(** [if(argv[i][0] == '_') ++argv[i]] *)
Definition skip_underscore (name : list Z) : list Z :=
  match name with c :: rest => if c =? 95 then rest else name | [] => name end.

Definition add_file (rootino : Z) (f : list Z * list (list Z)) : M image unit :=
  (if decide (47 ∈ cstr f.1) then panic "index(argv[i], '/') == 0" else mret tt) ;;
  inum ← ialloc T_FILE;
  add_entry rootino inum (skip_underscore f.1) ;;
  forM f.2 (fun buf => iappend inum buf).

Definition main (files : list (list Z * list (list Z))) : M image unit :=
  modify (set_im_freeblock nmeta) ;;
  forM (seqZ 0 FSSIZE) (fun i => wsect i zero_block) ;;
  wsect 1 (splice zero_block 0 (enc_superblock mkfs_sb)) ;;
  rootino ← ialloc T_DIR;
  (if rootino =? ROOTINO then mret tt else panic "rootino == ROOTINO") ;;
  add_entry rootino rootino name_dot ;;
  add_entry rootino rootino name_dotdot ;;
  mnt_inode ← ialloc T_DIR;
  add_entry rootino mnt_inode name_mnt ;;
  add_entry mnt_inode mnt_inode name_dot ;;
  add_entry mnt_inode rootino name_dotdot ;;
  forM files (add_file rootino) ;;
  din ← rinode rootino;
  let off := (xint (di_size din) / BSIZE + 1) * BSIZE in
  winode rootino (mk_dinode (di_type din) (di_major din) (di_minor din) (di_nlink din) (xint off) (di_addrs din)) ;;
  freeblock ← gets im_freeblock;
  balloc freeblock.
End Img.

(** The image file is created empty. *)
Definition new_image : image := mk_image [] 1 0.
