(* ===== verification/MkfsSpec.v ===== *)
(** * The image that mkfs builds

  Invariant of the image while mkfs fills it ([img]): the files so far, with
  their inodes, their blocks and their bytes; and the theorem that the result
  is a file system as the kernel's theorems assume it. *)
From S2P Require Import Prelude Params Layout CString KState Driver Dll Bio Cache Log LogCrash FsBase FsAlloc Inode Ext2 Vfs Content FileIO Dir Paths Directory Mkfs.

(** ** A file of the image

    [mf_al] is the number of its blocks, [mf_hi] whether it has an indirect
    block. *)
Record mfile := mk_mfile {
  mf_type : Z;
  mf_addrs : list Z;
  mf_bytes : list Z;
  mf_al : Z;
  mf_hi : bool
}.
Definition cost (f : mfile) : Z := mf_al f + Z.b2z (mf_hi f).
Definition flen (f : mfile) : Z := Z.of_nat (length (mf_bytes f)).

Record mfile_ok (V : blk -> list Z) (fb : Z) (f : mfile) : Prop := {
  mo_len : length (mf_addrs f) = Z.to_nat (NDIRECT + 1);
  mo_al : 0 <= mf_al f <= MAXFILE;
  mo_own : forall b, in_file V (mf_addrs f) b -> nmeta <= b < fb;
  mo_inj : forall bn bn', 0 <= bn < MAXFILE -> 0 <= bn' < MAXFILE ->
    fblock V (mf_addrs f) bn <> 0 -> fblock V (mf_addrs f) bn = fblock V (mf_addrs f) bn' -> bn = bn';
  mo_ind : forall bn, 0 <= bn < MAXFILE -> fblock V (mf_addrs f) bn <> 0 -> fblock V (mf_addrs f) bn <> ind (mf_addrs f);
  mo_alloc : forall bn, 0 <= bn < MAXFILE -> fblock V (mf_addrs f) bn <> 0 <-> bn < mf_al f;
  mo_hi : ind (mf_addrs f) <> 0 <-> mf_hi f = true;
  mo_bytes : forall o, 0 <= o < MAXFILE * BSIZE -> fbyte V (mf_addrs f) o = default 0 (mf_bytes f !! Z.to_nat o)
}.

Lemma fblock_in_file V a bn : 0 <= bn < MAXFILE -> fblock V a bn <> 0 -> in_file V a (fblock V a bn).
Proof. intros Hb H0. split; [done|]. right. by exists bn. Qed.
Lemma ind_in_file V a : ind a <> 0 -> in_file V a (ind a).
Proof. intros H0. split; [done|by left]. Qed.

(** Blocks of other files do not matter. *)
Lemma fblock_frame V V' a : (forall b, in_file V a b -> V' (ROOTDEV, b) = V (ROOTDEV, b)) ->
  forall bn, fblock V' a bn = fblock V a bn.
Proof.
  intros H bn. unfold fblock. destruct (bn <? NDIRECT); [done|]. destruct (Z.eqb_spec (ind a) 0); [done|]. by rewrite H by (by apply ind_in_file).
Qed.
Lemma img_in_file_ext V V' a b : (forall bn, fblock V' a bn = fblock V a bn) -> in_file V' a b <-> in_file V a b.
Proof. intros H. unfold in_file. split; intros [H0 [?|(bn & Hb & E)]]; split; try done; [by left|right|by left|right]; exists bn; by rewrite ?H in *. Qed.
Lemma fbyte_frame V V' a o : (forall b, in_file V a b -> V' (ROOTDEV, b) = V (ROOTDEV, b)) -> 0 <= o < MAXFILE * BSIZE ->
  fbyte V' a o = fbyte V a o.
Proof.
  intros H Ho. unfold fbyte. rewrite (fblock_frame V V' a H). destruct (Z.eqb_spec (fblock V a (o / BSIZE)) 0); [done|].
  rewrite H; [done|]. apply fblock_in_file; [|done]. apply div_max; lia.
Qed.
Lemma mfile_ok_frame V V' fb fb' f : mfile_ok V fb f -> fb <= fb' -> (forall b, in_file V (mf_addrs f) b -> V' (ROOTDEV, b) = V (ROOTDEV, b)) ->
  mfile_ok V' fb' f.
Proof.
  intros O Hfb H. pose proof (fblock_frame V V' (mf_addrs f) H) as E. destruct O as [? ? Own ? ? ? ? By].
  split; try done.
  - intros b Hb. apply (img_in_file_ext V V') in Hb; [|done]. apply Own in Hb. lia.
  - intros bn bn'. rewrite !E. auto.
  - intros bn. rewrite !E. auto.
  - intros bn. rewrite E. auto.
  - intros o Ho. rewrite <- By by done. by apply fbyte_frame.
Qed.

(** *** Giving the file blocks *)
Section grow.
Context (V : blk -> list Z) (fb : Z) (f : mfile) (O : mfile_ok V fb f) (Hfb : nmeta <= fb < FSSIZE) (Hz : V (ROOTDEV, fb) = zero_block).
Notation a := (mf_addrs f).
Lemma fresh_not_in b : in_file V a b -> b <> fb.
Proof using O. intros Hb. apply (mo_own _ _ _ O) in Hb. lia. Qed.
Lemma fresh_nonzero : fb <> 0.
Proof using Hfb. change nmeta with 40 in Hfb. lia. Qed.

(** An indirect block. *)
Definition add_ind : mfile := mk_mfile (mf_type f) (<[Z.to_nat NDIRECT := fb]> a) (mf_bytes f) (mf_al f) true.
Lemma add_ind_addr k : 0 <= k -> addr_at (mf_addrs add_ind) k = if k =? NDIRECT then fb else addr_at a k.
Proof using O. intros Hk. apply addr_at_insert; [rewrite (mo_len _ _ _ O)|..]; klia. Qed.
Lemma add_ind_fblock bn : 0 <= bn < MAXFILE -> mf_hi f = false -> fblock V (mf_addrs add_ind) bn = fblock V a bn.
Proof using All.
  intros Hb Hh. assert (ind a = 0) as Hi by (destruct (decide (ind a = 0)) as [|Hn]; [done|]; apply (mo_hi _ _ _ O) in Hn; congruence).
  unfold fblock. destruct (Z.ltb_spec bn NDIRECT).
  - rewrite add_ind_addr by lia. by destruct (Z.eqb_spec bn NDIRECT); [lia|].
  - rewrite Hi. unfold ind. rewrite add_ind_addr by klia. rewrite Z.eqb_refl. destruct (Z.eqb_spec fb 0); [done|]. simpl. rewrite Hz. apply word_zero.
Qed.
Lemma add_ind_in b : mf_hi f = false -> in_file V (mf_addrs add_ind) b -> in_file V a b \/ b = fb.
Proof using All.
  intros Hh [H0 [->|(bn & Hb & ->)]].
  - right. unfold ind. by rewrite add_ind_addr by klia.
  - left. rewrite add_ind_fblock in * by done. by apply fblock_in_file.
Qed.
Lemma add_ind_ok : mf_hi f = false -> mfile_ok V (fb + 1) add_ind.
Proof using All.
  intros Hh. pose proof fresh_nonzero. assert (ind (mf_addrs add_ind) = fb) as Ei by (unfold ind; by rewrite add_ind_addr by klia).
  split.
  - simpl. rewrite length_insert. apply O.
  - apply O.
  - intros b [Hb| ->]%add_ind_in; [apply (mo_own _ _ _ O) in Hb; lia|lia|done].
  - intros bn bn' H1 H2. rewrite !add_ind_fblock by done. by apply (mo_inj _ _ _ O).
  - intros bn H1. rewrite add_ind_fblock, Ei by done. intros H0. by apply fresh_not_in, fblock_in_file.
  - intros bn H1. rewrite add_ind_fblock by done. by apply (mo_alloc _ _ _ O).
  - rewrite Ei. by split.
  - intros o Ho. unfold fbyte. rewrite add_ind_fblock by (done || (apply div_max; lia)). by apply (mo_bytes _ _ _ O).
Qed.

(** The next data block, in the inode or in the indirect block. *)
Definition add_data (a' : list Z) : mfile := mk_mfile (mf_type f) a' (mf_bytes f) (mf_al f + 1) (mf_hi f).
Section data.
Context (V' : blk -> list Z) (a' : list Z) (Hal : mf_al f < MAXFILE) (Hla : length a' = Z.to_nat (NDIRECT + 1)).
Context (Hf : forall bn, 0 <= bn < MAXFILE -> fblock V' a' bn = if bn =? mf_al f then fb else fblock V a bn).
Context (Hi : ind a' = ind a) (HV : forall b, b <> ind a -> V' (ROOTDEV, b) = V (ROOTDEV, b)).

Lemma add_data_in b : in_file V' a' b -> in_file V a b \/ b = fb.
Proof using Hf Hi.
  intros [H0 [->|(bn & Hb & ->)]].
  - left. rewrite Hi in *. by apply ind_in_file.
  - rewrite Hf in * by done. destruct (Z.eqb_spec bn (mf_al f)); [by right|]. left. by apply fblock_in_file.
Qed.
Lemma add_data_ok : mfile_ok V' (fb + 1) (add_data a').
Proof using All.
  pose proof fresh_nonzero as Hz0. pose proof (mo_al _ _ _ O) as Hr.
  assert (fblock V a (mf_al f) = 0) as H0.
  { destruct (decide (fblock V a (mf_al f) = 0)) as [|Hn]; [done|]. apply (mo_alloc _ _ _ O) in Hn; lia. }
  split; simpl.
  - done.
  - lia.
  - intros b [Hb| ->]%add_data_in; [apply (mo_own _ _ _ O) in Hb; lia|lia].
  - intros bn bn' H1 H2. rewrite !Hf by done. destruct (Z.eqb_spec bn (mf_al f)) as [->|N1], (Z.eqb_spec bn' (mf_al f)) as [->|N2]; [done|..].
    + intros _ E. exfalso. apply (fresh_not_in (fblock V a bn')); [|done]. apply fblock_in_file; [done|congruence].
    + intros Hn E. exfalso. apply (fresh_not_in (fblock V a bn)); [|done]. by apply fblock_in_file.
    + by apply (mo_inj _ _ _ O).
  - intros bn H1. rewrite Hf, Hi by done. destruct (Z.eqb_spec bn (mf_al f)) as [->|N1]; [|by apply (mo_ind _ _ _ O)].
    intros _ E. apply (fresh_not_in (ind a)); [|done]. apply ind_in_file. congruence.
  - intros bn H1. rewrite Hf by done. destruct (Z.eqb_spec bn (mf_al f)) as [->|N1]; [split; [lia|done]|]. rewrite (mo_alloc _ _ _ O) by done. lia.
  - rewrite Hi. apply O.
  - intros o Ho. rewrite <- (mo_bytes _ _ _ O) by done. pose proof (div_max o Ho) as Hb. unfold fbyte. rewrite Hf by done.
    destruct (Z.eqb_spec (o / BSIZE) (mf_al f)) as [->|N1].
    + rewrite H0. destruct (Z.eqb_spec fb 0); [done|]. simpl. rewrite HV, Hz.
      * unfold zero_block. destruct (replicate _ 0 !! _) eqn:E; [|done]. by apply lookup_replicate in E as [-> _].
      * intros E. apply (fresh_not_in (ind a)); [|done]. apply ind_in_file. congruence.
    + destruct (Z.eqb_spec (fblock V a (o / BSIZE)) 0) as [|Hn]; [done|]. rewrite HV; [done|]. by apply (mo_ind _ _ _ O).
Qed.
End data.
End grow.

(** *** Storing bytes at the end of the file *)
Section store.
Context (V V' : blk -> list Z) (fb : Z) (f : mfile) (O : mfile_ok V fb f) (q : list Z).
Notation a := (mf_addrs f).
Notation bn := (flen f / BSIZE).
Notation x := (fblock V a bn).
Context (Hal : bn < mf_al f) (Hlen : length (V (ROOTDEV, x)) = Z.to_nat BSIZE).
Context (Hq : flen f mod BSIZE + Z.of_nat (length q) <= BSIZE) (Hmax : flen f < MAXFILE * BSIZE).
Context (HV : forall b, V' (ROOTDEV, b) = if b =? x then splice (V (ROOTDEV, x)) (Z.to_nat (flen f mod BSIZE)) q else V (ROOTDEV, b)).
Definition add_bytes : mfile := mk_mfile (mf_type f) a (mf_bytes f ++ q) (mf_al f) (mf_hi f).

Lemma store_range : 0 <= bn < MAXFILE /\ x <> 0 /\ x <> ind a.
Proof using All.
  assert (0 <= bn < MAXFILE) as Hb by (apply div_max; unfold flen in *; lia).
  assert (x <> 0) as H0 by (by apply (mo_alloc _ _ _ O)). split; [done|]. split; [done|]. by apply (mo_ind _ _ _ O).
Qed.
Lemma store_fblocks n : fblock V' a n = fblock V a n.
Proof using All.
  destruct store_range as (_ & _ & Hi). unfold fblock at 1. unfold fblock at 1. destruct (n <? NDIRECT); [done|].
  destruct (Z.eqb_spec (ind a) 0); [done|]. rewrite HV. by destruct (Z.eqb_spec (ind a) x); [congruence|].
Qed.
Lemma img_store_ok : mfile_ok V' fb add_bytes.
Proof using All.
  destruct store_range as (Hb & H0 & Hi). pose proof (mo_inj _ _ _ O) as Inj. destruct O as [? ? Own ? ? ? ? By]. split; simpl; try done.
  - intros b Hin. apply Own. by apply (img_in_file_ext V V') in Hin; [|apply store_fblocks].
  - intros n n'. rewrite !store_fblocks. auto.
  - intros n. rewrite !store_fblocks. auto.
  - intros n. rewrite store_fblocks. auto.
  - intros o Ho. specialize (By o Ho). unfold fbyte in By |- *. rewrite store_fblocks. pose proof (div_max o Ho) as Hob.
    pose proof (Z.div_mod o BSIZE ltac:(klia)) as D1. pose proof (Z.div_mod (flen f) BSIZE ltac:(klia)) as D2.
    pose proof (Z.mod_pos_bound o BSIZE ltac:(klia)) as M1. pose proof (Z.mod_pos_bound (flen f) BSIZE ltac:(klia)) as M2.
    destruct (decide (o / BSIZE = bn)) as [Eb|Nb].
    + rewrite Eb in *. destruct (Z.eqb_spec x 0); [done|]. rewrite HV, Z.eqb_refl. rewrite splice_lookup by (rewrite Hlen; klia).
      case_decide as Hd.
      * rewrite lookup_app_r by (unfold flen in *; lia). f_equal. f_equal. unfold flen in *. lia.
      * rewrite By. destruct (decide (o < flen f)); [by rewrite lookup_app_l by (unfold flen in *; lia)|].
        rewrite !lookup_ge_None_2; [done|rewrite length_app|]; unfold flen in *; lia.
    + assert (o < flen f \/ flen f + Z.of_nat (length q) <= o) as Hor.
      { assert (o / BSIZE < bn \/ bn < o / BSIZE) as [?|?] by lia; [left|right]; nia. }
      transitivity (default 0 (mf_bytes f !! Z.to_nat o)).
      * rewrite <- By. destruct (Z.eqb_spec (fblock V a (o / BSIZE)) 0) as [|Hn]; [done|]. rewrite HV.
        destruct (Z.eqb_spec (fblock V a (o / BSIZE)) x) as [E|]; [|done]. exfalso. apply Nb. by apply Inj.
      * destruct Hor; [by rewrite lookup_app_l by (unfold flen in *; lia)|].
        rewrite !lookup_ge_None_2; [done|rewrite length_app|]; unfold flen in *; lia.
Qed.
End store.

(** ** The image *)
Definition iview (s : image) : blk -> list Z := fun k =>
  if k.2 <? 0 then zero_block else default zero_block (im_blocks s !! Z.to_nat k.2).
Definition dinode_at (V : blk -> list Z) (inum : Z) : dinode := get_dinode (V (ROOTDEV, IBLOCK inum mkfs_sb)) inum.
Definition file_dinode (f : mfile) : dinode := mk_dinode (mf_type f) 0 0 1 (flen f) (mf_addrs f).
Definition zero_dinode : dinode := mk_dinode 0 0 0 0 0 (replicate (Z.to_nat (NDIRECT + 1)) 0).
Definition sb_block : list Z := splice zero_block 0 (enc_superblock mkfs_sb).
Definition meta_block (b : Z) : list Z := if b =? 1 then sb_block else zero_block.

(** The blocks a file of [n] bytes takes. *)
Definition nblk (n : Z) : Z := (n + BSIZE - 1) / BSIZE.
Definition tight (f : mfile) : Prop := mf_al f = nblk (flen f) /\ mf_hi f = (NDIRECT <? mf_al f).
Definition total (F : list mfile) : Z := foldr (fun f n => cost f + n) 0 F.

(** The image with the files [F], inode [k + 1] being file [k]; the inode of
    the file [hole] is not yet written back. *)
Record img (hole : option nat) (s : image) (F : list mfile) : Prop := {
  ig_len : length (im_blocks s) = Z.to_nat FSSIZE;
  ig_blk : forall b, length (iview s (ROOTDEV, b)) = Z.to_nat BSIZE;
  ig_fi : im_freeinode s = 1 + Z.of_nat (length F);
  ig_num : 1 + Z.of_nat (length F) <= NINODES;
  ig_fb : im_freeblock s = nmeta + total F;
  ig_max : nmeta <= im_freeblock s <= FSSIZE;
  ig_zero : forall b, im_freeblock s <= b < FSSIZE -> iview s (ROOTDEV, b) = zero_block;
  ig_meta : forall b, 0 <= b < sb_inodestart mkfs_sb \/ b = sb_bmapstart mkfs_sb -> iview s (ROOTDEV, b) = meta_block b;
  ig_ino : forall j f, F !! j = Some f -> hole <> Some j -> dinode_at (iview s) (1 + Z.of_nat j) = file_dinode f;
  ig_free : forall inum, inum = 0 \/ 1 + Z.of_nat (length F) <= inum < NINODES -> dinode_at (iview s) inum = zero_dinode;
  ig_tight : forall j f, F !! j = Some f -> hole <> Some j -> tight f;
  ig_type : forall j f, F !! j = Some f -> fits_short (mf_type f);
  ig_file : forall j f, F !! j = Some f -> mfile_ok (iview s) (im_freeblock s) f;
  ig_disj : forall j j' f f' b, j <> j' -> F !! j = Some f -> F !! j' = Some f' ->
    in_file (iview s) (mf_addrs f) b -> ~ in_file (iview s) (mf_addrs f') b
}.

Lemma iblock_range inum : 0 <= inum < NINODES -> 32 <= IBLOCK inum mkfs_sb <= 38.
Proof.
  change NINODES with 200. intros Hi. unfold IBLOCK. change (sb_inodestart mkfs_sb) with 32. change IPB with 32.
  assert (0 <= inum / 32 < 7) by (split; [apply Z.div_pos; lia|apply Z.div_lt_upper_bound; lia]). rewrite u32_small; lia.
Qed.
Lemma total_insert F k f f' : F !! k = Some f -> total (<[k := f']> F) = total F + cost f' - cost f.
Proof.
  revert k. induction F as [|g F IH]; intros [|k] H; simplify_eq/=; [lia|]. rewrite (IH k) by done. lia.
Qed.

(** A step that gives file [k] blocks and contents. *)
Lemma img_step s F k f s' f' :
  img (Some k) s F -> F !! k = Some f -> mfile_ok (iview s') (im_freeblock s') f' ->
  (forall b, in_file (iview s') (mf_addrs f') b -> in_file (iview s) (mf_addrs f) b \/ im_freeblock s <= b < im_freeblock s') ->
  (forall b, ~ in_file (iview s') (mf_addrs f') b -> iview s' (ROOTDEV, b) = iview s (ROOTDEV, b)) ->
  (forall b, length (iview s' (ROOTDEV, b)) = Z.to_nat BSIZE) ->
  length (im_blocks s') = Z.to_nat FSSIZE -> im_freeinode s' = im_freeinode s ->
  im_freeblock s' = im_freeblock s + cost f' - cost f -> im_freeblock s <= im_freeblock s' <= FSSIZE ->
  mf_type f' = mf_type f -> img (Some k) s' (<[k := f']> F).
Proof.
  intros G Hk O' Hin HV Hl Hlen Hfi Hfb Hr Hty. pose proof (ig_max _ _ _ G) as Hmax.
  assert (forall b, b < nmeta \/ im_freeblock s' <= b -> iview s' (ROOTDEV, b) = iview s (ROOTDEV, b)) as Hout.
  { intros b Hb. apply HV. intros Hf. apply (mo_own _ _ _ O') in Hf. lia. }
  assert (forall j g, j <> k -> F !! j = Some g -> forall b, in_file (iview s) (mf_addrs g) b -> iview s' (ROOTDEV, b) = iview s (ROOTDEV, b)) as Hoth.
  { intros j g Hj Hg b Hb. apply HV. intros [Hf|Hf]%Hin; [by apply (ig_disj _ _ _ G k j f g b)|].
    apply (mo_own _ _ _ (ig_file _ _ _ G j g Hg)) in Hb. lia. }
  assert (forall inum, 0 <= inum < NINODES -> dinode_at (iview s') inum = dinode_at (iview s) inum) as Hd.
  { intros inum Hi. unfold dinode_at. rewrite Hout; [done|]. pose proof (iblock_range inum Hi). change nmeta with 40. lia. }
  assert (forall j g, <[k := f']> F !! j = Some g -> j = k /\ g = f' \/ j <> k /\ F !! j = Some g) as Hcase.
  { intros j g Hg. destruct (decide (j = k)) as [->|Hj]; [left|right; by rewrite list_lookup_insert_ne in Hg].
    rewrite list_lookup_insert_eq in Hg by (by eapply lookup_lt_Some). by simplify_eq. }
  assert (forall j g, j <> k -> F !! j = Some g -> forall b, in_file (iview s') (mf_addrs g) b <-> in_file (iview s) (mf_addrs g) b) as Hiff.
  { intros j g Hj Hg b. apply img_in_file_ext, fblock_frame. by apply (Hoth j). }
  split; rewrite ?length_insert; try done.
  - rewrite Hfi. apply G.
  - apply G.
  - rewrite (total_insert _ _ f) by done. pose proof (ig_fb _ _ _ G). lia.
  - lia.
  - intros b Hb. rewrite Hout by lia. apply G. lia.
  - intros b Hb. rewrite Hout; [by apply (ig_meta _ _ _ G)|]. change (sb_inodestart mkfs_sb) with 32 in Hb. change (sb_bmapstart mkfs_sb) with 39 in Hb. change nmeta with 40. lia.
  - intros j g [[-> _]|[Hj Hg]]%Hcase Hh; [done|]. rewrite Hd; [by apply (ig_ino _ _ _ G)|]. apply lookup_lt_Some in Hg. pose proof (ig_num _ _ _ G). lia.
  - intros inum Hi. rewrite Hd; [by apply (ig_free _ _ _ G)|]. change NINODES with 200 in *. lia.
  - intros j g [[-> _]|[Hj Hg]]%Hcase Hh; [done|]. by apply (ig_tight _ _ _ G j).
  - intros j g [[-> ->]|[Hj Hg]]%Hcase; [rewrite Hty; by apply (ig_type _ _ _ G k)|by apply (ig_type _ _ _ G j)].
  - intros j g [[-> ->]|[Hj Hg]]%Hcase; [done|]. eapply mfile_ok_frame; [by apply (ig_file _ _ _ G j)|lia|by apply (Hoth j)].
  - intros j j' g g' b Hne [[-> ->]|[Hj Hg]]%Hcase [[-> ->]|[Hj' Hg']]%Hcase; [done|..].
    + rewrite (Hiff j' g') by done. intros [Hf|Hf]%Hin; [by apply (ig_disj _ _ _ G k j' f g')|].
      intros Hb. apply (mo_own _ _ _ (ig_file _ _ _ G j' g' Hg')) in Hb. lia.
    + rewrite (Hiff j g) by done. intros Hb [Hf|Hf]%Hin; [by apply (ig_disj _ _ _ G j k g f b)|].
      apply (mo_own _ _ _ (ig_file _ _ _ G j g Hg)) in Hb. lia.
    + rewrite (Hiff j g), (Hiff j' g') by done. by apply (ig_disj _ _ _ G j j').
Qed.

(** *** Sectors *)
Lemma sect_small b : 0 <= b < FSSIZE -> Img.sect b = Z.to_nat b.
Proof. intros Hb. unfold Img.sect. rewrite u32_small by klia. by rewrite Z.div_mul by klia. Qed.
Lemma rsect_run s b : length (im_blocks s) = Z.to_nat FSSIZE -> 0 <= b < FSSIZE -> Img.rsect b s = Ret (iview s (ROOTDEV, b)) s.
Proof.
  intros Hl Hb. unfold Img.rsect. run_steps. rewrite sect_small by done. unfold iview. simpl. destruct (Z.ltb_spec b 0); [lia|].
  destruct (lookup_lt_is_Some_2 (im_blocks s) (Z.to_nat b)) as [d ->]; [lia|done].
Qed.
Definition written_sect (b : Z) (d : list Z) (s : image) : image := set_im_blocks (<[Z.to_nat b := d]> (im_blocks s)) s.
Lemma wsect_run s b d : length (im_blocks s) = Z.to_nat FSSIZE -> 0 <= b < FSSIZE -> Img.wsect b d s = Ret tt (written_sect b d s).
Proof.
  intros Hl Hb. unfold Img.wsect, modify, Img.put_sect, written_sect. rewrite sect_small by done.
  replace (S (Z.to_nat b) - length (im_blocks s))%nat with 0%nat by lia. by rewrite app_nil_r.
Qed.
Lemma written_view s b d b' : length (im_blocks s) = Z.to_nat FSSIZE -> 0 <= b < FSSIZE ->
  iview (written_sect b d s) (ROOTDEV, b') = if b' =? b then d else iview s (ROOTDEV, b').
Proof.
  intros Hl Hb. unfold iview, written_sect. simpl. destruct (Z.eqb_spec b' b) as [->|Hne].
  - destruct (Z.ltb_spec b 0); [lia|]. by rewrite list_lookup_insert_eq by lia.
  - destruct (Z.ltb_spec b' 0); [done|]. by rewrite list_lookup_insert_ne by lia.
Qed.

Lemma xint_small x : 0 <= x < 2 ^ 32 -> xint x = x.
Proof.
  intros Hx. transitivity (le_dec (le_enc 4 x)); [|rewrite le_dec_enc; by apply Z.mod_small].
  unfold xint. change (le_enc 4 x) with [x mod 256; x / 256 mod 256; x / 256 / 256 mod 256; x / 256 / 256 / 256 mod 256].
  by rewrite !Z.shiftr_div_pow2, !Z.div_div by lia.
Qed.
Lemma xshort_small x : 0 <= x < 2 ^ 16 -> xshort x = x.
Proof.
  intros Hx. transitivity (le_dec (le_enc 2 x)); [|rewrite le_dec_enc; by apply Z.mod_small].
  unfold xshort. change (le_enc 2 x) with [x mod 256; x / 256 mod 256]. by rewrite Z.shiftr_div_pow2 by lia.
Qed.

(** *** Blocks for file [k] *)
Section block.
Context (s : image) (F : list mfile) (k : nat) (f : mfile) (G : img (Some k) s F) (Hk : F !! k = Some f).
Notation a := (mf_addrs f).
Notation fb := (im_freeblock s).
Notation V := (iview s).

Lemma blk_file : mfile_ok V fb f.
Proof using G Hk. by apply (ig_file _ _ _ G k). Qed.
Lemma blk_range b : in_file V a b -> nmeta <= b < FSSIZE.
Proof using G Hk. intros Hb. apply (mo_own _ _ _ blk_file) in Hb. pose proof (ig_max _ _ _ G). lia. Qed.
Lemma next_block_run : fb < FSSIZE -> Img.next_block s = Ret fb (set_im_freeblock (fb + 1) s).
Proof using G.
  intros Hf. unfold Img.next_block. run_steps. pose proof (ig_max _ _ _ G). change nmeta with 40 in *. by rewrite u32_small by klia.
Qed.

Lemma step_ind : fb < FSSIZE -> mf_hi f = false -> img (Some k) (set_im_freeblock (fb + 1) s) (<[k := add_ind fb f]> F).
Proof using G Hk.
  intros Hf Hh. pose proof (ig_max _ _ _ G). assert (nmeta <= fb < FSSIZE) as Hr by lia. assert (V (ROOTDEV, fb) = zero_block) as Hz by (apply G; lia).
  apply (img_step s F k f); try done; try apply G; simpl im_freeblock.
  - by apply (add_ind_ok V fb f blk_file Hr Hz).
  - intros b Hb. apply (add_ind_in V fb f blk_file Hr Hz b Hh) in Hb as [?| ->]; [by left|right; lia].
  - unfold cost. simpl. rewrite Hh. simpl. lia.
  - lia.
Qed.

Lemma step_direct : fb < FSSIZE -> mf_al f < NDIRECT ->
  img (Some k) (set_im_freeblock (fb + 1) s) (<[k := add_data f (<[Z.to_nat (mf_al f) := fb]> a)]> F).
Proof using G Hk.
  intros Hf Hal. pose proof (ig_max _ _ _ G). assert (nmeta <= fb < FSSIZE) as Hr by lia. assert (V (ROOTDEV, fb) = zero_block) as Hz by (apply G; lia).
  pose proof (mo_al _ _ _ blk_file) as Ha. pose proof (mo_len _ _ _ blk_file) as Hl.
  assert (forall n, 0 <= n -> addr_at (<[Z.to_nat (mf_al f) := fb]> a) n = if n =? mf_al f then fb else addr_at a n) as Hat
    by (intros n Hn; apply addr_at_insert; [rewrite Hl|..]; klia).
  assert (ind (<[Z.to_nat (mf_al f) := fb]> a) = ind a) as Hi by (unfold ind; rewrite Hat by klia; by destruct (Z.eqb_spec NDIRECT (mf_al f)); [lia|]).
  assert (forall n, 0 <= n < MAXFILE -> fblock V (<[Z.to_nat (mf_al f) := fb]> a) n = if n =? mf_al f then fb else fblock V a n) as Hfb.
  { intros n Hn. unfold fblock. rewrite Hi, Hat by lia. destruct (Z.ltb_spec n NDIRECT); [done|]. by destruct (Z.eqb_spec n (mf_al f)); [lia|]. }
  apply (img_step s F k f); try done; try apply G; simpl im_freeblock.
  - apply (add_data_ok V fb f blk_file Hr Hz V); try done; [klia|]. by rewrite length_insert.
  - intros b Hb. apply (add_data_in V fb f V) in Hb as [?| ->]; [by left|right; lia|done|done].
  - unfold cost. simpl. lia.
  - lia.
Qed.

Definition indirect_put : list Z := wr 4 (V (ROOTDEV, ind a)) (Z.to_nat (4 * (mf_al f - NDIRECT))) fb.
Lemma step_indirect : fb < FSSIZE -> mf_hi f = true -> NDIRECT <= mf_al f < MAXFILE ->
  img (Some k) (written_sect (ind a) indirect_put (set_im_freeblock (fb + 1) s)) (<[k := add_data f a]> F).
Proof using G Hk.
  intros Hf Hh Hal. pose proof (ig_max _ _ _ G). assert (nmeta <= fb < FSSIZE) as Hr by lia. assert (V (ROOTDEV, fb) = zero_block) as Hz by (apply G; lia).
  assert (ind a <> 0) as Hi by (by apply (mo_hi _ _ _ blk_file)). pose proof (blk_range (ind a) (ind_in_file _ _ Hi)) as Hir.
  assert (0 <= ind a < FSSIZE) as Hir' by (change nmeta with 40 in Hir; lia). pose proof (mo_len _ _ _ blk_file) as Hl.
  assert (0 <= fb) as Hf0 by (change nmeta with 40 in Hr; lia).
  set (s' := written_sect _ _ _). assert (forall b, iview s' (ROOTDEV, b) = if b =? ind a then indirect_put else V (ROOTDEV, b)) as HV
    by (intros b; unfold s'; rewrite written_view; [done|apply G|done]).
  assert (forall n, 0 <= n < MAXFILE -> fblock (iview s') a n = if n =? mf_al f then fb else fblock V a n) as Hfb.
  { intros n Hn. unfold fblock. rewrite HV, Z.eqb_refl. destruct (Z.ltb_spec n NDIRECT); [by destruct (Z.eqb_spec n (mf_al f)); [lia|]|].
    destruct (Z.eqb_spec (ind a) 0); [done|]. unfold indirect_put. rewrite word_wr; [|apply G|klia..].
    destruct (Z.eqb_spec (n - NDIRECT) (mf_al f - NDIRECT)), (Z.eqb_spec n (mf_al f)); done || lia. }
  apply (img_step s F k f); try done; try apply G; simpl im_freeblock.
  - apply (add_data_ok V fb f blk_file Hr Hz (iview s')); try done; [lia|]. intros b Hb. rewrite HV. by destruct (Z.eqb_spec b (ind a)).
  - intros b Hb. apply (add_data_in V fb f (iview s')) in Hb as [?| ->]; [by left|right; lia|done|done].
  - intros b Hb. rewrite HV. destruct (Z.eqb_spec b (ind a)) as [->|]; [|done]. destruct Hb. by apply ind_in_file.
  - intros b. rewrite HV. destruct (Z.eqb_spec b (ind a)); [|apply G]. apply length_put_word; [apply G|klia].
  - simpl. rewrite length_insert. apply G.
  - unfold cost. simpl. lia.
  - lia.
Qed.
End block.

(** What [iappend_block] has done for block [bn] of file [k]. *)
Definition got_block (F : list mfile) (k : nat) (f : mfile) (bn : Z) (r : Z * list Z) (s' : image) : Prop :=
  exists f', r = (fblock (iview s') (mf_addrs f') bn, mf_addrs f') /\ img (Some k) s' (<[k := f']> F) /\
    mf_type f' = mf_type f /\ mf_bytes f' = mf_bytes f /\ mf_al f' = Z.max (mf_al f) (bn + 1) /\ mf_hi f' = (NDIRECT <? mf_al f').

Lemma addr_lookup (a : list Z) n : length a = Z.to_nat (NDIRECT + 1) -> 0 <= n <= NDIRECT -> a !! Z.to_nat n = Some (addr_at a n).
Proof.
  intros Hl Hn. unfold addr_at. destruct (lookup_lt_is_Some_2 a (Z.to_nat n)) as [v ->]; [klia|done].
Qed.
Lemma addr_u32 s F k f n : img (Some k) s F -> F !! k = Some f -> 0 <= n <= NDIRECT -> 0 <= addr_at (mf_addrs f) n < 2 ^ 32.
Proof.
  intros G Hk Hn. destruct (decide (addr_at (mf_addrs f) n = 0)) as [->|H0]; [lia|].
  assert (in_file (iview s) (mf_addrs f) (addr_at (mf_addrs f) n)) as Hin.
  { split; [done|]. destruct (decide (n = NDIRECT)) as [->|Hne]; [by left|right]. exists n. split; [klia|]. unfold fblock.
    by destruct (Z.ltb_spec n NDIRECT); [|lia]. }
  apply (blk_range s F k f G Hk) in Hin. change nmeta with 40 in Hin. klia.
Qed.

Lemma iappend_indirect_spec s F k f bn :
  img (Some k) s F -> F !! k = Some f -> mf_hi f = true -> NDIRECT <= bn < MAXFILE -> bn <= mf_al f -> (bn = mf_al f -> im_freeblock s < FSSIZE) ->
  wp (Img.iappend_indirect (mf_addrs f) bn) (got_block F k f bn) s.
Proof.
  intros G Hk Hh Hbn Hal Hfb. pose proof (blk_file s F k f G Hk) as O. unfold Img.iappend_indirect.
  assert (ind (mf_addrs f) <> 0) as Hi by (by apply (mo_hi _ _ _ O)).
  pose proof (blk_range s F k f G Hk _ (ind_in_file _ _ Hi)) as Hir. assert (0 <= ind (mf_addrs f) < FSSIZE) as Hir' by (change nmeta with 40 in Hir; lia).
  eapply wp_run; [by rewrite (addr_lookup _ NDIRECT) by (apply O || klia)|]. fold (ind (mf_addrs f)).
  rewrite (xint_small (ind (mf_addrs f))) by klia.
  eapply wp_run; [apply rsect_run; [apply G|done]|]. cbv zeta. fold (word (iview s (ROOTDEV, ind (mf_addrs f))) (bn - NDIRECT)).
  assert (fblock (iview s) (mf_addrs f) bn = word (iview s (ROOTDEV, ind (mf_addrs f))) (bn - NDIRECT)) as Ef.
  { unfold fblock. destruct (Z.ltb_spec bn NDIRECT); [lia|]. by destruct (Z.eqb_spec (ind (mf_addrs f)) 0). }
  rewrite <- Ef. destruct (Z.eqb_spec (fblock (iview s) (mf_addrs f) bn) 0) as [H0|H0].
  - assert (bn = mf_al f) as ->.
    { destruct (decide (bn < mf_al f)) as [Hlt|]; [|lia]. by apply (mo_alloc _ _ _ O) in Hlt; [|klia]. }
    specialize (Hfb eq_refl). pose proof (ig_max _ _ _ G) as Hm. change nmeta with 40 in Hm.
    pose proof (step_indirect s F k f G Hk Hfb Hh ltac:(lia)) as G'.
    eapply wp_run; [by apply (next_block_run s F k G)|]. rewrite !(xint_small (im_freeblock s)) by klia.
    eapply wp_run; [apply wsect_run; [apply G|done]|]. wp_step. eexists. split; [|split; [exact G'|]].
    + f_equal. simpl mf_addrs. fold (indirect_put s f). unfold fblock. destruct (Z.ltb_spec (mf_al f) NDIRECT); [lia|].
      destruct (Z.eqb_spec (ind (mf_addrs f)) 0); [done|]. rewrite written_view, Z.eqb_refl by (apply G || done).
      unfold indirect_put. rewrite word_wr, Z.eqb_refl by (apply G || klia). done.
    + split; [done|]. split; [done|]. simpl. split; [lia|]. rewrite Hh. by destruct (Z.ltb_spec NDIRECT (mf_al f + 1)); [|lia].
  - assert (bn < mf_al f) as Hlt by (by apply (mo_alloc _ _ _ O); [klia|]).
    assert (nmeta <= fblock (iview s) (mf_addrs f) bn < FSSIZE) as Hr by (apply (blk_range s F k f G Hk), fblock_in_file; [klia|done]).
    change nmeta with 40 in Hr. rewrite xint_small by klia. wp_step. exists f. rewrite list_insert_id by done.
    split; [done|]. split; [done|]. split; [done|]. split; [done|]. split; [lia|]. rewrite Hh. by destruct (Z.ltb_spec NDIRECT (mf_al f)); [|lia].
Qed.

Definition cost_of (al : Z) : Z := al + Z.b2z (NDIRECT <? al).
Lemma iappend_block_spec s F k f bn :
  img (Some k) s F -> F !! k = Some f -> mf_hi f = (NDIRECT <? mf_al f) -> 0 <= bn < MAXFILE -> bn <= mf_al f ->
  im_freeblock s + cost_of (Z.max (mf_al f) (bn + 1)) - cost f <= FSSIZE ->
  wp (Img.iappend_block (mf_addrs f) bn) (got_block F k f bn) s.
Proof.
  intros G Hk Hh Hbn Hal Hfb. pose proof (blk_file s F k f G Hk) as O. pose proof (mo_al _ _ _ O) as Ha. pose proof (mo_len _ _ _ O) as Hl.
  pose proof (ig_max _ _ _ G) as Hm. change nmeta with 40 in Hm. unfold cost_of, cost in Hfb. rewrite Hh in Hfb.
  unfold Img.iappend_block. destruct (Z.ltb_spec bn NDIRECT) as [Hlt|Hge].
  - eapply wp_run; [by rewrite (addr_lookup _ bn) by (done || klia)|]. rewrite xint_small by (apply (addr_u32 s F k f bn G Hk); lia).
    assert (fblock (iview s) (mf_addrs f) bn = addr_at (mf_addrs f) bn) as Ef by (unfold fblock; by destruct (Z.ltb_spec bn NDIRECT); [|lia]).
    rewrite <- Ef. destruct (Z.eqb_spec (fblock (iview s) (mf_addrs f) bn) 0) as [H0|H0].
    + assert (bn = mf_al f) as ->.
      { destruct (decide (bn < mf_al f)) as [Hlt'|]; [|lia]. by apply (mo_alloc _ _ _ O) in Hlt'; [|klia]. }
      assert (im_freeblock s < FSSIZE) as Hf.
      { destruct (Z.ltb_spec NDIRECT (mf_al f)), (Z.ltb_spec NDIRECT (Z.max (mf_al f) (mf_al f + 1))); simpl in Hfb; lia. }
      eapply wp_run; [by apply (next_block_run s F k G)|]. rewrite !(xint_small (im_freeblock s)) by klia. wp_step.
      eexists. split; [|split; [apply (step_direct s F k f G Hk Hf Hlt)|]].
      * simpl. f_equal. unfold fblock. destruct (Z.ltb_spec (mf_al f) NDIRECT); [|lia]. rewrite addr_at_insert by (lia || (rewrite Hl; klia)). by rewrite Z.eqb_refl.
      * split; [done|]. split; [done|]. simpl. split; [lia|]. rewrite Hh.
        destruct (Z.ltb_spec NDIRECT (mf_al f)), (Z.ltb_spec NDIRECT (mf_al f + 1)); done || lia.
    + assert (bn < mf_al f) as Hlt' by (by apply (mo_alloc _ _ _ O); [klia|]). wp_step. exists f. rewrite list_insert_id by done.
      split; [done|]. split; [done|]. split; [done|]. split; [done|]. split; [lia|done].
  - eapply wp_run; [by rewrite (addr_lookup _ NDIRECT) by (done || klia)|]. rewrite xint_small by (apply (addr_u32 s F k f NDIRECT G Hk); klia).
    fold (ind (mf_addrs f)). destruct (Z.eqb_spec (ind (mf_addrs f)) 0) as [H0|H0].
    + assert (mf_hi f = false) as Hh0 by (apply not_true_iff_false; intros E; by apply (mo_hi _ _ _ O) in E).
      rewrite Hh0 in Hh. destruct (Z.ltb_spec NDIRECT (mf_al f)) as [|Hle]; [done|]. assert (bn = mf_al f) as -> by lia.
      destruct (Z.ltb_spec NDIRECT (Z.max (mf_al f) (mf_al f + 1))); [|lia]. simpl in Hfb.
      eapply wp_run; [apply (next_block_run s F k G); lia|]. rewrite !(xint_small (im_freeblock s)) by klia.
      pose proof (step_ind s F k f G Hk ltac:(lia) Hh0) as G1. set (s1 := set_im_freeblock _ s) in *.
      eapply wp_mono; [apply (iappend_indirect_spec s1 (<[k := add_ind (im_freeblock s) f]> F) k (add_ind (im_freeblock s) f) (mf_al f)); try done; simpl; try lia|].
      * rewrite list_lookup_insert_eq; [done|]. by eapply lookup_lt_Some.
      * intros r s2 (f' & -> & G2 & Et & Eb & Ea & Eh). exists f'. rewrite list_insert_insert_eq in G2. done.
    + eapply iappend_indirect_spec; try done; try lia.
      * by apply (mo_hi _ _ _ O).
      * intros ->. destruct (Z.ltb_spec NDIRECT (mf_al f)), (Z.ltb_spec NDIRECT (Z.max (mf_al f) (mf_al f + 1))); simpl in Hfb; lia.
Qed.

Lemma step_store s F k f q :
  img (Some k) s F -> F !! k = Some f -> flen f / BSIZE < mf_al f -> flen f mod BSIZE + Z.of_nat (length q) <= BSIZE -> flen f < MAXFILE * BSIZE ->
  let x := fblock (iview s) (mf_addrs f) (flen f / BSIZE) in
  40 <= x < FSSIZE /\
  img (Some k) (written_sect x (splice (iview s (ROOTDEV, x)) (Z.to_nat (flen f mod BSIZE)) q) s) (<[k := add_bytes f q]> F).
Proof.
  intros G Hk Hal Hq Hmax x. pose proof (blk_file s F k f G Hk) as O.
  assert (0 <= flen f / BSIZE < MAXFILE) as Hb by (apply div_max; unfold flen in *; lia).
  assert (x <> 0) as H0 by (by apply (mo_alloc _ _ _ O)).
  pose proof (blk_range s F k f G Hk x (fblock_in_file _ _ _ Hb H0)) as Hx. change nmeta with 40 in Hx. split; [done|].
  pose proof (Z.mod_pos_bound (flen f) BSIZE ltac:(klia)) as Hm.
  set (s' := written_sect _ _ s). assert (forall b, iview s' (ROOTDEV, b) = if b =? x then _ else iview s (ROOTDEV, b)) as HV
    by (intros b; apply written_view; [apply G|lia]).
  assert (length (iview s (ROOTDEV, x)) = Z.to_nat BSIZE) as Hl by apply G.
  pose proof (store_fblocks (iview s) (iview s') (im_freeblock s) f O q Hal Hl Hq Hmax HV) as Hfb.
  apply (img_step s F k f); try done; try apply G; simpl im_freeblock; simpl mf_addrs.
  - by apply (img_store_ok (iview s)).
  - intros b Hin. left. by apply (img_in_file_ext (iview s) (iview s')) in Hin.
  - intros b Hin. rewrite HV. destruct (Z.eqb_spec b x) as [->|]; [|done]. destruct Hin. apply (img_in_file_ext (iview s)); [done|]. by apply fblock_in_file.
  - intros b. rewrite HV. destruct (Z.eqb_spec b x); [|apply G]. rewrite length_splice; [done|]. klia.
  - simpl. rewrite length_insert. apply G.
  - unfold cost. simpl. lia.
  - pose proof (ig_max _ _ _ G). lia.
Qed.

Lemma nblk_turn len q : 0 <= len -> 0 < q <= BSIZE - len mod BSIZE -> nblk (len + q) = len / BSIZE + 1.
Proof.
  intros Hl Hq. unfold nblk. pose proof (Z.div_mod len BSIZE ltac:(klia)) as D.
  replace (len + q + BSIZE - 1) with ((len / BSIZE + 1) * BSIZE + (len mod BSIZE + q - 1)) by lia.
  rewrite Z.div_add_l by klia. rewrite (Z.div_small (len mod BSIZE + q - 1)); [lia|]. pose proof (Z.mod_pos_bound len BSIZE ltac:(klia)). lia.
Qed.
Lemma nblk_bounds len : 0 <= len -> len / BSIZE <= nblk len <= len / BSIZE + 1.
Proof.
  intros Hl. unfold nblk. split; [apply Z.div_le_mono; klia|]. replace (len / BSIZE + 1) with ((len + 1 * BSIZE) / BSIZE) by (rewrite Z.div_add by klia; lia).
  apply Z.div_le_mono; klia.
Qed.
Lemma nblk_mono a b : a <= b -> nblk a <= nblk b.
Proof. intros H. unfold nblk. apply Z.div_le_mono; klia. Qed.
Lemma cost_mono a b : a <= b -> cost_of a <= cost_of b.
Proof. intros H. unfold cost_of. destruct (Z.ltb_spec NDIRECT a), (Z.ltb_spec NDIRECT b); simpl; lia. Qed.
Lemma tight_cost f : tight f -> cost f = cost_of (nblk (flen f)).
Proof. intros [E1 E2]. unfold cost, cost_of. by rewrite E2, E1. Qed.

Lemma iappend_loop_spec k fuel : forall s F f p,
  img (Some k) s F -> F !! k = Some f -> tight f -> flen f + Z.of_nat (length p) <= MAXFILE * BSIZE ->
  im_freeblock s + cost_of (nblk (flen f + Z.of_nat (length p))) - cost f <= FSSIZE -> (length p < fuel)%nat ->
  wp (Img.iappend_loop fuel (mf_addrs f) (flen f) p) (fun r s' => exists f', r = (mf_addrs f', flen f') /\
    img (Some k) s' (<[k := f']> F) /\ mf_type f' = mf_type f /\ mf_bytes f' = mf_bytes f ++ p /\ tight f') s.
Proof.
  induction fuel as [|fuel IH]; intros s F f p G Hk Ht Hmax Hfb Hf; [lia|]. cbn [Img.iappend_loop]. cbv zeta.
  destruct (Z.ltb_spec 0 (Z.of_nat (length p))) as [Hp|Hp].
  2:{ destruct p; [|simpl in Hp; lia]. wp_step. exists f. rewrite list_insert_id, app_nil_r by done. done. }
  assert (0 <= flen f) as Hl0 by (unfold flen; lia). set (bn := flen f / BSIZE) in *.
  assert (0 <= bn < MAXFILE) as Hbn by (apply div_max; lia). destruct (Z.ltb_spec bn MAXFILE); [|lia]. cbn [negb].
  pose proof (Z.div_mod (flen f) BSIZE ltac:(klia)) as D. pose proof (Z.mod_pos_bound (flen f) BSIZE ltac:(klia)) as Hm. fold bn in D.
  set (n1 := Z.min (Z.of_nat (length p)) ((bn + 1) * BSIZE - flen f)). set (q := take (Z.to_nat n1) p).
  assert (0 < n1 <= BSIZE - flen f mod BSIZE /\ n1 <= Z.of_nat (length p)) as Hn1 by lia.
  assert (Z.of_nat (length q) = n1) as Hq by (unfold q; rewrite length_take; lia).
  destruct Ht as [Ea Eh]. pose proof (nblk_bounds (flen f) Hl0) as Hnb. fold bn in Hnb.
  assert (Z.max (mf_al f) (bn + 1) = bn + 1) as Emax by lia.
  pose proof (nblk_turn (flen f) n1 Hl0 (proj1 Hn1)) as Ent. fold bn in Ent.
  pose proof (nblk_mono (flen f + n1) (flen f + Z.of_nat (length p)) ltac:(lia)) as Hmn. rewrite Ent in Hmn. pose proof (cost_mono _ _ Hmn) as Hmc.
  wp_call (iappend_block_spec s F k f bn G Hk Eh Hbn); [lia|rewrite Emax; lia|].
  intros r s1 (f1 & -> & G1 & Et1 & Eb1 & Ea1 & Eh1).
  assert (<[k := f1]> F !! k = Some f1) as Hk1 by (apply list_lookup_insert_eq; by eapply lookup_lt_Some).
  assert (flen f1 = flen f) as El1 by (unfold flen; by rewrite Eb1). rewrite Emax in Ea1.
  destruct (step_store s1 (<[k := f1]> F) k f1 q G1 Hk1) as [Hx G2]; [rewrite El1; fold bn; lia|rewrite El1; lia|rewrite El1; lia|].
  rewrite El1 in Hx, G2. fold bn in Hx, G2. rewrite list_insert_insert_eq in G2.
  eapply wp_run; [apply rsect_run; [apply G1|lia]|]. eapply wp_run; [apply wsect_run; [apply G1|lia]|].
  replace (flen f - bn * BSIZE) with (flen f mod BSIZE) by lia. set (s2 := written_sect _ _ s1) in *.
  assert (flen (add_bytes f1 q) = flen f + n1) as El2 by (unfold flen; simpl; rewrite Eb1, length_app; unfold flen in *; lia).
  assert (<[k := add_bytes f1 q]> F !! k = Some (add_bytes f1 q)) as Hk2 by (apply list_lookup_insert_eq; by eapply lookup_lt_Some).
  rewrite <- El2. change (mf_addrs f1) with (mf_addrs (add_bytes f1 q)).
  pose proof (IH s2 (<[k := add_bytes f1 q]> F) (add_bytes f1 q) (drop (Z.to_nat n1) p) G2 Hk2) as L. rewrite El2, length_drop in L.
  assert (tight (add_bytes f1 q)) as T2 by (split; [rewrite El2, Ent; exact Ea1|exact Eh1]).
  assert (im_freeblock s2 - cost (add_bytes f1 q) = im_freeblock s - cost f) as Ec.
  { rewrite (ig_fb _ _ _ G2), (ig_fb _ _ _ G), (total_insert _ _ f) by done. lia. }
  rewrite El2. replace (flen f + n1 + Z.of_nat (length p - Z.to_nat n1)) with (flen f + Z.of_nat (length p)) in L by lia.
  eapply wp_mono; [apply L; [done|lia|lia|lia]|]. intros r s3 (f3 & -> & G3 & Et3 & Eb3 & T3). exists f3.
  rewrite list_insert_insert_eq in G3. split; [done|]. split; [done|]. split; [by rewrite Et3|]. split; [|done].
  rewrite Eb3. simpl. rewrite Eb1, <- app_assoc. unfold q. by rewrite take_drop.
Qed.

(** ** Inodes *)
Lemma iblock_fss inum : 0 <= inum < NINODES -> 0 <= IBLOCK inum mkfs_sb < FSSIZE.
Proof. intros Hi. pose proof (iblock_range inum Hi). klia. Qed.
Lemma rinode_run s inum : length (im_blocks s) = Z.to_nat FSSIZE -> 0 <= inum < NINODES -> Img.rinode inum s = Ret (dinode_at (iview s) inum) s.
Proof. intros Hl Hi. unfold Img.rinode. run (rsect_run s _ Hl (iblock_fss inum Hi)). done. Qed.

Lemma dinode_off_apart inum inum' : 0 <= inum -> 0 <= inum' -> inum / IPB = inum' / IPB -> inum <> inum' ->
  (dinode_off inum' + Z.to_nat sizeof_dinode <= dinode_off inum)%nat \/ (dinode_off inum + Z.to_nat sizeof_dinode <= dinode_off inum')%nat.
Proof.
  intros H1 H2 E Hne. unfold dinode_off. pose proof (Z.div_mod inum IPB ltac:(klia)). pose proof (Z.div_mod inum' IPB ltac:(klia)).
  pose proof (Z.mod_pos_bound inum IPB ltac:(klia)). pose proof (Z.mod_pos_bound inum' IPB ltac:(klia)). klia.
Qed.
Section winode.
Context (s : image) (inum : Z) (di : dinode) (Hl : length (im_blocks s) = Z.to_nat FSSIZE) (Hb : forall b, length (iview s (ROOTDEV, b)) = Z.to_nat BSIZE).
Context (Hi : 0 <= inum < NINODES) (Hd : dinode_fits di).
Notation bn := (IBLOCK inum mkfs_sb).
Definition put_inode : image := written_sect bn (put_dinode (iview s (ROOTDEV, bn)) inum di) s.
Lemma enc_length : length (enc_dinode di) = Z.to_nat sizeof_dinode.
Proof using Hd. apply length_enc_dinode, Hd. Qed.
Lemma winode_run : Img.winode inum di s = Ret tt put_inode.
Proof using Hl Hi. unfold Img.winode. run (rsect_run s _ Hl (iblock_fss inum Hi)). by apply wsect_run, iblock_fss. Qed.
Lemma put_inode_view b : iview put_inode (ROOTDEV, b) = if b =? bn then put_dinode (iview s (ROOTDEV, bn)) inum di else iview s (ROOTDEV, b).
Proof using Hl Hi. apply written_view; [done|by apply iblock_fss]. Qed.
Lemma put_inode_length b : length (iview put_inode (ROOTDEV, b)) = Z.to_nat BSIZE.
Proof using All.
  rewrite put_inode_view. destruct (b =? bn); [|done]. unfold put_dinode. rewrite length_splice; [done|]. rewrite Hb, enc_length. apply dinode_off_bound.
Qed.
Lemma put_inode_at inum' : 0 <= inum' < NINODES -> dinode_at (iview put_inode) inum' = if inum' =? inum then di else dinode_at (iview s) inum'.
Proof using All.
  intros Hi'. unfold dinode_at. rewrite put_inode_view. destruct (Z.eqb_spec inum' inum) as [->|Hne].
  - rewrite Z.eqb_refl. unfold get_dinode, put_dinode. rewrite <- enc_length. rewrite slice_splice by (rewrite Hb, enc_length; apply dinode_off_bound).
    rewrite <- (app_nil_r (enc_dinode di)). by apply dec_enc_dinode.
  - destruct (Z.eqb_spec (IBLOCK inum' mkfs_sb) bn) as [E|]; [|done]. rewrite E. unfold get_dinode, put_dinode. f_equal.
    assert (inum' / IPB = inum / IPB) as Ed.
    { unfold IBLOCK in E. change NINODES with 200 in *. change IPB with 32 in *. change (sb_inodestart mkfs_sb) with 32 in *.
      assert (0 <= inum / 32 < 7 /\ 0 <= inum' / 32 < 7) as [? ?] by (split; split; try (apply Z.div_pos; lia); apply Z.div_lt_upper_bound; lia).
      rewrite !u32_small in E by lia. lia. }
    apply slice_splice_disjoint; [rewrite Hb, enc_length; apply dinode_off_bound|]. rewrite enc_length.
    destruct (dinode_off_apart inum inum'); lia.
Qed.
End winode.

Lemma file_fits h s F k f : img h s F -> F !! k = Some f -> flen f <= MAXFILE * BSIZE -> dinode_fits (file_dinode f).
Proof.
  intros G Hk Hl. pose proof (ig_file _ _ _ G k f Hk) as O. pose proof (ig_type _ _ _ G k f Hk) as Ht. split; simpl.
  - repeat (apply Forall_cons; split); try done; unfold fits_short; lia.
  - unfold fits. unfold flen in *. klia.
  - split; [apply O|]. apply Forall_forall. intros v (n & Hn)%list_elem_of_lookup. pose proof (lookup_lt_Some _ _ _ Hn) as Hlt. rewrite (mo_len _ _ _ O) in Hlt.
    assert (addr_at (mf_addrs f) (Z.of_nat n) = v) as Ev by (unfold addr_at; rewrite Nat2Z.id, Hn; done).
    unfold fits. destruct (decide (v = 0)) as [->|H0]; [lia|]. assert (in_file (iview s) (mf_addrs f) v) as Hin.
    { split; [done|]. destruct (decide (Z.of_nat n = NDIRECT)) as [E|Hne]; [left; unfold ind; by rewrite <- E|right].
      exists (Z.of_nat n). split; [klia|]. unfold fblock. by destruct (Z.ltb_spec (Z.of_nat n) NDIRECT); [|klia]. }
    apply (mo_own _ _ _ O) in Hin. pose proof (ig_max _ _ _ G). change nmeta with 40 in *. klia.
Qed.

Section put.
Context (h : option nat) (s : image) (F : list mfile) (G : img h s F) (inum : Z) (di : dinode) (Hi : 0 <= inum < NINODES) (Hd : dinode_fits di).
Notation s' := (put_inode s inum di).
Lemma img_put_view b : b <> IBLOCK inum mkfs_sb -> iview s' (ROOTDEV, b) = iview s (ROOTDEV, b).
Proof using G Hi. intros Hb. rewrite put_inode_view by (done || apply G). by destruct (Z.eqb_spec b (IBLOCK inum mkfs_sb)). Qed.
Lemma put_blocks j f : F !! j = Some f -> forall b, in_file (iview s) (mf_addrs f) b -> iview s' (ROOTDEV, b) = iview s (ROOTDEV, b).
Proof using G Hi.
  intros Hf b Hb. apply img_put_view. apply (mo_own _ _ _ (ig_file _ _ _ G j f Hf)) in Hb. pose proof (iblock_range inum Hi). change nmeta with 40 in Hb. lia.
Qed.
Lemma put_file j f : F !! j = Some f -> mfile_ok (iview s') (im_freeblock s) f.
Proof using G Hi. intros Hf. eapply mfile_ok_frame; [by apply (ig_file _ _ _ G j)|done|by eapply put_blocks]. Qed.
Lemma put_in j f b : F !! j = Some f -> in_file (iview s') (mf_addrs f) b <-> in_file (iview s) (mf_addrs f) b.
Proof using G Hi. intros Hf. apply img_in_file_ext, fblock_frame. by eapply put_blocks. Qed.
Lemma put_at inum' : 0 <= inum' < NINODES -> dinode_at (iview s') inum' = if inum' =? inum then di else dinode_at (iview s) inum'.
Proof using All. apply put_inode_at; try done; apply G. Qed.
Lemma put_meta b : 0 <= b < sb_inodestart mkfs_sb \/ b = sb_bmapstart mkfs_sb -> iview s' (ROOTDEV, b) = meta_block b.
Proof using G Hi.
  intros Hb. rewrite img_put_view; [by apply (ig_meta _ _ _ G)|]. pose proof (iblock_range inum Hi).
  change (sb_inodestart mkfs_sb) with 32 in Hb. change (sb_bmapstart mkfs_sb) with 39 in Hb. lia.
Qed.
Lemma put_zero b : im_freeblock s <= b < FSSIZE -> iview s' (ROOTDEV, b) = zero_block.
Proof using G Hi.
  intros Hb. rewrite img_put_view; [by apply (ig_zero _ _ _ G)|]. pose proof (iblock_range inum Hi). pose proof (ig_max _ _ _ G). change nmeta with 40 in *. lia.
Qed.
End put.

Lemma img_close s F k f : img (Some k) s F -> F !! k = Some f -> tight f -> dinode_fits (file_dinode f) ->
  img None (put_inode s (1 + Z.of_nat k) (file_dinode f)) F.
Proof.
  intros G Hk Ht Hd. pose proof (ig_num _ _ _ G) as Hn. pose proof (lookup_lt_Some _ _ _ Hk) as Hlt.
  assert (0 <= 1 + Z.of_nat k < NINODES) as Hi by lia. pose proof (put_at _ _ _ G _ _ Hi Hd) as Hat.
  split; try apply G.
  - simpl. rewrite length_insert. apply G.
  - apply put_inode_length; try done; apply G.
  - by apply (put_zero _ _ _ G).
  - by apply (put_meta _ _ _ G).
  - intros j g Hg _. pose proof (lookup_lt_Some _ _ _ Hg). rewrite Hat by lia. destruct (Z.eqb_spec (1 + Z.of_nat j) (1 + Z.of_nat k)) as [E|Hne].
    + assert (j = k) as -> by lia. by simplify_eq.
    + apply (ig_ino _ _ _ G); [done|]. intros [=]. lia.
  - intros inum Hin. assert (0 <= inum < NINODES) as Hr by (change NINODES with 200 in *; lia). rewrite Hat by done.
    destruct (Z.eqb_spec inum (1 + Z.of_nat k)); [lia|]. by apply (ig_free _ _ _ G).
  - intros j g Hg _. destruct (decide (j = k)) as [->|Hne]; [by simplify_eq|]. apply (ig_tight _ _ _ G j); [done|]. congruence.
  - intros j g Hg. by apply (put_file _ _ _ G _ _ Hi j).
  - intros j j' g g' b Hne Hg Hg'. rewrite (put_in _ _ _ G _ _ Hi j g b Hg), (put_in _ _ _ G _ _ Hi j' g' b Hg'). by apply (ig_disj _ _ _ G j j').
Qed.
Lemma img_open s F k : img None s F -> img (Some k) s F.
Proof.
  intros G. split; try apply G.
  - intros j f Hf _. by apply (ig_ino _ _ _ G).
  - intros j f Hf _. by apply (ig_tight _ _ _ G j).
Qed.

Definition new_mfile (type : Z) : mfile := mk_mfile type (replicate (Z.to_nat (NDIRECT + 1)) 0) [] 0 false.
Lemma new_addr k : addr_at (replicate (Z.to_nat (NDIRECT + 1)) 0) k = 0.
Proof. unfold addr_at. destruct (replicate _ 0 !! _) as [v|] eqn:E; [|done]. by apply lookup_replicate in E as [-> _]. Qed.
Lemma new_fblock V type bn : fblock V (mf_addrs (new_mfile type)) bn = 0.
Proof. unfold fblock, ind. simpl. rewrite !new_addr. simpl. by destruct (bn <? NDIRECT). Qed.
Lemma new_in_file V type b : ~ in_file V (mf_addrs (new_mfile type)) b.
Proof. intros [H0 [->|(bn & _ & ->)]]; [unfold ind in H0; simpl in H0; by rewrite new_addr in H0|by rewrite new_fblock in H0]. Qed.
Lemma new_mfile_ok V fb type : mfile_ok V fb (new_mfile type).
Proof.
  split.
  - done.
  - simpl. klia.
  - by intros b ?%new_in_file.
  - intros bn bn' _ _. by rewrite new_fblock.
  - intros bn _. by rewrite new_fblock.
  - intros bn H. rewrite new_fblock. simpl. split; [done|lia].
  - unfold ind. simpl. rewrite new_addr. done.
  - intros o _. unfold fbyte. by rewrite new_fblock.
Qed.

Lemma img_new s F type : img None s F -> 2 + Z.of_nat (length F) <= NINODES -> fits_short type ->
  img None (put_inode (set_im_freeinode (im_freeinode s + 1) s) (1 + Z.of_nat (length F)) (file_dinode (new_mfile type))) (F ++ [new_mfile type]).
Proof.
  intros G Hn Ht. assert (0 <= 1 + Z.of_nat (length F) < NINODES) as Hi by lia.
  assert (dinode_fits (file_dinode (new_mfile type))) as Hd.
  { split; simpl; [repeat (apply Forall_cons; split); try done; unfold fits_short; lia|unfold fits, flen; simpl; lia|].
    split; [done|]. repeat (apply Forall_cons; split); unfold fits; try lia. constructor. }
  set (s1 := set_im_freeinode _ s).
  assert (forall j f, (F ++ [new_mfile type]) !! j = Some f -> F !! j = Some f /\ (j < length F)%nat \/ j = length F /\ f = new_mfile type) as Hcase.
  { intros j f Hf. apply lookup_app_Some in Hf as [Hf|[Hge Hf]]; [left; split; [done|by eapply lookup_lt_Some]|right].
    apply list_lookup_singleton_Some in Hf as [Hj <-]. split; [lia|done]. }
  pose proof (put_at _ _ _ G _ _ Hi Hd) as Hat. pose proof (ig_num _ _ _ G).
  assert (iview (put_inode s1 (1 + Z.of_nat (length F)) (file_dinode (new_mfile type))) =
    iview (put_inode s (1 + Z.of_nat (length F)) (file_dinode (new_mfile type)))) as Ev by done.
  split; rewrite ?Ev, ?length_app; simpl length; simpl im_freeblock.
  - simpl. rewrite length_insert. apply G.
  - apply put_inode_length; try done; apply G.
  - simpl. rewrite (ig_fi _ _ _ G). lia.
  - lia.
  - rewrite (ig_fb _ _ _ G). unfold total. rewrite foldr_app. reflexivity.
  - apply G.
  - by apply (put_zero _ _ _ G).
  - by apply (put_meta _ _ _ G).
  - intros j f [[Hf Hj]|[-> ->]]%Hcase _; rewrite Hat by lia.
    + destruct (Z.eqb_spec (1 + Z.of_nat j) (1 + Z.of_nat (length F))); [lia|]. by apply (ig_ino _ _ _ G).
    + by rewrite Z.eqb_refl.
  - intros inum Hin. assert (0 <= inum < NINODES) as Hr by (change NINODES with 200 in *; lia). rewrite Hat by done.
    destruct (Z.eqb_spec inum (1 + Z.of_nat (length F))); [lia|]. apply (ig_free _ _ _ G). lia.
  - intros j f [[Hf Hj]|[-> ->]]%Hcase _; [by apply (ig_tight _ _ _ G j)|done].
  - intros j f [[Hf Hj]|[-> ->]]%Hcase; [by apply (ig_type _ _ _ G j)|done].
  - intros j f [[Hf Hj]|[-> ->]]%Hcase; [by apply (put_file _ _ _ G _ _ Hi j)|apply new_mfile_ok].
  - intros j j' g g' b Hne [[Hf Hj]|[-> ->]]%Hcase [[Hf' Hj']|[-> ->]]%Hcase; [|by intros _ ?%new_in_file|by intros ?%new_in_file|done].
    rewrite (put_in _ _ _ G _ _ Hi j g b Hf), (put_in _ _ _ G _ _ Hi j' g' b Hf'). by apply (ig_disj _ _ _ G j j').
Qed.

(** ** The contents of the image

    [C] lists type and bytes of the files. *)
Definition has (s : image) (C : list (Z * list Z)) : Prop :=
  exists F, img None s F /\ (fun f => (mf_type f, mf_bytes f)) <$> F = C.
Definition clen (c : Z * list Z) : Z := Z.of_nat (length c.2).
Definition need (C : list (Z * list Z)) : Z := foldr (fun c n => cost_of (nblk (clen c)) + n) 0 C.

Lemma clen_cost c : 0 <= cost_of (nblk (clen c)).
Proof.
  assert (0 <= nblk (clen c)) by (unfold nblk, clen; apply Z.div_pos; klia). unfold cost_of. destruct (Z.ltb_spec NDIRECT (nblk (clen c))); simpl; lia.
Qed.
Lemma need_total h s F : img h s F -> (forall j f, F !! j = Some f -> tight f) -> total F = need ((fun f => (mf_type f, mf_bytes f)) <$> F).
Proof.
  intros _ Ht. induction F as [|f F IH]; [done|]. simpl. rewrite IH by (intros j g Hg; apply (Ht (S j) g Hg)).
  by rewrite (tight_cost f (Ht 0%nat f eq_refl)).
Qed.
Lemma need_insert C k c c' : C !! k = Some c -> need (<[k := c']> C) = need C + cost_of (nblk (clen c')) - cost_of (nblk (clen c)).
Proof. revert k. induction C as [|d C IH]; intros [|k] H; simplify_eq/=; [lia|]. rewrite (IH k) by done. lia. Qed.
Lemma need_app C C' : need (C ++ C') = need C + need C'.
Proof. induction C as [|c C IH]; [done|]. simpl. rewrite IH. lia. Qed.

Lemma ialloc_spec s C type : has s C -> 2 + Z.of_nat (length C) <= NINODES -> 0 <= type < 2 ^ 15 ->
  wp (Img.ialloc type) (fun r s' => r = 1 + Z.of_nat (length C) /\ has s' (C ++ [(type, [])])) s.
Proof.
  intros (F & G & <-) Hn Ht. rewrite length_fmap in *. pose proof (ig_fi _ _ _ G) as Hfi. unfold Img.ialloc, Img.next_inode.
  eapply wp_run; [by run_steps|]. rewrite Hfi, u32_small by (change NINODES with 200 in *; lia).
  rewrite xshort_small by lia. change (xshort 1) with 1. change (xint 0) with 0.
  assert (fits_short type) as Hs by (unfold fits_short; lia).
  pose proof (img_new s F type G Hn Hs) as G'. rewrite Hfi in G'.
  eapply wp_run; [apply winode_run; [apply G|lia]|]. wp_step. split; [done|].
  exists (F ++ [new_mfile type]). split; [|by rewrite fmap_app].
  exact G'.
Qed.

Lemma iappend_spec s C k t bs p : has s C -> C !! k = Some (t, bs) -> Z.of_nat (length bs) + Z.of_nat (length p) <= MAXFILE * BSIZE ->
  nmeta + need (<[k := (t, bs ++ p)]> C) <= FSSIZE ->
  wp (Img.iappend (1 + Z.of_nat k) p) (fun _ s' => has s' (<[k := (t, bs ++ p)]> C)) s.
Proof.
  intros (F & G & <-) Hk Hl Hn. apply list_lookup_fmap_Some in Hk as (f & Hc & Hf). injection Hc as -> ->.
  pose proof (lookup_lt_Some _ _ _ Hf) as Hlt. pose proof (ig_num _ _ _ G) as Hnum.
  rewrite (need_insert _ _ (mf_type f, mf_bytes f)) in Hn by (by rewrite list_lookup_fmap, Hf).
  rewrite <- (need_total _ _ _ G) in Hn by (intros j g Hg; by apply (ig_tight _ _ _ G j)).
  pose proof (ig_tight _ _ _ G k f Hf ltac:(done)) as Ht. change (cost_of (nblk (clen (mf_type f, mf_bytes f)))) with (cost_of (nblk (flen f))) in Hn.
  rewrite <- (tight_cost f Ht) in Hn. unfold clen in Hn. simpl in Hn. rewrite length_app, Nat2Z.inj_add in Hn. fold (flen f) in Hn, Hl.
  unfold Img.iappend. eapply wp_run; [apply rinode_run; [apply G|lia]|]. rewrite (ig_ino _ _ _ G k f Hf) by done. cbv zeta. cbn [file_dinode di_size di_addrs di_type di_major di_minor di_nlink].
  rewrite xint_small by (unfold flen in *; klia).
  wp_call (iappend_loop_spec k (S (length p)) s F f p (img_open _ _ k G) Hf Ht Hl); [rewrite (ig_fb _ _ _ G); lia|lia|].
  intros r s1 (f' & -> & G1 & Et & Eb & T'). cbn [fst snd]. assert (flen f' = flen f + Z.of_nat (length p)) as El by (unfold flen; rewrite Eb, length_app; lia).
  rewrite xint_small by (rewrite El; unfold flen in *; klia). assert (<[k := f']> F !! k = Some f') as Hk' by (by apply list_lookup_insert_eq).
  rewrite <- Et. fold (file_dinode f'). unfold wp. rewrite winode_run by (apply G1 || lia).
  exists (<[k := f']> F). split; [|by rewrite list_fmap_insert, Et, Eb].
  apply img_close; [done|done|done|]. eapply file_fits; [exact G1|exact Hk'|lia].
Qed.

Definition entry (inum : Z) (name : list Z) : dirent := mk_dirent inum (de_name_of name).
Lemma length_entry inum name : length (enc_dirent (entry inum name)) = Z.to_nat sizeof_dirent.
Proof. unfold enc_dirent, entry. simpl de_inum. simpl de_name. by rewrite length_app, length_le_enc, length_de_name. Qed.

Lemma add_entry_spec s C k t bs inum name : has s C -> C !! k = Some (t, bs) -> 0 <= inum < 2 ^ 16 -> terminated name ->
  Z.of_nat (length bs) + sizeof_dirent <= MAXFILE * BSIZE -> nmeta + need (<[k := (t, bs ++ enc_dirent (entry inum name))]> C) <= FSSIZE ->
  wp (Img.add_entry (1 + Z.of_nat k) inum name) (fun _ s' => has s' (<[k := (t, bs ++ enc_dirent (entry inum name))]> C)) s.
Proof.
  intros Hs Hk Hi Hn Hl Hm. unfold Img.add_entry. eapply wp_run; [rewrite strncpy_correct by (by left); reflexivity|].
  fold (nkey name). fold (de_name_of name). rewrite xshort_small by done. fold (entry inum name).
  apply iappend_spec; try done. rewrite length_entry. lia.
Qed.

Lemma need_grow C k t bs bs' : is_Some (C !! k) -> (length bs <= length bs')%nat -> need (<[k := (t, bs)]> C) <= need (<[k := (t, bs')]> C).
Proof.
  intros [c Hc] Hl. rewrite !(need_insert C k c) by done. unfold clen. simpl.
  pose proof (cost_mono _ _ (nblk_mono (Z.of_nat (length bs)) (Z.of_nat (length bs')) ltac:(lia))). lia.
Qed.
Lemma chunks_spec k t chunks : forall s C bs, has s C -> C !! k = Some (t, bs) ->
  Z.of_nat (length (bs ++ concat chunks)) <= MAXFILE * BSIZE -> nmeta + need (<[k := (t, bs ++ concat chunks)]> C) <= FSSIZE ->
  wp (forM chunks (fun buf => Img.iappend (1 + Z.of_nat k) buf)) (fun _ s' => has s' (<[k := (t, bs ++ concat chunks)]> C)) s.
Proof.
  induction chunks as [|p chunks IH]; intros s C bs Hs Hk Hl Hn; cbn [forM concat].
  - wp_step. rewrite app_nil_r, list_insert_id by done. done.
  - simpl in Hl, Hn. rewrite app_assoc in Hl, Hn |- *. rewrite !length_app in Hl.
    pose proof (need_grow C k t (bs ++ p) ((bs ++ p) ++ concat chunks) ltac:(by eexists) ltac:(rewrite (length_app (bs ++ p)); lia)) as Hg.
    wp_call (iappend_spec s C k t bs p Hs Hk); [lia|lia|]. intros u s1 Hs1. cbv beta in Hs1.
    eapply wp_mono; [apply (IH s1 (<[k := (t, bs ++ p)]> C) (bs ++ p) Hs1)|].
    + apply list_lookup_insert_eq. by eapply lookup_lt_Some.
    + rewrite !length_app. lia.
    + by rewrite list_insert_insert_eq.
    + intros u2 s2. by rewrite list_insert_insert_eq.
Qed.

(** *** The files of the command line *)
Definition mnt_entries : list dirent := [entry 2 Img.name_dot; entry 1 Img.name_dotdot].
Definition file_entries (n : nat) (files : list (list Z * list (list Z))) : list dirent :=
  imap (fun i f => entry (1 + Z.of_nat (n + i)) (Img.skip_underscore f.1)) files.
Definition file_contents (files : list (list Z * list (list Z))) : list (Z * list Z) := (fun f => (T_FILE, concat f.2)) <$> files.
Definition dir_bytes (es : list dirent) : list Z := concat (enc_dirent <$> es).

(** A name mkfs accepts: a C string without a slash. *)
Definition name_ok (name : list Z) : Prop := terminated name /\ 47 ∉ cstr name.
Lemma skip_terminated name : terminated name -> terminated (Img.skip_underscore name).
Proof.
  unfold terminated, Img.skip_underscore. destruct name as [|c rest]; [done|]. destruct (Z.eqb_spec c 95) as [->|]; [|done].
  intros [E|?]%elem_of_cons; [discriminate E|done].
Qed.
Lemma length_dir_bytes es : Forall (fun e => length (enc_dirent e) = Z.to_nat sizeof_dirent) es -> length (dir_bytes es) = (Z.to_nat sizeof_dirent * length es)%nat.
Proof.
  induction 1 as [|e es He _ IH]; [done|]. change (dir_bytes (e :: es)) with (enc_dirent e ++ dir_bytes es).
  rewrite length_app, He, IH. simpl length. lia.
Qed.
Lemma file_entries_cons n f files : file_entries n (f :: files) = entry (1 + Z.of_nat n) (Img.skip_underscore f.1) :: file_entries (S n) files.
Proof.
  unfold file_entries. simpl. rewrite Nat.add_0_r. f_equal. apply imap_ext. intros i g _. simpl. f_equal. lia.
Qed.
Lemma length_file_entries n files : Forall (fun e => length (enc_dirent e) = Z.to_nat sizeof_dirent) (file_entries n files).
Proof. revert n. induction files as [|f files IH]; intros n; [constructor|]. rewrite file_entries_cons. constructor; [apply length_entry|apply IH]. Qed.

Lemma add_file_spec s C r f : has s ((T_DIR, r) :: C) -> name_ok f.1 -> 3 + Z.of_nat (length C) <= NINODES ->
  Z.of_nat (length r) + sizeof_dirent <= MAXFILE * BSIZE -> Z.of_nat (length (concat f.2)) <= MAXFILE * BSIZE ->
  let r' := r ++ enc_dirent (entry (2 + Z.of_nat (length C)) (Img.skip_underscore f.1)) in
  nmeta + need ((T_DIR, r') :: C ++ [(T_FILE, concat f.2)]) <= FSSIZE ->
  wp (Img.add_file ROOTINO f) (fun _ s' => has s' ((T_DIR, r') :: C ++ [(T_FILE, concat f.2)])) s.
Proof.
  intros Hs [Ht Hsl] Hn Hr Hl r' Hm. unfold Img.add_file. rewrite decide_False by done. wp_step. wp_step.
  wp_call (ialloc_spec s ((T_DIR, r) :: C) T_FILE Hs); [simpl; lia|done|]. intros i s1 [-> Hs1]. simpl app in Hs1.
  assert (forall c, need [c] = cost_of (nblk (clen c))) as Hone by (intros c; simpl; lia).
  pose proof (clen_cost (T_FILE, concat f.2)) as Hc0.
  simpl need in Hm. rewrite need_app, Hone in Hm.
  replace (1 + Z.of_nat (length ((T_DIR, r) :: C))) with (2 + Z.of_nat (length C)) by (simpl length; lia).
  wp_call (add_entry_spec s1 _ 0 T_DIR r (2 + Z.of_nat (length C)) (Img.skip_underscore f.1) Hs1 eq_refl); [change NINODES with 200 in *; lia|by apply skip_terminated|done| |].
  { simpl. fold r'. rewrite need_app, Hone. change (cost_of (nblk (clen (T_FILE, [])))) with 0. lia. }
  intros u s2 Hs2. simpl in Hs2. fold r' in Hs2.
  replace (2 + Z.of_nat (length C)) with (1 + Z.of_nat (S (length C))) by lia.
  assert (forall y, <[S (length C) := y]> ((T_DIR, r') :: C ++ [(T_FILE, [])]) = (T_DIR, r') :: C ++ [y]) as Ei.
  { intros y. simpl. f_equal. rewrite insert_app_r_alt by lia. by rewrite Nat.sub_diag. }
  eapply wp_mono; [apply (chunks_spec (S (length C)) T_FILE f.2 s2 _ [] Hs2)|].
  - simpl. by rewrite lookup_app_r, Nat.sub_diag by lia.
  - done.
  - rewrite Ei. simpl. rewrite need_app, Hone. lia.
  - intros u3 s3. by rewrite Ei.
Qed.

Definition file_ok_arg (f : list Z * list (list Z)) : Prop := name_ok f.1 /\ Z.of_nat (length (concat f.2)) <= MAXFILE * BSIZE.
Lemma need_dir_grow r r' C C' : (length r <= length r')%nat -> need ((T_DIR, r) :: C) <= need ((T_DIR, r') :: C ++ C').
Proof.
  intros Hl. simpl. rewrite need_app. pose proof (cost_mono _ _ (nblk_mono (clen (T_DIR, r)) (clen (T_DIR, r')) ltac:(unfold clen; simpl; lia))).
  assert (0 <= need C') by (induction C' as [|c C' IH]; simpl; [lia|pose proof (clen_cost c); lia]). lia.
Qed.

Lemma add_files_spec files : forall s C r,
  has s ((T_DIR, r) :: C) -> Forall file_ok_arg files -> 2 + Z.of_nat (length C + length files) <= NINODES ->
  let r' := r ++ dir_bytes (file_entries (S (length C)) files) in
  Z.of_nat (length r') <= MAXFILE * BSIZE -> nmeta + need ((T_DIR, r') :: C ++ file_contents files) <= FSSIZE ->
  wp (forM files (Img.add_file ROOTINO)) (fun _ s' => has s' ((T_DIR, r') :: C ++ file_contents files)) s.
Proof.
  induction files as [|f files IH]; intros s C r Hs Hok Hn r' Hl Hm; cbn [forM].
  - wp_step. unfold r', dir_bytes. simpl. by rewrite !app_nil_r.
  - apply Forall_cons in Hok as [[Hname Hlen] Hok]. simpl length in Hn.
    set (e := entry (2 + Z.of_nat (length C)) (Img.skip_underscore f.1)).
    assert (r' = (r ++ enc_dirent e) ++ dir_bytes (file_entries (S (S (length C))) files)) as Er.
    { unfold r'. rewrite file_entries_cons. replace (1 + Z.of_nat (S (length C))) with (2 + Z.of_nat (length C)) by lia. unfold dir_bytes. simpl. by rewrite <- app_assoc. }
    assert (C ++ file_contents (f :: files) = (C ++ [(T_FILE, concat f.2)]) ++ file_contents files) as Ec by (by rewrite <- app_assoc).
    rewrite Er, Ec in Hm |- *. rewrite Er, (length_app (r ++ _)), length_app in Hl. pose proof (length_entry (2 + Z.of_nat (length C)) (Img.skip_underscore f.1)) as He. fold e in He.
    pose proof (need_dir_grow (r ++ enc_dirent e) ((r ++ enc_dirent e) ++ dir_bytes (file_entries (S (S (length C))) files))
      (C ++ [(T_FILE, concat f.2)]) (file_contents files) ltac:(rewrite (length_app (r ++ enc_dirent e)); apply Nat.le_add_r)) as Hg.
    wp_call (add_file_spec s C r f Hs Hname); [lia|rewrite He in Hl; lia|done|fold e; lia|].
    intros u s1 Hs1. cbv beta in Hs1. fold e in Hs1.
    replace (S (S (length C))) with (S (length (C ++ [(T_FILE, concat f.2)]))) in Hm, Hl |- * by (rewrite length_app; simpl; lia).
    apply (IH s1 (C ++ [(T_FILE, concat f.2)])); [done|done|rewrite length_app; simpl; lia| |done].
    rewrite (length_app (r ++ _)), length_app. lia.
Qed.

(** ** The empty image *)
Lemma zeros_spec n : forall i s, im_blocks s = replicate i zero_block -> Z.of_nat (i + n) <= FSSIZE ->
  wp (forM (seqZ (Z.of_nat i) (Z.of_nat n)) (fun i => Img.wsect i zero_block))
     (fun _ s' => s' = set_im_blocks (replicate (i + n) zero_block) s) s.
Proof.
  induction n as [|n IH]; intros i s Hs Hn.
  - rewrite seqZ_nil by lia. cbn [forM]. wp_step. rewrite Nat.add_0_r, <- Hs. by destruct s.
  - rewrite seqZ_cons by lia. cbn [forM]. replace (Z.succ (Z.of_nat i)) with (Z.of_nat (S i)) by lia. replace (Z.pred (Z.of_nat (S n))) with (Z.of_nat n) by lia.
    eapply wp_run; [done|]. unfold Img.put_sect. rewrite sect_small by lia. rewrite Hs, length_replicate, Nat2Z.id.
    replace (S i - i)%nat with 1%nat by lia.
    assert (<[i := zero_block]> (replicate i zero_block ++ replicate 1 zero_block) = replicate (S i) zero_block) as E.
    { rewrite insert_app_r_alt by (by rewrite length_replicate). rewrite length_replicate, Nat.sub_diag. simpl. rewrite <- (replicate_S_end i). done. }
    rewrite E. eapply wp_mono; [apply (IH (S i)); [done|lia]|]. intros u s' ->. by rewrite Nat.add_succ_r.
Qed.
Lemma iview_zeros s b : im_blocks s = replicate (Z.to_nat FSSIZE) zero_block -> iview s (ROOTDEV, b) = zero_block.
Proof.
  intros Hs. unfold iview. rewrite Hs. cbn [snd]. destruct (b <? 0); [done|]. destruct (replicate _ zero_block !! _) as [d|] eqn:E; [|done].
  by apply lookup_replicate in E as [-> _].
Qed.

Lemma get_zero inum : get_dinode zero_block inum = zero_dinode.
Proof.
  unfold get_dinode. assert (slice zero_block (dinode_off inum) (Z.to_nat sizeof_dinode) = replicate (Z.to_nat sizeof_dinode) 0) as ->; [|reflexivity].
  unfold slice, zero_block. rewrite drop_replicate, take_replicate. f_equal. pose proof (dinode_off_bound inum). lia.
Qed.
Lemma length_sb_block : length sb_block = Z.to_nat BSIZE.
Proof. vm_compute. reflexivity. Qed.

Definition empty_image : image := mk_image (<[1%nat := sb_block]> (replicate (Z.to_nat FSSIZE) zero_block)) 1 nmeta.
Lemma empty_view b : iview empty_image (ROOTDEV, b) = meta_block b.
Proof.
  set (s0 := mk_image (replicate (Z.to_nat FSSIZE) zero_block) 1 nmeta).
  change empty_image with (written_sect 1 sb_block s0). rewrite written_view; [|apply length_replicate|klia].
  unfold meta_block. destruct (b =? 1); [done|]. by apply iview_zeros.
Qed.
Lemma empty_has : has empty_image [].
Proof.
  exists []. split; [|done]. split; try done; try (intros j; rewrite lookup_nil; done).
  - intros b. rewrite empty_view. unfold meta_block. destruct (b =? 1); [apply length_sb_block|apply length_replicate].
  - intros b Hb. rewrite empty_view. unfold meta_block. simpl in Hb. change nmeta with 40 in Hb. destruct (Z.eqb_spec b 1); [lia|done].
  - intros b _. apply empty_view.
  - intros inum Hi. assert (0 <= inum < NINODES) as Hr by (simpl in Hi; change NINODES with 200 in *; lia).
    unfold dinode_at. rewrite empty_view. unfold meta_block. pose proof (iblock_range inum Hr). destruct (Z.eqb_spec (IBLOCK inum mkfs_sb) 1); [lia|]. apply get_zero.
Qed.

(** The directories, with the entries that mkfs makes itself. *)
Definition root_entries (files : list (list Z * list (list Z))) : list dirent :=
  [entry 1 Img.name_dot; entry 1 Img.name_dotdot; entry 2 Img.name_mnt] ++ file_entries 2 files.
Definition contents (files : list (list Z * list (list Z))) : list (Z * list Z) :=
  (T_DIR, dir_bytes (root_entries files)) :: (T_DIR, dir_bytes mnt_entries) :: file_contents files.

(** ** The finished image *)
Definition mkfs_log : log := mk_log 2 30 0 false ROOTDEV 0 (replicate (Z.to_nat LOGSIZE) 0).
Definition free_dirent : dirent := mk_dirent 0 (replicate (Z.to_nat DIRSIZ) 0).

Record mkfs_image (V : blk -> list Z) (free : Z) (files : list (list Z * list (list Z))) : Prop := {
  mi_boot : forall dk, (forall k, length (dread dk k) = Z.to_nat BSIZE) -> (forall b, 0 <= b < FSSIZE -> dread dk (ROOTDEV, b) = V (ROOTDEV, b)) ->
    log_disk mkfs_log dk /\ hd_n (dread dk (ROOTDEV, log_start mkfs_log)) = 0;
  mi_sb : dec_superblock (V (ROOTDEV, 1)) = mkfs_sb /\ sb_ok mkfs_sb mkfs_log;
  mi_used : forall b, 0 <= b < FSSIZE -> used mkfs_sb V b = (b <? free);
  mi_bitmap : bitmap_ok mkfs_sb mkfs_log V;
  mi_file : forall i f, files !! i = Some f -> exists a,
    dinode_at V (3 + Z.of_nat i) = mk_dinode T_FILE 0 0 1 (Z.of_nat (length (concat f.2))) a /\
    file_ok mkfs_sb mkfs_log V a /\ fbytes V a 0 (length (concat f.2)) = concat f.2;
  mi_root : exists a m, let size := (Z.of_nat (length (dir_bytes (root_entries files))) / BSIZE + 1) * BSIZE in
    dinode_at V ROOTINO = mk_dinode T_DIR 0 0 1 size a /\ file_ok mkfs_sb mkfs_log V a /\
    dents V a size = root_entries files ++ replicate m free_dirent;
  mi_mnt : exists a, dinode_at V 2 = mk_dinode T_DIR 0 0 1 32 a /\ file_ok mkfs_sb mkfs_log V a /\ dents V a 32 = mnt_entries;
  mi_apart : forall i j b, 1 <= i < 3 + Z.of_nat (length files) -> 1 <= j < 3 + Z.of_nat (length files) -> i <> j ->
    in_file V (di_addrs (dinode_at V i)) b -> ~ in_file V (di_addrs (dinode_at V j)) b;
  mi_free : forall inum, 3 + Z.of_nat (length files) <= inum < NINODES -> dinode_at V inum = zero_dinode
}.

Lemma dir_bytes_app es es' : dir_bytes (es ++ es') = dir_bytes es ++ dir_bytes es'.
Proof. unfold dir_bytes. by rewrite fmap_app, concat_app. Qed.
Lemma entry_lengths files : Forall (fun e => length (enc_dirent e) = Z.to_nat sizeof_dirent) (root_entries files).
Proof. unfold root_entries. apply Forall_app. split; [repeat (constructor; [apply length_entry|]); constructor|apply length_file_entries]. Qed.
Lemma length_root files : length (dir_bytes (root_entries files)) = (Z.to_nat sizeof_dirent * (3 + length files))%nat.
Proof. rewrite length_dir_bytes by apply entry_lengths. unfold root_entries, file_entries. rewrite length_app, length_imap. done. Qed.
Lemma main_files files (Q : unit -> image -> Prop) :
  Forall file_ok_arg files -> 3 + Z.of_nat (length files) <= NINODES -> nmeta + need (contents files) <= FSSIZE ->
  (forall s, has s (contents files) -> wp (
     din ← Img.rinode ROOTINO;
     let off := (xint (di_size din) / BSIZE + 1) * BSIZE in
     Img.winode ROOTINO (mk_dinode (di_type din) (di_major din) (di_minor din) (di_nlink din) (xint off) (di_addrs din)) ;;
     freeblock ← gets im_freeblock;
     Img.balloc freeblock) Q s) ->
  wp (Img.main files) Q new_image.
Proof.
  intros Hok Hn Hm HQ. unfold Img.main. eapply wp_run; [done|].
  change (seqZ 0 FSSIZE) with (seqZ (Z.of_nat 0) (Z.of_nat 1000)).
  wp_call (zeros_spec 1000 0 (set_im_freeblock nmeta new_image) eq_refl); [klia|]. intros u0 s0 ->.
  eapply wp_run; [apply wsect_run; [apply length_replicate|klia]|]. change (written_sect _ _ _) with empty_image.
  wp_call (ialloc_spec empty_image [] T_DIR empty_has); [done|done|]. intros i s1 [-> H1]. change (1 + Z.of_nat (length [])) with (1 + Z.of_nat 0).
  change (1 + Z.of_nat 0 =? ROOTINO) with true. wp_step. wp_step.
  wp_call (add_entry_spec s1 _ 0 T_DIR [] (1 + Z.of_nat 0) Img.name_dot H1 eq_refl); [lia|by right; left|done|vm_compute; discriminate|]. intros u2 s2 H2.
  wp_call (add_entry_spec s2 _ 0 T_DIR _ (1 + Z.of_nat 0) Img.name_dotdot H2 eq_refl); [lia|by do 2 right; left|done|vm_compute; discriminate|]. intros u3 s3 H3.
  wp_call (ialloc_spec s3 _ T_DIR H3); [done|done|]. intros i s4 [-> H4].
  wp_call (add_entry_spec s4 _ 0 T_DIR _ (1 + Z.of_nat 1) Img.name_mnt H4 eq_refl); [lia|by do 3 right; left|done|vm_compute; discriminate|]. intros u5 s5 H5.
  wp_call (add_entry_spec s5 _ 1 T_DIR [] (1 + Z.of_nat 1) Img.name_dot H5 eq_refl); [lia|by right; left|done|vm_compute; discriminate|]. intros u6 s6 H6.
  wp_call (add_entry_spec s6 _ 1 T_DIR _ (1 + Z.of_nat 0) Img.name_dotdot H6 eq_refl); [lia|by do 2 right; left|done|vm_compute; discriminate|]. intros u7 s7 H7.
  assert (has s7 [(T_DIR, dir_bytes [entry 1 Img.name_dot; entry 1 Img.name_dotdot; entry 2 Img.name_mnt]); (T_DIR, dir_bytes mnt_entries)]) as H8 by exact H7.
  pose proof (length_root files) as Hl. pose proof (dir_bytes_app [entry 1 Img.name_dot; entry 1 Img.name_dotdot; entry 2 Img.name_mnt] (file_entries 2 files)) as Er.
  change (1 + Z.of_nat 0) with ROOTINO.
  wp_call (add_files_spec files s7 _ _ H8 Hok); [simpl; lia| | |].
  - change (S (length [(T_DIR, dir_bytes mnt_entries)])) with 2%nat. rewrite <- Er. fold (root_entries files). rewrite Hl. change NINODES with 200 in Hn. klia.
  - change (S (length [(T_DIR, dir_bytes mnt_entries)])) with 2%nat. rewrite <- Er. fold (root_entries files). exact Hm.
  - intros u8 s8. change (S (length [(T_DIR, dir_bytes mnt_entries)])) with 2%nat. rewrite <- Er. fold (root_entries files). apply HQ.
Qed.

(** *** Layout *)
Lemma mkfs_bblock b : 0 <= b < FSSIZE -> BBLOCK b mkfs_sb = 39.
Proof. intros Hb. unfold BBLOCK. rewrite Z.div_small by klia. reflexivity. Qed.
Lemma mkfs_data l b : log_start l = 2 -> log_size l = 30 -> nmeta <= b < FSSIZE -> data_block mkfs_sb l b.
Proof.
  change nmeta with 40. intros E2 E3 Hb. split.
  - split; [klia|]. unfold in_log. rewrite E2, E3. lia.
  - lia.
  - intros b' Hb'. rewrite mkfs_bblock by (simpl in Hb'; klia). lia.
  - intros inum Hi. pose proof (iblock_range inum Hi). lia.
Qed.
Lemma mkfs_sb_ok l : log_start l = 2 -> log_size l = 30 -> sb_ok mkfs_sb l.
Proof.
  intros E2 E3. assert (forall b, 32 <= b < FSSIZE -> home l b) as Hh by (intros b Hb; split; [klia|]; unfold in_log; rewrite E2, E3; lia).
  assert (forall b, 0 <= b < 1000 -> b / BPB + sb_bmapstart mkfs_sb = 39) as Hb0 by (intros b Hb; rewrite Z.div_small by klia; reflexivity).
  assert (forall i, 0 <= i < 200 -> 32 <= i / IPB + sb_inodestart mkfs_sb <= 38) as Hi0.
  { intros i Hi. change IPB with 32. change (sb_inodestart mkfs_sb) with 32.
    assert (0 <= i / 32 < 7) by (split; [apply Z.div_pos; lia|apply Z.div_lt_upper_bound; lia]). lia. }
  split.
  - simpl. klia.
  - intros b Hb. rewrite (Hb0 b Hb). split; [klia|apply Hh; klia].
  - intros i Hi. specialize (Hi0 i Hi). split; [klia|apply Hh; klia].
  - intros b i Hb Hi. rewrite (Hb0 b Hb). specialize (Hi0 i Hi). lia.
Qed.
Lemma mark_bits n i : (n <= Z.to_nat BPB)%nat -> 0 <= i -> bit_set (Img.mark n zero_block) i = (i <? Z.of_nat n) /\ length (Img.mark n zero_block) = Z.to_nat BSIZE.
Proof.
  intros Hn Hi. induction n as [|n IH].
  - split; [|apply length_replicate]. cbn [Img.mark]. unfold bit_set, byte_at. assert (default 0 (zero_block !! Z.to_nat (i / 8)) = 0) as ->.
    { unfold zero_block. destruct (replicate _ 0 !! _) eqn:E; [|done]. by apply lookup_replicate in E as [-> _]. }
    rewrite Z.land_0_l. by destruct (Z.ltb_spec i (Z.of_nat 0)); [lia|].
  - destruct IH as [IH1 IH2]; [lia|]. cbn [Img.mark]. rewrite length_set_bit. split; [|done]. rewrite bit_set_set; [|lia|done|].
    + rewrite IH1. destruct (Z.eqb_spec (Z.of_nat n) i), (Z.ltb_spec i (Z.of_nat n)), (Z.ltb_spec i (Z.of_nat (S n))); done || lia.
    + rewrite IH2. assert (Z.of_nat n / 8 < BSIZE) by (apply Z.div_lt_upper_bound; klia). pose proof (Z.div_pos (Z.of_nat n) 8 ltac:(lia) ltac:(lia)). lia.
Qed.

(** *** Directories *)
Definition dirent_ok (e : dirent) : Prop := fits 2 (de_inum e) /\ length (de_name e) = Z.to_nat DIRSIZ.
Lemma length_enc_dirent e : dirent_ok e -> length (enc_dirent e) = 16%nat.
Proof. intros [_ H]. unfold enc_dirent. by rewrite length_app, length_le_enc, H. Qed.
Lemma dir_bytes_lookup es k e i : Forall dirent_ok es -> es !! k = Some e -> (i < 16)%nat -> dir_bytes es !! (16 * k + i)%nat = enc_dirent e !! i.
Proof.
  revert k. induction es as [|e0 es IH]; intros k Hok He Hi; [by rewrite lookup_nil in He|]. apply Forall_cons in Hok as [Hok0 Hok].
  change (dir_bytes (e0 :: es)) with (enc_dirent e0 ++ dir_bytes es). destruct k as [|k].
  - injection He as ->. by rewrite lookup_app_l by (rewrite length_enc_dirent by done; lia).
  - rewrite lookup_app_r by (rewrite length_enc_dirent by done; lia). rewrite length_enc_dirent by done.
    rewrite <- (IH k Hok He Hi). f_equal. lia.
Qed.
Lemma dents_bytes V a es m : Forall dirent_ok es -> 16 * Z.of_nat (length es + m) <= MAXFILE * BSIZE ->
  (forall o, 0 <= o < MAXFILE * BSIZE -> fbyte V a o = default 0 (dir_bytes es !! Z.to_nat o)) ->
  dents V a (16 * Z.of_nat (length es + m)) = es ++ replicate m free_dirent.
Proof.
  intros Hok Hmax HV. unfold dents, nents. change sizeof_dirent with 16. rewrite Z.mul_comm, Z.div_mul, Nat2Z.id by lia.
  apply list_eq. intros k. rewrite list_lookup_fmap. destruct (decide (k < length es + m)%nat) as [Hk|Hk].
  2:{ rewrite lookup_seq_ge by lia. rewrite lookup_ge_None_2; [done|]. rewrite length_app, length_replicate. lia. }
  rewrite lookup_seq_lt by done. simpl. unfold dent. change sizeof_dirent with 16.
  assert (forall i, (i < 16)%nat -> fbytes V a (16 * Z.of_nat k) (Z.to_nat 16) !! i = Some (default 0 (dir_bytes es !! (16 * k + i)%nat))) as Hb.
  { intros i Hi. unfold fbytes. rewrite list_lookup_fmap, lookup_seq_lt by (change (Z.to_nat 16) with 16%nat; lia). simpl.
    rewrite HV by lia. do 3 f_equal. lia. }
  assert (forall i, (16 <= i)%nat -> fbytes V a (16 * Z.of_nat k) (Z.to_nat 16) !! i = None) as Hb'.
  { intros i Hi. unfold fbytes. by rewrite list_lookup_fmap, lookup_seq_ge by (change (Z.to_nat 16) with 16%nat; lia). }
  destruct (decide (k < length es)%nat) as [Hke|Hke].
  - destruct (lookup_lt_is_Some_2 es k Hke) as [e He]. rewrite lookup_app_l, He by done. f_equal.
    assert (dirent_ok e) as Hoke by (rewrite Forall_forall in Hok; apply Hok; by eapply list_elem_of_lookup_2).
    assert (fbytes V a (16 * Z.of_nat k) (Z.to_nat 16) = enc_dirent e) as ->; [|rewrite <- (app_nil_r (enc_dirent e)); by apply dec_enc_dirent; apply Hoke].
    apply list_eq. intros i. destruct (decide (i < 16)%nat) as [Hi|Hi].
    + rewrite Hb, (dir_bytes_lookup es k e i) by done. destruct (lookup_lt_is_Some_2 (enc_dirent e) i) as [v ->]; [by rewrite length_enc_dirent|done].
    + rewrite Hb' by lia. symmetry. apply lookup_ge_None_2. rewrite length_enc_dirent by done. lia.
  - rewrite lookup_app_r by lia. assert (replicate m free_dirent !! (k - length es)%nat = Some free_dirent) as -> by (apply lookup_replicate; split; [done|lia]). f_equal.
    assert (fbytes V a (16 * Z.of_nat k) (Z.to_nat 16) = replicate 16 0) as ->; [|reflexivity].
    apply list_eq. intros i. destruct (decide (i < 16)%nat) as [Hi|Hi].
    + rewrite Hb by done. symmetry. apply lookup_replicate. split; [|done]. rewrite lookup_ge_None_2; [done|].
      rewrite length_dir_bytes by (eapply Forall_impl; [exact Hok|]; intros e He; by rewrite length_enc_dirent). change (Z.to_nat sizeof_dirent) with 16%nat. nia.
    + rewrite Hb' by lia. symmetry. apply lookup_ge_None_2. rewrite length_replicate. lia.
Qed.

Lemma fin_lookup (F : list mfile) C j c : (fun f => (mf_type f, mf_bytes f)) <$> F = C -> C !! j = Some c ->
  exists f, F !! j = Some f /\ mf_type f = c.1 /\ mf_bytes f = c.2.
Proof. intros <-. rewrite list_lookup_fmap. destruct (F !! j) as [f|]; [|done]. intros [= <-]. by exists f. Qed.
Lemma fin_length (F : list mfile) files : (fun f => (mf_type f, mf_bytes f)) <$> F = contents files -> length F = (2 + length files)%nat.
Proof. intros HC. rewrite <- (length_fmap (fun f => (mf_type f, mf_bytes f)) F), HC. unfold contents, file_contents. simpl. by rewrite length_fmap. Qed.
Lemma fin_size s F j f : img None s F -> F !! j = Some f -> flen f <= MAXFILE * BSIZE.
Proof.
  intros G Hf. destruct (ig_tight _ _ _ G j f Hf ltac:(done)) as [E _]. pose proof (mo_al _ _ _ (ig_file _ _ _ G j f Hf)) as Ha. rewrite E in Ha.
  unfold nblk in Ha. pose proof (Z.div_mod (flen f + BSIZE - 1) BSIZE ltac:(klia)). pose proof (Z.mod_pos_bound (flen f + BSIZE - 1) BSIZE ltac:(klia)). klia.
Qed.

Lemma entry_ok inum name : 0 <= inum < 2 ^ 16 -> dirent_ok (entry inum name).
Proof. intros Hi. split; [done|]. simpl. apply length_de_name. Qed.
Lemma root_entries_ok files : 3 + Z.of_nat (length files) <= NINODES -> Forall dirent_ok (root_entries files).
Proof.
  change NINODES with 200. intros Hn. unfold root_entries. apply Forall_app. split; [repeat (constructor; [by apply entry_ok|]); constructor|].
  apply Forall_lookup. intros i e He. unfold file_entries in He. rewrite list_lookup_imap in He. destruct (files !! i) as [f|] eqn:Ef; [|done].
  injection He as <-. apply lookup_lt_Some in Ef. apply entry_ok. lia.
Qed.
Lemma root_size n : exists m, (Z.of_nat (16 * n) / BSIZE + 1) * BSIZE = 16 * Z.of_nat (n + m) /\ (m <= 128)%nat.
Proof.
  exists (Z.to_nat (128 * (Z.of_nat (16 * n) / BSIZE + 1)) - n)%nat.
  pose proof (Z.div_mod (Z.of_nat (16 * n)) BSIZE ltac:(klia)). pose proof (Z.mod_pos_bound (Z.of_nat (16 * n)) BSIZE ltac:(klia)).
  pose proof (Z.div_pos (Z.of_nat (16 * n)) BSIZE ltac:(lia) ltac:(klia)). klia.
Qed.
Lemma boot_disk V dk : V (ROOTDEV, 1) = sb_block -> V (ROOTDEV, 2) = zero_block -> (forall k, length (dread dk k) = Z.to_nat BSIZE) ->
  (forall b, 0 <= b < FSSIZE -> dread dk (ROOTDEV, b) = V (ROOTDEV, b)) ->
  log_disk mkfs_log dk /\ hd_n (dread dk (ROOTDEV, log_start mkfs_log)) = 0.
Proof.
  intros E1 E2 Hl Hd. pose proof (Hd 1 ltac:(klia)) as D1. pose proof (Hd 2 ltac:(klia)) as D2. rewrite E1 in D1. rewrite E2 in D2.
  assert (dec_superblock sb_block = mkfs_sb) as Es by (vm_compute; reflexivity).
  assert (hd_n zero_block = 0 /\ hd_blocks zero_block = []) as [Hn Hb] by (vm_compute; done).
  assert (log_disk mkfs_log dk) as L; [|split; [done|]; cbn [mkfs_log log_start]; by rewrite D2].
  split; cbn [mkfs_log log_dev log_start log_size]; rewrite ?D1, ?D2, ?Es, ?Hn, ?Hb; try done; try klia; constructor.
Qed.

Section finish.
Context (s : image) (F : list mfile) (files : list (list Z * list (list Z))) (G : img None s F).
Context (HC : (fun f => (mf_type f, mf_bytes f)) <$> F = contents files) (Hn : 3 + Z.of_nat (length files) <= NINODES).
Context (size : Z) (Hsize : 0 <= size < 2 ^ 32) (V : blk -> list Z).
Context (HV : forall b, V (ROOTDEV, b) = if b =? 39 then Img.mark (Z.to_nat (im_freeblock s)) zero_block else
  iview (put_inode s ROOTINO (mk_dinode T_DIR 0 0 1 size (di_addrs (dinode_at (iview s) ROOTINO)))) (ROOTDEV, b)).

Definition fin_di : dinode := mk_dinode T_DIR 0 0 1 size (di_addrs (dinode_at (iview s) ROOTINO)).
Lemma fin_fits : dinode_fits fin_di.
Proof using All.
  destruct (fin_lookup F _ 0 _ HC eq_refl) as (f & Hf & Et & _). pose proof (file_fits _ _ _ _ _ G Hf (fin_size s F 0 f G Hf)) as [A1 A2 A3].
  pose proof (ig_ino _ _ _ G 0 f Hf ltac:(done)) as E. unfold fin_di. change ROOTINO with (1 + Z.of_nat 0). rewrite E. simpl in *.
  rewrite Et in A1. split; [done|unfold fits; simpl; lia|done].
Qed.
Lemma fin_view b : nmeta <= b -> V (ROOTDEV, b) = iview s (ROOTDEV, b).
Proof using All.
  change nmeta with 40. intros Hb. rewrite HV. destruct (Z.eqb_spec b 39); [lia|]. rewrite (img_put_view _ _ _ G) by (done || (change (IBLOCK ROOTINO mkfs_sb) with 32; lia)). done.
Qed.
Lemma fin_meta b : 0 <= b < 32 -> V (ROOTDEV, b) = meta_block b.
Proof using All.
  intros Hb. rewrite HV. destruct (Z.eqb_spec b 39); [lia|]. rewrite (img_put_view _ _ _ G) by (done || (change (IBLOCK ROOTINO mkfs_sb) with 32; lia)).
  apply (ig_meta _ _ _ G). left. change (sb_inodestart mkfs_sb) with 32. lia.
Qed.
Lemma fin_inode inum : 0 <= inum < NINODES -> dinode_at V inum = if inum =? ROOTINO then fin_di else dinode_at (iview s) inum.
Proof using All.
  intros Hi. pose proof (put_at _ _ _ G ROOTINO fin_di ltac:(done) fin_fits inum Hi) as E. rewrite <- E.
  unfold dinode_at. rewrite HV. pose proof (iblock_range inum Hi). by destruct (Z.eqb_spec (IBLOCK inum mkfs_sb) 39); [lia|].
Qed.
Lemma fin_mfile j f : F !! j = Some f -> mfile_ok V (im_freeblock s) f.
Proof using All.
  intros Hf. eapply mfile_ok_frame; [by apply (ig_file _ _ _ G j)|done|]. intros b Hb. apply fin_view. apply (mo_own _ _ _ (ig_file _ _ _ G j f Hf)) in Hb. lia.
Qed.
Lemma fin_used b : 0 <= b < FSSIZE -> used mkfs_sb V b = (b <? im_freeblock s).
Proof using All.
  intros Hb. unfold used. rewrite mkfs_bblock, Z.mod_small, HV by (done || klia). rewrite Z.eqb_refl. pose proof (ig_max _ _ _ G) as Hm. change nmeta with 40 in Hm.
  destruct (mark_bits (Z.to_nat (im_freeblock s)) b) as [-> _]; [klia|lia|]. by rewrite Z2Nat.id by lia.
Qed.
Lemma fin_file_ok j f : F !! j = Some f -> file_ok mkfs_sb mkfs_log V (mf_addrs f).
Proof using All.
  intros Hf. pose proof (fin_mfile j f Hf) as [? ? Own ? ? ? ? ?]. split; try done. intros b Hb%Own. pose proof (ig_max _ _ _ G).
  assert (nmeta <= b < FSSIZE) as Hr by lia. assert (0 <= b < FSSIZE) as Hr' by (change nmeta with 40 in Hr; lia).
  split; [done|]. split; [rewrite fin_used by done; apply Z.ltb_lt; lia|by apply mkfs_data].
Qed.
Lemma fin_dents j f es m : F !! j = Some f -> mf_bytes f = dir_bytes es -> Forall dirent_ok es -> 16 * Z.of_nat (length es + m) <= MAXFILE * BSIZE ->
  dents V (mf_addrs f) (16 * Z.of_nat (length es + m)) = es ++ replicate m free_dirent.
Proof using All. intros Hf Eb Hok Hm. apply dents_bytes; [done|done|]. intros o Ho. rewrite <- Eb. by apply (mo_bytes _ _ _ (fin_mfile j f Hf)). Qed.

Lemma fin_addrs inum j f : F !! j = Some f -> inum = 1 + Z.of_nat j -> di_addrs (dinode_at V inum) = mf_addrs f.
Proof using All.
  intros Hf ->. pose proof (lookup_lt_Some _ _ _ Hf) as Hlt. rewrite (fin_length F files HC) in Hlt. rewrite fin_inode by (change NINODES with 200 in *; lia).
  pose proof (ig_ino _ _ _ G j f Hf ltac:(done)) as E. destruct (Z.eqb_spec (1 + Z.of_nat j) ROOTINO) as [Ej|].
  - unfold fin_di. rewrite <- Ej, E. done.
  - by rewrite E.
Qed.
Lemma fin_bytes j f : F !! j = Some f -> fbytes V (mf_addrs f) 0 (length (mf_bytes f)) = mf_bytes f.
Proof using All.
  intros Hf. pose proof (fin_size s F j f G Hf) as Hs. unfold flen in Hs. apply list_eq. intros k. unfold fbytes. rewrite list_lookup_fmap.
  destruct (decide (k < length (mf_bytes f))%nat) as [Hk|Hk]; [|rewrite lookup_seq_ge, lookup_ge_None_2 by lia; done].
  rewrite lookup_seq_lt by done. cbn [fmap option_fmap option_map]. rewrite Nat.add_0_l, Z.add_0_l, (mo_bytes _ _ _ (fin_mfile j f Hf)), Nat2Z.id by lia.
  by destruct (lookup_lt_is_Some_2 _ _ Hk) as [v ->].
Qed.
Lemma fin_image : size = (Z.of_nat (length (dir_bytes (root_entries files))) / BSIZE + 1) * BSIZE -> mkfs_image V (im_freeblock s) files.
Proof using All.
  intros Hsz. pose proof (fin_length F files HC) as HlF. change NINODES with 200 in *. pose proof (ig_max _ _ _ G) as Hfb.
  assert (V (ROOTDEV, 1) = sb_block) as V1 by (by rewrite fin_meta). split.
  - intros dk. apply boot_disk; [done|by rewrite fin_meta].
  - split; [rewrite V1; vm_compute; reflexivity|by apply mkfs_sb_ok].
  - intros b Hb. by apply fin_used.
  - intros b Hb. change (0 <= b < FSSIZE) in Hb. rewrite fin_used by done. intros Hu%Z.ltb_ge. apply mkfs_data; [done|done|lia].
  - intros i f Hi. destruct (fin_lookup F _ (2 + i) (T_FILE, concat f.2) HC) as (g & Hg & Eg & Bg); [unfold contents, file_contents; simpl; by rewrite list_lookup_fmap, Hi|].
    pose proof (lookup_lt_Some _ _ _ Hi). exists (mf_addrs g). simpl in Eg, Bg. split; [|split; [by eapply fin_file_ok|]].
    + replace (3 + Z.of_nat i) with (1 + Z.of_nat (2 + i)) by lia. rewrite fin_inode by (change NINODES with 200; lia).
      destruct (Z.eqb_spec (1 + Z.of_nat (2 + i)) ROOTINO) as [E|_]; [change ROOTINO with 1 in E; lia|].
      rewrite (ig_ino _ _ _ G _ g Hg) by done. unfold file_dinode, flen. by rewrite Eg, Bg.
    + rewrite <- Bg. by eapply fin_bytes.
  - destruct (fin_lookup F _ 0 _ HC eq_refl) as (f & Hf & Tf & Bf). simpl in Bf, Tf. destruct (root_size (3 + length files)) as (m & Em & Hm).
    rewrite length_root in *. change (Z.to_nat sizeof_dirent) with 16%nat in *. exists (mf_addrs f), m. rewrite <- Hsz. split; [|split; [by eapply fin_file_ok|]].
    + rewrite fin_inode by done. rewrite Z.eqb_refl. unfold fin_di. change ROOTINO with (1 + Z.of_nat 0). by rewrite (ig_ino _ _ _ G 0 f Hf).
    + assert (length (root_entries files) = (3 + length files)%nat) as El by (unfold root_entries, file_entries; by rewrite length_app, length_imap).
      rewrite Hsz, Em, <- El. apply (fin_dents 0); [done|done|apply root_entries_ok; change NINODES with 200; lia|rewrite El; klia].
  - destruct (fin_lookup F _ 1 _ HC eq_refl) as (f & Hf & Tf & Bf). simpl in Bf, Tf. exists (mf_addrs f). split; [|split; [by eapply fin_file_ok|]].
    + rewrite fin_inode by done. change (2 =? ROOTINO) with false. change 2 with (1 + Z.of_nat 1) at 1. rewrite (ig_ino _ _ _ G 1 f Hf) by done.
      unfold file_dinode, flen. by rewrite Tf, Bf.
    + change 32 with (16 * Z.of_nat (length mnt_entries + 0)). rewrite (fin_dents 1 f mnt_entries 0) by (done || (repeat (constructor; [by apply entry_ok|]); constructor)).
      by rewrite app_nil_r.
  - intros i j b Hi Hj Hne. destruct (lookup_lt_is_Some_2 F (Z.to_nat (i - 1))) as [f Hf]; [lia|]. destruct (lookup_lt_is_Some_2 F (Z.to_nat (j - 1))) as [g Hg]; [lia|].
    rewrite (fin_addrs i _ f Hf), (fin_addrs j _ g Hg) by lia.
    assert (forall k e, F !! k = Some e -> in_file V (mf_addrs e) b <-> in_file (iview s) (mf_addrs e) b) as Hiff.
    { intros k e He. apply img_in_file_ext, fblock_frame. intros b' Hb'. apply fin_view. apply (mo_own _ _ _ (ig_file _ _ _ G k e He)) in Hb'. lia. }
    rewrite (Hiff _ f Hf), (Hiff _ g Hg). apply (ig_disj _ _ _ G (Z.to_nat (i - 1)) (Z.to_nat (j - 1))); [lia|done|done].
  - intros inum Hi. change NINODES with 200 in Hi. rewrite fin_inode by (change NINODES with 200; lia). destruct (Z.eqb_spec inum ROOTINO) as [E|]; [change ROOTINO with 1 in E; lia|].
    apply (ig_free _ _ _ G). right. change NINODES with 200. lia.
Qed.
End finish.

(** C16: Running mkfs on files whose names have no slash, whose sizes the
    inodes can address and which fit on the disk succeeds, and the image is a
    file system as the kernel assumes it: the superblock and an empty log from
    which the kernel boots, a bitmap that marks exactly the blocks in use,
    every file under its own inode with its bytes, well-formed and sharing no
    block with another; the root directory lists [.], [..], [mnt] and the
    files, under their names cut to [DIRSIZ] and without a leading underscore,
    and after them free entries; the other inodes are free. *)
Theorem mkfs_correct files :
  Forall file_ok_arg files -> 3 + Z.of_nat (length files) <= NINODES -> nmeta + need (contents files) <= FSSIZE ->
  wp (Img.main files) (fun _ s => length (im_blocks s) = Z.to_nat FSSIZE /\ mkfs_image (iview s) (im_freeblock s) files) new_image.
Proof.
  intros Hok Hn Hm. apply main_files; [done|done|done|]. intros s (F & G & HC).
  pose proof (ig_len _ _ _ G) as Hlen. pose proof (ig_max _ _ _ G) as Hfb. change nmeta with 40 in Hfb.
  eapply wp_run; [apply rinode_run; [done|done]|]. cbv zeta.
  destruct (fin_lookup F _ 0 _ HC eq_refl) as (f0 & H0 & T0 & B0). simpl in T0, B0.
  pose proof (ig_ino _ _ _ G 0 f0 H0 ltac:(done)) as E0. change (1 + Z.of_nat 0) with ROOTINO in E0.
  set (size := (Z.of_nat (length (dir_bytes (root_entries files))) / BSIZE + 1) * BSIZE).
  assert (Z.of_nat (length (dir_bytes (root_entries files))) <= 3200) as Hl by (rewrite length_root; change (Z.to_nat sizeof_dirent) with 16%nat; change NINODES with 200 in Hn; lia).
  assert (0 <= size < 2 ^ 32) as Hs.
  { unfold size. pose proof (Z.div_pos (Z.of_nat (length (dir_bytes (root_entries files)))) BSIZE ltac:(lia) ltac:(klia)).
    assert (Z.of_nat (length (dir_bytes (root_entries files))) / BSIZE < 2) by (apply Z.div_lt_upper_bound; klia). klia. }
  assert (xint ((xint (di_size (dinode_at (iview s) ROOTINO)) / BSIZE + 1) * BSIZE) = size) as ->.
  { rewrite E0. cbn [file_dinode di_size]. unfold flen. rewrite B0, (xint_small (Z.of_nat _)) by lia. by apply xint_small. }
  assert (di_type (dinode_at (iview s) ROOTINO) = T_DIR /\ di_major (dinode_at (iview s) ROOTINO) = 0 /\ di_minor (dinode_at (iview s) ROOTINO) = 0 /\
    di_nlink (dinode_at (iview s) ROOTINO) = 1) as (-> & -> & -> & ->) by (rewrite E0; cbn [file_dinode di_type di_major di_minor di_nlink]; done).
  eapply wp_run; [apply winode_run; [done|done]|]. wp_step. wp_step. set (s1 := put_inode s _ _).
  assert (im_freeblock s1 = im_freeblock s) as Ef by done. unfold Img.balloc. rewrite Ef.
  destruct (Z.ltb_spec (im_freeblock s) (BSIZE * 8)); [|klia]. cbn [negb]. change (sb_bmapstart mkfs_sb) with 39.
  assert (length (im_blocks s1) = Z.to_nat FSSIZE) as Hl1 by (simpl; by rewrite length_insert).
  unfold wp. rewrite wsect_run by (done || klia). split; [simpl; by rewrite length_insert|].
  change (im_freeblock (written_sect 39 (Img.mark (Z.to_nat (im_freeblock s)) zero_block) s1)) with (im_freeblock s).
  eapply fin_image; [exact G|exact HC|exact Hn|exact Hs| |done]. intros b. apply written_view; [done|klia].
Qed.

(** A file of one block and an empty one. *)
Lemma mkfs_correct_witness : wp (Img.main [([95; 97; 0], [[1; 2; 3]]); ([98; 0], [])])
  (fun _ s => length (im_blocks s) = Z.to_nat FSSIZE /\
    mkfs_image (iview s) (im_freeblock s) [([95; 97; 0], [[1; 2; 3]]); ([98; 0], [])]) new_image.
Proof.
  apply (mkfs_correct [([95; 97; 0], [[1; 2; 3]]); ([98; 0], [])]).
  - repeat constructor; unfold terminated; try set_solver; simpl; klia.
  - simpl. change NINODES with 200. lia.
  - vm_compute. discriminate.
Defined.
