(* ===== verification/Machine.v ===== *)
(** * A concrete machine

  A booting kernel over a disk laid out as mkfs.c lays it out (superblock in
  block 1, a log of 30 blocks from block 2, inodes from 32, bitmap at 39),
  used to exhibit the theorems at concrete states. *)
From S2P Require Import Prelude Params Layout KState Driver Dll Bio Cache Log LogCrash Mkfs.

Definition demo_block1 : list Z := splice zero_block 0 (enc_superblock mkfs_sb).
(** The bitmap marks the first [nmeta] blocks and blocks 45 and 46. *)
Definition demo_bitmap : list Z := splice zero_block 0 [255; 255; 255; 255; 255; 96].
Definition demo_disk : gmap blk (list Z) := <[ (1, 39) := demo_bitmap ]> {[ (1, 1) := demo_block1 ]}.

(** The globals at boot: zeroed memory. *)
Definition zero_log : log := mk_log 0 0 0 false 0 0 (replicate (Z.to_nat LOGSIZE) 0).
Definition zero_inode : inode := mk_inode 0 0 0 no_lock false 0 0 0 0 0 ANull None.
Definition zero_addrs (n : Z) : addrs := mk_addrs 0 (replicate (Z.to_nat n) 0).
Definition boot_kstate (dk : gmap blk (list Z)) : kstate :=
  mk_kstate dk [] (replicate (S bhead) (zero_buf zero_block)) [] true true zero_log
    (dec_superblock zero_block) (dec_ext2_superblock zero_block)
    (replicate (Z.to_nat NINODE) zero_inode) (replicate (Z.to_nat NINODE) (zero_addrs (NDIRECT + 1)))
    (replicate (Z.to_nat NINODE) (zero_addrs EXT2_N_BLOCKS)) 1 0.

Definition demo_log : log := mk_log 2 30 0 false 1 0 (replicate (Z.to_nat LOGSIZE) 0).

Lemma boot_kstate_booting dk : booting (boot_kstate dk) dk.
Proof. split; reflexivity. Qed.

Lemma dread_demo k : dread demo_disk k =
  if decide (k = (1, 39)) then demo_bitmap else if decide (k = (1, 1)) then demo_block1 else zero_block.
Proof.
  unfold demo_disk. rewrite dread_insert. destruct (decide (k = (1, 39))) as [->|Hne]; [by rewrite fn_lookup_insert|].
  rewrite fn_lookup_insert_ne by done. unfold dread, disk_read. destruct k as [a b]. simpl.
  destruct (decide ((a, b) = (1, 1))) as [[= -> ->]|Hne']; [by rewrite lookup_singleton_eq|].
  by rewrite lookup_singleton_ne.
Qed.

Lemma length_demo_bitmap : length demo_bitmap = Z.to_nat BSIZE.
Proof. vm_compute. reflexivity. Qed.
Lemma length_demo_block1 : length demo_block1 = Z.to_nat BSIZE.
Proof. vm_compute. reflexivity. Qed.

Lemma hd_zero_block : hd_n zero_block = 0 /\ hd_blocks zero_block = [].
Proof. vm_compute. done. Qed.

Lemma dec_demo_block1 : dec_superblock demo_block1 = mkfs_sb.
Proof. vm_compute. reflexivity. Qed.

Lemma demo_log_disk : log_disk demo_log demo_disk.
Proof.
  assert (dread demo_disk (1, 1) = demo_block1) as E1 by (by rewrite dread_demo).
  assert (dread demo_disk (1, 2) = zero_block) as E2 by (by rewrite dread_demo).
  destruct hd_zero_block as [Hn Hb].
  split; cbn [demo_log log_dev log_start log_size]; rewrite ?E1, ?E2, ?dec_demo_block1, ?Hn, ?Hb.
  - intros k. rewrite dread_demo.
    destruct (decide _); [apply length_demo_bitmap|]. destruct (decide _); [apply length_demo_block1|apply length_replicate].
  - reflexivity.
  - reflexivity.
  - lia.
  - klia.
  - lia.
  - constructor.
  - constructor.
Qed.

(** ** A transaction in progress *)
#[local] Existing Instance ide_driver.

Definition demo_update (d : list Z) : list Z := splice d 0 [7; 7; 7; 7].

(** Boot, [begin_op], and one logged update of block 45. *)
Definition demo_prog : M kstate unit :=
  boot_fs 1 ;; begin_op ;; bmodify 1 45 demo_update.

Definition demo_boot : kstate := boot_kstate demo_disk.

(** The states in which a system call has logged block 45 and not ended. *)
Record demo_state (s : kstate) (c : cache) : Prop := {
  ds_rep : rep s c;
  ds_held : c_held c = ∅;
  ds_wf : log_wf (k_log s);
  ds_pins : log_pins c (k_log s);
  ds_logged : logged (k_log s) = [45];
  ds_same : same_log demo_log (k_log s);
  ds_disk : log_disk demo_log (k_disk s);
  ds_empty : hd_n (dread (k_disk s) (1, 2)) = 0;
  ds_view : bview s 1 45 <> dread (k_disk s) (1, 45);
  ds_log : lh_n (k_log s) = 1 /\ log_outstanding (k_log s) = 1 /\ log_committing (k_log s) = false;
  ds_dd : k_idequeue s = [] /\ k_havedisk1 s = true /\ k_havedisk2 s = true;
  ds_frame : log_frame demo_boot s;
  ds_views : forall b, b <> 2 -> b <> 45 -> c_view c (1, b) = dread demo_disk (1, b);
  ds_45 : c_view c (1, 45) = demo_update zero_block
}.

Lemma demo_ide_ok s b :
  k_idequeue s = [] -> k_havedisk1 s = true -> k_havedisk2 s = true -> b < FSSIZE ->
  dd_ok s 1 b.
Proof. intros. by split_and!. Qed.

Lemma log_frame_dd s s' :
  log_frame s s' -> k_idequeue s' = k_idequeue s /\ k_havedisk1 s' = k_havedisk1 s /\ k_havedisk2 s' = k_havedisk2 s.
Proof. intros G. rewrite G. done. Qed.

Lemma demo_boot_dd : boot_dd demo_boot demo_log demo_disk.
Proof.
  intros b Hb. apply demo_ide_ok; [done..|].
  assert (dread demo_disk (log_dev demo_log, log_start demo_log) = zero_block) as E
    by (by rewrite dread_demo).
  rewrite E, (proj2 hd_zero_block) in Hb. destruct Hb as [->|[[_ Hb]|Hb]]; [klia| |by apply elem_of_nil in Hb].
  simpl in Hb. klia.
Qed.

Lemma demo_recovery_writes :
  recovery_writes demo_log demo_disk = [((1, 2), head_put 0 [] zero_block)].
Proof.
  assert (dread demo_disk (1, 2) = zero_block) as E by (by rewrite dread_demo).
  unfold recovery_writes, recover_writes, install_ws. rewrite logged_disk_log.
  cbn [demo_log log_dev log_start]. rewrite E, (proj2 hd_zero_block). simpl imap.
  unfold head_w. cbn [disk_log demo_log set_lh_n set_lh_block log_dev log_start app]. by rewrite E.
Qed.

Lemma demo_header : hd_n (dread (replay demo_disk (recovery_writes demo_log demo_disk)) (1, 2)) = 0.
Proof.
  rewrite demo_recovery_writes. simpl. rewrite dread_insert, fn_lookup_insert. by apply hd_n_head_put.
Qed.

Lemma demo_block45 : dread (replay demo_disk (recovery_writes demo_log demo_disk)) (1, 45) = zero_block.
Proof.
  rewrite demo_recovery_writes. simpl. rewrite dread_insert, fn_lookup_insert_ne by done.
  by rewrite dread_demo.
Qed.

Lemma demo_changes d d' : d' = zero_block -> demo_update d <> d'.
Proof.
  intros -> E. apply (f_equal head) in E. unfold demo_update, splice in E. rewrite take_0 in E. discriminate E.
Qed.

Lemma demo_reached : wp demo_prog (fun _ s => exists c, demo_state s c) demo_boot.
Proof.
  unfold demo_prog. pose proof demo_log_disk as L.
  change (boot_fs 1) with (boot_fs (log_dev demo_log)).
  wp_call (boot_fs_spec demo_boot demo_disk demo_log (boot_kstate_booting demo_disk) L demo_boot_dd).
  intros _ s1 (R1 & G1 & W1 & E1 & S1 & O1 & C1). destruct S1 as (Sd & Ss & Sz).
  assert (lh_n (k_log s1) = 0) as N1.
  { pose proof (length_logged _ W1) as Hl. rewrite E1 in Hl. pose proof (lw_n _ W1). simpl in Hl. lia. }
  wp_step. unfold wp at 1. rewrite begin_op_spec by (rewrite ?N1, ?O1, ?C1; done).
  set (l2 := set_log_outstanding _ _). set (s2 := set_k_log l2 s1).
  assert (log_frame demo_boot s2) as G2 by (etrans; [exact G1|apply updlog_frame]).
  destruct (log_frame_dd _ _ G2) as (Q1 & Q2 & Q3).
  set (c1 := a_wrote _ _) in R1. assert (clean c1) as Hc by (by apply clean_wrote).
  assert (txn s2 c1 l2) as T.
  { split; [by apply rep_updlog|done|by destruct W1|..].
    - intros k H0. rewrite Hc by done. split; [done|]. intros [_ Hk].
      change (logged l2) with (logged (k_log s1)) in Hk. rewrite E1 in Hk. by apply elem_of_nil in Hk.
    - simpl. rewrite O1. done. }
  assert (log_dev l2 = 1) as Sd2 by exact Sd.
  assert (home l2 45) as Hh by (split; [klia|]; unfold in_log; simpl; rewrite Ss, Sz; simpl; lia).
  rewrite <- Sd2 at 1.
  wp_call (bmodify_spec s2 c1 l2 45 demo_update T Hh).
  { rewrite Sd2. by apply demo_ide_ok; rewrite ?Q1, ?Q2, ?Q3. }
  { done. }
  { simpl. rewrite N1, Sz. done. }
  { simpl. rewrite N1. done. }
  { assert (length (c_view c1 (log_dev l2, 45)) = Z.to_nat BSIZE) as Hlen
      by (apply (rep_length _ _ _ (tx_rep _ _ _ T)); by rewrite Sd2).
    unfold demo_update. rewrite length_splice; [done|]. rewrite Hlen. simpl length. klia. }
  intros _ s3 [T3 G3]. eexists. destruct (log_frame_dd _ _ G3) as (Q1' & Q2' & Q3').
  destruct (log_record_new l2 45) as (W3 & E3 & N3); [by apply T|done| |simpl; rewrite N1, Sz; done|].
  { change (logged l2) with (logged (k_log s1)). rewrite E1. by intros ?%elem_of_nil. }
  assert (same_log demo_log (k_log s3)) as S3.
  { rewrite (tx_log _ _ _ T3). unfold log_record. by destruct (_ =? _). }
  destruct (recovery_done demo_log demo_disk L) as [Ld _].
  split; rewrite ?(tx_log _ _ _ T3).
  - apply T3.
  - done.
  - apply T3.
  - apply T3.
  - rewrite E3. change (logged l2) with (logged (k_log s1)). by rewrite E1.
  - by rewrite <- (tx_log _ _ _ T3).
  - rewrite (rep_disk _ _ (tx_rep _ _ _ T3)). exact Ld.
  - rewrite (rep_disk _ _ (tx_rep _ _ _ T3)). apply demo_header.
  - rewrite (rep_disk _ _ (tx_rep _ _ _ T3)), (rep_view _ _ (tx_rep _ _ _ T3)) by done.
    cbn [a_modify c_view c_disk]. rewrite Sd2, fn_lookup_insert. apply demo_changes. apply demo_block45.
  - split_and!; [simpl in N3; rewrite N3, N1; done| |]; unfold log_record; destruct (_ =? _); simpl; rewrite ?O1, ?C1; done.
  - rewrite Q1', Q2', Q3', Q1, Q2, Q3. done.
  - etrans; [exact G2|exact G3].
  - intros b H2 H45. cbn [a_modify c_view]. rewrite Sd2, fn_lookup_insert_ne by (intros [=]; lia).
    unfold c1. rewrite demo_recovery_writes. cbn [a_wrote c_view]. unfold replayf. cbn [foldl fst snd].
    rewrite fn_lookup_insert_ne by (intros [=]; lia). reflexivity.
  - cbn [a_modify c_view]. rewrite Sd2, fn_lookup_insert. apply (f_equal demo_update).
    unfold c1. rewrite demo_recovery_writes. cbn [a_wrote c_view]. unfold replayf. cbn [foldl fst snd].
    rewrite fn_lookup_insert_ne by (intros [=]; lia). change (dread demo_disk (1, 45) = zero_block). by rewrite dread_demo.
Qed.

(** ** The theorems at this machine *)
Lemma demo_log_dd s c : demo_state s c -> log_dd s (k_log s).
Proof.
  intros H b Hb. destruct (ds_same _ _ H) as (-> & E2 & E3), (ds_dd _ _ H) as (Q1 & Q2 & Q3).
  apply demo_ide_ok; [done..|]. rewrite (ds_logged _ _ H) in Hb. unfold in_log in Hb. rewrite E2, E3 in Hb.
  simpl in Hb. destruct Hb as [Hb|Hb]; [klia|]. apply list_elem_of_singleton in Hb as ->. klia.
Qed.

Lemma demo_one s c : demo_state s c -> 1 ∉ logged (k_log s).
Proof. intros H. rewrite (ds_logged _ _ H), list_elem_of_singleton. lia. Qed.

Lemma demo_exists : exists s c, demo_state s c.
Proof.
  destruct (proj1 (wp_Ret _ _ _) demo_reached) as (? & s & _ & c & H). by exists s, c.
Qed.

Lemma commit_crash_safe_witness : exists s c, demo_state s c /\
  wp commit (fun _ s' => exists ws,
    k_writes s' = k_writes s ++ ws /\ k_disk s' = replay (k_disk s) ws /\
    forall m s0, booting s0 (replay (k_disk s) (take m ws)) ->
      dd_ok s0 (log_dev (k_log s)) 1 -> log_dd s0 (k_log s) ->
      wp (boot_fs (log_dev (k_log s))) (fun _ s1 =>
        (forall k, off_log (k_log s) k -> bview s1 k.1 k.2 =
           if decide (length (logged (k_log s)) < m)%nat then bview s k.1 k.2 else dread (k_disk s) k) /\
        logged (k_log s1) = []) s0) s.
Proof.
  destruct demo_exists as (s & c & H). exists s, c. split; [exact H|].
  destruct (ds_same _ _ H) as (E1 & E2 & E3).
  apply (commit_crash_safe s c (k_log s)); try apply H; try done.
  - by apply (demo_log_dd s c).
  - destruct (ds_log _ _ H) as [-> _]. lia.
  - by apply (demo_one s c).
  - apply (log_disk_same demo_log); [by split_and!|apply H].
  - rewrite E1, E2. apply H.
Defined.

Lemma end_op_durable_witness : exists s c, demo_state s c /\
  wp end_op (fun _ s' =>
    (forall k, off_log (k_log s) k -> dread (k_disk s') k = bview s k.1 k.2 /\ bview s' k.1 k.2 = bview s k.1 k.2) /\
    (forall k, off_log (k_log s) k -> dirtyb s' k.1 k.2 = false) /\
    logged (k_log s') = [] /\ log_outstanding (k_log s') = 0) s.
Proof.
  destruct demo_exists as (s & c & H). exists s, c. split; [exact H|].
  apply (end_op_durable s c (k_log s)); try apply H; try done.
  - by apply (demo_log_dd s c).
  - by apply (demo_one s c).
  - apply (log_disk_same demo_log); apply H.
Defined.

(** The disk after a crash between the commit and the clearing of the header:
    the log holds new contents of block 45. *)
Definition crash_head : list Z := splice zero_block 0 (le_enc 4 1 ++ le_enc 4 45).
Definition crash_disk : gmap blk (list Z) := <[ (1, 2) := crash_head ]> (<[ (1, 3) := demo_update zero_block ]> demo_disk).
Lemma dread_crash k : dread crash_disk k =
  if decide (k = (1, 2)) then crash_head else if decide (k = (1, 3)) then demo_update zero_block else dread demo_disk k.
Proof.
  unfold crash_disk. rewrite dread_insert. destruct (decide (k = (1, 2))) as [->|H1]; [by rewrite fn_lookup_insert|].
  rewrite fn_lookup_insert_ne, dread_insert by done. destruct (decide (k = (1, 3))) as [->|H2]; [by rewrite fn_lookup_insert|].
  by rewrite fn_lookup_insert_ne.
Qed.
Lemma crash_hd : hd_n crash_head = 1 /\ hd_blocks crash_head = [45] /\ length crash_head = Z.to_nat BSIZE /\
  length (demo_update zero_block) = Z.to_nat BSIZE.
Proof. vm_compute. done. Qed.
Lemma crash_log_disk : log_disk demo_log crash_disk.
Proof.
  assert (dread crash_disk (1, 1) = demo_block1) as E1 by (by rewrite dread_crash, !decide_False, dread_demo).
  assert (dread crash_disk (1, 2) = crash_head) as E2 by (by rewrite dread_crash, decide_True).
  destruct crash_hd as (Hn & Hb & L1 & L2).
  split; cbn [demo_log log_dev log_start log_size]; rewrite ?E1, ?E2, ?dec_demo_block1, ?Hn, ?Hb.
  - intros k. rewrite dread_crash. destruct (decide _); [done|]. destruct (decide _); [done|]. apply (ld_len _ _ demo_log_disk).
  - reflexivity.
  - reflexivity.
  - lia.
  - klia.
  - lia.
  - apply NoDup_singleton.
  - apply Forall_singleton. split; [|lia]. split; [klia|]. unfold in_log. simpl. lia.
Qed.
Lemma crash_boot_dd : boot_dd (boot_kstate crash_disk) demo_log crash_disk.
Proof.
  intros b Hb. apply demo_ide_ok; [done..|].
  assert (dread crash_disk (log_dev demo_log, log_start demo_log) = crash_head) as E by (by rewrite dread_crash, decide_True).
  rewrite E in Hb. destruct crash_hd as (_ & Eb & _). rewrite Eb in Hb.
  destruct Hb as [->|[[_ Hb]|Hb]]; [klia|simpl in Hb; klia|]. apply list_elem_of_singleton in Hb as ->. klia.
Qed.
Lemma crash_recovered : recovered demo_log crash_disk (1, 45) = demo_update zero_block.
Proof. vm_compute. reflexivity. Qed.

(** Booting on the empty log, and on the committed one: there block 45 gets
    its new contents. *)
Lemma recovery_crash_safe_witness :
  wp (boot_fs (log_dev demo_log)) (fun _ s' => exists ws,
    k_writes s' = k_writes demo_boot ++ ws /\ k_disk s' = replay demo_disk ws /\
    (forall k, off_log demo_log k -> bview s' k.1 k.2 = recovered demo_log demo_disk k) /\
    (forall m, log_disk demo_log (replay demo_disk (take m ws)) /\
       forall k, off_log demo_log k ->
         recovered demo_log (replay demo_disk (take m ws)) k = recovered demo_log demo_disk k)) demo_boot /\
  wp (boot_fs (log_dev demo_log)) (fun _ s' => bview s' 1 45 = demo_update zero_block) (boot_kstate crash_disk).
Proof.
  split; [exact (recovery_crash_safe demo_boot demo_disk demo_log (boot_kstate_booting demo_disk) demo_log_disk demo_boot_dd)|].
  eapply wp_mono; [exact (recovery_crash_safe _ crash_disk demo_log (boot_kstate_booting crash_disk) crash_log_disk crash_boot_dd)|].
  intros _ s' (ws & _ & _ & Hv & _). rewrite <- crash_recovered. apply (Hv (1, 45)). split; [done|]. intros [_ [_ H]]. simpl in H. lia.
Defined.

Lemma demo_txn s c : demo_state s c -> txn s c (k_log s).
Proof. intros H. split; try apply H; [done|]. destruct (ds_log _ _ H) as (_ & -> & _). lia. Qed.

Lemma txn_updates_witness : exists s c, demo_state s c /\
  wp (forM [(45, demo_update); (46, demo_update); (45, fun d => d)]
        (fun u => bmodify (log_dev (k_log s)) u.1 u.2)) (fun _ s' => exists c' l',
    txn s' c' l' /\ c_held c' = ∅ /\ logged l' = [45; 46] /\
    c_view c' = foldl (fun V u => <[(log_dev (k_log s), u.1) := u.2 (V (log_dev (k_log s), u.1))]> V) (c_view c)
      [(45, demo_update); (46, demo_update); (45, fun d => d)] /\
    k_disk s' = k_disk s /\ k_writes s' = k_writes s) s.
Proof.
  destruct demo_exists as (s & c & H). exists s, c. split; [exact H|].
  destruct (ds_same _ _ H) as (E1 & E2 & E3), (ds_dd _ _ H) as (Q1 & Q2 & Q3), (ds_log _ _ H) as (N & _).
  eapply wp_mono; [apply (txn_updates s c (k_log s) _ (demo_txn _ _ H) (ds_held _ _ H))|].
  - rewrite N, E3. done.
  - assert (forall b, 32 <= b < FSSIZE -> home (k_log s) b /\ dd_ok s (log_dev (k_log s)) b) as Hb.
    { intros b Hb. rewrite E1. split; [|apply demo_ide_ok; [done..|lia]].
      split; [klia|]. unfold in_log. rewrite E2, E3. simpl. klia. }
    do 3 (apply Forall_cons; split; [apply Hb; simpl; klia|]). constructor.
  - assert (forall d, length d = Z.to_nat BSIZE -> length (demo_update d) = Z.to_nat BSIZE) as Hu'.
    { intros d Hd. unfold demo_update. rewrite length_splice; [done|]. rewrite Hd. simpl length. klia. }
    intros u d Hu Hd. rewrite !elem_of_cons in Hu.
    destruct Hu as [->|[->|[->|Hu]]]; [by apply Hu'|by apply Hu'|done|by apply elem_of_nil in Hu].
  - intros _ s' (c' & l' & T & Hh & El & Hv & Hd & Hw). exists c', l'. split_and!; try done.
    rewrite El, (ds_logged _ _ H). reflexivity.
Defined.

Lemma bcache_simulation_witness : exists s c r s' c', demo_state s c /\
  run_bop (OBread 1 46) s = Ret r s' /\ a_step c (OBread 1 46) r c' /\ rep s' c' /\ bio_frame s s'.
Proof.
  destruct demo_exists as (s & c & H). destruct (ds_dd _ _ H) as (Q1 & Q2 & Q3).
  destruct (bcache_simulation s c (OBread 1 46)) as (r & s' & c' & E).
  - apply H.
  - split_and!; [done|by apply demo_ide_ok|by rewrite (ds_held _ _ H)|right].
    eapply sub_pins_free_buf; [apply H|apply pins_sub, H|apply H].
  - exists s, c, r, s', c'. split; [exact H|exact E].
Defined.

(** The state after [binit]. *)
Definition demo_binit : kstate := set_k_bcache (booted_bcache zero_block) demo_boot.

Lemma demo_binit_wf : bc_wf demo_binit /\ pinned demo_binit = 0%nat.
Proof.
  destruct (proj1 (wp_Ret _ _ _) (binit_spec zero_block demo_boot eq_refl (length_replicate _ _)
    (fun dev b => ld_len _ _ demo_log_disk (dev, b)))) as (u & s & E & W & _ & P & _).
  rewrite (binit_run zero_block demo_boot eq_refl) in E. by injection E as _ <-.
Qed.

Lemma bread_evicts_lru_witness : exists l1 i l2 s',
  rev (seq 0 bhead) = l1 ++ i :: l2 /\ bread 1 46 demo_binit = Ret i s' /\
  unused_at (k_bcache demo_binit) i = true /\ Forall (fun j => unused_at (k_bcache demo_binit) j = false) l2 /\
  lru (k_bcache s') (rev (seq 0 bhead)) /\ held s' i 1 46 (disk_read (k_disk demo_binit) 1 46) /\
  (forall dev' b', dev' <> 0 -> bview s' dev' b' = bview demo_binit dev' b') /\
  wp (brelse i) (fun _ s'' => lru (k_bcache s'') (i :: l1 ++ l2)) s'.
Proof.
  destruct demo_binit_wf as [W P].
  apply (bread_evicts_lru demo_binit 1 46 (rev (seq 0 bhead))).
  - exact W.
  - apply booted_lru.
  - lia.
  - by apply demo_ide_ok.
  - rewrite P. klia.
  - intros i x Hx [Hd _]. apply booted_lookup in Hx as ->. done.
Defined.
