(* ===== verification/MachineFs.v ===== *)
(** * The file-system theorems at the concrete machine

  The machine of Machine.v in a transaction, with an inode in the cache: a
  file of four bytes in block 45.  The theorems on the file system are
  exhibited there. *)
From S2P Require Import Prelude Params Layout KState Driver Dll Bio Cache Log LogCrash FsBase FsAlloc Inode Ext2 Vfs Content FileIO Dir Paths Directory Mkfs MkfsSpec Machine.

#[local] Existing Instance ide_driver.
(** No device is registered. *)
#[local] Instance demo_devsw : Devsw := {| dev_read := fun _ => None; dev_write := fun _ => None |}.

Definition root_inode (type size : Z) : inode :=
  mk_inode ROOTDEV 5 1 no_lock true type 0 0 1 size (AAddrs 0) (Some inbuiltfs).
Definition demo_inode : inode := root_inode T_FILE 4.
(** Block 45 read as a directory of two entries: one in use and one free. *)
Definition demo_dir : inode := root_inode T_DIR 32.
(** The block addresses of a file of one block. *)
Definition one_block (b : Z) : list Z := b :: replicate 12 0.
Definition demo_addrs : addrs := mk_addrs 1 (one_block 45).
Definition with_inode (ip : inode) (s : kstate) : kstate :=
  set_k_sb mkfs_sb (set_k_iaddrs (<[0%nat := demo_addrs]> (k_iaddrs s)) (set_k_icache (<[0%nat := ip]> (k_icache s)) s)).
Definition demo_open : kstate -> kstate := with_inode demo_inode.

Section demo.
Context (s : kstate) (c : cache) (H : demo_state s c).

Lemma demo_tables : k_icache s = replicate (Z.to_nat NINODE) zero_inode /\
  k_iaddrs s = replicate (Z.to_nat NINODE) (zero_addrs (NDIRECT + 1)) /\
  k_ext2_addrs s = replicate (Z.to_nat NINODE) (zero_addrs EXT2_N_BLOCKS).
Proof using H. rewrite (ds_frame _ _ H). done. Qed.

Lemma demo_bitmap_view b : 0 <= b < sb_size mkfs_sb -> c_view c (ROOTDEV, BBLOCK b mkfs_sb) = demo_bitmap.
Proof using H.
  intros Hb. rewrite mkfs_bblock by done.
  change ROOTDEV with 1. rewrite (ds_views _ _ H) by lia. by rewrite dread_demo.
Qed.

Lemma demo_used b : 0 <= b < sb_size mkfs_sb -> used mkfs_sb (c_view c) b = bit_set demo_bitmap b.
Proof using H. intros Hb. unfold used. rewrite demo_bitmap_view by done. rewrite Z.mod_small; [done|]. simpl in Hb. klia. Qed.

Lemma demo_bits : forallb (bit_set demo_bitmap) (45 :: 46 :: seqZ 0 40) = true.
Proof. vm_compute. reflexivity. Qed.
Lemma demo_bit b : b ∈ 45 :: 46 :: seqZ 0 40 -> bit_set demo_bitmap b = true.
Proof. intros Hb%list_elem_of_In. exact (proj1 (List.forallb_forall _ _) demo_bits b Hb). Qed.

Lemma demo_low b : 0 <= b < 40 -> used mkfs_sb (c_view c) b = true.
Proof using H.
  intros Hb. rewrite demo_used by (simpl; klia). apply demo_bit. do 2 right. apply elem_of_seqZ. lia.
Qed.
Lemma demo_high b : b = 45 \/ b = 46 -> used mkfs_sb (c_view c) b = true.
Proof using H. intros Hb. rewrite demo_used by (simpl; klia). apply demo_bit. destruct Hb as [->| ->]; [by left|by right; left]. Qed.

Lemma demo_data b : 40 <= b < 1000 -> data_block mkfs_sb (k_log s) b.
Proof using H. intros Hb. destruct (ds_same _ _ H) as (_ & E2 & E3). by apply mkfs_data. Qed.
Lemma demo_sb_ok : sb_ok mkfs_sb (k_log s).
Proof using H. destruct (ds_same _ _ H) as (_ & E2 & E3). by apply mkfs_sb_ok. Qed.

Lemma demo_bitmap_ok : bitmap_ok mkfs_sb (k_log s) (c_view c).
Proof using H.
  intros b Hb Hu. destruct (decide (b < 40)) as [Hlt|Hge]; [rewrite demo_low in Hu by lia; done|].
  apply demo_data. simpl in Hb. klia.
Qed.

Lemma one_fblock V b bn : fblock V (one_block b) bn <> 0 -> bn <= 0 /\ fblock V (one_block b) bn = b.
Proof.
  unfold fblock. change (ind (one_block b)) with 0. change (0 =? 0) with true. cbv iota.
  destruct (Z.ltb_spec bn NDIRECT) as [Hlt|]; [|done]. unfold addr_at, one_block.
  destruct (Z.to_nat bn) as [|k] eqn:E; [intros _; split; [lia|done]|].
  change ((b :: replicate 12 0) !! S k) with (replicate 12 0 !! k).
  destruct (replicate 12 0 !! k) as [v|] eqn:Ek; [|intros Hn; by destruct Hn].
  apply lookup_replicate in Ek as [-> _]. done.
Qed.

Lemma one_in_file V b b' : in_file V (one_block b) b' -> b' = b.
Proof.
  intros [H0 [->|(bn & _ & ->)]]; [done|]. by apply one_fblock in H0 as [_ ->].
Qed.

Lemma demo_file_ok b : b = 45 \/ b = 46 -> file_ok mkfs_sb (k_log s) (c_view c) (one_block b).
Proof using H.
  intros Hb. split.
  - reflexivity.
  - intros b' ->%one_in_file. split; [simpl; klia|]. split; [by apply demo_high|apply demo_data; lia].
  - intros bn bn' ? ? H0 E. apply one_fblock in H0 as E1. rewrite E in H0. apply one_fblock in H0. lia.
  - intros bn _ [_ ->]%one_fblock. change (b <> 0). lia.
Qed.

Lemma demo_nfree : nfree mkfs_sb (c_view c) = 958%nat.
Proof using H.
  transitivity (length (filter (fun b => bit_set demo_bitmap b = false) (seqZ 0 1000))); [|vm_compute; reflexivity].
  unfold nfree. f_equal. apply filter_ext_in. intros b Hb%elem_of_seqZ. rewrite demo_used by (simpl; klia). done.
Qed.

Lemma rep_with ip : rep s c -> rep (with_inode ip s) c.
Proof.
  intros R. pose proof (rep_wf _ _ R) as W. split; try apply R. split; try apply W.
  intros i x Hx. destruct (wf_buf _ W i x Hx). by split.
Qed.

Lemma demo_fsx ip : fsx (with_inode ip s) c (k_log s).
Proof using H.
  destruct (demo_txn _ _ H) as [R ? ? ? ?], (ds_dd _ _ H) as (Q1 & Q2 & Q3), (ds_same _ _ H) as (E1 & _).
  split; [split; try done; by apply rep_with|done|]. intros b Hb. apply demo_ide_ok; [done..|lia].
Qed.

Lemma root_oinode ip : i_dev ip = ROOTDEV -> i_addrs ip = AAddrs 0 ->
  oinode mkfs_sb (with_inode ip s) c (k_log s) 0 ip 0 demo_addrs.
Proof using H.
  intros Hd Ha. destruct demo_tables as (E1 & E2 & _). split; try done.
  - apply demo_fsx.
  - apply demo_sb_ok.
  - apply demo_bitmap_ok.
  - apply H.
  - simpl. by rewrite E1.
  - simpl. by rewrite E2.
  - apply demo_file_ok. by left.
Qed.

Lemma demo_oinode : oinode mkfs_sb (demo_open s) c (k_log s) 0 demo_inode 0 demo_addrs.
Proof using H. by apply root_oinode. Qed.

Lemma with_icache_ok type size : icache_ok (with_inode (root_inode type size) s).
Proof using H.
  destruct demo_tables as (E1 & E2 & E3).
  set (s' := with_inode _ s).
  assert (forall i ip, k_icache s' !! i = Some ip -> i = 0%nat /\ ip = root_inode type size \/ i_ref ip = 0) as Hi.
  { intros i ip Hip. simpl in Hip. rewrite E1 in Hip. destruct i as [|i].
    - left. rewrite list_lookup_insert_eq in Hip by (rewrite length_replicate; klia). by simplify_eq.
    - right. rewrite list_lookup_insert_ne in Hip by done. by apply lookup_replicate in Hip as [-> _]. }
  assert (k_icache s' !! 0%nat = Some (root_inode type size)) as H0.
  { simpl. by rewrite list_lookup_insert_eq by (rewrite E1, length_replicate; klia). }
  split; simpl k_icache in *.
  - by rewrite length_insert, E1, length_replicate.
  - simpl. by rewrite length_insert, E2, length_replicate.
  - simpl. by rewrite E3, length_replicate.
  - intros i ip [[_ ->]| ->]%Hi; simpl; lia.
  - intros i j ip jp [[-> _]|?]%Hi [[-> _]|?]%Hi ? ?; done || lia.
  - intros i ip [[_ ->]|?]%Hi ?; [|lia]. split; [done|]. by exists 0%nat.
  - intros i j ip jp [[-> _]|?]%Hi [[-> _]|?]%Hi ? ?; done || lia.
  - intros j. simpl. rewrite E2. destruct j as [|j].
    + split; [intros _|intros _; eexists; by split]. exists 0%nat, (root_inode type size). done.
    + split.
      * intros (a & Ha & Hb). rewrite list_lookup_insert_ne in Ha by done. by apply lookup_replicate in Ha as [-> _].
      * intros (i & ip & [[_ ->]|?]%Hi & ? & ?); [done|lia].
  - intros j. simpl. rewrite E3. split.
    + intros (a & Ha & Hb). by apply lookup_replicate in Ha as [-> _].
    + intros (i & ip & [[_ ->]|?]%Hi & ? & ?); [done|lia].
Qed.

(** The entries of block 45. *)
Lemma demo_dents : dents (c_view c) (one_block 45) 32 =
  [mk_dirent 1799 (7 :: 7 :: replicate 12 0); mk_dirent 0 (replicate 14 0)].
Proof using H.
  transitivity (dents (fun _ => demo_update zero_block) (one_block 45) 32); [|vm_compute; reflexivity].
  unfold dents. apply list_fmap_ext. intros _ k _. unfold dent. f_equal. apply fbytes_ext. intros o _. unfold fbyte.
  assert (forall bn, fblock (c_view c) (one_block 45) bn = fblock (fun _ => demo_update zero_block) (one_block 45) bn) as E by done.
  rewrite E. destruct (Z.eqb_spec (fblock (fun _ => demo_update zero_block) (one_block 45) (o / BSIZE)) 0) as [|H0]; [done|].
  apply one_fblock in H0 as [_ ->]. change ROOTDEV with 1. by rewrite (ds_45 _ _ H).
Qed.

Lemma demo_odir : odir mkfs_sb (with_inode demo_dir s) c (k_log s) 0 demo_dir 0 demo_addrs.
Proof using H.
  split; [by apply root_oinode|done|done|]. split; [simpl; klia|done|].
  intros bn _ Hbn. change (0 <= bn <= 0) in Hbn. assert (bn = 0) as -> by lia. done.
Qed.

Lemma demo_duniq : duniq (dents (c_view c) (one_block 45) 32).
Proof using H.
  rewrite demo_dents. intros i j e e' n Hi Hj [Hm _] [Hm' _].
  destruct i as [|[|i]], j as [|[|j]]; simplify_eq/=; done.
Qed.
End demo.

Lemma demo_balloc_pre s c : demo_state s c -> balloc_pre mkfs_sb (demo_open s) c (k_log s).
Proof.
  intros H. destruct (ds_log _ _ H) as (N & _), (ds_same _ _ H) as (_ & _ & E3).
  split.
  - by apply (demo_fsx s c).
  - done.
  - by apply (demo_sb_ok s c).
  - by apply demo_bitmap_ok.
  - intros b _ i. by rewrite (ds_held _ _ H).
  - intros b _ _ i. by rewrite (ds_held _ _ H).
  - rewrite N, E3. done.
  - rewrite N, (ds_held _ _ H). done.
Qed.

(** The same image described by a superblock of 40 blocks, all in use. *)
Definition full_sb : superblock := mk_superblock 40 0 NINODES nlog 2 (2 + nlog) (2 + nlog + ninodeblocks).

Lemma demo_full_pre s c : demo_state s c -> balloc_pre full_sb (set_k_sb full_sb (demo_open s)) c (k_log s) /\
  forall b, 0 <= b < sb_size full_sb -> used full_sb (c_view c) b = true.
Proof.
  intros H. pose proof (demo_balloc_pre s c H) as [F _ Ok _ Hm _ ? ?].
  assert (forall b, 0 <= b < sb_size full_sb -> used full_sb (c_view c) b = true) as Hall
    by (intros b Hb; by apply (demo_low s c)).
  split; [|done]. destruct Ok as [Z1 Z2 Z3 Z4]. split; try done.
  - split; [|apply F..]. destruct (fx_txn _ _ _ F) as [R ? ? ? ?]. split; try done.
    pose proof (rep_wf _ _ R) as W. split; try apply R. split; try apply W.
    intros i x Hx. destruct (wf_buf _ W i x Hx). by split.
  - split; [simpl; klia|intros b Hb; apply Z2; simpl in *; klia|exact Z3|intros b i Hb; apply Z4; simpl in *; klia].
  - intros b Hb Hu. by rewrite Hall in Hu.
  - intros b Hb. apply Hm. simpl in *. klia.
  - intros b Hb Hu. by rewrite Hall in Hu.
Qed.

(** ** The theorems *)
Lemma balloc_fresh_witness : exists s c, balloc_pre mkfs_sb s c (k_log s) /\
  wp (balloc ROOTDEV) (fun b s' => exists c' l', fsx s' c' l' /\
    0 <= b < sb_size mkfs_sb /\ used mkfs_sb (c_view c) b = false /\
    (forall b', 0 <= b' < b -> used mkfs_sb (c_view c) b' = true) /\
    c_view c' (ROOTDEV, b) = zero_block /\
    (forall b', 0 <= b' < sb_size mkfs_sb -> used mkfs_sb (c_view c') b' = (b =? b') || used mkfs_sb (c_view c) b') /\
    (forall k, k <> (ROOTDEV, b) -> k <> (ROOTDEV, BBLOCK b mkfs_sb) -> c_view c' k = c_view c k)) s.
Proof.
  destruct demo_exists as (s & c & H). exists (demo_open s), c. pose proof (demo_balloc_pre s c H) as P.
  split; [exact P|]. apply (balloc_fresh mkfs_sb (demo_open s) c (k_log s) 40 P); [done|].
  rewrite (demo_used s c H) by done. reflexivity.
Defined.

Lemma balloc_full_witness : exists s, balloc ROOTDEV s = Panic "balloc: out of blocks".
Proof.
  destruct demo_exists as (s & c & H). exists (set_k_sb full_sb (demo_open s)).
  destruct (demo_full_pre s c H) as [P Hall]. exact (balloc_full full_sb _ c (k_log s) P Hall).
Defined.

Lemma balloc_bfree_witness : exists s c, balloc_pre mkfs_sb s c (k_log s) /\
  wp (b ← balloc ROOTDEV; bfree ROOTDEV b ;; mret b) (fun b s' => exists c' l', fsx s' c' l' /\
    (forall k, k <> (ROOTDEV, b) -> c_view c' k = c_view c k) /\
    bfree ROOTDEV b s' = Panic "freeing free block") s.
Proof.
  destruct demo_exists as (s & c & H). exists (demo_open s), c. pose proof (demo_balloc_pre s c H) as P.
  destruct (ds_log _ _ H) as (N & _), (ds_same _ _ H) as (_ & _ & E3).
  split; [exact P|]. apply (balloc_bfree mkfs_sb (demo_open s) c (k_log s) 40 P); [| |done|].
  - rewrite N, E3. done.
  - rewrite N, (ds_held _ _ H). done.
  - rewrite (demo_used s c H) by done. reflexivity.
Defined.

Lemma boot_icache_ok : icache_ok demo_boot.
Proof.
  assert (forall i ip, k_icache demo_boot !! i = Some ip -> i_ref ip = 0) as H0.
  { intros i ip Hi. change (k_icache demo_boot) with (replicate (Z.to_nat NINODE) zero_inode) in Hi.
    by apply lookup_replicate in Hi as [-> _]. }
  assert (forall n j, ~ busy_at (replicate (Z.to_nat NINODE) (zero_addrs n)) j) as Hb.
  { intros n j (x & Hx & Hbz). apply lookup_replicate in Hx as [-> _]. by apply Hbz. }
  split; try done; try (intros; repeat match goal with K : k_icache _ !! _ = Some _ |- _ => apply H0 in K end; lia).
  - intros j. split; [by intros ?%Hb|]. intros (i & ip & Hi%H0 & ? & _). lia.
  - intros j. split; [by intros ?%Hb|]. intros (i & ip & Hi%H0 & ? & _). lia.
Qed.

Lemma iget_correct_witness : exists k s', iget ROOTDEV ROOTINO demo_boot = Ret k s' /\ iget_post demo_boot ROOTDEV ROOTINO k s'.
Proof.
  destruct (iget_correct demo_boot ROOTDEV ROOTINO boot_icache_ok) as [Hok _].
  destruct Hok as (k & s' & E & P & _).
  - right. exists 0%nat, zero_inode. split; reflexivity.
  - exists k, s'. split; [exact E|exact P].
Defined.

(** Reading ten bytes of the four-byte file. *)
Lemma readi_correct_witness : exists s c, oinode mkfs_sb s c (k_log s) 0 demo_inode 0 demo_addrs /\
  wp (readi 0 0 10) (fun r s' => r = (4, fbytes (c_view c) (a_addrs demo_addrs) 0 4) /\
    fs_next s c (k_log s) [] (c_view c) s' c (k_log s)) s /\ readi 0 5 10 s = Ret (-1, []) s.
Proof.
  destruct demo_exists as (s & c & H). exists (demo_open s), c. pose proof (demo_oinode s c H) as O.
  split; [exact O|]. split.
  - apply (readi_correct mkfs_sb (demo_open s) c (k_log s) 0 demo_inode 0 demo_addrs 0 10 O);
      [done|lia|lia|simpl; klia|simpl; lia|lia|].
    intros bn _ Hbn. change (0 <= bn <= 0) in Hbn. assert (bn = 0) as -> by lia. done.
  - apply (readi_correct mkfs_sb (demo_open s) c (k_log s) 0 demo_inode 0 demo_addrs 5 10 O);
      [done|lia|lia|simpl; klia|]. left. simpl. lia.
Defined.

Lemma demo_touched : touched 2 3000 = [0; 1].
Proof. reflexivity. Qed.

Lemma demo_room s c : demo_state s c ->
  (2 * length (touched 2 3000) <= nfree mkfs_sb (c_view c))%nat /\
  lh_n (k_log s) + Z.of_nat (length (touched 2 3000)) + 6 <= log_size (k_log s) - 1.
Proof.
  intros H. destruct (ds_log _ _ H) as (N & _), (ds_same _ _ H) as (_ & _ & E3).
  rewrite demo_touched, (demo_nfree s c H), N, E3. simpl. lia.
Qed.

(** Overwriting the last two bytes and extending the file over a second block. *)
Lemma writei_correct_witness : exists s c, oinode mkfs_sb s c (k_log s) 0 demo_inode 0 demo_addrs /\
  wp (writei 0 (replicate 3000 9) 2 3000) (fun r s' => r = 3000 /\ exists c' l' a',
    written mkfs_sb s c (k_log s) 0 demo_inode 0 demo_addrs 2 (replicate 3000 9) 3000 s' c' l' a') s.
Proof.
  destruct demo_exists as (s & c & H). exists (demo_open s), c. pose proof (demo_oinode s c H) as O.
  destruct (demo_room s c H) as [Hf Hl]. split; [exact O|].
  apply (writei_correct mkfs_sb (demo_open s) c (k_log s) 0 demo_inode 0 demo_addrs 2 (replicate 3000 9) 3000 O);
    [done|done|done|lia|lia|rewrite length_replicate; lia|simpl; lia|klia|exact Hf|exact Hl].
Defined.

Lemma writei_readi_witness : exists s c, oinode mkfs_sb s c (k_log s) 0 demo_inode 0 demo_addrs /\
  wp (writei 0 (replicate 3000 9) 2 3000 ;; readi 0 2 3000) (fun r _ => r = (3000, take (Z.to_nat 3000) (replicate 3000 9))) s.
Proof.
  destruct demo_exists as (s & c & H). exists (demo_open s), c. pose proof (demo_oinode s c H) as O.
  destruct (demo_room s c H) as [Hf Hl]. split; [exact O|].
  apply (writei_readi mkfs_sb (demo_open s) c (k_log s) 0 demo_inode 0 demo_addrs 2 (replicate 3000 9) 3000 O);
    [done|done|done|simpl; lia|rewrite length_replicate; lia|klia|simpl; klia|exact Hf|exact Hl].
Defined.

(** The other file has the block 46. *)
Lemma writei_isolation_witness : exists s c, oinode mkfs_sb s c (k_log s) 0 demo_inode 0 demo_addrs /\
  wp (writei 0 (replicate 3000 9) 2 3000) (fun _ s' => exists c' l' a',
    oinode mkfs_sb s' c' l' 0 (grown demo_inode 2 3000) 0 (set_a_addrs a' demo_addrs) /\
    (forall bn, fblock (c_view c') (one_block 46) bn = fblock (c_view c) (one_block 46) bn) /\
    (forall o, 0 <= o < MAXFILE * BSIZE -> fbyte (c_view c') (one_block 46) o = fbyte (c_view c) (one_block 46) o)) s.
Proof.
  destruct demo_exists as (s & c & H). exists (demo_open s), c. pose proof (demo_oinode s c H) as O.
  destruct (demo_room s c H) as [Hf Hl]. split; [exact O|].
  apply (writei_isolation mkfs_sb (demo_open s) c (k_log s) 0 demo_inode 0 demo_addrs 2 (replicate 3000 9) 3000 (one_block 46) O);
    [done|done|done|simpl; lia|rewrite length_replicate; lia|klia|exact Hf|exact Hl|apply (demo_file_ok s c H); by right|].
  intros b ->%one_in_file E%one_in_file. lia.
Defined.

(** *** Directories *)
#[local] Instance demo_stack : KStack := {| stack_de := replicate 264 0; stack_after_de := []; stack_name := replicate 255 0 |}.

(** The name in use, and another one. *)
Definition old_name : list Z := [7; 7; 0].
Definition new_name : list Z := [97; 0].

Lemma demo_dir_pre s c : demo_state s c ->
  0 <= i_inum demo_dir < sb_ninodes mkfs_sb /\ dir_room mkfs_sb c (k_log s) /\
  i_size demo_dir + sizeof_dirent <= MAXFILE * BSIZE /\
  dget (dents (c_view c) (a_addrs demo_addrs) (i_size demo_dir)) (nkey old_name) = Some 1799 /\
  dget (dents (c_view c) (a_addrs demo_addrs) (i_size demo_dir)) (nkey new_name) = None.
Proof.
  intros H. destruct (ds_log _ _ H) as (N & _), (ds_same _ _ H) as (_ & _ & E3).
  change (dents (c_view c) (a_addrs demo_addrs) (i_size demo_dir)) with (dents (c_view c) (one_block 45) 32).
  rewrite (demo_dents s c H). split; [done|]. split; [split|split].
  - rewrite (demo_nfree s c H). lia.
  - rewrite N, E3. done.
  - change (32 + 16 <= MAXFILE * BSIZE). klia.
  - split; reflexivity.
Qed.

Lemma demo_avail s c k : demo_state s c -> (0 < k < Z.to_nat NINODE)%nat ->
  k_icache (with_inode demo_dir s) !! k = Some zero_inode.
Proof.
  intros H Hk. destruct (demo_tables s c H) as (E1 & _). simpl. rewrite E1, list_lookup_insert_ne by lia.
  apply lookup_replicate. split; [done|lia].
Qed.

Lemma dirlookup_correct_witness : exists s c, odir mkfs_sb s c (k_log s) 0 demo_dir 0 demo_addrs /\
  wp (iops_dirlookup 0 old_name) (fun r s' => exists i' k, r = Some (i', sizeof_dirent * Z.of_nat k) /\
    looked s c (k_log s) 1799 i' s') s.
Proof.
  destruct demo_exists as (s & c & H). exists (with_inode demo_dir s), c. pose proof (demo_odir s c H) as D.
  destruct (demo_dir_pre s c H) as (_ & _ & _ & Hg & _). split; [exact D|]. eapply wp_mono.
  - apply (dirlookup_correct mkfs_sb _ c (k_log s) 0 demo_dir 0 demo_addrs old_name D).
    + left. apply (bool_decide_unpack _). vm_compute. exact I.
    + apply (with_icache_ok s c H).
    + intros inum _. right. exists 1%nat, zero_inode. split; [|done]. apply (demo_avail s c 1 H); lia.
    + exact (demo_duniq s c H).
  - intros r s'. cbv beta. rewrite Hg. intros (i' & k & e & -> & _ & _ & _ & L). exists i', k. done.
Defined.

Lemma dirlink_correct_witness : exists s c, odir mkfs_sb s c (k_log s) 0 demo_dir 0 demo_addrs /\
  wp (iops_dirlink 0 new_name 9) (fun r s' => r = 0 /\ exists c' l' ip' x',
    odir mkfs_sb s' c' l' 0 ip' 0 x' /\
    dget (dents (c_view c') (a_addrs x') (i_size ip')) (nkey new_name) = Some 9 /\
    dget (dents (c_view c') (a_addrs x') (i_size ip')) (nkey old_name) = Some 1799) s.
Proof.
  destruct demo_exists as (s & c & H). exists (with_inode demo_dir s), c. pose proof (demo_odir s c H) as D.
  destruct (demo_dir_pre s c H) as (Hi & Hr & Hm & Hg & Hg'). split; [exact D|]. eapply wp_mono.
  - apply (dirlink_correct mkfs_sb _ c (k_log s) 0 demo_dir 0 demo_addrs new_name 9 D);
      [|apply (with_icache_ok s c H)|lia|exact Hi|exact Hr|exact Hm|exact (demo_duniq s c H)|exact Hg'].
    left. apply (bool_decide_unpack _). vm_compute. exact I.
  - intros r s' (-> & _ & c' & l' & ip' & x' & D' & _ & E). split; [done|]. exists c', l', ip', x'.
    split; [exact D'|]. split; rewrite E; [done|exact Hg].
Defined.

Lemma unlink_correct_witness : exists s c, odir mkfs_sb s c (k_log s) 0 demo_dir 0 demo_addrs /\
  wp (iops_unlink 0 0) (fun _ s' => exists c' l' ip' x', odir mkfs_sb s' c' l' 0 ip' 0 x' /\
    dget (dents (c_view c') (a_addrs x') (i_size ip')) (nkey old_name) = None) s.
Proof.
  destruct demo_exists as (s & c & H). exists (with_inode demo_dir s), c. pose proof (demo_odir s c H) as D.
  destruct (demo_dir_pre s c H) as (Hi & Hr & _). split; [exact D|]. eapply wp_mono.
  - apply (unlink_correct mkfs_sb _ c (k_log s) 0 demo_dir 0 demo_addrs 0 (mk_dirent 1799 (7 :: 7 :: replicate 12 0)) D);
      [apply (with_icache_ok s c H)|exact Hi|exact Hr|exact (demo_duniq s c H)| |done].
    change (dents (c_view c) (a_addrs demo_addrs) (i_size demo_dir)) with (dents (c_view c) (one_block 45) 32).
    rewrite (demo_dents s c H). reflexivity.
  - intros _ s' (_ & c' & l' & ip' & x' & D' & _ & _ & E). exists c', l', ip', x'. split; [exact D'|]. rewrite E. done.
Defined.

Lemma isdirempty_correct_witness : exists s c, odir mkfs_sb s c (k_log s) 0 demo_dir 0 demo_addrs /\
  wp (isdirempty 0) (fun r _ => r = true) s.
Proof.
  destruct demo_exists as (s & c & H). exists (with_inode demo_dir s), c. pose proof (demo_odir s c H) as D.
  split; [exact D|]. eapply wp_mono; [exact (isdirempty_correct mkfs_sb _ c (k_log s) 0 demo_dir 0 demo_addrs D)|].
  intros r s' [Hr _]. apply Hr. intros k e Hk Hk2. apply lookup_lt_Some in Hk. rewrite length_dents in Hk.
  change (nents (i_size demo_dir)) with 2%nat in Hk. lia.
Defined.

Lemma dirlink_dirlookup_witness : exists s c, odir mkfs_sb s c (k_log s) 0 demo_dir 0 demo_addrs /\
  wp (iops_dirlink 0 new_name 9 ;; iops_dirlookup 0 new_name) (fun r s' =>
    exists i' off ip', r = Some (i', off) /\ k_icache s' !! i' = Some ip' /\
      i_dev ip' = ROOTDEV /\ i_inum ip' = 9 /\ 0 < iref s' ROOTDEV 9) s.
Proof.
  destruct demo_exists as (s & c & H). exists (with_inode demo_dir s), c. pose proof (demo_odir s c H) as D.
  destruct (demo_dir_pre s c H) as (Hi & Hr & Hm & _ & Hg'). split; [exact D|].
  apply (dirlink_dirlookup mkfs_sb _ c (k_log s) 0 demo_dir 0 demo_addrs new_name 9 D);
    [|apply (with_icache_ok s c H)|lia|exact Hi|exact Hr|exact Hm|exact (demo_duniq s c H)|exact Hg'|].
  - left. apply (bool_decide_unpack _). vm_compute. exact I.
  - exists 1%nat, zero_inode. split; [done|]. split; [apply (demo_avail s c 1 H); lia|done].
Defined.
