(* ===== verification/MachineExt2.v ===== *)
(** * The ext2 theorems at a concrete disk

  A booting kernel over the disk that the Makefile's rule for ext2.img makes
  (10000 sectors, mkfs.ext2 -b 2048): 2500 blocks in one group, descriptors
  in block 1, block bitmap in block 4, inode bitmap in block 5, 1256 inodes
  of 256 bytes in blocks 6 to 162, and the directories mkfs.ext2 makes up to
  block 172; the bits of the blocks up to 172 and those from 2500 on are
  set.  The kernel has made one file on it, inode 12: it took the first clear
  bit, 173, for block 4 + 173 = 177, which holds the file's four bytes. *)
From S2P Require Import Prelude Params Layout KState Driver Dll Bio Cache Log LogCrash FsBase FsAlloc Inode Ext2 Vfs Content FileIO Ext2Spec Machine.

#[local] Existing Instance ide_driver.
#[local] Instance ext2_devsw : Devsw := {| dev_read := fun _ => None; dev_write := fun _ => None |}.

Definition x_sb : ext2_superblock :=
  dec_ext2_superblock (splice (splice (splice (splice (replicate 1024 0) 4 (le_enc 4 2500)) 32 (le_enc 4 16384)) 40 (le_enc 4 1256)) 88 (le_enc 2 256)).
Definition x_gd_block : list Z := splice zero_block 0 (le_enc 4 4 ++ le_enc 4 5 ++ le_enc 4 6).
Definition x_gd : ext2_group_desc := dec_ext2_group_desc (slice x_gd_block 0 32).
Definition x_bitmap : list Z := replicate 21 255 ++ [63] ++ replicate 290 0 ++ [240] ++ replicate 1735 255.
Definition x_file_block : list Z := splice zero_block 0 [1; 2; 3; 4].
Definition x_disk : gmap blk (list Z) := {[ (EXT2DEV, 1) := x_gd_block; (EXT2DEV, 4) := x_bitmap; (EXT2DEV, 177) := x_file_block ]}.

Definition x_inode : inode := mk_inode EXT2DEV 12 1 no_lock true T_FILE 0 0 1 4 (AExt2 0) (Some ext2fs).
Definition x_addrs : addrs := mk_addrs 1 (177 :: replicate 14 0).
Definition x_boot : kstate := set_k_exs x_sb (boot_kstate x_disk).
Definition x_open (s : kstate) : kstate :=
  set_k_icache (<[0%nat := x_inode]> (k_icache s)) (set_k_ext2_addrs (<[0%nat := x_addrs]> (k_ext2_addrs s)) s).

Lemma x_read k : dread x_disk k =
  if decide (k = (EXT2DEV, 1)) then x_gd_block else if decide (k = (EXT2DEV, 4)) then x_bitmap
  else if decide (k = (EXT2DEV, 177)) then x_file_block else zero_block.
Proof.
  unfold x_disk. rewrite dread_insert. destruct (decide (k = (EXT2DEV, 1))) as [->|H1]; [by rewrite fn_lookup_insert|].
  rewrite fn_lookup_insert_ne, dread_insert by done. destruct (decide (k = (EXT2DEV, 4))) as [->|H2]; [by rewrite fn_lookup_insert|].
  rewrite fn_lookup_insert_ne by done. unfold dread, disk_read. destruct k as [a b]. simpl.
  destruct (decide ((a, b) = (EXT2DEV, 177))) as [[= -> ->]|Hne']; [by rewrite lookup_singleton_eq|]. by rewrite lookup_singleton_ne.
Qed.
Lemma x_lengths : length x_gd_block = Z.to_nat BSIZE /\ length x_bitmap = Z.to_nat BSIZE /\ length x_file_block = Z.to_nat BSIZE.
Proof. vm_compute. done. Qed.
Lemma x_length_read k : length (dread x_disk k) = Z.to_nat BSIZE.
Proof. rewrite x_read. destruct x_lengths as (? & ? & ?). by repeat case_decide. Qed.

(** The numbers of the image. *)
Lemma x_numbers : s_inodes_per_group x_sb = 1256 /\ s_inode_size x_sb = 256 /\ s_blocks_per_group x_sb = 16384 /\
  bg_block_bitmap x_gd = 4 /\ bg_inode_bitmap x_gd = 5 /\ bg_inode_table x_gd = 6 /\ xplace x_sb x_gd 12 = (7, 768) /\
  s_blocks_count x_sb = 2500 /\ xbits x_sb x_gd = 2496.
Proof. vm_compute. done. Qed.
Definition x_used (z : Z) : bool := (z <? 174) || (2500 <=? z).
Lemma x_byte k : (k < Z.to_nat BSIZE)%nat ->
  x_bitmap !! k = Some (if decide (k < 21)%nat then 255 else if decide (k = 21)%nat then 63
    else if decide (k < 312)%nat then 0 else if decide (k = 312)%nat then 240 else 255).
Proof.
  intros Hk. unfold x_bitmap.
  case_decide; [rewrite lookup_app_l by (rewrite length_replicate; lia); apply lookup_replicate; split; [done|lia]|].
  rewrite lookup_app_r by (rewrite length_replicate; lia). rewrite length_replicate.
  case_decide; [by subst k|]. rewrite lookup_app_r by (simpl; lia). simpl length.
  case_decide; [rewrite lookup_app_l by (rewrite length_replicate; lia); apply lookup_replicate; split; [done|lia]|].
  rewrite lookup_app_r by (rewrite length_replicate; lia). rewrite length_replicate.
  case_decide; [by subst k|]. rewrite lookup_app_r by (simpl; lia). apply lookup_replicate. simpl length. split; [done|klia].
Qed.
Lemma x_masks r : 0 <= r < 8 ->
  negb (Z.land 255 (Z.shiftl 1 r) =? 0) = true /\ negb (Z.land 0 (Z.shiftl 1 r) =? 0) = false /\
  negb (Z.land 63 (Z.shiftl 1 r) =? 0) = (r <? 6) /\ negb (Z.land 240 (Z.shiftl 1 r) =? 0) = (4 <=? r).
Proof. intros Hr. assert (r ∈ seqZ 0 8) as Hin by (apply elem_of_seqZ; lia). repeat (apply elem_of_cons in Hin as [->|Hin]; [done|]). by apply elem_of_nil in Hin. Qed.
Lemma x_bit z : 0 <= z < BPB -> bit_set x_bitmap z = x_used z.
Proof.
  intros Hz. pose proof (Z.div_mod z 8 ltac:(lia)) as Hd. pose proof (Z.mod_pos_bound z 8 ltac:(lia)) as Hm.
  assert (z / 8 < BSIZE) by (apply Z.div_lt_upper_bound; klia). pose proof (Z.div_pos z 8 ltac:(lia) ltac:(lia)).
  unfold bit_set, byte_at, bit_mask, x_used. rewrite x_byte by lia. destruct (x_masks (z mod 8) Hm) as (M1 & M2 & M3 & M4). simpl default.
  repeat case_decide; rewrite ?M1, ?M2, ?M3, ?M4;
    destruct (Z.ltb_spec z 174), (Z.leb_spec 2500 z), (Z.ltb_spec (z mod 8) 6), (Z.leb_spec 4 (z mod 8)); done || lia.
Qed.
Lemma x_clear : (length (touched 2 3000) <= clearbits (xbits x_sb x_gd) x_bitmap)%nat.
Proof.
  change (length (touched 2 3000)) with (length [174; 175]). apply submseteq_length, NoDup_submseteq; [by repeat constructor; set_solver|].
  intros z Hz. apply list_elem_of_filter. assert (0 <= z < 2496 /\ x_used z = false) as [Hr Hu].
  { repeat (apply elem_of_cons in Hz as [->|Hz]; [split; [klia|done]|]). by apply elem_of_nil in Hz. }
  destruct x_numbers as (_ & _ & _ & _ & _ & _ & _ & _ & ->). split; [by rewrite x_bit by klia|]. apply elem_of_seqZ. lia.
Qed.

Lemma x_data b : 163 <= b < 2500 -> xdata x_sb x_gd b.
Proof.
  destruct x_numbers as (E1 & E2 & _ & E4 & E5 & E6 & _ & E8 & _). intros Hb. split; [rewrite E8; lia|]. unfold xmeta. rewrite E1, E2, E4, E5, E6.
  intros [?|[?|[?|[?|(io & Hio & ->)]]]]; [lia..|]. change (BSIZE / 256) with 8 in Hb.
  assert (io / 8 < 157) by (apply Z.div_lt_upper_bound; lia). lia.
Qed.

Lemma x_addr bn : addr_at (a_addrs x_addrs) bn <> 0 -> bn <= 0 /\ addr_at (a_addrs x_addrs) bn = 177.
Proof.
  unfold addr_at. cbn [x_addrs a_addrs]. destruct (Z.to_nat bn) as [|k] eqn:E; [intros _; split; [lia|done]|].
  change ((177 :: replicate 14 0) !! S k) with (replicate 14 0 !! k).
  destruct (replicate 14 0 !! k) as [v|] eqn:Ek; [|intros Hn; by destruct Hn]. apply lookup_replicate in Ek as [-> _]. done.
Qed.
Lemma x_bitmap_ok V : V (EXT2DEV, 4) = x_bitmap -> xbitmap_ok x_sb x_gd V.
Proof.
  destruct x_numbers as (_ & _ & _ & E4 & _ & _ & _ & _ & E9). intros HV z. rewrite E4, E9, HV. intros Hz. rewrite x_bit by klia. unfold x_used.
  destruct (Z.ltb_spec z 174), (Z.leb_spec 2500 z); try done. intros _. apply x_data. lia.
Qed.
Lemma x_file_ok V : V (EXT2DEV, 4) = x_bitmap -> xfile_ok x_sb x_gd V (a_addrs x_addrs).
Proof.
  destruct x_numbers as (_ & _ & _ & E4 & _). intros HV. split.
  - reflexivity.
  - intros bn _ [_ ->]%x_addr. split; [apply x_data; klia|]. unfold xbit. rewrite E4, HV. split; [lia|]. rewrite x_bit by klia. reflexivity.
  - intros bn bn' ? ? H0 E. apply x_addr in H0 as E1. rewrite E in H0. apply x_addr in H0. lia.
Qed.
Lemma x_group V : V (EXT2DEV, 1) = x_gd_block -> xgroup x_sb V (i_inum x_inode) 0 x_gd.
Proof.
  destruct x_numbers as (E1 & _ & E3 & E4 & _ & _ & _ & E8 & _). intros HV. split; rewrite ?E1, ?E3, ?E4, ?E8, ?HV; try done; vm_compute; done.
Qed.
Lemma x_placed : xplaced x_sb x_gd (i_inum x_inode) /\ (xplace x_sb x_gd (i_inum x_inode)).1 <> bg_block_bitmap x_gd.
Proof.
  destruct x_numbers as (E1 & E2 & _ & E4 & _ & E6 & E7 & E8 & _). change (i_inum x_inode) with 12. rewrite E7, E4. split; [|done].
  split; rewrite ?E1, ?E2, ?E6, ?E7, ?E8; [lia|change sizeof_ext2_inode with 128; klia|cbn [fst]; lia|lia|lia].
Qed.

Lemma x_exists : exists s c, xinode x_sb x_gd s c 0 x_inode 0 x_addrs /\ (length (touched 2 3000) <= nfreex x_sb x_gd (c_view c))%nat.
Proof.
  assert (booting x_boot x_disk) as B by (split; reflexivity).
  destruct (proj1 (wp_Ret _ _ _) (binit_rep x_boot x_disk B x_length_read)) as (_ & s & _ & R & F).
  exists (x_open s), (boot_cache x_boot). change (c_view (boot_cache x_boot)) with (dread x_disk). split.
  - assert (xt s (boot_cache x_boot)) as X.
    { split; [done| |done|].
      - intros b. rewrite F. done.
      - exists []. split; [done|]. simpl. klia. }
    split; try done.
    + eapply xt_ext; [exact X|]. by destruct s.
    + simpl. by rewrite F.
    + exists 0. apply x_group. change (dread x_disk (EXT2DEV, 1) = x_gd_block). by rewrite x_read.
    + simpl. by rewrite F.
    + simpl. by rewrite F.
    + apply x_bitmap_ok. change (dread x_disk (EXT2DEV, 4) = x_bitmap). by rewrite x_read.
    + apply x_file_ok. change (dread x_disk (EXT2DEV, 4) = x_bitmap). by rewrite x_read.
  - destruct x_numbers as (_ & _ & _ & E4 & _). rewrite E4, x_read. apply x_clear.
Qed.

(** ** The theorems *)

(** Overwriting the last two bytes and extending the file over a second block. *)
Lemma ext2_writei_correct_witness : exists s c, xinode x_sb x_gd s c 0 x_inode 0 x_addrs /\
  wp (ext2_writei 0 (replicate 3000 9) 2 3000) (fun r s' => r = 3000 /\ exists c' a',
    xwritten x_sb x_gd s c 0 x_inode 0 x_addrs 2 (replicate 3000 9) 3000 s' c' a') s.
Proof.
  destruct x_exists as (s & c & I & Hf). exists s, c. split; [exact I|]. destruct x_placed as [P Hb].
  apply (ext2_writei_correct x_sb x_gd s c 0 x_inode 0 x_addrs 2 (replicate 3000 9) 3000 I);
    [done|done|lia|lia|simpl; lia|unfold XMAX; klia|rewrite length_replicate; lia|exact Hf|exact P|exact Hb].
Defined.

Lemma ext2_writei_readi_witness : exists s c, xinode x_sb x_gd s c 0 x_inode 0 x_addrs /\
  wp (ext2_writei 0 (replicate 3000 9) 2 3000 ;; ext2_readi 0 2 3000) (fun r _ => r = (3000, take (Z.to_nat 3000) (replicate 3000 9))) s.
Proof.
  destruct x_exists as (s & c & I & Hf). exists s, c. split; [exact I|]. destruct x_placed as [P Hb].
  apply (ext2_writei_readi x_sb x_gd s c 0 x_inode 0 x_addrs 2 (replicate 3000 9) 3000 I);
    [done|done|simpl; lia|rewrite length_replicate; lia|unfold XMAX; klia|unfold XMAX; simpl; klia|exact Hf|exact P|exact Hb].
Defined.
