(* ===== verification/Pipe.v ===== *)
(** * Pipes (pipe.c)

  The ring buffer and its operations at the granularity of the pipe's lock:
  a call runs from acquiring the lock until it returns or goes to sleep, and
  a sleeping call resumes at the test of its loop.  [nread] and [nwrite] are
  32-bit counters that wrap around. *)
From S2P Require Import Prelude.

Notation PIPESIZE := 512 (only parsing).

Record pipe := mk_pipe {
  p_data : list Z;
  nread : Z;
  nwrite : Z;
  readopen : bool;
  writeopen : bool
}.

(** The initialisation in [pipealloc] of the page [kalloc] returned. *)
Definition pipe_init (page : list Z) : pipe := mk_pipe (take (Z.to_nat PIPESIZE) page) 0 0 true true.

(** [p->data[p->nwrite++ % PIPESIZE] = c] and [c = p->data[p->nread++ % PIPESIZE]] *)
Definition put_byte (c : Z) (p : pipe) : pipe :=
  mk_pipe (<[Z.to_nat (nwrite p mod PIPESIZE) := c]> (p_data p)) (nread p) (u32 (nwrite p + 1)) (readopen p) (writeopen p).
Definition get_byte (p : pipe) : Z * pipe :=
  (default 0 (p_data p !! Z.to_nat (nread p mod PIPESIZE)),
   mk_pipe (p_data p) (u32 (nread p + 1)) (nwrite p) (readopen p) (writeopen p)).

Definition full (p : pipe) : bool := nwrite p =? u32 (nread p + PIPESIZE).
Definition empty (p : pipe) : bool := nread p =? nwrite p.

(** ** [pipewrite] from the [i]th byte on: [src] is what remains of [addr],
    and what is left when the call fails or sleeps *)
Inductive wresult :=
| WDone
| WFail (src : list Z)
| WSleep (src : list Z).

Fixpoint pipewrite (killed : bool) (src : list Z) (p : pipe) : pipe * wresult :=
  match src with
  | [] => (p, WDone)
  | c :: src' =>
      if full p then
        if negb (readopen p) || killed then (p, WFail src) else (p, WSleep src)
      else pipewrite killed src' (put_byte c p)
  end.

(** ** [piperead] of [n] bytes *)
Inductive rresult :=
| RDone (bs : list Z)
| RFail
| RSleep.

Fixpoint read_bytes (n : nat) (p : pipe) : list Z * pipe :=
  match n with
  | O => ([], p)
  | S n => if empty p then ([], p) else
           let '(c, p1) := get_byte p in let '(bs, p2) := read_bytes n p1 in (c :: bs, p2)
  end.
Definition piperead (killed : bool) (n : nat) (p : pipe) : pipe * rresult :=
  if empty p && writeopen p then
    if killed then (p, RFail) else (p, RSleep)
  else let '(bs, p) := read_bytes n p in (p, RDone bs).

(** ** [pipeclose]: the pipe, and whether its page is freed *)
Definition pipeclose (writable : bool) (p : pipe) : pipe * bool :=
  let p := if writable then mk_pipe (p_data p) (nread p) (nwrite p) (readopen p) false
           else mk_pipe (p_data p) (nread p) (nwrite p) false (writeopen p) in
  (p, negb (readopen p) && negb (writeopen p)).

(** ** The abstract pipe: a queue of at most [PIPESIZE] bytes *)
Definition count (p : pipe) : Z := u32 (nwrite p - nread p).
Definition contents (p : pipe) : list Z :=
  (fun k => default 0 (p_data p !! Z.to_nat (u32 (nread p + Z.of_nat k) mod PIPESIZE))) <$> seq 0 (Z.to_nat (count p)).

Record pipe_ok (p : pipe) : Prop := {
  po_len : length (p_data p) = Z.to_nat PIPESIZE;
  po_nread : 0 <= nread p < 2 ^ 32;
  po_nwrite : 0 <= nwrite p < 2 ^ 32;
  po_count : count p <= PIPESIZE
}.

Lemma length_contents p : length (contents p) = Z.to_nat (count p).
Proof. unfold contents. by rewrite length_fmap, length_seq. Qed.

Lemma u32_u32_add a b : u32 (u32 a + b) = u32 (a + b).
Proof. unfold u32. by rewrite Z.add_mod_idemp_l by lia. Qed.
Lemma u32_mod_pipe a : u32 a mod PIPESIZE = a mod PIPESIZE.
Proof.
  unfold u32. symmetry. apply Znumtheory.Zmod_div_mod; [lia|lia|]. by exists 8388608.
Qed.

Lemma full_iff p : pipe_ok p -> full p = true <-> count p = PIPESIZE.
Proof.
  intros [_ Hr Hw _]. unfold full, count. rewrite Z.eqb_eq. unfold u32 in *. split.
  - intros ->. rewrite Zminus_mod_idemp_l. replace (nread p + 512 - nread p) with 512 by lia. done.
  - intros H. rewrite <- H, Zplus_mod_idemp_r. replace (nread p + (nwrite p - nread p)) with (nwrite p) by lia.
    by rewrite Z.mod_small.
Qed.
Lemma empty_iff p : pipe_ok p -> empty p = true <-> count p = 0.
Proof.
  intros [_ Hr Hw _]. unfold empty, count. rewrite Z.eqb_eq. split; [intros ->; by rewrite Z.sub_diag|].
  unfold u32. Z.div_mod_to_equations. nia.
Qed.

Lemma put_byte_ok c p : pipe_ok p -> count p < PIPESIZE ->
  pipe_ok (put_byte c p) /\ contents (put_byte c p) = contents p ++ [c].
Proof.
  intros [Hl Hr Hw Hc] Hn.
  assert (0 <= count p) as H0 by apply u32_range.
  assert (count (put_byte c p) = count p + 1) as Ec.
  { unfold count in *. cbn [put_byte nwrite nread]. replace (u32 (nwrite p + 1) - nread p) with (u32 (nwrite p + 1) + - nread p) by lia.
    rewrite u32_u32_add. replace (nwrite p + 1 + - nread p) with (nwrite p - nread p + 1) by lia.
    rewrite <- u32_u32_add. apply u32_small. lia. }
  split.
  { split; [cbn; by rewrite length_insert|done|apply u32_range|rewrite Ec; lia]. }
  assert (forall k, (k < Z.to_nat (count p))%nat ->
    u32 (nread p + Z.of_nat k) mod PIPESIZE <> nwrite p mod PIPESIZE) as Hne.
  { intros k Hk. rewrite u32_mod_pipe. intros E.
    assert (nwrite p mod PIPESIZE = (nread p + count p) mod PIPESIZE) as Ew.
    { unfold count. rewrite <- (u32_mod_pipe (nread p + _)). f_equal. rewrite Z.add_comm, u32_u32_add.
      replace (nwrite p - nread p + nread p) with (nwrite p) by lia. by rewrite u32_small. }
    rewrite Ew in E. Z.div_mod_to_equations. lia. }
  unfold contents. rewrite Ec. replace (Z.to_nat (count p + 1)) with (Z.to_nat (count p) + 1)%nat by lia.
  rewrite seq_app, fmap_app. f_equal.
  - apply list_fmap_ext. intros i k Hk. apply lookup_seq in Hk as [-> Hk]. cbn [put_byte p_data nread].
    rewrite list_lookup_insert_ne; [done|]. intros E. apply (Hne i Hk).
    pose proof (Z.mod_pos_bound (u32 (nread p + Z.of_nat (0 + i))) PIPESIZE ltac:(done)).
    pose proof (Z.mod_pos_bound (nwrite p) PIPESIZE ltac:(done)). simpl in *. lia.
  - simpl. f_equal. rewrite Z2Nat.id by done.
    assert (u32 (nread p + count p) = nwrite p) as ->.
    { unfold count. rewrite Z.add_comm, u32_u32_add. replace (nwrite p - nread p + nread p) with (nwrite p) by lia.
      by rewrite u32_small. }
    rewrite list_lookup_insert_eq; [done|]. rewrite Hl. pose proof (Z.mod_pos_bound (nwrite p) PIPESIZE ltac:(done)).
    lia.
Qed.

Lemma get_byte_ok p : pipe_ok p -> 0 < count p ->
  pipe_ok (get_byte p).2 /\ contents p = (get_byte p).1 :: contents (get_byte p).2.
Proof.
  intros [Hl Hr Hw Hc] Hn.
  assert (count (get_byte p).2 = count p - 1) as Ec.
  { unfold count in *. cbn [get_byte nwrite nread snd]. unfold u32 in *. rewrite Zminus_mod_idemp_r.
    replace (nwrite p - (nread p + 1)) with (nwrite p - nread p - 1) by lia.
    rewrite <- Zminus_mod_idemp_l, Z.mod_small; [done|]. lia. }
  split.
  { split; [done|apply u32_range|done|rewrite Ec; lia]. }
  unfold contents. rewrite Ec. replace (Z.to_nat (count p)) with (S (Z.to_nat (count p - 1))) by lia.
  rewrite <- cons_seq. simpl. f_equal.
  - rewrite Z.add_0_r, u32_small by done. done.
  - rewrite <- fmap_S_seq, <- list_fmap_compose. apply list_fmap_ext. intros i k _.
    cbn [compose get_byte snd p_data nread]. rewrite u32_u32_add. unfold compose.
    replace (nread p + 1 + Z.of_nat k) with (nread p + Z.of_nat (S k)) by lia. done.
Qed.

(** ** Runs of the operations *)
Lemma pipewrite_ok killed src : forall p p' r, pipe_ok p -> pipewrite killed src p = (p', r) ->
  exists sent rest, src = sent ++ rest /\ pipe_ok p' /\ contents p' = contents p ++ sent /\
    readopen p' = readopen p /\ writeopen p' = writeopen p /\
    match r with
    | WDone => rest = []
    | WFail src' => src' = rest /\ rest <> [] /\ count p' = PIPESIZE /\ (readopen p = false \/ killed = true)
    | WSleep src' => src' = rest /\ rest <> [] /\ count p' = PIPESIZE /\ readopen p = true /\ killed = false
    end.
Proof.
  induction src as [|c src IH]; intros p p' r Ok H; cbn [pipewrite] in H.
  { simplify_eq. exists [], []. split_and!; rewrite ?app_nil_r; done. }
  destruct (full p) eqn:Ef.
  - apply (full_iff _ Ok) in Ef. exists [], (c :: src). rewrite app_nil_r.
    destruct (readopen p) eqn:Er, killed; simplify_eq/=; split_and!; try done; by auto.
  - assert (count p < PIPESIZE) as Hlt.
    { pose proof (po_count _ Ok). destruct (decide (count p = PIPESIZE)) as [E|]; [|lia].
      apply (full_iff _ Ok) in E. congruence. }
    destruct (put_byte_ok c p Ok Hlt) as [Ok' E']. destruct (IH _ _ _ Ok' H) as (sent & rest & -> & Ok2 & E2 & R1 & R2 & Hr).
    exists (c :: sent), rest. rewrite E2, E', <- app_assoc. split_and!; try done.
Qed.

Lemma read_bytes_ok n : forall p bs p', pipe_ok p -> read_bytes n p = (bs, p') ->
  pipe_ok p' /\ bs = take n (contents p) /\ contents p' = drop n (contents p) /\
  readopen p' = readopen p /\ writeopen p' = writeopen p.
Proof.
  induction n as [|n IH]; intros p bs p' Ok H; cbn [read_bytes] in H.
  { simplify_eq. done. }
  destruct (empty p) eqn:Ee.
  - simplify_eq. apply (empty_iff _ Ok) in Ee. assert (contents p' = []) as E.
    { apply length_zero_iff_nil. rewrite length_contents, Ee. done. }
    rewrite E. done.
  - assert (0 < count p) as Hc.
    { destruct (decide (count p = 0)) as [E|]; [apply (empty_iff _ Ok) in E; congruence|].
      assert (0 <= count p) by apply u32_range. lia. }
    destruct (get_byte_ok p Ok Hc) as [Ok' E']. destruct (get_byte p) as [c p1] eqn:Eg.
    assert (readopen p1 = readopen p /\ writeopen p1 = writeopen p) as [R3 R4] by (unfold get_byte in Eg; by simplify_eq/=).
    destruct (read_bytes n p1) as [bs1 p2] eqn:Er. simplify_eq. cbn [fst snd] in *.
    destruct (IH _ _ _ Ok' Er) as (Ok2 & -> & E2 & R1 & R2). rewrite E'. simpl. split_and!; congruence.
Qed.

(** ** Processes on a pipe

  Each process has at most one call in progress, runnable or asleep: a
  writer sleeps on [&p->nwrite], a reader on [&p->nread].  [sent] and
  [received] record the bytes that went in and came out. *)
Inductive call := CWrite (src : list Z) | CRead (n : nat).
Inductive pcall := Idle | Runnable (c : call) | Asleep (c : call).

Record system := mk_system {
  s_pipe : pipe;
  s_procs : gmap nat pcall;
  s_sent : list Z;
  s_received : list Z
}.

(** [wakeup(&p->nread)] and [wakeup(&p->nwrite)] *)
Definition wake_reader (t : pcall) : pcall := match t with Asleep (CRead n) => Runnable (CRead n) | _ => t end.
Definition wake_writer (t : pcall) : pcall := match t with Asleep (CWrite src) => Runnable (CWrite src) | _ => t end.

(** What the write of [src] that leaves [rest] has put in the pipe. *)
Definition accepted (src rest : list Z) : list Z := take (length src - length rest) src.

(** A call needs a descriptor of its end of the pipe, and an end is closed
    with its last descriptor: [fileclose] calls [pipeclose] when no process
    has it open. *)
Definition end_open (p : pipe) (c : call) : bool := match c with CWrite _ => writeopen p | CRead _ => readopen p end.
Definition uses (w : bool) (t : pcall) : bool :=
  match t with
  | Idle => false
  | Runnable (CWrite _) | Asleep (CWrite _) => w
  | Runnable (CRead _) | Asleep (CRead _) => negb w
  end.

(** One step: a call is made, runs until it returns or sleeps, is woken by
    [kill], or an end of the pipe is closed.  [killed] is the flag of the
    process that runs. *)
Inductive step (killed : bool) : system -> system -> Prop :=
| step_call p ths snt rcv t c :
    ths !! t = Some Idle -> end_open p c = true ->
    step killed (mk_system p ths snt rcv) (mk_system p (<[t := Runnable c]> ths) snt rcv)
| step_write_done p ths snt rcv t src p' :
    ths !! t = Some (Runnable (CWrite src)) -> pipewrite killed src p = (p', WDone) ->
    step killed (mk_system p ths snt rcv) (mk_system p' (wake_reader <$> <[t := Idle]> ths) (snt ++ src) rcv)
| step_write_fail p ths snt rcv t src rest p' :
    ths !! t = Some (Runnable (CWrite src)) -> pipewrite killed src p = (p', WFail rest) ->
    step killed (mk_system p ths snt rcv) (mk_system p' (<[t := Idle]> ths) (snt ++ accepted src rest) rcv)
| step_write_sleep p ths snt rcv t src rest p' :
    ths !! t = Some (Runnable (CWrite src)) -> pipewrite killed src p = (p', WSleep rest) ->
    step killed (mk_system p ths snt rcv)
      (mk_system p' (<[t := Asleep (CWrite rest)]> (wake_reader <$> ths)) (snt ++ accepted src rest) rcv)
| step_read_done p ths snt rcv t n bs p' :
    ths !! t = Some (Runnable (CRead n)) -> piperead killed n p = (p', RDone bs) ->
    step killed (mk_system p ths snt rcv) (mk_system p' (wake_writer <$> <[t := Idle]> ths) snt (rcv ++ bs))
| step_read_fail p ths snt rcv t n p' :
    ths !! t = Some (Runnable (CRead n)) -> piperead killed n p = (p', RFail) ->
    step killed (mk_system p ths snt rcv) (mk_system p' (<[t := Idle]> ths) snt rcv)
| step_read_sleep p ths snt rcv t n p' :
    ths !! t = Some (Runnable (CRead n)) -> piperead killed n p = (p', RSleep) ->
    step killed (mk_system p ths snt rcv) (mk_system p' (<[t := Asleep (CRead n)]> ths) snt rcv)
| step_kill p ths snt rcv t c :
    ths !! t = Some (Asleep c) ->
    step killed (mk_system p ths snt rcv) (mk_system p (<[t := Runnable c]> ths) snt rcv)
| step_close p ths snt rcv w p' freed :
    (forall t x, ths !! t = Some x -> uses w x = false) -> pipeclose w p = (p', freed) ->
    step killed (mk_system p ths snt rcv) (mk_system p' ((if w then wake_reader else wake_writer) <$> ths) snt rcv).

Definition initial (page : list Z) (n : nat) : system :=
  mk_system (pipe_init page) (list_to_map ((fun t => (t, Idle)) <$> seq 0 n)) [] [].

(** *** The queue *)
Definition fifo (s : system) : Prop := pipe_ok (s_pipe s) /\ s_sent s = s_received s ++ contents (s_pipe s).

Lemma accepted_app sent rest : accepted (sent ++ rest) rest = sent.
Proof. unfold accepted. rewrite length_app. replace (length sent + length rest - length rest)%nat with (length sent) by lia. by rewrite take_app_length. Qed.

Lemma piperead_ok killed n p p' r : pipe_ok p -> piperead killed n p = (p', r) ->
  pipe_ok p' /\ readopen p' = readopen p /\ writeopen p' = writeopen p /\
  match r with
  | RDone bs => contents p = bs ++ contents p' /\ bs = take n (contents p)
  | RFail => p' = p /\ killed = true
  | RSleep => p' = p /\ count p = 0 /\ writeopen p = true /\ killed = false
  end.
Proof.
  intros Ok H. unfold piperead in H. destruct (empty p && writeopen p) eqn:E.
  - apply andb_true_iff in E as [E%(empty_iff _ Ok) Hw]. destruct killed; simplify_eq; done.
  - destruct (read_bytes n p) as [bs p1] eqn:Er. simplify_eq.
    destruct (read_bytes_ok n p bs p' Ok Er) as (Ok' & -> & E' & ? & ?). rewrite E', take_drop. done.
Qed.

Lemma fifo_step k s s' : step k s s' -> fifo s -> fifo s'.
Proof.
  intros St [Ok E]. destruct St; unfold fifo in *; cbn [s_pipe s_sent s_received] in *; try done.
  - destruct (pipewrite_ok _ _ _ _ _ Ok H0) as (sent & rest & -> & Ok' & E' & _ & _ & ->).
    rewrite E', E, app_nil_r. split; [done|]. by rewrite app_assoc.
  - destruct (pipewrite_ok _ _ _ _ _ Ok H0) as (sent & rest' & -> & Ok' & E' & _ & _ & -> & _).
    rewrite accepted_app, E', E. split; [done|]. by rewrite app_assoc.
  - destruct (pipewrite_ok _ _ _ _ _ Ok H0) as (sent & rest' & -> & Ok' & E' & _ & _ & -> & _).
    rewrite accepted_app, E', E. split; [done|]. by rewrite app_assoc.
  - destruct (piperead_ok _ _ _ _ _ Ok H0) as (Ok' & _ & _ & Ec & _). split; [done|]. rewrite E, Ec. by rewrite app_assoc.
  - destruct (piperead_ok _ _ _ _ _ Ok H0) as (_ & _ & _ & -> & _). done.
  - destruct (piperead_ok _ _ _ _ _ Ok H0) as (_ & _ & _ & -> & _). done.
  - unfold pipeclose in H0. destruct Ok as [? ? ? ?]. destruct w; simplify_eq/=; (split; [by split|done]).
Qed.

Lemma fifo_initial page n : (Z.to_nat PIPESIZE <= length page)%nat -> fifo (initial page n).
Proof. intros Hl. split; [|done]. split; cbn; [rewrite length_take; lia|lia|lia|done]. Qed.

(** *** Sleepers *)
Definition proc_ok (p : pipe) (t : pcall) : Prop :=
  match t with
  | Idle => True
  | Runnable c => end_open p c = true
  | Asleep (CWrite _) => count p = PIPESIZE /\ readopen p = true /\ writeopen p = true
  | Asleep (CRead _) => count p = 0 /\ writeopen p = true /\ readopen p = true
  end.
Definition procs_ok (p : pipe) (ths : gmap nat pcall) : Prop := map_Forall (fun _ t => proc_ok p t) ths.

Lemma procs_map (f : pcall -> pcall) p (ths : gmap nat pcall) :
  (forall t x, ths !! t = Some x -> proc_ok p (f x)) -> procs_ok p (f <$> ths).
Proof. intros H t x Hx. rewrite lookup_fmap in Hx. destruct (ths !! t) as [y|] eqn:E; simplify_eq/=. by eapply H. Qed.
Lemma procs_insert p ths t x : proc_ok p x -> procs_ok p ths -> procs_ok p (<[t := x]> ths).
Proof. intros. by apply map_Forall_insert_2. Qed.
Lemma procs_insert_map f p (ths : gmap nat pcall) t y :
  proc_ok p (f y) -> (forall t x, ths !! t = Some x -> proc_ok p (f x)) -> procs_ok p (f <$> <[t := y]> ths).
Proof.
  intros Hy H. apply procs_map. intros i x [[_ <-]|[_ Hx]]%lookup_insert_Some; [done|by eapply H].
Qed.

Lemma wake_after_write p p' sent x :
  contents p' = contents p ++ sent -> readopen p' = readopen p -> writeopen p' = writeopen p -> count p' <= PIPESIZE ->
  proc_ok p x -> proc_ok p' (wake_reader x).
Proof.
  intros E Er Ew Hle H. destruct x as [|[src|n]|[src|n]]; try done; simpl in *; rewrite ?Er, ?Ew; try (by apply H).
  apply (f_equal length) in E. rewrite length_app, !length_contents in E.
  assert (0 <= count p') by apply u32_range. assert (0 <= count p) by apply u32_range.
  destruct H as (? & ? & ?). split_and!; [lia|done..].
Qed.
Lemma wake_after_read p p' bs x :
  contents p = bs ++ contents p' -> readopen p' = readopen p -> writeopen p' = writeopen p ->
  proc_ok p x -> proc_ok p' (wake_writer x).
Proof.
  intros E Er Ew H. destruct x as [|[src|n]|[src|n]]; try done; simpl in *; rewrite ?Er, ?Ew; try (by apply H).
  apply (f_equal length) in E. rewrite length_app, !length_contents in E.
  assert (0 <= count p') by apply u32_range. destruct H as (? & ? & ?). split_and!; [lia|done..].
Qed.

(** A write that fails because the read end is closed finds no reader. *)
Lemma closed_write p p' x :
  readopen p = false -> readopen p' = readopen p -> writeopen p' = writeopen p -> proc_ok p x -> proc_ok p' x.
Proof.
  intros Ho Er Ew H. destruct x as [|[src|n]|[src|n]]; try done; simpl in *; rewrite ?Er, ?Ew; try done.
  - destruct H as (_ & ? & _). congruence.
  - destruct H as (_ & _ & ?). congruence.
Qed.

Lemma close_ok w p p' freed x :
  uses w x = false -> pipeclose w p = (p', freed) -> proc_ok p x -> proc_ok p' ((if w then wake_reader else wake_writer) x).
Proof.
  intros Hu H Hx. unfold pipeclose in H. destruct w, x as [|[src|n]|[src|n]]; simplify_eq/=; naive_solver.
Qed.

Lemma procs_step s s' : step false s s' -> fifo s -> procs_ok (s_pipe s) (s_procs s) -> procs_ok (s_pipe s') (s_procs s').
Proof.
  intros St [Ok _] W. destruct St; cbn [s_pipe s_procs] in *.
  - by apply procs_insert.
  - destruct (pipewrite_ok _ _ _ _ _ Ok H0) as (sent & rest & _ & Ok' & E' & R1 & R2 & _).
    apply procs_insert_map; [done|]. intros i x Hx. eapply wake_after_write; [done..|apply Ok'|by eapply W].
  - destruct (pipewrite_ok _ _ _ _ _ Ok H0) as (sent & rest' & _ & Ok' & _ & R1 & R2 & _ & _ & Hc & [Ho|?]); [|done].
    apply procs_insert; [done|]. intros i x Hx. eapply closed_write; [done..|by eapply W].
  - destruct (pipewrite_ok _ _ _ _ _ Ok H0) as (sent & rest' & _ & Ok' & E' & R1 & R2 & _ & _ & Hc & Ho & _).
    apply procs_insert; [simpl; rewrite R1, R2; split_and!; [done..|by apply (W t _ H)]|].
    apply procs_map. intros i x Hx. eapply wake_after_write; [done..|apply Ok'|by eapply W].
  - destruct (piperead_ok _ _ _ _ _ Ok H0) as (Ok' & R1 & R2 & E' & _).
    apply procs_insert_map; [done|]. intros i x Hx. eapply wake_after_read; [done..|by eapply W].
  - destruct (piperead_ok _ _ _ _ _ Ok H0) as (_ & _ & _ & _ & ?). done.
  - destruct (piperead_ok _ _ _ _ _ Ok H0) as (_ & _ & _ & -> & Hc & Hw & _).
    apply procs_insert; [|done]. split_and!; [done..|by apply (W t _ H)].
  - apply procs_insert; [|done]. specialize (W t _ H). destruct c; simpl in *; apply W.
  - apply procs_map. intros i x Hx. eapply close_ok; [by eapply H|done|by eapply W].
Qed.

Lemma procs_initial page n : procs_ok (pipe_init page) (s_procs (initial page n)).
Proof.
  intros t x Hx. apply elem_of_list_to_map_2, list_elem_of_fmap in Hx as (? & [= -> ->] & _). done.
Qed.

(** ** Theorems *)

(** C24: A pipe is a bounded queue: whatever processes do with it, the bytes
    sent are the bytes received followed by the bytes in the pipe, in order,
    of which there are at most [PIPESIZE]; the counters may have wrapped
    around any number of times. *)
Theorem pipe_fifo page n s :
  (Z.to_nat PIPESIZE <= length page)%nat -> rtc (fun s s' => exists k, step k s s') (initial page n) s ->
  s_sent s = s_received s ++ contents (s_pipe s) /\ Z.of_nat (length (contents (s_pipe s))) <= PIPESIZE.
Proof.
  intros Hp R. assert (fifo s) as [Ok E].
  { revert R. apply rtc_ind_r; [by apply fifo_initial|]. intros x y _ [k St]. by apply (fifo_step k). }
  split; [done|]. rewrite length_contents, Z2Nat.id; [apply Ok|apply u32_range].
Qed.

(** C25: No wakeup is lost: as long as no process is killed, a process asleep
    in [pipewrite] has a full pipe and an open read end, one asleep in
    [piperead] an empty pipe and an open write end.  In particular a reader
    and a writer never both sleep. *)
Theorem pipe_no_lost_wakeup page n s :
  (Z.to_nat PIPESIZE <= length page)%nat -> rtc (step false) (initial page n) s ->
  (forall t src, s_procs s !! t = Some (Asleep (CWrite src)) -> count (s_pipe s) = PIPESIZE /\ readopen (s_pipe s) = true) /\
  (forall t m, s_procs s !! t = Some (Asleep (CRead m)) -> count (s_pipe s) = 0 /\ writeopen (s_pipe s) = true) /\
  ~ exists t t' src m, s_procs s !! t = Some (Asleep (CWrite src)) /\ s_procs s !! t' = Some (Asleep (CRead m)).
Proof.
  intros Hp R. assert (fifo s /\ procs_ok (s_pipe s) (s_procs s)) as [_ W].
  { revert R. apply (rtc_ind_r (fun s => fifo s /\ procs_ok (s_pipe s) (s_procs s))).
    - split; [by apply fifo_initial|apply procs_initial].
    - intros x y _ St [F W]. split; [by eapply fifo_step|by eapply procs_step]. }
  split_and!.
  - intros t src H. destruct (W _ _ H) as (? & ? & ?). done.
  - intros t m H. destruct (W _ _ H) as (? & ? & ?). done.
  - intros (t & t' & src & m & H & H'). destruct (W _ _ H) as (E1 & _), (W _ _ H') as (E2 & _).
    lia.
Qed.

(** ** Runs *)
Definition zero_page : list Z := replicate 4096 0.
Definition sys0 (p : pipe) (a b : pcall) (snt rcv : list Z) : system := mk_system p {[ 0%nat := a; 1%nat := b ]} snt rcv.

Lemma initial_2 : initial zero_page 2 = sys0 (pipe_init zero_page) Idle Idle [] [].
Proof. reflexivity. Qed.

Lemma step_to k s s1 s2 : step k s s1 -> s1 = s2 -> step k s s2.
Proof. by intros ? <-. Qed.

(** Process 0 reads from the empty pipe and sleeps; process 1 then writes. *)
Lemma run_sleep k : step k (sys0 (pipe_init zero_page) Idle Idle [] []) (sys0 (pipe_init zero_page) (Runnable (CRead 1)) Idle [] []).
Proof. by eapply step_to; [apply (step_call _ _ _ _ _ 0%nat (CRead 1))|]. Qed.
Lemma run_asleep : step false (sys0 (pipe_init zero_page) (Runnable (CRead 1)) Idle [] [])
  (sys0 (pipe_init zero_page) (Asleep (CRead 1)) Idle [] []).
Proof. by eapply step_to; [apply (step_read_sleep _ _ _ _ _ 0%nat 1)|]. Qed.
Lemma run_call k src : step k (sys0 (pipe_init zero_page) (Asleep (CRead 1)) Idle [] [])
  (sys0 (pipe_init zero_page) (Asleep (CRead 1)) (Runnable (CWrite src)) [] []).
Proof. by eapply step_to; [apply (step_call _ _ _ _ _ 1%nat (CWrite src))|]. Qed.

Lemma run_write : step false (sys0 (pipe_init zero_page) (Asleep (CRead 1)) (Runnable (CWrite [5; 6])) [] [])
  (sys0 (put_byte 6 (put_byte 5 (pipe_init zero_page))) (Runnable (CRead 1)) Idle [5; 6] []).
Proof. by eapply step_to; [apply (step_write_done _ _ _ _ _ 1%nat [5; 6])|]. Qed.
Lemma run_read : step false (sys0 (put_byte 6 (put_byte 5 (pipe_init zero_page))) (Runnable (CRead 1)) Idle [5; 6] [])
  (sys0 (get_byte (put_byte 6 (put_byte 5 (pipe_init zero_page)))).2 Idle Idle [5; 6] [5]).
Proof.
  eapply step_to; [eapply (step_read_done _ _ _ _ _ 0%nat 1 [5]); [done|vm_compute; reflexivity]|vm_compute; reflexivity].
Qed.

Lemma demo_run : rtc (step false) (initial zero_page 2)
  (sys0 (get_byte (put_byte 6 (put_byte 5 (pipe_init zero_page)))).2 Idle Idle [5; 6] [5]).
Proof.
  rewrite initial_2. eapply rtc_l; [apply run_sleep|]. eapply rtc_l; [apply run_asleep|]. eapply rtc_l; [apply run_call|].
  eapply rtc_l; [apply run_write|]. eapply rtc_l; [apply run_read|]. apply rtc_refl.
Qed.

Lemma pipe_fifo_witness : exists p, rtc (fun s s' => exists k, step k s s') (initial zero_page 2) (sys0 p Idle Idle [5; 6] [5]) /\
  [5; 6] = [5] ++ contents p.
Proof.
  exists (get_byte (put_byte 6 (put_byte 5 (pipe_init zero_page)))).2.
  assert (rtc (fun s s' => exists k, step k s s') (initial zero_page 2)
    (sys0 (get_byte (put_byte 6 (put_byte 5 (pipe_init zero_page)))).2 Idle Idle [5; 6] [5])) as R.
  { eapply rtc_subrel; [|exact demo_run]. intros x y St. by exists false. }
  split; [exact R|]. exact (proj1 (pipe_fifo zero_page 2 _ ltac:(vm_compute; lia) R)).
Defined.

Lemma pipe_no_lost_wakeup_witness : exists s, rtc (step false) (initial zero_page 2) s /\
  s_procs s !! 0%nat = Some (Asleep (CRead 1)) /\ count (s_pipe s) = 0.
Proof.
  exists (sys0 (pipe_init zero_page) (Asleep (CRead 1)) Idle [] []).
  assert (rtc (step false) (initial zero_page 2) (sys0 (pipe_init zero_page) (Asleep (CRead 1)) Idle [] [])) as R.
  { rewrite initial_2. eapply rtc_l; [apply run_sleep|]. eapply rtc_l; [apply run_asleep|]. apply rtc_refl. }
  split; [exact R|]. split; [reflexivity|].
  exact (proj1 (proj1 (proj2 (pipe_no_lost_wakeup zero_page 2 _ ltac:(vm_compute; lia) R)) 0%nat 1%nat eq_refl)).
Defined.

(** A killed writer that fills the pipe returns without waking the readers:
    the reader stays asleep on a full pipe while the write end is open. *)
Lemma pipe_killed_lost_wakeup : exists s, rtc (fun s s' => exists k, step k s s') (initial zero_page 2) s /\
  s_procs s !! 0%nat = Some (Asleep (CRead 1)) /\ s_procs s !! 1%nat = Some Idle /\
  full (s_pipe s) = true /\ writeopen (s_pipe s) = true.
Proof.
  destruct (pipewrite true (replicate 513 1) (pipe_init zero_page)) as [p' r] eqn:E.
  assert (r = WFail [1] /\ full p' = true /\ writeopen p' = true) as (-> & Hf & Hw).
  { assert (pipewrite true (replicate 513 1) (pipe_init zero_page) =
      (let q := (pipewrite true (replicate 513 1) (pipe_init zero_page)).1 in (q, WFail [1]))) as E' by (vm_compute; reflexivity).
    assert (full (pipewrite true (replicate 513 1) (pipe_init zero_page)).1 = true) as Hf by (vm_compute; reflexivity).
    assert (writeopen (pipewrite true (replicate 513 1) (pipe_init zero_page)).1 = true) as Hw by (vm_compute; reflexivity).
    rewrite E in E', Hf, Hw. injection E' as ->. auto. }
  revert E. generalize (replicate 513 1). intros src E.
  exists (sys0 p' (Asleep (CRead 1)) Idle (accepted src [1]) []). split; [|auto].
  rewrite initial_2. eapply rtc_l; [exists false; apply run_sleep|]. eapply rtc_l; [exists false; apply run_asleep|].
  eapply rtc_l; [exists true; apply (run_call true src)|]. eapply rtc_l; [|apply rtc_refl]. exists true.
  eapply step_to; [eapply (step_write_fail true _ _ _ _ 1%nat src [1] p'); [reflexivity|exact E]|reflexivity].
Qed.
