(* ===== verification/Kalloc.v ===== *)
(** * Physical memory and its allocator (kalloc.c)

  Kernel memory is the direct map of the physical pages: a page is named by
  the kernel virtual address of its first byte.  The free list runs through
  the free pages themselves. *)
From S2P Require Import Prelude.

(** ** memlayout.h and mmu.h *)
Notation EXTMEM := 0x100000 (only parsing).
Notation PHYSTOP := 0xE000000 (only parsing).
Notation DEVSPACE := 0xFE000000 (only parsing).
Notation KERNBASE := 0x80000000 (only parsing).
Notation KERNLINK := (KERNBASE + EXTMEM) (only parsing).
Definition V2P (a : Z) : Z := u32 (a - KERNBASE).
Definition P2V (a : Z) : Z := u32 (a + KERNBASE).
Notation PGSIZE := 4096 (only parsing).
Definition PGROUNDUP (sz : Z) : Z := Z.land (u32 (sz + PGSIZE - 1)) (u32 (Z.lnot (PGSIZE - 1))).
Definition PGROUNDDOWN (a : Z) : Z := Z.land a (u32 (Z.lnot (PGSIZE - 1))).

(** [end] and [data], which the linker script kernel.ld defines: the kernel is
    linked at [KERNLINK] and its data starts at a page boundary. *)
Class Linker := {
  link_end : Z;
  link_data : Z;
  link_end_range : KERNLINK < link_end < KERNBASE + PHYSTOP;
  link_data_range : KERNLINK < link_data <= link_end;
  link_data_align : link_data mod PGSIZE = 0
}.

(** ** Memory *)
Record vmstate := mk_vmstate {
  v_mem : gmap Z (list Z);
  v_freelist : Z
}.
Definition set_v_mem (x : gmap Z (list Z)) (v : vmstate) : vmstate := mk_vmstate x (v_freelist v).
Definition set_v_freelist (x : Z) (v : vmstate) : vmstate := mk_vmstate (v_mem v) x.

Definition blank : list Z := replicate (Z.to_nat PGSIZE) 0.
Definition pg (m : gmap Z (list Z)) (p : Z) : list Z := default blank (m !! p).
Definition base (a : Z) : Z := a - a mod PGSIZE.

(** The word and the bytes at an address; they do not cross a page. *)
Definition wordat (m : gmap Z (list Z)) (a : Z) : Z := rd 4 (pg m (base a)) (Z.to_nat (a mod PGSIZE)).
Definition ldw (a : Z) : M vmstate Z := gets (fun v => wordat (v_mem v) a).
Definition stw (a x : Z) : M vmstate unit :=
  modify (fun v => set_v_mem (<[base a := wr 4 (pg (v_mem v) (base a)) (Z.to_nat (a mod PGSIZE)) x]> (v_mem v)) v).
Definition set_page (p : Z) (bs : list Z) : M vmstate unit := modify (fun v => set_v_mem (<[p := bs]> (v_mem v)) v).
Definition get_page (p : Z) : M vmstate (list Z) := gets (fun v => pg (v_mem v) p).

(** ** The allocator *)
Section kalloc.
Context {LK : Linker}.

Definition page_ok (v : Z) : bool := (v mod PGSIZE =? 0) && (link_end <=? v) && (V2P v <? PHYSTOP).

Definition kfree (v : Z) : M vmstate unit :=
  if negb (page_ok v) then panic "kfree" else
  set_page v (replicate (Z.to_nat PGSIZE) 1) ;;
  r ← gets v_freelist;
  stw v r ;;
  modify (set_v_freelist v).

Definition kalloc : M vmstate Z :=
  r ← gets v_freelist;
  (if r =? 0 then mret tt else next ← ldw r; modify (set_v_freelist next)) ;;
  mret r.

Fixpoint freerange_loop (fuel : nat) (p vend : Z) : M vmstate unit :=
  match fuel with
  | O => out_of_fuel
  | S fuel => if u32 (p + PGSIZE) <=? vend then kfree p ;; freerange_loop fuel (u32 (p + PGSIZE)) vend else mret tt
  end.
Definition freerange (vstart vend : Z) : M vmstate unit :=
  freerange_loop (S (Z.to_nat (vend / PGSIZE))) (PGROUNDUP vstart) vend.

Definition kinit1 (vstart vend : Z) : M vmstate unit := freerange vstart vend.
Definition kinit2 (vstart vend : Z) : M vmstate unit := freerange vstart vend.

(** ** The free list *)
Record kpage (p : Z) : Prop := {
  kp_align : p mod PGSIZE = 0;
  kp_low : link_end <= p;
  kp_high : p < KERNBASE + PHYSTOP
}.
Lemma kpage_range p : kpage p -> KERNBASE < p < 2 ^ 32 /\ V2P p = p - KERNBASE /\ 0 < V2P p < PHYSTOP.
Proof.
  intros [_ Hl Hh]. pose proof link_end_range as L. unfold V2P in *.
  rewrite u32_small by lia. lia.
Qed.

Fixpoint chain (m : gmap Z (list Z)) (r : Z) (l : list Z) : Prop :=
  match l with
  | [] => r = 0
  | p :: l => r = p /\ chain m (wordat m p) l
  end.

Record free_ok (s : vmstate) (l : list Z) : Prop := {
  fo_chain : chain (v_mem s) (v_freelist s) l;
  fo_nodup : NoDup l;
  fo_pages : Forall kpage l;
  fo_size : forall p, length (pg (v_mem s) p) = Z.to_nat PGSIZE
}.

Lemma kpage_base p : kpage p -> base p = p /\ p mod PGSIZE = 0.
Proof. intros [H _ _]. unfold base. rewrite H. lia. Qed.
Lemma page_ok_iff p : 0 <= p < 2 ^ 32 -> page_ok p = true <-> kpage p.
Proof.
  intros Hp. pose proof link_end_range as L. unfold page_ok. rewrite !andb_true_iff, Z.eqb_eq, Z.leb_le, Z.ltb_lt. unfold V2P.
  split.
  - intros [[? ?] H3]. split; [done..|]. rewrite u32_small in H3 by lia. lia.
  - intros [? ? ?]. rewrite u32_small by lia. split; [done|]. lia.
Qed.

Lemma pg_insert m p x q : pg (<[p := x]> m) q = if decide (q = p) then x else pg m q.
Proof. unfold pg. destruct (decide (q = p)) as [->|]; [by rewrite lookup_insert_eq|by rewrite lookup_insert_ne]. Qed.
Lemma wordat_other m p x a : base a <> p -> wordat (<[p := x]> m) a = wordat m a.
Proof. intros H. unfold wordat. by rewrite pg_insert, decide_False. Qed.

Lemma chain_ext m m' r l :
  (forall p, p ∈ l -> wordat m' p = wordat m p) -> chain m r l -> chain m' r l.
Proof.
  revert r. induction l as [|p l IH]; intros r H; [done|]. intros [-> Hc]. split; [done|].
  rewrite H by (by left). apply IH; [|done]. intros q Hq. apply H. by right.
Qed.

(** Changing pages that are not free keeps the free list. *)
Lemma free_ok_ext s s' l :
  v_freelist s' = v_freelist s -> (forall p, p ∈ l -> pg (v_mem s') p = pg (v_mem s) p) ->
  (forall p, length (pg (v_mem s') p) = Z.to_nat PGSIZE) -> free_ok s l -> free_ok s' l.
Proof.
  intros E H Hs [Hc Hn Hp _]. split; try done. rewrite E. eapply chain_ext; [|exact Hc]. intros p Hin. unfold wordat.
  rewrite Forall_forall in Hp. destruct (kpage_base p (Hp p Hin)) as [-> _]. by rewrite H.
Qed.

Lemma kfree_spec s l v :
  free_ok s l -> kpage v -> v ∉ l ->
  exists s', kfree v s = Ret tt s' /\ free_ok s' (v :: l) /\ (forall p, p <> v -> pg (v_mem s') p = pg (v_mem s) p) /\
    drop 4 (pg (v_mem s') v) = replicate (Z.to_nat PGSIZE - 4) 1.
Proof.
  intros Ok Hv Hn. destruct (kpage_base v Hv) as [Hb Hm], (kpage_range v Hv) as [HR _].
  assert (0 <= v < 2 ^ 32) as Hr by lia.
  set (w := wr 4 (replicate (Z.to_nat PGSIZE) 1) 0 (v_freelist s)).
  assert (length w = Z.to_nat PGSIZE) as Hw by (unfold w; rewrite length_wr; rewrite length_replicate; done || (lia)).
  assert (forall q, pg (<[v := w]> (<[v := replicate (Z.to_nat PGSIZE) 1]> (v_mem s))) q = if decide (q = v) then w else pg (v_mem s) q) as Hpg.
  { intros q. rewrite !pg_insert. by destruct (decide (q = v)). }
  eexists. split.
  { unfold kfree. rewrite (proj2 (page_ok_iff v Hr) Hv). cbn [negb].
    unfold set_page, stw. rewrite !bind_modify, bind_gets, bind_modify. unfold set_v_mem, set_v_freelist. cbn [v_mem v_freelist].
    rewrite Hb, Hm, pg_insert, decide_True by done. reflexivity. }
  cbn [v_mem v_freelist set_v_mem set_v_freelist]. change (Z.to_nat 0) with 0%nat. fold w. split_and!.
  - split; cbn [v_mem v_freelist set_v_mem set_v_freelist].
    + split; [done|]. assert (wordat (<[v:=w]> (<[v:=replicate (Z.to_nat PGSIZE) 1]> (v_mem s))) v = v_freelist s) as ->.
      { unfold wordat. rewrite Hb, Hm, Hpg, decide_True by done. unfold w. rewrite rd_wr by (rewrite length_replicate; lia).
        apply Z.mod_small. destruct l as [|p l]; destruct Ok as [Hc _ Hp _]; simpl in Hc; [lia|].
        destruct Hc as [-> _]. apply Forall_cons in Hp as [Hp _]. apply kpage_range in Hp as [? _]. simpl. lia. }
      eapply chain_ext; [|apply Ok]. intros p Hp. rewrite !wordat_other; [done|..];
        (pose proof (fo_pages _ _ Ok) as F; rewrite Forall_forall in F; destruct (kpage_base p (F p Hp)) as [-> _]; by intros ->).
    + constructor; [done|apply Ok].
    + constructor; [done|apply Ok].
    + intros p. rewrite Hpg. destruct (decide _); [done|apply Ok].
  - intros p Hp. by rewrite Hpg, decide_False.
  - rewrite Hpg, decide_True by done. unfold w, wr, splice. simpl take. rewrite app_nil_l, drop_app_ge by (rewrite length_le_enc; lia).
    rewrite length_le_enc, drop_drop. rewrite drop_replicate. f_equal.
Qed.

Lemma kalloc_spec s l :
  free_ok s l ->
  match l with
  | [] => kalloc s = Ret 0 s
  | p :: l' => exists s', kalloc s = Ret p s' /\ free_ok s' l' /\ v_mem s' = v_mem s
  end.
Proof.
  intros Ok. destruct l as [|p l'].
  - pose proof (fo_chain _ _ Ok) as E. simpl in E. unfold kalloc. rewrite bind_gets, E. reflexivity.
  - destruct Ok as [[E Hc] Hn Hp Hs]. apply Forall_cons in Hp as [Hp Hf]. apply NoDup_cons in Hn as [_ Hn].
    exists (set_v_freelist (wordat (v_mem s) p) s). split; [|by split].
    unfold kalloc. rewrite bind_gets, E. destruct (Z.eqb_spec p 0) as [->|_]; [|reflexivity].
    apply kpage_range in Hp as [? _]. lia.
Qed.

(** ** Rounding *)
Lemma mask_base a : 0 <= a < 2 ^ 32 -> Z.land a (u32 (Z.lnot (PGSIZE - 1))) = base a.
Proof.
  intros Ha. change (u32 (Z.lnot (PGSIZE - 1))) with (Z.ldiff (Z.ones 32) (Z.ones 12)).
  assert (base a = Z.shiftl (Z.shiftr a 12) 12) as ->.
  { rewrite Z.shiftl_mul_pow2, Z.shiftr_div_pow2 by lia. unfold base. change (2 ^ 12) with PGSIZE.
    pose proof (Z.div_mod a PGSIZE). lia. }
  apply Z.bits_inj'. intros n Hn. rewrite Z.land_spec, Z.ldiff_spec.
  destruct (Z.lt_ge_cases n 12).
  - rewrite Z.shiftl_spec_low by lia. rewrite (Z.ones_spec_low 12) by lia. by rewrite andb_false_r, andb_false_r.
  - rewrite Z.shiftl_spec, Z.shiftr_spec by lia. rewrite (Z.ones_spec_high 12) by lia.
    replace (n - 12 + 12) with n by lia. rewrite andb_true_r. destruct (Z.lt_ge_cases n 32).
    + rewrite Z.ones_spec_low by lia. by rewrite andb_true_r.
    + rewrite Z.ones_spec_high by lia. rewrite andb_false_r. symmetry.
      destruct (decide (a = 0)) as [->|]; [apply Z.bits_0|]. apply Z.bits_above_log2; [lia|].
      apply Z.log2_lt_pow2; [lia|]. eapply Z.lt_le_trans; [apply Ha|]. apply Z.pow_le_mono_r; lia.
Qed.
Lemma PGROUNDDOWN_base a : 0 <= a < 2 ^ 32 -> PGROUNDDOWN a = base a.
Proof. apply mask_base. Qed.
Lemma PGROUNDUP_base a : 0 <= a -> a + PGSIZE - 1 < 2 ^ 32 -> PGROUNDUP a = base (a + PGSIZE - 1).
Proof. intros. unfold PGROUNDUP. rewrite u32_small by lia. apply mask_base. lia. Qed.
Lemma base_bounds a : base a <= a < base a + PGSIZE /\ base a mod PGSIZE = 0.
Proof.
  unfold base. pose proof (Z.mod_pos_bound a PGSIZE ltac:(done)). split; [lia|].
  rewrite Zminus_mod_idemp_r. by rewrite Z.sub_diag.
Qed.

(** ** Initialisation *)
Definition pages_from (p : Z) (n : nat) : list Z := (fun k => p + PGSIZE * Z.of_nat k) <$> seq 0 n.

Lemma pages_from_S p n : pages_from p (S n) = p :: pages_from (p + PGSIZE) n.
Proof.
  unfold pages_from. rewrite <- cons_seq, <- fmap_S_seq. simpl. f_equal; [lia|]. rewrite <- list_fmap_compose.
  apply list_fmap_ext. intros i k _. simpl. lia.
Qed.
Lemma elem_of_pages_from p n q : q ∈ pages_from p n <-> exists k, (k < n)%nat /\ q = p + PGSIZE * Z.of_nat k.
Proof.
  unfold pages_from. rewrite list_elem_of_fmap. split.
  - intros (k & -> & Hk%elem_of_seq). exists k. split; [lia|done].
  - intros (k & Hk & ->). exists k. split; [done|]. apply elem_of_seq. lia.
Qed.

Lemma freerange_loop_spec n : forall fuel s l p vend,
  free_ok s l -> (n < fuel)%nat -> p mod PGSIZE = 0 -> link_end <= p -> vend <= KERNBASE + PHYSTOP ->
  p + PGSIZE * Z.of_nat n <= vend < p + PGSIZE * Z.of_nat n + PGSIZE -> (forall q, q ∈ pages_from p n -> q ∉ l) ->
  exists s', freerange_loop fuel p vend s = Ret tt s' /\ free_ok s' (rev (pages_from p n) ++ l) /\
    forall q, q ∉ pages_from p n -> pg (v_mem s') q = pg (v_mem s) q.
Proof.
  induction n as [|n IH]; intros fuel s l p vend Ok Hf Ha Hl Hv Hn Hd; (destruct fuel as [|fuel]; [lia|]); cbn [freerange_loop];
    pose proof link_end_range as L;
    rewrite u32_small by lia.
  - destruct (Z.leb_spec (p + PGSIZE) vend); [lia|]. exists s. by split_and!.
  - rewrite pages_from_S in *. destruct (Z.leb_spec (p + PGSIZE) vend); [|lia].
    assert (kpage p) as Kp by (split; [done..|lia]).
    destruct (kfree_spec s l p Ok Kp) as (s1 & E1 & Ok1 & Hfr1 & _); [apply Hd; by left|].
    destruct (IH fuel s1 (p :: l) (p + PGSIZE) vend Ok1) as (s2 & E2 & Ok2 & Hfr2);
      [lia| |lia|lia|lia| |].
    + rewrite <- Zplus_mod_idemp_l, Ha. done.
    + intros q Hq. apply not_elem_of_cons. split; [|apply Hd; by right].
      apply elem_of_pages_from in Hq as (k & _ & ->). lia.
    + exists s2. split; [by rewrite (bind_Ret _ _ _ _ _ E1)|]. split.
      * simpl rev. by rewrite <- app_assoc.
      * intros q [H1 H2]%not_elem_of_cons. rewrite Hfr2 by done. by apply Hfr1.
Qed.

Lemma freerange_spec s l a n :
  free_ok s l -> a mod PGSIZE = 0 -> link_end <= a -> a + PGSIZE * Z.of_nat n <= KERNBASE + PHYSTOP ->
  (forall q, q ∈ pages_from a n -> q ∉ l) ->
  exists s', freerange a (a + PGSIZE * Z.of_nat n) s = Ret tt s' /\ free_ok s' (rev (pages_from a n) ++ l).
Proof.
  intros Ok Ha Hl Hm Hd. pose proof link_end_range as L. unfold freerange.
  assert (PGROUNDUP a = a) as ->.
  { rewrite PGROUNDUP_base by lia.
    pose proof (base_bounds (a + PGSIZE - 1)) as [Hb Hm']. unfold base in *.
    assert ((a + PGSIZE - 1) mod PGSIZE = PGSIZE - 1) as E; [|lia].
    replace (a + PGSIZE - 1) with (a + (PGSIZE - 1)) by lia. rewrite <- Zplus_mod_idemp_l, Ha. done. }
  destruct (freerange_loop_spec n (S (Z.to_nat ((a + PGSIZE * Z.of_nat n) / PGSIZE))) s l a (a + PGSIZE * Z.of_nat n) Ok)
    as (s' & E & Ok' & _); try done; [|lia|by exists s'].
  rewrite Z.mul_comm, Z.div_add by done. assert (0 <= a / PGSIZE); [|lia]. apply Z.div_pos; [|done].
  lia.
Qed.

Lemma pages_from_app p n m : pages_from p (n + m) = pages_from p n ++ pages_from (p + PGSIZE * Z.of_nat n) m.
Proof.
  revert p. induction n as [|n IH]; intros p; [simpl; f_equal; lia|]. cbn [Nat.add]. rewrite !pages_from_S, IH. simpl.
  do 3 f_equal. lia.
Qed.

(** ** Theorems *)

(** C27: [kfree] and [kalloc] run a stack of free pages threaded through the
    pages themselves: [kfree] of a page that is not free pushes it, filled
    with junk, and [kalloc] pops, or returns 0 exactly when there is none; no
    other page changes, and no page is ever free twice, so a page in use is
    never handed out.  An address that is not a page of free memory makes
    [kfree] panic. *)
Theorem kalloc_kfree_correct s l v :
  free_ok s l -> 0 <= v < 2 ^ 32 ->
  (kpage v -> v ∉ l -> exists s', kfree v s = Ret tt s' /\ free_ok s' (v :: l) /\
     (forall p, p <> v -> pg (v_mem s') p = pg (v_mem s) p) /\
     drop 4 (pg (v_mem s') v) = replicate (Z.to_nat PGSIZE - 4) 1) /\
  (~ kpage v -> kfree v s = Panic "kfree") /\
  match l with
  | [] => kalloc s = Ret 0 s
  | p :: l' => exists s', kalloc s = Ret p s' /\ free_ok s' l' /\ v_mem s' = v_mem s /\ kpage p /\ p ∉ l'
  end.
Proof.
  intros Ok Hv. split_and!.
  - by apply kfree_spec.
  - intros Hn. unfold kfree. destruct (page_ok v) eqn:E; [|done]. by apply page_ok_iff in E.
  - pose proof (kalloc_spec s l Ok) as H. destruct l as [|p l]; [done|]. destruct H as (s' & ? & ? & ?).
    pose proof (fo_pages _ _ Ok) as [? _]%Forall_cons. pose proof (fo_nodup _ _ Ok) as [? _]%NoDup_cons. eauto 10.
Qed.

(** [kinit1] followed by [kinit2] makes every whole page of the two ranges
    free, once each. *)
Theorem kinit_correct m a n1 n2 :
  (forall p, length (pg m p) = Z.to_nat PGSIZE) -> a mod PGSIZE = 0 -> link_end <= a ->
  a + PGSIZE * Z.of_nat (n1 + n2) <= KERNBASE + PHYSTOP ->
  exists s', (kinit1 a (a + PGSIZE * Z.of_nat n1) ;;
              kinit2 (a + PGSIZE * Z.of_nat n1) (a + PGSIZE * Z.of_nat (n1 + n2))) (mk_vmstate m 0) = Ret tt s' /\
    free_ok s' (rev (pages_from a (n1 + n2))).
Proof.
  intros Hs Ha Hl Hm. set (b := a + PGSIZE * Z.of_nat n1).
  assert (free_ok (mk_vmstate m 0) []) as Ok0 by (split; [done|constructor|constructor|done]).
  destruct (freerange_spec _ _ a n1 Ok0) as (s1 & E1 & Ok1); [done|done|lia|intros ? _; apply not_elem_of_nil|].
  rewrite app_nil_r in Ok1.
  destruct (freerange_spec _ _ b n2 Ok1) as (s2 & E2 & Ok2).
  - unfold b. rewrite Z.mul_comm, Z.mod_add by done. done.
  - unfold b. lia.
  - unfold b in *. lia.
  - intros q (k & Hk & ->)%elem_of_pages_from Hq%list_elem_of_In%in_rev%list_elem_of_In.
    apply elem_of_pages_from in Hq as (k' & Hk' & E). unfold b in *. lia.
  - exists s2. split.
    + unfold kinit1, kinit2. fold b. rewrite (bind_Ret _ _ _ _ _ E1). unfold b in *.
      replace (a + PGSIZE * Z.of_nat (n1 + n2)) with (a + PGSIZE * Z.of_nat n1 + PGSIZE * Z.of_nat n2) by lia.
      exact E2.
    + rewrite pages_from_app, rev_app_distr. exact Ok2.
Qed.
End kalloc.

(** ** Runs *)
Definition demo_linker : Linker.
Proof. refine {| link_end := 0x80110000; link_data := 0x80108000 |}; done. Defined.
#[local] Existing Instance demo_linker.

Lemma blank_pages : forall p, length (pg ∅ p) = Z.to_nat PGSIZE.
Proof. intros p. unfold pg. rewrite lookup_empty. apply length_replicate. Qed.

Lemma kinit_correct_witness : exists s',
  (kinit1 0x80200000 (0x80200000 + PGSIZE * Z.of_nat 2) ;;
   kinit2 (0x80200000 + PGSIZE * Z.of_nat 2) (0x80200000 + PGSIZE * Z.of_nat 5)) (mk_vmstate ∅ 0) = Ret tt s' /\
  free_ok s' [0x80204000; 0x80203000; 0x80202000; 0x80201000; 0x80200000].
Proof.
  apply (kinit_correct ∅ 0x80200000 2 3 blank_pages); [reflexivity|vm_compute; discriminate|vm_compute; discriminate].
Defined.

Lemma demo_one_free : free_ok (mk_vmstate ∅ 0x80200000) [0x80200000].
Proof.
  split; [split; [done|]|apply NoDup_singleton|apply Forall_singleton; split; simpl; done|apply blank_pages].
  vm_compute. reflexivity.
Qed.
Lemma kalloc_kfree_correct_witness :
  (exists s', kfree 0x80300000 (mk_vmstate ∅ 0x80200000) = Ret tt s' /\ free_ok s' [0x80300000; 0x80200000]) /\
  kfree 0x80300004 (mk_vmstate ∅ 0x80200000) = Panic "kfree" /\
  (exists s', kalloc (mk_vmstate ∅ 0x80200000) = Ret 0x80200000 s' /\ free_ok s' []).
Proof.
  split; [|split].
  - destruct (kalloc_kfree_correct _ _ 0x80300000 demo_one_free) as [H _]; [lia|].
    destruct H as (s' & E & Ok & _); [split; simpl; done|by apply not_elem_of_cons; split; [|apply not_elem_of_nil]|].
    exists s'. split; [exact E|exact Ok].
  - destruct (kalloc_kfree_correct _ _ 0x80300004 demo_one_free) as (_ & H & _); [lia|]. apply H. intros [Ha _ _]. discriminate Ha.
  - destruct (kalloc_kfree_correct _ _ 0x80300000 demo_one_free) as (_ & _ & s' & E & Ok & _); [lia|].
    exists s'. split; [exact E|exact Ok].
Defined.
