(* ===== verification/Vm.v ===== *)
(** * Page tables (vm.c)

  The page directory and the page tables are pages of kernel memory, read
  and written a word at a time. *)
From S2P Require Import Prelude Kalloc.

(** ** mmu.h *)
Notation NPDENTRIES := 1024 (only parsing).
Definition PDX (va : Z) : Z := Z.land (Z.shiftr va 22) 0x3FF.
Definition PTX (va : Z) : Z := Z.land (Z.shiftr va 12) 0x3FF.
Definition PGADDR (d t o : Z) : Z := u32 (Z.lor (Z.lor (Z.shiftl d 22) (Z.shiftl t 12)) o).
Notation PTE_P := 1 (only parsing).
Notation PTE_W := 2 (only parsing).
Notation PTE_U := 4 (only parsing).
Definition PTE_ADDR (pte : Z) : Z := Z.land pte (u32 (Z.lnot 0xFFF)).
Definition PTE_FLAGS (pte : Z) : Z := Z.land pte 0xFFF.
Definition flag (x f : Z) : bool := negb (Z.land x f =? 0).

Section vm.
Context {LK : Linker}.

(** ** Walking and mapping *)
Definition walkpgdir (pgdir va : Z) (alloc : bool) : M vmstate Z :=
  let pde := pgdir + 4 * PDX va in
  x ← ldw pde;
  if flag x PTE_P then mret (P2V (PTE_ADDR x) + 4 * PTX va)
  else if negb alloc then mret 0 else
  pgtab ← kalloc;
  if pgtab =? 0 then mret 0 else
  set_page pgtab blank ;;
  stw pde (Z.lor (Z.lor (Z.lor (V2P pgtab) PTE_P) PTE_W) PTE_U) ;;
  mret (pgtab + 4 * PTX va).

Fixpoint mappages_loop (fuel : nat) (pgdir a last pa perm : Z) : M vmstate Z :=
  match fuel with
  | O => out_of_fuel
  | S fuel =>
      pte ← walkpgdir pgdir a true;
      if pte =? 0 then mret (-1) else
      x ← ldw pte;
      if flag x PTE_P then panic "remap" else
      stw pte (Z.lor (Z.lor pa perm) PTE_P) ;;
      if a =? last then mret 0 else
      mappages_loop fuel pgdir (u32 (a + PGSIZE)) last (u32 (pa + PGSIZE)) perm
  end.
Definition mappages (pgdir va size pa perm : Z) : M vmstate Z :=
  let a := PGROUNDDOWN va in
  let last := PGROUNDDOWN (u32 (va + size - 1)) in
  mappages_loop (S (Z.to_nat (u32 (last - a) / PGSIZE))) pgdir a last pa perm.

(** ** Shrinking and freeing *)
Fixpoint deallocuvm_loop (fuel : nat) (pgdir a oldsz : Z) : M vmstate unit :=
  match fuel with
  | O => out_of_fuel
  | S fuel =>
      if oldsz <=? a then mret tt else
      pte ← walkpgdir pgdir a false;
      a ← (if pte =? 0 then mret (u32 (PGADDR (PDX a + 1) 0 0 - PGSIZE)) else
           x ← ldw pte;
           (if flag x PTE_P then
              let pa := PTE_ADDR x in
              if pa =? 0 then panic "kfree" else
              kfree (P2V pa) ;;
              stw pte 0
            else mret tt) ;;
           mret a);
      deallocuvm_loop fuel pgdir (u32 (a + PGSIZE)) oldsz
  end.
Definition deallocuvm (pgdir oldsz newsz : Z) : M vmstate Z :=
  if oldsz <=? newsz then mret oldsz else
  deallocuvm_loop (S (Z.to_nat (oldsz / PGSIZE + 1))) pgdir (PGROUNDUP newsz) oldsz ;;
  mret newsz.

Definition freevm (pgdir : Z) : M vmstate unit :=
  if pgdir =? 0 then panic "freevm: no pgdir" else
  deallocuvm pgdir KERNBASE 0 ;;
  forM (seq 0 (Z.to_nat NPDENTRIES)) (fun i =>
    x ← ldw (pgdir + 4 * Z.of_nat i);
    if flag x PTE_P then kfree (P2V (PTE_ADDR x)) else mret tt) ;;
  kfree pgdir.

(** ** The kernel part of a page table *)
Record kmap_entry := mk_kmap {
  km_virt : Z;
  km_start : Z;
  km_end : Z;
  km_perm : Z
}.
Definition kmap : list kmap_entry :=
  [ mk_kmap KERNBASE 0 EXTMEM PTE_W;
    mk_kmap KERNLINK (V2P KERNLINK) (V2P link_data) 0;
    mk_kmap link_data (V2P link_data) PHYSTOP PTE_W;
    mk_kmap DEVSPACE DEVSPACE 0 PTE_W ].

Fixpoint setupkvm_loop (ks : list kmap_entry) (pgdir : Z) : M vmstate Z :=
  match ks with
  | [] => mret pgdir
  | k :: ks =>
      r ← mappages pgdir (km_virt k) (u32 (km_end k - km_start k)) (km_start k) (km_perm k);
      if r <? 0 then freevm pgdir ;; mret 0 else setupkvm_loop ks pgdir
  end.
Definition setupkvm : M vmstate Z :=
  pgdir ← kalloc;
  if pgdir =? 0 then mret 0 else
  set_page pgdir blank ;;
  if DEVSPACE <? P2V PHYSTOP then panic "PHYSTOP too high" else
  setupkvm_loop kmap pgdir.

(** ** User memory *)
Definition inituvm (pgdir : Z) (init : list Z) (sz : Z) : M vmstate unit :=
  if PGSIZE <=? sz then panic "inituvm: more than a page" else
  mem ← kalloc;
  if mem =? 0 then fault "memset: null pointer" else
  set_page mem blank ;;
  mappages pgdir 0 PGSIZE (V2P mem) (Z.lor PTE_W PTE_U) ;;
  d ← get_page mem;
  set_page mem (splice d 0 (take (Z.to_nat sz) init)).

Fixpoint allocuvm_loop (fuel : nat) (pgdir a newsz oldsz : Z) : M vmstate Z :=
  match fuel with
  | O => out_of_fuel
  | S fuel =>
      if newsz <=? a then mret newsz else
      mem ← kalloc;
      if mem =? 0 then deallocuvm pgdir newsz oldsz ;; mret 0 else
      set_page mem blank ;;
      r ← mappages pgdir a PGSIZE (V2P mem) (Z.lor PTE_W PTE_U);
      if r <? 0 then deallocuvm pgdir newsz oldsz ;; kfree mem ;; mret 0 else
      allocuvm_loop fuel pgdir (u32 (a + PGSIZE)) newsz oldsz
  end.
Definition allocuvm (pgdir oldsz newsz : Z) : M vmstate Z :=
  if KERNBASE <=? newsz then mret 0 else
  if newsz <? oldsz then mret oldsz else
  allocuvm_loop (S (Z.to_nat (newsz / PGSIZE + 1))) pgdir (PGROUNDUP oldsz) newsz oldsz.

Definition clearpteu (pgdir uva : Z) : M vmstate unit :=
  pte ← walkpgdir pgdir uva false;
  if pte =? 0 then panic "clearpteu" else
  x ← ldw pte;
  stw pte (Z.land x (u32 (Z.lnot PTE_U))).

Fixpoint copyuvm_loop (fuel : nat) (pgdir d i sz : Z) : M vmstate Z :=
  match fuel with
  | O => out_of_fuel
  | S fuel =>
      if sz <=? i then mret d else
      pte ← walkpgdir pgdir i false;
      if pte =? 0 then panic "copyuvm: pte should exist" else
      x ← ldw pte;
      if negb (flag x PTE_P) then panic "copyuvm: page not present" else
      mem ← kalloc;
      if mem =? 0 then freevm d ;; mret 0 else
      src ← get_page (P2V (PTE_ADDR x));
      set_page mem src ;;
      r ← mappages d i PGSIZE (V2P mem) (PTE_FLAGS x);
      if r <? 0 then kfree mem ;; freevm d ;; mret 0 else
      copyuvm_loop fuel pgdir d (u32 (i + PGSIZE)) sz
  end.
Definition copyuvm (pgdir sz : Z) : M vmstate Z :=
  d ← setupkvm;
  if d =? 0 then mret 0 else
  copyuvm_loop (S (Z.to_nat (sz / PGSIZE + 1))) pgdir d 0 sz.

Definition uva2ka (pgdir uva : Z) : M vmstate Z :=
  pte ← walkpgdir pgdir uva false;
  if pte =? 0 then fault "uva2ka: null pointer" else
  x ← ldw pte;
  if negb (flag x PTE_P) then mret 0 else
  if negb (flag x PTE_U) then mret 0 else
  mret (P2V (PTE_ADDR x)).

Fixpoint copyout_loop (fuel : nat) (pgdir va : Z) (buf : list Z) : M vmstate Z :=
  match fuel with
  | O => out_of_fuel
  | S fuel =>
      match buf with
      | [] => mret 0
      | _ =>
          let va0 := PGROUNDDOWN va in
          pa0 ← uva2ka pgdir va0;
          if pa0 =? 0 then mret (-1) else
          let n := Z.min (PGSIZE - (va - va0)) (Z.of_nat (length buf)) in
          d ← get_page pa0;
          set_page pa0 (splice d (Z.to_nat (va - va0)) (take (Z.to_nat n) buf)) ;;
          copyout_loop fuel pgdir (u32 (va0 + PGSIZE)) (drop (Z.to_nat n) buf)
      end
  end.
Definition copyout (pgdir va : Z) (buf : list Z) : M vmstate Z := copyout_loop (S (length buf)) pgdir va buf.
End vm.
