(* ===== verification/VmSpec.v ===== *)
(** * What the page-table code computes

  The translation a page directory defines, as the processor reads it, and
  the effect of the code of vm.c on it. *)
From S2P Require Import Prelude Kalloc Vm.

(** ** Words of a page *)
Lemma base_word p i : p mod PGSIZE = 0 -> 0 <= i < 1024 -> base (p + 4 * i) = p /\ (p + 4 * i) mod PGSIZE = 4 * i.
Proof.
  intros Hp Hi. assert ((p + 4 * i) mod PGSIZE = 4 * i) as E.
  { rewrite <- Zplus_mod_idemp_l, Hp, Z.add_0_l. apply Z.mod_small. lia. }
  unfold base. rewrite E. split; [lia|done].
Qed.

(** Storing word [i] of page [p]. *)
Definition put (m : gmap Z (list Z)) (p i x : Z) : gmap Z (list Z) := <[p := wr 4 (pg m p) (Z.to_nat (4 * i)) x]> m.

Definition sized (m : gmap Z (list Z)) : Prop := forall p, length (pg m p) = Z.to_nat PGSIZE.

Lemma pg_put m p i x q : q <> p -> pg (put m p i x) q = pg m q.
Proof. intros. unfold put. by rewrite pg_insert, decide_False. Qed.
Lemma sized_put m p i x : sized m -> 0 <= i < 1024 -> sized (put m p i x).
Proof.
  intros Hs Hi q. unfold put. rewrite pg_insert. destruct (decide _); [|done].
  rewrite length_wr; [done|]. rewrite Hs. lia.
Qed.
Lemma wordat_put m p i x q j :
  sized m -> p mod PGSIZE = 0 -> q mod PGSIZE = 0 -> 0 <= i < 1024 -> 0 <= j < 1024 ->
  wordat (put m p i x) (q + 4 * j) = if decide (q = p /\ j = i) then u32 x else wordat m (q + 4 * j).
Proof.
  intros Hs Hp Hq Hi Hj. unfold wordat. destruct (base_word q j Hq Hj) as [-> ->]. unfold put. rewrite pg_insert.
  destruct (decide (q = p)) as [->|Hne].
  - destruct (decide (p = p /\ j = i)) as [[_ ->]|Hne].
    + rewrite rd_wr; [done|]. rewrite Hs. lia.
    + rewrite rd_wr_disjoint; [done|rewrite Hs; lia|]. assert (j <> i) by tauto. lia.
  - rewrite decide_False; [done|]. tauto.
Qed.
Lemma wordat_pg m m' p i :
  p mod PGSIZE = 0 -> 0 <= i < 1024 -> pg m' p = pg m p -> wordat m' (p + 4 * i) = wordat m (p + 4 * i).
Proof. intros Hp Hi E. unfold wordat. destruct (base_word p i Hp Hi) as [-> _]. by rewrite E. Qed.
Lemma wordat_blank m p i : p mod PGSIZE = 0 -> 0 <= i < 1024 -> wordat (<[p := blank]> m) (p + 4 * i) = 0.
Proof.
  intros Hp Hi. unfold wordat. destruct (base_word p i Hp Hi) as [-> ->]. rewrite pg_insert, decide_True by done.
  unfold rd, blank, slice. rewrite drop_replicate, take_replicate.
  assert (Z.to_nat PGSIZE - Z.to_nat (4 * i) >= 4)%nat by lia.
  rewrite Nat.min_l by lia. reflexivity.
Qed.

Lemma ldw_run m fl p i : ldw (p + 4 * i) (mk_vmstate m fl) = Ret (wordat m (p + 4 * i)) (mk_vmstate m fl).
Proof. done. Qed.
Lemma stw_run m fl p i x : p mod PGSIZE = 0 -> 0 <= i < 1024 ->
  stw (p + 4 * i) x (mk_vmstate m fl) = Ret tt (mk_vmstate (put m p i x) fl).
Proof.
  intros Hp Hi. unfold stw, modify, set_v_mem. cbn [v_mem v_freelist].
  by destruct (base_word p i Hp Hi) as [-> ->].
Qed.

(** ** Entries *)
Lemma PDX_range va : 0 <= va -> 0 <= PDX va < 1024.
Proof. intros. unfold PDX. change 0x3FF with (Z.ones 10). rewrite Z.land_ones by lia. apply Z.mod_pos_bound. lia. Qed.
Lemma PTX_range va : 0 <= va -> 0 <= PTX va < 1024.
Proof. intros. unfold PTX. change 0x3FF with (Z.ones 10). rewrite Z.land_ones by lia. apply Z.mod_pos_bound. lia. Qed.
Lemma PDX_div va : 0 <= va < 2 ^ 32 -> PDX va = va / 2 ^ 22.
Proof.
  intros. unfold PDX. change 0x3FF with (Z.ones 10). rewrite Z.land_ones, Z.shiftr_div_pow2 by lia. apply Z.mod_small.
  split; [apply Z.div_pos; lia|apply Z.div_lt_upper_bound; lia].
Qed.
Lemma PTX_div va : 0 <= va -> PTX va = va / 2 ^ 12 mod 2 ^ 10.
Proof. intros. unfold PTX. change 0x3FF with (Z.ones 10). by rewrite Z.land_ones, Z.shiftr_div_pow2 by lia. Qed.

(** The page number is the pair of indices. *)
Lemma indices_inj a b : 0 <= a < 2 ^ 32 -> 0 <= b < 2 ^ 32 -> PDX a = PDX b -> PTX a = PTX b -> base a = base b.
Proof.
  intros Ha Hb. rewrite !PDX_div, !PTX_div by lia. change (2 ^ 22) with (2 ^ 12 * 2 ^ 10). rewrite <- !Z.div_div by lia.
  intros H1 H2. assert (a / 2 ^ 12 = b / 2 ^ 12) as E.
  { rewrite (Z.div_mod (a / 2 ^ 12) (2 ^ 10)), (Z.div_mod (b / 2 ^ 12) (2 ^ 10)) by lia. congruence. }
  unfold base. change PGSIZE with (2 ^ 12). pose proof (Z.div_mod a (2 ^ 12)). pose proof (Z.div_mod b (2 ^ 12)). lia.
Qed.
Lemma indices_base a : 0 <= a < 2 ^ 32 -> PDX (base a) = PDX a /\ PTX (base a) = PTX a.
Proof.
  intros Ha. pose proof (base_bounds a) as [Hb _]. assert (0 <= base a).
  { unfold base. pose proof (Z.mod_le a PGSIZE ltac:(lia) ltac:(done)). lia. }
  rewrite !PDX_div, !PTX_div by lia. assert (base a / 2 ^ 12 = a / 2 ^ 12) as E.
  { unfold base. change PGSIZE with (2 ^ 12). rewrite Z.mod_eq by lia.
    replace (a - (a - 2 ^ 12 * (a / 2 ^ 12))) with (a / 2 ^ 12 * 2 ^ 12) by lia. apply Z.div_mul. lia. }
  change (2 ^ 22) with (2 ^ 12 * 2 ^ 10). rewrite <- !Z.div_div by lia. by rewrite E.
Qed.

(** An entry made of a page address and flags. *)
Lemma lor_add a f : a mod PGSIZE = 0 -> 0 <= f < PGSIZE -> Z.lor a f = a + f.
Proof.
  intros Ha Hf. assert (Z.land a f = 0) as E.
  { apply Z.bits_inj'. intros n Hn. rewrite Z.land_spec, Z.bits_0. destruct (Z.lt_ge_cases n 12).
    - rewrite <- (Z.mod_pow2_bits_low a 12 n) by lia. change (2 ^ 12) with PGSIZE. by rewrite Ha, Z.bits_0.
    - rewrite <- (Z.mod_small f PGSIZE) by done. change PGSIZE with (2 ^ 12). rewrite (Z.mod_pow2_bits_high f 12 n) by lia.
      apply andb_false_r. }
  rewrite (Z.add_nocarry_lxor a f E). apply Z.bits_inj'. intros n Hn. rewrite Z.lor_spec, Z.lxor_spec.
  apply (f_equal (fun z => Z.testbit z n)) in E. rewrite Z.land_spec, Z.bits_0 in E.
  destruct (Z.testbit a n), (Z.testbit f n); done.
Qed.
Lemma PTE_ADDR_base x : 0 <= x < 2 ^ 32 -> PTE_ADDR x = base x.
Proof. apply mask_base. Qed.
Lemma PTE_FLAGS_mod x : PTE_FLAGS x = x mod PGSIZE.
Proof. unfold PTE_FLAGS. change 0xFFF with (Z.ones 12). by rewrite Z.land_ones by lia. Qed.
Lemma flag_P x : flag x PTE_P = Z.odd x.
Proof.
  unfold flag. change 1 with (Z.ones 1) at 1. rewrite Z.land_ones by lia. change (2 ^ 1) with 2.
  rewrite Zmod_odd. by destruct (Z.odd x).
Qed.
Lemma base_add a f : a mod PGSIZE = 0 -> 0 <= f < PGSIZE -> base (a + f) = a /\ (a + f) mod PGSIZE = f.
Proof.
  intros Ha Hf. assert ((a + f) mod PGSIZE = f) as E by (rewrite <- Zplus_mod_idemp_l, Ha; by apply Z.mod_small).
  unfold base. rewrite E. split; [lia|done].
Qed.

(** ** The translation *)
Definition pdi (m : gmap Z (list Z)) (d i : Z) : Z := wordat m (d + 4 * i).
Definition present (x : Z) : bool := flag x PTE_P.
Definition tab (x : Z) : Z := P2V (PTE_ADDR x).
(** The entry of a virtual address: 0 where there is no page table. *)
Definition pte (m : gmap Z (list Z)) (d va : Z) : Z :=
  if present (pdi m d (PDX va)) then wordat m (tab (pdi m d (PDX va)) + 4 * PTX va) else 0.
Definition entry (pa perm : Z) : Z := Z.lor (Z.lor pa perm) PTE_P.


Section vmspec.
Context {LK : Linker}.

(** A page directory [d] whose tables are pages that are not free. *)
Record pt_ok (m : gmap Z (list Z)) (fl : Z) (l : list Z) (d : Z) : Prop := {
  pt_free : free_ok (mk_vmstate m fl) l;
  pt_dir : kpage d;
  pt_dfree : d ∉ l;
  pt_tab : forall i, 0 <= i < 1024 -> present (pdi m d i) = true ->
    kpage (tab (pdi m d i)) /\ tab (pdi m d i) ∉ l /\ tab (pdi m d i) <> d;
  pt_inj : forall i j, 0 <= i < 1024 -> 0 <= j < 1024 -> present (pdi m d i) = true -> present (pdi m d j) = true ->
    tab (pdi m d i) = tab (pdi m d j) -> i = j
}.

(** Pages the code that works on [d] does not touch. *)
Definition outside (m : gmap Z (list Z)) (l : list Z) (d q : Z) : Prop :=
  q <> d /\ q ∉ l /\ forall i, 0 <= i < 1024 -> present (pdi m d i) = true -> tab (pdi m d i) <> q.

(** The number of page tables that are missing. *)
Definition absent (m : gmap Z (list Z)) (d : Z) : nat := length (filter (fun i => present (pdi m d i) = false) (seqZ 0 1024)).

Lemma absent_ext m m' d : (forall i, 0 <= i < 1024 -> pdi m' d i = pdi m d i) -> absent m' d = absent m d.
Proof.
  intros H. unfold absent. f_equal.
  assert (forall xs : list Z, (forall i, i ∈ xs -> pdi m' d i = pdi m d i) ->
    filter (fun i => present (pdi m' d i) = false) xs = filter (fun i => present (pdi m d i) = false) xs) as K.
  { induction xs as [|i xs IH]; intros Hx; [done|]. rewrite !filter_cons, Hx by (by left).
    rewrite IH by (intros; apply Hx; by right). done. }
  apply K. intros i Hi%elem_of_seqZ. apply H. lia.
Qed.

Lemma absent_take m m' d i :
  0 <= i < 1024 -> present (pdi m d i) = false -> present (pdi m' d i) = true ->
  (forall j, 0 <= j < 1024 -> j <> i -> pdi m' d j = pdi m d j) -> absent m d = S (absent m' d).
Proof.
  intros Hi H0 H1 H. unfold absent.
  assert (forall xs : list Z, NoDup xs -> (forall j, j ∈ xs -> 0 <= j < 1024) ->
    length (filter (fun i => present (pdi m d i) = false) xs) =
    ((if decide (i ∈ xs) then 1 else 0) + length (filter (fun i => present (pdi m' d i) = false) xs))%nat) as K.
  { induction xs as [|j xs IH]; intros Hn Hr; [done|]. apply NoDup_cons in Hn as [Hj Hn].
    specialize (IH Hn ltac:(intros; apply Hr; by right)). rewrite !filter_cons.
    destruct (decide (j = i)) as [->|Hne].
    - rewrite (decide_True (P := i ∈ i :: xs)) by (by left). rewrite decide_False in IH by done.
      rewrite (decide_True (P := present (pdi m d i) = false)) by done. rewrite decide_False by congruence. simpl. lia.
    - rewrite H by (try done; apply Hr; by left).
      assert ((if decide (i ∈ j :: xs) then 1 else 0) = (if decide (i ∈ xs) then 1 else 0))%nat as ->.
      { destruct (decide (i ∈ xs)), (decide (i ∈ j :: xs)) as [Hin|Hin]; try done; [by destruct Hin; right|].
        apply elem_of_cons in Hin as [?|?]; [congruence|done]. }
      destruct (decide (present (pdi m d j) = false)); simpl; lia. }
  rewrite K, decide_True; [done|apply elem_of_seqZ; lia|apply NoDup_seqZ|]. intros j Hj%elem_of_seqZ. lia.
Qed.

(** *** A page frame as an entry *)
Lemma kernbase_align a : V2P a = a - KERNBASE -> a mod PGSIZE = 0 -> V2P a mod PGSIZE = 0.
Proof. intros -> H. rewrite <- Zminus_mod_idemp_r. change (KERNBASE mod PGSIZE) with 0. by rewrite Z.sub_0_r. Qed.

(** The frame of a page with flags. *)
Lemma entry_tab p f : kpage p -> 0 <= f < PGSIZE -> tab (V2P p + f) = p /\ V2P p + f < 2 ^ 32 /\ 0 <= V2P p.
Proof.
  intros Kp Hf. destruct (kpage_range p Kp) as (R & E & R').
  assert (V2P p + f < 2 ^ 32) by lia. split; [|split; lia].
  unfold tab. rewrite PTE_ADDR_base by lia.
  destruct (base_add (V2P p) f) as [-> _]; [apply kernbase_align; [done|apply Kp]|done|].
  unfold P2V. rewrite E. replace (p - KERNBASE + KERNBASE) with p by lia. apply u32_small. lia.
Qed.

Definition PDE_FLAGS : Z := 7.
Lemma pde_value p : kpage p -> Z.lor (Z.lor (Z.lor (V2P p) PTE_P) PTE_W) PTE_U = V2P p + PDE_FLAGS.
Proof.
  intros Kp. rewrite <- !Z.lor_assoc. change (Z.lor PTE_P (Z.lor PTE_W PTE_U)) with PDE_FLAGS. apply lor_add; [|done].
  apply kernbase_align; [apply kpage_range, Kp|apply Kp].
Qed.
Lemma pde_present p : kpage p -> present (V2P p + PDE_FLAGS) = true.
Proof.
  intros Kp. unfold present. rewrite flag_P. destruct (kpage_range p Kp) as (_ & E & _).
  pose proof (kernbase_align p E (kp_align _ Kp)) as Ha. rewrite (Z.div_mod (V2P p) PGSIZE), Ha by done.
  rewrite Z.add_0_r, Z.odd_add, Z.odd_mul. done.
Qed.

(** *** [walkpgdir] *)
Lemma walk_hit m fl d va al :
  present (pdi m d (PDX va)) = true ->
  walkpgdir d va al (mk_vmstate m fl) = Ret (tab (pdi m d (PDX va)) + 4 * PTX va) (mk_vmstate m fl).
Proof. intros Hp. unfold walkpgdir. rewrite (bind_Ret _ _ _ _ _ (ldw_run _ _ _ _)). unfold present, pdi in Hp. rewrite Hp. done. Qed.

(** The page table at [p] is new. *)
Definition with_table (m : gmap Z (list Z)) (d i p : Z) : gmap Z (list Z) := put (<[p := blank]> m) d i (V2P p + PDE_FLAGS).

Section table.
Context (m : gmap Z (list Z)) (fl : Z) (p : Z) (l : list Z) (d va : Z).
Context (Ok : pt_ok m fl (p :: l) d) (Hva : 0 <= va) (H0 : present (pdi m d (PDX va)) = false).
Notation m' := (with_table m d (PDX va) p).

Lemma table_page : kpage p /\ p <> d /\ p ∉ l.
Proof using All.
  destruct (pt_free _ _ _ _ Ok) as [_ Hn Hp _]. apply Forall_cons in Hp as [? _]. apply NoDup_cons in Hn as [? _].
  split_and!; try done. intros ->. apply (pt_dfree _ _ _ _ Ok). by left.
Qed.
Lemma table_sized : sized (<[p := blank]> m).
Proof using All. intros q. rewrite pg_insert. destruct (decide _); [apply length_replicate|apply (fo_size _ _ (pt_free _ _ _ _ Ok))]. Qed.
Lemma table_pg q : q <> d -> pg m' q = if decide (q = p) then blank else pg m q.
Proof using All. intros H. unfold with_table. rewrite pg_put by done. by rewrite pg_insert. Qed.
Lemma table_pdi i : 0 <= i < 1024 -> pdi m' d i = if decide (i = PDX va) then V2P p + PDE_FLAGS else pdi m d i.
Proof using All.
  intros Hi. destruct table_page as (Kp & Hpd & _), (entry_tab p PDE_FLAGS) as (_ & ? & ?); [apply table_page|done|].
  unfold pdi, with_table. pose proof (kp_align _ (pt_dir _ _ _ _ Ok)) as Hd.
  rewrite wordat_put by first [done|apply table_sized|by apply PDX_range]. destruct (decide (i = PDX va)) as [->|Hne].
  - rewrite decide_True by done. apply u32_small. unfold PDE_FLAGS in *. lia.
  - rewrite decide_False by tauto. apply wordat_pg; [done..|]. by rewrite pg_insert, decide_False by done.
Qed.
Lemma table_pte va' : 0 <= va' -> pte m' d va' = pte m d va'.
Proof using All.
  intros Hva'. destruct table_page as (Kp & Hpd & Hpl). unfold pte. rewrite table_pdi by (by apply PDX_range).
  destruct (decide (PDX va' = PDX va)) as [->|Hne].
  - rewrite H0, (pde_present p Kp). destruct (entry_tab p PDE_FLAGS Kp) as (-> & _); [done|].
    rewrite (wordat_pg (<[p := blank]> m)); [by apply wordat_blank; [apply Kp|apply PTX_range]|apply Kp|by apply PTX_range|].
    rewrite table_pg, decide_True by done. by rewrite pg_insert, decide_True.
  - destruct (present (pdi m d (PDX va'))) eqn:Ep; [|done].
    destruct (pt_tab _ _ _ _ Ok (PDX va')) as (Kt & Ht & Htd); [by apply PDX_range|done|].
    apply wordat_pg; [apply Kt|by apply PTX_range|]. rewrite table_pg, decide_False; [done| |done].
    intros E. apply Ht. rewrite E. by left.
Qed.
Lemma table_ok fl' : free_ok (mk_vmstate m fl') l -> pt_ok m' fl' l d.
Proof using All.
  intros F. destruct table_page as (Kp & Hpd & Hpl), (entry_tab p PDE_FLAGS) as (Et & _ & _); [apply table_page|done|].
  pose proof (PDX_range va Hva) as Hx.
  assert (d ∉ l) as Hdl by (intros ?; apply (pt_dfree _ _ _ _ Ok); by right).
  split; [|apply Ok|done| |].
  - apply (free_ok_ext (mk_vmstate m fl')); [done| |apply sized_put; [apply table_sized|done]|done].
    intros q Hq. cbn [v_mem]. rewrite table_pg by (by intros ->). by rewrite decide_False by (by intros ->).
  - intros i Hi. rewrite table_pdi by done. destruct (decide _) as [->|Hne]; [by rewrite Et|].
    intros Hp. destruct (pt_tab _ _ _ _ Ok i Hi Hp) as (? & [_ ?]%not_elem_of_cons & ?). done.
  - intros i j Hi Hj. rewrite !table_pdi by done.
    assert (forall k, 0 <= k < 1024 -> present (pdi m d k) = true -> tab (pdi m d k) <> p) as Hnp.
    { intros k Hk Hp E. destruct (pt_tab _ _ _ _ Ok k Hk Hp) as (_ & [? _]%not_elem_of_cons & _). done. }
    destruct (decide (i = _)) as [->|Hi'], (decide (j = _)) as [->|Hj']; rewrite ?Et; [done|..].
    + intros _ Hp E. symmetry in E. by destruct (Hnp j Hj Hp).
    + intros Hp _ E. by destruct (Hnp i Hi Hp).
    + by apply (pt_inj _ _ _ _ Ok).
Qed.
Lemma table_outside q : outside m (p :: l) d q -> pg m' q = pg m q /\ outside m' l d q.
Proof using All.
  intros (Hd & [Hp Hl]%not_elem_of_cons & Ht). destruct table_page as (Kp & _), (entry_tab p PDE_FLAGS) as (Et & _ & _); [apply table_page|done|].
  split; [by rewrite table_pg, decide_False|]. split_and!; [done..|]. intros i Hi. rewrite table_pdi by done.
  destruct (decide _); [rewrite Et; by intros _ ->|by apply Ht].
Qed.
Lemma walk_alloc : exists fl', walkpgdir d va true (mk_vmstate m fl) = Ret (p + 4 * PTX va) (mk_vmstate m' fl') /\ pt_ok m' fl' l d.
Proof using All.
  destruct table_page as (Kp & Hpd & Hpl), (kpage_range p) as (HR & _); [apply table_page|].
  pose proof (kalloc_spec _ _ (pt_free _ _ _ _ Ok)) as (s' & E & F & Em).
  destruct s' as [m1 fl']. cbn [v_mem] in Em. subst m1. exists fl'. split; [|by apply table_ok].
  unfold walkpgdir. rewrite (bind_Ret _ _ _ _ _ (ldw_run _ _ _ _)). unfold present, pdi in H0. rewrite H0. cbn [negb].
  rewrite (bind_Ret _ _ _ _ _ E). destruct (Z.eqb_spec p 0); [lia|].
  unfold set_page. rewrite bind_modify. unfold set_v_mem. cbn [v_mem v_freelist].
  rewrite (bind_Ret _ _ _ _ _ (stw_run _ _ _ _ _ (kp_align _ (pt_dir _ _ _ _ Ok)) (PDX_range va Hva))).
  by rewrite pde_value.
Qed.
End table.

(** *** Storing an entry *)
Section store.
Context (m : gmap Z (list Z)) (fl : Z) (l : list Z) (d va x : Z).
Context (Ok : pt_ok m fl l d) (Hva : 0 <= va) (H1 : present (pdi m d (PDX va)) = true).
Notation t := (tab (pdi m d (PDX va))).
Notation m' := (put m t (PTX va) x).

Lemma store_table : kpage t /\ t ∉ l /\ t <> d.
Proof using All. apply (pt_tab _ _ _ _ Ok); [by apply PDX_range|done]. Qed.
Lemma store_pdi i : 0 <= i < 1024 -> pdi m' d i = pdi m d i.
Proof using All.
  intros Hi. apply wordat_pg; [apply (pt_dir _ _ _ _ Ok)|done|]. apply pg_put. destruct store_table as (_ & _ & ?). congruence.
Qed.
Lemma store_pte va' : 0 <= va' ->
  pte m' d va' = if decide (PDX va' = PDX va /\ PTX va' = PTX va) then u32 x else pte m d va'.
Proof using All.
  intros Hva'. destruct store_table as (Kt & Htl & Htd). unfold pte. rewrite store_pdi by (by apply PDX_range).
  destruct (present (pdi m d (PDX va'))) eqn:Ep.
  - destruct (pt_tab _ _ _ _ Ok (PDX va')) as (Kt' & _ & _); [by apply PDX_range|done|].
    rewrite wordat_put; [|exact (fo_size _ _ (pt_free _ _ _ _ Ok))|apply Kt|apply Kt'|by apply PTX_range|by apply PTX_range].
    destruct (decide (PDX va' = PDX va /\ PTX va' = PTX va)) as [[-> ->]|Hne]; [by rewrite decide_True|].
    rewrite decide_False; [done|]. intros [E1 E2]. apply Hne. split; [|done].
    apply (pt_inj _ _ _ _ Ok); try done; by apply PDX_range.
  - rewrite decide_False; [done|]. intros [E _]. congruence.
Qed.
Lemma store_ok : pt_ok m' fl l d.
Proof using All.
  destruct store_table as (Kt & Htl & Htd). split; try apply Ok.
  - apply (free_ok_ext (mk_vmstate m fl)); [done| |apply sized_put; [exact (fo_size _ _ (pt_free _ _ _ _ Ok))|by apply PTX_range]|apply Ok].
    intros q Hq. apply pg_put. by intros ->.
  - intros i Hi. rewrite store_pdi by done. by apply (pt_tab _ _ _ _ Ok).
  - intros i j Hi Hj. rewrite !store_pdi by done. by apply (pt_inj _ _ _ _ Ok).
Qed.
Lemma store_outside q : outside m l d q -> pg m' q = pg m q /\ outside m' l d q.
Proof using All.
  intros (Hd & Hl & Ht). split.
  - apply pg_put. intros E. destruct (Ht (PDX va)); [by apply PDX_range|done|done].
  - split_and!; [done..|]. intros i Hi. rewrite store_pdi by done. by apply Ht.
Qed.
Lemma store_absent : absent m' d = absent m d.
Proof using All. apply absent_ext. intros. by apply store_pdi. Qed.
End store.

(** ** Mapping pages *)

(** The effect on memory of working on the directory [d]: the entries are
    those of [f], pages outside are as they were, and the free pages are a
    tail of those before. *)
Record pt_next (m : gmap Z (list Z)) (l : list Z) (d : Z) (f : Z -> Z)
    (m' : gmap Z (list Z)) (fl' : Z) (l' : list Z) : Prop := {
  pn_ok : pt_ok m' fl' l' d;
  pn_pte : forall va, 0 <= va < 2 ^ 32 -> pte m' d va = f va;
  pn_out : forall q, outside m l d q -> pg m' q = pg m q /\ outside m' l' d q;
  pn_tail : exists used, l = used ++ l';
  pn_spare : (absent m' d + length l = absent m d + length l')%nat
}.

Lemma pt_next_refl m fl l d : pt_ok m fl l d -> pt_next m l d (pte m d) m fl l.
Proof. intros Ok. split; try done. by exists []. Qed.
Lemma pt_next_trans m l d f m1 fl1 l1 g m2 fl2 l2 :
  pt_next m l d f m1 fl1 l1 -> pt_next m1 l1 d g m2 fl2 l2 -> pt_next m l d g m2 fl2 l2.
Proof.
  intros [? ? H3 [u1 ->] H5] [? ? H3' [u2 ->] H5']. split; try done.
  - intros q Hq. destruct (H3 q Hq) as [E O]. destruct (H3' q O) as [E' O']. split; [congruence|done].
  - exists (u1 ++ u2). by rewrite app_assoc.
  - rewrite !length_app in *. lia.
Qed.
Lemma pt_next_f m l d f g m' fl' l' :
  pt_next m l d f m' fl' l' -> (forall va, 0 <= va < 2 ^ 32 -> f va = g va) -> pt_next m l d g m' fl' l'.
Proof. intros [? Hp ? ? ?] H. split; try done. intros va Hva. rewrite <- H by done. by apply Hp. Qed.

Definition update (f : Z -> Z) (va x : Z) : Z -> Z := fun va' => if decide (base va' = base va) then x else f va'.

Lemma indices_iff a b : 0 <= a < 2 ^ 32 -> 0 <= b < 2 ^ 32 -> (PDX a = PDX b /\ PTX a = PTX b) <-> base a = base b.
Proof.
  intros Ha Hb. split; [intros [E1 E2]; exact (indices_inj a b Ha Hb E1 E2)|]. intros E.
  destruct (indices_base a Ha) as [<- <-], (indices_base b Hb) as [<- <-]. by rewrite E.
Qed.

(** One turn of the loop of [mappages]: the entry of [va] is set. *)
Lemma map_one m fl l d va x :
  pt_ok m fl l d -> 0 <= va < 2 ^ 32 -> present (pte m d va) = false -> 0 <= x < 2 ^ 32 -> (absent m d <= length l)%nat ->
  exists m' fl' l', pt_next m l d (update (pte m d) va x) m' fl' l' /\
    forall A (k kf : M vmstate A), (p ← walkpgdir d va true; if p =? 0 then kf else
     y ← ldw p; if flag y PTE_P then panic "remap" else stw p x ;; k) (mk_vmstate m fl) = k (mk_vmstate m' fl').
Proof.
  intros Ok Hva Hnp Hx Hab.
  assert (exists m1 fl1 l1, pt_next m l d (pte m d) m1 fl1 l1 /\ present (pdi m1 d (PDX va)) = true /\
    walkpgdir d va true (mk_vmstate m fl) = Ret (tab (pdi m1 d (PDX va)) + 4 * PTX va) (mk_vmstate m1 fl1)) as (m1 & fl1 & l1 & N1 & P1 & E1).
  { destruct (present (pdi m d (PDX va))) eqn:Ep.
    - exists m, fl, l. split; [by apply pt_next_refl|]. split; [done|]. by apply walk_hit.
    - assert (absent m d <> 0)%nat as Hne.
      { unfold absent. intros H0%length_zero_iff_nil. assert (PDX va ∈ (filter (fun i => present (pdi m d i) = false) (seqZ 0 1024))) as Hin.
        { apply list_elem_of_filter. split; [done|]. apply elem_of_seqZ. pose proof (PDX_range va). lia. }
        rewrite H0 in Hin. by apply elem_of_nil in Hin. }
      destruct l as [|p l]; [simpl in Hab; lia|]. assert (0 <= va) as Hv0 by lia.
      pose proof (table_pdi m fl p l d va Ok Hv0 Ep) as Hpd. pose proof (PDX_range va Hv0) as Hr.
      destruct (table_page m fl p l d va Ok Hv0 Ep) as (Kp & _). destruct (entry_tab p PDE_FLAGS Kp) as (Et & _); [done|].
      destruct (walk_alloc m fl p l d va Ok Hv0 Ep) as (fl' & E & Ok').
      exists (with_table m d (PDX va) p), fl', l. rewrite Hpd, decide_True, Et by done. split_and!; [|by apply pde_present|done].
      split; [done| | |by exists [p]|].
      + intros va' Hva'. apply (table_pte m fl p l d va); done || lia.
      + intros q. by apply (table_outside m fl p l d va).
      + rewrite (absent_take m (with_table m d (PDX va) p) d (PDX va) Hr Ep).
        * simpl. lia.
        * rewrite Hpd, decide_True by done. by apply pde_present.
        * intros j Hj Hne'. by rewrite Hpd, decide_False. }
  pose proof (pn_ok _ _ _ _ _ _ _ N1) as Ok1. assert (0 <= va) as Hv0 by lia.
  destruct (store_table m1 fl1 l1 d va x Ok1 Hv0 P1) as (Kt & _ & _). pose proof (PTX_range va Hv0) as Hr.
  exists (put m1 (tab (pdi m1 d (PDX va))) (PTX va) x), fl1, l1. split.
  - eapply pt_next_trans; [exact N1|]. split.
    + by apply store_ok.
    + intros va' Hva'. rewrite (store_pte m1 fl1 l1 d va x Ok1 Hv0 P1) by lia. unfold update.
      destruct (decide (base va' = base va)) as [E|Hne].
      * rewrite decide_True by (by apply indices_iff). by apply u32_small.
      * rewrite decide_False by (by intros ?%indices_iff). by apply (pn_pte _ _ _ _ _ _ _ N1).
    + intros q. by apply (store_outside m1 fl1 l1).
    + by exists [].
    + rewrite (store_absent m1 fl1 l1 d va x Ok1 Hv0 P1). lia.
  - intros A k kf. rewrite (bind_Ret _ _ _ _ _ E1). destruct (kpage_range _ Kt) as (HR & _).
    destruct (Z.eqb_spec (tab (pdi m1 d (PDX va)) + 4 * PTX va) 0); [lia|].
    rewrite (bind_Ret _ _ _ _ _ (ldw_run _ _ _ _)).
    assert (wordat m1 (tab (pdi m1 d (PDX va)) + 4 * PTX va) = pte m d va) as ->.
    { rewrite <- (pn_pte _ _ _ _ _ _ _ N1 va Hva). unfold pte. by rewrite P1. }
    unfold present in Hnp. rewrite Hnp. by rewrite (bind_Ret _ _ _ _ _ (stw_run _ _ _ _ _ (kp_align _ Kt) Hr)).
Qed.

(** An entry has its address, its flags and [PTE_P]. *)
Lemma lor_P f : 0 <= f < PGSIZE -> 0 <= Z.lor f PTE_P < PGSIZE /\ Z.odd (Z.lor f PTE_P) = true.
Proof.
  intros Hf. split.
  - split; [apply Z.lor_nonneg; lia|]. change PGSIZE with (2 ^ 12).
    assert (0 < Z.lor f PTE_P).
    { assert (0 <= Z.lor f PTE_P) by (apply Z.lor_nonneg; lia).
      assert (Z.lor f PTE_P <> 0); [|lia]. intros [_ ?]%Z.lor_eq_0_iff. done. }
    apply Z.log2_lt_pow2; [done|]. rewrite Z.log2_lor by lia.
    apply Z.max_lub_lt; [|done]. destruct (decide (f = 0)) as [->|]; [done|]. apply Z.log2_lt_pow2; [lia|]. change (2 ^ 12) with PGSIZE. lia.
  - rewrite <- Z.bit0_odd, Z.lor_spec. by rewrite orb_true_r.
Qed.
Lemma entry_facts pa perm :
  pa mod PGSIZE = 0 -> 0 <= pa -> pa + PGSIZE <= 2 ^ 32 -> 0 <= perm < PGSIZE ->
  0 <= entry pa perm < 2 ^ 32 /\ present (entry pa perm) = true /\ PTE_ADDR (entry pa perm) = pa /\
  PTE_FLAGS (entry pa perm) = Z.lor perm PTE_P.
Proof.
  intros Ha H0 H1 Hp. destruct (lor_P perm Hp) as [Hr Ho]. assert (entry pa perm = pa + Z.lor perm PTE_P) as ->.
  { unfold entry. rewrite <- Z.lor_assoc. by apply lor_add. }
  assert (0 <= pa + Z.lor perm PTE_P < 2 ^ 32) by lia. destruct (base_add pa (Z.lor perm PTE_P) Ha Hr) as [Eb Em].
  split_and!; [lia|lia| |by rewrite PTE_ADDR_base|by rewrite PTE_FLAGS_mod].
  unfold present. rewrite flag_P, Z.odd_add, Ho. rewrite (Z.div_mod pa PGSIZE), Ha by done. by rewrite Z.add_0_r, Z.odd_mul.
Qed.

(** [n] pages from [a] on are mapped to [pa] on. *)
Definition map_range (f : Z -> Z) (a n pa perm : Z) : Z -> Z :=
  fun va => if decide (a <= va < a + PGSIZE * n) then entry (pa + (base va - a)) perm else f va.

Lemma base_eq_iff a va : a mod PGSIZE = 0 -> base va = base a <-> a <= va < a + PGSIZE.
Proof.
  intros Ha. assert (base a = a) as -> by (unfold base; rewrite Ha; lia). pose proof (base_bounds va) as [Hb Hm]. split; [lia|].
  intros H. unfold base in *. assert (a + (va - a) = va) as E by lia.
  rewrite <- E at 2. destruct (base_add a (va - a) Ha ltac:(lia)) as [_ ->]. lia.
Qed.

Lemma map_range_S f a n pa perm va : a mod PGSIZE = 0 -> 0 <= n ->
  map_range (update f a (entry pa perm)) (a + PGSIZE) n (pa + PGSIZE) perm va = map_range f a (n + 1) pa perm va.
Proof.
  intros Ha Hn. unfold map_range, update. pose proof (base_eq_iff a va Ha) as Hb.
  assert (base a = a) as Ea by (unfold base; rewrite Ha; lia).
  destruct (decide (a + PGSIZE <= va < a + PGSIZE + PGSIZE * n)).
  - rewrite decide_True by lia. f_equal. lia.
  - destruct (decide (base va = base a)) as [E|Hne].
    + rewrite decide_True by lia. f_equal. lia.
    + rewrite decide_False by lia. done.
Qed.

Lemma mappages_loop_spec d perm n : 0 <= perm < PGSIZE -> forall fuel m fl l a pa,
  pt_ok m fl l d -> (n < fuel)%nat ->
  a mod PGSIZE = 0 -> 0 <= a -> a + PGSIZE * Z.of_nat (S n) <= 2 ^ 32 ->
  pa mod PGSIZE = 0 -> 0 <= pa -> pa + PGSIZE * Z.of_nat (S n) <= 2 ^ 32 ->
  (forall va, a <= va < a + PGSIZE * Z.of_nat (S n) -> present (pte m d va) = false) -> (absent m d <= length l)%nat ->
  exists m' fl' l', mappages_loop fuel d a (a + PGSIZE * Z.of_nat n) pa perm (mk_vmstate m fl) = Ret 0 (mk_vmstate m' fl') /\
    pt_next m l d (map_range (pte m d) a (Z.of_nat (S n)) pa perm) m' fl' l'.
Proof.
  intros Hperm. induction n as [|n IH]; intros fuel m fl l a pa Ok Hf Ha Ha0 Ha1 Hpa Hp0 Hp1 Hnp Hab;
    (destruct fuel as [|fuel]; [lia|]); cbn [mappages_loop].
  all: destruct (entry_facts pa perm) as (Hx & _); [done|done|lia|done|].
  all: assert (present (pte m d a) = false) as Hna by (apply Hnp; lia).
  all: assert (0 <= a < 2 ^ 32) as Har by lia.
  all: destruct (map_one m fl l d a (entry pa perm)) as (m1 & fl1 & l1 & N1 & E1); [done|done|done|done|done|rewrite E1; clear E1].
  - replace (a + PGSIZE * Z.of_nat 0) with a by lia. rewrite Z.eqb_refl. exists m1, fl1, l1. split; [done|].
    eapply pt_next_f; [exact N1|]. intros va _. rewrite <- (map_range_S _ a 0) by done. unfold map_range.
    rewrite decide_False by lia. done.
  - destruct (Z.eqb_spec a (a + PGSIZE * Z.of_nat (S n))); [lia|].
    rewrite !u32_small by lia.
    destruct (IH fuel m1 fl1 l1 (a + PGSIZE) (pa + PGSIZE)) as (m2 & fl2 & l2 & E2 & N2).
    + apply N1.
    + lia.
    + by rewrite <- Zplus_mod_idemp_l, Ha.
    + lia.
    + lia.
    + by rewrite <- Zplus_mod_idemp_l, Hpa.
    + lia.
    + lia.
    + intros va Hva. rewrite (pn_pte _ _ _ _ _ _ _ N1) by lia. unfold update.
      rewrite decide_False by (rewrite base_eq_iff by done; lia). apply Hnp. lia.
    + pose proof (pn_spare _ _ _ _ _ _ _ N1). lia.
    + exists m2, fl2, l2. split.
      * rewrite <- E2. f_equal. lia.
      * eapply pt_next_trans; [exact N1|]. eapply pt_next_f; [exact N2|]. intros va Hva.
        replace (Z.of_nat (S (S n))) with (Z.of_nat (S n) + 1) by lia. rewrite <- (map_range_S (pte m d)) by (done || lia).
        unfold map_range at 1 2. destruct (decide _); [done|]. by rewrite (pn_pte _ _ _ _ _ _ _ N1).
Qed.

Lemma mappages_spec m fl l d va size n pa perm :
  pt_ok m fl l d -> 0 < n -> va mod PGSIZE = 0 -> 0 <= va -> va + PGSIZE * n <= 2 ^ 32 ->
  u32 (va + size - 1) = va + PGSIZE * n - 1 ->
  pa mod PGSIZE = 0 -> 0 <= pa -> pa + PGSIZE * n <= 2 ^ 32 -> 0 <= perm < PGSIZE ->
  (forall a, va <= a < va + PGSIZE * n -> present (pte m d a) = false) -> (absent m d <= length l)%nat ->
  exists m' fl' l', mappages d va size pa perm (mk_vmstate m fl) = Ret 0 (mk_vmstate m' fl') /\
    pt_next m l d (map_range (pte m d) va n pa perm) m' fl' l'.
Proof.
  intros Ok Hn Ha Ha0 Ha1 Hsz Hpa Hp0 Hp1 Hperm Hnp Hab. destruct (Z_of_nat_complete (n - 1)) as [k Hk]; [lia|].
  assert (n = Z.of_nat (S k)) as -> by lia. unfold mappages. rewrite Hsz.
  rewrite !PGROUNDDOWN_base by lia.
  assert (base va = va) as -> by (unfold base; rewrite Ha; lia).
  assert (base (va + PGSIZE * Z.of_nat (S k) - 1) = va + PGSIZE * Z.of_nat k) as ->.
  { replace (va + PGSIZE * Z.of_nat (S k) - 1) with (va + PGSIZE * Z.of_nat k + (PGSIZE - 1)) by lia.
    apply base_add; [|done]. rewrite Z.mul_comm, Z.mod_add by done. done. }
  apply mappages_loop_spec; try done. replace (va + PGSIZE * Z.of_nat k - va) with (Z.of_nat k * PGSIZE) by lia.
  rewrite u32_small, Z.div_mul by lia. lia.
Qed.

(** ** The kernel part *)
Definition kernel_pte (va : Z) : Z :=
  if decide (KERNBASE <= va < KERNLINK) then entry (base va - KERNBASE) PTE_W
  else if decide (KERNLINK <= va < link_data) then entry (base va - KERNBASE) 0
  else if decide (link_data <= va < KERNBASE + PHYSTOP) then entry (base va - KERNBASE) PTE_W
  else if decide (DEVSPACE <= va < 2 ^ 32) then entry (base va) PTE_W
  else 0.

(** An empty directory. *)
Lemma empty_dir m fl d l : free_ok (mk_vmstate m fl) l -> kpage d -> d ∉ l ->
  pt_ok (<[d := blank]> m) fl l d /\ (forall va, 0 <= va -> pte (<[d := blank]> m) d va = 0) /\
  absent (<[d := blank]> m) d = 1024%nat /\ (forall q, q <> d -> q ∉ l -> outside (<[d := blank]> m) l d q).
Proof.
  intros F Kd Hd. assert (forall i, 0 <= i < 1024 -> pdi (<[d := blank]> m) d i = 0) as Hp.
  { intros i Hi. apply wordat_blank; [apply Kd|done]. }
  assert (forall i, 0 <= i < 1024 -> present (pdi (<[d := blank]> m) d i) = false) as Hnp by (intros i Hi; by rewrite Hp).
  split_and!.
  - split; [|done..| |].
    + apply (free_ok_ext (mk_vmstate m fl)); [done| | |done]; cbn [v_mem].
      * intros p Hpl. rewrite pg_insert, decide_False; [done|]. by intros ->.
      * intros p. rewrite pg_insert. destruct (decide _); [apply length_replicate|apply (fo_size _ _ F)].
    + intros i Hi H. by rewrite Hnp in H.
    + intros i j Hi Hj H. by rewrite Hnp in H.
  - intros va Hva. unfold pte. rewrite Hnp; [done|]. by apply PDX_range.
  - unfold absent. transitivity (length (seqZ 0 1024)); [|by rewrite length_seqZ]. f_equal.
    assert (forall xs : list Z, (forall i, i ∈ xs -> 0 <= i < 1024) ->
      filter (fun i => present (pdi (<[d := blank]> m) d i) = false) xs = xs) as K.
    { induction xs as [|i xs IH]; intros Hx; [done|]. rewrite filter_cons_True by (apply Hnp, Hx; by left).
      rewrite IH; [done|]. intros; apply Hx; by right. }
    apply K. intros i Hi%elem_of_seqZ. lia.
  - intros q H1 H2. split_and!; [done..|]. intros i Hi H. by rewrite Hnp in H.
Qed.

(** One entry of [kmap], whose range is not mapped yet. *)
Lemma kmap_step m l d f m1 fl1 l1 virt size start n perm ks kend :
  pt_next m l d f m1 fl1 l1 -> (absent m d <= length l)%nat -> 0 < n -> virt mod PGSIZE = 0 -> 0 <= virt ->
  virt + PGSIZE * n <= 2 ^ 32 -> u32 (kend - start) = size -> u32 (virt + size - 1) = virt + PGSIZE * n - 1 ->
  start mod PGSIZE = 0 -> 0 <= start -> start + PGSIZE * n <= 2 ^ 32 -> 0 <= perm < PGSIZE ->
  (forall a, virt <= a < virt + PGSIZE * n -> f a = 0) ->
  exists m2 fl2 l2, pt_next m l d (map_range f virt n start perm) m2 fl2 l2 /\
    setupkvm_loop (mk_kmap virt start kend perm :: ks) d (mk_vmstate m1 fl1) = setupkvm_loop ks d (mk_vmstate m2 fl2).
Proof.
  intros N Hab Hn Hv Hv0 Hv1 Hs Hs' Hst Hst0 Hst1 Hp Hf. pose proof (pn_spare _ _ _ _ _ _ _ N) as Hsp.
  destruct (mappages_spec m1 fl1 l1 d virt size n start perm) as (m2 & fl2 & l2 & E & N2); try done.
  - apply N.
  - intros a Ha. rewrite (pn_pte _ _ _ _ _ _ _ N) by lia. by rewrite Hf.
  - lia.
  - exists m2, fl2, l2. split.
    + eapply pt_next_trans; [exact N|]. eapply pt_next_f; [exact N2|]. intros va Hva. unfold map_range.
      by rewrite (pn_pte _ _ _ _ _ _ _ N).
    + cbn [setupkvm_loop km_virt km_start km_end km_perm]. rewrite Hs. by rewrite (bind_Ret _ _ _ _ _ E).
Qed.

Lemma kernel_map va : 0 <= va ->
  map_range (map_range (map_range (map_range (fun _ => 0) KERNBASE (EXTMEM / PGSIZE) 0 PTE_W)
    KERNLINK ((link_data - KERNLINK) / PGSIZE) EXTMEM 0)
    link_data ((KERNBASE + PHYSTOP - link_data) / PGSIZE) (link_data - KERNBASE) PTE_W)
    DEVSPACE ((2 ^ 32 - DEVSPACE) / PGSIZE) DEVSPACE PTE_W va = kernel_pte va.
Proof.
  intros Hva. pose proof link_data_range as [L1 L2]. pose proof link_end_range as L3. pose proof link_data_align as L4.
  unfold map_range, kernel_pte.
  assert (PGSIZE * ((link_data - KERNLINK) / PGSIZE) = link_data - KERNLINK) as E1.
  { symmetry. apply Z.div_exact; [done|]. rewrite <- Zminus_mod_idemp_l, L4. done. }
  assert (PGSIZE * ((KERNBASE + PHYSTOP - link_data) / PGSIZE) = KERNBASE + PHYSTOP - link_data) as E2.
  { symmetry. apply Z.div_exact; [done|]. rewrite <- Zminus_mod_idemp_r, L4. done. }
  rewrite E1, E2. change (PGSIZE * (EXTMEM / PGSIZE)) with EXTMEM. change (PGSIZE * ((2 ^ 32 - DEVSPACE) / PGSIZE)) with (2 ^ 32 - DEVSPACE).
  repeat (destruct (decide _); try lia); try (f_equal; lia); try done.
Qed.

Ltac knum := lia.
Ltac krange := unfold map_range; change (EXTMEM / PGSIZE) with 256 in *; change ((2 ^ 32 - DEVSPACE) / PGSIZE) with 8192 in *; repeat (rewrite decide_False by knum); done.

Lemma setupkvm_spec m fl d l :
  free_ok (mk_vmstate m fl) (d :: l) -> (1024 <= length l)%nat ->
  exists m' fl' l', setupkvm (mk_vmstate m fl) = Ret d (mk_vmstate m' fl') /\
    pt_next (<[d := blank]> m) l d kernel_pte m' fl' l'.
Proof.
  intros F Hl. pose proof (kalloc_spec _ _ F) as (s' & E & F' & Em). destruct s' as [m1 fl1]. cbn [v_mem] in Em. subst m1.
  pose proof (fo_pages _ _ F) as [Kd _]%Forall_cons. pose proof (fo_nodup _ _ F) as [Hd _]%NoDup_cons.
  destruct (kpage_range d Kd) as (HR & _), (empty_dir m fl1 d l F' Kd Hd) as (Ok & Hp & Hab & Ho).
  pose proof link_data_range as [L1 L2]. pose proof link_end_range as L3. pose proof link_data_align as L4.
  assert (V2P link_data = link_data - KERNBASE) as Ed.
  { unfold V2P. apply u32_small. lia. }
  unfold setupkvm. rewrite (bind_Ret _ _ _ _ _ E). destruct (Z.eqb_spec d 0); [lia|].
  unfold set_page. rewrite bind_modify. unfold set_v_mem. cbn [v_mem v_freelist]. change (DEVSPACE <? P2V PHYSTOP) with false. cbv iota.
  assert (absent (<[d := blank]> m) d <= length l)%nat as Hab' by lia.
  assert (pt_next (<[d := blank]> m) l d (fun _ => 0) (<[d := blank]> m) fl1 l) as N0.
  { eapply pt_next_f; [by apply pt_next_refl|]. intros va Hva. apply Hp. lia. }
  assert (exists k, link_data = PGSIZE * k) as [k Hk] by (exists (link_data / PGSIZE); by apply Z.div_exact).
  assert ((link_data - KERNLINK) / PGSIZE = k - 0x80100 /\ (KERNBASE + PHYSTOP - link_data) / PGSIZE = 0x8E000 - k) as [D1 D2].
  { rewrite Hk. split; symmetry; (eapply Z.div_unique_exact; [done|lia]). }
  assert (0x80100 < k < 0x8E000) as Hkr by lia.
  unfold kmap. rewrite Ed. change (V2P KERNLINK) with EXTMEM.
  destruct (kmap_step _ _ _ _ _ _ _ KERNBASE EXTMEM 0 (EXTMEM / PGSIZE) PTE_W
    [mk_kmap KERNLINK EXTMEM (link_data - KERNBASE) 0; mk_kmap link_data (link_data - KERNBASE) PHYSTOP PTE_W; mk_kmap DEVSPACE DEVSPACE 0 PTE_W]
    EXTMEM N0 Hab') as (m1 & fl2 & l1 & N1 & E1); try done.
  destruct (kmap_step _ _ _ _ _ _ _ KERNLINK (link_data - KERNLINK) EXTMEM ((link_data - KERNLINK) / PGSIZE) 0
    [mk_kmap link_data (link_data - KERNBASE) PHYSTOP PTE_W; mk_kmap DEVSPACE DEVSPACE 0 PTE_W]
    (link_data - KERNBASE) N1 Hab') as (m2 & fl3 & l2 & N2 & E2); try done.
  { rewrite D1. knum. }
  { rewrite D1. knum. }
  { rewrite u32_small by knum. knum. }
  { rewrite D1, u32_small by knum. knum. }
  { rewrite D1. knum. }
  { rewrite D1. intros a Ha. krange. }
  destruct (kmap_step _ _ _ _ _ _ _ link_data (KERNBASE + PHYSTOP - link_data) (link_data - KERNBASE) ((KERNBASE + PHYSTOP - link_data) / PGSIZE) PTE_W
    [mk_kmap DEVSPACE DEVSPACE 0 PTE_W] PHYSTOP N2 Hab') as (m3 & fl4 & l3 & N3 & E3); try done.
  { rewrite D2. knum. }
  { knum. }
  { rewrite D2. knum. }
  { rewrite u32_small by knum. knum. }
  { rewrite D2, u32_small by knum. knum. }
  { rewrite <- Zminus_mod_idemp_l, L4. done. }
  { knum. }
  { rewrite D2. knum. }
  { rewrite D1, D2. intros a Ha. krange. }
  destruct (kmap_step _ _ _ _ _ _ _ DEVSPACE (2 ^ 32 - DEVSPACE) DEVSPACE ((2 ^ 32 - DEVSPACE) / PGSIZE) PTE_W [] 0 N3 Hab')
    as (m4 & fl5 & l4 & N4 & E4); try done.
  { rewrite D1, D2. intros a Ha. krange. }
  exists m4, fl5, l4. split.
  - by rewrite E1, E2, E3, E4.
  - eapply pt_next_f; [exact N4|]. intros va Hva. apply kernel_map. lia.
Qed.

(** ** Copying an address space *)

(** The user part of an address space up to [sz], in pages that the code
    that works on [d] does not touch. *)
Record uspace (m : gmap Z (list Z)) (l : list Z) (d P sz : Z) : Prop := {
  us_dir : kpage P /\ outside m l d P;
  us_tab : forall i, 0 <= i < 1024 -> present (pdi m P i) = true -> kpage (tab (pdi m P i)) /\ outside m l d (tab (pdi m P i));
  us_pg : forall va, 0 <= va < sz -> present (pte m P va) = true /\ outside m l d (tab (pte m P va))
}.

Lemma pte_base m d va : 0 <= va < 2 ^ 32 -> pte m d (base va) = pte m d va.
Proof. intros H. unfold pte. by destruct (indices_base va H) as [-> ->]. Qed.

(** Memory has changed only where [d]'s code may change it. *)
Definition kept (m : gmap Z (list Z)) (l : list Z) (d : Z) (m' : gmap Z (list Z)) (l' : list Z) : Prop :=
  forall q, outside m l d q -> pg m' q = pg m q /\ outside m' l' d q.

Lemma kept_trans m l d m1 l1 m2 l2 : kept m l d m1 l1 -> kept m1 l1 d m2 l2 -> kept m l d m2 l2.
Proof. intros H1 H2 q Hq. destruct (H1 q Hq) as [E O]. destruct (H2 q O) as [E' O']. split; [congruence|done]. Qed.

Lemma uspace_pdi m l d P sz m' l' i :
  uspace m l d P sz -> kept m l d m' l' -> 0 <= i < 1024 -> pdi m' P i = pdi m P i.
Proof.
  intros [[K O] _ _] H Hi. apply wordat_pg; [apply K|done|]. by apply H.
Qed.
Lemma uspace_pte m l d P sz m' l' va :
  uspace m l d P sz -> kept m l d m' l' -> 0 <= va -> pte m' P va = pte m P va.
Proof.
  intros U H Hva. unfold pte. rewrite (uspace_pdi m l d P sz m' l') by (done || by apply PDX_range).
  destruct (present _) eqn:E; [|done]. destruct (us_tab _ _ _ _ _ U (PDX va)) as [Kt Ot]; [by apply PDX_range|done|].
  apply wordat_pg; [apply Kt|by apply PTX_range|]. by apply H.
Qed.
Lemma uspace_kept m l d P sz m' l' : uspace m l d P sz -> kept m l d m' l' -> uspace m' l' d P sz.
Proof.
  intros U H. split.
  - split; [apply U|]. apply H, U.
  - intros i Hi. rewrite (uspace_pdi m l d P sz m' l') by done. intros Hp. destruct (us_tab _ _ _ _ _ U i Hi Hp) as [? ?].
    split; [done|]. by apply H.
  - intros va Hva. rewrite (uspace_pte m l d P sz m' l') by (done || lia). destruct (us_pg _ _ _ _ _ U va Hva) as [? ?].
    split; [done|]. by apply H.
Qed.

(** Page [va] of [P] has been copied to [d]. *)
Record copied (m : gmap Z (list Z)) (l l0 : list Z) (d P va : Z) : Prop := {
  cp_present : present (pte m d va) = true;
  cp_flags : PTE_FLAGS (pte m d va) = PTE_FLAGS (pte m P va);
  cp_data : pg m (tab (pte m d va)) = pg m (tab (pte m P va));
  cp_out : outside m l d (tab (pte m d va));
  cp_new : tab (pte m d va) ∈ l0
}.

(** The state of the copy after the pages below [i]. *)
Record copying (m0 : gmap Z (list Z)) (l0 : list Z) (d P sz i : Z) (m : gmap Z (list Z)) (fl : Z) (l : list Z) : Prop := {
  cy_ok : pt_ok m fl l d;
  cy_u : uspace m l d P sz;
  cy_kept : kept m0 l0 d m l;
  cy_tail : exists used, l0 = used ++ l;
  cy_done : forall va, 0 <= va < i -> copied m l l0 d P va;
  cy_inj : forall va va', 0 <= va < i -> 0 <= va' < i -> tab (pte m d va) = tab (pte m d va') -> base va = base va';
  cy_todo : forall va, i <= va < KERNBASE -> pte m d va = 0;
  cy_kern : forall va, KERNBASE <= va < 2 ^ 32 -> pte m d va = pte m0 d va
}.

(** Filling a page taken from the free list. *)
Lemma fill_page m fl p l d src fl' :
  pt_ok m fl (p :: l) d -> free_ok (mk_vmstate m fl') l -> length src = Z.to_nat PGSIZE ->
  pt_ok (<[p := src]> m) fl' l d /\ (forall va, 0 <= va -> pte (<[p := src]> m) d va = pte m d va) /\
  kept m (p :: l) d (<[p := src]> m) l /\ outside (<[p := src]> m) l d p /\ absent (<[p := src]> m) d = absent m d /\ kpage p.
Proof.
  intros Ok F Hs. destruct (pt_free _ _ _ _ Ok) as [_ Hn Hp _]. apply Forall_cons in Hp as [Kp _]. apply NoDup_cons in Hn as [Hpl Hn].
  assert (p <> d) as Hpd by (intros ->; apply (pt_dfree _ _ _ _ Ok); by left).
  assert (d ∉ l) as Hdl by (intros ?; apply (pt_dfree _ _ _ _ Ok); by right).
  assert (forall q, q <> p -> pg (<[p := src]> m) q = pg m q) as Hpg by (intros q Hq; by rewrite pg_insert, decide_False).
  assert (forall i, 0 <= i < 1024 -> pdi (<[p := src]> m) d i = pdi m d i) as Hpd'.
  { intros i Hi. apply wordat_pg; [apply (pt_dir _ _ _ _ Ok)|done|]. apply Hpg. congruence. }
  assert (forall i, 0 <= i < 1024 -> present (pdi m d i) = true ->
    kpage (tab (pdi m d i)) /\ tab (pdi m d i) ∉ l /\ tab (pdi m d i) <> p /\ tab (pdi m d i) <> d) as Ht.
  { intros i Hi Hpr. destruct (pt_tab _ _ _ _ Ok i Hi Hpr) as (? & [? ?]%not_elem_of_cons & ?). done. }
  split_and!; try done.
  - split; [|apply Ok|done| |].
    + apply (free_ok_ext (mk_vmstate m fl')); [done| | |done]; cbn [v_mem].
      * intros q Hq. apply Hpg. by intros ->.
      * intros q. rewrite pg_insert. destruct (decide _); [done|]. apply (fo_size _ _ F).
    + intros i Hi. rewrite Hpd' by done. intros Hpr. destruct (Ht i Hi Hpr) as (? & ? & ? & ?). done.
    + intros i j Hi Hj. rewrite !Hpd' by done. by apply (pt_inj _ _ _ _ Ok).
  - intros va Hva. unfold pte. rewrite Hpd' by (by apply PDX_range). destruct (present _) eqn:E; [|done].
    destruct (Ht (PDX va)) as (Kt & _ & Hne & _); [by apply PDX_range|done|].
    apply wordat_pg; [apply Kt|by apply PTX_range|by apply Hpg].
  - intros q (H1 & [H2 H3]%not_elem_of_cons & H4). split; [by apply Hpg|]. split_and!; [done..|].
    intros i Hi. rewrite Hpd' by done. by apply H4.
  - split_and!; [done..|]. intros i Hi. rewrite Hpd' by done. intros Hpr. by apply Ht.
  - apply absent_ext. intros. by apply Hpd'.
Qed.

Lemma lor_odd f : Z.odd f = true -> 0 <= f -> Z.lor f PTE_P = f.
Proof.
  intros Ho Hf. apply Z.bits_inj'. intros n Hn. rewrite Z.lor_spec. destruct (decide (n = 0)) as [->|].
  - rewrite Z.bit0_odd, Ho. done.
  - change 1 with (2 ^ 0). rewrite Z.pow2_bits_false by lia. by rewrite orb_false_r.
Qed.
Lemma flags_odd x : present x = true -> Z.lor (PTE_FLAGS x) PTE_P = PTE_FLAGS x /\ 0 <= PTE_FLAGS x < PGSIZE.
Proof.
  unfold present. rewrite flag_P, PTE_FLAGS_mod. intros Ho. pose proof (Z.mod_pos_bound x PGSIZE ltac:(done)) as Hr.
  split; [|done]. apply lor_odd; [|lia]. rewrite (Z.div_mod x PGSIZE), Z.odd_add, Z.odd_mul in Ho by done.
  change (Z.odd PGSIZE) with false in Ho. by rewrite andb_false_l, xorb_false_l in Ho.
Qed.

Lemma copying_step m0 l0 d P sz i m fl l :
  copying m0 l0 d P sz i m fl l -> 0 <= i < sz -> i mod PGSIZE = 0 -> sz <= KERNBASE -> (absent m d < length l)%nat ->
  exists m' fl' l', copying m0 l0 d P sz (i + PGSIZE) m' fl' l' /\ (absent m' d + length l <= absent m d + S (length l'))%nat /\
    forall A (k : M vmstate A) (kf kf' : M vmstate unit) (r : A),
    (pte ← walkpgdir P i false;
     if pte =? 0 then panic "copyuvm: pte should exist" else
     x ← ldw pte;
     if negb (flag x PTE_P) then panic "copyuvm: page not present" else
     mem ← kalloc;
     if mem =? 0 then kf ;; mret r else
     src ← get_page (P2V (PTE_ADDR x));
     set_page mem src ;;
     r' ← mappages d i PGSIZE (V2P mem) (PTE_FLAGS x);
     if r' <? 0 then kfree mem ;; kf' ;; mret r else k) (mk_vmstate m fl) = k (mk_vmstate m' fl').
Proof.
  intros C Hi Ha Hsz Hab. destruct C as [Ok U Hk Htl Hdone Hinj Htodo Hkern].
  destruct l as [|p l]; [simpl in Hab; lia|]. set (x := pte m P i).
  destruct (us_pg _ _ _ _ _ U i Hi) as [Hpr Hout]. fold x in Hpr, Hout.
  assert (present (pdi m P (PDX i)) = true) as Hpd by (unfold x, pte in Hpr; by destruct (present (pdi m P (PDX i)))).
  destruct (us_tab _ _ _ _ _ U (PDX i)) as [Kt _]; [apply PDX_range; lia|done|]. destruct (kpage_range _ Kt) as (HRt & _).
  pose proof (PTX_range i ltac:(lia)) as HPTX.
  pose proof (kalloc_spec _ _ (pt_free _ _ _ _ Ok)) as (s' & E & F & Em). destruct s' as [m1 fl1]. cbn [v_mem] in Em. subst m1.
  set (src := pg m (tab x)). assert (length src = Z.to_nat PGSIZE) as Hsrc by apply (fo_size _ _ F).
  destruct (fill_page m fl p l d src fl1 Ok F Hsrc) as (Ok1 & Hpte1 & Hk1 & Ho1 & Hab1 & Kp).
  destruct (kpage_range p Kp) as (HRp & EV & HV), (flags_odd x Hpr) as [Hfl Hfr].
  pose proof (kernbase_align p EV (kp_align _ Kp)) as Hva.
  assert (i + PGSIZE <= KERNBASE) as Hik.
  { pose proof (Z.div_mod i PGSIZE ltac:(done)) as Edm. rewrite Ha in Edm. lia. }
  assert (forall va, i <= va < i + PGSIZE -> present (pte (<[p := src]> m) d va) = false) as Hnp.
  { intros va Hva'. rewrite Hpte1, Htodo by lia. done. }
  destruct (mappages_spec (<[p := src]> m) fl1 l d i PGSIZE 1 (V2P p) (PTE_FLAGS x) Ok1) as (m2 & fl2 & l2 & E2 & N2);
    try done; try (lia).
  { rewrite u32_small; lia. }
  { rewrite Hab1. simpl in Hab. lia. }
  destruct (entry_facts (V2P p) (PTE_FLAGS x)) as (_ & Hep & Hea & Hef); [done|lia|lia|done|].
  rewrite Hfl in Hef. set (y := entry (V2P p) (PTE_FLAGS x)) in *.
  assert (tab y = p) as Hty.
  { unfold tab. rewrite Hea. unfold P2V. rewrite EV. replace (p - KERNBASE + KERNBASE) with p by lia. apply u32_small. lia. }
  assert (forall va, 0 <= va < 2 ^ 32 -> pte m2 d va = if decide (i <= va < i + PGSIZE) then y else pte m d va) as Hpte2.
  { intros va Hr. rewrite (pn_pte _ _ _ _ _ _ _ N2) by done. unfold map_range. replace (i + PGSIZE * 1) with (i + PGSIZE) by lia.
    destruct (decide _) as [Hin|_]; [|by apply Hpte1; lia]. unfold y. f_equal.
    apply base_eq_iff in Hin; [|done]. rewrite Hin. unfold base. rewrite Ha. lia. }
  assert (kept m (p :: l) d m2 l2) as Hk2 by (eapply kept_trans; [exact Hk1|exact (pn_out _ _ _ _ _ _ _ N2)]).
  assert (pg m2 p = src /\ outside m2 l2 d p) as [Hpp Hop].
  { destruct (pn_out _ _ _ _ _ _ _ N2 p Ho1) as [Ep Op]. split; [|done]. by rewrite Ep, pg_insert, decide_True. }
  assert (forall va, 0 <= va -> pte m2 P va = pte m P va) as HP2 by (intros va Hr; by eapply uspace_pte).
  exists m2, fl2, l2. split; [split|split].
  - apply N2.
  - by eapply uspace_kept.
  - by eapply kept_trans.
  - destruct (pn_tail _ _ _ _ _ _ _ N2) as [used ->], Htl as [used0 ->]. exists (used0 ++ p :: used). by rewrite <- app_assoc.
  - intros va Hr. destruct (decide (i <= va < i + PGSIZE)) as [Hin|Hout'].
    + assert (pte m P va = x) as Ex.
      { unfold x. rewrite <- (pte_base m P va), <- (pte_base m P i) by lia. f_equal. by apply base_eq_iff. }
      assert (pte m2 d va = y) as Ey by (rewrite Hpte2, decide_True by (done || (lia)); done).
      split; rewrite ?Ey, ?HP2, ?Ex, ?Hty by lia; try done.
      * rewrite Hpp. unfold src. symmetry. by apply Hk2.
      * destruct Htl as [used0 ->]. apply elem_of_app. right. by left.
    + destruct (Hdone va) as [H1 H2 H3 H4 H5]; [lia|]. destruct (Hk2 _ H4) as [Eq Oq].
      assert (pte m2 d va = pte m d va) as Ey by (rewrite Hpte2, decide_False by (done || (lia)); done).
      split; rewrite ?Ey, ?HP2 by lia; try done. rewrite Eq, H3. symmetry. apply Hk2. apply (us_pg _ _ _ _ _ U). lia.
  - intros va va' Hr Hr'. rewrite !Hpte2 by lia.
    assert (forall v, 0 <= v < i + PGSIZE -> ~ (i <= v < i + PGSIZE) -> tab (pte m d v) <> p) as Hnew.
    { intros v Hv Hv' Et. destruct (cp_out _ _ _ _ _ _ (Hdone v ltac:(lia))) as (_ & [? _]%not_elem_of_cons & _). congruence. }
    destruct (decide (i <= va < i + PGSIZE)) as [H1|H1], (decide (i <= va' < i + PGSIZE)) as [H2|H2]; rewrite ?Hty.
    + intros _. apply base_eq_iff in H1; [|done]. apply base_eq_iff in H2; [|done]. congruence.
    + intros Et. symmetry in Et. by destruct (Hnew va' Hr' H2).
    + intros Et. by destruct (Hnew va Hr H1).
    + apply Hinj; lia.
  - intros va Hr. rewrite Hpte2, decide_False by lia. apply Htodo. lia.
  - intros va Hr. rewrite Hpte2, decide_False by lia. by apply Hkern.
  - pose proof (pn_spare _ _ _ _ _ _ _ N2) as Hsp. rewrite Hab1 in Hsp. simpl. lia.
  - intros A k kf kf' r. rewrite (bind_Ret _ _ _ _ _ (walk_hit m fl P i false Hpd)).
    destruct (Z.eqb_spec (tab (pdi m P (PDX i)) + 4 * PTX i) 0); [lia|].
    rewrite (bind_Ret _ _ _ _ _ (ldw_run _ _ _ _)).
    assert (wordat m (tab (pdi m P (PDX i)) + 4 * PTX i) = x) as -> by (unfold x, pte; by rewrite Hpd).
    unfold present in Hpr. rewrite Hpr. cbn [negb]. rewrite (bind_Ret _ _ _ _ _ E).
    destruct (Z.eqb_spec p 0); [lia|]. unfold get_page, set_page. rewrite bind_gets, bind_modify.
    unfold set_v_mem. cbn [v_mem v_freelist]. fold (tab x). fold src. rewrite (bind_Ret _ _ _ _ _ E2). done.
Qed.

Lemma copyuvm_loop_spec m0 l0 d P sz n : sz <= KERNBASE -> forall fuel i m fl l,
  copying m0 l0 d P sz i m fl l -> 0 <= i -> i mod PGSIZE = 0 -> (n < fuel)%nat ->
  i + PGSIZE * Z.of_nat n - PGSIZE < sz <= i + PGSIZE * Z.of_nat n -> (absent m d + n <= length l)%nat ->
  exists m' fl' l' i', copyuvm_loop fuel P d i sz (mk_vmstate m fl) = Ret d (mk_vmstate m' fl') /\ i' = i + PGSIZE * Z.of_nat n /\
    copying m0 l0 d P sz i' m' fl' l'.
Proof.
  intros Hsz. induction n as [|n IH]; intros fuel i m fl l C Hi Ha Hf Hn Hab; (destruct fuel as [|fuel]; [lia|]); cbn [copyuvm_loop].
  - destruct (Z.leb_spec sz i); [|lia]. exists m, fl, l, i. split_and!; [done|lia|done].
  - destruct (Z.leb_spec sz i); [lia|].
    destruct (copying_step m0 l0 d P sz i m fl l) as (m1 & fl1 & l1 & C1 & Hs & E); [done|lia|done|done|lia|].
    rewrite E. clear E. rewrite u32_small by lia.
    destruct (IH fuel (i + PGSIZE) m1 fl1 l1) as (m' & fl' & l' & i' & E & -> & C'); [done|lia|by rewrite <- Zplus_mod_idemp_l, Ha|lia|lia|lia|].
    exists m', fl', l', (i + PGSIZE + PGSIZE * Z.of_nat n). split_and!; [done|lia|done].
Qed.

(** ** Theorems *)

(** The byte at a user address. *)
Definition user_byte (m : gmap Z (list Z)) (d va : Z) : Z :=
  default 0 (pg m (tab (pte m d va)) !! Z.to_nat (va mod PGSIZE)).

(** An address space [P] of size [sz] none of whose pages is free. *)
Record aspace (m : gmap Z (list Z)) (l : list Z) (P sz : Z) : Prop := {
  as_dir : kpage P /\ P ∉ l;
  as_tab : forall i, 0 <= i < 1024 -> present (pdi m P i) = true -> kpage (tab (pdi m P i)) /\ tab (pdi m P i) ∉ l;
  as_pg : forall va, 0 <= va < sz -> present (pte m P va) = true /\ tab (pte m P va) ∉ l
}.

(** Memory that changes only in free pages keeps the address space. *)
Section frame.
Context (m : gmap Z (list Z)) (l : list Z) (P sz : Z) (m' : gmap Z (list Z)).
Context (A : aspace m l P sz) (H : forall q, q ∉ l -> pg m' q = pg m q).
Lemma aspace_pdi i : 0 <= i < 1024 -> pdi m' P i = pdi m P i.
Proof using All. intros Hi. apply wordat_pg; [apply A|done|]. apply H, A. Qed.
Lemma aspace_pte va : 0 <= va -> pte m' P va = pte m P va.
Proof using All.
  intros Hva. unfold pte. rewrite aspace_pdi by (by apply PDX_range). destruct (present _) eqn:E; [|done].
  destruct (as_tab _ _ _ _ A (PDX va)) as [Kt Ht]; [by apply PDX_range|done|].
  apply wordat_pg; [apply Kt|by apply PTX_range|by apply H].
Qed.
End frame.

(** [setupkvm] with 1025 free pages returns a directory that maps exactly
    the kernel: the low megabyte and the kernel's data and the rest of
    physical memory writable, its text read-only, the devices, and nothing
    below [KERNBASE] or between; pages in use do not change. *)
Theorem setupkvm_correct m fl d l :
  free_ok (mk_vmstate m fl) (d :: l) -> (1024 <= length l)%nat ->
  exists m' fl' l', setupkvm (mk_vmstate m fl) = Ret d (mk_vmstate m' fl') /\ free_ok (mk_vmstate m' fl') l' /\
    (forall va, 0 <= va < 2 ^ 32 -> pte m' d va = kernel_pte va) /\
    (forall q, q ∉ d :: l -> pg m' q = pg m q).
Proof.
  intros F Hl. destruct (setupkvm_spec m fl d l F Hl) as (m' & fl' & l' & E & N). exists m', fl', l'.
  pose proof (fo_pages _ _ F) as [Kd _]%Forall_cons. pose proof (fo_nodup _ _ F) as [Hd _]%NoDup_cons.
  split_and!; [done|apply N|apply N|]. intros q [H1 H2]%not_elem_of_cons.
  pose proof (kalloc_spec _ _ F) as (s' & _ & F' & Em). destruct s' as [m1 fl1]. cbn [v_mem] in Em. subst m1.
  destruct (empty_dir m fl1 d l F' Kd Hd) as (_ & _ & _ & Ho).
  destruct (pn_out _ _ _ _ _ _ _ N q (Ho q H1 H2)) as [-> _]. by rewrite pg_insert, decide_False.
Qed.

(** The pages of an address space of size [sz]: its directory, its page tables
    and the pages of its user addresses. *)
Definition space_page (m : gmap Z (list Z)) (d sz q : Z) : Prop :=
  q = d \/ (exists i, 0 <= i < 1024 /\ present (pdi m d i) = true /\ q = tab (pdi m d i)) \/
  (exists va, 0 <= va < sz /\ q = tab (pte m d va)).

Lemma copied_pages l d P sz n m0 l0 m' fl' l' :
  (forall q, q ∉ d :: l -> outside m0 l0 d q) -> (exists used, l = used ++ l0) -> d ∉ l ->
  copying m0 l0 d P sz n m' fl' l' -> sz <= n -> forall q, space_page m' d sz q -> q ∈ d :: l /\ q ∉ l'.
Proof.
  intros Hout [used0 ->] Hd C Hle q Hq. destruct (cy_tail _ _ _ _ _ _ _ _ _ C) as [used ->].
  destruct Hq as [->|[(i & Hi & Hp & ->)|(va & Hva & ->)]].
  - split; [by left|]. intros Hin. apply Hd. rewrite !elem_of_app. by right; right.
  - destruct (pt_tab _ _ _ _ (cy_ok _ _ _ _ _ _ _ _ _ C) i Hi Hp) as (_ & Hnl & _). split; [|done].
    destruct (decide (tab (pdi m' d i) ∈ d :: used0 ++ used ++ l')) as [|Hn]; [done|]. exfalso.
    destruct (cy_kept _ _ _ _ _ _ _ _ _ C _ (Hout _ Hn)) as [_ (_ & _ & Ht)]. by apply (Ht i).
  - destruct (cy_done _ _ _ _ _ _ _ _ _ C va ltac:(lia)) as [_ _ _ (_ & Hnl & _) Hin]. split; [|done].
    right. rewrite elem_of_app. by right.
Qed.

(** C22: [copyuvm] gives the child an address space with the same contents:
    with enough free pages it returns a directory in which every user address
    below [sz] has the parent's byte and the parent's permissions, which maps
    nothing else below [KERNBASE], and which maps the kernel.  The child's
    directory, its page tables and its user pages were all on the free list
    and are no longer, so that no one else has them, and no two user pages
    are the same; what is left of the free list is a tail of it.  Every page
    that was not free, the parent's among them, has its contents. *)
Theorem copyuvm_correct m fl d l P sz n :
  free_ok (mk_vmstate m fl) (d :: l) -> aspace m (d :: l) P sz -> 0 <= sz <= KERNBASE ->
  PGSIZE * Z.of_nat n - PGSIZE < sz <= PGSIZE * Z.of_nat n -> (1024 + n <= length l)%nat ->
  exists m' fl' l', copyuvm P sz (mk_vmstate m fl) = Ret d (mk_vmstate m' fl') /\ free_ok (mk_vmstate m' fl') l' /\
    (forall va, 0 <= va < sz -> user_byte m' d va = user_byte m P va /\ PTE_FLAGS (pte m' d va) = PTE_FLAGS (pte m P va)) /\
    (forall va, 0 <= va < sz -> pte m' P va = pte m P va /\ user_byte m' P va = user_byte m P va) /\
    (forall va va', 0 <= va < sz -> 0 <= va' < sz -> tab (pte m' d va) <> tab (pte m' P va') /\
       (tab (pte m' d va) = tab (pte m' d va') -> base va = base va')) /\
    (forall va, PGSIZE * Z.of_nat n <= va < KERNBASE -> pte m' d va = 0) /\
    (forall va, KERNBASE <= va < 2 ^ 32 -> pte m' d va = kernel_pte va) /\
    (exists used, l = used ++ l') /\
    (forall q, space_page m' d sz q -> q ∈ d :: l /\ q ∉ l') /\
    (forall q, q ∉ d :: l -> pg m' q = pg m q).
Proof.
  intros F A Hsz Hn Hl. destruct (setupkvm_spec m fl d l F ltac:(lia)) as (m0 & fl0 & l0 & E0 & N0).
  pose proof (fo_pages _ _ F) as [Kd _]%Forall_cons. pose proof (fo_nodup _ _ F) as [Hd _]%NoDup_cons.
  pose proof (kalloc_spec _ _ F) as (s' & _ & F' & Em). destruct s' as [mx fl1]. cbn [v_mem] in Em. subst mx.
  destruct (empty_dir m fl1 d l F' Kd Hd) as (_ & _ & Hab & Ho). destruct (kpage_range d Kd) as (HR & _).
  assert (forall q, q ∉ d :: l -> pg m0 q = pg m q /\ outside m0 l0 d q) as Hk.
  { intros q [H1 H2]%not_elem_of_cons. destruct (pn_out _ _ _ _ _ _ _ N0 q (Ho q H1 H2)) as [-> ?].
    by rewrite pg_insert, decide_False. }
  assert (forall q, q ∉ d :: l -> pg m0 q = pg m q) as Hk' by (intros q Hq; by apply Hk).
  pose proof (aspace_pdi m _ P sz m0 A Hk') as Hpd. pose proof (aspace_pte m _ P sz m0 A Hk') as Hpt.
  assert (uspace m0 l0 d P sz) as U.
  { split.
    - split; [apply A|]. apply Hk, A.
    - intros i Hi. rewrite Hpd by done. intros Hp. destruct (as_tab _ _ _ _ A i Hi Hp) as [? ?]. split; [done|]. by apply Hk.
    - intros va Hva. rewrite Hpt by lia. destruct (as_pg _ _ _ _ A va Hva) as [? ?]. split; [done|]. by apply Hk. }
  assert (copying m0 l0 d P sz 0 m0 fl0 l0) as C0.
  { split; try done; try (intros; lia); [apply N0|by exists []|].
    intros va Hva. rewrite (pn_pte _ _ _ _ _ _ _ N0) by lia. unfold kernel_pte.
    pose proof link_data_range. repeat (rewrite decide_False by lia). done. }
  pose proof (pn_spare _ _ _ _ _ _ _ N0) as Hsp.
  destruct (copyuvm_loop_spec m0 l0 d P sz n ltac:(lia) (S (Z.to_nat (sz / PGSIZE + 1))) 0 m0 fl0 l0 C0) as (m' & fl' & l' & i' & E & Hi' & C);
    [lia|done| |lia|lia|].
  { assert (Z.of_nat n - 1 <= sz / PGSIZE); [|lia]. apply Z.div_le_lower_bound; [done|]. lia. }
  pose proof (copied_pages l d P sz i' m0 l0 m' fl' l' (fun q Hq => proj2 (Hk q Hq)) (pn_tail _ _ _ _ _ _ _ N0) Hd C ltac:(lia)) as Hpages.
  destruct C as [Ok' U' Hk1 [used' Hsub] Hdone Hinj Htodo Hkern].
  assert (forall va, 0 <= va -> pte m' P va = pte m0 P va) as HP by (intros va Hva; by eapply uspace_pte).
  assert (forall va, 0 <= va < sz -> pg m' (tab (pte m P va)) = pg m (tab (pte m P va))) as Hdat.
  { intros va Hva. destruct (us_pg _ _ _ _ _ U va Hva) as [_ Hout]. rewrite Hpt in Hout by lia.
    destruct (Hk1 _ Hout) as [-> _]. apply Hk', (as_pg _ _ _ _ A va Hva). }
  exists m', fl', l'. split_and!.
  - unfold copyuvm. rewrite (bind_Ret _ _ _ _ _ E0). destruct (Z.eqb_spec d 0); [lia|exact E].
  - apply Ok'.
  - intros va Hva. destruct (Hdone va ltac:(lia)) as [_ Hfl Hda _ _]. rewrite HP, Hpt in Hfl by lia. rewrite HP, Hpt in Hda by lia. split; [|done].
    unfold user_byte. by rewrite Hda, Hdat.
  - intros va Hva. rewrite HP, Hpt by lia. split; [done|]. unfold user_byte. rewrite HP, Hpt by lia. by rewrite Hdat.
  - intros va va' Hva Hva'. split; [|apply Hinj; lia]. destruct (Hdone va ltac:(lia)) as [_ _ _ _ Hin].
    rewrite HP by lia. destruct (us_pg _ _ _ _ _ U va' Hva') as [_ (_ & Hout & _)]. congruence.
  - intros va Hva. apply Htodo. lia.
  - intros va Hva. rewrite Hkern by done. apply (pn_pte _ _ _ _ _ _ _ N0). lia.
  - destruct (pn_tail _ _ _ _ _ _ _ N0) as [used0 ->]. exists (used0 ++ used'). by rewrite Hsub, app_assoc.
  - exact Hpages.
  - intros q Hq. destruct (Hk1 q (proj2 (Hk q Hq))) as [-> _]. by apply Hk'.
Qed.
End vmspec.

(** ** A machine with enough memory *)
#[local] Existing Instance demo_linker.

(** 1100 free pages, threaded in order of address, and a process with one page. *)
Definition page_no (k : nat) : Z := 0x80200000 + PGSIZE * Z.of_nat k.
Definition next_page (n k : nat) : list Z := wr 4 blank 0 (if decide (S k < n)%nat then page_no (S k) else 0).
Definition free_mem (n : nat) : gmap Z (list Z) := list_to_map ((fun k => (page_no k, next_page n k)) <$> seq 0 n).
Definition demo_dirpage : Z := 0x81000000.
Definition demo_tabpage : Z := 0x81001000.
Definition demo_userpage : Z := 0x81002000.
Definition demo_mem : gmap Z (list Z) :=
  <[demo_dirpage := wr 4 blank 0 (V2P demo_tabpage + 7)]>
  (<[demo_tabpage := wr 4 blank 0 (V2P demo_userpage + 7)]>
  (<[demo_userpage := replicate (Z.to_nat PGSIZE) 42]> (free_mem 1100))).

Lemma page_no_inj k k' : page_no k = page_no k' -> k = k'.
Proof. unfold page_no. lia. Qed.
Lemma free_mem_lookup n k : (k < n)%nat -> free_mem n !! page_no k = Some (next_page n k).
Proof.
  intros Hk. apply elem_of_list_to_map_1.
  - rewrite <- list_fmap_compose. apply NoDup_fmap_2; [|apply NoDup_seq]. intros x y E. by apply page_no_inj.
  - apply list_elem_of_fmap. exists k. split; [done|]. apply elem_of_seq. lia.
Qed.
Lemma free_mem_other n p : (forall k, (k < n)%nat -> p <> page_no k) -> free_mem n !! p = None.
Proof.
  intros H. apply not_elem_of_list_to_map_1. rewrite <- list_fmap_compose. intros (k & -> & Hk%elem_of_seq)%list_elem_of_fmap.
  apply (H k); [lia|done].
Qed.
Lemma demo_above : demo_dirpage <> demo_tabpage /\ demo_dirpage <> demo_userpage /\ demo_tabpage <> demo_userpage /\
  (forall k, (k < 1100)%nat -> page_no k <> demo_dirpage /\ page_no k <> demo_tabpage /\ page_no k <> demo_userpage).
Proof. unfold page_no, demo_dirpage, demo_tabpage, demo_userpage. split_and!; [lia..|]. intros k Hk. lia. Qed.
Lemma demo_mem_free k : (k < 1100)%nat -> pg demo_mem (page_no k) = next_page 1100 k.
Proof.
  intros Hk. destruct demo_above as (_ & _ & _ & H). destruct (H k Hk) as (? & ? & ?). unfold demo_mem.
  rewrite !pg_insert, !decide_False by done. unfold pg. by rewrite free_mem_lookup.
Qed.
Lemma length_blank_wr x : length (wr 4 blank 0 x) = Z.to_nat PGSIZE.
Proof. rewrite length_wr; [apply length_replicate|]. unfold blank. rewrite length_replicate. lia. Qed.
Lemma demo_sized p : length (pg demo_mem p) = Z.to_nat PGSIZE.
Proof.
  unfold demo_mem. rewrite !pg_insert.
  destruct (decide (p = demo_dirpage)); [apply length_blank_wr|]. destruct (decide (p = demo_tabpage)); [apply length_blank_wr|].
  destruct (decide (p = demo_userpage)); [apply length_replicate|].
  unfold pg. destruct (free_mem 1100 !! p) as [x|] eqn:E; [|apply length_replicate].
  apply elem_of_list_to_map_2, list_elem_of_fmap in E as (k & [= -> ->] & _). apply length_blank_wr.
Qed.

Lemma page_no_kpage k : (k < 1100)%nat -> kpage (page_no k).
Proof.
  intros Hk. unfold page_no. split.
  - rewrite Z.mul_comm, Z.mod_add by done. done.
  - change link_end with 0x80110000. lia.
  - lia.
Qed.

Lemma demo_chain j k : (k + j = 1100)%nat -> chain demo_mem (if decide (k < 1100)%nat then page_no k else 0) (page_no <$> seq k j).
Proof.
  revert k. induction j as [|j IH]; intros k Hk; simpl.
  - by rewrite decide_False by lia.
  - rewrite decide_True by lia. split; [done|].
    assert (wordat demo_mem (page_no k) = (if decide (S k < 1100)%nat then page_no (S k) else 0)) as ->; [|apply IH; lia].
    unfold wordat. destruct (kpage_base (page_no k)) as [-> ->]; [apply page_no_kpage; lia|]. rewrite demo_mem_free by lia.
    unfold next_page. rewrite rd_wr by (unfold blank; rewrite length_replicate; lia). apply Z.mod_small.
    destruct (decide _); unfold page_no; simpl; lia.
Qed.

Lemma demo_free : free_ok (mk_vmstate demo_mem (page_no 0)) (page_no <$> seq 0 1100).
Proof.
  split; cbn [v_mem v_freelist].
  - exact (demo_chain 1100 0 eq_refl).
  - apply NoDup_fmap_2; [|apply NoDup_seq]. intros x y E. by apply page_no_inj.
  - apply Forall_forall. intros p (k & -> & Hk%elem_of_seq)%list_elem_of_fmap. apply page_no_kpage. lia.
  - apply demo_sized.
Qed.

Lemma demo_not_free q : q = demo_dirpage \/ q = demo_tabpage \/ q = demo_userpage -> q ∉ page_no <$> seq 0 1100.
Proof.
  intros Hq (k & -> & Hk%elem_of_seq)%list_elem_of_fmap. destruct demo_above as (_ & _ & _ & H).
  destruct (H k ltac:(lia)) as (? & ? & ?). tauto.
Qed.

Lemma demo_pdi i : 0 <= i < 1024 -> pdi demo_mem demo_dirpage i = if decide (i = 0) then V2P demo_tabpage + 7 else 0.
Proof.
  intros Hi. unfold pdi, wordat. destruct (base_word demo_dirpage i eq_refl Hi) as [-> ->].
  unfold demo_mem. rewrite pg_insert, decide_True by done. destruct (decide (i = 0)) as [->|Hne].
  - rewrite rd_wr by (unfold blank; rewrite length_replicate; lia). reflexivity.
  - rewrite rd_wr_disjoint by (unfold blank; rewrite ?length_replicate; lia).
    unfold rd, blank, slice. rewrite drop_replicate, take_replicate.
    rewrite Nat.min_l by lia. reflexivity.
Qed.

Lemma demo_aspace : aspace demo_mem (page_no <$> seq 0 1100) demo_dirpage PGSIZE.
Proof.
  assert (kpage demo_dirpage /\ kpage demo_tabpage) as [K1 K2] by (split; (split; vm_compute; (reflexivity || discriminate))).
  assert (tab (V2P demo_tabpage + 7) = demo_tabpage /\ tab (V2P demo_userpage + 7) = demo_userpage) as [T1 T2] by done.
  split.
  - split; [done|]. apply demo_not_free. by left.
  - intros i Hi. rewrite demo_pdi by done. destruct (decide (i = 0)); [|done]. intros _. rewrite T1. split; [done|].
    apply demo_not_free. by right; left.
  - intros va Hva. assert (pte demo_mem demo_dirpage va = V2P demo_userpage + 7) as ->.
    { rewrite <- pte_base by lia.
      assert (base va = 0) as -> by (unfold base; rewrite Z.mod_small by done; lia).
      unfold pte. rewrite demo_pdi by done. rewrite decide_True by done. change (present (V2P demo_tabpage + 7)) with true. cbv iota.
      rewrite T1. unfold wordat. destruct (base_word demo_tabpage 0 eq_refl ltac:(lia)) as [Eb Em].
      change (PTX 0) with 0. rewrite Eb, Em. unfold demo_mem. rewrite pg_insert, decide_False by done. rewrite pg_insert, decide_True by done.
      rewrite rd_wr by (unfold blank; rewrite length_replicate; lia). reflexivity. }
    rewrite T2. split; [done|]. apply demo_not_free. by right; right.
Qed.

Definition demo_list : list Z := page_no <$> seq 1 1099.
Lemma demo_len : (1025 <= length demo_list)%nat.
Proof. unfold demo_list. rewrite length_fmap, length_seq. lia. Qed.
Lemma demo_free' : free_ok (mk_vmstate demo_mem (page_no 0)) (page_no 0 :: demo_list) /\ aspace demo_mem (page_no 0 :: demo_list) demo_dirpage PGSIZE.
Proof. split; [exact demo_free|exact demo_aspace]. Qed.

Lemma setupkvm_correct_witness : exists m' fl' l',
  setupkvm (mk_vmstate demo_mem (page_no 0)) = Ret (page_no 0) (mk_vmstate m' fl') /\ free_ok (mk_vmstate m' fl') l' /\
  (forall va, 0 <= va < 2 ^ 32 -> pte m' (page_no 0) va = kernel_pte va).
Proof.
  destruct (setupkvm_correct demo_mem (page_no 0) (page_no 0) demo_list (proj1 demo_free') (Nat.lt_le_incl _ _ demo_len))
    as (m' & fl' & l' & E & F & H & _).
  exists m', fl', l'. split; [exact E|]. split; [exact F|exact H].
Defined.

Lemma copyuvm_correct_witness : exists m' fl',
  copyuvm demo_dirpage PGSIZE (mk_vmstate demo_mem (page_no 0)) = Ret (page_no 0) (mk_vmstate m' fl') /\
  (forall va, 0 <= va < PGSIZE -> user_byte m' (page_no 0) va = user_byte demo_mem demo_dirpage va).
Proof.
  destruct (copyuvm_correct demo_mem (page_no 0) (page_no 0) demo_list demo_dirpage PGSIZE 1 (proj1 demo_free') (proj2 demo_free')
    ltac:(split; vm_compute; discriminate) ltac:(lia) demo_len) as (m' & fl' & l' & E & _ & H & _).
  exists m', fl'. split; [exact E|]. intros va Hva. exact (proj1 (H va Hva)).
Defined.
