(* ===== verification/Ulib.v ===== *)
(** * The user library (ulib.c)

  A C string argument is the list of the bytes of its object from the
  pointer on; the functions return [None] where they would read past its
  end.  A [char] is a byte, compared as [uchar] where the source casts. *)
From S2P Require Import Prelude CString.

(** ** Definitions *)

(** The bytes that [strcpy(s, t)] stores at [s]. *)
Fixpoint strcpy (t : list Z) : option (list Z) :=
  match t with
  | [] => None
  | c :: t => if c =? 0 then Some [0] else r ← strcpy t; Some (c :: r)
  end.

Fixpoint strcmp (p q : list Z) : option Z :=
  match p, q with
  | a :: p, b :: q => if negb (a =? 0) && (a =? b) then strcmp p q else Some (a - b)
  | _, _ => None
  end.

(** The offset of the first [c] before the end of the string. *)
Fixpoint strchr (s : list Z) (c : Z) : option (option nat) :=
  match s with
  | [] => None
  | a :: s => if a =? 0 then Some None
              else if a =? c then Some (Some O)
              else r ← strchr s c; Some (option_map S r)
  end.

(** [int] arithmetic wraps as the compiled code does. *)
Fixpoint atoi_loop (n : Z) (s : list Z) : option Z :=
  match s with
  | [] => None
  | c :: s => if (48 <=? c) && (c <=? 57) then atoi_loop (s32 (n * 10 + c - 48)) s else Some n
  end.
Definition atoi (s : list Z) : option Z := atoi_loop 0 s.

(** [gets(buf, max)]: [inp] is what [read(0, &c, 1)] delivers, one byte at a
    time; the result is what is stored in [buf] and what is left to read. *)
Fixpoint gets_loop (inp : list Z) (room : nat) : list Z * list Z :=
  match room with
  | O => ([], inp)
  | S room =>
      match inp with
      | [] => ([], [])
      | c :: inp => if (c =? 10) || (c =? 13) then ([c], inp)
                    else let '(r, inp) := gets_loop inp room in (c :: r, inp)
      end
  end.
Definition gets (inp : list Z) (max : nat) : list Z * list Z :=
  let '(r, inp) := gets_loop inp (max - 1) in (r ++ [0], inp).

(** ulib.c's own [memmove] copies upwards always. *)
Definition umemmove (mem : list Z) (dst src n : nat) : list Z := copy_up mem dst src n.

(** ** Facts *)
Lemma strchr_cut s r c : Forall (fun a => a <> 0) s ->
  strchr (s ++ 0 :: r) c =
  Some (match list_find (fun a => a = c) s with Some (i, _) => Some i | None => None end).
Proof.
  induction 1 as [|a s Ha Hs IH]; simpl; [done|]. rewrite (proj2 (Z.eqb_neq a 0)) by done.
  destruct (decide (a = c)) as [->|Hn]; [by rewrite Z.eqb_refl|].
  rewrite (proj2 (Z.eqb_neq a c)) by done. rewrite IH. simpl. by destruct (list_find _ s) as [[i x]|].
Qed.

Lemma umemmove_correct mem dst src n : (dst + n <= length mem)%nat -> (src + n <= length mem)%nat ->
  (dst <= src \/ src + n <= dst)%nat -> umemmove mem dst src n = splice mem dst (slice mem src n).
Proof.
  intros. rewrite <- memmove_correct by done. unfold memmove.
  destruct (decide _); [lia|done].
Qed.
