(* ===== verification/Grep.v ===== *)
(** * grep (grep.c)

  The regular-expression matcher and the loop that reads lines.  Pattern and
  text are the bytes of the C strings up to the terminating 0. *)
From S2P Require Import Prelude CString Ulib.

(** ** The matcher *)
Definition CARET : Z := 94.
Definition DOLLAR : Z := 36.
Definition STAR : Z := 42.
Definition DOT : Z := 46.
Definition NL : Z := 10.

(** [matchstar(c, re, text)], given [matchhere] for [re]. *)
Fixpoint matchstar (here : list Z -> bool) (c : Z) (text : list Z) : bool :=
  if here text then true else
  match text with
  | [] => false
  | t :: text => if (t =? c) || (c =? DOT) then matchstar here c text else false
  end.

Fixpoint matchhere (re text : list Z) {struct re} : bool :=
  match re with
  | [] => true
  | r0 :: re1 =>
      match re1 with
      | r1 :: re2 => if r1 =? STAR then matchstar (matchhere re2) r0 text else
                     match text with
                     | [] => false
                     | t :: text => if (r0 =? DOT) || (r0 =? t) then matchhere re1 text else false
                     end
      | [] => if r0 =? DOLLAR then match text with [] => true | _ => false end else
              match text with
              | [] => false
              | t :: text => if (r0 =? DOT) || (r0 =? t) then matchhere re1 text else false
              end
      end
  end.

(** [match] of grep.c: the pattern anywhere in the text. *)
Fixpoint match_loop (re text : list Z) : bool :=
  if matchhere re text then true else
  match text with [] => false | _ :: text => match_loop re text end.
Definition re_match (re text : list Z) : bool :=
  match re with
  | r0 :: re1 => if r0 =? CARET then matchhere re1 text else match_loop re text
  | [] => match_loop re text
  end.

(** ** Reading lines

    [buf] has 1024 bytes of which one is for the terminating 0.  [read] says
    how many bytes a [read] of at most [max] bytes returns when [inp] is left
    in the file. *)
Notation bufsize := 1024%nat (only parsing).

Fixpoint grep_lines (fuel : nat) (pattern p out : list Z) : option (list Z * list Z) :=
  match fuel with
  | O => None
  | S fuel =>
      r ← strchr (p ++ [0]) NL;
      match r with
      | None => Some (p, out)
      | Some q =>
          grep_lines fuel pattern (drop (S q) p)
            (if re_match pattern (take q p) then out ++ take (S q) p else out)
      end
  end.

Section grep.
Variable read : nat -> list Z -> nat.

(** [m] is the number of bytes of an unfinished line, [pend]. *)
Fixpoint grep_loop (fuel : nat) (pattern pend inp out : list Z) : option (list Z) :=
  match fuel with
  | O => None
  | S fuel =>
      let n := read (bufsize - length pend - 1) inp in
      if (n =? 0)%nat then Some out else
      let data := pend ++ take n inp in
      '(p, out) ← grep_lines (S (length data)) pattern data out;
      let pend := if (length p =? length data)%nat then [] else p in
      grep_loop fuel pattern pend (drop n inp) out
  end.
Definition grep (pattern inp : list Z) : option (list Z) := grep_loop (S (length inp)) pattern [] inp [].
End grep.

(** ** What a pattern means *)
Inductive item := One (c : Z) | Many (c : Z).

(** The items of a pattern after the [^], and whether it ends in [$]. *)
Fixpoint items (re : list Z) : list item * bool :=
  match re with
  | [] => ([], false)
  | r0 :: re1 =>
      match re1 with
      | [] => if r0 =? DOLLAR then ([], true) else ([One r0], false)
      | r1 :: re2 => if r1 =? STAR then let '(l, e) := items re2 in (Many r0 :: l, e)
                     else let '(l, e) := items re1 in (One r0 :: l, e)
      end
  end.

(** The texts a list of items describes. *)
Definition accepts (c t : Z) : Prop := c = DOT \/ c = t.
Inductive lang : list item -> list Z -> Prop :=
| lang_nil : lang [] []
| lang_one c t l x : accepts c t -> lang l x -> lang (One c :: l) (t :: x)
| lang_many c r l x : Forall (accepts c) r -> lang l x -> lang (Many c :: l) (r ++ x).

(** The text contains, at its beginning if [start], what the pattern
    describes, followed by nothing if the pattern ends in [$]. *)
Definition found (start : bool) (re text : list Z) : Prop :=
  exists a x b, text = a ++ x ++ b /\ lang (items re).1 x /\
    (start = true -> a = []) /\ ((items re).2 = true -> b = []).
Definition re_found (re text : list Z) : Prop :=
  match re with
  | r0 :: re1 => if r0 =? CARET then found true re1 text else found false re text
  | [] => found false re text
  end.

(** The lines of a text that end in a newline, and what follows the last. *)
Fixpoint lines (inp : list Z) : list (list Z) * list Z :=
  match inp with
  | [] => ([], [])
  | c :: inp => let '(ls, r) := lines inp in
                if c =? NL then ([] :: ls, r)
                else match ls with l :: ls => ((c :: l) :: ls, r) | [] => ([], c :: r) end
  end.

(** ** The matcher finds what the pattern means *)
Definition starts (re text : list Z) : Prop :=
  exists x b, text = x ++ b /\ lang (items re).1 x /\ ((items re).2 = true -> b = []).

Lemma accepts_bool c t : (c =? DOT) || (c =? t) = true <-> accepts c t.
Proof. rewrite orb_true_iff, !Z.eqb_eq. done. Qed.

Lemma matchstar_spec here c re text :
  (forall text, here text = true <-> starts re text) ->
  matchstar here c text = true <->
  exists r rest, text = r ++ rest /\ Forall (accepts c) r /\ starts re rest.
Proof.
  intros Hh. induction text as [|t text IH]; simpl.
  - destruct (here []) eqn:E.
    + split; [|done]. intros _. exists [], []. by rewrite <- Hh.
    + split; [done|]. intros (r & rest & Hr & _ & Hs). symmetry in Hr. apply app_eq_nil in Hr as [-> ->].
      apply Hh in Hs. congruence.
  - destruct (here (t :: text)) eqn:E; [split; [|done]; intros _; exists [], (t :: text); by rewrite <- Hh|].
    replace ((t =? c) || (c =? DOT)) with ((c =? DOT) || (c =? t)) by (rewrite orb_comm, (Z.eqb_sym t); done).
    destruct ((c =? DOT) || (c =? t)) eqn:Ec.
    + apply accepts_bool in Ec. rewrite IH. split.
      * intros (r & rest & -> & Hr & Hs). exists (t :: r), rest. auto.
      * intros ([|t' r] & rest & Hr & Hf & Hs); simplify_eq/=; [apply Hh in Hs; congruence|].
        apply Forall_cons in Hf as [_ Hf]. eauto.
    + split; [done|]. intros ([|t' r] & rest & Hr & Hf & Hs); simplify_eq/=; [apply Hh in Hs; congruence|].
      apply Forall_cons in Hf as [Hf%accepts_bool _]. congruence.
Qed.

Lemma starts_one c re text :
  (items (c :: re)).1 = One c :: (items re).1 -> (items (c :: re)).2 = (items re).2 ->
  starts (c :: re) text <-> match text with t :: text => accepts c t /\ starts re text | [] => False end.
Proof.
  intros H1 H2. unfold starts. rewrite H1, H2. split.
  - intros (x & b & -> & Hl & Hb). inversion Hl; simplify_eq/=. eauto 10.
  - destruct text as [|t text]; [done|]. intros (Hc & x & b & -> & Hl & Hb).
    exists (t :: x), b. split; [done|]. split; [by constructor|done].
Qed.

Lemma starts_many c re text : starts (c :: STAR :: re) text <->
  exists r rest, text = r ++ rest /\ Forall (accepts c) r /\ starts re rest.
Proof.
  unfold starts. cbn [items]. rewrite Z.eqb_refl. destruct (items re) as [l e]. simpl. split.
  - intros (x & b & -> & Hl & Hb). inversion Hl; simplify_eq/=. eexists _, _. rewrite <- app_assoc. eauto 10.
  - intros (r & ? & -> & Hr & x & b & -> & Hl & Hb). exists (r ++ x), b. rewrite app_assoc. split; [done|].
    split; [by constructor|done].
Qed.

Lemma matchhere_spec re text : matchhere re text = true <-> starts re text.
Proof.
  revert text. induction re as [re IH] using (well_founded_induction (well_founded_ltof _ length)).
  unfold ltof in IH. intros text. destruct re as [|r0 [|r1 re2]].
  - split; [|done]. intros _. exists [], text. repeat split; [constructor|done].
  - cbn [matchhere]. destruct (Z.eqb_spec r0 DOLLAR) as [->|Hn].
    + split.
      * destruct text; [|done]. intros _. exists [], []. repeat split. constructor.
      * intros (x & b & -> & Hl & Hb). cbn in Hl, Hb. inversion Hl. by rewrite Hb by done.
    + assert (items [r0] = ([One r0], false)) as Hi by (cbn [items]; by rewrite (proj2 (Z.eqb_neq _ _) Hn)).
      rewrite starts_one by (by rewrite Hi). destruct text as [|t text]; [done|].
      destruct ((r0 =? DOT) || (r0 =? t)) eqn:E.
      * apply accepts_bool in E. rewrite <- IH by (simpl; lia). simpl. naive_solver.
      * split; [done|]. intros [Ha%accepts_bool _]. congruence.
  - cbn [matchhere]. destruct (Z.eqb_spec r1 STAR) as [->|Hn].
    + rewrite starts_many. apply matchstar_spec. intros. apply IH. simpl. lia.
    + assert (items (r0 :: r1 :: re2) = let '(l, e) := items (r1 :: re2) in (One r0 :: l, e)) as Hi
        by (cbn [items]; by rewrite (proj2 (Z.eqb_neq _ _) Hn)).
      rewrite starts_one by (rewrite Hi; by destruct (items (r1 :: re2))). destruct text as [|t text]; [done|].
      destruct ((r0 =? DOT) || (r0 =? t)) eqn:E.
      * apply accepts_bool in E. change (matchhere (r1 :: re2) text = true <-> accepts r0 t /\ starts (r1 :: re2) text).
        rewrite IH by (simpl; lia). naive_solver.
      * split; [done|]. intros [Ha%accepts_bool _]. congruence.
Qed.

Lemma match_loop_spec re text : match_loop re text = true <-> exists a rest, text = a ++ rest /\ starts re rest.
Proof.
  induction text as [|t text IH]; simpl.
  - destruct (matchhere re []) eqn:E.
    + apply matchhere_spec in E. split; [|done]. intros _. by exists [], [].
    + split; [done|]. intros (a & rest & Ha & Hs%matchhere_spec). symmetry in Ha. apply app_eq_nil in Ha as [-> ->]. congruence.
  - destruct (matchhere re (t :: text)) eqn:E.
    + apply matchhere_spec in E. split; [|done]. intros _. by exists [], (t :: text).
    + rewrite IH. split.
      * intros (a & rest & -> & Hs). by exists (t :: a), rest.
      * intros ([|t' a] & rest & Ha & Hs); simplify_eq/=; [apply matchhere_spec in Hs; congruence|]. eauto.
Qed.

Lemma found_starts s re text : found s re text <->
  exists a rest, text = a ++ rest /\ starts re rest /\ (s = true -> a = []).
Proof.
  unfold found, starts. split.
  - intros (a & x & b & -> & Hl & Ha & Hb). exists a, (x ++ b). eauto 10.
  - intros (a & ? & -> & (x & b & -> & Hl & Hb) & Ha). exists a, x, b. auto.
Qed.

Lemma re_match_spec re text : re_match re text = true <-> re_found re text.
Proof.
  assert (forall r, match_loop r text = true <-> found false r text) as Hf.
  { intros r. rewrite match_loop_spec, found_starts. naive_solver. }
  unfold re_match, re_found. destruct re as [|r0 re]; [apply Hf|].
  destruct (r0 =? CARET); [|apply Hf]. rewrite matchhere_spec, found_starts. split.
  - intros Hs. by exists [], text.
  - intros (a & rest & -> & Hs & ->); done.
Qed.

Global Instance re_found_dec re text : Decision (re_found re text).
Proof. destruct (re_match re text) eqn:E; [left; by apply re_match_spec|right; rewrite <- re_match_spec; congruence]. Defined.

(** ** Lines *)
Lemma lines_none s : NL ∉ s -> lines s = ([], s).
Proof.
  induction s as [|c s IH]; [done|]. rewrite not_elem_of_cons. intros [Hc Hs]. simpl. rewrite IH by done.
  by rewrite (proj2 (Z.eqb_neq c NL)) by congruence.
Qed.

Lemma lines_app s t : lines (s ++ t) = ((lines s).1 ++ (lines ((lines s).2 ++ t)).1, (lines ((lines s).2 ++ t)).2).
Proof.
  induction s as [|c s IH]; simpl; [by destruct (lines t)|]. rewrite IH. destruct (lines s) as [ls r]. simpl.
  destruct (Z.eqb_spec c NL) as [->|Hn]; [done|]. destruct ls as [|l ls]; simpl; [|done].
  rewrite (proj2 (Z.eqb_neq c NL)) by done. by destruct (lines (r ++ t)) as [[|? ?] ?].
Qed.

Lemma lines_line l s : NL ∉ l -> lines (l ++ NL :: s) = (l :: (lines s).1, (lines s).2).
Proof.
  induction l as [|c l IH]; simpl; [by destruct (lines s)|]. rewrite not_elem_of_cons. intros [Hc Hl].
  rewrite IH by done. by rewrite (proj2 (Z.eqb_neq c NL)) by congruence.
Qed.

Lemma first_line s : NL ∈ s -> exists l t, s = l ++ NL :: t /\ NL ∉ l.
Proof.
  induction s as [|c s IH]; [by intros ?%elem_of_nil|]. destruct (decide (c = NL)) as [->|Hn].
  - intros _. exists [], s. split; [done|apply not_elem_of_nil].
  - rewrite elem_of_cons. intros [?|(l & t & -> & Hl)%IH]; [congruence|]. exists (c :: l), t.
    split; [done|]. rewrite not_elem_of_cons. split; [congruence|done].
Qed.

Lemma lines_cases s : (NL ∉ s /\ lines s = ([], s)) \/
  exists l t, s = l ++ NL :: t /\ NL ∉ l /\ lines s = (l :: (lines t).1, (lines t).2).
Proof.
  destruct (decide (NL ∈ s)) as [(l & t & -> & Hl)%first_line|Hn].
  - right. exists l, t. split; [done|]. split; [done|]. by apply lines_line.
  - left. auto using lines_none.
Qed.

Lemma lines_rest s : NL ∉ (lines s).2 /\ (length (lines s).2 <= length s)%nat.
Proof.
  induction s as [s IH] using (well_founded_induction (well_founded_ltof _ length)). unfold ltof in IH.
  destruct (lines_cases s) as [[Hn ->]|(l & t & -> & Hl & ->)]; [done|]. simpl. rewrite length_app. simpl.
  destruct (IH t) as [H1 H2]; [rewrite length_app; simpl; lia|]. split; [done|lia].
Qed.

Lemma lines_rest_Forall (P : Z -> Prop) s : Forall P s -> Forall P (lines s).2.
Proof.
  induction 1 as [|c s Hc Hs IH]; simpl; [done|]. destruct (lines s) as [[|l ls] r]; destruct (c =? NL); simpl in *; auto.
Qed.

(** What is printed for the lines [ls]. *)
Definition printed (pattern : list Z) (ls : list (list Z)) : list Z :=
  concat ((fun l => l ++ [NL]) <$> filter (re_found pattern) ls).

Lemma printed_app pattern l1 l2 : printed pattern (l1 ++ l2) = printed pattern l1 ++ printed pattern l2.
Proof. unfold printed. by rewrite filter_app, fmap_app, concat_app. Qed.

Lemma strchr_none s : Forall (fun c => c <> 0) s -> NL ∉ s -> strchr (s ++ [0]) NL = Some None.
Proof.
  intros Hz Hn. rewrite strchr_cut by done. destruct (list_find _ s) as [[i x]|] eqn:E; [|done].
  apply list_find_Some in E as (Hi & -> & _). by apply list_elem_of_lookup_2 in Hi.
Qed.

Lemma strchr_line l t : Forall (fun c => c <> 0) (l ++ NL :: t) -> NL ∉ l ->
  strchr ((l ++ NL :: t) ++ [0]) NL = Some (Some (length l)).
Proof.
  intros Hz Hn. rewrite strchr_cut by done.
  replace (list_find (fun a => a = NL) (l ++ NL :: t)) with (Some (length l, NL)); [done|].
  symmetry. apply list_find_Some. split; [by rewrite list_lookup_middle|]. split; [done|].
  intros j y Hj Hlt ->. rewrite lookup_app_l in Hj by done. by apply list_elem_of_lookup_2 in Hj.
Qed.

Lemma grep_lines_spec fuel pattern p out : Forall (fun c => c <> 0) p -> (length p < fuel)%nat ->
  grep_lines fuel pattern p out = Some ((lines p).2, out ++ printed pattern (lines p).1).
Proof.
  revert p out. induction fuel as [|fuel IH]; intros p out Hz Hf; [lia|]. cbn [grep_lines].
  destruct (lines_cases p) as [[Hn ->]|(l & t & -> & Hl & ->)].
  - rewrite strchr_none by done. simpl. by rewrite app_nil_r.
  - rewrite strchr_line by done. simpl. rewrite length_app in Hf. simpl in Hf.
    replace (l ++ NL :: t) with ((l ++ [NL]) ++ t) by (by rewrite <- app_assoc).
    rewrite drop_app_length' by (rewrite length_app; simpl; lia).
    rewrite (take_app_length' (l ++ [NL]) t (S (length l))) by (rewrite length_app; simpl; lia).
    rewrite <- app_assoc, take_app_length. apply Forall_app in Hz as [_ [_ Hz]%Forall_cons].
    rewrite IH by (done || lia). f_equal. f_equal.
    unfold printed. rewrite filter_cons. destruct (re_match pattern l) eqn:E.
    + apply re_match_spec in E. rewrite decide_True by done. simpl. by rewrite <- !app_assoc.
    + rewrite decide_False by (rewrite <- re_match_spec; congruence). done.
Qed.

(** A file is read as fully as asked; the console hands out a line at a time:
    a [read] that returns less than asked and present ends with a newline. *)
Definition line_reads (read : nat -> list Z -> nat) : Prop := forall max inp,
  (read max inp <= Nat.min max (length inp))%nat /\ (0 < max -> inp <> [] -> 0 < read max inp)%nat /\
  (read max inp = Nat.min max (length inp) \/ last (take (read max inp) inp) = Some NL).

Section line_reads.
Variable read : nat -> list Z -> nat.
Hypothesis read_lines : line_reads read.
Variable pattern : list Z.

Lemma grep_loop_spec fuel pend inp out :
  Forall (fun c => c <> 0) (pend ++ inp) -> NL ∉ pend -> (length pend < bufsize - 1)%nat ->
  Forall (fun l => length l < bufsize - 1)%nat (lines (pend ++ inp)).1 -> (length inp < fuel)%nat ->
  grep_loop read fuel pattern pend inp out = Some (out ++ printed pattern (lines (pend ++ inp)).1).
Proof.
  revert pend inp out. induction fuel as [|fuel IH]; intros pend inp out Hz Hn Hp Hl Hf; [lia|].
  cbn [grep_loop]. destruct (read_lines (bufsize - length pend - 1)%nat inp) as (Hnn & Hpos & Hfull).
  set (n := read (bufsize - length pend - 1)%nat inp) in *.
  destruct (Nat.eqb_spec n 0) as [H0|H0].
  { destruct inp as [|c inp]; [|specialize (Hpos ltac:(lia) ltac:(done)); lia].
    rewrite app_nil_r, lines_none by done. simpl. by rewrite app_nil_r. }
  set (data := pend ++ take n inp).
  assert (pend ++ inp = data ++ drop n inp) as Hd by (unfold data; by rewrite <- app_assoc, take_drop).
  rewrite Hd in *. pose proof (proj1 (Forall_app _ _ _) Hz) as [Hzd Hzr].
  rewrite grep_lines_spec by (done || lia). simpl. rewrite lines_app in *. simpl in *.
  assert (length data = length pend + n)%nat as Hlen by (unfold data; rewrite length_app, length_take; lia).
  apply Forall_app in Hl as [Hl1 Hl2]. rewrite printed_app, app_assoc.
  destruct (lines_cases data) as [[Hnd E]|(l & t & Et & Hlt & E)]; rewrite E in *; simpl in *.
  - assert (NL ∉ data ++ drop n inp) as Hno.
    { destruct (lines_cases (data ++ drop n inp)) as [[? En]|(l & t & Et & Hlt & En)]; [done|].
      rewrite En in Hl2. apply Forall_cons in Hl2 as [Hl2 _].
      assert (length data <= length l)%nat as Hge.
      { apply Nat.nlt_ge. intros Hlt'. apply Hnd. apply (f_equal (lookup (length l))) in Et.
        rewrite lookup_app_l, list_lookup_middle in Et by done. by apply list_elem_of_lookup_2 in Et. }
      destruct Hfull as [Hfull|Hlast].
      2:{ exfalso. apply Hnd. unfold data. apply elem_of_app. right.
          rewrite last_lookup in Hlast. by apply list_elem_of_lookup_2 in Hlast. }
      rewrite (drop_ge inp) by lia. by rewrite app_nil_r. }
    rewrite Nat.eqb_refl. rewrite (lines_none (data ++ _)) by done. rewrite not_elem_of_app in Hno.
    rewrite IH; simpl; rewrite ?lines_none by tauto; [done|done|apply not_elem_of_nil|lia|constructor|].
    rewrite length_drop. lia.
  - destruct (lines_rest t) as [Hr1 Hr2]. rewrite Et, length_app in Hlen |- *. simpl in Hlen |- *.
    destruct (Nat.eqb_spec (length (lines t).2) (length l + S (length t))) as [?|_]; [lia|].
    rewrite IH; [done| |done|lia|done|rewrite length_drop; lia].
    apply Forall_app. split; [|done]. rewrite Et in Hzd. apply Forall_app in Hzd as [_ [_ Hzd]%Forall_cons].
    by apply lines_rest_Forall.
Qed.
End line_reads.

(** ** Theorem *)

(** C32: grep prints the matching lines: on a text without 0 bytes whose lines
    are shorter than its buffer (less than 1023 bytes), when every [read]
    returns as much as is asked and present or stops after a newline, grep
    terminates and its output is the lines that end in a newline and contain
    what the pattern describes ([^] and [$] anchor it to the line's ends, a
    [.] stands for any character, [c*] for any number of [c]), in order and
    complete, wherever the buffer's boundary cuts them. *)
Theorem grep_correct read pattern inp :
  line_reads read ->
  Forall (fun c => c <> 0) inp -> Forall (fun l => length l < bufsize - 1)%nat (lines inp).1 ->
  grep read pattern inp = Some (concat ((fun l => l ++ [NL]) <$> filter (re_found pattern) (lines inp).1)).
Proof.
  intros Hr Hz Hl. unfold grep. rewrite grep_loop_spec; [done|done|done|apply not_elem_of_nil|simpl; lia|done|lia].
Qed.

Lemma file_reads : line_reads (fun max inp => Nat.min max (length inp)).
Proof. intros max inp. split; [lia|]. split; [|by left]. destruct inp; [done|]. simpl. lia. Qed.

(** "a.*d$" on the lines "abcd", "xad" and "abc". *)
Lemma grep_correct_witness :
  grep (fun max inp => Nat.min max (length inp)) [97; DOT; STAR; 100; DOLLAR]
    [97; 98; 99; 100; NL; 120; 97; 100; NL; 97; 98; 99; NL] = Some [97; 98; 99; 100; NL; 120; 97; 100; NL].
Proof.
  rewrite (grep_correct (fun max inp => Nat.min max (length inp)) [97; DOT; STAR; 100; DOLLAR]
    [97; 98; 99; 100; NL; 120; 97; 100; NL; 97; 98; 99; NL] file_reads
    ltac:(repeat constructor; discriminate) ltac:(apply (bool_decide_unpack _); vm_compute; exact I)).
  vm_compute. reflexivity.
Defined.

(** A line that arrives in pieces is lost: with reads of one byte, as a pipe
    may return, a piece without a newline is dropped. *)
Lemma grep_drops_pieces :
  grep (fun _ inp => Nat.min 1 (length inp)) [97] [97; NL] = Some [] /\
  grep (fun max inp => Nat.min max (length inp)) [97] [97; NL] = Some [97; NL].
Proof. split; vm_compute; reflexivity. Qed.
