(* ===== verification/Printf.v ===== *)
(** * Formatted output (printf.c, and printint and cprintf of console.c)

  The output is the list of the characters given to [putc] or [consputc], in
  order.  The arguments are the words that follow the format on the stack;
  [str] gives the bytes at the address a [%s] argument points to. *)
From S2P Require Import Prelude CString Ulib.

(** ** Numbers *)
Definition digits_upper : list Z := [48; 49; 50; 51; 52; 53; 54; 55; 56; 57; 65; 66; 67; 68; 69; 70].
Definition digits_lower : list Z := [48; 49; 50; 51; 52; 53; 54; 55; 56; 57; 97; 98; 99; 100; 101; 102].
Definition MINUS : Z := 45.
Definition PERCENT : Z := 37.

(** [do buf[i++] = digits[x % base]; while((x /= base) != 0)]: what is stored
    in [buf], in the order of the indices.  A [uint] has at most 32 digits. *)
Fixpoint store_digits (fuel : nat) (digits : list Z) (x base : Z) : option (list Z) :=
  match fuel with
  | O => None
  | S fuel =>
      d ← digits !! Z.to_nat (x mod base);
      if x / base =? 0 then Some [d] else r ← store_digits fuel digits (x / base) base; Some (d :: r)
  end.

(** [buf] has 16 bytes: storing more of them is [None]. *)
Definition printint_with (digits : list Z) (xx base : Z) (sgn : bool) : option (list Z) :=
  let neg := sgn && (xx <? 0) in
  let x := if neg then u32 (- xx) else u32 xx in
  buf ← store_digits 32 digits x base;
  let buf := if neg then buf ++ [MINUS] else buf in
  if (length buf <=? 16)%nat then Some (rev buf) else None.

(** [printint] of printf.c and of console.c. *)
Definition printint (xx base : Z) (sgn : bool) : option (list Z) := printint_with digits_upper xx base sgn.
Definition cons_printint (xx base : Z) (sgn : bool) : option (list Z) := printint_with digits_lower xx base sgn.

(** ** printf and cprintf *)
Section printf.
Variable str : Z -> list Z.

(** "(null)" *)
Notation null_str := [40; 110; 117; 108; 108; 41] (only parsing).

(** The characters of a string. *)
Fixpoint print_str (s : list Z) : option (list Z) :=
  match s with
  | [] => None
  | c :: s => if c =? 0 then Some [] else r ← print_str s; Some (c :: r)
  end.
Definition print_arg (p : Z) : option (list Z) := if p =? 0 then Some null_str else print_str (str p).

(** The output of the conversion [c] and the arguments left. *)
Definition conversion (c : Z) (ap : list Z) : option (list Z * list Z) :=
  if c =? 100 then a ← head ap; o ← printint (s32 a) 10 true; Some (o, tail ap)
  else if (c =? 120) || (c =? 112) then a ← head ap; o ← printint (s32 a) 16 false; Some (o, tail ap)
  else if c =? 115 then a ← head ap; o ← print_arg a; Some (o, tail ap)
  else if c =? 99 then a ← head ap; Some ([a mod 256], tail ap)
  else if c =? PERCENT then Some ([c], ap)
  else Some ([PERCENT; c], ap).

Fixpoint printf_loop (fmt : list Z) (state : bool) (ap : list Z) : option (list Z) :=
  match fmt with
  | [] => None
  | c :: fmt =>
      if c =? 0 then Some [] else
      if state then
        '(o, ap) ← conversion c ap;
        r ← printf_loop fmt false ap; Some (o ++ r)
      else if c =? PERCENT then printf_loop fmt true ap
      else r ← printf_loop fmt false ap; Some (c :: r)
  end.
Definition printf (fmt ap : list Z) : option (list Z) := printf_loop fmt false ap.

(** cprintf knows no [%c]. *)
Definition cons_conversion (c : Z) (ap : list Z) : option (list Z * list Z) :=
  if c =? 100 then a ← head ap; o ← cons_printint (s32 a) 10 true; Some (o, tail ap)
  else if (c =? 120) || (c =? 112) then a ← head ap; o ← cons_printint (s32 a) 16 false; Some (o, tail ap)
  else if c =? 115 then a ← head ap; o ← print_arg a; Some (o, tail ap)
  else if c =? PERCENT then Some ([PERCENT], ap)
  else Some ([PERCENT; c], ap).
Fixpoint cprintf (fmt ap : list Z) : option (list Z) :=
  match fmt with
  | [] => None
  | c :: fmt =>
      if c =? 0 then Some [] else
      if negb (c =? PERCENT) then r ← cprintf fmt ap; Some (c :: r) else
      match fmt with
      | [] => None
      | c :: fmt => if c =? 0 then Some [] else
                    '(o, ap) ← cons_conversion c ap;
                    r ← cprintf fmt ap; Some (o ++ r)
      end
  end.
End printf.

(** ** What numerals mean *)
Definition digit_value (digits : list Z) (c : Z) : Z :=
  match list_find (fun d => d = c) digits with Some (i, _) => Z.of_nat i | None => -1 end.
Definition value (digits : list Z) (base : Z) (ds : list Z) : Z :=
  foldl (fun n c => n * base + digit_value digits c) 0 ds.
Definition signed_value (digits : list Z) (base : Z) (ds : list Z) : Z :=
  match ds with
  | c :: r => if c =? MINUS then - value digits base r else value digits base ds
  | [] => 0
  end.

(** ** Numerals are right *)
Definition digit_set (digits : list Z) : Prop := NoDup digits /\ length digits = 16%nat /\ MINUS ∉ digits.

Lemma digit_set_upper : digit_set digits_upper.
Proof. unfold digit_set. apply (bool_decide_unpack _). vm_compute. exact I. Qed.
Lemma digit_set_lower : digit_set digits_lower.
Proof. unfold digit_set. apply (bool_decide_unpack _). vm_compute. exact I. Qed.

Lemma digit_value_lookup digits i d : NoDup digits -> digits !! i = Some d -> digit_value digits d = Z.of_nat i.
Proof.
  intros Hn Hi. unfold digit_value.
  replace (list_find (fun x => x = d) digits) with (Some (i, d)); [done|]. symmetry. apply list_find_Some.
  split; [done|]. split; [done|]. intros j y Hj Hlt ->. pose proof (NoDup_lookup _ _ _ _ Hn Hi Hj). lia.
Qed.

Definition is_digit (digits : list Z) (base c : Z) : Prop := exists i, digits !! i = Some c /\ Z.of_nat i < base.

(** The digits stored are the numeral of [x], least significant first. *)
Lemma store_digits_spec digits base fuel x : digit_set digits -> 2 <= base <= 16 ->
  0 <= x < base ^ Z.of_nat fuel -> (0 < fuel)%nat ->
  exists ds d, store_digits fuel digits x base = Some (ds ++ [d]) /\ Forall (is_digit digits base) (ds ++ [d]) /\
    value digits base (d :: rev ds) = x /\ (length ds < fuel)%nat /\
    (forall k, x < base ^ Z.of_nat (S k) -> (length ds <= k)%nat) /\ (ds = [] \/ digit_value digits d <> 0).
Proof.
  intros (Hn & Hl & Hm) Hb. revert x. induction fuel as [|fuel IH]; intros x Hx Hf; [lia|].
  cbn [store_digits]. pose proof (Z.mod_pos_bound x base ltac:(lia)) as Hmod.
  destruct (lookup_lt_is_Some_2 digits (Z.to_nat (x mod base))) as [d Hd]; [lia|]. rewrite Hd. simpl.
  assert (is_digit digits base d) as Hin by (exists (Z.to_nat (x mod base)); split; [done|lia]).
  pose proof (digit_value_lookup _ _ _ Hn Hd) as Hv. rewrite Z2Nat.id in Hv by lia.
  pose proof (Z.div_mod x base ltac:(lia)) as Hdm.
  destruct (Z.eqb_spec (x / base) 0) as [E|E].
  - exists [], d. simpl. split; [done|]. split; [by constructor|]. unfold value. simpl. split; [nia|]. split; [lia|]. split; [lia|by left].
  - assert (0 < x / base) as Hp by (pose proof (Z.div_pos x base); lia).
    destruct fuel as [|fuel'].
    { rewrite Z.pow_1_r in Hx. rewrite Z.div_small in E by lia. lia. }
    assert (x / base < base ^ Z.of_nat (S fuel')) as Hlt.
    { apply Z.div_lt_upper_bound; [lia|]. rewrite (Nat2Z.inj_succ (S fuel')), Z.pow_succ_r in Hx by lia. lia. }
    destruct (IH (x / base) ltac:(lia) ltac:(lia)) as (ds & d' & -> & Hall & Hval & Hlen & Hk & Hnz).
    exists (d :: ds), d'. simpl. split; [done|]. split; [by constructor|]. split; [|split; [lia|split]].
    + unfold value in *. rewrite app_comm_cons, foldl_app. rewrite Hval. simpl. lia.
    + intros k Hk'. destruct k as [|k].
      * rewrite Z.pow_1_r in Hk'. rewrite Z.div_small in E by lia. lia.
      * enough (length ds <= k)%nat by lia. apply Hk. apply Z.div_lt_upper_bound; [lia|].
        rewrite (Nat2Z.inj_succ (S k)), Z.pow_succ_r in Hk' by lia. lia.
    + right. destruct Hnz as [->|Hnz]; [|done]. intros Hz. unfold value in Hval. simpl in Hval. lia.
Qed.

Lemma digit_not_minus digits base c : digit_set digits -> is_digit digits base c -> (c =? MINUS) = false.
Proof. intros (_ & _ & Hm) (i & Hc%list_elem_of_lookup_2 & _). apply Z.eqb_neq. by intros ->. Qed.

Definition neg_of (sgn : bool) (xx : Z) : bool := sgn && (xx <? 0).

(** [printint]: at most [k] digits when [base ^ k] exceeds what is printed. *)
Lemma printint_spec digits xx base (sgn : bool) (k : nat) : digit_set digits -> 10 <= base <= 16 -> - 2 ^ 31 <= xx < 2 ^ 31 ->
  Z.abs (if sgn then xx else u32 xx) < base ^ Z.of_nat (S k) -> (k < 15)%nat ->
  exists out, printint_with digits xx base sgn = Some out /\
    signed_value digits base out = (if sgn then xx else u32 xx) /\ (out <> [] /\ (neg_of sgn xx = true -> head out = Some MINUS)) /\
    (0 <= (if sgn then xx else u32 xx) -> Forall (is_digit digits base) out) /\
    (length out <= S k + (if neg_of sgn xx then 1 else 0))%nat.
Proof.
  intros Hd Hb Hx Hk Hk15. unfold printint_with. fold (neg_of sgn xx). set (neg := neg_of sgn xx).
  set (x := if neg then u32 (- xx) else u32 xx).
  assert (0 <= x < 2 ^ 32 /\ x = Z.abs (if sgn then xx else u32 xx) /\ (if sgn then xx else u32 xx) = (if neg then - x else x))
    as (Hx0 & Ha & Hs).
  { pose proof (u32_range xx). unfold x, neg, neg_of. destruct sgn; simpl; [|split; [lia|]; split; lia].
    destruct (Z.ltb_spec xx 0); [rewrite (u32_small (- xx)) by lia|rewrite u32_small by lia]; lia. }
  rewrite <- Ha in Hk. assert (0 <= x < base ^ Z.of_nat 32) as Hx32.
  { split; [lia|]. assert (10 ^ 32 <= base ^ 32) by (apply Z.pow_le_mono_l; lia). lia. }
  destruct (store_digits_spec digits base 32 x Hd ltac:(lia) Hx32 ltac:(lia)) as (ds & d & -> & Hall & Hval & _ & Hlen & _).
  specialize (Hlen k Hk). cbn [mbind option_bind].
  assert (length (ds ++ [d]) <= S k)%nat as Hl by (rewrite length_app; simpl; lia).
  assert (rev (ds ++ [d]) = d :: rev ds) as Hrev by (rewrite rev_app_distr; done).
  assert (Forall (is_digit digits base) (d :: rev ds)) as Hall' by (rewrite <- Hrev; by apply Forall_rev).
  destruct neg eqn:En.
  - rewrite (proj2 (Nat.leb_le _ _)) by (rewrite length_app; simpl; lia). eexists. split; [done|].
    rewrite rev_app_distr, Hrev. simpl. rewrite Hval, Hs. split; [done|]. split; [by split|].
    split; [|rewrite length_rev; rewrite length_app in Hl; simpl in Hl; lia].
    intros Hge. unfold neg, neg_of in En. destruct sgn; [|done]. simpl in En. lia.
  - rewrite (proj2 (Nat.leb_le _ _)) by lia. eexists. split; [done|]. rewrite Hrev. simpl.
    rewrite (digit_not_minus digits base) by (done || by apply Forall_cons in Hall' as [? _]).
    rewrite Hval, Hs. split; [done|]. split; [split; [done|intros Hc; unfold neg in En; congruence]|]. split; [done|].
    rewrite length_rev. rewrite length_app in Hl. simpl in Hl. lia.
Qed.

(** ** The conversions in context *)
Definition literal (c : Z) : Prop := c <> 0 /\ c <> PERCENT.

Lemma printf_literal str pre fmt ap : Forall literal pre ->
  printf str (pre ++ fmt) ap = (r ← printf str fmt ap; Some (pre ++ r)).
Proof.
  induction 1 as [|c pre [H0 Hp] _ IH]; [by destruct (printf _ _ _)|]. unfold printf in *. cbn [app printf_loop].
  rewrite (proj2 (Z.eqb_neq _ _) H0), (proj2 (Z.eqb_neq _ _) Hp), IH. by destruct (printf_loop _ fmt _ _).
Qed.
Lemma cprintf_literal str pre fmt ap : Forall literal pre ->
  cprintf str (pre ++ fmt) ap = (r ← cprintf str fmt ap; Some (pre ++ r)).
Proof.
  induction 1 as [|c pre [H0 Hp] _ IH]; [by destruct (cprintf _ _ _)|]. cbn [app cprintf].
  rewrite (proj2 (Z.eqb_neq _ _) H0), (proj2 (Z.eqb_neq _ _) Hp). cbn [negb]. rewrite IH. by destruct (cprintf _ fmt _).
Qed.

Lemma s32_u32 x : - 2 ^ 31 <= x < 2 ^ 31 -> s32 (u32 x) = x.
Proof.
  intros. unfold s32, u32. rewrite Z.mod_mod by lia. fold (s32 x). by apply s32_small.
Qed.

Section conversions.
Context (str : Z -> list Z) (pre post ap : list Z) (x : Z) (out : list Z).
Hypothesis (Hpre : Forall literal pre) (Hx : - 2 ^ 31 <= x < 2 ^ 31).
Ltac conv E := unfold PERCENT; cbn [Z.eqb Pos.eqb mbind option_bind head tail orb negb]; rewrite s32_u32 by exact Hx; rewrite E;
  cbn [mbind option_bind].

Lemma printf_conv_d : printint x 10 true = Some out ->
  printf str (pre ++ PERCENT :: 100 :: post) (u32 x :: ap) = (r ← printf str post ap; Some (pre ++ out ++ r)).
Proof.
  intros E. rewrite printf_literal by exact Hpre. unfold printf. cbn [printf_loop]. unfold conversion.
  conv E.
  by destruct (printf_loop str post _ _).
Qed.
Lemma printf_conv_x : printint x 16 false = Some out ->
  printf str (pre ++ PERCENT :: 120 :: post) (u32 x :: ap) = (r ← printf str post ap; Some (pre ++ out ++ r)).
Proof.
  intros E. rewrite printf_literal by exact Hpre. unfold printf. cbn [printf_loop]. unfold conversion. conv E.
  by destruct (printf_loop str post _ _).
Qed.
Lemma cprintf_conv_d : cons_printint x 10 true = Some out ->
  cprintf str (pre ++ PERCENT :: 100 :: post) (u32 x :: ap) = (r ← cprintf str post ap; Some (pre ++ out ++ r)).
Proof.
  intros E. rewrite cprintf_literal by exact Hpre. cbn [cprintf]. unfold cons_conversion. conv E.
  by destruct (cprintf str post _).
Qed.
Lemma cprintf_conv_x : cons_printint x 16 false = Some out ->
  cprintf str (pre ++ PERCENT :: 120 :: post) (u32 x :: ap) = (r ← cprintf str post ap; Some (pre ++ out ++ r)).
Proof.
  intros E. rewrite cprintf_literal by exact Hpre. cbn [cprintf]. unfold cons_conversion. conv E.
  by destruct (cprintf str post _).
Qed.
End conversions.

(** [atoi] of decimal digits is their value. *)
Definition dec_step (n c : Z) : Z := n * 10 + digit_value digits_upper c.

Lemma digit_char c : is_digit digits_upper 10 c -> 48 <= c <= 57 /\ digit_value digits_upper c = c - 48.
Proof.
  intros (i & Hi & Hlt). do 10 (destruct i as [|i]; [injection Hi as <-; vm_compute; split; [split|]; congruence|]). lia.
Qed.

Lemma dec_step_ge ds n : Forall (is_digit digits_upper 10) ds -> 0 <= n -> n <= foldl dec_step n ds.
Proof.
  intros Hd. revert n. induction Hd as [|c ds Hc%digit_char _ IH]; intros n Hn; simpl; [lia|].
  etrans; [|apply IH]; unfold dec_step; lia.
Qed.

Lemma atoi_digits ds n : Forall (is_digit digits_upper 10) ds -> 0 <= n -> foldl dec_step n ds < 2 ^ 31 ->
  atoi_loop n (ds ++ [0]) = Some (foldl dec_step n ds).
Proof.
  intros Hd. revert n. induction Hd as [|c ds Hc Hds IH]; intros n Hn Hlt; [done|]. simpl in *.
  apply digit_char in Hc as [Hc Hv]. rewrite (proj2 (Z.leb_le 48 c)), (proj2 (Z.leb_le c 57)) by lia. simpl.
  pose proof (dec_step_ge ds (dec_step n c) Hds ltac:(unfold dec_step; lia)) as Hge.
  rewrite s32_small by (unfold dec_step in *; lia).
  replace (n * 10 + c - 48) with (dec_step n c) by (unfold dec_step; lia). apply IH; [unfold dec_step; lia|done].
Qed.

(** ** Theorem *)

(** C34: Numbers print as their numerals: in a format with literal text before
    it, [%d] of any [int] prints, in both printfs, at most ten digits after an
    optional minus sign (never more than the 16 bytes of [buf]) whose value is
    the number, the most negative one included; [atoi] reads the digits of the
    user printf back when the number is not negative, and returns 0 for a
    numeral with a minus sign, which it does not know; [%x] prints at most
    eight digits whose value is the argument as a [uint]. *)
Theorem printf_numbers str pre post x ap : Forall literal pre -> - 2 ^ 31 <= x < 2 ^ 31 ->
  (exists out, (length out <= 11)%nat /\ signed_value digits_upper 10 out = x /\
     atoi (out ++ [0]) = Some (if 0 <=? x then x else 0) /\
     printf str (pre ++ PERCENT :: 100 :: post) (u32 x :: ap) = (r ← printf str post ap; Some (pre ++ out ++ r))) /\
  (exists out, (length out <= 11)%nat /\ signed_value digits_lower 10 out = x /\
     cprintf str (pre ++ PERCENT :: 100 :: post) (u32 x :: ap) = (r ← cprintf str post ap; Some (pre ++ out ++ r))) /\
  (exists out, (length out <= 8)%nat /\ signed_value digits_upper 16 out = u32 x /\
     printf str (pre ++ PERCENT :: 120 :: post) (u32 x :: ap) = (r ← printf str post ap; Some (pre ++ out ++ r))) /\
  (exists out, (length out <= 8)%nat /\ signed_value digits_lower 16 out = u32 x /\
     cprintf str (pre ++ PERCENT :: 120 :: post) (u32 x :: ap) = (r ← cprintf str post ap; Some (pre ++ out ++ r))).
Proof.
  intros Hp Hx. pose proof (u32_range x) as Hu.
  destruct (printint_spec digits_upper x 10 true 9 digit_set_upper) as (o1 & E1 & V1 & [N1 M1] & D1 & L1); [lia..|].
  destruct (printint_spec digits_lower x 10 true 9 digit_set_lower) as (o2 & E2 & V2 & _ & _ & L2); [lia..|].
  destruct (printint_spec digits_upper x 16 false 7 digit_set_upper) as (o3 & E3 & V3 & _ & _ & L3); [lia..|].
  destruct (printint_spec digits_lower x 16 false 7 digit_set_lower) as (o4 & E4 & V4 & _ & _ & L4); [lia..|].
  assert (forall n k b, n <= k + (if b : bool then 1 else 0) -> n <= S k)%nat as Hb by (intros ? ? []; lia).
  split; [exists o1|split; [exists o2|split; [exists o3|exists o4]]].
  - split; [exact (Hb _ _ _ L1)|]. split; [done|]. split; [|by apply printf_conv_d].
    destruct (Z.leb_spec 0 x) as [Hge|Hlt]; [|].
    2:{ unfold neg_of in M1. rewrite (proj2 (Z.ltb_lt x 0) Hlt) in M1. destruct o1 as [|c o1]; [done|]. by injection (M1 eq_refl) as ->. }
    specialize (D1 Hge). destruct o1 as [|c o1]; [done|]. cbn [signed_value] in V1.
    rewrite (digit_not_minus digits_upper 10) in V1 by (apply digit_set_upper || by apply Forall_cons in D1 as [? _]).
    unfold atoi. rewrite <- V1 in Hx |- *. apply atoi_digits; [done|lia|]. apply Hx.
  - split; [exact (Hb _ _ _ L2)|]. split; [done|]. by apply cprintf_conv_d.
  - split; [simpl in L3; lia|]. split; [done|]. by apply printf_conv_x.
  - split; [simpl in L4; lia|]. split; [done|]. by apply cprintf_conv_x.
Qed.

Lemma printf_numbers_witness : exists out, signed_value digits_upper 10 out = - 2 ^ 31 /\
  printf (fun _ => []) [110; PERCENT; 100; 0] [u32 (- 2 ^ 31)] = Some ([110] ++ out ++ []).
Proof.
  destruct (printf_numbers (fun _ => []) [110] [0] (- 2 ^ 31) []) as [(out & _ & V & _ & E) _].
  - repeat constructor; discriminate.
  - split; [done|reflexivity].
  - exists out. split; [exact V|exact E].
Defined.
