(* ===== verification/Console.v ===== *)
(** * The console (console.c): line editing, reading, and the screen

  The keyboard and the serial port deliver characters to [consoleintr]; a
  process reads the lines from the circular buffer [input].  The lock
  [cons.lock] makes every operation below atomic. *)
From S2P Require Import Prelude.

(** ** The input buffer *)
Notation INPUT_BUF := 128 (only parsing).
Notation BACKSPACE := 0x100 (only parsing).
Definition C (x : Z) : Z := x - 64.
Definition NL : Z := 10.
Definition CR : Z := 13.
Definition DEL : Z := 127.

Record input := mk_input {
  i_buf : list Z;
  i_r : Z;
  i_w : Z;
  i_e : Z
}.
Definition input0 : input := mk_input (replicate (Z.to_nat INPUT_BUF) 0) 0 0 0.
Definition slot (x : Z) : nat := Z.to_nat (x mod INPUT_BUF).
Definition char_at (i : input) (x : Z) : Z := default 0 (i_buf i !! slot x).

(** [case C('U')]: the characters erased are as many as backspaces printed. *)
Fixpoint kill_line (fuel : nat) (i : input) (echo : list Z) : input * list Z :=
  match fuel with
  | O => (i, echo)
  | S fuel =>
      if negb (i_e i =? i_w i) && negb (char_at i (u32 (i_e i - 1)) =? NL)
      then kill_line fuel (mk_input (i_buf i) (i_r i) (i_w i) (u32 (i_e i - 1))) (echo ++ [BACKSPACE])
      else (i, echo)
  end.

(** One character in [consoleintr]: the buffer, what is given to [consputc],
    and whether the readers are woken up. *)
Definition consoleintr_key (c : Z) (i : input) : input * list Z * bool :=
  if c =? C 80 then (i, [], false)
  else if c =? C 85 then
    let '(i, echo) := kill_line (Z.to_nat (u32 (i_e i - i_w i))) i [] in (i, echo, false)
  else if (c =? C 72) || (c =? DEL) then
    if negb (i_e i =? i_w i) then (mk_input (i_buf i) (i_r i) (i_w i) (u32 (i_e i - 1)), [BACKSPACE], false)
    else (i, [], false)
  else if negb (c =? 0) && (u32 (i_e i - i_r i) <? INPUT_BUF) then
    let c := if c =? CR then NL else c in
    let e := u32 (i_e i + 1) in
    let buf := <[slot (i_e i) := c]> (i_buf i) in
    if (c =? NL) || (c =? C 68) || (e =? u32 (i_r i + INPUT_BUF))
    then (mk_input buf (i_r i) e e, [c], true)
    else (mk_input buf (i_r i) (i_w i) e, [c], false)
  else (i, [], false).

(** [consoleintr(getc)] with the characters that [getc] returns before it
    returns -1; the last result says whether [procdump] is called. *)
Fixpoint consoleintr (cs : list Z) (i : input) : input * list Z * bool * bool :=
  match cs with
  | [] => (i, [], false, false)
  | c :: cs =>
      let '(i, e1, w1) := consoleintr_key c i in
      let '(i, e2, w2, d) := consoleintr cs i in
      (i, e1 ++ e2, w1 || w2, (c =? C 80) || d)
  end.

(** [consoleread]: the call ends, or sleeps with [n] bytes still wanted, or
    finds the process killed. *)
Inductive cread :=
| CDone (dst : list Z)
| CSleep (dst : list Z) (n : nat)
| CKilled.

Fixpoint consoleread_loop (killed : bool) (target n : nat) (dst : list Z) (i : input) : input * cread :=
  match n with
  | O => (i, CDone dst)
  | S n' =>
      if i_r i =? i_w i then (i, if killed then CKilled else CSleep dst n) else
      let c := char_at i (i_r i) in
      let i' := mk_input (i_buf i) (u32 (i_r i + 1)) (i_w i) (i_e i) in
      if c =? C 68 then
        (if (n <? target)%nat then mk_input (i_buf i') (u32 (i_r i' - 1)) (i_w i') (i_e i') else i', CDone dst)
      else if c =? NL then (i', CDone (dst ++ [c]))
      else consoleread_loop killed target n' (dst ++ [c]) i'
  end.
(** A call that slept goes on with the bytes it has and the [n] it wants. *)
Definition consoleread (killed : bool) (dst : list Z) (n : nat) (i : input) : input * cread :=
  consoleread_loop killed (length dst + n) n dst i.

(** ** The screen

    [crt] is the display memory, a cell per character; [pos] is the cursor
    position in the controller's registers. *)
Record screen := mk_screen {
  crt : list Z;
  pos : Z
}.
Definition CRTSIZE : nat := Z.to_nat 16384.

Definition cgaputc (c : Z) (s : screen) : option screen :=
  let '(m, p) :=
    if c =? NL then (crt s, pos s + (80 - pos s mod 80))
    else if c =? BACKSPACE then (crt s, if 0 <? pos s then pos s - 1 else pos s)
    else (<[Z.to_nat (pos s) := Z.lor (Z.land c 0xff) 0x0700]> (crt s), pos s + 1) in
  if (p <? 0) || (25 * 80 <? p) then None else
  let '(m, p) :=
    if 24 <=? p / 80 then
      let m := splice m 0 (slice m 80 (23 * 80)) in
      (splice m (Z.to_nat (p - 80)) (replicate (Z.to_nat (24 * 80 - (p - 80))) 0), p - 80)
    else (m, p) in
  Some (mk_screen (<[Z.to_nat p := Z.lor 32 0x0700]> m) p).

(** [consputc]: what goes to the serial port, and the screen. *)
Definition consputc (c : Z) (s : screen) : option (list Z * screen) :=
  s ← cgaputc c s;
  Some (if c =? BACKSPACE then [8; 32; 8] else [c], s).

(** ** What the console promises

    The characters ready to be read, and the line being edited. *)
Definition line_state : Type := list Z * list Z.

(** Typing a character: control-U and backspace edit the current line only; a
    newline, control-D or the last free byte completes it; when 128
    characters are waiting, characters are discarded. *)
Definition type_key (c : Z) (a : line_state) : line_state * list Z * bool :=
  let '(rdy, ed) := a in
  if c =? C 80 then (a, [], false)
  else if c =? C 85 then ((rdy, []), replicate (length ed) BACKSPACE, false)
  else if (c =? C 72) || (c =? DEL) then
    ((rdy, take (length ed - 1) ed), replicate (Nat.min 1 (length ed)) BACKSPACE, false)
  else if (c =? 0) || (128 <=? length rdy + length ed)%nat then (a, [], false)
  else
    let c := if c =? CR then NL else c in
    let ed := ed ++ [c] in
    if (c =? NL) || (c =? C 68) || (length rdy + length ed =? 128)%nat then ((rdy ++ ed, []), [c], true)
    else ((rdy, ed), [c], false).
Fixpoint type_keys (cs : list Z) (a : line_state) : line_state * list Z * bool * bool :=
  match cs with
  | [] => (a, [], false, false)
  | c :: cs =>
      let '(a, e1, w1) := type_key c a in
      let '(a, e2, w2, d) := type_keys cs a in
      (a, e1 ++ e2, w1 || w2, (c =? C 80) || d)
  end.

(** Reading takes ready characters up to a newline, inclusive, or up to a
    control-D, which is left for the next call unless nothing was read. *)
Fixpoint take_line (killed : bool) (target n : nat) (dst rdy : list Z) : list Z * cread :=
  match n, rdy with
  | O, _ => (rdy, CDone dst)
  | S _, [] => ([], if killed then CKilled else CSleep dst n)
  | S n', c :: rdy' =>
      if c =? C 68 then (if (n <? target)%nat then rdy else rdy', CDone dst)
      else if c =? NL then (rdy', CDone (dst ++ [c]))
      else take_line killed target n' (dst ++ [c]) rdy'
  end.

(** What happens at the console, and what is seen of it. *)
Inductive event := Typed (cs : list Z) | Read (killed : bool) (dst : list Z) (n : nat).
Inductive seen := Echo (e : list Z) (wakeup dump : bool) | Got (r : cread).

Definition do_event (ev : event) (i : input) : input * seen :=
  match ev with
  | Typed cs => let '(i, e, w, d) := consoleintr cs i in (i, Echo e w d)
  | Read killed dst n => let '(i, r) := consoleread killed dst n i in (i, Got r)
  end.
Definition spec_event (ev : event) (a : line_state) : line_state * seen :=
  match ev with
  | Typed cs => let '(a, e, w, d) := type_keys cs a in (a, Echo e w d)
  | Read killed dst n => let '(rdy, r) := take_line killed (length dst + n) n dst a.1 in ((rdy, a.2), Got r)
  end.
Fixpoint run_events {S} (f : event -> S -> S * seen) (evs : list event) (s : S) : S * list seen :=
  match evs with
  | [] => (s, [])
  | ev :: evs => let '(s, o) := f ev s in let '(s, os) := run_events f evs s in (s, o :: os)
  end.

(** ** The circular buffer holds them *)
Definition chars (buf : list Z) (a : Z) (n : nat) : list Z :=
  (fun k => default 0 (buf !! slot (a + Z.of_nat k))) <$> seq 0 n.

Record holds (i : input) (rdy ed : list Z) (R W E : Z) : Prop := {
  h_len : length (i_buf i) = 128%nat;
  h_r : i_r i = u32 R;
  h_w : i_w i = u32 W;
  h_e : i_e i = u32 E;
  h_order : R <= W <= E /\ E <= R + INPUT_BUF;
  h_rdy : rdy = chars (i_buf i) R (Z.to_nat (W - R));
  h_ed : ed = chars (i_buf i) W (Z.to_nat (E - W));
  h_nl : NL ∉ ed
}.
Arguments h_len {_ _ _ _ _ _} _.
Arguments h_r {_ _ _ _ _ _} _.
Arguments h_w {_ _ _ _ _ _} _.
Arguments h_e {_ _ _ _ _ _} _.
Arguments h_order {_ _ _ _ _ _} _.
Arguments h_rdy {_ _ _ _ _ _} _.
Arguments h_ed {_ _ _ _ _ _} _.
Arguments h_nl {_ _ _ _ _ _} _.

Lemma slot_u32 x : slot (u32 x) = slot x.
Proof.
  unfold slot, u32. f_equal. rewrite <- (Znumtheory.Zmod_div_mod 128 (2 ^ 32)); [done|lia|lia|].
  by exists (2 ^ 25).
Qed.

Lemma char_at_u32 i x : char_at i (u32 x) = default 0 (i_buf i !! slot x).
Proof. unfold char_at. by rewrite slot_u32. Qed.

Lemma u32_diff a b : 0 <= a - b < 2 ^ 32 -> u32 (u32 a - u32 b) = a - b.
Proof. intros. unfold u32. rewrite <- Zminus_mod. by apply Z.mod_small. Qed.
Lemma u32_plus a b : u32 (u32 a + b) = u32 (a + b).
Proof. unfold u32. by rewrite Zplus_mod_idemp_l. Qed.
Lemma u32_eqb a b : 0 <= a - b < 2 ^ 32 -> (u32 a =? u32 b) = (a =? b).
Proof.
  intros H. destruct (Z.eqb_spec a b) as [->|Hn]; [apply Z.eqb_refl|]. apply Z.eqb_neq. intros He.
  pose proof (u32_diff a b H) as Hd. rewrite He, Z.sub_diag in Hd. change (u32 0) with 0 in Hd. lia.
Qed.

Lemma length_chars buf a n : length (chars buf a n) = n.
Proof. unfold chars. by rewrite length_fmap, length_seq. Qed.

Lemma chars_app buf a n m : chars buf a (n + m) = chars buf a n ++ chars buf (a + Z.of_nat n) m.
Proof.
  unfold chars. rewrite seq_app, fmap_app. f_equal. simpl. rewrite <- (Nat.add_0_r n) at 1.
  rewrite <- fmap_add_seq, <- list_fmap_compose. apply list_fmap_ext. intros j k _. simpl. do 3 f_equal. lia.
Qed.
Lemma chars_cons buf a n : chars buf a (S n) = default 0 (buf !! slot a) :: chars buf (a + 1) n.
Proof. change (S n) with (1 + n)%nat. rewrite chars_app. unfold chars at 1. simpl. by rewrite Z.add_0_r. Qed.

Lemma slot_inj a b : a <= b < a + INPUT_BUF -> slot a = slot b -> a = b.
Proof.
  unfold slot. intros H He. pose proof (Z.mod_pos_bound a 128). pose proof (Z.mod_pos_bound b 128).
  apply Z2Nat.inj in He; [|lia..]. pose proof (Z.div_mod a 128). pose proof (Z.div_mod b 128). nia.
Qed.

Lemma chars_put buf a n x c : (Z.of_nat n <= x - a) -> x - a < INPUT_BUF ->
  chars (<[slot x := c]> buf) a n = chars buf a n.
Proof.
  intros H1 H2. unfold chars. apply list_fmap_ext. intros j k Hk. apply lookup_seq in Hk as [-> Hk].
  rewrite list_lookup_insert_ne; [done|]. intros He. symmetry in He. apply slot_inj in He; lia.
Qed.

Lemma h_total i rdy ed R W E : holds i rdy ed R W E -> Z.of_nat (length rdy + length ed) = E - R.
Proof. intros H. rewrite (h_rdy H), (h_ed H), !length_chars. pose proof (h_order H). lia. Qed.

(** Moving the edit index back by [k] drops the last [k] characters. *)
Lemma holds_erase i rdy ed R W E k : holds i rdy ed R W E -> 0 <= k <= E - W ->
  holds (mk_input (i_buf i) (i_r i) (i_w i) (u32 (E - k))) rdy (take (Z.to_nat (E - W - k)) ed) R W (E - k).
Proof.
  intros H Hk. pose proof (h_order H). split; simpl; try apply H; try done; try lia.
  - rewrite (h_ed H). simpl. replace (Z.to_nat (E - W)) with (Z.to_nat (E - W - k) + Z.to_nat k)%nat by lia.
    rewrite chars_app, take_app_length' by (by rewrite length_chars). f_equal. lia.
  - intros Hin. apply (h_nl H). simpl. by apply elem_of_take in Hin as (j & Hj & _); apply list_elem_of_lookup_2 in Hj.
Qed.

Lemma holds_last i rdy ed R W E : holds i rdy ed R W E -> W < E -> char_at i (u32 (u32 E - 1)) <> NL.
Proof.
  intros H Hlt Hc. apply (h_nl H). simpl. pose proof (h_order H).
  pose proof (h_ed H) as Hed. simpl in Hed. rewrite Hed.
  replace (Z.to_nat (E - W)) with (Z.to_nat (E - W - 1) + 1)%nat by lia. rewrite chars_app, elem_of_app. right.
  rewrite chars_cons. replace (W + Z.of_nat (Z.to_nat (E - W - 1))) with (E - 1) by lia.
  change (u32 E - 1) with (u32 E + -1) in Hc. rewrite u32_plus, char_at_u32 in Hc.
  replace (E + -1) with (E - 1) in Hc by lia. rewrite Hc. by left.
Qed.

Lemma kill_line_spec n i rdy ed R W E echo : holds i rdy ed R W E -> n = Z.to_nat (E - W) ->
  exists i', kill_line n i echo = (i', echo ++ replicate n BACKSPACE) /\ holds i' rdy [] R W W.
Proof.
  revert i ed E echo. induction n as [|n IH]; intros i ed E echo H Hn; pose proof (h_order H) as Ho; cbn [kill_line].
  - exists i. rewrite app_nil_r. split; [done|]. assert (E = W) as -> by lia.
    pose proof (h_ed H) as Hed. simpl in Hed. by rewrite Z.sub_diag in Hed; rewrite Hed in H.
  - rewrite (h_e H), (h_w H), u32_eqb, (proj2 (Z.eqb_neq E W)) by (lia).
    rewrite (proj2 (Z.eqb_neq _ NL)) by (eapply holds_last; [done|lia]). cbn [negb andb].
    pose proof (holds_erase i rdy ed R W E 1 H ltac:(lia)) as H'.
    rewrite (h_w H) in H'.
    replace (u32 (u32 E - 1)) with (u32 (E - 1)) by (change (u32 E - 1) with (u32 E + -1); by rewrite u32_plus).
    destruct (IH _ _ _ (echo ++ [BACKSPACE]) H' ltac:(lia)) as (i' & Ek & Hi'). exists i'.
    rewrite Ek, <- app_assoc. split; done.
Qed.

(** A character appended to the line, which ends at [W']. *)
Lemma holds_put i rdy ed R W E c rdy' ed' W' : holds i rdy ed R W E -> E < R + INPUT_BUF ->
  (W' = W /\ rdy' = rdy /\ ed' = ed ++ [c] /\ c <> NL \/ W' = E + 1 /\ rdy' = rdy ++ ed ++ [c] /\ ed' = []) ->
  holds (mk_input (<[slot (i_e i) := c]> (i_buf i)) (i_r i) (u32 W') (u32 (E + 1))) rdy' ed' R W' (E + 1).
Proof.
  intros H Hlt Hc. pose proof (h_order H) as Ho. rewrite (h_e H), slot_u32.
  assert (chars (<[slot E := c]> (i_buf i)) E 1 = [c]) as Hone.
  { rewrite chars_cons, list_lookup_insert_eq; [done|]. rewrite (h_len H). unfold slot.
    pose proof (Z.mod_pos_bound E 128). lia. }
  assert (chars (<[slot E := c]> (i_buf i)) W (Z.to_nat (E - W) + 1) = ed ++ [c]) as Hed.
  { rewrite chars_app, chars_put by lia. replace (W + Z.of_nat (Z.to_nat (E - W))) with E by lia.
    rewrite Hone. f_equal. symmetry. apply (h_ed H). }
  assert (chars (<[slot E := c]> (i_buf i)) R (Z.to_nat (W - R)) = rdy) as Hrdy.
  { rewrite chars_put by lia. symmetry. apply (h_rdy H). }
  split; simpl; try done; try apply H; try lia; [by rewrite length_insert; apply H| | |].
  - destruct Hc as [(-> & -> & _)|(-> & -> & _)]; [by rewrite Hrdy|].
    replace (Z.to_nat (E + 1 - R)) with (Z.to_nat (W - R) + (Z.to_nat (E - W) + 1))%nat by lia.
    rewrite chars_app, Hrdy. replace (R + Z.of_nat (Z.to_nat (W - R))) with W by lia. by rewrite Hed.
  - destruct Hc as [(-> & _ & -> & _)|(-> & _ & ->)]; [|by rewrite Z.sub_diag].
    rewrite <- Hed. f_equal. lia.
  - destruct Hc as [(-> & _ & -> & Hn)|(_ & _ & ->)]; [|apply not_elem_of_nil].
    rewrite elem_of_app, list_elem_of_singleton. intros [Hin|?]; [by apply (h_nl H)|congruence].
Qed.

Lemma key_spec c i rdy ed R W E : holds i rdy ed R W E ->
  exists i' rdy' ed' W' E' echo wake, consoleintr_key c i = (i', echo, wake) /\
    type_key c (rdy, ed) = ((rdy', ed'), echo, wake) /\ holds i' rdy' ed' R W' E'.
Proof.
  intros H. pose proof (h_order H) as Ho. pose proof (h_total _ _ _ _ _ _ H) as Ht.
  assert (length ed = Z.to_nat (E - W)) as Hle by (rewrite (h_ed H); apply length_chars).
  unfold consoleintr_key, type_key. destruct (c =? C 80); [by eexists _, _, _, _, _, _, _|].
  destruct (c =? C 85).
  { rewrite (h_e H), (h_w H), u32_diff by lia.
    destruct (kill_line_spec _ i rdy ed R W E [] H eq_refl) as (i' & -> & H'). rewrite Hle. by eexists _, _, _, _, _, _, _. }
  destruct ((c =? C 72) || (c =? DEL)).
  { rewrite (h_e H), (h_w H), u32_eqb by lia. destruct (Z.eqb_spec E W) as [->|Hn]; cbn [negb].
    - rewrite Hle, Z.sub_diag in *. apply nil_length_inv in Hle. subst ed. by eexists _, _, _, _, _, _, _.
    - pose proof (holds_erase i rdy ed R W E 1 H ltac:(lia)) as H'. rewrite (h_w H) in H'.
      replace (u32 (u32 E - 1)) with (u32 (E - 1)) by (change (u32 E - 1) with (u32 E + -1); by rewrite u32_plus).
      replace (Z.to_nat (E - W - 1)) with (length ed - 1)%nat in H' by lia.
      replace (Nat.min 1 (length ed)) with 1%nat by lia. by eexists _, _, _, _, _, _, _. }
  rewrite (h_e H), (h_r H), u32_diff by lia.
  destruct (Z.eqb_spec c 0) as [->|Hc0]; [by eexists _, _, _, _, _, _, _|]. cbn [negb andb orb].
  destruct (Z.ltb_spec (E - R) INPUT_BUF) as [Hlt|Hge].
  2: { rewrite (proj2 (Nat.leb_le _ _)) by lia. by eexists _, _, _, _, _, _, _. }
  rewrite (proj2 (Nat.leb_gt _ _)) by lia. rewrite u32_plus. set (c' := if c =? CR then NL else c).
  rewrite (u32_plus R), (Z.eqb_sym (u32 (E + 1))), u32_eqb by lia. rewrite length_app. cbn [length].
  replace (length rdy + (length ed + 1) =? 128)%nat with (R + 128 =? E + 1)
    by (destruct (Z.eqb_spec (R + 128) (E + 1)); symmetry; [apply Nat.eqb_eq|apply Nat.eqb_neq]; lia).
  rewrite <- (h_r H), <- (h_e H), (h_w H). destruct ((c' =? NL) || (c' =? C 68) || (R + 128 =? E + 1)) eqn:Ew.
  - eexists _, _, _, _, _, _, _. split; [done|]. split; [done|]. apply (holds_put i rdy ed R W E c'); [done|lia|auto].
  - apply orb_false_iff in Ew as [[Enl%Z.eqb_neq _]%orb_false_iff _].
    eexists _, _, _, _, _, _, _. split; [done|]. split; [done|]. apply (holds_put i rdy ed R W E c'); [done|lia|auto].
Qed.

Lemma keys_spec cs i rdy ed R W E : holds i rdy ed R W E ->
  exists i' rdy' ed' W' E' o, consoleintr cs i = (i', o.1.1, o.1.2, o.2) /\
    type_keys cs (rdy, ed) = ((rdy', ed'), o.1.1, o.1.2, o.2) /\ holds i' rdy' ed' R W' E'.
Proof.
  revert i rdy ed W E. induction cs as [|c cs IH]; intros i rdy ed W E H; cbn [consoleintr type_keys].
  - by eexists _, _, _, _, _, ([], false, false).
  - destruct (key_spec c _ _ _ _ _ _ H) as (i1 & rdy1 & ed1 & W1 & E1 & e1 & w1 & -> & -> & H1).
    destruct (IH _ _ _ _ _ H1) as (i2 & rdy2 & ed2 & W2 & E2 & o & -> & -> & H2).
    by eexists _, _, _, _, _, (e1 ++ o.1.1, w1 || o.1.2, (c =? C 80) || o.2).
Qed.

Lemma holds_take i c rdy ed R W E : holds i (c :: rdy) ed R W E ->
  R < W /\ char_at i (i_r i) = c /\
  holds (mk_input (i_buf i) (u32 (i_r i + 1)) (i_w i) (i_e i)) rdy ed (R + 1) W E.
Proof.
  intros H. pose proof (h_order H). pose proof (h_rdy H) as Hr.
  assert (R < W) as Hlt by (apply (f_equal length) in Hr; rewrite length_chars in Hr; simpl in Hr; lia).
  replace (Z.to_nat (W - R)) with (S (Z.to_nat (W - (R + 1)))) in Hr by lia. rewrite chars_cons in Hr.
  injection Hr as Hc Hr. split; [done|]. rewrite (h_r H), char_at_u32, u32_plus.
  split; [done|]. split; simpl; try apply H; try done. lia.
Qed.

Lemma read_spec killed target n dst i rdy ed R W E : holds i rdy ed R W E ->
  exists i' rdy' r R', consoleread_loop killed target n dst i = (i', r) /\
    take_line killed target n dst rdy = (rdy', r) /\ holds i' rdy' ed R' W E.
Proof.
  revert dst i rdy R. induction n as [|n IH]; intros dst i rdy R H; cbn [consoleread_loop]; [by eexists _, _, _, _|].
  pose proof (h_order H) as Ho.
  rewrite (Z.eqb_sym (i_r i)), (h_w H), (h_r H), u32_eqb by lia. destruct rdy as [|c rdy].
  - pose proof (f_equal length (h_rdy H)) as Hl. rewrite length_chars in Hl. simpl in Hl.
    rewrite (proj2 (Z.eqb_eq W R)) by lia. cbn [take_line]. by eexists _, _, _, _.
  - destruct (holds_take _ _ _ _ _ _ _ H) as (Hlt & Hc & H'). rewrite (proj2 (Z.eqb_neq W R)) by lia.
    rewrite <- (h_r H), Hc, <- (h_w H). cbn [take_line]. destruct (c =? C 68).
    + destruct (S n <? target)%nat; [|by eexists _, _, _, _]. eexists _, _, _, R. split; [done|]. split; [done|].
      split; simpl; try apply H. rewrite (h_r H), u32_plus.
      change (u32 (R + 1) - 1) with (u32 (R + 1) + -1). rewrite u32_plus. f_equal. lia.
    + destruct (c =? NL); [by eexists _, _, _, _|]. exact (IH _ _ _ _ H').
Qed.

Lemma holds_input0 : holds input0 [] [] 0 0 0.
Proof. split; simpl; try done; try lia; apply not_elem_of_nil. Qed.

Lemma run_events_spec evs i rdy ed R W E : holds i rdy ed R W E ->
  (run_events do_event evs i).2 = (run_events spec_event evs (rdy, ed)).2.
Proof.
  revert i rdy ed R W E. induction evs as [|ev evs IH]; intros i rdy ed R W E H; [done|]. cbn [run_events].
  assert (exists i' rdy' ed' R' W' E' o, do_event ev i = (i', o) /\ spec_event ev (rdy, ed) = ((rdy', ed'), o) /\
    holds i' rdy' ed' R' W' E') as (i' & rdy' & ed' & R' & W' & E' & o & -> & -> & H').
  { destruct ev as [cs|killed dst n]; unfold do_event, spec_event.
    - destruct (keys_spec cs _ _ _ _ _ _ H) as (i' & rdy' & ed' & W' & E' & o & -> & -> & H').
      by eexists _, _, _, _, _, _, _.
    - unfold consoleread. destruct (read_spec killed (length dst + n) n dst _ _ _ _ _ _ H) as (i' & rdy' & r & R' & -> & E1 & H').
      cbn [fst]. rewrite E1. by eexists _, _, _, _, _, _, _. }
  specialize (IH _ _ _ _ _ _ H'). destruct (run_events do_event evs i'), (run_events spec_event evs _). simpl in *. by rewrite IH.
Qed.

(** ** Theorems *)

(** C31: The console is a line editor over a queue of ready characters: for
    every sequence of typed characters and reads, the echo, the wakeups and
    what the reads return are those of the specification [spec_event], with
    its unbounded lists in place of the 128-byte circular buffer and its three
    wrapping indices: control-U and backspace never reach into a completed
    line, input is discarded only when 128 characters are waiting, a reader
    sleeps only when nothing is ready, and whatever becomes ready wakes the
    readers. *)
Theorem console_refines evs :
  (run_events do_event evs input0).2 = (run_events spec_event evs ([], [])).2.
Proof. exact (run_events_spec evs _ _ _ _ _ _ holds_input0). Qed.

(** The screen keeps its cursor on its first 24 rows, so [cgaputc] never
    panics and never writes outside them. *)
Lemma drop_splice d off bs k : (off + length bs <= k)%nat -> (off + length bs <= length d)%nat ->
  drop k (splice d off bs) = drop k d.
Proof.
  intros H1 H2. unfold splice. rewrite app_assoc, drop_app_ge by (rewrite length_app, length_take; lia).
  rewrite length_app, length_take, drop_drop. f_equal. lia.
Qed.

Lemma cgaputc_correct c s : length (crt s) = CRTSIZE -> 0 <= pos s < 24 * 80 ->
  exists s', cgaputc c s = Some s' /\ length (crt s') = CRTSIZE /\ 0 <= pos s' < 24 * 80 /\
    drop 1920 (crt s') = drop 1920 (crt s).
Proof.
  intros Hl Hp. unfold CRTSIZE in *. assert (exists m p,
    (if c =? NL then (crt s, pos s + (80 - pos s mod 80))
     else if c =? BACKSPACE then (crt s, if 0 <? pos s then pos s - 1 else pos s)
     else (<[Z.to_nat (pos s) := Z.lor (Z.land c 0xff) 0x0700]> (crt s), pos s + 1)) = (m, p) /\
    length m = Z.to_nat 16384 /\ 0 <= p <= 1920 /\ drop 1920 m = drop 1920 (crt s)) as (m & p & E & Hm & Hpp & Hd).
  { pose proof (Z.mod_pos_bound (pos s) 80). pose proof (Z.div_mod (pos s) 80).
    destruct (c =? NL); [|destruct (c =? BACKSPACE)]; eexists _, _; (split; [done|]).
    - split; [done|]. split; [nia|done].
    - split; [done|]. split; [destruct (Z.ltb_spec 0 (pos s)); lia|done].
    - rewrite length_insert. split; [done|]. split; [lia|]. apply drop_insert_lt. lia. }
  unfold cgaputc. rewrite E. rewrite (proj2 (Z.ltb_ge p 0)), (proj2 (Z.ltb_ge (25 * 80) p)) by lia. cbn [orb].
  destruct (Z.leb_spec 24 (p / 80)) as [Hs|Hs].
  - assert (p = 1920) as -> by (destruct (Z.lt_ge_cases p 1920) as [Hc|]; [apply (Z.div_lt_upper_bound p 80 24) in Hc|]; lia).
    assert (length (slice m 80 (23 * 80)) = 1840%nat) as Hsl by (rewrite length_slice; [done|lia]).
    set (m1 := splice m 0 (slice m 80 (23 * 80))).
    assert (length m1 = Z.to_nat 16384) as Hm1 by (unfold m1; rewrite length_splice; rewrite ?Hsl; lia).
    assert (drop 1920 m1 = drop 1920 m) as Hd1 by (unfold m1; apply drop_splice; rewrite Hsl; lia).
    set (z := replicate _ 0). assert (length z = 80%nat) as Hz by apply length_replicate.
    eexists. split; [done|]. cbn [crt pos]. rewrite length_insert, length_splice by (rewrite Hz; lia).
    split; [done|]. split; [lia|]. rewrite drop_insert_lt by lia. rewrite drop_splice by (rewrite Hz; lia). congruence.
  - assert (p < 1920) by (destruct (Z.lt_ge_cases p 1920) as [|Hc]; [done|apply (Z.div_le_lower_bound p 80 24) in Hc; lia]).
    eexists. split; [done|]. simpl. rewrite length_insert. split; [done|]. split; [lia|].
    rewrite drop_insert_lt by lia. done.
Qed.
