(* ===== verification/Umalloc.v ===== *)
(** * The user memory allocator (umalloc.c)

  Headers are in a map from their addresses; [base_addr] is the address of
  the static header [base], which the linker places below the heap.  The
  break and what [sbrk] answers are the kernel's: [can_grow brk n] says
  whether it grants [n] more bytes. *)
From S2P Require Import Prelude.

Record header := mk_header {
  h_ptr : Z;
  h_size : Z
}.
Notation SIZEOF_HEADER := 8 (only parsing).

Record ustate := mk_ustate {
  u_mem : gmap Z header;
  u_freep : Z;
  u_brk : Z
}.
Definition set_u_mem (m : gmap Z header) (s : ustate) : ustate := mk_ustate m (u_freep s) (u_brk s).
Definition set_u_freep (p : Z) (s : ustate) : ustate := mk_ustate (u_mem s) p (u_brk s).

Class Heap := {
  base_addr : Z;
  can_grow : Z -> Z -> bool;
  (** [allocuvm] refuses sizes from [KERNBASE] on. *)
  grow_bound : forall brk n, can_grow brk n = true -> brk + n < 2 ^ 31
}.

Section umalloc.
Context {HP : Heap}.

Definition get_h (p : Z) : M ustate header := m ← gets u_mem; unwrap (m !! p) "header".
Definition put_h (p : Z) (h : header) : M ustate unit := modify (fun s => set_u_mem (<[p := h]> (u_mem s)) s).
(** A store to one field keeps the other. *)
Definition set_ptr (p q : Z) : M ustate unit :=
  m ← gets u_mem; put_h p (mk_header q (default 0 (h_size <$> m !! p))).
Definition set_size (p n : Z) : M ustate unit :=
  m ← gets u_mem; put_h p (mk_header (default 0 (h_ptr <$> m !! p)) n).

(** The block before [bp] in the list of free blocks. *)
Fixpoint find_place (fuel : nat) (bp p : Z) : M ustate Z :=
  match fuel with
  | O => out_of_fuel
  | S fuel =>
      h ← get_h p;
      let q := h_ptr h in
      if (p <? bp) && (bp <? q) then mret p
      else if (q <=? p) && ((p <? bp) || (bp <? q)) then mret p
      else find_place fuel bp q
  end.

Definition free (ap : Z) : M ustate unit :=
  let bp := ap - SIZEOF_HEADER in
  m ← gets u_mem;
  freep ← gets u_freep;
  p ← find_place (S (size m)) bp freep;
  hb ← get_h bp;
  hp ← get_h p;
  (if bp + SIZEOF_HEADER * h_size hb =? h_ptr hp then
     hn ← get_h (h_ptr hp);
     set_size bp (u32 (h_size hb + h_size hn)) ;;
     set_ptr bp (h_ptr hn)
   else set_ptr bp (h_ptr hp)) ;;
  (if p + SIZEOF_HEADER * h_size hp =? bp then
     hb ← get_h bp;
     set_size p (u32 (h_size hp + h_size hb)) ;;
     set_ptr p (h_ptr hb)
   else set_ptr p bp) ;;
  modify (set_u_freep p).

(** [sbrk(n)] for an [int] n: [sys_sbrk], [growproc] and, for a negative [n],
    the size [deallocuvm] returns, which is the old one when [brk + n] wraps
    around to a larger number. *)
Definition sbrk (n : Z) : M ustate Z :=
  brk ← gets u_brk;
  if 0 <? n then
    if can_grow brk n then
      modify (fun s => mk_ustate (u_mem s) (u_freep s) (brk + n)) ;; mret brk
    else mret (-1)
  else if n <? 0 then
    let sz := if brk <=? u32 (brk + n) then brk else u32 (brk + n) in
    if sz =? 0 then mret (-1)
    else modify (fun s => mk_ustate (u_mem s) (u_freep s) sz) ;; mret brk
  else mret brk.

Definition morecore (nu : Z) : M ustate Z :=
  let nu := if nu <? 4096 then 4096 else nu in
  p ← sbrk (s32 (u32 (nu * SIZEOF_HEADER)));
  if p =? -1 then mret 0 else
  set_size p nu ;;
  free (p + SIZEOF_HEADER) ;;
  gets u_freep.

Definition nunits_of (nbytes : Z) : Z := u32 (u32 (nbytes + SIZEOF_HEADER - 1) / SIZEOF_HEADER + 1).

(** The block at [p] is large enough. *)
Definition take_block (prevp p nunits : Z) (h : header) : M ustate Z :=
  r ← (if h_size h =? nunits then set_ptr prevp (h_ptr h) ;; mret p else
       set_size p (h_size h - nunits) ;;
       let r := p + SIZEOF_HEADER * (h_size h - nunits) in
       set_size r nunits ;; mret r);
  modify (set_u_freep prevp) ;;
  mret (r + SIZEOF_HEADER).

Fixpoint malloc_loop (fuel : nat) (nunits prevp p : Z) : M ustate Z :=
  match fuel with
  | O => out_of_fuel
  | S fuel =>
      h ← get_h p;
      if nunits <=? h_size h then take_block prevp p nunits h else
      freep ← gets u_freep;
      if p =? freep then
        p ← morecore nunits;
        if p =? 0 then mret 0 else
        h ← get_h p; malloc_loop fuel nunits p (h_ptr h)
      else malloc_loop fuel nunits p (h_ptr h)
  end.

Definition malloc (nbytes : Z) : M ustate Z :=
  let nunits := nunits_of nbytes in
  freep ← gets u_freep;
  (if freep =? 0 then put_h base_addr (mk_header base_addr 0) ;; modify (set_u_freep base_addr) else mret tt) ;;
  prevp ← gets u_freep;
  m ← gets u_mem;
  h ← get_h prevp;
  malloc_loop (2 * size m + 4) nunits prevp (h_ptr h).

(** ** The heap

    A block is the address of its header and its size in units. *)
Notation blk := (Z * Z)%type.
Definition in_blk (x : blk) (z : Z) : Prop := x.1 <= z < x.1 + SIZEOF_HEADER * x.2.
Definition covers (l : list blk) (z : Z) : Prop := exists x, x ∈ l /\ in_blk x z.

(** The headers of the blocks [l] are linked in this order, the last one to
    [e]. *)
Definition first (l : list blk) (e : Z) : Z := match l with x :: _ => x.1 | [] => e end.
Fixpoint chain (m : gmap Z header) (l : list blk) (e : Z) : Prop :=
  match l with
  | [] => True
  | x :: l => m !! x.1 = Some (mk_header (first l e) x.2) /\ chain m l e
  end.

(** In address order, above [lo], and no two adjacent. *)
Fixpoint gaps (lo : Z) (l : list blk) : Prop :=
  match l with
  | [] => True
  | x :: l => lo < x.1 /\ 1 <= x.2 /\ gaps (x.1 + SIZEOF_HEADER * x.2) l
  end.

Fixpoint spaced (l : list blk) : Prop :=
  match l with
  | [] => True
  | x :: l => (forall z, in_blk x z -> ~ covers l z) /\ spaced l
  end.

Definition nodes (fl : list blk) : list blk := (base_addr, 0) :: fl.

(** [fl] are the free blocks and [al] the allocated ones. *)
Record heap_ok (s : ustate) (fl al : list blk) : Prop := {
  ho_base : 0 < base_addr;
  ho_brk : base_addr + SIZEOF_HEADER <= u_brk s < 2 ^ 31;
  ho_list : (u_freep s = 0 /\ fl = [] /\ al = []) \/ (chain (u_mem s) (nodes fl) base_addr /\ u_freep s ∈ (nodes fl).*1);
  ho_gaps : gaps (base_addr + SIZEOF_HEADER - 1) fl;
  ho_alloc : Forall (fun x => 1 <= x.2 /\ base_addr + SIZEOF_HEADER <= x.1 /\
               exists q, u_mem s !! x.1 = Some (mk_header q x.2)) al;
  ho_bound : forall z, covers fl z \/ covers al z -> z < u_brk s;
  ho_spaced : spaced al;
  ho_disj : forall z, covers fl z -> covers al z -> False
}.

(** ** Lists of blocks *)
Lemma covers_nil z : ~ covers [] z.
Proof. intros (x & Hx & _). by apply elem_of_nil in Hx. Qed.
Lemma covers_cons x l z : covers (x :: l) z <-> in_blk x z \/ covers l z.
Proof.
  unfold covers. split.
  - intros (y & [->|Hy]%elem_of_cons & Hz); [by left|right; eauto].
  - intros [Hz|(y & Hy & Hz)]; [exists x|exists y]; rewrite elem_of_cons; auto.
Qed.
Lemma covers_app l1 l2 z : covers (l1 ++ l2) z <-> covers l1 z \/ covers l2 z.
Proof. induction l1 as [|x l1 IH]; simpl; [split; [by right|intros [?%covers_nil|?]; done]|]. rewrite !covers_cons, IH. tauto. Qed.

Lemma chain_app m l1 l2 e : chain m (l1 ++ l2) e <-> chain m l1 (first l2 e) /\ chain m l2 e.
Proof.
  induction l1 as [|x l1 IH]; simpl; [tauto|]. rewrite IH.
  replace (first (l1 ++ l2) e) with (first l1 (first l2 e)) by (by destruct l1). tauto.
Qed.
Lemma chain_insert m l e a h : a ∉ l.*1 -> chain (<[a := h]> m) l e <-> chain m l e.
Proof.
  induction l as [|x l IH]; simpl; [done|]. rewrite not_elem_of_cons. intros [Hx Hl].
  by rewrite lookup_insert_ne, IH by done.
Qed.
Lemma chain_lookup m l e i x : chain m l e -> l !! i = Some x ->
  m !! x.1 = Some (mk_header (first (drop (S i) l) e) x.2).
Proof.
  revert i. induction l as [|y l IH]; intros [|i] Hc Hx; simplify_eq/=; [apply Hc|]. destruct Hc as [_ Hc]. by apply IH.
Qed.

Lemma gaps_weaken lo lo' l : lo' <= lo -> gaps lo l -> gaps lo' l.
Proof. destruct l as [|x l]; [done|]. simpl. intros ? (? & ? & ?). split; [lia|done]. Qed.
Lemma gaps_lt lo l z : gaps lo l -> covers l z -> lo < z.
Proof.
  revert lo. induction l as [|x l IH]; intros lo Hg Hc; [by apply covers_nil in Hc|]. simpl in Hg.
  apply covers_cons in Hc as [Hz|Hc]; [unfold in_blk in Hz; lia|]. destruct Hg as (? & ? & Hg). apply (IH _ Hg) in Hc.
  lia.
Qed.
Lemma gaps_addr lo l x : gaps lo l -> x ∈ l -> lo < x.1 /\ 1 <= x.2 /\ forall z, in_blk x z -> covers l z.
Proof.
  intros Hg Hx. assert (forall z, in_blk x z -> covers l z) as Hc by (intros z Hz; by exists x).
  revert lo Hg Hx Hc. induction l as [|y l IH]; intros lo Hg Hx Hc; [by apply elem_of_nil in Hx|]. destruct Hg as (H1 & H2 & Hg).
  apply elem_of_cons in Hx as [->|Hx]; [done|]. destruct (IH _ Hg Hx) as (H3 & H4 & _); [intros z Hz; by exists x|].
  split; [lia|]. split; [lia|done].
Qed.
Lemma gaps_app lo l1 x l2 : gaps lo (l1 ++ x :: l2) <->
  gaps lo (l1 ++ [x]) /\ gaps (x.1 + SIZEOF_HEADER * x.2) l2.
Proof. revert lo. induction l1 as [|y l1 IH]; intros lo; simpl; [tauto|]. rewrite IH. tauto. Qed.

Lemma gaps_sorted lo l i j x y : gaps lo l -> l !! i = Some x -> l !! j = Some y -> (i < j)%nat ->
  x.1 + SIZEOF_HEADER * x.2 < y.1.
Proof.
  revert lo i j. induction l as [|w l IH]; intros lo [|i] [|j] Hg Hx Hy Hij; simplify_eq/=; try lia.
  - destruct Hg as (_ & _ & Hg). apply (gaps_addr _ _ y Hg). by apply list_elem_of_lookup_2 in Hy.
  - destruct Hg as (_ & _ & Hg). apply (IH _ _ _ Hg Hx Hy). lia.
Qed.

Lemma nodes_sorted fl i j x y : gaps (base_addr + SIZEOF_HEADER - 1) fl -> nodes fl !! i = Some x -> nodes fl !! j = Some y ->
  (i < j)%nat -> x.1 + SIZEOF_HEADER * x.2 < y.1.
Proof.
  intros Hg Hx Hy Hij. destruct j as [|j]; [lia|]. destruct i as [|i]; simplify_eq/=.
  - apply list_elem_of_lookup_2 in Hy. destruct (gaps_addr _ _ _ Hg Hy) as [? _]. lia.
  - apply (gaps_sorted _ _ _ _ _ _ Hg Hx Hy). lia.
Qed.

Lemma nodes_NoDup fl : gaps (base_addr + SIZEOF_HEADER - 1) fl -> NoDup (nodes fl).*1.
Proof.
  intros Hg. apply NoDup_alt. intros i j a Hi Hj. rewrite list_lookup_fmap in Hi, Hj.
  apply fmap_Some in Hi as (x & Ex & ->). apply fmap_Some in Hj as (y & Ey & Hxy).
  assert (forall x, x ∈ nodes fl -> 0 <= x.2) as Hp.
  { intros w [->|Hw]%elem_of_cons; [done|]. destruct (gaps_addr _ _ _ Hg Hw) as (_ & ? & _). lia. }
  pose proof (Hp _ (list_elem_of_lookup_2 _ _ _ Ex)). pose proof (Hp _ (list_elem_of_lookup_2 _ _ _ Ey)).
  destruct (lt_eq_lt_dec i j) as [[H1|H1]|H1]; [|done|].
  - pose proof (nodes_sorted fl _ _ _ _ Hg Ex Ey H1). lia.
  - pose proof (nodes_sorted fl _ _ _ _ Hg Ey Ex H1). lia.
Qed.

Lemma chain_size m l e : chain m l e -> NoDup l.*1 -> (length l <= size m)%nat.
Proof.
  intros Hc Hn. rewrite <- (length_fmap fst l), <- (size_list_to_set (C := gset Z)), <- size_dom by done.
  apply subseteq_size. intros a Ha%elem_of_list_to_set. apply list_elem_of_fmap in Ha as (x & -> & Hx).
  apply list_elem_of_lookup_1 in Hx as [i Hi]. apply elem_of_dom. eexists. by eapply chain_lookup.
Qed.

(** ** Searching the list *)
Section walk.
Variables (s : ustate) (fl : list blk).
Hypothesis Hc : chain (u_mem s) (nodes fl) base_addr.
Hypothesis Hg : gaps (base_addr + SIZEOF_HEADER - 1) fl.

Lemma node_read i x : nodes fl !! i = Some x ->
  get_h x.1 s = Ret (mk_header (first (drop (S i) (nodes fl)) base_addr) x.2) s.
Proof. intros Hx. unfold get_h. rewrite bind_gets. by rewrite (chain_lookup _ _ _ _ _ Hc Hx). Qed.

Lemma next_node i x : nodes fl !! i = Some x -> exists j y,
  nodes fl !! j = Some y /\ first (drop (S i) (nodes fl)) base_addr = y.1 /\
  (j = S i \/ (S i = length (nodes fl) /\ j = O)).
Proof.
  intros Hx. destruct (nodes fl !! S i) as [y|] eqn:E.
  - exists (S i), y. rewrite (drop_S _ _ _ E). auto.
  - exists O, (base_addr, 0). apply lookup_ge_None in E. pose proof (lookup_lt_Some _ _ _ Hx).
    rewrite drop_ge by done. simpl in *. auto with lia.
Qed.

(** [t] is the last node below [bp]. *)
Variables (bp : Z) (t : nat) (x : blk).
Hypothesis Ht : nodes fl !! t = Some x.
Hypothesis Hlow : forall i y, nodes fl !! i = Some y -> (y.1 < bp <-> (i <= t)%nat).
Hypothesis Hne : bp ∉ (nodes fl).*1.

Lemma place_here i y : nodes fl !! i = Some y -> i <> t -> forall fuel,
  find_place (S fuel) bp y.1 s = find_place fuel bp (first (drop (S i) (nodes fl)) base_addr) s.
Proof.
  intros Hy Hit fuel. cbn [find_place]. run (node_read i y Hy). cbn [h_ptr].
  destruct (next_node i y Hy) as (j & w & Hw & -> & Hj).
  pose proof (Hlow _ _ Hy) as Ly. pose proof (Hlow _ _ Hw) as Lw.
  assert (y.1 <> bp) as Ny by (intros <-; apply Hne; apply list_elem_of_fmap; exists y; eauto using list_elem_of_lookup_2).
  assert (w.1 <> bp) as Nw by (intros <-; apply Hne; apply list_elem_of_fmap; exists w; eauto using list_elem_of_lookup_2).
  assert (0 <= y.2) as Hp.
  { apply list_elem_of_lookup_2 in Hy. apply elem_of_cons in Hy as [->|Hy]; [done|]. destruct (gaps_addr _ _ _ Hg Hy) as (_ & ? & _). lia. }
  pose proof (lookup_lt_Some _ _ _ Ht) as Htl.
  assert ((y.1 < bp -> w.1 < bp /\ y.1 < w.1) /\ (bp < y.1 -> y.1 < w.1 \/ w.1 < bp)) as [A B].
  { destruct Hj as [->|[Hj ->]].
    - pose proof (nodes_sorted _ _ _ _ _ Hg Hy Hw ltac:(lia)). split; [|lia].
      intros H1%Ly. split; [apply Lw; lia|lia].
    - split; [intros H1%Ly; lia|]. intros _. right. apply Lw. lia. }
  destruct (Z.ltb_spec y.1 bp), (Z.ltb_spec bp w.1), (Z.leb_spec w.1 y.1); simpl; try done; lia.
Qed.

Lemma place_found fuel : find_place (S fuel) bp x.1 s = Ret x.1 s.
Proof.
  cbn [find_place]. run (node_read t x Ht). cbn [h_ptr]. destruct (next_node t x Ht) as (j & w & Hw & -> & Hj).
  assert (x.1 < bp) as Hx by (by apply (Hlow _ _ Ht)). pose proof (Hlow _ _ Hw) as Lw.
  assert (w.1 <> bp) as Nw by (intros <-; apply Hne; apply list_elem_of_fmap; exists w; eauto using list_elem_of_lookup_2).
  rewrite (proj2 (Z.ltb_lt _ _) Hx). cbn [andb orb]. destruct Hj as [->|[Hj ->]].
  - assert (bp < w.1) as Hlt by lia. by rewrite (proj2 (Z.ltb_lt _ _) Hlt).
  - destruct (Z.ltb_spec bp w.1); [done|]. assert (w.1 <= x.1) as Hle.
    { destruct t as [|t']; [simplify_eq; lia|]. pose proof (nodes_sorted _ _ _ _ _ Hg Hw Ht ltac:(lia)) as Hs.
      simpl in Hw. simplify_eq/=. lia. }
    by rewrite (proj2 (Z.leb_le _ _) Hle).
Qed.

Lemma place_forward k i y fuel : nodes fl !! i = Some y -> (t = i + k)%nat -> (k < fuel)%nat ->
  find_place fuel bp y.1 s = Ret x.1 s.
Proof.
  revert i y fuel. induction k as [|k IH]; intros i y fuel Hy Hk Hf; (destruct fuel as [|fuel]; [lia|]).
  - assert (i = t) as -> by lia. simplify_eq. apply place_found.
  - rewrite (place_here i y Hy) by lia. destruct (next_node i y Hy) as (j & w & Hw & -> & Hj).
    pose proof (lookup_lt_Some _ _ _ Ht). apply (IH j w); [done|lia|lia].
Qed.

Lemma place_around k i y fuel : nodes fl !! i = Some y -> (i + S k = length (nodes fl))%nat -> (t < i)%nat ->
  (S k + t < fuel)%nat -> find_place fuel bp y.1 s = Ret x.1 s.
Proof.
  revert i y fuel. induction k as [|k IH]; intros i y fuel Hy Hk Hlt Hf; (destruct fuel as [|fuel]; [lia|]);
    rewrite (place_here i y Hy) by lia; destruct (next_node i y Hy) as (j & w & Hw & -> & Hj).
  - assert (j = O) as -> by (pose proof (lookup_lt_Some _ _ _ Hw); lia). apply (place_forward t O); [done|lia|lia].
  - apply (IH j w); [done|lia|lia|lia].
Qed.

Lemma find_place_spec p : p ∈ (nodes fl).*1 -> find_place (S (size (u_mem s))) bp p s = Ret x.1 s.
Proof.
  intros Hp. apply list_elem_of_fmap in Hp as (y & -> & [i Hy]%list_elem_of_lookup_1).
  pose proof (chain_size _ _ _ Hc (nodes_NoDup _ Hg)) as Hs. pose proof (lookup_lt_Some _ _ _ Hy). pose proof (lookup_lt_Some _ _ _ Ht).
  destruct (decide (i <= t)%nat).
  - apply (place_forward (t - i) i); [done|lia|lia].
  - apply (place_around (length (nodes fl) - i - 1) i); [done|lia|lia|lia].
Qed.
End walk.

(** ** Inserting a block into the address-ordered list, coalescing *)
Definition merge_next (b : blk) (l : list blk) : list blk :=
  match l with
  | y :: l' => if b.1 + SIZEOF_HEADER * b.2 =? y.1 then (b.1, b.2 + y.2) :: l' else b :: l
  | [] => [b]
  end.
Definition merge_prev (x : blk) (l : list blk) : list blk :=
  match l with
  | b :: l' => if x.1 + SIZEOF_HEADER * x.2 =? b.1 then (x.1, x.2 + b.2) :: l' else x :: l
  | [] => [x]
  end.
Fixpoint release (b : blk) (l : list blk) : list blk :=
  match l with
  | [] => [b]
  | x :: l' => if x.1 <? b.1 then merge_prev x (release b l') else merge_next b l
  end.

Lemma merge_next_ok lo b l : gaps lo l -> lo < b.1 -> 1 <= b.2 -> (forall y, y ∈ l -> b.1 < y.1) ->
  (forall z, in_blk b z -> ~ covers l z) ->
  gaps lo (merge_next b l) /\ (forall z, covers (merge_next b l) z <-> in_blk b z \/ covers l z).
Proof.
  intros Hg Hlo Hn Hlt Hd. destruct l as [|y l]; simpl.
  - split; [done|]. intros z. by rewrite covers_cons.
  - destruct Hg as (H1 & H2 & Hg). pose proof (Hlt y ltac:(by left)) as Hy.
    assert (b.1 + SIZEOF_HEADER * b.2 <= y.1) as Hle.
    { apply Z.nlt_ge. intros Hlt'. apply (Hd y.1); [unfold in_blk; lia|]. apply covers_cons. left. unfold in_blk. lia. }
    destruct (Z.eqb_spec (b.1 + SIZEOF_HEADER * b.2) y.1) as [E|E]; simpl.
    + split; [split; [lia|]; split; [lia|]; eapply gaps_weaken; [|done]; lia|].
      intros z. rewrite !covers_cons. unfold in_blk in *. simpl. intuition lia.
    + split; [split; [lia|]; split; [lia|]; split; [lia|done]|]. intros z. by rewrite covers_cons.
Qed.

Lemma release_ok lo b l : gaps lo l -> lo < b.1 -> 1 <= b.2 -> (forall z, in_blk b z -> ~ covers l z) ->
  gaps lo (release b l) /\ (forall z, covers (release b l) z <-> in_blk b z \/ covers l z).
Proof.
  revert lo. induction l as [|x l IH]; intros lo Hg Hlo Hn Hd; cbn [release]; [split; [done|]; intros z; by rewrite covers_cons|].
  destruct (Z.ltb_spec x.1 b.1) as [Hlt|Hge].
  - destruct Hg as (H1 & H2 & Hg).
    assert (forall z, in_blk b z -> ~ covers l z) as Hd' by (intros z Hz Hc; apply (Hd z Hz); apply covers_cons; by right).
    assert (x.1 + SIZEOF_HEADER * x.2 <= b.1) as Hle.
    { apply Z.nlt_ge. intros Hlt'. apply (Hd b.1); [unfold in_blk; lia|]. apply covers_cons. left. unfold in_blk. lia. }
    destruct (IH (x.1 + SIZEOF_HEADER * x.2 - 1)) as [G C]; [eapply gaps_weaken; [|done]; lia|lia|done|done|].
    destruct (release b l) as [|y r] eqn:Er; simpl.
    { exfalso. apply (covers_nil b.1). apply C. left. unfold in_blk. lia. }
    destruct G as (G1 & G2 & G3). destruct (Z.eqb_spec (x.1 + SIZEOF_HEADER * x.2) y.1) as [E|E]; simpl.
    + split; [split; [lia|]; split; [lia|]; eapply gaps_weaken; [|done]; lia|].
      intros z. rewrite !covers_cons. specialize (C z). rewrite covers_cons in C.
      assert (in_blk (x.1, x.2 + y.2) z <-> in_blk x z \/ in_blk y z) as Hm by (unfold in_blk in *; simpl; lia). tauto.
    + split; [split; [lia|]; split; [lia|]; split; [lia|done]|].
      intros z. rewrite !covers_cons. specialize (C z). rewrite covers_cons in C. tauto.
  - apply merge_next_ok; [done|done|done| |done]. intros y Hy.
    assert (x.1 <> b.1) as Hne.
    { intros E. apply (Hd b.1); [unfold in_blk; lia|]. apply covers_cons. left. unfold in_blk. simpl in Hg. lia. }
    apply elem_of_cons in Hy as [->|Hy]; [lia|]. destruct Hg as (_ & H2 & Hg). destruct (gaps_addr _ _ _ Hg Hy) as [? _].
    lia.
Qed.

Lemma release_low b l : (forall y, y ∈ l -> b.1 < y.1) -> release b l = merge_next b l.
Proof. destruct l as [|y l]; [done|]. intros H. pose proof (H y ltac:(by left)). simpl. by rewrite (proj2 (Z.ltb_ge y.1 b.1)) by lia. Qed.

Lemma release_split lo b l1 x l2 : gaps lo (l1 ++ x :: l2) -> (forall y, y ∈ l1 ++ [x] -> y.1 < b.1) ->
  (forall y, y ∈ l2 -> b.1 < y.1) -> release b (l1 ++ x :: l2) = l1 ++ merge_prev x (merge_next b l2).
Proof.
  revert lo. induction l1 as [|y l1 IH]; intros lo Hg H1 H2; simpl.
  - rewrite (proj2 (Z.ltb_lt x.1 b.1)) by (apply H1; by left). by rewrite release_low.
  - rewrite (proj2 (Z.ltb_lt y.1 b.1)) by (apply H1; by left). destruct Hg as (_ & _ & Hg).
    rewrite (IH _ Hg) by (done || intros w Hw; apply H1; by right). unfold merge_prev at 1.
    destruct l1 as [|w l1]; simpl in *.
    + destruct (merge_prev x (merge_next b l2)) as [|c r] eqn:E; [by destruct (merge_next b l2) as [|? ?]; simpl in E; [|destruct (_ =? _)]|].
      replace c.1 with x.1 by (destruct (merge_next b l2); simpl in E; [|destruct (_ =? _)]; by simplify_eq).
      by rewrite (proj2 (Z.eqb_neq _ _)) by lia.
    + by rewrite (proj2 (Z.eqb_neq _ _)) by lia.
Qed.

Lemma split_list lo l bp : gaps lo l -> bp ∉ l.*1 -> exists la lb, l = la ++ lb /\
  (forall y, y ∈ la -> y.1 < bp) /\ (forall y, y ∈ lb -> bp < y.1).
Proof.
  revert lo. induction l as [|x l IH]; intros lo Hg Hn.
  - exists [], []. split; [done|]. split; intros y Hy%elem_of_nil; done.
  - simpl in Hn. rewrite not_elem_of_cons in Hn. destruct Hn as [Hx Hn]. destruct Hg as (H1 & H2 & Hg).
    destruct (Z.lt_ge_cases x.1 bp).
    + destruct (IH _ Hg Hn) as (la & lb & -> & Ha & Hb). exists (x :: la), lb. split; [done|]. split; [|done].
      intros y [->|Hy]%elem_of_cons; auto.
    + exists [], (x :: l). split; [done|]. split; [intros y Hy%elem_of_nil; done|].
      intros y [->|Hy]%elem_of_cons; [lia|]. destruct (gaps_addr _ _ _ Hg Hy) as [? _]. lia.
Qed.

(** ** free *)
Lemma set_ptr_run s p q h : u_mem s !! p = Some h ->
  set_ptr p q s = Ret tt (set_u_mem (<[p := mk_header q (h_size h)]> (u_mem s)) s).
Proof. intros E. unfold set_ptr. rewrite bind_gets. by rewrite E. Qed.
Lemma set_size_run s p n h : u_mem s !! p = Some h ->
  set_size p n s = Ret tt (set_u_mem (<[p := mk_header (h_ptr h) n]> (u_mem s)) s).
Proof. intros E. unfold set_size. rewrite bind_gets. by rewrite E. Qed.
Lemma set_size_any s p n : set_size p n s =
  Ret tt (set_u_mem (<[p := mk_header (default 0 (h_ptr <$> u_mem s !! p)) n]> (u_mem s)) s).
Proof. done. Qed.
Lemma get_h_run s p h : u_mem s !! p = Some h -> get_h p s = Ret h s.
Proof. intros E. unfold get_h. rewrite bind_gets. by rewrite E. Qed.

(** [size += m; ptr = q], as the source writes it. *)
Lemma set_both_run s p n q h {A} (k : M ustate A) : u_mem s !! p = Some h ->
  (set_size p n ;; set_ptr p q ;; k) s = k (set_u_mem (<[p := mk_header q n]> (u_mem s)) s).
Proof.
  intros E. run (set_size_run s p n h E).
  erewrite (bind_Ret (set_ptr p q)); [|apply set_ptr_run; simpl; apply lookup_insert_eq].
  simpl. by rewrite insert_insert_eq.
Qed.

Definition put_block (x : blk) (e : Z) (m : gmap Z header) : gmap Z header := <[x.1 := mk_header e x.2]> m.

(** Linking the block [y], whose successors are [l], into memory. *)
Lemma chain_put m y l e : chain m l e -> y.1 ∉ l.*1 -> chain (put_block y (first l e) m) (y :: l) e.
Proof. intros Hc Hn. unfold put_block. simpl. rewrite lookup_insert_eq. split; [done|]. by apply chain_insert. Qed.

Section free_run.
Variables (s : ustate) (l1 l2 : list blk) (x : blk) (bp n qb : Z).
Hypothesis Hc : chain (u_mem s) (l1 ++ x :: l2) base_addr.
Hypothesis Hb : u_mem s !! bp = Some (mk_header qb n).
Hypothesis Hne : bp ∉ (l1 ++ x :: l2).*1.
Hypothesis Hnd : NoDup (l1 ++ x :: l2).*1.
Hypothesis Hplace : find_place (S (size (u_mem s))) bp (u_freep s) s = Ret x.1 s.
Hypothesis Hsmall : 0 <= x.2 /\ 0 < n /\ Forall (fun y => 1 <= y.2) l2 /\
  (forall y, y ∈ merge_prev x (merge_next (bp, n) l2) -> y.2 < 2 ^ 32).
Hypothesis Hbase : l2 = [] -> bp + SIZEOF_HEADER * n <> base_addr.

Lemma fr_split : chain (u_mem s) l1 x.1 /\ u_mem s !! x.1 = Some (mk_header (first l2 base_addr) x.2) /\
  chain (u_mem s) l2 base_addr.
Proof using All. apply chain_app in Hc as (H1 & H2 & H3). done. Qed.

Lemma fr_notin : bp <> x.1 /\ bp ∉ l1.*1 /\ bp ∉ l2.*1 /\ x.1 ∉ l1.*1 /\ x.1 ∉ l2.*1.
Proof using All.
  rewrite fmap_app in Hne, Hnd. simpl in *. rewrite not_elem_of_app, not_elem_of_cons in Hne.
  apply NoDup_app in Hnd as (_ & Hd & Hn2). apply NoDup_cons in Hn2 as [? _].
  split; [tauto|]. split; [tauto|]. split; [tauto|]. split; [|done]. intros Hx. apply (Hd _ Hx). by left.
Qed.

(** The first conditional of [free]. *)
Lemma free_next : exists b' r, merge_next (bp, n) l2 = b' :: r /\ b'.1 = bp /\
  (forall A (k : M ustate A), ((if bp + SIZEOF_HEADER * n =? first l2 base_addr then
      hn ← get_h (first l2 base_addr);
      set_size bp (u32 (n + h_size hn)) ;; set_ptr bp (h_ptr hn)
    else set_ptr bp (first l2 base_addr)) ;; k) s =
  k (set_u_mem (put_block b' (first r base_addr) (u_mem s)) s)) /\ chain (u_mem s) r base_addr /\ r.*1 ⊆ l2.*1.
Proof using All.
  destruct fr_split as (_ & _ & Hc2). unfold put_block, merge_next. destruct l2 as [|y l2']; simpl.
  - rewrite (proj2 (Z.eqb_neq _ _)) by auto. eexists _, _. split; [done|]. split; [done|]. split; [|done].
    intros A k. by run (set_ptr_run s bp base_addr _ Hb).
  - destruct Hc2 as [Hy Hc2]. destruct (Z.eqb_spec (bp + SIZEOF_HEADER * n) y.1) as [E|E].
    + eexists _, _. split; [done|]. split; [done|]. split; [|split; [done|intros a Ha; by right]].
      intros A k. run (get_h_run s y.1 _ Hy). simpl. rewrite bind_bind. simpl.
      rewrite (set_both_run s bp _ _ _ k Hb). rewrite u32_small; [done|]. destruct Hsmall as (H1 & H2 & H3 & H4).
      apply Forall_cons in H3 as [H3 _]. split; [lia|]. unfold merge_prev, merge_next in H4. simpl in H4.
      rewrite (proj2 (Z.eqb_eq _ _) E) in H4. simpl in H4.
      destruct (x.1 + SIZEOF_HEADER * x.2 =? bp); [specialize (H4 _ ltac:(by left)); simpl in H4; lia|].
      apply (H4 (bp, n + y.2)). right. by left.
    + eexists _, _. split; [done|]. split; [done|]. split; [|done]. intros A k. by run (set_ptr_run s bp y.1 _ Hb).
Qed.

Lemma free_sum b' r : merge_next (bp, n) l2 = b' :: r -> x.1 + SIZEOF_HEADER * x.2 = bp -> b'.1 = bp -> 0 <= x.2 + b'.2 < 2 ^ 32.
Proof using All.
  intros Em E Hb'. destruct Hsmall as (H1 & H2 & H3 & H4). rewrite Em in H4. unfold merge_prev in H4.
  rewrite Hb', (proj2 (Z.eqb_eq _ _) E) in H4. split; [|apply (H4 (x.1, x.2 + b'.2)); by left].
  destruct l2 as [|y l2']; simpl in Em; [simplify_eq/=; lia|]. apply Forall_cons in H3 as [H3 _].
  destruct (_ =? _); simplify_eq/=; lia.
Qed.

Lemma free_run : exists m', free (bp + SIZEOF_HEADER) s = Ret tt (mk_ustate m' x.1 (u_brk s)) /\
  chain m' (l1 ++ merge_prev x (merge_next (bp, n) l2)) base_addr /\
  (forall a, a <> bp -> a <> x.1 -> m' !! a = u_mem s !! a).
Proof using All.
  destruct fr_split as (Hc1 & Hx & Hc2). destruct fr_notin as (N1 & N2 & N3 & N4 & N5).
  unfold free. replace (bp + SIZEOF_HEADER - SIZEOF_HEADER) with bp by lia. rewrite !bind_gets.
  run Hplace. run (get_h_run s bp _ Hb). run (get_h_run s x.1 _ Hx). cbn [h_ptr h_size].
  destruct free_next as (b' & r & Em & Hb' & -> & Hcr & Hsub).
  assert (forall a, a ∉ l2.*1 -> a ∉ r.*1) as Hsub' by (intros a Ha Hin; by apply Ha, Hsub).
  set (s1 := set_u_mem (put_block b' (first r base_addr) (u_mem s)) s).
  assert (u_mem s1 !! x.1 = Some (mk_header (first l2 base_addr) x.2)) as Hx1.
  { unfold s1, put_block. simpl. by rewrite Hb', lookup_insert_ne. }
  assert (u_mem s1 !! bp = Some (mk_header (first r base_addr) b'.2)) as Hb1.
  { unfold s1, put_block. simpl. by rewrite Hb', lookup_insert_eq. }
  assert (chain (u_mem s1) (b' :: r) base_addr) as Hcb by (apply chain_put; [done|rewrite Hb'; auto]).
  assert (chain (u_mem s1) l1 x.1) as Hc1' by (unfold s1, put_block; simpl; rewrite Hb'; by apply chain_insert).
  assert (forall a, a <> bp -> u_mem s1 !! a = u_mem s !! a) as Hs1.
  { intros a Ha. unfold s1, put_block. simpl. by rewrite Hb', lookup_insert_ne. }
  rewrite Em. unfold merge_prev. rewrite Hb'. destruct (Z.eqb_spec (x.1 + SIZEOF_HEADER * x.2) bp) as [E|E].
  - run (get_h_run s1 bp _ Hb1). cbn [h_size h_ptr]. rewrite bind_bind. rewrite (set_both_run s1 x.1 _ _ _ _ Hx1).
    rewrite u32_small by (by apply (free_sum b' r)). eexists. split; [done|]. split.
    + apply chain_app. split; [by apply chain_insert|]. apply (chain_put _ (x.1, x.2 + b'.2)); [apply Hcb|simpl; auto].
    + intros a Ha Hax. simpl. rewrite lookup_insert_ne by done. by apply Hs1.
  - run (set_ptr_run s1 x.1 bp _ Hx1). eexists. split; [done|]. split.
    + apply chain_app. split; [by apply chain_insert|]. rewrite <- Hb'. apply (chain_put _ x (b' :: r)); [done|].
      simpl. rewrite not_elem_of_cons, Hb'. auto.
    + intros a Ha Hax. simpl. rewrite lookup_insert_ne by done. by apply Hs1.
Qed.
End free_run.

Lemma in_blk_addr x : 1 <= x.2 -> in_blk x x.1.
Proof. unfold in_blk. lia. Qed.

Lemma split_nodes fl bp n : gaps (base_addr + SIZEOF_HEADER - 1) fl -> base_addr + SIZEOF_HEADER <= bp -> bp ∉ fl.*1 ->
  exists l1 x l2, nodes fl = l1 ++ x :: l2 /\ (forall y, y ∈ l1 ++ [x] -> y.1 < bp) /\ (forall y, y ∈ l2 -> bp < y.1) /\
    l1 ++ merge_prev x (merge_next (bp, n) l2) = nodes (release (bp, n) fl).
Proof.
  intros Hg Hb Hn. destruct (split_list _ _ _ Hg Hn) as (la & lb & -> & Ha & Hl).
  destruct la as [|x la _] using rev_ind; simpl in *.
  - exists [], (base_addr, 0), lb. split; [done|]. split; [intros y ->%list_elem_of_singleton; simpl; lia|]. split; [done|].
    rewrite release_low by done. unfold nodes. simpl. destruct (merge_next (bp, n) lb) as [|c r] eqn:E; [done|]. simpl.
    replace c.1 with bp by (destruct lb; simpl in E; [|destruct (_ =? _)]; by simplify_eq).
    by rewrite (proj2 (Z.eqb_neq _ _)) by lia.
  - exists ((base_addr, 0) :: la), x, lb. split; [unfold nodes; by rewrite <- app_assoc|].
    split; [intros y; simpl; intros [->|Hy]%elem_of_cons; [simpl; lia|by apply Ha]|]. split; [done|].
    rewrite <- app_assoc in *. unfold nodes. simpl. f_equal. symmetry. by apply (release_split _ (bp, n) la x lb Hg).
Qed.

Lemma fl_small s fl al x : heap_ok s fl al -> x ∈ nodes fl -> 0 <= x.2 < 2 ^ 32.
Proof.
  intros H [->|Hx]%elem_of_cons; [done|]. destruct (gaps_addr _ _ _ (ho_gaps _ _ _ H) Hx) as (H1 & H2 & H3).
  pose proof (ho_bound _ _ _ H (x.1 + SIZEOF_HEADER * x.2 - 1)) as Hb. pose proof (ho_brk _ _ _ H). pose proof (ho_base _ _ _ H).
  split; [lia|]. enough (x.1 + 8 * x.2 - 1 < u_brk s) by lia. apply Hb. left. apply H3.
  unfold in_blk. lia.
Qed.

Lemma release_heap s m' p fl al bp n : heap_ok s fl ((bp, n) :: al) ->
  chain m' (nodes (release (bp, n) fl)) base_addr -> p ∈ (nodes (release (bp, n) fl)).*1 ->
  (forall a, a ∈ al.*1 -> m' !! a = u_mem s !! a) -> heap_ok (mk_ustate m' p (u_brk s)) (release (bp, n) fl) al.
Proof.
  intros H Hc Hp Hm. pose proof (ho_alloc _ _ _ H) as [(Hn & Hb & _) Ha]%Forall_cons. simpl in Hn, Hb.
  destruct (release_ok (base_addr + SIZEOF_HEADER - 1) (bp, n) fl) as [G C]; [apply H|simpl; lia|done| |].
  { intros z Hz Hc'. apply (ho_disj _ _ _ H z Hc'). apply covers_cons. by left. }
  destruct (ho_spaced _ _ _ H) as [S1 S2]. split; simpl; try apply H; try done.
  - by right.
  - apply Forall_forall. intros y Hy. rewrite Forall_forall in Ha. destruct (Ha y Hy) as (A1 & A2 & A3). split; [done|]. split; [done|].
    rewrite Hm; [done|]. apply list_elem_of_fmap. eauto.
  - intros z Hz. rewrite C in Hz. apply (ho_bound _ _ _ H). rewrite covers_cons. tauto.
  - intros z Hz Hz'. rewrite C in Hz. destruct Hz as [Hz|Hz]; [by apply (S1 z)|]. apply (ho_disj _ _ _ H z Hz). apply covers_cons. by right.
Qed.

Lemma release_small s fl al bp n y : heap_ok s fl ((bp, n) :: al) -> y ∈ nodes (release (bp, n) fl) -> y.2 < 2 ^ 32.
Proof.
  intros H Hy. pose proof (ho_alloc _ _ _ H) as [(Hn & Hb & _) _]%Forall_cons. simpl in Hn, Hb.
  destruct (release_ok (base_addr + SIZEOF_HEADER - 1) (bp, n) fl) as [G C]; [apply H|simpl; lia|done| |].
  { intros z Hz Hc'. apply (ho_disj _ _ _ H z Hc'). apply covers_cons. by left. }
  apply elem_of_cons in Hy as [->|Hy]; [done|]. destruct (gaps_addr _ _ _ G Hy) as (H1 & H2 & H3).
  pose proof (ho_bound _ _ _ H (y.1 + SIZEOF_HEADER * y.2 - 1)) as Hbd. pose proof (ho_brk _ _ _ H). pose proof (ho_base _ _ _ H).
  enough (y.1 + SIZEOF_HEADER * y.2 - 1 < u_brk s) by lia. apply Hbd. rewrite covers_cons.
  enough (covers (release (bp, n) fl) (y.1 + SIZEOF_HEADER * y.2 - 1)) as Hcv by (rewrite C in Hcv; tauto).
  apply H3. unfold in_blk. lia.
Qed.

Lemma addr_free s fl al bp n : heap_ok s fl ((bp, n) :: al) -> bp ∉ (nodes fl).*1 /\ bp ∉ al.*1.
Proof.
  intros H. pose proof (ho_alloc _ _ _ H) as [(Hn & Hb & _) Ha]%Forall_cons. simpl in Hn, Hb.
  assert (in_blk (bp, n) bp) as Hin by (by apply (in_blk_addr (bp, n))). split.
  - simpl. rewrite not_elem_of_cons. split; [lia|].
    intros (y & -> & Hy)%list_elem_of_fmap. destruct (gaps_addr _ _ _ (ho_gaps _ _ _ H) Hy) as (_ & H2 & H3).
    apply (ho_disj _ _ _ H y.1); [by apply H3, in_blk_addr|]. apply covers_cons. by left.
  - intros (y & -> & Hy)%list_elem_of_fmap. destruct (ho_spaced _ _ _ H) as [S1 _]. apply (S1 _ Hin). exists y.
    rewrite Forall_forall in Ha. split; [done|]. apply in_blk_addr. by apply Ha.
Qed.

Lemma free_spec s fl al bp n : heap_ok s fl ((bp, n) :: al) ->
  exists s', free (bp + SIZEOF_HEADER) s = Ret tt s' /\ heap_ok s' (release (bp, n) fl) al /\ u_brk s' = u_brk s.
Proof.
  intros H. pose proof (ho_alloc _ _ _ H) as [(Hn & Hb & q & Hq) Ha]%Forall_cons. simpl in Hn, Hb, Hq.
  destruct (ho_list _ _ _ H) as [(_ & _ & ?)|[Hc Hf]]; [done|]. destruct (addr_free _ _ _ _ _ H) as [Hni Hna].
  pose proof (ho_gaps _ _ _ H) as Hg. pose proof (nodes_NoDup _ Hg) as Hnd.
  destruct (split_nodes fl bp n Hg Hb) as (l1 & x & l2 & E & H1 & H2 & Er).
  { simpl in Hni. rewrite not_elem_of_cons in Hni. tauto. }
  destruct (free_run s l1 l2 x bp n q) as (m' & Ef & Hcm & Hm).
  - by rewrite <- E.
  - done.
  - by rewrite <- E.
  - by rewrite <- E.
  - apply (find_place_spec s fl Hc Hg bp (length l1)); [by rewrite E, list_lookup_middle| |done|done].
    intros i y Hy. rewrite E in Hy. apply lookup_app_Some in Hy as [Hy|[Hle Hy]].
    + pose proof (lookup_lt_Some _ _ _ Hy). split; [lia|]. intros _. apply H1. apply elem_of_app. left. by eapply list_elem_of_lookup_2.
    + destruct (i - length l1)%nat as [|k] eqn:Ek; simplify_eq/=; [split; [lia|]; intros _; apply H1, elem_of_app; right; by left|].
      apply list_elem_of_lookup_2, H2 in Hy. lia.
  - assert (forall y, y ∈ x :: l2 -> y ∈ nodes fl) as Hsub by (intros y Hy; rewrite E; apply elem_of_app; by right).
    split; [apply (fl_small _ _ _ x H), Hsub; by left|]. split; [lia|]. split.
    + apply Forall_forall. intros y Hy. pose proof (H2 y Hy). assert (y ∈ nodes fl) as [->|Hy']%elem_of_cons by (apply Hsub; by right).
      * simpl in *. lia.
      * by destruct (gaps_addr _ _ _ Hg Hy') as (_ & ? & _).
    + intros y Hy. apply (release_small _ _ _ _ _ y H). rewrite <- Er. apply elem_of_app. by right.
  - intros _. lia.
  - eexists. split; [exact Ef|]. split; [|done]. rewrite Er in Hcm. apply (release_heap s _ _ fl al bp n H Hcm).
    + rewrite <- Er, fmap_app. apply elem_of_app. right. unfold merge_prev. destruct (merge_next _ _); [by left|].
      destruct (_ =? _); by left.
    + intros a Hal. apply Hm; [by intros ->|]. intros ->. apply list_elem_of_fmap in Hal as (y & Ey & Hy).
      assert (x ∈ nodes fl) as [->|Hx]%elem_of_cons by (rewrite E; apply elem_of_app; right; by left).
      * rewrite Forall_forall in Ha. destruct (Ha y Hy) as (_ & Hlow & _). simpl in Ey. lia.
      * destruct (gaps_addr _ _ _ Hg Hx) as (_ & Hx2 & Hx3). apply (ho_disj _ _ _ H x.1); [by apply Hx3, in_blk_addr|].
        apply covers_cons. right. exists y. split; [done|]. rewrite Ey. apply in_blk_addr. rewrite Forall_forall in Ha. by apply Ha.
Qed.

(** ** malloc: taking a block *)
(** Replacing a block of the list by a smaller one at the same address, or by
    none; the rest of the list, [l1] and [l2], stays. *)
Lemma gaps_shrink lo l1 y l2 k : gaps lo (l1 ++ y :: l2) -> 1 <= k <= y.2 -> gaps lo (l1 ++ (y.1, k) :: l2).
Proof.
  revert lo. induction l1 as [|x l1 IH]; intros lo; simpl.
  - intros (H1 & H2 & H3) Hk. split; [done|]. split; [lia|]. eapply gaps_weaken; [|done]. lia.
  - intros (H1 & H2 & H3) Hk. auto.
Qed.
Lemma gaps_drop lo l1 y l2 : gaps lo (l1 ++ y :: l2) -> gaps lo (l1 ++ l2).
Proof.
  revert lo. induction l1 as [|x l1 IH]; intros lo; simpl.
  - intros (H1 & H2 & H3). eapply gaps_weaken; [|done]. lia.
  - intros (H1 & H2 & H3). auto.
Qed.

(** A heap from which the block [(r, n)] has been taken. *)
Lemma taken_heap s m' p fl fl' al r n q : heap_ok s fl al -> 1 <= n ->
  chain m' (nodes fl') base_addr -> p ∈ (nodes fl').*1 -> gaps (base_addr + SIZEOF_HEADER - 1) fl' ->
  (forall z, covers fl z <-> covers fl' z \/ in_blk (r, n) z) -> (forall z, covers fl' z -> ~ in_blk (r, n) z) ->
  m' !! r = Some (mk_header q n) -> (forall a, a ∈ al.*1 -> m' !! a = u_mem s !! a) ->
  heap_ok (mk_ustate m' p (u_brk s)) fl' ((r, n) :: al).
Proof.
  intros H Hn Hc Hp Hg Hcv Hd Hr Hm. pose proof (ho_alloc _ _ _ H) as Ha.
  assert (in_blk (r, n) r) as Hin by (by apply (in_blk_addr (r, n))).
  split; simpl; try apply H; try done.
  - by right.
  - constructor; [split; [done|]; split; [|by exists q]|].
    + simpl. assert (covers fl r) as Hcr by (apply Hcv; by right). apply (gaps_lt _ _ _ (ho_gaps _ _ _ H)) in Hcr.
      lia.
    + apply Forall_forall. intros y Hy. rewrite Forall_forall in Ha. destruct (Ha y Hy) as (A1 & A2 & A3). split; [done|]. split; [done|].
      rewrite Hm; [done|]. apply list_elem_of_fmap. eauto.
  - intros z. rewrite covers_cons. intros Hz. apply (ho_bound _ _ _ H). rewrite Hcv. tauto.
  - split; [|apply H]. intros z Hz Hz'. apply (ho_disj _ _ _ H z); [apply Hcv; by right|done].
  - intros z Hz [Hz'|Hz']%covers_cons; [by apply (Hd z)|]. apply (ho_disj _ _ _ H z); [apply Hcv; by left|done].
Qed.

Lemma al_notin s fl al y a : heap_ok s fl al -> y ∈ fl -> in_blk y a -> a ∉ al.*1.
Proof.
  intros H Hy Hin (w & -> & Hw)%list_elem_of_fmap. apply (ho_disj _ _ _ H w.1); [by exists y|]. exists w. split; [done|].
  apply in_blk_addr. pose proof (ho_alloc _ _ _ H) as Ha. rewrite Forall_forall in Ha. by apply Ha.
Qed.
Lemma base_notin s fl al : heap_ok s fl al -> base_addr ∉ al.*1.
Proof.
  intros H (w & E & Hw)%list_elem_of_fmap. pose proof (ho_alloc _ _ _ H) as Ha. rewrite Forall_forall in Ha.
  destruct (Ha w Hw) as (_ & Hlow & _). lia.
Qed.

Lemma gaps_disj lo l1 y l2 z : gaps lo (l1 ++ y :: l2) -> covers (l1 ++ l2) z -> ~ in_blk y z.
Proof.
  revert lo. induction l1 as [|x l1 IH]; intros lo; simpl.
  - intros (H1 & H2 & H3) Hc Hz. apply (gaps_lt _ _ _ H3) in Hc. unfold in_blk in Hz. lia.
  - intros (H1 & H2 & H3) [Hc|Hc]%covers_cons Hz; [|by apply (IH _ H3)].
    assert (y ∈ l1 ++ y :: l2) as Hy by (apply elem_of_app; right; by left).
    destruct (gaps_addr _ _ _ H3 Hy) as (? & _). unfold in_blk in *. lia.
Qed.

Section take.
Variables (s : ustate) (f1 l2 al : list blk) (l1 : list blk) (x y : blk) (nunits : Z).
Let fl : list blk := f1 ++ y :: l2.
Hypothesis H : heap_ok s fl al.
Hypothesis Hc : chain (u_mem s) (nodes fl) base_addr.
Hypothesis E1 : (base_addr, 0) :: f1 = l1 ++ [x].
Hypothesis Hn : 1 <= nunits <= y.2.

Lemma take_nodes l : nodes (f1 ++ l) = l1 ++ x :: l.
Proof using E1. unfold nodes. rewrite app_comm_cons, E1, <- app_assoc. done. Qed.

Lemma take_facts : y.1 ∉ (l1 ++ [x]).*1 /\ y.1 ∉ l2.*1 /\ x.1 ∉ l1.*1 /\ x.1 ∉ l2.*1 /\ x.1 ∉ al.*1 /\
  (forall a, in_blk y a -> a ∉ al.*1 /\ (a ∈ (nodes fl).*1 -> a = y.1)).
Proof using All.
  pose proof (ho_gaps _ _ _ H) as Hg. pose proof (nodes_NoDup _ Hg) as Hnd. unfold fl in Hnd. rewrite take_nodes in Hnd.
  replace (l1 ++ x :: y :: l2) with ((l1 ++ [x]) ++ y :: l2) in Hnd by (by rewrite <- app_assoc).
  rewrite fmap_app in Hnd. apply NoDup_app in Hnd as (N1 & N2 & N3). simpl in N3. apply NoDup_cons in N3 as [N3 _].
  rewrite fmap_app in N1. simpl in N1. apply NoDup_app in N1 as (_ & N1 & _).
  assert (y ∈ fl) as Hy by (apply elem_of_app; right; by left).
  assert (x ∈ nodes fl) as Hx by (unfold fl; rewrite take_nodes; apply elem_of_app; right; by left).
  split; [intros Hin; apply (N2 _ Hin); by left|]. split; [done|].
  split; [intros Hin; apply (N1 _ Hin); by left|].
  split; [intros Hin; apply (N2 x.1); [rewrite fmap_app; apply elem_of_app; right; by left|by right]|]. split.
  - apply elem_of_cons in Hx as [->|Hx]; [by eapply base_notin|]. apply (al_notin s fl al x x.1 H Hx). apply in_blk_addr.
    by apply (gaps_addr _ _ _ Hg Hx).
  - intros a Ha. split; [by apply (al_notin s fl al y a H)|]. intros (w & -> & [->|Hw]%elem_of_cons)%list_elem_of_fmap.
    + destruct (gaps_addr _ _ _ Hg Hy) as (? & _). unfold in_blk in *. simpl in *. lia.
    + unfold fl in Hw. apply elem_of_app in Hw as [Hw|[->|Hw]%elem_of_cons]; [|done|];
        exfalso; apply (gaps_disj _ f1 y l2 w.1 Hg); try done; exists w;
        (split; [apply elem_of_app; auto|apply in_blk_addr; apply (gaps_addr _ _ _ Hg)]; apply elem_of_app; rewrite elem_of_cons; auto).
Qed.

Lemma take_block_run : exists r s' fl',
  take_block x.1 y.1 nunits (mk_header (first l2 base_addr) y.2) s = Ret (r + SIZEOF_HEADER) s' /\
  heap_ok s' fl' ((r, nunits) :: al) /\ u_brk s' = u_brk s /\ (forall z, covers fl z <-> covers fl' z \/ in_blk (r, nunits) z).
Proof using All.
  pose proof (ho_gaps _ _ _ H) as Hg. destruct take_facts as (T1 & T2 & T3 & T4 & T5 & T6).
  pose proof Hc as Hc'. unfold fl in Hc'. rewrite take_nodes in Hc'. apply chain_app in Hc' as (C1 & C2 & C3 & C4).
  assert (y.1 ∉ l1.*1 /\ y.1 <> x.1) as [T7 T8].
  { rewrite fmap_app, not_elem_of_app in T1. simpl in T1. rewrite list_elem_of_singleton in T1. tauto. }
  assert (forall z, covers fl z <-> covers (f1 ++ l2) z \/ in_blk y z) as Hcv
    by (intros z; unfold fl; rewrite !covers_app, covers_cons; tauto).
  unfold take_block. cbn [h_size h_ptr]. destruct (Z.eqb_spec y.2 nunits) as [En|En].
  - run (set_ptr_run s x.1 (first l2 base_addr) _ C2). run_steps.
    eexists y.1, _, (f1 ++ l2). split; [done|]. replace (y.1, nunits) with y by (rewrite <- En; by destruct y).
    split; [|done]. rewrite (surjective_pairing y). eapply (taken_heap s _ _ fl); try done; cbn [fst snd u_mem u_freep set_u_mem set_u_freep].
    + lia.
    + rewrite take_nodes. apply chain_app. split; [by apply chain_insert|]. simpl. rewrite lookup_insert_eq. split; [done|]. by apply chain_insert.
    + rewrite take_nodes, fmap_app. apply elem_of_app. right. by left.
    + by eapply gaps_drop.
    + intros z Hz. exact (gaps_disj _ _ _ _ z Hg Hz).
    + rewrite lookup_insert_ne by done. exact C3.
    + intros a Ha. rewrite lookup_insert_ne; [done|]. by intros <-.
  - set (k := y.2 - nunits). set (r := y.1 + SIZEOF_HEADER * k).
    assert (in_blk y r) as Hr by (unfold in_blk, r, k; lia).
    assert (r <> y.1) as Hry by (unfold r, k; lia).
    assert (in_blk y y.1) as Hyy by (apply in_blk_addr; lia).
    destruct (T6 r Hr) as [R1 R2]. destruct (T6 y.1 Hyy) as [R3 _].
    assert (r ∉ (l1 ++ x :: (y.1, k) :: l2).*1) as R4.
    { intros Hin. apply Hry, R2. unfold fl. rewrite take_nodes, !fmap_app in *. done. }
    run (set_size_run s y.1 k _ C3). cbn [h_ptr].
    run (set_size_any (set_u_mem (<[y.1 := mk_header (first l2 base_addr) k]> (u_mem s)) s) r nunits). run_steps. eexists r, _, (f1 ++ (y.1, k) :: l2). split; [done|].
    assert (forall z, in_blk y z <-> in_blk (y.1, k) z \/ in_blk (r, nunits) z) as Hsp
      by (intros z; unfold in_blk, r, k; simpl; lia).
    assert (forall z, covers fl z <-> covers (f1 ++ (y.1, k) :: l2) z \/ in_blk (r, nunits) z) as Hcv'.
    { intros z. rewrite Hcv, Hsp, !covers_app, covers_cons. tauto. }
    split; [|split; [done|exact Hcv']]. eapply (taken_heap s _ _ fl); try done; cbn [fst snd u_mem u_freep set_u_mem set_u_freep].
    + lia.
    + rewrite take_nodes. apply chain_insert; [done|]. apply chain_app. split; [by apply chain_insert|].
      simpl. rewrite lookup_insert_ne by done. split; [done|]. rewrite lookup_insert_eq. split; [done|]. by apply chain_insert.
    + rewrite take_nodes, fmap_app. apply elem_of_app. right. by left.
    + apply (gaps_shrink _ _ y); [done|unfold k; lia].
    + intros z. rewrite covers_app, covers_cons. intros Hz Hz'.
      assert (in_blk y z) as Hyz by (apply Hsp; by right).
      assert (~ in_blk (y.1, k) z) as Hnk by (unfold in_blk, r, k in *; simpl in *; lia).
      apply (gaps_disj _ f1 y l2 z Hg); [|done]. rewrite covers_app. tauto.
    + apply lookup_insert_eq.
    + intros a Ha. rewrite !lookup_insert_ne; [done|by intros <-|by intros <-].
Qed.
End take.

Lemma take_block_spec s fl al i x y nunits : heap_ok s fl al -> chain (u_mem s) (nodes fl) base_addr ->
  nodes fl !! i = Some x -> nodes fl !! S i = Some y -> 1 <= nunits <= y.2 ->
  exists r s' fl', take_block x.1 y.1 nunits (mk_header (first (drop (S (S i)) (nodes fl)) base_addr) y.2) s = Ret (r + SIZEOF_HEADER) s' /\
    heap_ok s' fl' ((r, nunits) :: al) /\ u_brk s' = u_brk s /\ (forall z, covers fl z <-> covers fl' z \/ in_blk (r, nunits) z).
Proof.
  intros H Hc Hx Hy Hn. simpl in Hy. assert (fl = take i fl ++ y :: drop (S i) fl) as E by (by rewrite <- (drop_S _ _ _ Hy), take_drop).
  assert ((base_addr, 0) :: take i fl = take i (nodes fl) ++ [x]) as E1.
  { change ((base_addr, 0) :: take i fl) with (take (S i) (nodes fl)). by apply take_S_r. }
  pose proof (take_block_run s (take i fl) (drop (S i) fl) al (take i (nodes fl)) x y nunits) as R. cbv zeta in R.
  rewrite <- E in R. by apply R.
Qed.

(** ** morecore *)
Lemma nodes_below s fl al a : heap_ok s fl al -> u_brk s <= a -> a ∉ (nodes fl).*1 /\ a ∉ al.*1.
Proof.
  intros H Ha. pose proof (ho_brk _ _ _ H) as Hb. pose proof (ho_bound _ _ _ H) as Hbd. split.
  - simpl. rewrite not_elem_of_cons. split; [lia|]. intros (y & -> & Hy)%list_elem_of_fmap.
    destruct (gaps_addr _ _ _ (ho_gaps _ _ _ H) Hy) as (_ & H2 & H3). specialize (Hbd y.1 (or_introl (H3 _ (in_blk_addr y H2)))). lia.
  - intros (y & -> & Hy)%list_elem_of_fmap. pose proof (ho_alloc _ _ _ H) as Hal. rewrite Forall_forall in Hal.
    assert (covers al y.1) as Hc by (exists y; split; [done|apply in_blk_addr; by apply Hal]). specialize (Hbd _ (or_intror Hc)). lia.
Qed.

Lemma grow_heap s fl al nu q : heap_ok s fl al -> chain (u_mem s) (nodes fl) base_addr -> u_freep s ∈ (nodes fl).*1 -> 1 <= nu ->
  u_brk s + SIZEOF_HEADER * nu < 2 ^ 31 ->
  heap_ok (mk_ustate (<[u_brk s := mk_header q nu]> (u_mem s)) (u_freep s) (u_brk s + SIZEOF_HEADER * nu)) fl ((u_brk s, nu) :: al).
Proof.
  intros H Hc Hf Hn Hb. destruct (nodes_below s fl al (u_brk s) H ltac:(lia)) as [N1 N2].
  pose proof (ho_brk _ _ _ H) as Hbr. pose proof (ho_bound _ _ _ H) as Hbd. pose proof (ho_alloc _ _ _ H) as Ha.
  assert (forall z, in_blk (u_brk s, nu) z -> u_brk s <= z < u_brk s + SIZEOF_HEADER * nu) as Hnew by (intros z Hz; exact Hz).
  split; cbn [u_mem u_freep u_brk]; try apply H; try done.
  - lia.
  - right. split; [by apply chain_insert|done].
  - constructor; [simpl; split; [done|]; split; [lia|]; rewrite lookup_insert_eq; eauto|].
    apply Forall_forall. intros y Hy. rewrite Forall_forall in Ha. destruct (Ha y Hy) as (A1 & A2 & A3). split; [done|]. split; [done|].
    rewrite lookup_insert_ne; [done|]. intros E. apply N2. rewrite E. apply list_elem_of_fmap. eauto.
  - intros z. rewrite covers_cons. intros Hz. assert (z < u_brk s \/ in_blk (u_brk s, nu) z) as [?|?%Hnew] by (specialize (Hbd z); tauto);
      lia.
  - split; [|apply H]. intros z Hz%Hnew Hz'. specialize (Hbd _ (or_intror Hz')). lia.
  - intros z Hz [Hz'|Hz']%covers_cons; [|by apply (ho_disj _ _ _ H z)]. specialize (Hbd _ (or_introl Hz)). apply Hnew in Hz'. lia.
Qed.

Lemma release_big b l lo : gaps lo l -> 1 <= b.2 -> exists y, y ∈ release b l /\ b.2 <= y.2.
Proof.
  revert lo. induction l as [|x l IH]; intros lo Hg Hb; cbn [release].
  - exists b. split; [by left|lia].
  - destruct Hg as (H1 & H2 & Hg). destruct (x.1 <? b.1).
    + destruct (IH _ Hg Hb) as (y & Hy & Hle). unfold merge_prev. destruct (release b l) as [|c r]; [by apply elem_of_nil in Hy|].
      destruct (_ =? _); [|exists y; split; [by right|done]].
      apply elem_of_cons in Hy as [->|Hy]; [exists (x.1, x.2 + c.2); split; [by left|simpl; lia]|exists y; split; [by right|done]].
    + unfold merge_next. destruct (_ =? _); [exists (b.1, b.2 + x.2); split; [by left|simpl; lia]|exists b; split; [by left|lia]].
Qed.

Lemma length_release b l : (length (release b l) <= S (length l))%nat.
Proof.
  induction l as [|x l IH]; [done|]. cbn [release]. destruct (x.1 <? b.1).
  - unfold merge_prev. destruct (release b l); [simpl; lia|]. destruct (_ =? _); simpl in *; lia.
  - unfold merge_next. destruct (_ =? _); simpl; lia.
Qed.

Definition grow_units (nu : Z) : Z := if nu <? 4096 then 4096 else nu.

Lemma morecore_spec s fl al nu : heap_ok s fl al -> chain (u_mem s) (nodes fl) base_addr -> u_freep s ∈ (nodes fl).*1 ->
  1 <= nu < 2 ^ 28 ->
  (morecore nu s = Ret 0 s /\ can_grow (u_brk s) (SIZEOF_HEADER * grow_units nu) = false) \/
  exists s', morecore nu s = Ret (u_freep s') s' /\ heap_ok s' (release (u_brk s, grow_units nu) fl) al /\ u_freep s' <> 0 /\
    u_brk s' = u_brk s + SIZEOF_HEADER * grow_units nu.
Proof.
  intros H Hc Hf Hn. unfold morecore. fold (grow_units nu). set (k := grow_units nu).
  assert (1 <= k < 2 ^ 28) as Hk by (unfold k, grow_units; destruct (Z.ltb_spec nu 4096); lia).
  rewrite u32_small, s32_small by lia. replace (k * SIZEOF_HEADER) with (SIZEOF_HEADER * k) by lia.
  unfold sbrk. rewrite bind_bind, bind_gets. rewrite (proj2 (Z.ltb_lt 0 _)) by lia. destruct (can_grow (u_brk s) (SIZEOF_HEADER * k)) eqn:Eg.
  - right. pose proof (grow_bound _ _ Eg) as Hb. run_steps. pose proof (ho_brk _ _ _ H) as Hbr. pose proof (ho_base _ _ _ H).
    rewrite (proj2 (Z.eqb_neq _ _)) by lia.
    run (set_size_any (mk_ustate (u_mem s) (u_freep s) (u_brk s + SIZEOF_HEADER * k)) (u_brk s) k).
    pose proof (grow_heap s fl al k (default 0 (h_ptr <$> u_mem s !! u_brk s)) H Hc Hf ltac:(lia) Hb) as H'.
    destruct (free_spec _ _ _ _ _ H') as (s' & Ef & Hs' & Hbk). run Ef. exists s'. split; [done|]. split; [done|].
    split; [|done]. intros E0. destruct (ho_list _ _ _ Hs') as [(_ & Hnil & _)|[_ Hin]].
    + destruct (release_big (u_brk s, k) fl _ (ho_gaps _ _ _ H) ltac:(simpl; lia)) as (y & Hy & _). rewrite Hnil in Hy. by apply elem_of_nil in Hy.
    + rewrite E0 in Hin. apply list_elem_of_fmap in Hin as (y & Ey & [->|Hy]%elem_of_cons); [simpl in Ey; lia|].
      destruct (gaps_addr _ _ _ (ho_gaps _ _ _ Hs') Hy) as (? & _). lia.
  - left. by run_steps.
Qed.

(** ** malloc: searching the list *)
Section search.
Variables (s : ustate) (fl : list blk) (nunits : Z).
Hypothesis Hc : chain (u_mem s) (nodes fl) base_addr.
Hypothesis Hg : gaps (base_addr + SIZEOF_HEADER - 1) fl.
Hypothesis Hn : 1 <= nunits.
Variables (f : nat) (xf : blk).
Hypothesis Hf : nodes fl !! f = Some xf.
Hypothesis Hfreep : u_freep s = xf.1.

(** The rest of [malloc] when no block of the list is large enough. *)
Definition grow_then (fuel : nat) : M ustate Z :=
  p ← morecore nunits;
  if p =? 0 then mret 0 else
  h ← get_h p; malloc_loop fuel nunits p (h_ptr h).

(** The search ends at a block that is large enough, or has seen the nodes
    [vis] in vain. *)
Definition searched (fuel d : nat) (vis : nat -> Prop) (prevp p : Z) : Prop :=
  (exists i x y, nodes fl !! i = Some x /\ nodes fl !! S i = Some y /\ nunits <= y.2 /\
     malloc_loop fuel nunits prevp p s =
     take_block x.1 y.1 nunits (mk_header (first (drop (S (S i)) (nodes fl)) base_addr) y.2) s) \/
  (exists fuel', (fuel = fuel' + S d)%nat /\ malloc_loop fuel nunits prevp p s = grow_then fuel' s /\
     forall k y, vis k -> nodes fl !! k = Some y -> y.2 < nunits).

Lemma addr_inj i j x y : nodes fl !! i = Some x -> nodes fl !! j = Some y -> x.1 = y.1 -> i = j.
Proof using Hg.
  intros Hx Hy E. pose proof (nodes_NoDup _ Hg) as Hnd. eapply NoDup_lookup; [exact Hnd| |]; rewrite list_lookup_fmap.
  - by rewrite Hx.
  - rewrite Hy. simpl. by rewrite E.
Qed.

(** One turn of the loop, at node [j] after node [i]. *)
Lemma search_step i j x y fuel : nodes fl !! i = Some x -> nodes fl !! j = Some y ->
  (j = S i \/ (S i = length (nodes fl) /\ j = O)) ->
  (nunits <= y.2 /\ j = S i /\ malloc_loop (S fuel) nunits x.1 y.1 s =
     take_block x.1 y.1 nunits (mk_header (first (drop (S j) (nodes fl)) base_addr) y.2) s) \/
  (y.2 < nunits /\ malloc_loop (S fuel) nunits x.1 y.1 s =
     if decide (j = f) then grow_then fuel s
     else malloc_loop fuel nunits y.1 (first (drop (S j) (nodes fl)) base_addr) s).
Proof using All.
  intros Hx Hy Hj. cbn [malloc_loop]. run (node_read s fl Hc j y Hy). cbn [h_size h_ptr].
  destruct (Z.leb_spec nunits y.2) as [Hle|Hlt].
  - left. split; [done|]. split; [|done]. destruct Hj as [?|[_ ->]]; [done|]. simplify_eq/=. lia.
  - right. split; [done|]. run_steps. rewrite Hfreep. destruct (decide (j = f)) as [->|Hne].
    + assert (y = xf) as -> by congruence. by rewrite Z.eqb_refl.
    + rewrite (proj2 (Z.eqb_neq _ _)); [done|]. intros E. by apply Hne, (addr_inj _ _ _ _ Hy Hf).
Qed.

Lemma search_forward d i j x y fuel : nodes fl !! i = Some x -> nodes fl !! j = Some y ->
  (j = S i \/ (S i = length (nodes fl) /\ j = O)) -> (f = j + d)%nat -> (d < fuel)%nat ->
  searched fuel d (fun k => j <= k <= f)%nat x.1 y.1.
Proof using All.
  revert i j x y fuel. induction d as [|d IH]; intros i j x y fuel Hx Hy Hj Hd Hfu; (destruct fuel as [|fuel]; [lia|]);
    (destruct (search_step i j x y fuel Hx Hy Hj) as [(Hle & -> & E)|[Hlt E]]; [left; by exists i, x, y|]).
  - right. exists fuel. split; [lia|]. rewrite E, decide_True by lia. split; [done|].
    intros k w Hk Hw. assert (k = j) as -> by lia. by simplify_eq.
  - rewrite decide_False in E by lia. destruct (next_node fl j y Hy) as (j' & y' & Hy' & En & Hj'). rewrite En in E.
    pose proof (lookup_lt_Some _ _ _ Hf). assert (j' = S j) as -> by lia.
    destruct (IH j (S j) y y' fuel Hy Hy' Hj' ltac:(lia) ltac:(lia)) as [(i0 & x0 & y0 & H1 & H2 & H3 & H4)|(fu & H1 & H2 & H3)].
    + left. exists i0, x0, y0. by rewrite E.
    + right. exists fu. split; [lia|]. split; [by rewrite E|]. intros k w Hk Hw.
      destruct (decide (k = j)) as [->|]; [by simplify_eq|]. apply (H3 k); [lia|done].
Qed.

Lemma search_around d i j x y fuel : nodes fl !! i = Some x -> nodes fl !! j = Some y -> j = S i ->
  (f < j)%nat -> (j + d = length (nodes fl) - 1)%nat -> (d + S f < fuel)%nat ->
  searched fuel (d + S f) (fun k => j <= k \/ k <= f)%nat x.1 y.1.
Proof using All.
  revert i j x y fuel. induction d as [|d IH]; intros i j x y fuel Hx Hy Hj Hfj Hd Hfu; (destruct fuel as [|fuel]; [lia|]);
    (destruct (search_step i j x y fuel Hx Hy ltac:(by left)) as [(Hle & _ & E)|[Hlt E]]; [left; exists i, x, y; subst j; by eauto|]);
    rewrite decide_False in E by lia; destruct (next_node fl j y Hy) as (j' & y' & Hy' & En & Hj'); rewrite En in E;
    pose proof (lookup_lt_Some _ _ _ Hy') as Hl'.
  - assert (j' = O) as -> by lia.
    destruct (search_forward f j O y y' fuel Hy Hy' Hj' ltac:(lia) ltac:(lia)) as [(i0 & x0 & y0 & H1 & H2 & H3 & H4)|(fu & H1 & H2 & H3)].
    + left. exists i0, x0, y0. by rewrite E.
    + right. exists fu. split; [lia|]. split; [by rewrite E|]. intros k w [Hk|Hk] Hw; [|apply (H3 k); [lia|done]].
      pose proof (lookup_lt_Some _ _ _ Hw). assert (k = j) as -> by lia. by simplify_eq.
  - assert (j' = S j) as -> by lia.
    destruct (IH j (S j) y y' fuel Hy Hy' eq_refl ltac:(lia) ltac:(lia) ltac:(lia)) as [(i0 & x0 & y0 & H1 & H2 & H3 & H4)|(fu & H1 & H2 & H3)].
    + left. exists i0, x0, y0. by rewrite E.
    + right. exists fu. split; [lia|]. split; [by rewrite E|]. intros k w Hk Hw.
      destruct (decide (k = j)) as [->|]; [by simplify_eq|]. apply (H3 k); [lia|done].
Qed.

(** A whole turn around the list from [freep]. *)
Lemma search_all fuel : (length (nodes fl) <= fuel)%nat ->
  searched fuel (length (nodes fl) - 1) (fun _ => True) xf.1 (first (drop (S f) (nodes fl)) base_addr).
Proof using All.
  intros Hfu. destruct (next_node fl f xf Hf) as (j & y & Hy & En & Hj). rewrite En. pose proof (lookup_lt_Some _ _ _ Hf) as Hl.
  assert (length (nodes fl) = S (length fl)) as Hln by done.
  destruct Hj as [->|[Hj ->]].
  - pose proof (lookup_lt_Some _ _ _ Hy).
    replace (length (nodes fl) - 1)%nat with ((length (nodes fl) - 1 - S f) + S f)%nat by lia.
    destruct (search_around (length (nodes fl) - 1 - S f) f (S f) xf y fuel Hf Hy eq_refl ltac:(lia) ltac:(lia) ltac:(lia))
      as [?|(fu & H1 & H2 & H3)]; [by left|]. right. exists fu. split; [done|]. split; [done|]. intros k w _ Hw. apply (H3 k w); [lia|done].
  - replace (length (nodes fl) - 1)%nat with f by lia.
    destruct (search_forward f f O xf y fuel Hf Hy ltac:(by right) ltac:(lia) ltac:(lia)) as [?|(fu & H1 & H2 & H3)]; [by left|].
    right. exists fu. split; [done|]. split; [done|]. intros k w _ Hw. pose proof (lookup_lt_Some _ _ _ Hw). apply (H3 k w); [lia|done].
Qed.
End search.

(** What a successful [malloc] of [nunits] units leaves: the block [r], taken
    from the free bytes [fr]. *)
Definition got (al : list blk) (nunits : Z) (fr : Z -> Prop) (res : outcome ustate Z) (brk : Z) : Prop :=
  exists r s' fl', res = Ret (r + SIZEOF_HEADER) s' /\ heap_ok s' fl' ((r, nunits) :: al) /\ u_brk s' = brk /\
    (forall z, fr z <-> covers fl' z \/ in_blk (r, nunits) z).

Lemma freep_node s fl : u_freep s ∈ (nodes fl).*1 -> exists f xf, nodes fl !! f = Some xf /\ u_freep s = xf.1.
Proof. intros (xf & E & [f Hf]%list_elem_of_lookup_1)%list_elem_of_fmap. eauto. Qed.

(** A turn around a list that has a large enough block finds one. *)
Lemma search_finds s fl al nunits fuel : heap_ok s fl al -> chain (u_mem s) (nodes fl) base_addr -> u_freep s ∈ (nodes fl).*1 ->
  1 <= nunits -> (exists y, y ∈ fl /\ nunits <= y.2) -> (length (nodes fl) <= fuel)%nat ->
  got al nunits (covers fl) ((h ← get_h (u_freep s); malloc_loop fuel nunits (u_freep s) (h_ptr h)) s) (u_brk s).
Proof.
  intros H Hc Hf Hn (y & Hy & Hle) Hfu. destruct (freep_node _ _ Hf) as (f & xf & Hxf & E). rewrite E.
  run (node_read s fl Hc f xf Hxf). cbn [h_ptr].
  destruct (search_all s fl nunits Hc (ho_gaps _ _ _ H) Hn f xf Hxf E fuel Hfu) as [(i & x & w & H1 & H2 & H3 & ->)|(_ & _ & _ & H3)].
  - exact (take_block_spec s fl al i x w nunits H Hc H1 H2 (conj Hn H3)).
  - apply list_elem_of_lookup_1 in Hy as [k Hk]. pose proof (H3 (S k) y I Hk). lia.
Qed.

Lemma malloc_main s fl al nunits fuel : heap_ok s fl al -> chain (u_mem s) (nodes fl) base_addr -> u_freep s ∈ (nodes fl).*1 ->
  1 <= nunits < 2 ^ 28 -> (2 * length (nodes fl) + 2 <= fuel)%nat ->
  let res := (h ← get_h (u_freep s); malloc_loop fuel nunits (u_freep s) (h_ptr h)) s in
  got al nunits (covers fl) res (u_brk s) \/
  got al nunits (fun z => covers fl z \/ in_blk (u_brk s, grow_units nunits) z) res (u_brk s + SIZEOF_HEADER * grow_units nunits) \/
  (res = Ret 0 s /\ can_grow (u_brk s) (SIZEOF_HEADER * grow_units nunits) = false).
Proof.
  intros H Hc Hf Hn Hfu. cbv zeta. destruct (freep_node _ _ Hf) as (f & xf & Hxf & E). rewrite E.
  run (node_read s fl Hc f xf Hxf). cbn [h_ptr].
  destruct (search_all s fl nunits Hc (ho_gaps _ _ _ H) ltac:(lia) f xf Hxf E fuel ltac:(lia)) as [(i & x & w & H1 & H2 & H3 & ->)|(fu & H1 & -> & _)].
  - left. exact (take_block_spec s fl al i x w nunits H Hc H1 H2 (conj (proj1 Hn) H3)).
  - right. unfold grow_then. assert (length (nodes fl) = S (length fl)) as Hln by done.
    destruct (morecore_spec s fl al nunits H Hc Hf Hn) as [[Em Hg]|(s' & Em & H' & Hnz & Hb)].
    + right. run Em. done.
    + left. run Em. rewrite (proj2 (Z.eqb_neq _ _) Hnz). pose proof (ho_brk _ _ _ H) as Hbr. pose proof (ho_base _ _ _ H) as Hba.
      set (b := (u_brk s, grow_units nunits)) in *.
      assert (1 <= b.2 /\ nunits <= b.2) as [Hb1 Hb2] by (unfold b, grow_units; simpl; destruct (Z.ltb_spec nunits 4096); lia).
      destruct (release_ok (base_addr + SIZEOF_HEADER - 1) b fl (ho_gaps _ _ _ H)) as [_ C]; [simpl; lia|done| |].
      { intros z [Hz _] Hz'. simpl in Hz. pose proof (ho_bound _ _ _ H z (or_introl Hz')). lia. }
      destruct (release_big b fl _ (ho_gaps _ _ _ H) Hb1) as (y & Hy & Hle).
      assert (length (release b fl) <= S (length fl))%nat as Hlen by apply length_release.
      destruct (ho_list _ _ _ H') as [(_ & Hnil & _)|[Hc' Hf']]; [rewrite Hnil in Hy; by apply elem_of_nil in Hy|].
      destruct (search_finds s' _ al nunits fu H' Hc' Hf' ltac:(lia)) as (r & s2 & fl' & -> & H2 & Hb' & Hcv); [exists y; split; [done|lia]|simpl; lia|].
      exists r, s2, fl'. split; [done|]. split; [done|]. split; [lia|]. intros z. rewrite <- Hcv, C. tauto.
Qed.

Lemma init_heap s fl al : heap_ok s fl al -> exists s', heap_ok s' fl al /\ chain (u_mem s') (nodes fl) base_addr /\
  u_freep s' ∈ (nodes fl).*1 /\ u_brk s' = u_brk s /\
  forall A (k : M ustate A), (freep ← gets u_freep;
    (if freep =? 0 then put_h base_addr (mk_header base_addr 0) ;; modify (set_u_freep base_addr) else mret tt) ;; k) s = k s'.
Proof.
  intros H. destruct (ho_list _ _ _ H) as [(E & -> & ->)|[Hc Hf]].
  - exists (mk_ustate (<[base_addr := mk_header base_addr 0]> (u_mem s)) base_addr (u_brk s)).
    assert (chain (<[base_addr := mk_header base_addr 0]> (u_mem s)) (nodes []) base_addr) as Hc by (simpl; by rewrite lookup_insert_eq).
    assert (base_addr ∈ (nodes []).*1) as Hf by (by left).
    split; [split; simpl; try apply H; try done; by right|]. split; [done|]. split; [done|]. split; [done|].
    intros A k. rewrite bind_gets. rewrite E. done.
  - exists s. split; [done|]. split; [done|]. split; [done|]. split; [done|]. intros A k. rewrite bind_gets.
    rewrite (proj2 (Z.eqb_neq _ _)); [done|]. intros E0. rewrite E0 in Hf. pose proof (ho_base _ _ _ H).
    apply list_elem_of_fmap in Hf as (y & Ey & [->|Hy]%elem_of_cons); [simpl in Ey; lia|].
    destruct (gaps_addr _ _ _ (ho_gaps _ _ _ H) Hy) as (? & _). lia.
Qed.

Lemma nunits_ok nbytes : 0 <= nbytes < 2 ^ 31 - 15 ->
  1 <= nunits_of nbytes < 2 ^ 28 /\ nbytes <= SIZEOF_HEADER * (nunits_of nbytes - 1) < nbytes + SIZEOF_HEADER.
Proof.
  intros Hn. unfold nunits_of. rewrite (u32_small (nbytes + 8 - 1)) by lia.
  pose proof (Z.div_mod (nbytes + 8 - 1) 8 ltac:(lia)). pose proof (Z.mod_pos_bound (nbytes + 8 - 1) 8 ltac:(lia)).
  rewrite u32_small by lia. lia.
Qed.
End umalloc.

(** ** Theorem *)

(** C28: The allocator is safe and loses nothing.  In a well-formed heap (free
    blocks linked in address order with no two adjacent, allocated blocks
    disjoint from them and from each other): [malloc] of less than
    [2 ^ 31 - 15] bytes (beyond that the request of [morecore] is negative as
    an [int], and near [2 ^ 32] the number of units wraps around) terminates and returns a
    block with room for [nbytes] bytes and less than one unit of waste, disjoint
    from every other allocated block and cut out of the free bytes, to which
    memory from [sbrk] is added when they do not suffice, or 0, which happens
    only when [sbrk] refuses; [free] of an allocated block terminates and adds
    exactly its bytes to the free ones, coalesced with its neighbours.  The
    heap stays well formed. *)
Theorem umalloc_correct {HP : Heap} s fl al :
  heap_ok s fl al ->
  (forall nbytes, 0 <= nbytes < 2 ^ 31 - 15 ->
     let nunits := nunits_of nbytes in
     nbytes <= SIZEOF_HEADER * (nunits - 1) < nbytes + SIZEOF_HEADER /\
     (got al nunits (covers fl) (malloc nbytes s) (u_brk s) \/
      got al nunits (fun z => covers fl z \/ in_blk (u_brk s, grow_units nunits) z) (malloc nbytes s)
        (u_brk s + SIZEOF_HEADER * grow_units nunits) \/
      (exists s', malloc nbytes s = Ret 0 s' /\ heap_ok s' fl al /\
         can_grow (u_brk s) (SIZEOF_HEADER * grow_units nunits) = false))) /\
  (forall bp n al', al = (bp, n) :: al' ->
     exists s' fl', free (bp + SIZEOF_HEADER) s = Ret tt s' /\ heap_ok s' fl' al' /\ u_brk s' = u_brk s /\
       (forall z, covers fl' z <-> in_blk (bp, n) z \/ covers fl z)).
Proof.
  intros H. split.
  - intros nbytes Hn. cbv zeta. destruct (nunits_ok nbytes Hn) as [Hu Hsz]. split; [done|].
    unfold malloc. destruct (init_heap s fl al H) as (s1 & H1 & Hc & Hf & Hb & ->). rewrite !bind_gets.
    rewrite <- Hb. pose proof (chain_size _ _ _ Hc (nodes_NoDup _ (ho_gaps _ _ _ H1))) as Hs.
    destruct (malloc_main s1 fl al (nunits_of nbytes) (2 * size (u_mem s1) + 4) H1 Hc Hf Hu ltac:(lia)) as [G|[G|[G Hg]]].
    + left. exact G.
    + right. left. exact G.
    + right. right. exists s1. split; [exact G|]. split; [exact H1|exact Hg].
  - intros bp n al' ->. destruct (free_spec _ _ _ _ _ H) as (s' & E & H' & Hb). exists s', (release (bp, n) fl).
    split; [done|]. split; [done|]. split; [done|].
    pose proof (ho_alloc _ _ _ H) as [(Hn & Hlow & _) _]%Forall_cons. simpl in Hn, Hlow.
    apply (release_ok (base_addr + SIZEOF_HEADER - 1)); [apply H|simpl; lia|done|].
    intros z Hz Hz'. apply (ho_disj _ _ _ H z Hz'). apply covers_cons. by left.
Qed.

(** ** A run: a heap with one free block and one allocated block *)
Definition demo_heap : Heap.
Proof.
  refine {| base_addr := 0x1000; can_grow := fun brk n => brk + n <? 2 ^ 31 |}. intros brk n. apply Z.ltb_lt.
Defined.
#[local] Existing Instance demo_heap.
Definition demo_ustate : ustate :=
  mk_ustate {[ 0x1000 := mk_header 0x2000 0; 0x2000 := mk_header 0x1000 10; 0x2080 := mk_header 0 3 ]} 0x1000 0x3000.

Lemma demo_heap_ok : heap_ok demo_ustate [(0x2000, 10)] [(0x2080, 3)].
Proof.
  assert (forall x z, covers [x] z <-> in_blk x z) as C by (intros x z; rewrite covers_cons; split; [intros [?|?%covers_nil]; done|by left]).
  split; simpl.
  - done.
  - done.
  - right. split; [done|]. by left.
  - done.
  - apply Forall_singleton. simpl. split; [done|]. split; [done|]. by exists 0.
  - intros z. rewrite !C. unfold in_blk. simpl. lia.
  - split; [intros z _; apply covers_nil|done].
  - intros z. rewrite !C. unfold in_blk. simpl. lia.
Qed.

Lemma umalloc_correct_witness :
  got [(0x2080, 3)] 4 (covers [(0x2000, 10)]) (malloc 20 demo_ustate) 0x3000 /\
  exists s' fl', free 0x2088 demo_ustate = Ret tt s' /\ heap_ok s' fl' [].
Proof.
  destruct (umalloc_correct demo_ustate _ _ demo_heap_ok) as [HM HF]. split.
  - destruct (HM 20 ltac:(lia)) as [_ [G|[G|(s' & G & _)]]]; [exact G| |].
    + exfalso. destruct G as (r & s' & fl' & E & _ & Hb & _). vm_compute in E. injection E as _ <-. vm_compute in Hb. discriminate Hb.
    + exfalso. vm_compute in G. discriminate G.
  - destruct (HF 0x2080 3 [] eq_refl) as (s' & fl' & E & H & _). exists s', fl'. split; [exact E|exact H].
Defined.

(** A request near [2 ^ 32] wraps around to one unit. *)
Lemma malloc_wraps : nunits_of (2 ^ 32 - 1) = 1.
Proof. reflexivity. Qed.

(** The bound is sharp: from [2 ^ 31 - 15] bytes on, [sbrk] is asked for a
    negative number of bytes and does not refuse, and [malloc] returns a block
    that starts at the break, which has not moved. *)
Lemma malloc_negative :
  s32 (u32 (SIZEOF_HEADER * nunits_of (2 ^ 31 - 15))) = - 2 ^ 31 /\
  exists s', malloc (2 ^ 31 - 15) demo_ustate = Ret (u_brk demo_ustate + SIZEOF_HEADER) s' /\ u_brk s' = u_brk demo_ustate.
Proof. split; [reflexivity|]. eexists. split; vm_compute; reflexivity. Qed.
