(* ===== verification/Sh.v ===== *)
(** * The shell's command parser (sh.c)

  The parser walks a pointer [s] through a line that ends at [es]; the state
  is the text from [s] to [es].  A pointer into the line is its distance to
  [es].  [panic] of the shell prints a message and exits. *)
From S2P Require Import Prelude.

Notation MAXARGS := 10%nat (only parsing).
Notation O_RDONLY := 0 (only parsing).
Notation O_WRONLY := 1 (only parsing).
Notation O_CREATE := 0x200 (only parsing).

(** A counted string: the pointers to its beginning and to its end. *)
Definition span : Type := nat * nat.

(** struct execcmd, redircmd, pipecmd, listcmd, backcmd; [W] is what stands
    for a string. *)
Inductive cmd (W : Type) : Type :=
| EXEC (argv : list W)
| REDIR (c : cmd W) (file : W) (mode fd : Z)
| PIPE (left right : cmd W)
| LIST (left right : cmd W)
| BACK (c : cmd W).
Arguments EXEC {W} argv.
Arguments REDIR {W} c file mode fd.
Arguments PIPE {W} left right.
Arguments LIST {W} left right.
Arguments BACK {W} c.

Notation whitespace := [32; 9; 13; 10; 11] (only parsing).
Definition symbols : list Z := [60; 124; 62; 38; 59; 40; 41].
Definition LT : Z := 60.
Definition GT : Z := 62.
Definition BAR : Z := 124.
Definition AMP : Z := 38.
Definition SEMI : Z := 59.
Definition LPAR : Z := 40.
Definition RPAR : Z := 41.
(** The token ['+'] is [>>], ['a'] a word. *)
Definition PLUS : Z := 43.
Definition WORD : Z := 97.

(** ** The scanner *)
Fixpoint skip_ws (s : list Z) : list Z :=
  match s with c :: s' => if bool_decide (c ∈ whitespace) then skip_ws s' else s | [] => [] end.
Fixpoint skip_word (s : list Z) : list Z :=
  match s with
  | c :: s' => if negb (bool_decide (c ∈ whitespace)) && negb (bool_decide (c ∈ symbols)) then skip_word s' else s
  | [] => []
  end.

(** The token, its beginning and its end. *)
Definition gettoken : M (list Z) (Z * span) := fun s =>
  let s := skip_ws s in
  let q := length s in
  let '(ret, s) :=
    match s with
    | [] => (0, s)
    | c :: s' =>
        if bool_decide (c ∈ [BAR; LPAR; RPAR; SEMI; AMP; LT]) then (c, s')
        else if c =? GT then
          match s' with
          | c' :: s'' => if c' =? GT then (PLUS, s'') else (c, s')
          | [] => (c, s')
          end
        else (WORD, skip_word s)
    end in
  Ret (ret, (q, length s)) (skip_ws s).

Definition peek (toks : list Z) : M (list Z) bool := fun s =>
  let s := skip_ws s in
  Ret (match s with c :: _ => bool_decide (c ∈ toks) | [] => false end) s.

(** ** The parser

    [execcmd] is filled in while [parseredirs] wraps it, so the arguments and
    the redirections of a command are collected apart and put together by
    [wrap]. *)
Definition redir (W : Type) : Type := W * Z * Z.
Definition wrap {W} (c : cmd W) (rs : list (redir W)) : cmd W :=
  foldl (fun c r => REDIR c r.1.1 r.1.2 r.2) c rs.

Definition redir_of (tok : Z) (file : span) : redir span :=
  if tok =? LT then (file, O_RDONLY, 0) else (file, Z.lor O_WRONLY O_CREATE, 1).

Fixpoint parseredirs_loop (fuel : nat) (rs : list (redir span)) : M (list Z) (list (redir span)) :=
  match fuel with
  | O => out_of_fuel
  | S fuel =>
      b ← peek [LT; GT];
      if negb b then mret rs else
      '(tok, _) ← gettoken;
      '(t, w) ← gettoken;
      if negb (t =? WORD) then panic "missing file for redirection" else
      parseredirs_loop fuel (rs ++ [redir_of tok w])
  end.
Definition parseredirs : M (list Z) (list (redir span)) :=
  s ← gets id; parseredirs_loop (S (length s)) [].

Fixpoint parseargs_loop (fuel : nat) (args : list span) (rs : list (redir span)) :
    M (list Z) (list span * list (redir span)) :=
  match fuel with
  | O => out_of_fuel
  | S fuel =>
      b ← peek [BAR; RPAR; AMP; SEMI];
      if (b : bool) then mret (args, rs) else
      '(tok, w) ← gettoken;
      if tok =? 0 then mret (args, rs) else
      if negb (tok =? WORD) then panic "syntax" else
      let args := args ++ [w] in
      if (MAXARGS <=? length args)%nat then panic "too many args" else
      rs' ← parseredirs;
      parseargs_loop fuel args (rs ++ rs')
  end.

Fixpoint amp_loop (fuel : nat) (c : cmd span) : M (list Z) (cmd span) :=
  match fuel with
  | O => out_of_fuel
  | S fuel =>
      b ← peek [AMP];
      if (b : bool) then gettoken ;; amp_loop fuel (BACK c) else mret c
  end.

Fixpoint parseline (fuel : nat) : M (list Z) (cmd span) :=
  match fuel with
  | O => out_of_fuel
  | S fuel =>
      c ← parsepipe fuel;
      s ← gets id;
      c ← amp_loop (S (length s)) c;
      b ← peek [SEMI];
      if (b : bool) then gettoken ;; r ← parseline fuel; mret (LIST c r) else mret c
  end
with parsepipe (fuel : nat) : M (list Z) (cmd span) :=
  match fuel with
  | O => out_of_fuel
  | S fuel =>
      c ← parseexec fuel;
      b ← peek [BAR];
      if (b : bool) then gettoken ;; r ← parsepipe fuel; mret (PIPE c r) else mret c
  end
with parseexec (fuel : nat) : M (list Z) (cmd span) :=
  match fuel with
  | O => out_of_fuel
  | S fuel =>
      b ← peek [LPAR];
      if (b : bool) then parseblock fuel else
      rs ← parseredirs;
      s ← gets id;
      '(args, rs) ← parseargs_loop (S (length s)) [] rs;
      mret (wrap (EXEC args) rs)
  end
with parseblock (fuel : nat) : M (list Z) (cmd span) :=
  match fuel with
  | O => out_of_fuel
  | S fuel =>
      b ← peek [LPAR];
      if negb b then panic "parseblock" else
      gettoken ;;
      c ← parseline fuel;
      b ← peek [RPAR];
      if negb b then panic "syntax - missing )" else
      gettoken ;;
      rs ← parseredirs;
      mret (wrap c rs)
  end.

(** The stores of [nulterminate], [n] being the length of the line. *)
Fixpoint nulterminate (n : nat) (c : cmd span) (buf : list Z) : list Z :=
  match c with
  | EXEC args => foldl (fun buf w => <[(n - w.2)%nat := 0]> buf) buf args
  | REDIR c w _ _ => <[(n - w.2)%nat := 0]> (nulterminate n c buf)
  | PIPE l r => nulterminate n r (nulterminate n l buf)
  | LIST l r => nulterminate n r (nulterminate n l buf)
  | BACK c => nulterminate n c buf
  end.

(** [parsecmd] on a buffer that holds the line [s] and its final 0: the
    command and the buffer it points into. *)
Definition parsecmd (s : list Z) : outcome (list Z) (cmd span * list Z) :=
  (c ← parseline (8 * length s + 8);
   peek [] ;;
   rest ← gets id;
   if negb (bool_decide (rest = [])) then panic "syntax"
   else mret (c, nulterminate (length s) c (s ++ [0]))) s.

(** ** Printing a command

    A command is printed as tokens, each followed by a space; [level] says
    what the grammar allows at a place, parentheses do the rest. *)
Inductive level := LLine | LBack | LPipe | LExec.

Definition redir_toks (r : redir (list Z)) : list (list Z) := [[if r.1.2 =? O_RDONLY then LT else GT]; r.1.1].
Definition paren (b : bool) (ts : list (list Z)) : list (list Z) := if b then [LPAR] :: ts ++ [[RPAR]] else ts.

Fixpoint toks (c : cmd (list Z)) (lv : level) : list (list Z) :=
  match c with
  | EXEC args => args
  | REDIR c w mode fd => toks c LExec ++ redir_toks (w, mode, fd)
  | PIPE l r => paren (match lv with LExec => true | _ => false end) (toks l LExec ++ [BAR] :: toks r LPipe)
  | BACK c => paren (match lv with LExec | LPipe => true | _ => false end) (toks c LBack ++ [[AMP]])
  | LIST l r => paren (match lv with LLine => false | _ => true end) (toks l LBack ++ [SEMI] :: toks r LLine)
  end.
Definition render (ts : list (list Z)) : list Z := concat ((fun t => t ++ [32]) <$> ts).
Definition print_cmd (c : cmd (list Z)) : list Z := render (toks c LLine).

Definition word_char (c : Z) : Prop := c ∉ whitespace /\ c ∉ symbols /\ c <> 0.
Definition word_ok (w : list Z) : Prop := w <> [] /\ Forall word_char w.
Definition redir_ok (r : redir (list Z)) : Prop :=
  word_ok r.1.1 /\ ((r.1.2 = O_RDONLY /\ r.2 = 0) \/ (r.1.2 = Z.lor O_WRONLY O_CREATE /\ r.2 = 1)).

(** The commands that can be typed. *)
Fixpoint cmd_ok (c : cmd (list Z)) : Prop :=
  match c with
  | EXEC args => Forall word_ok args /\ (length args < MAXARGS)%nat
  | REDIR c w mode fd => cmd_ok c /\ redir_ok (w, mode, fd)
  | PIPE l r | LIST l r => cmd_ok l /\ cmd_ok r
  | BACK c => cmd_ok c
  end.

(** The command with its strings, given what the pointers point to. *)
Fixpoint cmd_map {A B} (f : A -> B) (c : cmd A) : cmd B :=
  match c with
  | EXEC args => EXEC (f <$> args)
  | REDIR c w mode fd => REDIR (cmd_map f c) (f w) mode fd
  | PIPE l r => PIPE (cmd_map f l) (cmd_map f r)
  | LIST l r => LIST (cmd_map f l) (cmd_map f r)
  | BACK c => BACK (cmd_map f c)
  end.
(** The C string at the pointer [w.1] of a buffer of [n] bytes and a 0. *)
Fixpoint cut0 (s : list Z) : list Z := match s with c :: s => if c =? 0 then [] else c :: cut0 s | [] => [] end.
Definition string_at (n : nat) (buf : list Z) (w : span) : list Z := cut0 (drop (n - w.1) buf).

(** ** Scanning printed tokens *)
Definition is_tok (t : list Z) : Prop := word_ok t \/ exists c, t = [c] /\ c ∈ symbols.
Definition kind (t : list Z) : Z := match t with c :: _ => if bool_decide (c ∈ symbols) then c else WORD | [] => 0 end.

Lemma render_cons t ts : render (t :: ts) = t ++ 32 :: render ts.
Proof. unfold render. simpl. by rewrite <- app_assoc. Qed.
Lemma render_app ts us : render (ts ++ us) = render ts ++ render us.
Proof. unfold render. by rewrite fmap_app, concat_app. Qed.

Lemma tok_head t : is_tok t -> exists c t', t = c :: t' /\ c ∉ whitespace.
Proof.
  intros [[Hn Hw]|(c & -> & Hc)].
  - destruct t as [|c t]; [done|]. apply Forall_cons in Hw as [(Hw & _) _]. eauto.
  - exists c, []. split; [done|]. unfold symbols in Hc. intros Hw. set_solver.
Qed.
Lemma skip_ws_render ts : Forall is_tok ts -> skip_ws (render ts) = render ts.
Proof.
  destruct 1 as [|t ts (c & t' & -> & Hc)%tok_head _]; [done|]. rewrite render_cons. simpl. by rewrite bool_decide_false.
Qed.
Lemma skip_ws_space s : skip_ws (32 :: s) = skip_ws s.
Proof. done. Qed.

Lemma skip_word_word w s : Forall word_char w -> skip_word (w ++ 32 :: s) = 32 :: s.
Proof. induction 1 as [|c w (H1 & H2 & _) _ IH]; [done|]. simpl. by rewrite !bool_decide_false. Qed.

Lemma gettoken_tok t ts : is_tok t -> Forall is_tok ts ->
  gettoken (render (t :: ts)) = Ret (kind t, (length (t ++ 32 :: render ts), S (length (render ts)))) (render ts).
Proof.
  intros Ht Hts. unfold gettoken. rewrite skip_ws_render by (by constructor). rewrite render_cons.
  destruct Ht as [[Hn Hw]|(c & -> & Hc)].
  - destruct t as [|c t]; [done|]. pose proof Hw as [(H1 & H2 & H3) _]%Forall_cons. cbn [app].
    rewrite bool_decide_false by (intros Hin; apply H2; unfold symbols; set_solver).
    rewrite (proj2 (Z.eqb_neq c GT)) by (intros ->; apply H2; unfold symbols; set_solver).
    change (c :: t ++ 32 :: render ts) with ((c :: t) ++ 32 :: render ts). rewrite skip_word_word by done.
    simpl kind. rewrite bool_decide_false by done. by rewrite skip_ws_space, skip_ws_render.
  - cbn [app]. simpl kind. rewrite (bool_decide_true (c ∈ symbols)) by done.
    assert (c ∈ [BAR; LPAR; RPAR; SEMI; AMP; LT] \/ c = GT) as [Hb| ->] by (unfold symbols in Hc; set_solver).
    + rewrite bool_decide_true by done. by rewrite skip_ws_space, skip_ws_render.
    + rewrite bool_decide_false by set_solver. cbn. by rewrite skip_ws_render.
Qed.
Lemma gettoken_nil : gettoken (render []) = Ret (0, (O, O)) (render []).
Proof. done. Qed.

Lemma peek_tok cs t ts : is_tok t -> Forall is_tok ts ->
  peek cs (render (t :: ts)) = Ret (match t with c :: _ => bool_decide (c ∈ cs) | [] => false end) (render (t :: ts)).
Proof.
  intros Ht Hts. unfold peek. rewrite skip_ws_render by (by constructor). rewrite render_cons.
  by destruct (tok_head _ Ht) as (c & t' & -> & _).
Qed.
Lemma peek_nil cs : peek cs (render []) = Ret false (render []).
Proof. done. Qed.

Definition pk (cs : list Z) (ts : list (list Z)) : bool :=
  match ts with (c :: _) :: _ => bool_decide (c ∈ cs) | _ => false end.
Lemma peek_render cs ts : Forall is_tok ts -> peek cs (render ts) = Ret (pk cs ts) (render ts).
Proof. destruct 1 as [|t ts Ht Hts]; [apply peek_nil|]. rewrite peek_tok by done. by destruct (tok_head _ Ht) as (c & t' & -> & _). Qed.

(** What follows begins with one of the symbols [cs], or is nothing. *)
Definition ends (cs : list Z) (ts : list (list Z)) : Prop :=
  match ts with [] => True | t :: _ => exists c, t = [c] /\ c ∈ cs end.
Lemma pk_ends cs cs' ts : ends cs ts -> (forall c, c ∈ cs -> c ∉ cs') -> pk cs' ts = false.
Proof. destruct ts as [|t ts]; [done|]. intros (c & -> & Hc) H. simpl. by apply bool_decide_false, H. Qed.
Lemma pk_word cs w ts : word_ok w -> cs ⊆ symbols -> pk cs (w :: ts) = false.
Proof.
  intros [Hn Hw] Hcs. destruct w as [|c w]; [done|]. apply Forall_cons in Hw as [(_ & H & _) _]. simpl.
  apply bool_decide_false. intros Hin. by apply H, Hcs.
Qed.
Lemma kind_word w : word_ok w -> kind w = WORD.
Proof.
  intros [Hn Hw]. destruct w as [|c w]; [done|]. apply Forall_cons in Hw as [(_ & H & _) _]. simpl. by rewrite bool_decide_false.
Qed.

(** ** What the pointers of a parsed command denote

    [p] points to the word [w] of the text [full], in which a space follows. *)
Definition spells (full : list Z) (p : span) (w : list Z) : Prop :=
  exists pre post, full = pre ++ w ++ 32 :: post /\ p = (length (w ++ 32 :: post), S (length post)).
Definition rspells (full : list Z) (r : redir span) (r' : redir (list Z)) : Prop :=
  spells full r.1.1 r'.1.1 /\ r.1.2 = r'.1.2 /\ r.2 = r'.2.
Inductive reads (full : list Z) : cmd span -> cmd (list Z) -> Prop :=
| reads_exec ps ws : Forall2 (spells full) ps ws -> reads full (EXEC ps) (EXEC ws)
| reads_redir c p c' w mode fd : reads full c c' -> spells full p w -> reads full (REDIR c p mode fd) (REDIR c' w mode fd)
| reads_pipe l r l' r' : reads full l l' -> reads full r r' -> reads full (PIPE l r) (PIPE l' r')
| reads_list l r l' r' : reads full l l' -> reads full r r' -> reads full (LIST l r) (LIST l' r')
| reads_back c c' : reads full c c' -> reads full (BACK c) (BACK c').

Lemma reads_wrap full c c' rs rs' : reads full c c' -> Forall2 (rspells full) rs rs' -> reads full (wrap c rs) (wrap c' rs').
Proof.
  intros Hc Hr. revert c c' Hc. induction Hr as [|[[p m] f] [[w m'] f'] rs rs' (H1 & H2 & H3) _ IH]; intros c c' Hc; [done|].
  simpl in *. subst. apply IH. by constructor.
Qed.

Section parse.
Variable full : list Z.
(** The text that is left is a suffix of the line. *)
Definition tail_of (ts : list (list Z)) : Prop := exists pre, full = pre ++ render ts.

Lemma tail_app ts us : tail_of (ts ++ us) -> tail_of us.
Proof. intros (pre & E). exists (pre ++ render ts). by rewrite E, render_app, app_assoc. Qed.
Lemma tail_spells w ts : tail_of (w :: ts) -> spells full (length (w ++ 32 :: render ts), S (length (render ts))) w.
Proof. intros (pre & E). exists pre, (render ts). by rewrite E, render_cons. Qed.

Lemma redir_of_ok full' p r : redir_ok r -> spells full' p r.1.1 ->
  rspells full' (redir_of (kind [if r.1.2 =? O_RDONLY then LT else GT]) p) r.
Proof.
  destruct r as [[w m] f]. intros [_ [[E1 E2]|[E1 E2]]] Hp; simpl in *; subst; done.
Qed.
Lemma is_tok_redir m : is_tok [if m =? O_RDONLY then LT else GT].
Proof. right. eexists. split; [done|]. unfold symbols. destruct (_ =? _); set_solver. Qed.
Lemma Forall_redir_toks r : redir_ok r -> Forall is_tok (redir_toks r).
Proof. intros [Hw _]. constructor; [apply is_tok_redir|]. constructor; [by left|constructor]. Qed.

Definition redirs (rs : list (redir (list Z))) : list (list Z) := concat (redir_toks <$> rs).
Lemma redirs_cons r rs : redirs (r :: rs) = redir_toks r ++ redirs rs.
Proof. done. Qed.
Lemma Forall_redirs rs : Forall redir_ok rs -> Forall is_tok (redirs rs).
Proof. induction 1 as [|r rs Hr _ IH]; [constructor|]. rewrite redirs_cons. apply Forall_app. split; [by apply Forall_redir_toks|done]. Qed.

Lemma parseredirs_loop_ok rs fuel acc ts : Forall redir_ok rs -> Forall is_tok ts -> pk [LT; GT] ts = false ->
  (length rs < fuel)%nat -> tail_of (redirs rs ++ ts) ->
  exists rs', parseredirs_loop fuel acc (render (redirs rs ++ ts)) = Ret (acc ++ rs') (render ts) /\ Forall2 (rspells full) rs' rs.
Proof.
  intros Hrs Hts Hp. revert fuel acc. induction Hrs as [|r rs Hr Hrs IH]; intros fuel acc Hf Ht; (destruct fuel as [|fuel]; [simpl in Hf; lia|]);
    cbn [parseredirs_loop].
  - simpl. run (peek_render [LT; GT] ts Hts). rewrite Hp. cbn. exists []. by rewrite app_nil_r.
  - rewrite redirs_cons, <- app_assoc in *. set (us := redirs rs ++ ts) in *.
    assert (Forall is_tok us) as Hus by (apply Forall_app; split; [by apply Forall_redirs|done]).
    pose proof Hr as [Hw _]. assert (is_tok r.1.1) as Htw by (by left).
    unfold redir_toks in *. simpl app in *. run (peek_render [LT; GT] _ (Forall_cons_2 _ _ _ (is_tok_redir r.1.2) (Forall_cons_2 _ _ _ Htw Hus))).
    replace (pk _ _) with true by (simpl; destruct (r.1.2 =? O_RDONLY); done). cbn [negb].
    run (gettoken_tok _ _ (is_tok_redir r.1.2) (Forall_cons_2 _ _ _ Htw Hus)). run (gettoken_tok _ _ Htw Hus).
    rewrite kind_word by done. cbn [Z.eqb Pos.eqb negb WORD].
    destruct (IH fuel (acc ++ [redir_of (kind [if r.1.2 =? O_RDONLY then LT else GT]) (length (r.1.1 ++ 32 :: render us), S (length (render us)))]))
      as (rs' & E & H2).
    + simpl in Hf. lia.
    + apply (tail_app [_; _] us Ht).
    + eexists (_ :: rs'). rewrite E, <- app_assoc. split; [done|]. constructor; [|done].
      apply redir_of_ok; [done|]. exact (tail_spells r.1.1 us (tail_app [_] (_ :: us) Ht)).
Qed.
Lemma length_redirs rs : (length rs <= length (render (redirs rs)))%nat.
Proof.
  induction rs as [|r rs IH]; [simpl; lia|]. rewrite redirs_cons, render_app. unfold redir_toks.
  rewrite render_cons, !length_app. cbn [length]. lia.
Qed.

Lemma parseredirs_ok rs ts : Forall redir_ok rs -> Forall is_tok ts -> pk [LT; GT] ts = false -> tail_of (redirs rs ++ ts) ->
  exists rs', parseredirs (render (redirs rs ++ ts)) = Ret rs' (render ts) /\ Forall2 (rspells full) rs' rs.
Proof.
  intros H1 H2 H3 H4. unfold parseredirs. run_steps. unfold id. apply (parseredirs_loop_ok rs _ [] ts); try done.
  rewrite render_app, length_app. pose proof (length_redirs rs). lia.
Qed.

Lemma length_render ts : Forall is_tok ts -> (length ts <= length (render ts))%nat.
Proof.
  induction 1 as [|t ts _ _ IH]; [done|]. rewrite render_cons, length_app. simpl. lia.
Qed.

Definition stops : list Z := [BAR; RPAR; AMP; SEMI].
Lemma words_toks ws : Forall word_ok ws -> Forall is_tok ws.
Proof. intros H. eapply Forall_impl; [exact H|]. intros; by left. Qed.
Lemma pk_redirs rs ts : Forall redir_ok rs -> ends stops ts -> pk [LT; GT] ts = false.
Proof. intros _ He. apply (pk_ends _ _ _ He). unfold stops. set_solver. Qed.

Lemma parseargs_done fuel ps rs ts : Forall is_tok ts -> ends stops ts ->
  parseargs_loop (S fuel) ps rs (render ts) = Ret (ps, rs) (render ts).
Proof.
  intros Hts He. cbn [parseargs_loop]. run (peek_render [BAR; RPAR; AMP; SEMI] ts Hts).
  destruct ts as [|t ts]; [cbn [pk]; by run gettoken_nil|]. destruct He as (c & -> & Hc). cbn [pk]. by rewrite bool_decide_true.
Qed.

Lemma parseargs_loop_ok args fuel ps rs0 rs ts : Forall word_ok args -> Forall redir_ok rs -> Forall is_tok ts -> ends stops ts ->
  (args = [] -> rs = []) -> (length args < fuel)%nat -> (length ps + length args < MAXARGS)%nat -> tail_of (args ++ redirs rs ++ ts) ->
  exists ps' rs', parseargs_loop fuel ps rs0 (render (args ++ redirs rs ++ ts)) = Ret (ps ++ ps', rs0 ++ rs') (render ts) /\
    Forall2 (spells full) ps' args /\ Forall2 (rspells full) rs' rs.
Proof.
  intros Ha Hrs Hts He. revert fuel ps rs0. induction Ha as [|w args Hw Ha IH]; intros fuel ps rs0 Hemp Hf Hl Ht;
    (destruct fuel as [|fuel]; [simpl in Hf; lia|]).
  - rewrite Hemp in * by done. simpl app in *. rewrite parseargs_done by done. exists [], []. by rewrite !app_nil_r.
  - clear Hemp. cbn [parseargs_loop]. set (us := args ++ redirs rs ++ ts) in *. change ((w :: args) ++ redirs rs ++ ts) with (w :: us) in *.
    assert (Forall is_tok us) as Hus by (apply Forall_app; split; [by apply words_toks|]; apply Forall_app; split; [by apply Forall_redirs|done]).
    assert (is_tok w) as Htw by (by left).
    run (peek_render [BAR; RPAR; AMP; SEMI] _ (Forall_cons_2 _ _ _ Htw Hus)). rewrite pk_word by (done || (unfold symbols; set_solver)).
    run (gettoken_tok w us Htw Hus). rewrite kind_word by done. cbn [Z.eqb Pos.eqb negb WORD].
    set (p := (length (w ++ 32 :: render us), S (length (render us)))).
    rewrite length_app. cbn [length] in *. rewrite (proj2 (Nat.leb_gt _ _)) by lia.
    assert (spells full p w) as Hp by exact (tail_spells w us Ht).
    destruct args as [|w' args].
    + destruct (parseredirs_ok rs ts Hrs Hts (pk_redirs rs ts Hrs He) (tail_app [w] _ Ht)) as (rs' & E & H2). subst us. simpl app in *. run E.
      destruct fuel as [|fuel]; [simpl in Hf; lia|]. rewrite parseargs_done by done.
      exists [p], rs'. split; [done|]. split; [by repeat constructor|done].
    + destruct (parseredirs_ok [] us) as (rs' & E & H2); [constructor|done| |exact (tail_app [w] us Ht)|].
      { apply pk_word; [by apply Forall_cons in Ha as [? _]|unfold symbols; set_solver]. }
      apply Forall2_nil_inv_r in H2 as ->. simpl app in E. run E. rewrite app_nil_r.
      destruct (IH fuel (ps ++ [p]) rs0) as (ps' & rs' & E' & H1 & H2); [done|simpl in *; lia|rewrite length_app; simpl in *; lia|exact (tail_app [w] us Ht)|].
      exists (p :: ps'), rs'. rewrite <- app_assoc in E'. split; [exact E'|]. split; [by constructor|done].
Qed.

(** ** The parser inverts the printer, level by level *)
Definition parse_back (fuel : nat) : M (list Z) (cmd span) :=
  c ← parsepipe fuel; s ← gets id; amp_loop (S (length s)) c.
Lemma parseline_S fuel s : parseline (S fuel) s =
  (c ← parse_back fuel; b ← peek [SEMI];
   if (b : bool) then gettoken ;; r ← parseline fuel; mret (LIST c r) else mret c) s.
Proof. cbn [parseline]. unfold parse_back, mbind, M_bind. by destruct (parsepipe fuel s). Qed.

Definition P_exec (n : nat) (c : cmd (list Z)) : Prop := forall fuel rs ts, (n <= fuel)%nat -> Forall redir_ok rs -> Forall is_tok ts ->
  ends stops ts -> tail_of (toks c LExec ++ redirs rs ++ ts) ->
  exists c', parseexec fuel (render (toks c LExec ++ redirs rs ++ ts)) = Ret c' (render ts) /\ reads full c' (wrap c rs).
Definition P_pipe (n : nat) (c : cmd (list Z)) : Prop := forall fuel ts, (n <= fuel)%nat -> Forall is_tok ts ->
  ends [RPAR; AMP; SEMI] ts -> tail_of (toks c LPipe ++ ts) ->
  exists c', parsepipe fuel (render (toks c LPipe ++ ts)) = Ret c' (render ts) /\ reads full c' c.
Definition P_back (n : nat) (c : cmd (list Z)) : Prop := forall fuel k ts, (n <= fuel)%nat -> Forall is_tok ts ->
  ends [RPAR; SEMI] ts -> tail_of (toks c LBack ++ replicate k [AMP] ++ ts) ->
  exists c', parse_back fuel (render (toks c LBack ++ replicate k [AMP] ++ ts)) = Ret c' (render ts) /\
    reads full c' (Nat.iter k BACK c).
Definition P_line (n : nat) (c : cmd (list Z)) : Prop := forall fuel ts, (n <= fuel)%nat -> Forall is_tok ts ->
  ends [RPAR] ts -> tail_of (toks c LLine ++ ts) ->
  exists c', parseline fuel (render (toks c LLine ++ ts)) = Ret c' (render ts) /\ reads full c' c.

Lemma sym_tok c : c ∈ symbols -> is_tok [c].
Proof. intros. right. eauto. Qed.
Lemma toks_ok c lv : cmd_ok c -> Forall is_tok (toks c lv).
Proof.
  assert (forall c, c ∈ symbols -> is_tok [c]) as Hs by exact sym_tok.
  assert (forall b ts, Forall is_tok ts -> Forall is_tok (paren b ts)) as Hp.
  { intros [] ts Hts; [|done]. constructor; [apply Hs; unfold symbols; set_solver|]. apply Forall_app. split; [done|].
    constructor; [apply Hs; unfold symbols; set_solver|constructor]. }
  revert lv. induction c as [args|c IH w m f|l IHl r IHr|l IHl r IHr|c IH]; intros lv Hok; simpl in *.
  - apply words_toks, Hok.
  - apply Forall_app. split; [apply IH, Hok|apply Forall_redir_toks, Hok].
  - apply Hp, Forall_app. split; [apply IHl, Hok|]. constructor; [apply Hs; unfold symbols; set_solver|apply IHr, Hok].
  - apply Hp, Forall_app. split; [apply IHl, Hok|]. constructor; [apply Hs; unfold symbols; set_solver|apply IHr, Hok].
  - apply Hp, Forall_app. split; [apply IH, Hok|]. constructor; [apply Hs; unfold symbols; set_solver|constructor].
Qed.

Lemma ends_mono cs cs' ts : cs ⊆ cs' -> ends cs ts -> ends cs' ts.
Proof. destruct ts as [|t ts]; [done|]. intros H (c & -> & Hc). exists c. auto. Qed.

Lemma exec_pipe n c : P_exec n c -> toks c LPipe = toks c LExec -> P_pipe (S n) c.
Proof.
  intros H E [|fuel] ts Hf Hts He Ht; [lia|]. rewrite E in *. cbn [parsepipe].
  destruct (H fuel [] ts ltac:(lia) ltac:(constructor) Hts) as (c' & Ep & Hr); [eapply ends_mono; [|done]; unfold stops; set_solver|done|].
  simpl app in Ep. run Ep. run (peek_render [BAR] ts Hts). rewrite (pk_ends _ _ _ He) by set_solver. by exists c'.
Qed.

Lemma amp_loop_ok k fuel c ts : Forall is_tok ts -> ends [RPAR; SEMI] ts -> (k < fuel)%nat ->
  amp_loop fuel c (render (replicate k [AMP] ++ ts)) = Ret (Nat.iter k BACK c) (render ts).
Proof.
  intros Hts He. revert fuel c. induction k as [|k IH]; intros [|fuel] c Hf; try lia; cbn [amp_loop replicate app].
  - run (peek_render [AMP] ts Hts). by rewrite (pk_ends _ _ _ He) by set_solver.
  - assert (Forall is_tok (replicate k [AMP] ++ ts)) as Hus.
    { apply Forall_app. split; [|done]. apply Forall_replicate, sym_tok. unfold symbols. set_solver. }
    assert (is_tok [AMP]) as Ha by (apply sym_tok; unfold symbols; set_solver).
    run (peek_render [AMP] _ (Forall_cons_2 _ _ _ Ha Hus)). cbn [pk]. rewrite bool_decide_true by set_solver.
    run (gettoken_tok [AMP] _ Ha Hus). rewrite IH by lia. by rewrite Nat.iter_succ_r.
Qed.

Lemma reads_iter k c c' : reads full c c' -> reads full (Nat.iter k BACK c) (Nat.iter k BACK c').
Proof. intros H. induction k as [|k IH]; [done|]. simpl. by constructor. Qed.

Lemma pipe_back n c : P_pipe n c -> toks c LBack = toks c LPipe -> P_back n c.
Proof.
  intros H E fuel k ts Hf Hts He Ht. rewrite E in *. unfold parse_back.
  assert (Forall is_tok (replicate k [AMP] ++ ts)) as Hus.
  { apply Forall_app. split; [|done]. apply Forall_replicate, sym_tok. unfold symbols. set_solver. }
  destruct (H fuel (replicate k [AMP] ++ ts) Hf Hus) as (c' & Ep & Hr); [|done|].
  { destruct k as [|k]; simpl; [eapply ends_mono; [|done]; set_solver|]. exists AMP. split; [done|set_solver]. }
  run Ep. run_steps. unfold id. exists (Nat.iter k BACK c'). split; [|by apply reads_iter].
  apply amp_loop_ok; [done|done|]. rewrite render_app, length_app.
  pose proof (length_render _ (proj1 (proj1 (Forall_app _ _ _) Hus))) as Hl. rewrite length_replicate in Hl. lia.
Qed.

Lemma back_line n c : P_back n c -> toks c LLine = toks c LBack -> P_line (S n) c.
Proof.
  intros H E [|fuel] ts Hf Hts He Ht; [lia|]. rewrite E in *. rewrite parseline_S.
  destruct (H fuel O ts ltac:(lia) Hts) as (c' & Ep & Hr); [eapply ends_mono; [|done]; set_solver|done|].
  simpl app in Ep. run Ep. run (peek_render [SEMI] ts Hts). rewrite (pk_ends _ _ _ He) by set_solver. by exists c'.
Qed.

Lemma line_exec n c : P_line n c -> cmd_ok c -> toks c LExec = [LPAR] :: toks c LLine ++ [[RPAR]] -> P_exec (S (S n)) c.
Proof.
  intros H Hok E fuel rs ts Hf Hrs Hts He Ht. destruct fuel as [|[|fuel]]; [lia|lia|]. rewrite E in *.
  assert (is_tok [LPAR] /\ is_tok [RPAR]) as [HL HR] by (split; apply sym_tok; unfold symbols; set_solver).
  assert (Forall is_tok (redirs rs ++ ts)) as Hus by (apply Forall_app; split; [by apply Forall_redirs|done]).
  replace (([LPAR] :: toks c LLine ++ [[RPAR]]) ++ redirs rs ++ ts) with ([LPAR] :: (toks c LLine ++ [RPAR] :: redirs rs ++ ts)) in *
    by (simpl; by rewrite <- app_assoc).
  assert (Forall is_tok (toks c LLine ++ [RPAR] :: redirs rs ++ ts)) as Hvs.
  { apply Forall_app. split; [by apply toks_ok|]. by constructor. }
  pose proof (peek_render [LPAR] _ (Forall_cons_2 _ _ _ HL Hvs)) as Ek. cbn [pk] in Ek. rewrite bool_decide_true in Ek by set_solver.
  cbn [parseexec]. run Ek. cbn [parseblock]. run Ek. run (gettoken_tok [LPAR] _ HL Hvs).
  destruct (H fuel ([RPAR] :: redirs rs ++ ts) ltac:(lia)) as (c' & Ep & Hr); [by constructor|exists RPAR; split; [done|set_solver]|exact (tail_app [_] _ Ht)|].
  run Ep. run (peek_render [RPAR] _ (Forall_cons_2 _ _ _ HR Hus)). cbn [pk]. rewrite bool_decide_true by set_solver. cbn [negb].
  run (gettoken_tok [RPAR] _ HR Hus).
  destruct (parseredirs_ok rs ts Hrs Hts (pk_redirs rs ts Hrs He)) as (rs' & Er & H2).
  { apply (tail_app ([LPAR] :: toks c LLine ++ [[RPAR]])). simpl. by rewrite <- app_assoc. }
  run Er. exists (wrap c' rs'). split; [done|by apply reads_wrap].
Qed.

Lemma P_exec_EXEC args : Forall word_ok args -> (length args < MAXARGS)%nat -> P_exec 1 (EXEC args).
Proof.
  intros Ha Hl [|fuel] rs ts Hf Hrs Hts He Ht; [lia|]. cbn [parseexec toks] in *.
  assert (Forall is_tok (redirs rs ++ ts)) as Hus by (apply Forall_app; split; [by apply Forall_redirs|done]).
  assert (Forall is_tok (args ++ redirs rs ++ ts)) as Hvs by (apply Forall_app; split; [by apply words_toks|done]).
  assert (pk [LPAR] (args ++ redirs rs ++ ts) = false) as Hp.
  { destruct args as [|w args]; [|apply pk_word; [by apply Forall_cons in Ha as [? _]|unfold symbols; set_solver]].
    destruct rs as [|r rs]; [apply (pk_ends _ _ _ He); unfold stops; set_solver|]. simpl. by destruct (_ =? _). }
  run (peek_render [LPAR] _ Hvs). rewrite Hp. destruct args as [|w args].
  - destruct (parseredirs_ok rs ts Hrs Hts (pk_redirs rs ts Hrs He) Ht) as (rs' & Er & H2). simpl app. run Er. run_steps. unfold id.
    erewrite bind_Ret by (by apply parseargs_done). exists (wrap (EXEC []) rs'). split; [done|]. apply reads_wrap; [|done]. by repeat constructor.
  - destruct (parseredirs_ok [] ((w :: args) ++ redirs rs ++ ts)) as (rs0 & Er & H0); [constructor|done| |done|].
    { apply pk_word; [by apply Forall_cons in Ha as [? _]|unfold symbols; set_solver]. }
    apply Forall2_nil_inv_r in H0 as ->. simpl redirs in Er. run Er. run_steps. unfold id.
    destruct (parseargs_loop_ok (w :: args) (S (length (render ((w :: args) ++ redirs rs ++ ts)))) [] [] rs ts Ha Hrs Hts He ltac:(done)) as (ps & rs' & Ea & H1 & H2);
      [|done|done|].
    { pose proof (length_render _ Hvs) as Hr. rewrite length_app in Hr. lia. }
    erewrite bind_Ret by exact Ea. exists (wrap (EXEC ps) rs'). split; [done|]. apply reads_wrap; [by constructor|done].
Qed.

Lemma P_exec_REDIR n c w m f : redir_ok (w, m, f) -> P_exec n c -> P_exec n (REDIR c w m f).
Proof.
  intros Hr H fuel rs ts Hf Hrs Hts He Ht. cbn [toks] in *. rewrite <- app_assoc in *.
  replace (redir_toks (w, m, f) ++ redirs rs ++ ts) with (redirs ((w, m, f) :: rs) ++ ts) in * by (by rewrite redirs_cons, app_assoc).
  apply (H fuel ((w, m, f) :: rs) ts Hf); [by constructor|done|done|done].
Qed.

Lemma P_pipe_PIPE n l r : cmd_ok r -> P_exec n l -> P_pipe n r -> P_pipe (S n) (PIPE l r).
Proof.
  intros Hok Hl Hr [|fuel] ts Hf Hts He Ht; [lia|]. cbn [toks paren parsepipe] in *. rewrite <- app_assoc in *. simpl app in *.
  assert (is_tok [BAR]) as Hb by (apply sym_tok; unfold symbols; set_solver).
  assert (Forall is_tok (toks r LPipe ++ ts)) as Hus by (apply Forall_app; split; [by apply toks_ok|done]).
  destruct (Hl fuel [] ([BAR] :: toks r LPipe ++ ts) ltac:(lia) ltac:(constructor)) as (cl & El & Rl); [by constructor|exists BAR; split; [done|unfold stops; set_solver]|done|].
  simpl app in El. run El. run (peek_render [BAR] _ (Forall_cons_2 _ _ _ Hb Hus)). cbn [pk]. rewrite bool_decide_true by set_solver.
  run (gettoken_tok [BAR] _ Hb Hus). destruct (Hr fuel ts ltac:(lia) Hts He) as (cr & Er & Rr).
  { apply (tail_app (toks l LExec ++ [[BAR]])). by rewrite <- app_assoc. }
  run Er. exists (PIPE cl cr). split; [done|by constructor].
Qed.

Lemma P_back_BACK n c : P_back n c -> P_back n (BACK c).
Proof.
  intros H fuel k ts Hf Hts He Ht. cbn [toks paren] in *. rewrite <- app_assoc in *.
  rewrite <- Nat.iter_succ_r. apply (H fuel (S k) ts Hf Hts He Ht).
Qed.

Lemma P_line_LIST n l r : cmd_ok r -> P_back n l -> P_line n r -> P_line (S n) (LIST l r).
Proof.
  intros Hok Hl Hr [|fuel] ts Hf Hts He Ht; [lia|]. rewrite parseline_S. cbn [toks paren] in *. rewrite <- app_assoc in *. simpl app in *.
  assert (is_tok [SEMI]) as Hb by (apply sym_tok; unfold symbols; set_solver).
  assert (Forall is_tok (toks r LLine ++ ts)) as Hus by (apply Forall_app; split; [by apply toks_ok|done]).
  destruct (Hl fuel O ([SEMI] :: toks r LLine ++ ts) ltac:(lia)) as (cl & El & Rl); [by constructor|exists SEMI; split; [done|set_solver]|done|].
  simpl app in El. run El. run (peek_render [SEMI] _ (Forall_cons_2 _ _ _ Hb Hus)). cbn [pk]. rewrite bool_decide_true by set_solver.
  run (gettoken_tok [SEMI] _ Hb Hus). destruct (Hr fuel ts ltac:(lia) Hts He) as (cr & Er & Rr).
  { apply (tail_app (toks l LBack ++ [[SEMI]])). by rewrite <- app_assoc. }
  run Er. exists (LIST cl cr). split; [done|by constructor].
Qed.

Fixpoint cost (c : cmd (list Z)) : nat :=
  match c with
  | EXEC _ => 4
  | REDIR c _ _ _ => cost c + 4
  | PIPE l r | LIST l r => cost l + cost r + 4
  | BACK c => cost c + 4
  end.

Lemma P_exec_mono n m c : (n <= m)%nat -> P_exec n c -> P_exec m c.
Proof. intros Hnm H fuel rs ts Hf. apply H. lia. Qed.
Lemma P_pipe_mono n m c : (n <= m)%nat -> P_pipe n c -> P_pipe m c.
Proof. intros Hnm H fuel ts Hf. apply H. lia. Qed.
Lemma P_back_mono n m c : (n <= m)%nat -> P_back n c -> P_back m c.
Proof. intros Hnm H fuel k ts Hf. apply H. lia. Qed.
Lemma P_line_mono n m c : (n <= m)%nat -> P_line n c -> P_line m c.
Proof. intros Hnm H fuel ts Hf. apply H. lia. Qed.

Ltac at_levels H1 H2 H3 H4 := split_and!;
  [eapply P_exec_mono; [|exact H1]|eapply P_pipe_mono; [|exact H2]|eapply P_back_mono; [|exact H3]|eapply P_line_mono; [|exact H4]]; lia.

Lemma parse_levels c : cmd_ok c -> P_exec (cost c) c /\ P_pipe (cost c) c /\ P_back (cost c) c /\ P_line (cost c) c.
Proof.
  induction c as [args|c IH w m f|l IHl r IHr|l IHl r IHr|c IH]; intros Hok; pose proof Hok as Hok'; cbn [cmd_ok cost] in *.
  - assert (P_exec 1 (EXEC args)) as H1 by (apply P_exec_EXEC; apply Hok).
    pose proof (exec_pipe _ _ H1 eq_refl) as H2. pose proof (pipe_back _ _ H2 eq_refl) as H3. pose proof (back_line _ _ H3 eq_refl) as H4.
    at_levels H1 H2 H3 H4.
  - destruct (IH (proj1 Hok)) as (H1 & _). apply (P_exec_REDIR _ _ w m f (proj2 Hok)) in H1.
    pose proof (exec_pipe _ _ H1 eq_refl) as H2. pose proof (pipe_back _ _ H2 eq_refl) as H3. pose proof (back_line _ _ H3 eq_refl) as H4.
    at_levels H1 H2 H3 H4.
  - destruct (IHl (proj1 Hok)) as (El & _). destruct (IHr (proj2 Hok)) as (_ & Er & _).
    pose proof (P_pipe_PIPE (cost l + cost r) l r (proj2 Hok) (P_exec_mono (cost l) (cost l + cost r) l ltac:(lia) El) (P_pipe_mono (cost r) (cost l + cost r) r ltac:(lia) Er)) as H2.
    pose proof (pipe_back _ _ H2 eq_refl) as H3. pose proof (back_line _ _ H3 eq_refl) as H4. pose proof (line_exec _ _ H4 Hok' eq_refl) as H1.
    at_levels H1 H2 H3 H4.
  - destruct (IHl (proj1 Hok)) as (_ & _ & El & _). destruct (IHr (proj2 Hok)) as (_ & _ & _ & Er).
    pose proof (P_line_LIST (cost l + cost r) l r (proj2 Hok) (P_back_mono (cost l) (cost l + cost r) l ltac:(lia) El) (P_line_mono (cost r) (cost l + cost r) r ltac:(lia) Er)) as H4.
    pose proof (line_exec _ _ H4 Hok' eq_refl) as H1. pose proof (exec_pipe _ _ H1 eq_refl) as H2. pose proof (pipe_back _ _ H2 eq_refl) as H3.
    at_levels H1 H2 H3 H4.
  - destruct (IH Hok) as (_ & _ & Ec & _). apply P_back_BACK in Ec. pose proof (back_line _ _ Ec eq_refl) as H4.
    pose proof (line_exec _ _ H4 Hok' eq_refl) as H1. pose proof (exec_pipe _ _ H1 eq_refl) as H2.
    at_levels H1 H2 Ec H4.
Qed.
End parse.

Lemma cost_toks c lv : (cost c <= 8 * length (toks c lv) + 4)%nat.
Proof.
  assert (forall b ts, (length ts <= length (paren b ts))%nat) as Hp by (intros [] ts; simpl; rewrite ?length_app; lia).
  revert lv. induction c as [args|c IH w m f|l IHl r IHr|l IHl r IHr|c IH]; intros lv; cbn [cost toks].
  - lia.
  - specialize (IH LExec). rewrite length_app. simpl. lia.
  - etrans; [|apply Nat.add_le_mono_r, Nat.mul_le_mono_l, Hp]. rewrite length_app. simpl. specialize (IHl LExec). specialize (IHr LPipe). lia.
  - etrans; [|apply Nat.add_le_mono_r, Nat.mul_le_mono_l, Hp]. rewrite length_app. simpl. specialize (IHl LBack). specialize (IHr LLine). lia.
  - etrans; [|apply Nat.add_le_mono_r, Nat.mul_le_mono_l, Hp]. rewrite length_app. simpl. specialize (IH LBack). lia.
Qed.

(** ** The strings of the parsed command *)
Fixpoint spans (c : cmd span) : list span :=
  match c with
  | EXEC args => args
  | REDIR c w _ _ => spans c ++ [w]
  | PIPE l r | LIST l r => spans l ++ spans r
  | BACK c => spans c
  end.
Definition zero_ends (n : nat) (ps : list span) (buf : list Z) : list Z :=
  foldl (fun buf w => <[(n - w.2)%nat := 0]> buf) buf ps.
Lemma nulterminate_spans n c buf : nulterminate n c buf = zero_ends n (spans c) buf.
Proof.
  unfold zero_ends. revert buf. induction c as [args|c IH w m f|l IHl r IHr|l IHl r IHr|c IH]; intros buf; simpl;
    rewrite ?foldl_app; simpl; rewrite ?IH, ?IHl, ?IHr; done.
Qed.

Section strings.
Variable full : list Z.

(** Only spaces of the line have been overwritten, with zeroes. *)
Definition cut_of (buf : list Z) : Prop := Forall2 (fun a b => a = b \/ (a = 0 /\ b = 32)) buf (full ++ [0]).

Lemma cut_of_full : cut_of (full ++ [0]).
Proof. apply Forall2_same_length_lookup. split; [done|]. intros i x y Hx Hy. left. congruence. Qed.

Lemma cut_zero buf p w : cut_of buf -> spells full p w ->
  cut_of (<[(length full - p.2)%nat := 0]> buf) /\ (length full - p.2 < length buf)%nat.
Proof.
  intros Hb (pre & post & E & ->). cbn [snd]. pose proof (Forall2_length _ _ _ Hb) as Hl. rewrite length_app in Hl. simpl in Hl.
  assert (length full = length pre + length w + S (length post))%nat as Hn by (rewrite E, !length_app; simpl; lia).
  replace (length full - S (length post))%nat with (length (pre ++ w)) by (rewrite length_app; lia).
  split; [|rewrite length_app; lia]. assert ((full ++ [0]) !! length (pre ++ w) = Some 32) as Hs.
  { rewrite E, <- !app_assoc. rewrite app_assoc. simpl. by rewrite list_lookup_middle. }
  unfold cut_of. rewrite <- (list_insert_id _ _ _ Hs). by apply Forall2_insert; [|right].
Qed.

Lemma zero_ends_ok ps buf : cut_of buf -> Forall (fun p => exists w, spells full p w) ps ->
  cut_of (zero_ends (length full) ps buf) /\
  (forall i, buf !! i = Some 0 -> zero_ends (length full) ps buf !! i = Some 0) /\
  Forall (fun p => zero_ends (length full) ps buf !! (length full - p.2)%nat = Some 0) ps.
Proof.
  intros Hb Hps. revert buf Hb. induction Hps as [|p ps [w Hw] _ IH]; intros buf Hb; simpl; [done|].
  destruct (cut_zero buf p w Hb Hw) as [Hb' Hlt]. destruct (IH _ Hb') as (H1 & H2 & H3). split; [done|]. split.
  - intros i Hi. apply H2. destruct (decide (i = length full - p.2)%nat) as [->|Hne]; [by apply list_lookup_insert_eq|].
    by rewrite list_lookup_insert_ne.
  - constructor; [|done]. apply H2. by apply list_lookup_insert_eq.
Qed.

Lemma cut0_word w s : Forall word_char w -> cut0 (w ++ 0 :: s) = w.
Proof. induction 1 as [|c w (_ & _ & H0) _ IH]; [done|]. simpl. rewrite (proj2 (Z.eqb_neq c 0)) by done. by rewrite IH. Qed.

Lemma string_at_word buf p w : cut_of buf -> spells full p w -> word_ok w -> buf !! (length full - p.2)%nat = Some 0 ->
  string_at (length full) buf p = w.
Proof.
  intros Hb (pre & post & E & ->) [_ Hw] Hz. cbn [snd] in Hz. unfold string_at. cbn [fst].
  assert (length full = length pre + length w + S (length post))%nat as Hn by (rewrite E, !length_app; simpl; lia).
  replace (length full - length (w ++ 32%Z :: post))%nat with (length pre) by (rewrite length_app; simpl; lia).
  replace (length full - S (length post))%nat with (length pre + length w)%nat in Hz by lia.
  unfold cut_of in Hb. rewrite E, <- !app_assoc in Hb. apply Forall2_app_inv_r in Hb as (b1 & b2 & H1 & H2 & ->).
  apply Forall2_app_inv_r in H2 as (bw & b3 & Hbw & H3 & ->). apply Forall2_length in H1 as L1.
  assert (bw = w) as ->.
  { clear -Hbw Hw. induction Hbw as [|a b bw w Hab _ IH]; [done|]. apply Forall_cons in Hw as [(Hc & _) Hw]. f_equal; [|by apply IH].
    destruct Hab as [?|[_ ->]]; [done|]. exfalso. apply Hc. set_solver. }
  rewrite lookup_app_r in Hz by lia. rewrite lookup_app_r in Hz by lia.
  replace (length pre + length w - length b1 - length w)%nat with O in Hz by lia.
  destruct b3 as [|x b3]; [done|]. injection Hz as ->. rewrite <- L1. rewrite drop_app_length. by apply cut0_word.
Qed.

Lemma reads_spans c' c : reads full c' c -> Forall (fun p => exists w, spells full p w) (spans c').
Proof.
  induction 1 as [ps ws H|c p c0 w m f _ IH Hp|l r l' r' _ IHl _ IHr|l r l' r' _ IHl _ IHr|c c0 _ IH]; simpl;
    rewrite ?Forall_app, ?Forall_singleton; eauto.
  induction H; constructor; eauto.
Qed.

Lemma reads_strings buf c' c : cut_of buf -> reads full c' c -> cmd_ok c ->
  Forall (fun p => buf !! (length full - p.2)%nat = Some 0) (spans c') -> cmd_map (string_at (length full) buf) c' = c.
Proof.
  intros Hb. induction 1 as [ps ws H|c p c0 w m f _ IH Hp|l r l' r' _ IHl _ IHr|l r l' r' _ IHl _ IHr|c c0 _ IH];
    simpl; rewrite ?Forall_app, ?Forall_singleton; intros Hok Hz.
  - f_equal. destruct Hok as [Hok _]. induction H as [|p w ps ws Hp _ IH]; [done|].
    apply Forall_cons in Hok as [Hw Hok]. apply Forall_cons in Hz as [Hz1 Hz2]. simpl. f_equal; [by apply string_at_word|by apply IH].
  - destruct Hok as [Hok [Hw _]], Hz as [Hz1 Hz2]. f_equal; [by apply IH|by apply string_at_word].
  - f_equal; [apply IHl|apply IHr]; tauto.
  - f_equal; [apply IHl|apply IHr]; tauto.
  - f_equal. by apply IH.
Qed.
End strings.

(** ** Theorem *)

(** C29: The parser recovers the command.  For every command the shell can
    represent (any nesting of pipes, lists, background commands and
    redirections, fewer than [MAXARGS] words each), [parsecmd] of its printed
    form terminates with the same structure, and once [nulterminate] has put
    the zeroes into the line, every argument and file name pointer points to
    exactly the word it stands for. *)
Theorem sh_parse_print c : cmd_ok c ->
  exists c' buf, parsecmd (print_cmd c) = Ret (c', buf) [] /\ cmd_map (string_at (length (print_cmd c)) buf) c' = c.
Proof.
  intros Hok. unfold print_cmd. set (full := render (toks c LLine)). unfold parsecmd.
  pose proof (length_render _ (toks_ok c LLine Hok)) as Hl. pose proof (cost_toks c LLine) as Hc. fold full in Hl.
  destruct (parse_levels full c Hok) as (_ & _ & _ & H).
  destruct (H (8 * length full + 8)%nat [] ltac:(lia) ltac:(constructor) I) as (c' & Ep & Hr); [exists []; by rewrite app_nil_r|].
  rewrite app_nil_r in Ep. fold full in Ep. run Ep. run (peek_nil []). run_steps. unfold id. cbn. rewrite nulterminate_spans.
  destruct (zero_ends_ok full (spans c') (full ++ [0]) (cut_of_full full) (reads_spans full _ _ Hr)) as (H1 & _ & H3).
  eexists _, _. split; [done|]. by apply reads_strings.
Qed.

(** "a b < c | ( d ; e & ) > f" *)
Lemma sh_parse_print_witness : exists c' buf,
  parsecmd (print_cmd (PIPE (REDIR (EXEC [[97]; [98]]) [99] O_RDONLY 0)
    (REDIR (LIST (EXEC [[100]]) (BACK (EXEC [[101]]))) [102] (Z.lor O_WRONLY O_CREATE) 1))) = Ret (c', buf) [] /\
  string_at 26 buf (26, 25)%nat = [97].
Proof.
  destruct (sh_parse_print (PIPE (REDIR (EXEC [[97]; [98]]) [99] O_RDONLY 0)
    (REDIR (LIST (EXEC [[100]]) (BACK (EXEC [[101]]))) [102] (Z.lor O_WRONLY O_CREATE) 1))) as (c' & buf & E & _).
  - apply (bool_decide_unpack _). vm_compute. exact I.
  - exists c', buf. split; [exact E|]. vm_compute in E. injection E as <- <-. reflexivity.
Defined.
