(* ===== verification/Spinlock.v ===== *)
(** * Spin locks (spinlock.c)

  Several CPUs run [acquire] and [release] on several locks; a step is one
  access to shared memory, so every interleaving is covered.  The field
  [c_held] is a ghost: the locks between whose [acquire] and [release] the
  CPU is. *)
From S2P Require Import Prelude.

(** ** Interrupts: struct cpu, pushcli, popcli *)
Record cpu := mk_cpu {
  c_ncli : Z;
  c_intena : bool;
  c_if : bool;
  c_held : list nat
}.

Definition pushcli (c : cpu) : cpu :=
  mk_cpu (c_ncli c + 1) (if c_ncli c =? 0 then c_if c else c_intena c) false (c_held c).

Definition popcli (c : cpu) : cpu + string :=
  if c_if c then inr "popcli - interruptible"
  else let n := c_ncli c - 1 in
    if n <? 0 then inr "popcli"
    else inl (mk_cpu n (c_intena c) (if (n =? 0) && c_intena c then true else c_if c) (c_held c)).

(** ** Locks *)
Record spinlock := mk_spinlock {
  sl_locked : bool;
  sl_cpu : option nat
}.
Definition initlock : spinlock := mk_spinlock false None.

(** Where a CPU is.  [holding] reads [locked], then [cpu]. *)
Inductive pc :=
| Running
| AcqLocked (l : nat)
| AcqCpu (l : nat)
| Spin (l : nat)
| Got (l : nat)
| RelLocked (l : nat)
| RelCpu (l : nat)
| RelClear (l : nat)
| RelUnlock (l : nat)
| RelPop
| Panicked (msg : string).

Record sys := mk_sys {
  s_lock : nat -> spinlock;
  s_cpu : nat -> cpu;
  s_pc : nat -> pc
}.

Definition upd {A} (f : nat -> A) (i : nat) (x : A) : nat -> A := fun j => if decide (j = i) then x else f j.
Definition set_pc (s : sys) (i : nat) (p : pc) : sys := mk_sys (s_lock s) (s_cpu s) (upd (s_pc s) i p).
Definition set_cpu (s : sys) (i : nat) (c : cpu) : sys := mk_sys (s_lock s) (upd (s_cpu s) i c) (s_pc s).
Definition set_lock (s : sys) (l : nat) (k : spinlock) : sys := mk_sys (upd (s_lock s) l k) (s_cpu s) (s_pc s).
Definition held (c : cpu) (ls : list nat) : cpu := mk_cpu (c_ncli c) (c_intena c) (c_if c) ls.

(** [popcli] at the end of a function that returns to [p]. *)
Definition pop_to (s : sys) (i : nat) (p : pc) : sys :=
  match popcli (s_cpu s i) with
  | inl c => set_pc (set_cpu s i c) i p
  | inr msg => set_pc s i (Panicked msg)
  end.

(** [holding(lk)] after its [pushcli]: a CPU at [p1] reads [lk->locked], at
    [p2] reads [lk->cpu]; the function returns to [yes] or to [no]. *)
Inductive holding (i : nat) (l : nat) (p1 p2 yes no : pc) (s : sys) : sys -> Prop :=
| h_locked : s_pc s i = p1 ->
    holding i l p1 p2 yes no s (if sl_locked (s_lock s l) then set_pc s i p2 else pop_to s i no)
| h_cpu : s_pc s i = p2 ->
    holding i l p1 p2 yes no s (if decide (sl_cpu (s_lock s l) = Some i) then pop_to s i yes else pop_to s i no).

(** The steps of CPU [i] in [acquire(l)]. *)
Inductive acquire (i l : nat) (s : sys) : sys -> Prop :=
| st_acquire : s_pc s i = Running ->
    acquire i l s (set_pc (set_cpu s i (pushcli (pushcli (s_cpu s i)))) i (AcqLocked l))
| st_acq_holding s' : holding i l (AcqLocked l) (AcqCpu l) (Panicked "acquire") (Spin l) s s' -> acquire i l s s'
| st_xchg : s_pc s i = Spin l ->
    acquire i l s (set_pc (set_lock s l (mk_spinlock true (sl_cpu (s_lock s l)))) i
                          (if sl_locked (s_lock s l) then Spin l else Got l))
| st_record : s_pc s i = Got l ->
    acquire i l s (set_pc (set_cpu (set_lock s l (mk_spinlock (sl_locked (s_lock s l)) (Some i))) i
                                   (held (s_cpu s i) (l :: c_held (s_cpu s i)))) i Running).

(** The steps of CPU [i] in [release(l)]. *)
Inductive release (i l : nat) (s : sys) : sys -> Prop :=
| st_release : s_pc s i = Running ->
    release i l s (set_pc (set_cpu s i (pushcli (s_cpu s i))) i (RelLocked l))
| st_rel_holding s' : holding i l (RelLocked l) (RelCpu l) (RelClear l) (Panicked "release") s s' -> release i l s s'
| st_rel_clear : s_pc s i = RelClear l ->
    release i l s (set_pc (set_lock s l (mk_spinlock (sl_locked (s_lock s l)) None)) i (RelUnlock l))
| st_rel_unlock : s_pc s i = RelUnlock l ->
    release i l s (set_pc (set_cpu (set_lock s l (mk_spinlock false (sl_cpu (s_lock s l)))) i
                                   (held (s_cpu s i) (filter (fun k => k <> l) (c_held (s_cpu s i))))) i RelPop)
| st_rel_pop : s_pc s i = RelPop -> release i l s (pop_to s i Running).

Definition step (i : nat) (s s' : sys) : Prop := exists l, acquire i l s s' \/ release i l s s'.

Definition initial (s : sys) : Prop :=
  (forall l, s_lock s l = initlock) /\ (forall i, s_pc s i = Running /\ c_ncli (s_cpu s i) = 0 /\ c_held (s_cpu s i) = []).
Definition steps : sys -> sys -> Prop := rtc (fun s s' => exists i, step i s s').

(** ** The invariant *)
Definition owns (s : sys) (i l : nat) : Prop := l ∈ c_held (s_cpu s i) \/ s_pc s i = Got l.

(** The [pushcli]s in progress beyond one for each lock held. *)
Definition extra (p : pc) : Z :=
  match p with
  | Running | RelClear _ | RelUnlock _ | Panicked _ => 0
  | AcqLocked _ | AcqCpu _ => 2
  | Spin _ | Got _ | RelLocked _ | RelCpu _ | RelPop => 1
  end.
Definition pc_ok (ls : list nat) (p : pc) : Prop :=
  match p with
  | Spin l | Got l => l ∉ ls
  | RelClear l | RelUnlock l => l ∈ ls
  | Panicked msg => msg = "acquire" \/ msg = "release"
  | _ => True
  end.
Definition ncli_ok (n : Z) (ls : list nat) (p : pc) : Prop :=
  match p with
  | Panicked _ => Z.of_nat (length ls) <= n
  | _ => n = Z.of_nat (length ls) + extra p
  end.
Definition cpu_ok (c : cpu) (p : pc) : Prop :=
  NoDup (c_held c) /\ pc_ok (c_held c) p /\ (c_if c = true -> c_ncli c = 0) /\
  ncli_ok (c_ncli c) (c_held c) p.

Record ok (s : sys) : Prop := {
  ok_cpu : forall i, cpu_ok (s_cpu s i) (s_pc s i);
  ok_locked : forall i l, owns s i l -> sl_locked (s_lock s l) = true;
  ok_excl : forall i j l, owns s i l -> owns s j l -> i = j;
  ok_of_cpu : forall i l, sl_cpu (s_lock s l) = Some i -> l ∈ c_held (s_cpu s i);
  ok_cpu_of : forall i l, l ∈ c_held (s_cpu s i) -> sl_cpu (s_lock s l) = Some i \/ s_pc s i = RelUnlock l;
  ok_cleared : forall i l, s_pc s i = RelUnlock l -> sl_cpu (s_lock s l) = None
}.

Lemma upd_same {A} (f : nat -> A) i x : upd f i x i = x.
Proof. unfold upd. by rewrite decide_True. Qed.
Lemma upd_other {A} (f : nat -> A) i x j : j <> i -> upd f i x j = f j.
Proof. intros. unfold upd. by rewrite decide_False. Qed.

(** A step of CPU [i] that changes only its own part, and neither takes nor
    gives back a lock. *)
Lemma ok_local s i c p : ok s -> c_held c = c_held (s_cpu s i) -> cpu_ok c p ->
  (forall l, p = Got l -> s_pc s i = Got l) -> (forall l, s_pc s i = RelUnlock l <-> p = RelUnlock l) ->
  ok (set_pc (set_cpu s i c) i p).
Proof.
  intros H Hh Hc Hp Hr. assert (forall j l, owns (set_pc (set_cpu s i c) i p) j l -> owns s j l) as Ho.
  { intros j l. unfold owns. simpl. unfold upd. destruct (decide (j = i)) as [->|]; [|done]. rewrite Hh. intros [?|?%Hp]; auto. }
  split; simpl.
  - intros j. unfold upd. destruct (decide (j = i)); [done|]. apply H.
  - intros j l Hj. by apply (ok_locked _ H j), Ho.
  - intros j k l Hj Hk. by apply (ok_excl _ H j k l); apply Ho.
  - intros j l Hj. apply (ok_of_cpu _ H) in Hj. unfold upd. destruct (decide (j = i)) as [->|]; [by rewrite Hh|done].
  - intros j l. unfold upd. destruct (decide (j = i)) as [->|]; [rewrite Hh|]; intros Hj.
    + destruct (ok_cpu_of _ H _ _ Hj) as [?|?%Hr]; auto.
    + by apply (ok_cpu_of _ H).
  - intros j l. unfold upd. destruct (decide (j = i)) as [->|]; [rewrite <- Hr|]; apply (ok_cleared _ H).
Qed.

Lemma pushcli_ok c p p' : cpu_ok c p -> pc_ok (c_held c) p' -> (forall m, p <> Panicked m) -> (forall m, p' <> Panicked m) ->
  extra p' = extra p + 1 -> cpu_ok (pushcli c) p'.
Proof.
  intros (Hn & _ & Hi & Hx) Hp Hm Hm' He. split; [done|]. split; [done|]. split; [done|]. simpl.
  destruct p; try (by destruct (Hm msg)); destruct p'; try (by destruct (Hm' msg)); simpl in *; lia.
Qed.

(** The program counter after a [popcli]. *)
Definition popped (p p' : pc) : Prop :=
  1 <= extra p /\ (extra p' = extra p - 1 \/ exists m, p' = Panicked m) /\ (forall l, p' <> Got l) /\ (forall l, p' <> RelUnlock l).

Lemma popcli_ok c p p' : cpu_ok c p -> pc_ok (c_held c) p' -> popped p p' -> exists c', popcli c = inl c' /\ c_held c' = c_held c /\ cpu_ok c' p'.
Proof.
  intros (Hn & _ & Hi & Hx) Hp (H1 & He & _).
  assert (c_ncli c = Z.of_nat (length (c_held c)) + extra p) as Hx' by (destruct p; done).
  unfold popcli. destruct (c_if c) eqn:Ei; [rewrite Hi in Hx' by done; lia|].
  rewrite (proj2 (Z.ltb_ge _ _)) by lia. eexists. split; [done|]. split; [done|]. split; [done|]. split; [done|]. simpl. split.
  - destruct (Z.eqb_spec (c_ncli c - 1) 0); done.
  - destruct He as [He|[m ->]]; [destruct p'|]; simpl in *; lia.
Qed.

Lemma pop_to_ok s i p' : ok s -> pc_ok (c_held (s_cpu s i)) p' -> popped (s_pc s i) p' -> ok (pop_to s i p').
Proof.
  intros H Hp Hq. destruct (popcli_ok _ _ p' (ok_cpu _ H i) Hp Hq) as (c' & E & Eh & Hc). destruct Hq as (H1 & _ & Hg & Hu).
  unfold pop_to. rewrite E. apply ok_local; [done|done|done| |].
  - intros l ->. by destruct (Hg l).
  - intros l. split; [intros El; rewrite El in H1; simpl in H1; lia|intros El; by destruct (Hu l)].
Qed.

(** A step of CPU [i] that only moves its program counter. *)
Lemma ok_move s i p : ok s -> cpu_ok (s_cpu s i) p -> (forall l, p <> Got l) -> (forall l, s_pc s i <> RelUnlock l) -> (forall l, p <> RelUnlock l) -> ok (set_pc s i p).
Proof.
  intros H Hc Hg Hr Hu'. pose proof (ok_local s i (s_cpu s i) p H eq_refl Hc) as Hl.
  assert (ok (set_pc (set_cpu s i (s_cpu s i)) i p)) as H'.
  { apply Hl; [intros l ->; by destruct (Hg l)|intros l; split; intros E; [by destruct (Hr l)|by destruct (Hu' l)]]. }
  assert (forall j, upd (s_cpu s) i (s_cpu s i) j = s_cpu s j) as Hu by (intros j; unfold upd; destruct (decide (j = i)) as [->|]; done).
  destruct H' as [A B C D E F]. unfold owns in *. simpl in *. split; unfold owns; simpl; intros j; setoid_rewrite Hu in A; setoid_rewrite Hu in B;
    setoid_rewrite Hu in C; setoid_rewrite Hu in D; setoid_rewrite Hu in E; eauto.
Qed.

Lemma ok_xchg s i l : ok s -> s_pc s i = Spin l ->
  ok (set_pc (set_lock s l (mk_spinlock true (sl_cpu (s_lock s l)))) i (if sl_locked (s_lock s l) then Spin l else Got l)).
Proof.
  intros H Hpc. pose proof (ok_cpu _ H i) as Hc. rewrite Hpc in Hc. destruct (sl_locked (s_lock s l)) eqn:El.
  - assert (forall k, upd (s_lock s) l (mk_spinlock true (sl_cpu (s_lock s l))) k = s_lock s k) as Hu.
    { intros k. unfold upd. destruct (decide (k = l)) as [->|]; [|done]. rewrite <- El. by destruct (s_lock s l). }
    assert (ok (set_pc s i (Spin l))) as H' by (apply ok_move; [done|done|done|by rewrite Hpc|done]).
    destruct H' as [A B C D E F]. split; [exact A| |exact C| | |]; simpl; intros j k; rewrite Hu; [apply B|apply D|apply E|apply F].
  - assert (forall j, ~ owns s j l) as Hno by (intros j Hj%(ok_locked _ H); congruence).
    destruct Hc as (Hn & Hl & Hi & Hx). split; unfold owns; simpl.
    + intros j. unfold upd. destruct (decide (j = i)) as [->|]; [|apply H]. done.
    + intros j k. unfold upd. destruct (decide (k = l)) as [->|]; [done|]. destruct (decide (j = i)) as [->|].
      * intros [Hk|[= ->]]; [|done]. apply (ok_locked _ H i). by left.
      * intros Hk. by apply (ok_locked _ H j).
    + assert (forall j k, k ∈ c_held (s_cpu s j) \/ upd (s_pc s) i (Got l) j = Got k -> owns s j k \/ (j = i /\ k = l)) as Hcase.
      { intros j k. unfold upd, owns. destruct (decide (j = i)) as [->|]; [intros [?|[= ->]]; auto|auto]. }
      intros j1 j2 k H1%Hcase H2%Hcase. destruct H1 as [H1|[-> ->]], H2 as [H2|[-> E2]]; try subst; try done.
      * by apply (ok_excl _ H j1 j2 k).
      * by apply Hno in H1.
      * by apply Hno in H2.
    + intros j k. unfold upd at 1. destruct (decide (k = l)) as [->|]; [simpl|]; apply (ok_of_cpu _ H).
    + intros j k Hk. unfold upd. destruct (decide (k = l)) as [->|Hkl]; simpl.
      * exfalso. apply (Hno j). by left.
      * destruct (ok_cpu_of _ H _ _ Hk) as [?|Hr]; [by left|]. right. destruct (decide (j = i)) as [->|]; [congruence|done].
    + intros j k. unfold upd. destruct (decide (j = i)) as [->|]; [done|]. intros Hk. pose proof (ok_cleared _ H j k Hk) as Hn'.
      destruct (decide (k = l)) as [->|]; done.
Qed.

Lemma ok_record s i l : ok s -> s_pc s i = Got l ->
  ok (set_pc (set_cpu (set_lock s l (mk_spinlock (sl_locked (s_lock s l)) (Some i))) i
                      (held (s_cpu s i) (l :: c_held (s_cpu s i)))) i Running).
Proof.
  intros H Hpc. pose proof (ok_cpu _ H i) as Hc. rewrite Hpc in Hc. destruct Hc as (Hn & Hl & Hi & Hx). simpl in Hl.
  set (s' := set_pc _ _ _). assert (forall j k, owns s' j k <-> owns s j k) as Ho.
  { intros j k. unfold owns, s'. simpl. unfold upd. destruct (decide (j = i)) as [->|]; [|done]. simpl. rewrite elem_of_cons, Hpc.
    split; [intros [[->|?]|?]; auto; done|]. intros [?|[= ->]]; auto. }
  assert (forall j, owns s j l -> j = i) as Hown by (intros j Hj; apply (ok_excl _ H j i l Hj); by right).
  split.
  - intros j. unfold s'. simpl. unfold upd. destruct (decide (j = i)) as [->|]; [|apply H]. split; [by constructor|]. split; [done|].
    split; [done|]. simpl in *. lia.
  - intros j k Hj%Ho. unfold s'. simpl. unfold upd. destruct (decide (k = l)) as [->|]; [simpl|]; by apply (ok_locked _ H j).
  - intros j1 j2 k H1%Ho H2%Ho. by apply (ok_excl _ H j1 j2 k).
  - intros j k. unfold s'. simpl. unfold upd at 1. destruct (decide (k = l)) as [->|Hk]; simpl.
    + intros [= ->]. rewrite upd_same. by left.
    + intros Hj%(ok_of_cpu _ H). unfold upd. destruct (decide (j = i)) as [->|]; [by right|done].
  - intros j k. unfold s'. simpl. unfold upd. destruct (decide (j = i)) as [->|Hj]; simpl.
    + intros [->|Hk]%elem_of_cons; [rewrite decide_True by done; by left|]. left.
      rewrite decide_False by (by intros ->). destruct (ok_cpu_of _ H _ _ Hk); [done|congruence].
    + intros Hk. destruct (ok_cpu_of _ H _ _ Hk) as [Hc|]; [|by right]. left. rewrite decide_False; [done|].
      intros ->. apply Hj, Hown. by left.
  - intros j k. unfold s'. simpl. unfold upd. destruct (decide (j = i)) as [->|Hj]; [done|]. intros Hk.
    rewrite decide_False; [by apply (ok_cleared _ H j)|]. intros ->. apply Hj, Hown. pose proof (ok_cpu _ H j) as (_ & Hin & _).
    rewrite Hk in Hin. by left.
Qed.

Lemma ok_clear s i l : ok s -> s_pc s i = RelClear l ->
  ok (set_pc (set_lock s l (mk_spinlock (sl_locked (s_lock s l)) None)) i (RelUnlock l)).
Proof.
  intros H Hpc. pose proof (ok_cpu _ H i) as Hc. rewrite Hpc in Hc. destruct Hc as (Hn & Hl & Hi & Hx). simpl in Hl.
  set (s' := set_pc _ _ _). assert (forall j k, owns s' j k <-> owns s j k) as Ho.
  { intros j k. unfold owns, s'. simpl. unfold upd. destruct (decide (j = i)) as [->|]; [|done]. rewrite Hpc. naive_solver. }
  split.
  - intros j. unfold s'. simpl. unfold upd. destruct (decide (j = i)) as [->|]; [|apply H]. done.
  - intros j k Hj%Ho. unfold s'. simpl. unfold upd. destruct (decide (k = l)) as [->|]; [simpl|]; by apply (ok_locked _ H j).
  - intros j1 j2 k H1%Ho H2%Ho. by apply (ok_excl _ H j1 j2 k).
  - intros j k. unfold s'. simpl. unfold upd. destruct (decide (k = l)) as [->|]; [done|]. apply (ok_of_cpu _ H).
  - intros j k Hk. unfold s' in *. simpl in *. unfold upd. destruct (decide (k = l)) as [->|Hkl].
    + right. assert (j = i) as -> by (apply (ok_excl _ H j i l); by left). by rewrite decide_True.
    + destruct (ok_cpu_of _ H _ _ Hk) as [?|Hr]; [by left|]. right. destruct (decide (j = i)) as [->|]; [congruence|done].
  - intros j k. unfold s'. simpl. unfold upd. destruct (decide (k = l)) as [->|]; [done|]. destruct (decide (j = i)) as [->|]; [congruence|].
    apply (ok_cleared _ H).
Qed.

Lemma length_remove (l : nat) ls : NoDup ls -> l ∈ ls -> S (length (filter (fun k => k <> l) ls)) = length ls.
Proof.
  induction 1 as [|k ls Hk _ IH]; [by intros ?%elem_of_nil|]. intros [->|Hl]%elem_of_cons; rewrite filter_cons.
  - rewrite decide_False by auto. simpl. f_equal. clear IH. induction ls as [|a ls IH]; [done|]. rewrite filter_cons.
    rewrite not_elem_of_cons in Hk. rewrite decide_True by (intros ->; tauto). simpl. f_equal. apply IH. tauto.
  - rewrite decide_True by (by intros ->). simpl. f_equal. by apply IH.
Qed.

Lemma ok_unlock s i l : ok s -> s_pc s i = RelUnlock l ->
  ok (set_pc (set_cpu (set_lock s l (mk_spinlock false (sl_cpu (s_lock s l)))) i
                      (held (s_cpu s i) (filter (fun k => k <> l) (c_held (s_cpu s i))))) i RelPop).
Proof.
  intros H Hpc. pose proof (ok_cpu _ H i) as Hc. rewrite Hpc in Hc. destruct Hc as (Hn & Hl & Hi & Hx). simpl in Hl.
  set (s' := set_pc _ _ _). assert (forall j k, owns s' j k -> owns s j k /\ k <> l) as Ho.
  { assert (forall j, owns s j l -> j = i) as Hown by (intros j Hj; apply (ok_excl _ H j i l Hj); by left).
    intros j k Hj. assert (owns s j k /\ (j = i -> k <> l)) as [H1 H2].
    { unfold owns, s' in *. simpl in *. unfold upd in Hj. destruct (decide (j = i)) as [->|]; [|done]. simpl in Hj.
      destruct Hj as [[? ?]%list_elem_of_filter|?]; [auto|done]. }
    split; [done|]. intros ->. by apply (H2 (Hown j H1)). }
  split.
  - intros j. unfold s'. simpl. unfold upd. destruct (decide (j = i)) as [->|]; [|apply H].
    split; [simpl; by apply NoDup_filter|]. split; [done|]. split; [done|]. simpl in *. pose proof (length_remove l _ Hn Hl). lia.
  - intros j k [Hj Hk]%Ho. unfold s'. simpl. rewrite upd_other by done. by apply (ok_locked _ H j).
  - intros j1 j2 k [H1 _]%Ho [H2 _]%Ho. by apply (ok_excl _ H j1 j2 k).
  - intros j k Hc. assert (sl_cpu (s_lock s k) = Some j) as Hc'.
    { unfold s' in Hc. simpl in Hc. unfold upd in Hc. destruct (decide (k = l)) as [->|]; done. }
    pose proof (ok_of_cpu _ H _ _ Hc') as Hin. unfold s'. simpl. unfold upd. destruct (decide (j = i)) as [->|]; [|done]. simpl.
    apply list_elem_of_filter. split; [|done]. intros ->. rewrite (ok_cleared _ H i l Hpc) in Hc'. done.
  - intros j k Hk. unfold s' in *. simpl in *. unfold upd in *. destruct (decide (j = i)) as [->|Hj]; simpl in *.
    + apply list_elem_of_filter in Hk as [Hne Hk]. rewrite decide_False by done. destruct (ok_cpu_of _ H _ _ Hk) as [?|?]; [by left|congruence].
    + destruct (ok_cpu_of _ H _ _ Hk) as [Hc|]; [|by right]. left. destruct (decide (k = l)) as [->|]; done.
  - intros j k Hk. unfold s' in *. simpl in *. unfold upd in *. destruct (decide (j = i)) as [->|Hj]; [done|].
    destruct (decide (k = l)) as [->|]; by apply (ok_cleared _ H j).
Qed.

Lemma ok_pop s i p p' : ok s -> s_pc s i = p -> pc_ok (c_held (s_cpu s i)) p' -> popped p p' -> ok (pop_to s i p').
Proof. intros ? <- ??. by apply pop_to_ok. Qed.

Lemma ok_acquire i l s s' : ok s -> acquire i l s s' -> ok s'.
Proof.
  intros H St. pose proof (ok_cpu _ H i) as Hc. destruct St as [E|s' [E|E]|E|E]; rewrite E in Hc.
  - apply ok_local; [done|done| |done|by rewrite E]. apply (pushcli_ok _ (RelLocked l)); try done.
    by apply (pushcli_ok _ Running).
  - destruct (sl_locked (s_lock s l)) eqn:El; [apply ok_move; try done; rewrite E; done|].
    apply (ok_pop _ _ _ _ H E); [|repeat split; try done; by left]. intros Hin.
    assert (sl_locked (s_lock s l) = true) by (apply (ok_locked _ H i); by left). congruence.
  - destruct (decide (sl_cpu (s_lock s l) = Some i)) as [Ec|Ec]; (apply (ok_pop _ _ _ _ H E); [|by repeat split; eauto]); [by left|].
    intros Hin. destruct (ok_cpu_of _ H _ _ Hin); congruence.
  - by apply ok_xchg.
  - by apply ok_record.
Qed.

Lemma ok_release i l s s' : ok s -> release i l s s' -> ok s'.
Proof.
  intros H St. pose proof (ok_cpu _ H i) as Hc. destruct St as [E|s' [E|E]|E|E|E]; rewrite E in Hc.
  - apply ok_local; [done|done| |done|by rewrite E]. by apply (pushcli_ok _ Running).
  - destruct (sl_locked (s_lock s l)); [apply ok_move; try done; rewrite E; done|].
    apply (ok_pop _ _ _ _ H E); [by right|by repeat split; eauto].
  - destruct (decide (sl_cpu (s_lock s l) = Some i)) as [Ec|Ec]; (apply (ok_pop _ _ _ _ H E); [|by repeat split; eauto]).
    + by apply (ok_of_cpu _ H).
    + by right.
  - by apply ok_clear.
  - by apply ok_unlock.
  - apply (ok_pop _ _ _ _ H E); [done|]. repeat split; try done. by left.
Qed.

Lemma ok_initial s : initial s -> ok s.
Proof.
  intros [Hl Hi]. assert (forall i l, ~ owns s i l) as Hno.
  { intros i l [Hh|Hp]; destruct (Hi i) as (E1 & _ & E2); [rewrite E2 in Hh; by apply elem_of_nil in Hh|congruence]. }
  split.
  - intros i. destruct (Hi i) as (-> & E2 & E3). unfold cpu_ok. rewrite E2, E3. split; [constructor|]. done.
  - intros i l Ho. by apply Hno in Ho.
  - intros i j l Ho. by apply Hno in Ho.
  - intros i l. rewrite Hl. done.
  - intros i l Hh. exfalso. apply (Hno i l). by left.
  - intros i l Hp. destruct (Hi i) as (E1 & _). congruence.
Qed.

(** ** Theorem *)

(** C26: Spin locks exclude, in every interleaving of any number of CPUs and
    locks: no two CPUs hold the same lock; a CPU that holds a lock has its
    interrupts off and its [ncli] counts at least the locks it holds; a CPU
    never spins for a lock it holds itself but panics; and the [popcli] of
    [acquire] and [release] never panics, so the only panics are an [acquire]
    of a lock already held and a [release] of a lock not held. *)
Theorem spinlock_mutex s s' : initial s -> steps s s' ->
  (forall i j l, owns s' i l -> owns s' j l -> i = j) /\
  (forall i l, l ∈ c_held (s_cpu s' i) -> c_if (s_cpu s' i) = false /\
     Z.of_nat (length (c_held (s_cpu s' i))) <= c_ncli (s_cpu s' i) /\ sl_locked (s_lock s' l) = true) /\
  (forall i l, s_pc s' i = Spin l -> l ∉ c_held (s_cpu s' i)) /\
  (forall i msg, s_pc s' i = Panicked msg -> msg = "acquire" \/ msg = "release").
Proof.
  intros Hi Hs. assert (ok s') as H.
  { revert Hs. apply (rtc_ind_r (fun s' => ok s')); [by apply ok_initial|]. intros x y _ (i & l & [St|St]) Hx; [by apply (ok_acquire i l x)|by apply (ok_release i l x)]. }
  split; [exact (ok_excl _ H)|]. split; [|split].
  - intros i l Hl. pose proof (ok_cpu _ H i) as (Hn & Hp & Hif & Hx).
    assert (Z.of_nat (length (c_held (s_cpu s' i))) <= c_ncli (s_cpu s' i)) as Hle by (destruct (s_pc s' i); simpl in Hx; lia).
    assert (0 < length (c_held (s_cpu s' i)))%nat as Hpos by (destruct (c_held (s_cpu s' i)); [by apply elem_of_nil in Hl|simpl; lia]).
    split; [|split; [done|]]; [|apply (ok_locked _ H i); by left].
    destruct (c_if (s_cpu s' i)); [|done]. rewrite Hif in Hle by done. lia.
  - intros i l E. pose proof (ok_cpu _ H i) as (_ & Hp & _). by rewrite E in Hp.
  - intros i msg E. pose proof (ok_cpu _ H i) as (_ & Hp & _). by rewrite E in Hp.
Qed.

Definition demo_sys : sys := mk_sys (fun _ => initlock) (fun _ => mk_cpu 0 false true []) (fun _ => Running).

(** CPU 0 takes lock 5 while CPU 1 is already waiting for it. *)
Lemma spinlock_mutex_witness : exists s, steps demo_sys s /\ s_pc s 1%nat = Spin 5 /\ owns s 0 5 /\ ~ owns s 1 5.
Proof.
  assert (exists s, steps demo_sys s /\ s_pc s 1%nat = Spin 5 /\ owns s 0 5) as (s & Hs & H1 & H0).
  { eexists. split; [|split].
    - eapply rtc_l; [exists 1%nat, 5%nat; left; by eapply st_acquire|].
      eapply rtc_l; [exists 0%nat, 5%nat; left; by eapply st_acquire|].
      eapply rtc_l; [exists 1%nat, 5%nat; left; eapply st_acq_holding; by eapply h_locked|].
      eapply rtc_l; [exists 0%nat, 5%nat; left; eapply st_acq_holding; by eapply h_locked|].
      eapply rtc_l; [exists 0%nat, 5%nat; left; by eapply st_xchg|].
      eapply rtc_l; [exists 1%nat, 5%nat; left; by eapply st_xchg|].
      eapply rtc_l; [exists 0%nat, 5%nat; left; by eapply st_record|]. apply rtc_refl.
    - done.
    - left. vm_compute. by left. }
  exists s. split; [done|]. split; [done|]. split; [done|]. intros Ho.
  destruct (spinlock_mutex demo_sys s (conj (fun _ => eq_refl) (fun _ => conj eq_refl (conj eq_refl eq_refl))) Hs) as (Hx & _).
  discriminate (Hx _ _ _ H0 Ho).
Defined.
