(* ===== verification/Kbd.v ===== *)
(** * The keyboard (kbd.c, kbd.h) *)
From S2P Require Import Prelude Console.

(** ** kbd.h *)
Notation NO := 0 (only parsing).
Notation SHIFT := 1 (only parsing).
Notation CTL := 2 (only parsing).
Notation ALT := 4 (only parsing).
Notation CAPSLOCK := 8 (only parsing).
Notation NUMLOCK := 16 (only parsing).
Notation SCROLLLOCK := 32 (only parsing).
Notation E0ESC := 64 (only parsing).
Notation KEY_HOME := 0xE0 (only parsing).
Notation KEY_END := 0xE1 (only parsing).
Notation KEY_UP := 0xE2 (only parsing).
Notation KEY_DN := 0xE3 (only parsing).
Notation KEY_LF := 0xE4 (only parsing).
Notation KEY_RT := 0xE5 (only parsing).
Notation KEY_PGUP := 0xE6 (only parsing).
Notation KEY_PGDN := 0xE7 (only parsing).
Notation KEY_INS := 0xE8 (only parsing).
Notation KEY_DEL := 0xE9 (only parsing).

(** A [uchar] array of 256 entries: the first ones in order, then those with
    a designator. *)
Definition designated (first : list Z) (others : list (Z * Z)) : list Z :=
  foldl (fun t e => <[Z.to_nat e.1 := u8 e.2]> t) ((u8 <$> first) ++ replicate (256 - length first) 0) others.

Definition shiftcode : list Z :=
  designated [] [ (0x1D, CTL); (0x2A, SHIFT); (0x36, SHIFT); (0x38, ALT); (0x9D, CTL); (0xB8, ALT) ].
Definition togglecode : list Z := designated [] [ (0x3A, CAPSLOCK); (0x45, NUMLOCK); (0x46, SCROLLLOCK) ].
Definition normalmap : list Z :=
  designated (
    [ NO; 27; 49; 50; 51; 52; 53; 54;
      55; 56; 57; 48; 45; 61; 8; 9;
      113; 119; 101; 114; 116; 121; 117; 105;
      111; 112; 91; 93; 10; NO; 97; 115;
      100; 102; 103; 104; 106; 107; 108; 59;
      39; 96; NO; 92; 122; 120; 99; 118;
      98; 110; 109; 44; 46; 47; NO; 42;
      NO; 32; NO; NO; NO; NO; NO; NO;
      NO; NO; NO; NO; NO; NO; NO; 55;
      56; 57; 45; 52; 53; 54; 43; 49;
      50; 51; 48; 46; NO; NO; NO; NO ])
    [ (0x9C, 10); (0xB5, 47); (0xC8, KEY_UP); (0xD0, KEY_DN); (0xC9, KEY_PGUP); (0xD1, KEY_PGDN); (0xCB, KEY_LF); (0xCD, KEY_RT); (0x97, KEY_HOME); (0xCF, KEY_END); (0xD2, KEY_INS); (0xD3, KEY_DEL) ].
Definition shiftmap : list Z :=
  designated (
    [ NO; 27; 33; 64; 35; 36; 37; 94;
      38; 42; 40; 41; 95; 43; 8; 9;
      81; 87; 69; 82; 84; 89; 85; 73;
      79; 80; 123; 125; 10; NO; 65; 83;
      68; 70; 71; 72; 74; 75; 76; 58;
      34; 126; NO; 124; 90; 88; 67; 86;
      66; 78; 77; 60; 62; 63; NO; 42;
      NO; 32; NO; NO; NO; NO; NO; NO;
      NO; NO; NO; NO; NO; NO; NO; 55;
      56; 57; 45; 52; 53; 54; 43; 49;
      50; 51; 48; 46; NO; NO; NO; NO ])
    [ (0x9C, 10); (0xB5, 47); (0xC8, KEY_UP); (0xD0, KEY_DN); (0xC9, KEY_PGUP); (0xD1, KEY_PGDN); (0xCB, KEY_LF); (0xCD, KEY_RT); (0x97, KEY_HOME); (0xCF, KEY_END); (0xD2, KEY_INS); (0xD3, KEY_DEL) ].
Definition ctlmap : list Z :=
  designated (
    [ NO; NO; NO; NO; NO; NO; NO; NO;
      NO; NO; NO; NO; NO; NO; NO; NO;
      C 81; C 87; C 69; C 82; C 84; C 89; C 85; C 73;
      C 79; C 80; NO; NO; 13; NO; C 65; C 83;
      C 68; C 70; C 71; C 72; C 74; C 75; C 76; NO;
      NO; NO; NO; C 92; C 90; C 88; C 67; C 86;
      C 66; C 78; C 77; NO; NO; C 47; NO; NO ])
    [ (0x9C, 13); (0xB5, C 47); (0xC8, KEY_UP); (0xD0, KEY_DN); (0xC9, KEY_PGUP); (0xD1, KEY_PGDN); (0xCB, KEY_LF); (0xCD, KEY_RT); (0x97, KEY_HOME); (0xCF, KEY_END); (0xD2, KEY_INS); (0xD3, KEY_DEL) ].

(** ** [kbdgetc]: the new [shift] and the result, for the byte [data] the
    controller has *)
Definition at_ (t : list Z) (data : Z) : Z := default 0 (t !! Z.to_nat data).
Definition charcode (shift : Z) : list Z :=
  if Z.land shift (Z.lor CTL SHIFT) =? 0 then normalmap
  else if Z.land shift (Z.lor CTL SHIFT) =? 1 then shiftmap else ctlmap.
Definition capslock (shift c : Z) : Z :=
  if Z.land shift CAPSLOCK =? 0 then c
  else if (97 <=? c) && (c <=? 122) then c + (65 - 97)
  else if (65 <=? c) && (c <=? 90) then c + (97 - 65)
  else c.

Definition kbdgetc (shift data : Z) : Z * Z :=
  if data =? 0xE0 then (Z.lor shift E0ESC, 0)
  else if negb (Z.land data 0x80 =? 0) then
    let data := if Z.land shift E0ESC =? 0 then Z.land data 0x7F else data in
    (Z.ldiff shift (Z.lor (at_ shiftcode data) E0ESC), 0)
  else
    let '(data, shift) := if Z.land shift E0ESC =? 0 then (data, shift) else (Z.lor data 0x80, Z.ldiff shift E0ESC) in
    let shift := Z.lor shift (at_ shiftcode data) in
    let shift := Z.lxor shift (at_ togglecode data) in
    (shift, capslock shift (at_ (charcode shift) data)).

(** [kbdintr]: [consoleintr] of the bytes the controller has. *)
Fixpoint kbd_chars (shift : Z) (ds : list Z) : Z * list Z :=
  match ds with
  | [] => (shift, [])
  | d :: ds => let '(shift, c) := kbdgetc shift d in let '(shift, cs) := kbd_chars shift ds in (shift, c :: cs)
  end.
Definition kbdintr (ds : list Z) (shift : Z) (i : input) : Z * (input * list Z * bool * bool) :=
  let '(shift, cs) := kbd_chars shift ds in (shift, consoleintr cs i).

(** ** The modifiers

    On every key whose plain character is a letter: SHIFT gives the capital,
    CAPSLOCK exchanges the two, and CTL gives the control character; none of
    them changes by typing it, and releasing the key changes nothing. *)
Definition letter_key (data : Z) : bool :=
  let c := at_ normalmap data in
  if (97 <=? c) && (c <=? 122) then
    bool_decide (kbdgetc 0 data = (0, c)) && bool_decide (kbdgetc SHIFT data = (SHIFT, c - 32)) &&
    bool_decide (kbdgetc CAPSLOCK data = (CAPSLOCK, c - 32)) &&
    bool_decide (kbdgetc (Z.lor CAPSLOCK SHIFT) data = (Z.lor CAPSLOCK SHIFT, c)) &&
    bool_decide (kbdgetc CTL data = (CTL, C (c - 32))) &&
    forallb (fun s => bool_decide (kbdgetc s (Z.lor data 0x80) = (s, 0))) (seqZ 0 64)
  else true.
Lemma kbd_letters data : 0 <= data < 128 -> letter_key data = true.
Proof.
  intros H. assert (forallb letter_key (seqZ 0 128) = true) as Hall by (vm_compute; reflexivity).
  rewrite forallb_forall in Hall. apply Hall, list_elem_of_In, elem_of_seqZ. lia.
Qed.

(** Pressing and releasing a modifier key brings [shift] back, if the
    modifier was off; the toggles change on each press. *)
Definition modifier_key (data : Z) : bool :=
  let m := at_ shiftcode data in
  let t := at_ togglecode data in
  forallb (fun s => if Z.land s m =? 0
                    then bool_decide ((kbdgetc (kbdgetc s data).1 (Z.lor data 0x80)).1 = Z.lxor s t) else true) (seqZ 0 64).
Lemma kbd_modifiers data : 0 <= data < 128 -> data <> 0x60 -> modifier_key data = true.
Proof.
  intros H H60. assert (forallb modifier_key (filter (fun d => d <> 0x60) (seqZ 0 128)) = true) as Hall by (vm_compute; reflexivity).
  rewrite forallb_forall in Hall. apply Hall, list_elem_of_In, list_elem_of_filter. split; [done|]. apply elem_of_seqZ. lia.
Qed.
