(* ===== verification/Mp.v ===== *)
(** * Multiprocessor discovery (mp.c, mp.h)

    The firmware leaves a floating pointer structure ([struct mp]) in low
    memory and, at the address it holds, a configuration table
    ([struct mpconf] and its entries).  [mpinit] finds both and records the
    processors, the I/O APIC and the address of the local APIC.  Memory is a
    partial function from virtual addresses to bytes: reading an unmapped
    address is a [Fault].  What an [inb] returns is a function of the [outb]s
    made before it. *)
From S2P Require Import Prelude Params CString Kalloc.

(** ** mp.h *)
Notation MPPROC := 0 (only parsing).
Notation MPBUS := 1 (only parsing).
Notation MPIOAPIC := 2 (only parsing).
Notation MPIOINTR := 3 (only parsing).
Notation MPLINTR := 4 (only parsing).
Notation sizeof_mp := 16 (only parsing).
Notation sizeof_mpconf := 44 (only parsing).
Notation sizeof_mpproc := 20 (only parsing).
Notation sizeof_mpioapic := 8 (only parsing).

(** The globals of mp.c ([cpus], of which it sets [apicid], [ncpu],
    [ioapicid]), lapic.c's [lapic], memory and the ports. *)
Record mpstate := mk_mpstate {
  m_ram : Z -> option Z;
  m_inb : list (Z * Z) -> Z -> Z;
  m_outb : list (Z * Z);
  m_cpus : list Z;
  m_ncpu : Z;
  m_ioapicid : Z;
  m_lapic : Z;
}.

Definition set_m_outb x s := mk_mpstate (m_ram s) (m_inb s) x (m_cpus s) (m_ncpu s) (m_ioapicid s) (m_lapic s).
Definition set_m_cpus x s := mk_mpstate (m_ram s) (m_inb s) (m_outb s) x (m_ncpu s) (m_ioapicid s) (m_lapic s).
Definition set_m_ncpu x s := mk_mpstate (m_ram s) (m_inb s) (m_outb s) (m_cpus s) x (m_ioapicid s) (m_lapic s).
Definition set_m_ioapicid x s := mk_mpstate (m_ram s) (m_inb s) (m_outb s) (m_cpus s) (m_ncpu s) x (m_lapic s).
Definition set_m_lapic x s := mk_mpstate (m_ram s) (m_inb s) (m_outb s) (m_cpus s) (m_ncpu s) (m_ioapicid s) x.

(** [*p] for [uchar *p] *)
Definition rdb (p : Z) : M mpstate Z := ram ← gets m_ram; unwrap (ram (u32 p)) "page fault".

(** [n] bytes at [p] as a little-endian number: a field of a structure *)
Fixpoint rdn (n : nat) (p : Z) : M mpstate Z :=
  match n with
  | O => mret 0
  | S n => b ← rdb p; r ← rdn n (p + 1); mret (b + 256 * r)
  end.

(** The mapped bytes from [p] on, [n] at most: what a comparison can read *)
Fixpoint mapped (ram : Z -> option Z) (p : Z) (n : nat) : list Z :=
  match n with
  | O => []
  | S n => match ram (u32 p) with Some b => b :: mapped ram (p + 1) n | None => [] end
  end.

Definition sig_mp : list Z := [95; 77; 80; 95].
Definition sig_pcmp : list Z := [80; 67; 77; 80].

(** [memcmp(p, sig, 4)] *)
Definition memcmp_at (p : Z) (sig : list Z) : M mpstate Z :=
  ram ← gets m_ram; unwrap (memcmp (mapped ram p 4) sig 4) "page fault".

Fixpoint sum_loop (addr : Z) (n : nat) (sum : Z) : M mpstate Z :=
  match n with
  | O => mret (u8 sum)
  | S n => b ← rdb addr; sum_loop (addr + 1) n (s32 (sum + b))
  end.
Definition sum (addr len : Z) : M mpstate Z := sum_loop addr (Z.to_nat len) 0.

Fixpoint mpsearch1_loop (fuel : nat) (e p : Z) : M mpstate Z :=
  match fuel with
  | O => out_of_fuel
  | S fuel =>
      if p <? e then
        c ← memcmp_at p sig_mp;
        found ← (if c =? 0 then x ← sum p sizeof_mp; mret (x =? 0) else mret false);
        if found : bool then mret p else mpsearch1_loop fuel e (u32 (p + sizeof_mp))
      else mret 0
  end.
Definition mpsearch1 (a len : Z) : M mpstate Z :=
  let addr := P2V a in
  mpsearch1_loop (S (Z.to_nat (len / sizeof_mp))) (u32 (addr + len)) addr.

Definition mpsearch : M mpstate Z :=
  let bda := P2V 0x400 in
  b1 ← rdb (bda + 0x0F); b0 ← rdb (bda + 0x0E);
  let p := Z.shiftl (Z.lor (Z.shiftl b1 8) b0) 4 in
  mp ← (if negb (p =? 0) then mpsearch1 p 1024
        else
          c1 ← rdb (bda + 0x14); c0 ← rdb (bda + 0x13);
          let p := Z.lor (Z.shiftl c1 8) c0 * 1024 in
          mpsearch1 (u32 (p - 1024)) 1024);
  if negb (mp =? 0) then mret mp else mpsearch1 0xF0000 0x10000.

(** The result is [conf] with [*pmp], or 0. *)
Definition mpconfig : M mpstate (Z * Z) :=
  mp ← mpsearch;
  if mp =? 0 then mret (0, 0) else
  physaddr ← rdn 4 (mp + 4);
  if physaddr =? 0 then mret (0, 0) else
  let conf := P2V physaddr in
  c ← memcmp_at conf sig_pcmp;
  if negb (c =? 0) then mret (0, 0) else
  version ← rdb (conf + 6);
  if negb (version =? 1) && negb (version =? 4) then mret (0, 0) else
  length ← rdn 2 (conf + 4);
  x ← sum conf length;
  if negb (x =? 0) then mret (0, 0) else mret (conf, mp).

Definition mpinit_proc (p : Z) : M mpstate unit :=
  n ← gets m_ncpu;
  when (n <? NCPU)
    (apicid ← rdb (p + 1);
     modify (fun s => set_m_ncpu (n + 1) (set_m_cpus (<[Z.to_nat n := apicid]> (m_cpus s)) s))).

(** The [break] of the default case leaves the [switch], not the loop: [p]
    is what it was. *)
Fixpoint mpinit_loop (fuel : nat) (e p : Z) (ismp : bool) : M mpstate bool :=
  match fuel with
  | O => out_of_fuel
  | S fuel =>
      if p <? e then
        t ← rdb p;
        if t =? MPPROC then mpinit_proc p ;; mpinit_loop fuel e (u32 (p + sizeof_mpproc)) ismp
        else if t =? MPIOAPIC then
          apicno ← rdb (p + 1);
          modify (set_m_ioapicid apicno) ;;
          mpinit_loop fuel e (u32 (p + sizeof_mpioapic)) ismp
        else if (t =? MPBUS) || (t =? MPIOINTR) || (t =? MPLINTR) then mpinit_loop fuel e (u32 (p + 8)) ismp
        else mpinit_loop fuel e p false
      else mret ismp
  end.

Definition mpinit_imcr (mp : Z) : M mpstate unit :=
  imcrp ← rdb (mp + 12);
  when (negb (imcrp =? 0))
    (modify (fun s => set_m_outb (m_outb s ++ [(0x22, 0x70)]) s) ;;
     modify (fun s => set_m_outb (m_outb s ++ [(0x23, u8 (Z.lor (m_inb s (m_outb s) 0x23) 1))]) s)).

Definition mpinit (fuel : nat) : M mpstate unit :=
  r ← mpconfig;
  let '(conf, mp) := r in
  if conf =? 0 then panic "Expect to run on an SMP" else
  lapicaddr ← rdn 4 (conf + 36);
  modify (set_m_lapic lapicaddr) ;;
  length ← rdn 2 (conf + 4);
  ismp ← mpinit_loop fuel (u32 (conf + length)) (u32 (conf + sizeof_mpconf)) true;
  if negb ismp then panic "Didn't find a suitable machine" else
  mpinit_imcr mp.

(** ** Memory holding given bytes *)
Definition bytes_at (ram : Z -> option Z) (p : Z) (bs : list Z) : Prop :=
  0 <= p /\ p + Z.of_nat (length bs) <= 2 ^ 32 /\ Forall is_byte bs /\
  forall i b, bs !! i = Some b -> ram (p + Z.of_nat i) = Some b.

Definition bsum (bs : list Z) : Z := foldr Z.add 0 bs.

Lemma bytes_at_app ram p bs bs' :
  bytes_at ram p (bs ++ bs') -> bytes_at ram p bs /\ bytes_at ram (p + Z.of_nat (length bs)) bs'.
Proof.
  intros (H0 & Hl & Hb & Hr). rewrite length_app in Hl. apply Forall_app in Hb as [Hb Hb'].
  split; (split; [lia|]; split; [lia|]; split; [done|]); intros i b Hi.
  - apply Hr. by apply lookup_app_l_Some.
  - replace (p + Z.of_nat (length bs) + Z.of_nat i) with (p + Z.of_nat (length bs + i)) by lia. apply Hr.
    rewrite lookup_app_r by lia. by replace (length bs + i - length bs)%nat with i by lia.
Qed.

Lemma bytes_at_slice ram p bs o n :
  (o + n <= length bs)%nat -> bytes_at ram p bs -> bytes_at ram (p + Z.of_nat o) (slice bs o n).
Proof.
  intros Hl H. rewrite <- (take_drop o bs) in H. apply bytes_at_app in H as [_ H].
  rewrite length_take_le in H by lia. rewrite <- (take_drop n (drop o bs)) in H. by apply bytes_at_app in H as [? _].
Qed.

Lemma bytes_at_cons ram p b bs :
  bytes_at ram p (b :: bs) -> ram (u32 p) = Some b /\ bytes_at ram (p + 1) bs.
Proof.
  intros H. split; [|by apply (bytes_at_app ram p [b])]. destruct H as (H0 & Hl & _ & Hr). cbn [length] in Hl.
  rewrite u32_small by lia. specialize (Hr 0%nat b eq_refl). by rewrite Z.add_0_r in Hr.
Qed.

Lemma rdb_cons s p b bs : bytes_at (m_ram s) p (b :: bs) -> rdb p s = Ret b s.
Proof. intros [H _]%bytes_at_cons. unfold rdb. rewrite bind_gets. by rewrite H. Qed.

Lemma rdb_at s p bs i b : bytes_at (m_ram s) p bs -> bs !! i = Some b -> rdb (p + Z.of_nat i) s = Ret b s.
Proof.
  intros H Hi. rewrite <- (take_drop_middle _ _ _ Hi) in H. apply bytes_at_app in H as [_ H].
  rewrite length_take_le in H by (apply lookup_lt_Some in Hi; lia). by eapply rdb_cons.
Qed.

Lemma rdn_bytes s p bs : bytes_at (m_ram s) p bs -> rdn (length bs) p s = Ret (le_dec bs) s.
Proof.
  revert p. induction bs as [|b bs IH]; intros p H; [done|]. cbn [rdn length].
  rewrite (bind_Ret _ _ _ _ _ (rdb_cons _ _ _ _ H)), (bind_Ret _ _ _ _ _ (IH _ (proj2 (bytes_at_cons _ _ _ _ H)))). done.
Qed.

Lemma rdn_at s p bs o n :
  (o + n <= length bs)%nat -> bytes_at (m_ram s) p bs -> rdn n (p + Z.of_nat o) s = Ret (rd n bs o) s.
Proof.
  intros Hl H. apply (bytes_at_slice _ _ _ o n Hl), rdn_bytes in H. by rewrite length_slice in H.
Qed.

Lemma mapped_bytes ram p bs n : (n <= length bs)%nat -> bytes_at ram p bs -> mapped ram p n = take n bs.
Proof.
  revert p n. induction bs as [|b bs IH]; intros p [|n] Hn H; cbn [length] in Hn; try done; [lia|].
  apply bytes_at_cons in H as [E H]. cbn [mapped]. rewrite E. cbn [take]. f_equal. apply IH; [lia|done].
Qed.

Lemma memcmp_at_spec s p bs sig :
  (4 <= length bs)%nat -> length sig = 4%nat -> bytes_at (m_ram s) p bs ->
  exists r, memcmp_at p sig s = Ret r s /\ (r = 0 <-> take 4 bs = sig).
Proof.
  intros Hl Hs H. destruct (memcmp_zero (take 4 bs) sig 4) as (r & E & Hr); [rewrite length_take; lia|lia|].
  exists r. unfold memcmp_at. rewrite bind_gets, (mapped_bytes _ _ _ _ Hl H), E. split; [done|].
  by rewrite Hr, take_take, Nat.min_id, (take_ge sig) by lia.
Qed.

Lemma bsum_bound bs : Forall is_byte bs -> 0 <= bsum bs <= 255 * Z.of_nat (length bs).
Proof. induction 1 as [|b bs Hb _ IH]; [done|]. unfold is_byte in Hb. cbn [bsum foldr length]. fold (bsum bs). lia. Qed.

Lemma sum_loop_bytes s p bs acc :
  bytes_at (m_ram s) p bs -> 0 <= acc -> acc + 255 * Z.of_nat (length bs) < 2 ^ 31 ->
  sum_loop p (length bs) acc s = Ret (u8 (acc + bsum bs)) s.
Proof.
  revert p acc. induction bs as [|b bs IH]; intros p acc H Ha Hm; cbn [sum_loop length]; [by rewrite Z.add_0_r|].
  rewrite (bind_Ret _ _ _ _ _ (rdb_cons _ _ _ _ H)). pose proof H as (_ & _ & Hb & _). apply Forall_cons in Hb as [Hb _].
  unfold is_byte in Hb. cbn [length] in Hm. rewrite s32_small by lia.
  rewrite IH; [|by apply bytes_at_cons in H as [_ ?]|lia|lia]. do 2 f_equal. cbn [bsum foldr]. fold (bsum bs). lia.
Qed.

(** [sum] is the sum of the bytes modulo 256. *)
Lemma sum_bytes s p bs len :
  bytes_at (m_ram s) p bs -> Z.of_nat (length bs) = len -> len < 2 ^ 16 -> sum p len s = Ret (bsum bs mod 256) s.
Proof. intros H <- Hl. unfold sum. rewrite Nat2Z.id, sum_loop_bytes; [done|done|lia|lia]. Qed.

(** ** The search for the floating pointer structure *)
Definition mp_bytes (bs : list Z) : Prop := take 4 bs = sig_mp /\ bsum bs mod 256 = 0.

(** [r] is the first of the addresses [l] with a floating pointer structure,
    or 0 if there is none. *)
Inductive first_mp (ram : Z -> option Z) : list Z -> Z -> Prop :=
| first_none : first_mp ram [] 0
| first_here p bs l : bytes_at ram p bs -> length bs = 16%nat -> mp_bytes bs -> first_mp ram (p :: l) p
| first_skip p bs l r : bytes_at ram p bs -> length bs = 16%nat -> ~ mp_bytes bs -> first_mp ram l r -> first_mp ram (p :: l) r.

(** The addresses from [p] on, [n] of them, 16 bytes apart *)
Fixpoint slots (p : Z) (n : nat) : list Z :=
  match n with O => [] | S n => p :: slots (p + sizeof_mp) n end.

Lemma found_mp s p bs :
  bytes_at (m_ram s) p bs -> length bs = 16%nat ->
  exists r, memcmp_at p sig_mp s = Ret r s /\
    exists b : bool, (if r =? 0 then x ← sum p sizeof_mp; mret (x =? 0) else mret false) s = Ret b s /\ (b = true <-> mp_bytes bs).
Proof.
  intros H Hl. destruct (memcmp_at_spec s p bs sig_mp) as (r & E & Hr); [lia|done|done|].
  exists r. split; [done|]. unfold mp_bytes. destruct (Z.eqb_spec r 0) as [->|Hn].
  - rewrite (bind_Ret _ _ _ _ _ (sum_bytes _ _ _ sizeof_mp H ltac:(lia) ltac:(lia))). eexists. split; [done|].
    rewrite Z.eqb_eq. split; [|tauto]. split; [by apply Hr|done].
  - exists false. split; [done|]. split; [done|]. intros [? _]. destruct Hn. by apply Hr.
Qed.

Lemma mpsearch1_loop_spec s n fuel p r :
  first_mp (m_ram s) (slots p n) r -> 0 <= p -> p + 16 * Z.of_nat n < 2 ^ 32 -> (n < fuel)%nat ->
  mpsearch1_loop fuel (p + 16 * Z.of_nat n) p s = Ret r s.
Proof.
  revert fuel p. induction n as [|n IH]; intros fuel p F Hp He Hf; (destruct fuel as [|fuel]; [lia|]); cbn [mpsearch1_loop].
  { inversion F. destruct (Z.ltb_spec p (p + 16 * Z.of_nat 0)); [lia|done]. }
  destruct (Z.ltb_spec p (p + 16 * Z.of_nat (S n))) as [_|]; [|lia]. cbn [slots] in F.
  inversion F as [|q bs l H Hl Hm|q bs l r' H Hl Hm F']; subst;
    destruct (found_mp s _ bs H Hl) as (c & E & b & Eb & Hb);
    rewrite (bind_Ret _ _ _ _ _ E), (bind_Ret _ _ _ _ _ Eb).
  - by rewrite (proj2 Hb Hm).
  - destruct b; [destruct Hm; by apply Hb|]. rewrite u32_small by lia.
    replace (p + 16 * Z.of_nat (S n)) with (p + 16 + 16 * Z.of_nat n) by lia. apply IH; [done|lia|lia|lia].
Qed.

Lemma mpsearch1_spec s a n r :
  first_mp (m_ram s) (slots (P2V a) n) r -> P2V a + 16 * Z.of_nat n < 2 ^ 32 ->
  mpsearch1 a (16 * Z.of_nat n) s = Ret r s.
Proof.
  intros F He. pose proof (u32_range (a + KERNBASE)) as Hp. fold (P2V a) in Hp. unfold mpsearch1.
  rewrite u32_small by lia. apply mpsearch1_loop_spec; [done|lia|done|].
  rewrite (Z.mul_comm 16), Z.div_mul by lia. lia.
Qed.

Lemma first_mp_app ram l l' r :
  first_mp ram (l ++ l') r -> r <> 0 -> first_mp ram l r \/ first_mp ram l 0 /\ first_mp ram l' r.
Proof.
  induction l as [|p l IH]; intros F Hr; [right; split; [constructor|done]|].
  inversion F as [|q bs k H Hl Hm|q bs k r' H Hl Hm F']; subst; [left; by eapply first_here|].
  destruct (IH F' Hr) as [?|[? ?]]; [left|right; split; [|done]]; by eapply first_skip.
Qed.

Lemma lor_bytes a b : is_byte b -> Z.lor (Z.shiftl a 8) b = 256 * a + b.
Proof.
  intros Hb. unfold is_byte in Hb. rewrite <- Z.add_nocarry_lor; [rewrite Z.shiftl_mul_pow2 by lia; lia|].
  apply Z.bits_inj'. intros k Hk. rewrite Z.land_spec, Z.bits_0. destruct (Z.lt_ge_cases k 8).
  - by rewrite Z.shiftl_spec_low.
  - rewrite <- (Z.mod_small b (2 ^ 8)) by lia. by rewrite Z.mod_pow2_bits_high, andb_false_r by lia.
Qed.

(** The first region: the extended BIOS data area if the BIOS data area
    [bda] gives its segment, else the last kilobyte of base memory. *)
Definition first_region (bda : list Z) : Z :=
  if rd 2 bda 0x0E =? 0 then u32 (1024 * rd 2 bda 0x13 - 1024) else 16 * rd 2 bda 0x0E.

Lemma rd2 d o a b : d !! o = Some a -> d !! S o = Some b -> rd 2 d o = a + 256 * b.
Proof.
  intros Ha Hb. unfold rd, slice. rewrite (drop_S _ _ _ Ha), (drop_S _ _ _ Hb). cbn [take].
  rewrite take_0. unfold le_dec. lia.
Qed.

Lemma first_region_range bda : Forall is_byte bda -> 0 <= P2V (first_region bda) < 2 ^ 32 - 2048.
Proof.
  intros Hb. assert (forall o, 0 <= rd 2 bda o < 2 ^ 16) as Hr.
  { intros o. pose proof (le_dec_bound (slice bda o 2) ltac:(unfold slice; auto with xv6)) as Hd. fold (rd 2 bda o) in Hd.
    assert (length (slice bda o 2) <= 2)%nat by (unfold slice; rewrite length_take; lia).
    pose proof (Z.pow_le_mono_r 256 (Z.of_nat (length (slice bda o 2))) 2). lia. }
  pose proof (Hr 0x0E%nat). pose proof (Hr 0x13%nat). unfold first_region, P2V.
  destruct (Z.eqb_spec (rd 2 bda 0x0E) 0); [|rewrite u32_small; lia].
  destruct (Z.eq_dec (rd 2 bda 0x13) 0) as [->|]; [by vm_compute|]. rewrite (u32_small (_ - _)), u32_small; lia.
Qed.

Lemma mpsearch_spec s bda mp :
  bytes_at (m_ram s) (P2V 0x400) bda -> (0x15 <= length bda)%nat -> mp <> 0 ->
  first_mp (m_ram s) (slots (P2V (first_region bda)) 64 ++ slots (P2V 0xF0000) 4096) mp ->
  mpsearch s = Ret mp s.
Proof.
  intros H Hl Hmp F. pose proof H as (_ & _ & Hb & _). pose proof (first_region_range bda Hb) as Hr.
  assert (forall i, (i < 0x15)%nat -> exists b, bda !! i = Some b /\ is_byte b /\ rdb (P2V 0x400 + Z.of_nat i) s = Ret b s) as Hrd.
  { intros i Hi. destruct (lookup_lt_is_Some_2 bda i ltac:(lia)) as [b E]. exists b. split; [done|].
    split; [by eapply Forall_lookup_1|by eapply rdb_at]. }
  destruct (Hrd 0x0F%nat ltac:(lia)) as (b1 & E1 & _ & R1). destruct (Hrd 0x0E%nat ltac:(lia)) as (b0 & E0 & B0 & R0).
  destruct (Hrd 0x14%nat ltac:(lia)) as (c1 & F1 & _ & Q1). destruct (Hrd 0x13%nat ltac:(lia)) as (c0 & F0 & G0 & Q0).
  unfold mpsearch. rewrite (bind_Ret _ _ _ _ _ R1), (bind_Ret _ _ _ _ _ R0). rewrite (lor_bytes b1 b0 B0), Z.shiftl_mul_pow2 by lia.
  assert (forall r, first_mp (m_ram s) (slots (P2V (first_region bda)) 64) r ->
    (if negb ((256 * b1 + b0) * 2 ^ 4 =? 0) then mpsearch1 ((256 * b1 + b0) * 2 ^ 4) 1024
     else c1 ← rdb (P2V 0x400 + 0x14); c0 ← rdb (P2V 0x400 + 0x13);
          mpsearch1 (u32 (Z.lor (Z.shiftl c1 8) c0 * 1024 - 1024)) 1024) s = Ret r s) as Hreg.
  { intros r Fr. pose proof (rd2 _ _ _ _ E0 E1) as D0. pose proof (rd2 _ _ _ _ F0 F1) as D1.
    pose proof (mpsearch1_spec s (first_region bda) 64 r Fr ltac:(lia)) as Hs.
    change (16 * Z.of_nat 64) with 1024 in Hs. unfold first_region in Hs. rewrite D0, D1 in Hs.
    destruct (Z.eqb_spec (b0 + 256 * b1) 0) as [Hz|Hz]; destruct (Z.eqb_spec ((256 * b1 + b0) * 2 ^ 4) 0); try lia; cbn [negb].
    - rewrite (bind_Ret _ _ _ _ _ Q1), (bind_Ret _ _ _ _ _ Q0), (lor_bytes c1 c0 G0). rewrite <- Hs. do 2 f_equal; lia.
    - rewrite <- Hs. f_equal. lia. }
  destruct (first_mp_app _ _ _ _ F Hmp) as [Fm|[F' Fm]]; rewrite (bind_Ret _ _ _ _ _ (Hreg _ ltac:(eassumption))).
  - by rewrite (proj2 (Z.eqb_neq mp 0) Hmp).
  - cbn [negb Z.eqb]. exact (mpsearch1_spec s 0xF0000 4096 mp Fm eq_refl).
Qed.

(** ** The configuration table *)

(** What the firmware has put in memory: the BIOS data area, the floating
    pointer structure [mpb] at [mp], the first in search order, and the table
    [confb] at [conf] with a right signature, version, length and checksum. *)
Record firmware (ram : Z -> option Z) (mp conf : Z) (mpb confb : list Z) : Prop := mk_firmware {
  fw_search : exists bda, bytes_at ram (P2V 0x400) bda /\ (0x15 <= length bda)%nat /\
    first_mp ram (slots (P2V (first_region bda)) 64 ++ slots (P2V 0xF0000) 4096) mp;
  fw_mp0 : mp <> 0;
  fw_mp : bytes_at ram mp mpb;
  fw_mplen : length mpb = 16%nat;
  fw_phys : rd 4 mpb 4 <> 0;
  fw_addr : P2V (rd 4 mpb 4) = conf;
  fw_conf0 : conf <> 0;
  fw_conf : bytes_at ram conf confb;
  fw_room : conf + Z.of_nat (length confb) < 2 ^ 32;
  fw_min : (44 <= length confb)%nat;
  fw_len : rd 2 confb 4 = Z.of_nat (length confb);
  fw_sig : take 4 confb = sig_pcmp;
  fw_version : confb !! 6%nat = Some 1 \/ confb !! 6%nat = Some 4;
  fw_sum : bsum confb mod 256 = 0;
}.

Lemma mpconfig_spec s mp conf mpb confb :
  firmware (m_ram s) mp conf mpb confb -> mpconfig s = Ret (conf, mp) s.
Proof.
  intros W. destruct (fw_search _ _ _ _ _ W) as (bda & Hb & Hl & F). unfold mpconfig.
  rewrite (bind_Ret _ _ _ _ _ (mpsearch_spec s bda mp Hb Hl (fw_mp0 _ _ _ _ _ W) F)).
  rewrite (proj2 (Z.eqb_neq _ _) (fw_mp0 _ _ _ _ _ W)).
  pose proof (fw_mplen _ _ _ _ _ W). pose proof (fw_min _ _ _ _ _ W). pose proof (fw_conf _ _ _ _ _ W) as Hc.
  rewrite (bind_Ret _ _ _ _ _ (rdn_at s mp mpb 4 4 ltac:(lia) (fw_mp _ _ _ _ _ W))).
  rewrite (proj2 (Z.eqb_neq _ _) (fw_phys _ _ _ _ _ W)). rewrite (fw_addr _ _ _ _ _ W).
  destruct (memcmp_at_spec s conf confb sig_pcmp ltac:(lia) eq_refl Hc) as (c & E & Hz).
  rewrite (bind_Ret _ _ _ _ _ E), (proj2 Hz (fw_sig _ _ _ _ _ W)). cbn [negb Z.eqb].
  assert (exists v, confb !! 6%nat = Some v /\ (v = 1 \/ v = 4)) as (v & Ev & Hv).
  { destruct (fw_version _ _ _ _ _ W); eauto. }
  rewrite (bind_Ret _ _ _ _ _ (rdb_at s conf confb 6 v Hc Ev)).
  replace (negb (v =? 1) && negb (v =? 4)) with false by (by destruct Hv as [-> | ->]).
  rewrite (bind_Ret _ _ _ _ _ (rdn_at s conf confb 4 2 ltac:(lia) Hc)).
  pose proof (fw_len _ _ _ _ _ W) as Hlen. assert (rd 2 confb 4 < 2 ^ 16) as Hm.
  { pose proof (le_dec_bound (slice confb 4 2)) as Hd. rewrite length_slice in Hd by lia. apply Hd.
    destruct Hc as (_ & _ & ? & _). unfold slice. auto with xv6. }
  rewrite (bind_Ret _ _ _ _ _ (sum_bytes s conf confb _ Hc (eq_sym Hlen) Hm)).
  by rewrite (fw_sum _ _ _ _ _ W).
Qed.

(** The entries of the table: the type, the id where the code reads it, and
    the bytes it does not read *)
Inductive mpentry :=
| EProc (apicid : Z) (rest : list Z)
| EIoapic (apicno : Z) (rest : list Z)
| EOther (t : Z) (rest : list Z).

Definition enc_entry (x : mpentry) : list Z :=
  match x with
  | EProc a rest => MPPROC :: a :: rest
  | EIoapic a rest => MPIOAPIC :: a :: rest
  | EOther t rest => t :: rest
  end.
Definition entry_ok (x : mpentry) : Prop :=
  match x with
  | EProc _ rest => length rest = 18%nat
  | EIoapic _ rest => length rest = 6%nat
  | EOther t rest => (t = MPBUS \/ t = MPIOINTR \/ t = MPLINTR) /\ length rest = 7%nat
  end.
Definition enc_entries (es : list mpentry) : list Z := concat (enc_entry <$> es).
Definition apicids (es : list mpentry) : list Z := omap (fun x => match x with EProc a _ => Some a | _ => None end) es.
Definition ioapics (es : list mpentry) : list Z := omap (fun x => match x with EIoapic a _ => Some a | _ => None end) es.

(** The state after the entries: the first processors that fit in [cpus]
    after those that are there, and the last I/O APIC *)
Definition recorded (es : list mpentry) (s : mpstate) : mpstate :=
  let ids := take (Z.to_nat (NCPU - m_ncpu s)) (apicids es) in
  mk_mpstate (m_ram s) (m_inb s) (m_outb s) (splice (m_cpus s) (Z.to_nat (m_ncpu s)) ids)
    (m_ncpu s + Z.of_nat (length ids)) (default (m_ioapicid s) (last (ioapics es))) (m_lapic s).

Definition cpus_ok (s : mpstate) : Prop := 0 <= m_ncpu s <= NCPU /\ Z.of_nat (length (m_cpus s)) = NCPU.

Lemma splice_nil d o : splice d o [] = d.
Proof. unfold splice. cbn [length app]. by rewrite Nat.add_0_r, take_drop. Qed.

Lemma splice_insert d o a bs :
  (o < length d)%nat -> splice (<[o := a]> d) (S o) bs = splice d o (a :: bs).
Proof.
  intros Ho. unfold splice. rewrite drop_insert_lt by lia. cbn [length].
  replace (S o + length bs)%nat with (o + S (length bs))%nat by lia.
  rewrite (take_S_r _ _ a) by (by apply list_lookup_insert_eq). rewrite take_insert_ge by lia. by rewrite <- app_assoc.
Qed.

Lemma recorded_nil s : recorded [] s = s.
Proof. destruct s. unfold recorded, apicids, ioapics. cbn. by rewrite take_nil, splice_nil, Z.add_0_r. Qed.

Definition record_proc (a : Z) (s : mpstate) : mpstate :=
  if m_ncpu s <? NCPU then set_m_ncpu (m_ncpu s + 1) (set_m_cpus (<[Z.to_nat (m_ncpu s) := a]> (m_cpus s)) s) else s.

Lemma recorded_proc a rest es s :
  cpus_ok s -> recorded (EProc a rest :: es) s = recorded es (record_proc a s) /\ cpus_ok (record_proc a s).
Proof.
  intros [Hn Hl]. unfold record_proc, cpus_ok, recorded, apicids, ioapics. cbn [omap list_omap].
  destruct (Z.ltb_spec (m_ncpu s) NCPU); cbn.
  - split; [|rewrite length_insert; lia]. replace (Z.to_nat (NCPU - m_ncpu s)) with (S (Z.to_nat (NCPU - (m_ncpu s + 1)))) by lia.
    cbn [take length]. replace (Z.to_nat (m_ncpu s + 1)) with (S (Z.to_nat (m_ncpu s))) by lia.
    rewrite splice_insert by lia. f_equal. lia.
  - split; [|lia]. by replace (NCPU - m_ncpu s) with 0 by lia.
Qed.

Lemma recorded_ioapic a rest es s : recorded (EIoapic a rest :: es) s = recorded es (set_m_ioapicid a s).
Proof.
  unfold recorded, apicids, ioapics. cbn [omap list_omap]. cbn. f_equal.
  by destruct (omap _ es) as [|x l] using rev_ind; [|rewrite app_comm_cons, !last_snoc].
Qed.

Lemma mpinit_proc_spec s p t a bs :
  bytes_at (m_ram s) p (t :: a :: bs) -> mpinit_proc p s = Ret tt (record_proc a s).
Proof.
  intros H. unfold mpinit_proc, record_proc. rewrite bind_gets. destruct (m_ncpu s <? NCPU); [|done]. cbn [when].
  by rewrite (bind_Ret _ _ _ _ _ (rdb_at s p _ 1 a H eq_refl)).
Qed.

(** One round of the loop on an entry of a known type *)
Lemma mpinit_loop_entry x bs fuel e p ismp s :
  entry_ok x -> cpus_ok s -> bytes_at (m_ram s) p (enc_entry x ++ bs) ->
  p + Z.of_nat (length (enc_entry x)) <= e < 2 ^ 32 ->
  exists s', mpinit_loop (S fuel) e p ismp s = mpinit_loop fuel e (p + Z.of_nat (length (enc_entry x))) ismp s' /\
    cpus_ok s' /\ m_ram s' = m_ram s /\ forall es, recorded (x :: es) s = recorded es s'.
Proof.
  intros Hx Hs H He. pose proof H as (Hp & _). cbn [mpinit_loop].
  destruct x as [a rest|a rest|t rest]; cbn [enc_entry entry_ok length app] in *;
    (destruct (Z.ltb_spec p e) as [_|]; [|lia]); rewrite (bind_Ret _ _ _ _ _ (rdb_cons _ _ _ _ H)).
  - cbn [Z.eqb]. rewrite (bind_Ret _ _ _ _ _ (mpinit_proc_spec _ _ _ _ _ H)). exists (record_proc a s).
    rewrite u32_small by lia. split; [do 2 f_equal; lia|]. split; [by apply (recorded_proc a [] [])|].
    split; [|intros es; by apply recorded_proc]. unfold record_proc. by destruct (m_ncpu s <? NCPU).
  - cbn [Z.eqb Pos.eqb]. rewrite (bind_Ret _ _ _ _ _ (rdb_at s p _ 1 a H eq_refl)), bind_modify. exists (set_m_ioapicid a s).
    rewrite u32_small by lia. split; [do 2 f_equal; lia|]. split; [done|]. split; [done|]. intros es. apply recorded_ioapic.
  - destruct Hx as [Ht Hl]. exists s. split; [|done]. rewrite (u32_small (p + 8)) by lia.
    replace (p + 8) with (p + Z.of_nat (S (length rest))) by lia. by destruct Ht as [-> | [-> | ->]].
Qed.

Lemma mpinit_loop_entries es tl fuel e p ismp s :
  Forall entry_ok es -> cpus_ok s -> bytes_at (m_ram s) p (enc_entries es ++ tl) ->
  p + Z.of_nat (length (enc_entries es)) <= e < 2 ^ 32 ->
  mpinit_loop (length es + fuel) e p ismp s =
  mpinit_loop fuel e (p + Z.of_nat (length (enc_entries es))) ismp (recorded es s).
Proof.
  revert p s. induction es as [|x es IH]; intros p s Hx Hs H He.
  { cbn [enc_entries fmap list_fmap concat length Nat.add]. by rewrite Z.add_0_r, recorded_nil. }
  apply Forall_cons in Hx as [Hx Hes]. change (enc_entries (x :: es)) with (enc_entry x ++ enc_entries es) in *.
  rewrite <- app_assoc in H. rewrite length_app in *. cbn [length Nat.add].
  destruct (mpinit_loop_entry x _ (length es + fuel) e p ismp s Hx Hs H ltac:(lia)) as (s' & -> & Hs' & Hr & ->).
  apply bytes_at_app in H as [_ H]. rewrite <- Hr in H. rewrite IH; [f_equal; lia|done|done|done|lia].
Qed.

(** An entry of another type: the loop never ends. *)
Lemma mpinit_loop_unknown t bs fuel e p ismp s :
  bytes_at (m_ram s) p (t :: bs) -> MPLINTR < t -> p < e -> mpinit_loop fuel e p ismp s = OutOfFuel.
Proof.
  intros H Ht He. revert ismp. induction fuel as [|fuel IH]; intros ismp; cbn [mpinit_loop]; [done|].
  rewrite (proj2 (Z.ltb_lt _ _) He), (bind_Ret _ _ _ _ _ (rdb_cons _ _ _ _ H)).
  rewrite (proj2 (Z.eqb_neq t 0)), (proj2 (Z.eqb_neq t 2)), (proj2 (Z.eqb_neq t 1)), (proj2 (Z.eqb_neq t 3)),
    (proj2 (Z.eqb_neq t 4)) by lia. apply IH.
Qed.

Lemma enc_entries_app es es' : enc_entries (es ++ es') = enc_entries es ++ enc_entries es'.
Proof. unfold enc_entries. by rewrite fmap_app, concat_app. Qed.

(** With an entry of an unknown type after [es], no amount of fuel is enough. *)
Lemma mpinit_loop_stuck es t tl fuel e p ismp s :
  Forall entry_ok es -> cpus_ok s -> bytes_at (m_ram s) p (enc_entries es ++ t :: tl) -> MPLINTR < t ->
  p + Z.of_nat (length (enc_entries es)) < e < 2 ^ 32 -> mpinit_loop fuel e p ismp s = OutOfFuel.
Proof.
  intros Hx Hs H Ht He. destruct (Nat.le_gt_cases (length es) fuel) as [Hf|Hf].
  - replace fuel with (length es + (fuel - length es))%nat by lia. rewrite (mpinit_loop_entries es (t :: tl)); [|done|done|done|lia].
    apply bytes_at_app in H as [_ H]. by eapply mpinit_loop_unknown; [|done|lia].
  - rewrite <- (take_drop fuel es), enc_entries_app, <- app_assoc in H.
    rewrite <- (take_drop fuel es), enc_entries_app, length_app in He.
    pose proof (mpinit_loop_entries (take fuel es) _ 0 e p ismp s (Forall_take _ _ _ Hx) Hs H ltac:(lia)) as E.
    rewrite length_take_le, Nat.add_0_r in E by lia. by rewrite E.
Qed.

(** ** [mpinit] *)

(** The state [mpinit] leaves for the table [confb] with the entries [es]:
    the interrupt mode register is written if the structure [mpb] says so. *)
Definition configured (mpb confb : list Z) (es : list mpentry) (s : mpstate) : mpstate :=
  let s := recorded es (set_m_lapic (rd 4 confb 36) s) in
  if default 0 (mpb !! 12%nat) =? 0 then s else
  let o := m_outb s ++ [(0x22, 0x70)] in
  set_m_outb (o ++ [(0x23, u8 (Z.lor (m_inb s o 0x23) 1))]) s.

Lemma mpinit_table s mp conf mpb confb fuel :
  firmware (m_ram s) mp conf mpb confb ->
  mpinit fuel s =
    (ismp ← mpinit_loop fuel (conf + Z.of_nat (length confb)) (conf + sizeof_mpconf) true;
     if negb ismp then panic "Didn't find a suitable machine" else mpinit_imcr mp) (set_m_lapic (rd 4 confb 36) s).
Proof.
  intros W. unfold mpinit. rewrite (bind_Ret _ _ _ _ _ (mpconfig_spec _ _ _ _ _ W)).
  rewrite (proj2 (Z.eqb_neq _ _) (fw_conf0 _ _ _ _ _ W)).
  pose proof (fw_min _ _ _ _ _ W). pose proof (fw_conf _ _ _ _ _ W) as Hc. pose proof (fw_room _ _ _ _ _ W). pose proof Hc as (? & _).
  rewrite (bind_Ret _ _ _ _ _ (rdn_at s conf confb 36 4 ltac:(lia) Hc)), bind_modify.
  set (s1 := set_m_lapic _ s). change (m_ram s) with (m_ram s1) in Hc.
  rewrite (bind_Ret _ _ _ _ _ (rdn_at s1 conf confb 4 2 ltac:(lia) Hc)), (fw_len _ _ _ _ _ W).
  by rewrite !u32_small by lia.
Qed.

Lemma mpinit_imcr_spec s mp mpb es confb :
  bytes_at (m_ram s) mp mpb -> length mpb = 16%nat ->
  mpinit_imcr mp (recorded es (set_m_lapic (rd 4 confb 36) s)) = Ret tt (configured mpb confb es s).
Proof.
  intros H Hl. destruct (lookup_lt_is_Some_2 mpb 12 ltac:(lia)) as [b E]. unfold mpinit_imcr, configured.
  set (s1 := recorded _ _). change (m_ram s) with (m_ram s1) in H.
  rewrite (bind_Ret _ _ _ _ _ (rdb_at s1 mp mpb 12 b H E)), E. change (default 0 (Some b)) with b. by destruct (b =? 0).
Qed.

(** C36: [mpinit] on a machine whose firmware left a valid floating pointer
    structure and configuration table.  If every entry of the table is of a
    type that the code knows, it returns: [cpus] and [ncpu] hold the first
    NCPU processors of the table, [ioapicid] its last I/O APIC, [lapic] the
    address in its header, and the interrupt mode register is written exactly
    when [imcrp] is set.  If an entry is of another type, it does not
    terminate, whatever the fuel: the panic for that case is never reached. *)
Theorem mpinit_correct s mp conf mpb confb es :
  firmware (m_ram s) mp conf mpb confb -> Forall entry_ok es -> cpus_ok s ->
  (drop 44 confb = enc_entries es -> forall fuel, (length es < fuel)%nat ->
   mpinit fuel s = Ret tt (configured mpb confb es s)) /\
  (forall t tl, drop 44 confb = enc_entries es ++ t :: tl -> MPLINTR < t ->
   forall fuel, mpinit fuel s = OutOfFuel).
Proof.
  intros W Hx Hs. pose proof (fw_conf _ _ _ _ _ W) as Hc. pose proof (fw_room _ _ _ _ _ W). pose proof (fw_min _ _ _ _ _ W).
  rewrite <- (take_drop 44 confb) in Hc. apply bytes_at_app in Hc as [_ Hc]. rewrite length_take_le in Hc by lia.
  pose proof (length_drop confb 44) as Hd. set (s1 := set_m_lapic (rd 4 confb 36) s).
  change (m_ram s) with (m_ram s1) in Hc. change (cpus_ok s1) in Hs. split.
  - intros E fuel Hf. rewrite (mpinit_table _ _ _ _ _ _ W). rewrite E in Hc, Hd. rewrite <- (app_nil_r (enc_entries es)) in Hc.
    replace fuel with (length es + S (fuel - S (length es)))%nat by lia. erewrite bind_Ret.
    2: { rewrite (mpinit_loop_entries es []); [|done|done|done|lia]. cbn [mpinit_loop].
         rewrite (proj2 (Z.ltb_ge _ _)) by lia. done. }
    apply mpinit_imcr_spec; apply W.
  - intros t tl E Ht fuel. rewrite (mpinit_table _ _ _ _ _ _ W). rewrite E in Hc, Hd. rewrite length_app in Hd. cbn [length] in Hd.
    unfold mbind, M_bind. by rewrite (mpinit_loop_stuck es t tl fuel _ _ true s1 Hx Hs Hc Ht) by lia.
Qed.

(** ** A machine with two processors *)
Lemma bytes_at_check ram p bs :
  0 <= p -> p + Z.of_nat (length bs) <= 2 ^ 32 -> Forall is_byte bs ->
  imap (fun i _ => ram (p + Z.of_nat i)) bs = Some <$> bs -> bytes_at ram p bs.
Proof.
  intros H0 Hl Hb E. split; [done|]. split; [done|]. split; [done|]. intros i b Hi.
  apply (f_equal (lookup i)) in E. rewrite list_lookup_imap, list_lookup_fmap, Hi in E. by injection E.
Qed.

Fixpoint segments (l : list (Z * list Z)) (a : Z) : option Z :=
  match l with
  | [] => None
  | (p, bs) :: l => if (p <=? a) && (a <? p + Z.of_nat (length bs)) then bs !! Z.to_nat (a - p) else segments l a
  end.

Definition x_bda : list Z := replicate 14 0 ++ [0xC0; 0x9F] ++ replicate 8 0.
Definition x_mp : list Z := sig_mp ++ le_enc 4 0xF1000 ++ [1; 4; 1; 0; 128; 0; 0; 0].
Definition x_conf (ck : Z) (n : Z) (es : list Z) : list Z :=
  sig_pcmp ++ le_enc 2 (44 + Z.of_nat (length es)) ++ [4; ck] ++ replicate 20 88 ++ replicate 6 0 ++ [n; 0]
  ++ le_enc 4 0xFEE00000 ++ replicate 4 0 ++ es.
Definition x_es : list mpentry :=
  [EProc 3 (replicate 18 0); EOther MPBUS (replicate 7 0); EProc 5 (replicate 18 0); EIoapic 9 (replicate 6 0)].
Definition x_known : list Z := x_conf 146 4 (enc_entries x_es).
Definition x_unknown : list Z := x_conf 186 2 (enc_entries [EProc 3 (replicate 18 0)] ++ 7 :: replicate 7 0).
Definition x_machine (confb : list Z) : mpstate :=
  mk_mpstate (segments [(P2V 0x400, x_bda); (P2V 0x9FC00, x_mp); (P2V 0xF1000, confb)]) (fun _ _ => 0) []
    (replicate 8 0) 0 0 0.

Lemma x_firmware confb :
  confb = x_known \/ confb = x_unknown -> firmware (m_ram (x_machine confb)) (P2V 0x9FC00) (P2V 0xF1000) x_mp confb.
Proof.
  intros Hc. assert (Forall is_byte x_mp) by (apply (bool_decide_unpack _); by vm_compute).
  assert (bytes_at (m_ram (x_machine confb)) (P2V 0x9FC00) x_mp) by (apply bytes_at_check; [done|done|done|by destruct Hc as [-> | ->]]).
  assert (bytes_at (m_ram (x_machine confb)) (P2V 0xF1000) confb).
  { destruct Hc as [-> | ->]; (apply bytes_at_check; [done|done|apply (bool_decide_unpack _); by vm_compute|done]). }
  split; try done; try (by destruct Hc as [-> | ->]); [|destruct Hc as [-> | ->]; apply Nat.leb_le; by vm_compute|right; by destruct Hc as [-> | ->]].
  exists x_bda. split; [|split].
  - apply bytes_at_check; [done|done|apply (bool_decide_unpack _); by vm_compute|done].
  - apply Nat.leb_le. by vm_compute.
  - change (P2V (first_region x_bda)) with (P2V 0x9FC00). by eapply first_here.
Qed.

Lemma mpinit_correct_witness :
  mpinit 5 (x_machine x_known) = Ret tt (configured x_mp x_known x_es (x_machine x_known)) /\
  (forall fuel, mpinit fuel (x_machine x_unknown) = OutOfFuel).
Proof.
  split.
  - refine (proj1 (mpinit_correct (x_machine x_known) _ _ x_mp x_known x_es (x_firmware _ (or_introl eq_refl)) _ _) _ 5%nat _);
      [by repeat constructor; vm_compute; auto|done|done|cbn; lia].
  - intros fuel.
    refine (proj2 (mpinit_correct (x_machine x_unknown) _ _ x_mp x_unknown [EProc 3 (replicate 18 0)] (x_firmware _ (or_intror eq_refl)) _ _) 7 (replicate 7 0) _ _ fuel);
      [by repeat constructor|done|done|done].
Defined.
