(* ===== verification/Proc.v ===== *)
(** * Processes (proc.c, proc.h)

  The process table.  What the kernel does to it between acquiring and
  releasing [ptable.lock] is one function of the table; a process in the
  middle of [fork] works on a table entry no other process touches.  The
  second half of the file lets any number of CPUs interleave these
  functions.  A [struct proc *] is an index of [ptable.proc]. *)
From S2P Require Import Prelude Params.

(** ** proc.h *)
Inductive procstate := UNUSED | EMBRYO | SLEEPING | RUNNABLE | RUNNING | ZOMBIE.
Global Instance procstate_eq_dec : EqDecision procstate.
Proof. solve_decision. Defined.

(** The addresses processes sleep on: a process, [&p->nread] and [&p->nwrite]
    of the pipe at [p], [&ticks], [&input.r], and the other kernel objects. *)
Inductive chan := ChanProc (i : nat) | ChanNread (p : Z) | ChanNwrite (p : Z) | ChanTicks | ChanInput | ChanObject (a : Z).
Global Instance chan_eq_dec : EqDecision chan.
Proof. solve_decision. Defined.

Record proc := mk_proc {
  p_sz : Z;
  p_pgdir : Z;
  p_kstack : Z;
  p_state : procstate;
  p_pid : Z;
  p_parent : option nat;
  p_tf : Z;
  p_context : Z;
  p_chan : option chan;
  p_killed : bool;
  p_ofile : list (option nat);
  p_cwd : option nat;
  p_name : list Z
}.
Definition set_p_sz (x : Z) (p : proc) : proc :=
  mk_proc x (p_pgdir p) (p_kstack p) (p_state p) (p_pid p) (p_parent p) (p_tf p) (p_context p) (p_chan p) (p_killed p) (p_ofile p) (p_cwd p) (p_name p).
Definition set_p_pgdir (x : Z) (p : proc) : proc :=
  mk_proc (p_sz p) x (p_kstack p) (p_state p) (p_pid p) (p_parent p) (p_tf p) (p_context p) (p_chan p) (p_killed p) (p_ofile p) (p_cwd p) (p_name p).
Definition set_p_kstack (x : Z) (p : proc) : proc :=
  mk_proc (p_sz p) (p_pgdir p) x (p_state p) (p_pid p) (p_parent p) (p_tf p) (p_context p) (p_chan p) (p_killed p) (p_ofile p) (p_cwd p) (p_name p).
Definition set_p_state (x : procstate) (p : proc) : proc :=
  mk_proc (p_sz p) (p_pgdir p) (p_kstack p) x (p_pid p) (p_parent p) (p_tf p) (p_context p) (p_chan p) (p_killed p) (p_ofile p) (p_cwd p) (p_name p).
Definition set_p_pid (x : Z) (p : proc) : proc :=
  mk_proc (p_sz p) (p_pgdir p) (p_kstack p) (p_state p) x (p_parent p) (p_tf p) (p_context p) (p_chan p) (p_killed p) (p_ofile p) (p_cwd p) (p_name p).
Definition set_p_parent (x : option nat) (p : proc) : proc :=
  mk_proc (p_sz p) (p_pgdir p) (p_kstack p) (p_state p) (p_pid p) x (p_tf p) (p_context p) (p_chan p) (p_killed p) (p_ofile p) (p_cwd p) (p_name p).
Definition set_p_tf (x : Z) (p : proc) : proc :=
  mk_proc (p_sz p) (p_pgdir p) (p_kstack p) (p_state p) (p_pid p) (p_parent p) x (p_context p) (p_chan p) (p_killed p) (p_ofile p) (p_cwd p) (p_name p).
Definition set_p_context (x : Z) (p : proc) : proc :=
  mk_proc (p_sz p) (p_pgdir p) (p_kstack p) (p_state p) (p_pid p) (p_parent p) (p_tf p) x (p_chan p) (p_killed p) (p_ofile p) (p_cwd p) (p_name p).
Definition set_p_chan (x : option chan) (p : proc) : proc :=
  mk_proc (p_sz p) (p_pgdir p) (p_kstack p) (p_state p) (p_pid p) (p_parent p) (p_tf p) (p_context p) x (p_killed p) (p_ofile p) (p_cwd p) (p_name p).
Definition set_p_killed (x : bool) (p : proc) : proc :=
  mk_proc (p_sz p) (p_pgdir p) (p_kstack p) (p_state p) (p_pid p) (p_parent p) (p_tf p) (p_context p) (p_chan p) x (p_ofile p) (p_cwd p) (p_name p).
Definition set_p_ofile (x : list (option nat)) (p : proc) : proc :=
  mk_proc (p_sz p) (p_pgdir p) (p_kstack p) (p_state p) (p_pid p) (p_parent p) (p_tf p) (p_context p) (p_chan p) (p_killed p) x (p_cwd p) (p_name p).
Definition set_p_cwd (x : option nat) (p : proc) : proc :=
  mk_proc (p_sz p) (p_pgdir p) (p_kstack p) (p_state p) (p_pid p) (p_parent p) (p_tf p) (p_context p) (p_chan p) (p_killed p) (p_ofile p) x (p_name p).
Definition set_p_name (x : list Z) (p : proc) : proc :=
  mk_proc (p_sz p) (p_pgdir p) (p_kstack p) (p_state p) (p_pid p) (p_parent p) (p_tf p) (p_context p) (p_chan p) (p_killed p) (p_ofile p) (p_cwd p) x.

Definition no_proc : proc :=
  mk_proc 0 0 0 UNUSED 0 None 0 0 None false (replicate (Z.to_nat NOFILE) None) None (replicate 16 0).

(** ** proc.c: [ptable], [nextpid] and [initproc] *)
Record ptable := mk_ptable {
  pt_proc : list proc;
  pt_nextpid : Z;
  pt_initproc : option nat
}.
Definition set_pt_proc (x : list proc) (t : ptable) : ptable := mk_ptable x (pt_nextpid t) (pt_initproc t).
Definition upd_proc (i : nat) (f : proc -> proc) (t : ptable) : ptable := set_pt_proc (alter f i (pt_proc t)) t.
Definition pr (t : ptable) (i : nat) : proc := default no_proc (pt_proc t !! i).
Definition st (t : ptable) (i : nat) : procstate := p_state (pr t i).

(** ** The critical sections *)

(** [allocproc] up to the release of the lock. *)
Definition alloc_slot (t : ptable) : option (nat * ptable) :=
  match list_find (fun p => p_state p = UNUSED) (pt_proc t) with
  | Some (i, _) =>
      let t := upd_proc i (fun p => set_p_pid (pt_nextpid t) (set_p_state EMBRYO p)) t in
      Some (i, mk_ptable (pt_proc t) (pt_nextpid t + 1) (pt_initproc t))
  | None => None
  end.

Definition wakeup1 (ch : option chan) (t : ptable) : ptable :=
  set_pt_proc ((fun p => if decide (p_state p = SLEEPING /\ p_chan p = ch) then set_p_state RUNNABLE p else p) <$> pt_proc t) t.

(** The body of the loop over the table in [exit], and its end. *)
Definition reparent (cur : nat) (t : ptable) (i : nat) : ptable :=
  if decide (p_parent (pr t i) = Some cur) then
    let t := upd_proc i (set_p_parent (pt_initproc t)) t in
    if decide (st t i = ZOMBIE) then wakeup1 (ChanProc <$> pt_initproc t) t else t
  else t.
Definition exit_table (cur : nat) (t : ptable) : ptable :=
  let t := wakeup1 (ChanProc <$> p_parent (pr t cur)) t in
  let t := foldl (reparent cur) t (seq 0 (Z.to_nat NPROC)) in
  upd_proc cur (set_p_state ZOMBIE) t.

(** One pass of [wait] over the table. *)
Inductive wresult := WaitReap (i : nat) | WaitNone | WaitSleep.
Fixpoint wait_loop (cur : nat) (killed : bool) (i : nat) (ps : list proc) (havekids : bool) : wresult :=
  match ps with
  | [] => if negb havekids || killed then WaitNone else WaitSleep
  | p :: ps =>
      if decide (p_parent p = Some cur) then
        if decide (p_state p = ZOMBIE) then WaitReap i else wait_loop cur killed (S i) ps true
      else wait_loop cur killed (S i) ps havekids
  end.
Definition wait_scan (cur : nat) (t : ptable) : wresult :=
  wait_loop cur (p_killed (pr t cur)) 0 (pt_proc t) false.
Definition reap (i : nat) (t : ptable) : ptable :=
  upd_proc i (fun p => set_p_state UNUSED (set_p_killed false (set_p_name (<[0%nat := 0]> (p_name p))
    (set_p_parent None (set_p_pid 0 (set_p_kstack 0 p)))))) t.

Definition sleep_table (cur : nat) (ch : option chan) (t : ptable) : ptable :=
  upd_proc cur (fun p => set_p_state SLEEPING (set_p_chan ch p)) t.
(** The statement after [sched()] in [sleep]. *)
Definition awake (cur : nat) (t : ptable) : ptable := upd_proc cur (set_p_chan None) t.
Definition yield_table (cur : nat) (t : ptable) : ptable := upd_proc cur (set_p_state RUNNABLE) t.

(** [kill]: the table and the result. *)
Definition kill_table (pid : Z) (t : ptable) : ptable * Z :=
  match list_find (fun p => p_pid p = pid) (pt_proc t) with
  | Some (i, _) =>
      (upd_proc i (fun p => let p := set_p_killed true p in
                            if decide (p_state p = SLEEPING) then set_p_state RUNNABLE p else p) t, 0)
  | None => (t, -1)
  end.

(** The scheduler's choice of process [i]. *)
Definition dispatch (i : nat) (t : ptable) : option ptable :=
  if decide (st t i = RUNNABLE) then Some (upd_proc i (set_p_state RUNNING) t) else None.

(** [fork] after [allocproc]: what it copies from the parent's table entry
    ([name] is what [safestrcpy] writes), the failure of [copyuvm] or of
    [kalloc] in [allocproc], and the last critical section. *)
Definition dup_ofile (c n : list (option nat)) : list (option nat) :=
  zip_with (fun f g => if f is Some _ then f else g) c n.
Definition fork_copy (cur np : nat) (pgdir : Z) (name : list Z) (t : ptable) : ptable :=
  let c := pr t cur in
  upd_proc np (fun p => set_p_name (splice (p_name p) 0 name) (set_p_cwd (p_cwd c) (set_p_ofile (dup_ofile (p_ofile c) (p_ofile p))
    (set_p_parent (Some cur) (set_p_sz (p_sz c) (set_p_pgdir pgdir p)))))) t.
Definition fork_fail (np : nat) (t : ptable) : ptable := upd_proc np (fun p => set_p_state UNUSED (set_p_kstack 0 p)) t.
Definition fork_ready (np : nat) (t : ptable) : ptable := upd_proc np (set_p_state RUNNABLE) t.

(** The table when [userinit] returns. *)
Definition table0 : ptable := mk_ptable (replicate (Z.to_nat NPROC) no_proc) 1 None.
Definition userinit_table : ptable :=
  match alloc_slot table0 with
  | Some (i, t) => upd_proc i (set_p_state RUNNABLE) (mk_ptable (pt_proc t) (pt_nextpid t) (Some i))
  | None => table0
  end.

(** ** Interleavings

    [s_cur c] is [cpus[c].proc]; [s_fork i] is the table entry that process
    [i] has taken in a [fork] that has not finished. *)
Record sys := mk_sys {
  s_t : ptable;
  s_cur : nat -> option nat;
  s_fork : nat -> option nat
}.
Definition fset (f : nat -> option nat) (i : nat) (x : option nat) : nat -> option nat := fun j => if decide (j = i) then x else f j.

Inductive step : sys -> sys -> Prop :=
| st_run c i t cur fk t' : cur c = None -> dispatch i t = Some t' ->
    step (mk_sys t cur fk) (mk_sys t' (fset cur c (Some i)) fk)
| st_awake c i t cur fk : cur c = Some i -> step (mk_sys t cur fk) (mk_sys (awake i t) cur fk)
| st_yield c i t cur fk : cur c = Some i -> step (mk_sys t cur fk) (mk_sys (yield_table i t) (fset cur c None) fk)
| st_sleep c i ch t cur fk : cur c = Some i -> fk i = None -> (forall j, ch <> Some (ChanProc j)) ->
    step (mk_sys t cur fk) (mk_sys (sleep_table i ch t) (fset cur c None) fk)
| st_wakeup ch t cur fk : step (mk_sys t cur fk) (mk_sys (wakeup1 ch t) cur fk)
| st_kill pid t cur fk : step (mk_sys t cur fk) (mk_sys (kill_table pid t).1 cur fk)
| st_exit c i t cur fk : cur c = Some i -> fk i = None -> pt_initproc t <> Some i ->
    step (mk_sys t cur fk) (mk_sys (exit_table i t) (fset cur c None) fk)
| st_reap c i j t cur fk : cur c = Some i -> fk i = None -> wait_scan i t = WaitReap j ->
    step (mk_sys t cur fk) (mk_sys (reap j t) cur fk)
| st_wait c i t cur fk : cur c = Some i -> fk i = None -> wait_scan i t = WaitSleep ->
    step (mk_sys t cur fk) (mk_sys (sleep_table i (Some (ChanProc i)) t) (fset cur c None) fk)
| st_fork c i np t t' cur fk : cur c = Some i -> fk i = None -> pt_nextpid t < 2 ^ 31 - 1 -> alloc_slot t = Some (np, t') ->
    step (mk_sys t cur fk) (mk_sys t' cur (fset fk i (Some np)))
| st_fork_fail c i np t cur fk : cur c = Some i -> fk i = Some np -> p_parent (pr t np) = None ->
    step (mk_sys t cur fk) (mk_sys (fork_fail np t) cur (fset fk i None))
| st_fork_copy c i np pgdir name t cur fk : cur c = Some i -> fk i = Some np ->
    step (mk_sys t cur fk) (mk_sys (fork_copy i np pgdir name t) cur fk)
| st_fork_ready c i np t cur fk : cur c = Some i -> fk i = Some np -> p_parent (pr t np) = Some i ->
    step (mk_sys t cur fk) (mk_sys (fork_ready np t) cur (fset fk i None)).

Definition start : sys := mk_sys userinit_table (fun _ => None) (fun _ => None).
Definition reachable (s : sys) : Prop := rtc step start s.

(** ** Lookups after updates *)
Lemma pr_upd i f t j : (i < length (pt_proc t))%nat -> pr (upd_proc i f t) j = if decide (j = i) then f (pr t i) else pr t j.
Proof.
  intros Hi. unfold pr, upd_proc. simpl. destruct (decide (j = i)) as [->|Hj].
  - rewrite list_lookup_alter_eq. apply lookup_lt_is_Some in Hi as [p ->]. done.
  - by rewrite list_lookup_alter_ne by done.
Qed.
Lemma length_upd i f t : length (pt_proc (upd_proc i f t)) = length (pt_proc t).
Proof. apply length_alter. Qed.
Lemma st_lt t i : st t i <> UNUSED -> (i < length (pt_proc t))%nat.
Proof.
  unfold st, pr. intros H. destruct (pt_proc t !! i) eqn:E; [by apply lookup_lt_Some in E|done].
Qed.
Definition woken (ch : option chan) (p : proc) : proc :=
  if decide (p_state p = SLEEPING /\ p_chan p = ch) then set_p_state RUNNABLE p else p.
Lemma pr_wakeup1 ch t i : pr (wakeup1 ch t) i = woken ch (pr t i).
Proof.
  unfold pr, wakeup1. simpl. rewrite list_lookup_fmap. destruct (pt_proc t !! i); simpl; [done|].
  unfold woken. by rewrite decide_False by (intros [[=] _]).
Qed.

(** ** The invariant *)
Definition alive (x : procstate) : Prop := x = SLEEPING \/ x = RUNNABLE \/ x = RUNNING.

Record table_ok (s : sys) : Prop := {
  ok_len : length (pt_proc (s_t s)) = Z.to_nat NPROC;
  ok_pid : forall i, st (s_t s) i <> UNUSED -> 0 < p_pid (pr (s_t s) i) < pt_nextpid (s_t s);
  ok_pid_inj : forall i j, st (s_t s) i <> UNUSED -> st (s_t s) j <> UNUSED -> p_pid (pr (s_t s) i) = p_pid (pr (s_t s) j) -> i = j;
  ok_next : 1 < pt_nextpid (s_t s) < 2 ^ 31;
  ok_run : forall i, st (s_t s) i = RUNNING <-> exists c, s_cur s c = Some i;
  ok_cur : forall c c' i, s_cur s c = Some i -> s_cur s c' = Some i -> c = c';
  ok_init : exists k, pt_initproc (s_t s) = Some k /\ alive (st (s_t s) k) /\ p_parent (pr (s_t s) k) = None /\ p_pid (pr (s_t s) k) = 1;
  ok_unused : forall i, st (s_t s) i = UNUSED -> p_parent (pr (s_t s) i) = None;
  ok_parent : forall i q, p_parent (pr (s_t s) i) = Some q -> alive (st (s_t s) q) /\ p_pid (pr (s_t s) q) < p_pid (pr (s_t s) i);
  ok_has_parent : forall i, st (s_t s) i <> UNUSED -> st (s_t s) i <> EMBRYO -> pt_initproc (s_t s) <> Some i -> p_parent (pr (s_t s) i) <> None;
  ok_fork : forall i n, s_fork s i = Some n -> (st (s_t s) i = RUNNABLE \/ st (s_t s) i = RUNNING) /\ st (s_t s) n = EMBRYO /\
              (p_parent (pr (s_t s) n) = None \/ p_parent (pr (s_t s) n) = Some i) /\ p_pid (pr (s_t s) i) < p_pid (pr (s_t s) n);
  ok_fork_inj : forall i j n, s_fork s i = Some n -> s_fork s j = Some n -> i = j;
  ok_embryo : forall n, st (s_t s) n = EMBRYO -> exists i, s_fork s i = Some n;
  ok_chan : forall i j, p_chan (pr (s_t s) i) = Some (ChanProc j) -> i = j;
  ok_wait : forall i, st (s_t s) i = SLEEPING -> p_chan (pr (s_t s) i) = Some (ChanProc i) ->
              p_killed (pr (s_t s) i) = false /\ (exists j, p_parent (pr (s_t s) j) = Some i) /\
              forall j, p_parent (pr (s_t s) j) = Some i -> st (s_t s) j <> ZOMBIE
}.

(** What sleeping in [wait] promises. *)
Definition waits (s : sys) (i : nat) : Prop :=
  p_killed (pr (s_t s) i) = false /\ (exists j, p_parent (pr (s_t s) j) = Some i) /\
  forall j, p_parent (pr (s_t s) j) = Some i -> st (s_t s) j <> ZOMBIE.

(** Steps that leave the tree of processes as it is. *)
Lemma ok_states s s' : table_ok s ->
  length (pt_proc (s_t s')) = length (pt_proc (s_t s)) -> pt_nextpid (s_t s') = pt_nextpid (s_t s) ->
  pt_initproc (s_t s') = pt_initproc (s_t s) -> s_fork s' = s_fork s ->
  (forall j, p_pid (pr (s_t s') j) = p_pid (pr (s_t s) j) /\ p_parent (pr (s_t s') j) = p_parent (pr (s_t s) j)) ->
  (forall j, st (s_t s') j = st (s_t s) j \/ (alive (st (s_t s) j) /\ alive (st (s_t s') j))) ->
  (forall i, s_fork s i <> None -> st (s_t s') i <> SLEEPING) ->
  (forall i, st (s_t s') i = RUNNING <-> exists c, s_cur s' c = Some i) ->
  (forall c c' i, s_cur s' c = Some i -> s_cur s' c' = Some i -> c = c') ->
  (forall i j, p_chan (pr (s_t s') i) = Some (ChanProc j) -> i = j) ->
  (forall i, st (s_t s') i = SLEEPING -> p_chan (pr (s_t s') i) = Some (ChanProc i) ->
     (st (s_t s) i = SLEEPING /\ p_chan (pr (s_t s) i) = Some (ChanProc i) /\ p_killed (pr (s_t s') i) = p_killed (pr (s_t s) i)) \/
     (waits s i /\ p_killed (pr (s_t s') i) = false)) ->
  table_ok s'.
Proof.
  intros H El En Ei Ef Hpp Hst Hfs Hrun Hcur Hch Hw.
  assert (forall j x, (x = UNUSED \/ x = EMBRYO \/ x = ZOMBIE) -> st (s_t s') j = x <-> st (s_t s) j = x) as Hx.
  { intros j x Hx. unfold alive in Hst. destruct (Hst j) as [->|[]]; [done|]. split; intros E; naive_solver congruence. }
  assert (forall j, alive (st (s_t s) j) -> alive (st (s_t s') j)) as Ha by (intros j Hj; destruct (Hst j) as [->|[]]; done).
  split; try done.
  - rewrite El. apply H.
  - intros i Hi. rewrite En, (proj1 (Hpp i)). apply H. rewrite <- Hx; auto.
  - intros i j Hi Hj. rewrite (proj1 (Hpp i)), (proj1 (Hpp j)). apply (ok_pid_inj _ H); rewrite <- Hx; auto.
  - rewrite En. apply H.
  - destruct (ok_init _ H) as (k & E & A & B & C). exists k. rewrite Ei, (proj1 (Hpp k)), (proj2 (Hpp k)). auto.
  - intros i Hi. rewrite (proj2 (Hpp i)). apply (ok_unused _ H). rewrite <- Hx; auto.
  - intros i q. rewrite (proj2 (Hpp i)), (proj1 (Hpp i)), (proj1 (Hpp q)). intros [? ?]%(ok_parent _ H). auto.
  - intros i Hi He. rewrite Ei, (proj2 (Hpp i)). apply (ok_has_parent _ H); rewrite <- Hx; auto.
  - intros i n Hf. rewrite Ef in Hf. destruct (ok_fork _ H _ _ Hf) as (A & B & C). rewrite (Hx n), (proj2 (Hpp n)), (proj1 (Hpp n)), (proj1 (Hpp i)); auto. split; [|done].
    assert (alive (st (s_t s) i)) as Hal by (unfold alive; tauto). apply Ha in Hal as [E|]; [|done].
    destruct (Hfs i); [by rewrite Hf|done].
  - intros i j n. rewrite Ef. apply (ok_fork_inj _ H).
  - intros n. rewrite (Hx n), Ef by auto. apply (ok_embryo _ H).
  - intros i Hi Hc. assert (waits s i /\ p_killed (pr (s_t s') i) = false) as [(_ & (j & Hj) & Hz) Hk].
    { destruct (Hw i Hi Hc) as [(A & B & ->)|]; [|done]. split; [exact (ok_wait _ H i A B)|]. apply (ok_wait _ H i A B). }
    split; [done|]. split; [exists j; by rewrite (proj2 (Hpp j))|]. intros j'. rewrite (proj2 (Hpp j')), (Hx j') by auto. apply Hz.
Qed.

(** A step of one process on its own entry. *)
Lemma ok_upd s i f cur' : table_ok s -> st (s_t s) i <> UNUSED -> st (s_t s) i <> EMBRYO -> st (s_t s) i <> ZOMBIE ->
  (forall p, p_pid (f p) = p_pid p /\ p_parent (f p) = p_parent p) ->
  let p := f (pr (s_t s) i) in
  alive (p_state p) -> (s_fork s i <> None -> p_state p <> SLEEPING) ->
  (p_state p = RUNNING <-> exists c, cur' c = Some i) -> (forall j c, j <> i -> cur' c = Some j <-> s_cur s c = Some j) ->
  (forall c c', cur' c = Some i -> cur' c' = Some i -> c = c') ->
  (forall j, p_chan p = Some (ChanProc j) -> i = j) ->
  (p_state p = SLEEPING -> p_chan p = Some (ChanProc i) ->
     (st (s_t s) i = SLEEPING /\ p_chan (pr (s_t s) i) = Some (ChanProc i) /\ p_killed p = p_killed (pr (s_t s) i)) \/
     (waits s i /\ p_killed p = false)) ->
  table_ok (mk_sys (upd_proc i f (s_t s)) cur' (s_fork s)).
Proof.
  intros H Hu He Hz Hf p Ha Hfk Hrun Hother Hone Hch Hw. pose proof (st_lt _ _ Hu) as Hlt.
  assert (forall j, pr (upd_proc i f (s_t s)) j = if decide (j = i) then p else pr (s_t s) j) as Epr by (intros; by apply pr_upd).
  assert (alive (st (s_t s) i)) as Hai by (unfold alive; destruct (st (s_t s) i); try done; auto).
  apply (ok_states s); try done; cbn [s_t s_cur s_fork].
  - apply length_upd.
  - intros j. rewrite Epr. destruct (decide (j = i)) as [->|]; [apply Hf|done].
  - intros j. unfold st. rewrite Epr. destruct (decide (j = i)) as [->|]; auto.
  - intros j Hj. unfold st. rewrite Epr. destruct (decide (j = i)) as [->|]; [auto|].
    destruct (s_fork s j) as [m|] eqn:E; [|done]. apply (ok_fork _ H) in E as ([E|E] & _); unfold st in E; congruence.
  - intros j. unfold st. rewrite Epr. destruct (decide (j = i)) as [->|Hj]; [done|]. rewrite (ok_run _ H j). f_equiv. intros c. symmetry. by apply Hother.
  - intros c c' j. destruct (decide (j = i)) as [->|Hj]; [apply Hone|]. rewrite !Hother by done. apply (ok_cur _ H).
  - intros j k. rewrite Epr. destruct (decide (j = i)) as [->|]; [apply Hch|apply (ok_chan _ H)].
  - intros j. unfold st. rewrite Epr. destruct (decide (j = i)) as [->|]; [done|]. intros Hs Hc. by left.
Qed.

Lemma cur_running s c i : table_ok s -> s_cur s c = Some i -> st (s_t s) i = RUNNING.
Proof. intros H Hc. apply (ok_run _ H). by exists c. Qed.

(** A running process gives up its CPU. *)
Lemma ok_leave s c i f : table_ok s -> s_cur s c = Some i ->
  (forall p, p_pid (f p) = p_pid p /\ p_parent (f p) = p_parent p) ->
  let p := f (pr (s_t s) i) in
  p_state p = SLEEPING \/ p_state p = RUNNABLE -> (s_fork s i <> None -> p_state p <> SLEEPING) ->
  (forall j, p_chan p = Some (ChanProc j) -> i = j) ->
  (p_state p = SLEEPING -> p_chan p = Some (ChanProc i) -> waits s i /\ p_killed p = false) ->
  table_ok (mk_sys (upd_proc i f (s_t s)) (fset (s_cur s) c None) (s_fork s)).
Proof.
  intros H Hc Hf p Hp Hfk Hch Hw. pose proof (cur_running _ _ _ H Hc) as Hr.
  assert (forall c', fset (s_cur s) c None c' <> Some i) as Hno.
  { intros c'. unfold fset. destruct (decide (c' = c)) as [->|Hne]; [done|]. intros E. apply Hne. by apply (ok_cur _ H c' c i). }
  apply (ok_upd s i f); fold p; try done; try by rewrite Hr.
  - unfold alive. tauto.
  - split; [intros E; naive_solver congruence|]. intros [c' E]. by apply Hno in E.
  - intros j c' Hj. unfold fset. destruct (decide (c' = c)) as [->|]; [|done]. naive_solver congruence.
  - intros c1 c2 E. by apply Hno in E.
  - auto.
Qed.

(** ** One pass of [wait] *)
Lemma wait_loop_spec cur killed i ps kids :
  match wait_loop cur killed i ps kids with
  | WaitReap j => exists k p, j = (i + k)%nat /\ ps !! k = Some p /\ p_parent p = Some cur /\ p_state p = ZOMBIE
  | r => (forall k p, ps !! k = Some p -> p_parent p = Some cur -> p_state p <> ZOMBIE) /\
         (r = WaitSleep -> killed = false /\ (kids = true \/ exists k p, ps !! k = Some p /\ p_parent p = Some cur)) /\
         (r = WaitNone -> killed = true \/ (kids = false /\ forall k p, ps !! k = Some p -> p_parent p <> Some cur))
  end.
Proof.
  revert i kids. induction ps as [|q ps IH]; intros i kids; simpl.
  - destruct kids, killed; simpl; split; try done; split; try done; auto.
  - destruct (decide (p_parent q = Some cur)) as [Hq|Hq]; [destruct (decide (p_state q = ZOMBIE)) as [Hz|Hz]|].
    + exists 0%nat, q. rewrite Nat.add_0_r. done.
    + specialize (IH (S i) true). destruct (wait_loop cur killed (S i) ps true) as [j| |].
      * destruct IH as (k & p & -> & ?). exists (S k), p. split; [lia|done].
      * destruct IH as (A & B & C). split; [intros [|k] p; simpl; [by intros [= <-]|apply A]|]. split; [done|]. intros _. destruct (C eq_refl) as [|[]]; [by left|done].
      * destruct IH as (A & B & C). split; [intros [|k] p; simpl; [by intros [= <-]|apply A]|]. split; [|done]. intros _. split; [by apply B|]. right. by exists 0%nat, q.
    + specialize (IH (S i) kids). destruct (wait_loop cur killed (S i) ps kids) as [j| |].
      * destruct IH as (k & p & -> & ?). exists (S k), p. split; [lia|done].
      * destruct IH as (A & B & C). split; [intros [|k] p; simpl; [by intros [= <-]|apply A]|]. split; [done|].
        intros _. destruct (C eq_refl) as [|[? D]]; [by left|]. right. split; [done|]. intros [|k] p; simpl; [by intros [= <-]|apply D].
      * destruct IH as (A & B & C). split; [intros [|k] p; simpl; [by intros [= <-]|apply A]|]. split; [|done].
        intros _. destruct (B eq_refl) as [? [|(k & p & ?)]]; split; auto. right. by exists (S k), p.
Qed.

Lemma pr_Some t i p : pt_proc t !! i = Some p -> pr t i = p.
Proof. unfold pr. by intros ->. Qed.
Lemma parent_lookup t i q : p_parent (pr t i) = Some q -> pt_proc t !! i = Some (pr t i).
Proof. unfold pr. by destruct (pt_proc t !! i). Qed.

Lemma wait_scan_spec i t :
  match wait_scan i t with
  | WaitReap j => p_parent (pr t j) = Some i /\ st t j = ZOMBIE
  | WaitSleep => p_killed (pr t i) = false /\ (exists j, p_parent (pr t j) = Some i) /\
                 forall j, p_parent (pr t j) = Some i -> st t j <> ZOMBIE
  | WaitNone => (p_killed (pr t i) = true \/ forall j, p_parent (pr t j) <> Some i) /\
                forall j, p_parent (pr t j) = Some i -> st t j <> ZOMBIE
  end.
Proof.
  pose proof (wait_loop_spec i (p_killed (pr t i)) 0 (pt_proc t) false) as H. fold (wait_scan i t) in H.
  destruct (wait_scan i t) as [j| |].
  - destruct H as (k & p & -> & E & ?). unfold st. simpl. by rewrite (pr_Some _ _ _ E).
  - destruct H as (A & _ & C). split; [destruct (C eq_refl) as [|[_ D]]; [by left|]; right; intros j Hj|intros j Hj].
    + by apply (D j _ (parent_lookup _ _ _ Hj)).
    + by apply (A j _ (parent_lookup _ _ _ Hj)).
  - destruct H as (A & B & _). destruct (B eq_refl) as [? [|(k & p & E & ?)]]; [done|]. split; [done|]. split.
    + exists k. by rewrite (pr_Some _ _ _ E).
    + intros j Hj. by apply (A j _ (parent_lookup _ _ _ Hj)).
Qed.

(** ** Steps that keep the tree *)
Lemma ok_wakeup1 s ch : table_ok s -> table_ok (mk_sys (wakeup1 ch (s_t s)) (s_cur s) (s_fork s)).
Proof.
  intros H. assert (forall j, st (wakeup1 ch (s_t s)) j = st (s_t s) j \/ (st (s_t s) j = SLEEPING /\ st (wakeup1 ch (s_t s)) j = RUNNABLE)) as Hst.
  { intros j. unfold st. rewrite pr_wakeup1. unfold woken. destruct (decide _) as [[]|]; auto. }
  assert (forall j, p_chan (pr (wakeup1 ch (s_t s)) j) = p_chan (pr (s_t s) j) /\ p_killed (pr (wakeup1 ch (s_t s)) j) = p_killed (pr (s_t s) j)) as Hck.
  { intros j. rewrite pr_wakeup1. unfold woken. by destruct (decide _). }
  apply (ok_states s); try done; cbn [s_t s_cur s_fork].
  - simpl. apply length_fmap.
  - intros j. rewrite pr_wakeup1. unfold woken. by destruct (decide _).
  - intros j. unfold alive. destruct (Hst j) as [->|[-> ->]]; auto 6.
  - intros i Hi. destruct (s_fork s i) eqn:E; [|done]. destruct (ok_fork _ H _ _ E) as ([E1|E1] & _); destruct (Hst i) as [->|[E2 _]]; congruence.
  - intros i. rewrite <- (ok_run _ H i). destruct (Hst i) as [->|[-> ->]]; done.
  - apply (ok_cur _ H).
  - intros i j. rewrite (proj1 (Hck i)). apply (ok_chan _ H).
  - intros i. rewrite (proj1 (Hck i)), (proj2 (Hck i)). intros Hs Hc. left. destruct (Hst i) as [<-|[? E]]; [done|congruence].
Qed.

Lemma ok_kill s pid : table_ok s -> table_ok (mk_sys (kill_table pid (s_t s)).1 (s_cur s) (s_fork s)).
Proof.
  intros H. unfold kill_table. destruct (list_find _ (pt_proc (s_t s))) as [[i p]|] eqn:E; [|by destruct s].
  apply list_find_Some in E as (E & _ & _). apply lookup_lt_Some in E as Hlt. simpl.
  set (f := fun p => _). assert (forall j, pr (upd_proc i f (s_t s)) j = if decide (j = i) then f (pr (s_t s) i) else pr (s_t s) j) as Epr by (intros; by apply pr_upd).
  assert (forall q, p_pid (f q) = p_pid q /\ p_parent (f q) = p_parent q /\ p_chan (f q) = p_chan q) as Hf by (intros q; unfold f; by destruct (decide _)).
  assert (p_state (f (pr (s_t s) i)) = if decide (st (s_t s) i = SLEEPING) then RUNNABLE else st (s_t s) i) as Es by (unfold f, st; simpl; by destruct (decide _)).
  assert (forall j, st (upd_proc i f (s_t s)) j = st (s_t s) j \/ (st (s_t s) j = SLEEPING /\ st (upd_proc i f (s_t s)) j = RUNNABLE)) as Hst.
  { intros j. unfold st. rewrite Epr. destruct (decide (j = i)) as [->|]; [|auto]. rewrite Es. unfold st. destruct (decide _); auto. }
  apply (ok_states s); try done; cbn [s_t s_cur s_fork].
  - apply length_upd.
  - intros j. rewrite Epr. destruct (decide (j = i)) as [->|]; [|done]. split; apply Hf.
  - intros j. unfold alive. destruct (Hst j) as [->|[-> ->]]; auto 6.
  - intros j Hj. destruct (s_fork s j) eqn:E'; [|done]. destruct (ok_fork _ H _ _ E') as ([E1|E1] & _); destruct (Hst j) as [->|[E2 _]]; congruence.
  - intros j. rewrite <- (ok_run _ H j). destruct (Hst j) as [->|[-> ->]]; done.
  - apply (ok_cur _ H).
  - intros j k. rewrite Epr. destruct (decide (j = i)) as [->|]; [rewrite (proj2 (proj2 (Hf _)))|]; apply (ok_chan _ H).
  - intros j. unfold st at 1. rewrite Epr. destruct (decide (j = i)) as [->|]; [|auto]. rewrite Es. by destruct (decide _).
Qed.

(** ** [exit] *)

(** The table after the first [n] rounds of the loop of [exit]. *)
Record reparented (cur : nat) (n : nat) (t t' : ptable) : Prop := {
  re_len : length (pt_proc t') = length (pt_proc t);
  re_next : pt_nextpid t' = pt_nextpid t;
  re_init : pt_initproc t' = pt_initproc t;
  re_same : forall j, p_pid (pr t' j) = p_pid (pr t j) /\ p_chan (pr t' j) = p_chan (pr t j) /\ p_killed (pr t' j) = p_killed (pr t j);
  re_parent : forall j, p_parent (pr t' j) = if decide (p_parent (pr t j) = Some cur /\ (j < n)%nat) then pt_initproc t else p_parent (pr t j);
  re_state : forall j, st t' j = st t j \/ (st t j = SLEEPING /\ st t' j = RUNNABLE);
  re_wake : forall j, (j < n)%nat -> p_parent (pr t j) = Some cur -> st t j = ZOMBIE ->
              forall i, st t' i = SLEEPING -> p_chan (pr t' i) <> ChanProc <$> pt_initproc t
}.

Lemma reparent_step cur n t t' : reparented cur n t t' -> reparented cur (S n) t (reparent cur t' n).
Proof.
  intros [El En Ei Hs Hp Ht Hw]. pose proof (Hp n) as Hpn. rewrite decide_False in Hpn by (intros []; lia).
  unfold reparent. rewrite Hpn. destruct (decide (p_parent (pr t n) = Some cur)) as [Hn|Hn].
  2:{ split; try done.
    - intros j. rewrite Hp. destruct (decide (j = n)) as [->|]; [by rewrite !decide_False by (intros []; done)|].
      apply decide_ext. split; intros []; split; (done || lia).
    - intros j Hj Hjp. destruct (decide (j = n)) as [->|]; [done|]. apply Hw; [lia|done]. }
  set (t1 := upd_proc n _ t').
  assert ((n < length (pt_proc t'))%nat) as Hlt by (rewrite El; apply parent_lookup, lookup_lt_Some in Hn; done).
  assert (forall j, pr t1 j = if decide (j = n) then set_p_parent (pt_initproc t') (pr t' n) else pr t' j) as E1 by (intros; by apply pr_upd).
  assert (forall j, st t1 j = st t' j) as Est by (intros j; unfold st; rewrite E1; by destruct (decide (j = n)) as [->|]).
  assert (forall j, p_parent (pr t1 j) = if decide (p_parent (pr t j) = Some cur /\ (j < S n)%nat) then pt_initproc t else p_parent (pr t j)) as Ep1.
  { intros j. rewrite E1. destruct (decide (j = n)) as [->|]; [rewrite decide_True by (split; [done|lia]); by rewrite Ei|].
    rewrite Hp. apply decide_ext. split; intros []; split; (done || lia). }
  assert (forall j, p_pid (pr t1 j) = p_pid (pr t j) /\ p_chan (pr t1 j) = p_chan (pr t j) /\ p_killed (pr t1 j) = p_killed (pr t j)) as Es1.
  { intros j. rewrite E1. destruct (decide (j = n)) as [->|]; apply Hs. }
  assert (length (pt_proc t1) = length (pt_proc t)) as El1 by (unfold t1; by rewrite length_upd).
  assert (forall j, st t1 j = st t j \/ (st t j = SLEEPING /\ st t1 j = RUNNABLE)) as Ht1 by (intros j; rewrite Est; apply Ht).
  destruct (decide (st t1 n = ZOMBIE)) as [Hz|Hz].
  - assert (forall j, pr (wakeup1 (ChanProc <$> pt_initproc t1) t1) j = woken (ChanProc <$> pt_initproc t1) (pr t1 j)) as Ew by (intros; apply pr_wakeup1).
    assert (pt_initproc t1 = pt_initproc t) as Ei1 by done. rewrite Ei1 in *.
    split; try done.
    + simpl. rewrite length_fmap. done.
    + intros j. rewrite Ew. unfold woken. destruct (decide _); apply Es1.
    + intros j. rewrite Ew, <- Ep1. unfold woken. by destruct (decide _).
    + intros j. unfold st at 1 4. rewrite Ew. unfold woken. destruct (decide _) as [[E _]|]; [|apply Ht1].
      right. split; [|done]. destruct (Ht1 j) as [<-|[]]; done.
    + intros j _ _ _ i. unfold st. rewrite Ew. unfold woken. destruct (decide _) as [|Hd]; [done|]. intros Hs' Hc. by apply Hd.
  - split; try done.
    intros j Hj Hjp Hjz i. rewrite Est. intros Hs' Hc. destruct (decide (j = n)) as [->|].
    + apply Hz. destruct (Ht1 n) as [->|[E _]]; [done|congruence].
    + apply (Hw j ltac:(lia) Hjp Hjz i Hs'). rewrite <- Hc. rewrite (proj1 (proj2 (Es1 i))). apply Hs.
Qed.

Lemma reparent_loop cur n t : reparented cur n t (foldl (reparent cur) t (seq 0 n)).
Proof.
  induction n as [|n IH].
  - split; try done; [|auto|lia]. intros j. by rewrite decide_False by (intros []; lia).
  - rewrite seq_S, foldl_app. by apply reparent_step.
Qed.

(** What [exit] of process [i] does to the table. *)
Record exited (i : nat) (t t' : ptable) : Prop := {
  ex_len : length (pt_proc t') = length (pt_proc t);
  ex_next : pt_nextpid t' = pt_nextpid t;
  ex_init : pt_initproc t' = pt_initproc t;
  ex_same : forall j, p_pid (pr t' j) = p_pid (pr t j) /\ p_chan (pr t' j) = p_chan (pr t j) /\ p_killed (pr t' j) = p_killed (pr t j);
  ex_parent : forall j, p_parent (pr t' j) = if decide (p_parent (pr t j) = Some i) then pt_initproc t else p_parent (pr t j);
  ex_zombie : st t' i = ZOMBIE;
  ex_state : forall j, j <> i -> st t' j = st t j \/ (st t j = SLEEPING /\ st t' j = RUNNABLE);
  ex_wake : forall j, p_parent (pr t' j) = pt_initproc t -> p_parent (pr t j) = Some i -> st t j = ZOMBIE ->
              forall k, st t' k = SLEEPING -> p_chan (pr t' k) <> ChanProc <$> pt_initproc t;
  ex_wake_parent : forall k, st t' k = SLEEPING -> p_chan (pr t' k) <> ChanProc <$> p_parent (pr t i)
}.

Lemma exit_table_spec i t : length (pt_proc t) = Z.to_nat NPROC -> (i < Z.to_nat NPROC)%nat -> exited i t (exit_table i t).
Proof.
  intros Hl Hi. unfold exit_table. set (ch := ChanProc <$> p_parent (pr t i)).
  pose proof (reparent_loop i (Z.to_nat NPROC) (wakeup1 ch t)) as [El En Ei Hs Hp Ht Hw].
  revert El En Ei Hs Hp Ht Hw. generalize (foldl (reparent i) (wakeup1 ch t) (seq 0 (Z.to_nat NPROC))) as t1. intros t1 El En Ei Hs Hp Ht Hw.
  assert (forall j, p_pid (pr (wakeup1 ch t) j) = p_pid (pr t j) /\ p_chan (pr (wakeup1 ch t) j) = p_chan (pr t j) /\
    p_killed (pr (wakeup1 ch t) j) = p_killed (pr t j) /\ p_parent (pr (wakeup1 ch t) j) = p_parent (pr t j)) as Hw0.
  { intros j. rewrite pr_wakeup1. unfold woken. by destruct (decide _). }
  assert (forall j, st (wakeup1 ch t) j = st t j \/ (st t j = SLEEPING /\ st (wakeup1 ch t) j = RUNNABLE)) as Hst0.
  { intros j. unfold st. rewrite pr_wakeup1. unfold woken. destruct (decide _) as [[]|]; auto. }
  assert (length (pt_proc t1) = length (pt_proc t)) as El1 by (rewrite El; simpl; apply length_fmap).
  assert (forall j, pr (upd_proc i (set_p_state ZOMBIE) t1) j = if decide (j = i) then set_p_state ZOMBIE (pr t1 i) else pr t1 j) as E.
  { intros j. apply pr_upd. lia. }
  assert (forall j, st (upd_proc i (set_p_state ZOMBIE) t1) j = if decide (j = i) then ZOMBIE else st t1 j) as Est by (intros j; unfold st; rewrite E; by destruct (decide _)).
  assert (forall j, p_chan (pr (upd_proc i (set_p_state ZOMBIE) t1) j) = p_chan (pr t j)) as Ec.
  { intros j. rewrite E. destruct (Hs j) as (_ & A & _), (Hw0 j) as (_ & B & _). rewrite <- B, <- A. by destruct (decide (j = i)) as [->|]. }
  split.
  - by rewrite length_upd.
  - done.
  - done.
  - intros j. split; [|split; [apply Ec|]]; rewrite E; destruct (Hs j) as (A1 & _ & A2), (Hw0 j) as (B1 & _ & B2 & _);
      [rewrite <- B1, <- A1|rewrite <- B2, <- A2]; by destruct (decide (j = i)) as [->|].
  - intros j. transitivity (p_parent (pr t1 j)); [rewrite E; by destruct (decide (j = i)) as [->|]|]. rewrite Hp.
    destruct (Hw0 j) as (_ & _ & _ & ->). simpl. apply decide_ext. split; [intros []; done|]. intros Hj. split; [done|].
    apply parent_lookup, lookup_lt_Some in Hj. lia.
  - rewrite Est. by rewrite decide_True.
  - intros j Hj. rewrite Est, decide_False by done. destruct (Ht j) as [->|[A B]]; [apply Hst0|]. right. split; [|done]. destruct (Hst0 j) as [<-|[]]; done.
  - intros j _ Hj Hz k. rewrite Est, Ec. destruct (decide (k = i)) as [->|Hk]; [done|]. intros Hs'.
    apply parent_lookup in Hj as Hlt. apply lookup_lt_Some in Hlt. destruct (Hs k) as (_ & A & _), (Hw0 k) as (_ & B & _). rewrite <- B, <- A.
    apply (Hw j); [lia|by destruct (Hw0 j) as (_ & _ & _ & ->)| |done]. destruct (Hst0 j) as [->|[]]; congruence.
  - intros k. rewrite Est, Ec. destruct (decide (k = i)) as [->|Hk]; [done|]. intros Hs' Hc. fold ch in Hc.
    assert (st (wakeup1 ch t) k = SLEEPING) as Hs0 by (destruct (Ht k) as [<-|[]]; congruence).
    unfold st in Hs0. rewrite pr_wakeup1 in Hs0. unfold woken in Hs0. destruct (decide _) as [|Hd]; [done|]. by apply Hd.
Qed.

Lemma fset_None (cur : nat -> option nat) c c' j : fset cur c None c' = Some j <-> cur c' = Some j /\ c' <> c.
Proof. unfold fset. destruct (decide (c' = c)); naive_solver. Qed.

Lemma ok_exit s c i : table_ok s -> s_cur s c = Some i -> s_fork s i = None -> pt_initproc (s_t s) <> Some i ->
  table_ok (mk_sys (exit_table i (s_t s)) (fset (s_cur s) c None) (s_fork s)).
Proof.
  intros H Hc Hf Hinit. pose proof (cur_running _ _ _ H Hc) as Hr.
  assert (i < Z.to_nat NPROC)%nat as Hi by (rewrite <- (ok_len _ H); apply st_lt; by rewrite Hr).
  destruct (exit_table_spec i (s_t s) (ok_len _ H) Hi) as [El En Ei Hs Hp Hz Hst Hw Hwp].
  revert El En Ei Hs Hp Hz Hst Hw Hwp. generalize (exit_table i (s_t s)) as t'. intros t' El En Ei Hs Hp Hz Hst Hw Hwp.
  destruct (ok_init _ H) as (k & Ek & Hka & Hkp & Hk1).
  assert (k <> i) as Hki by congruence.
  assert (forall j, st t' j <> UNUSED <-> st (s_t s) j <> UNUSED) as Hu.
  { intros j. destruct (decide (j = i)) as [->|Hj]; [by rewrite Hz, Hr|]. destruct (Hst j Hj) as [->|[-> ->]]; done. }
  assert (forall j, st t' j = EMBRYO <-> st (s_t s) j = EMBRYO) as Hem.
  { intros j. destruct (decide (j = i)) as [->|Hj]; [by rewrite Hz, Hr|]. destruct (Hst j Hj) as [->|[-> ->]]; done. }
  assert (forall j, j <> i -> alive (st (s_t s) j) -> alive (st t' j)) as Hal.
  { intros j Hj. unfold alive. destruct (Hst j Hj) as [->|[-> ->]]; auto. }
  assert (forall j, p_parent (pr t' j) = Some i -> False) as Hno.
  { intros j. rewrite Hp. destruct (decide _); congruence. }
  split; cbn [s_t s_cur s_fork].
  - rewrite El. apply H.
  - intros j Hj%Hu. rewrite (proj1 (Hs j)), En. by apply (ok_pid _ H).
  - intros j j' Hj%Hu Hj'%Hu. rewrite (proj1 (Hs j)), (proj1 (Hs j')). by apply (ok_pid_inj _ H).
  - rewrite En. apply H.
  - intros j. setoid_rewrite fset_None. destruct (decide (j = i)) as [->|Hj].
    + rewrite Hz. split; [done|]. intros (c' & Hc' & Hne). destruct Hne. by apply (ok_cur _ H c' c i).
    + transitivity (st (s_t s) j = RUNNING); [destruct (Hst j Hj) as [->|[-> ->]]; done|]. rewrite (ok_run _ H j).
      f_equiv. intros c'. split; [intros E; split; [done|]; intros ->; congruence|by intros []].
  - intros c1 c2 j [? _]%fset_None [? _]%fset_None. by apply (ok_cur _ H c1 c2 j).
  - exists k. rewrite Ei, (proj1 (Hs k)), Hp. rewrite decide_False by congruence. auto.
  - intros j Hj. assert (st (s_t s) j = UNUSED) as Hj'.
    { destruct (decide (st (s_t s) j = UNUSED)) as [|Hn]; [done|]. by apply Hu in Hn. }
    rewrite Hp, (ok_unused _ H j Hj'). by rewrite decide_False.
  - intros j q. rewrite Hp, (proj1 (Hs j)), (proj1 (Hs q)). destruct (decide _) as [Hji|Hji].
    + rewrite Ek. intros [= <-]. split; [by apply Hal|]. rewrite Hk1.
      destruct (ok_parent _ H _ _ Hji) as [_ Hlt]. pose proof (ok_pid _ H i ltac:(by rewrite Hr)). lia.
    + intros Hq. destruct (ok_parent _ H _ _ Hq). split; [apply Hal; congruence|done].
  - intros j Hj%Hu He. rewrite Ei, Hp. intros Hne. destruct (decide _); [by rewrite Ek|]. apply (ok_has_parent _ H); [done| |done]. by rewrite <- Hem.
  - intros j n Hn. destruct (ok_fork _ H _ _ Hn) as (A & B & C). split; [|split].
    + destruct (decide (j = i)) as [->|Hj]; [congruence|]. destruct (Hst j Hj) as [->|[E ->]]; [done|auto].
    + by apply Hem.
    + rewrite Hp, (proj1 (Hs n)), (proj1 (Hs j)). rewrite decide_False; [done|]. intros E. destruct C as [[] _]; congruence.
  - apply (ok_fork_inj _ H).
  - intros n Hn%Hem. by apply (ok_embryo _ H).
  - intros j j'. rewrite (proj1 (proj2 (Hs j))). apply (ok_chan _ H).
  - intros j Hj Hcj. assert (j <> i) as Hji by (intros ->; congruence).
    assert (st (s_t s) j = SLEEPING) as Hj0 by (destruct (Hst j Hji) as [<-|[]]; congruence).
    pose proof Hcj as Hcj0. rewrite (proj1 (proj2 (Hs j))) in Hcj0. destruct (ok_wait _ H j Hj0 Hcj0) as (A & (n & B) & C).
    split; [by rewrite (proj2 (proj2 (Hs j)))|]. split; [exists n; rewrite Hp, decide_False; congruence|].
    intros m Hm. rewrite Hp in Hm. destruct (decide (m = i)) as [->|Hmi].
    + exfalso. rewrite decide_False in Hm by (intros E; apply (ok_parent _ H) in E as [_ E]; lia). apply (Hwp j Hj). by rewrite Hcj, Hm.
    + intros Hmz. assert (st (s_t s) m = ZOMBIE) as Hmz0 by (destruct (Hst m Hmi) as [<-|[]]; congruence).
      destruct (decide _) as [Hmp|Hmp]; [|by apply (C m)].
      apply (Hw m) in Hj; [|rewrite Hp, decide_True by done; done|done|done]. apply Hj. by rewrite Hcj, Hm.
Qed.

(** ** Steps on an entry that is not a live process: [reap] and [fork] *)
Lemma ok_entry s t' n p fk : table_ok s ->
  (forall j, pr t' j = if decide (j = n) then p else pr (s_t s) j) ->
  length (pt_proc t') = length (pt_proc (s_t s)) -> pt_initproc t' = pt_initproc (s_t s) ->
  pt_nextpid (s_t s) <= pt_nextpid t' < 2 ^ 31 ->
  ~ alive (st (s_t s) n) ->
  p_state p = UNUSED \/ p_state p = EMBRYO \/ p_state p = RUNNABLE ->
  (p_state p <> UNUSED -> 0 < p_pid p < pt_nextpid t' /\ forall j, j <> n -> st (s_t s) j <> UNUSED -> p_pid (pr (s_t s) j) <> p_pid p) ->
  (p_state p = UNUSED -> p_parent p = None) -> (p_state p = RUNNABLE -> p_parent p <> None) ->
  (forall q, p_parent p = Some q -> alive (st (s_t s) q) /\ p_pid (pr (s_t s) q) < p_pid p) ->
  (forall k, p_parent (pr (s_t s) n) = Some k -> st (s_t s) k = SLEEPING -> p_parent p = Some k) ->
  p_chan p = p_chan (pr (s_t s) n) ->
  (forall i m, m <> n -> fk i = Some m <-> s_fork s i = Some m) ->
  (p_state p = EMBRYO -> exists i, fk i = Some n) ->
  (forall i, fk i = Some n -> p_state p = EMBRYO /\ (st (s_t s) i = RUNNABLE \/ st (s_t s) i = RUNNING) /\ (p_parent p = None \/ p_parent p = Some i) /\ p_pid (pr (s_t s) i) < p_pid p) ->
  (forall i j, fk i = Some n -> fk j = Some n -> i = j) ->
  table_ok (mk_sys t' (s_cur s) fk).
Proof.
  intros H Epr El Ei Hnx Hna Hps Hpid Hun Hrb Hpar Hkid Hch Hfk Hem Hfn Hfi.
  assert (forall j, st t' j = if decide (j = n) then p_state p else st (s_t s) j) as Est by (intros j; unfold st; rewrite Epr; by destruct (decide _)).
  assert (forall q, alive (st (s_t s) q) -> q <> n) as Hqn by (intros q Hq ->; done).
  assert (forall q, alive (st (s_t s) q) -> alive (st t' q)) as Hal by (intros q Hq; rewrite Est, decide_False by auto; done).
  assert (p_state p <> SLEEPING /\ p_state p <> RUNNING /\ p_state p <> ZOMBIE) as (Hp1 & Hp2 & Hp3) by (destruct Hps as [->|[->| ->]]; done).
  split; cbn [s_t s_cur s_fork].
  - rewrite El. apply H.
  - intros j. rewrite Est, Epr. destruct (decide (j = n)); [apply Hpid|]. intros Hj. pose proof (ok_pid _ H j Hj). lia.
  - intros i j. rewrite !Est, !Epr. destruct (decide (i = n)) as [->|Hi], (decide (j = n)) as [->|Hj]; intros A B E.
    + done.
    + by destruct (Hpid A) as [_ D]; destruct (D j Hj B).
    + by destruct (Hpid B) as [_ D]; destruct (D i Hi A).
    + by apply (ok_pid_inj _ H).
  - pose proof (ok_next _ H). lia.
  - intros i. rewrite Est, <- (ok_run _ H i). destruct (decide (i = n)) as [->|]; [|done]. split; [done|]. intros E. destruct Hna. unfold alive. auto.
  - apply (ok_cur _ H).
  - destruct (ok_init _ H) as (k & Ek & A & B & C). exists k. rewrite Ei, Epr, decide_False by auto. auto.
  - intros i. rewrite Est, Epr. destruct (decide (i = n)); [auto|apply (ok_unused _ H)].
  - intros i q. rewrite !Epr. destruct (decide (i = n)) as [->|Hi]; intros Hq.
    + destruct (Hpar q Hq) as [A B]. rewrite decide_False by auto. auto.
    + destruct (ok_parent _ H _ _ Hq) as [A B]. rewrite decide_False by auto. auto.
  - intros i. rewrite Est, Epr, Ei. destruct (decide (i = n)) as [->|]; [|apply (ok_has_parent _ H)]. intros A B _. apply Hrb. naive_solver.
  - intros i m. rewrite !Est, !Epr. destruct (decide (m = n)) as [->|Hm]; intros Hf.
    + destruct (Hfn i Hf) as (A & B & C). rewrite !(decide_False (P := i = n)); [done|..]; apply Hqn; unfold alive; clear -B; tauto.
    + apply Hfk in Hf; [|done]. destruct (ok_fork _ H _ _ Hf) as (A & B & C). rewrite !(decide_False (P := i = n)); [done|..]; apply Hqn; unfold alive; clear -A; tauto.
  - intros i j m. destruct (decide (m = n)) as [->|Hm]; [apply Hfi|]. rewrite !Hfk by done. apply (ok_fork_inj _ H).
  - intros m. rewrite Est. destruct (decide (m = n)) as [->|Hm]; [done|]. intros (i & Hf)%(ok_embryo _ H). exists i. by apply Hfk.
  - intros i j. rewrite Epr. destruct (decide (i = n)) as [->|]; [rewrite Hch|]; apply (ok_chan _ H).
  - intros i. rewrite Est, Epr. destruct (decide (i = n)) as [->|Hi]; [done|]. intros Hs Hc. destruct (ok_wait _ H i Hs Hc) as (A & (j & B) & C).
    split; [done|]. split.
    + exists j. rewrite Epr. destruct (decide (j = n)) as [->|]; [by apply Hkid|done].
    + intros m. rewrite Epr, Est. destruct (decide (m = n)) as [->|]; [done|]. apply C.
Qed.

Lemma alloc_slot_Some t n t' : alloc_slot t = Some (n, t') ->
  st t n = UNUSED /\ (n < length (pt_proc t))%nat /\ length (pt_proc t') = length (pt_proc t) /\
  pt_nextpid t' = pt_nextpid t + 1 /\ pt_initproc t' = pt_initproc t /\
  forall j, pr t' j = if decide (j = n) then set_p_pid (pt_nextpid t) (set_p_state EMBRYO (pr t n)) else pr t j.
Proof.
  unfold alloc_slot. destruct (list_find _ (pt_proc t)) as [[i p]|] eqn:E; [|done]. apply list_find_Some in E as (E & Hu & _).
  intros [= <- <-]. apply lookup_lt_Some in E as Hlt. split; [unfold st; by rewrite (pr_Some _ _ _ E)|]. split; [done|].
  split; [apply length_upd|]. split; [done|]. split; [done|]. intros j.
  exact (pr_upd i (fun p => set_p_pid (pt_nextpid t) (set_p_state EMBRYO p)) t j Hlt).
Qed.

Lemma pid_fresh s n j : table_ok s -> st (s_t s) n <> UNUSED -> j <> n -> st (s_t s) j <> UNUSED -> p_pid (pr (s_t s) j) <> p_pid (pr (s_t s) n).
Proof. intros H Hn Hj Hu E. apply Hj. by apply (ok_pid_inj _ H). Qed.

Lemma ok_upd_entry s n f fk : table_ok s -> (n < length (pt_proc (s_t s)))%nat -> ~ alive (st (s_t s) n) ->
  let p := f (pr (s_t s) n) in
  p_state p = UNUSED \/ p_state p = EMBRYO \/ p_state p = RUNNABLE ->
  (p_state p <> UNUSED -> st (s_t s) n <> UNUSED /\ p_pid p = p_pid (pr (s_t s) n)) ->
  (p_state p = UNUSED -> p_parent p = None) -> (p_state p = RUNNABLE -> p_parent p <> None) ->
  (forall q, p_parent p = Some q -> alive (st (s_t s) q) /\ p_pid (pr (s_t s) q) < p_pid p) ->
  (forall k, p_parent (pr (s_t s) n) = Some k -> st (s_t s) k = SLEEPING -> p_parent p = Some k) ->
  p_chan p = p_chan (pr (s_t s) n) ->
  (forall i m, m <> n -> fk i = Some m <-> s_fork s i = Some m) ->
  (p_state p = EMBRYO -> exists i, fk i = Some n) ->
  (forall i, fk i = Some n -> p_state p = EMBRYO /\ (st (s_t s) i = RUNNABLE \/ st (s_t s) i = RUNNING) /\ (p_parent p = None \/ p_parent p = Some i) /\ p_pid (pr (s_t s) i) < p_pid p) ->
  (forall i j, fk i = Some n -> fk j = Some n -> i = j) ->
  table_ok (mk_sys (upd_proc n f (s_t s)) (s_cur s) fk).
Proof.
  intros H Hlt Hna p Hps Hpid. intros. pose proof (ok_next _ H). apply (ok_entry s _ n p); try done.
  - intros j. by apply pr_upd.
  - apply length_upd.
  - simpl. lia.
  - intros Hu. destruct (Hpid Hu) as [Hn ->]. split; [by apply (ok_pid _ H)|]. intros j Hj Hju. by apply pid_fresh.
Qed.

Lemma ok_reap s i j c : table_ok s -> s_cur s c = Some i -> wait_scan i (s_t s) = WaitReap j -> table_ok (mk_sys (reap j (s_t s)) (s_cur s) (s_fork s)).
Proof.
  intros H Hc Hw. pose proof (wait_scan_spec i (s_t s)) as Hs. rewrite Hw in Hs. destruct Hs as [Hp Hz].
  pose proof (cur_running _ _ _ H Hc) as Hr.
  apply ok_upd_entry; [done|apply st_lt; by rewrite Hz|rewrite Hz; by intros [|[|]]|..]; simpl; try done.
  - by left.
  - rewrite Hp. intros k [= <-]. congruence.
  - intros k Hk. destruct (ok_fork _ H _ _ Hk) as (_ & ? & _). congruence.
  - intros k1 k2. apply (ok_fork_inj _ H).
Qed.

Lemma ok_fork_alloc s c i n t' : table_ok s -> s_cur s c = Some i -> s_fork s i = None -> pt_nextpid (s_t s) < 2 ^ 31 - 1 ->
  alloc_slot (s_t s) = Some (n, t') -> table_ok (mk_sys t' (s_cur s) (fset (s_fork s) i (Some n))).
Proof.
  intros H Hc Hf Hn Ha. destruct (alloc_slot_Some _ _ _ Ha) as (Hu & Hlt & El & Enx & Ei & Epr).
  pose proof (cur_running _ _ _ H Hc) as Hr. pose proof (ok_next _ H).
  assert (forall k, fset (s_fork s) i (Some n) k = Some n -> k = i) as Hin.
  { intros k. unfold fset. destruct (decide (k = i)); [done|]. intros Hk. destruct (ok_fork _ H _ _ Hk) as (_ & ? & _). congruence. }
  eapply (ok_entry s _ n); [done|done|done|done|lia|..]; simpl; try done.
  - rewrite Hu. by intros [|[|]].
  - by right; left.
  - intros _. rewrite Enx. split; [lia|]. intros j Hj Hju. pose proof (ok_pid _ H j Hju). lia.
  - by rewrite (ok_unused _ H n Hu).
  - intros k m Hm. unfold fset. destruct (decide (k = i)) as [->|]; [|done]. rewrite Hf. naive_solver.
  - intros _. exists i. unfold fset. by rewrite decide_True.
  - intros k ->%Hin. split; [done|]. split; [auto|]. split; [left; by apply (ok_unused _ H)|]. apply (ok_pid _ H). by rewrite Hr.
  - intros k1 k2 ->%Hin ->%Hin. done.
Qed.

(** The other steps of [fork]: [f] changes the child's entry. *)
Lemma ok_fork_child s c i n f fk : table_ok s -> s_cur s c = Some i -> s_fork s i = Some n ->
  (forall p, p_pid (f p) = p_pid p /\ p_chan (f p) = p_chan p) ->
  let p := f (pr (s_t s) n) in
  (p_state p = UNUSED /\ p_parent p = None /\ fk = fset (s_fork s) i None) \/
  (p_state p = EMBRYO /\ p_parent p = Some i /\ fk = s_fork s) \/
  (p_state p = RUNNABLE /\ p_parent p = Some i /\ fk = fset (s_fork s) i None) ->
  table_ok (mk_sys (upd_proc n f (s_t s)) (s_cur s) fk).
Proof.
  intros H Hc Hf Hpc p Hcase. pose proof (cur_running _ _ _ H Hc) as Hr. destruct (ok_fork _ H _ _ Hf) as (_ & He & Hpar & Hpid).
  assert (forall k, fset (s_fork s) i None k <> Some n) as Hno.
  { intros k [E Hne]%fset_None. apply Hne. by apply (ok_fork_inj _ H k i n). }
  assert (forall k m, m <> n -> fset (s_fork s) i None k = Some m <-> s_fork s k = Some m) as Hfk.
  { intros k m Hm. rewrite fset_None. naive_solver congruence. }
  assert (p_parent p = Some i -> forall q, p_parent p = Some q -> alive (st (s_t s) q) /\ p_pid (pr (s_t s) q) < p_pid p) as Hq.
  { intros -> q [= <-]. rewrite Hr. split; [unfold alive; auto|]. unfold p. by rewrite (proj1 (Hpc _)). }
  assert (forall k, p_parent (pr (s_t s) n) = Some k -> st (s_t s) k = SLEEPING -> p_parent p = Some k) as Hk.
  { intros k Hk Hks. destruct Hpar; congruence. }
  destruct Hcase as [(E1 & E2 & ->)|[(E1 & E2 & ->)|(E1 & E2 & ->)]]; specialize (Hpc (pr (s_t s) n)) as [Hp1 Hp2]; fold p in Hp1, Hp2;
    (apply ok_upd_entry; fold p; [done|apply st_lt; by rewrite He|rewrite He; by intros [|[|]]|rewrite E1; auto|..]); rewrite ?E1; try done.
  - by rewrite E2.
  - intros k E. by apply Hno in E.
  - intros k1 k2 E. by apply Hno in E.
  - intros _. by rewrite He.
  - by apply Hq.
  - intros _. by exists i.
  - intros k E. assert (k = i) as -> by (by apply (ok_fork_inj _ H k i n)). rewrite Hp1. auto.
  - intros k1 k2. apply (ok_fork_inj _ H).
  - intros _. by rewrite He.
  - by rewrite E2.
  - by apply Hq.
  - intros k E. by apply Hno in E.
  - intros k1 k2 E. by apply Hno in E.
Qed.

Lemma ok_step s s' : table_ok s -> step s s' -> table_ok s'.
Proof.
  intros H St. destruct St as [c i t cur fk t' Hc Hd|c i t cur fk Hc|c i t cur fk Hc|c i ch t cur fk Hc Hf Hch|ch t cur fk|pid t cur fk|
    c i t cur fk Hc Hf Hi|c i j t cur fk Hc Hf Hw|c i t cur fk Hc Hf Hw|c i np t t' cur fk Hc Hf Hn Ha|c i np t cur fk Hc Hf Hp|
    c i np pgdir name t cur fk Hc Hf|c i np t cur fk Hc Hf Hp].
  - unfold dispatch in Hd. destruct (decide (st t i = RUNNABLE)) as [E|]; [|done]. injection Hd as <-.
    assert (forall c', fset cur c (Some i) c' = Some i <-> c' = c) as Hi.
    { intros c'. unfold fset. destruct (decide (c' = c)) as [->|]; [done|]. split; [|done]. intros Hc'. pose proof (cur_running _ _ _ H Hc'). simpl in *. congruence. }
    apply (ok_upd (mk_sys t cur fk) i (set_p_state RUNNING)); cbn [s_t s_cur s_fork]; try done; try by rewrite E.
    + unfold alive. simpl. auto.
    + split; [|done]. intros _. exists c. by apply Hi.
    + intros j c' Hj. unfold fset. destruct (decide (c' = c)) as [->|]; [|done]. rewrite Hc. naive_solver.
    + intros c1 c2 ->%Hi ->%Hi. done.
    + intros j. apply (ok_chan _ H).
  - pose proof (cur_running _ _ _ H Hc) as Hr. simpl in Hr.
    apply (ok_upd (mk_sys t cur fk) i (set_p_chan None)); cbn [s_t s_cur s_fork]; try done; try by rewrite Hr.
    + simpl. fold (st t i). rewrite Hr. unfold alive. auto.
    + simpl. fold (st t i). by rewrite Hr.
    + apply (ok_run _ H).
    + intros c1 c2. apply (ok_cur _ H).
  - apply (ok_leave (mk_sys t cur fk)); try done; [by right|]. intros j. apply (ok_chan _ H).
  - apply (ok_leave (mk_sys t cur fk)); try done; simpl; [by left|intros j E; by apply Hch in E|intros _ E; by apply Hch in E].
  - by apply (ok_wakeup1 (mk_sys t cur fk)).
  - by apply (ok_kill (mk_sys t cur fk)).
  - by apply (ok_exit (mk_sys t cur fk)).
  - by apply (ok_reap (mk_sys t cur fk) i j c).
  - pose proof (wait_scan_spec i t) as Hs. rewrite Hw in Hs.
    apply (ok_leave (mk_sys t cur fk)); try done; simpl; [by left|by intros j [= ->]|]. intros _ _. split; [done|]. apply Hs.
  - by apply (ok_fork_alloc (mk_sys t cur fk) c i np t').
  - apply (ok_fork_child (mk_sys t cur fk) c i); try done. by left.
  - apply (ok_fork_child (mk_sys t cur fk) c i); try done. right. left. simpl. split; [|done]. apply (ok_fork _ H _ _ Hf).
  - apply (ok_fork_child (mk_sys t cur fk) c i); try done. right. by right.
Qed.

Lemma ok_start : table_ok start.
Proof.
  assert (forall i, pr userinit_table i = if decide (i = 0%nat) then set_p_state RUNNABLE (set_p_pid 1 (set_p_state EMBRYO no_proc)) else no_proc) as Epr.
  { intros i. destruct (decide (i = 0%nat)) as [->|Hi]; [vm_compute; reflexivity|]. destruct i as [|i]; [done|]. unfold pr.
    replace (pt_proc userinit_table) with (pr userinit_table 0 :: replicate 63 no_proc) by (vm_compute; reflexivity).
    rewrite lookup_cons. destruct (decide (i < 63)%nat); [by rewrite lookup_replicate_2|].
    by rewrite lookup_ge_None_2 by (rewrite length_replicate; lia). }
  assert (pt_nextpid userinit_table = 2) as En by (vm_compute; reflexivity).
  assert (pt_initproc userinit_table = Some 0%nat) as Ei by (vm_compute; reflexivity).
  assert (forall i, st userinit_table i = if decide (i = 0%nat) then RUNNABLE else UNUSED) as Est by (intros i; unfold st; rewrite Epr; by destruct (decide _)).
  split; unfold start; cbn [s_t s_cur s_fork]; try done.
  - intros i. rewrite Est, Epr, En. by destruct (decide _).
  - intros i j. rewrite !Est. destruct (decide (i = 0%nat)), (decide (j = 0%nat)); congruence.
  - intros i. rewrite Est. destruct (decide _); split; (done || by intros []).
  - exists 0%nat. rewrite Ei, Est, Epr. simpl. unfold alive. auto.
  - intros i. rewrite Est, Epr. by destruct (decide _).
  - intros i q. rewrite Epr. by destruct (decide _).
  - intros i. rewrite Est, Ei, Epr. by destruct (decide _) as [->|].
  - intros n. rewrite Est. by destruct (decide _).
  - intros i j. rewrite Epr. by destruct (decide _).
  - intros i. rewrite Est. by destruct (decide _).
Qed.

Lemma ok_reachable s : reachable s -> table_ok s.
Proof. apply (rtc_ind_r (fun s => table_ok s)); [apply ok_start|]. intros x y _ St Hx. by apply (ok_step x). Qed.

(** ** Theorems *)

(** C35: The process table stays well formed in every interleaving of the
    CPUs' scheduling, forks, exits, waits, kills, sleeps and wakeups: live
    processes have distinct positive pids; a process is RUNNING exactly when
    some CPU runs it, and only one does; the first process is never reaped;
    every other process past [fork] has a parent that is alive, with a
    smaller pid (so the parents form a tree rooted at the first process and
    a zombie always has somebody to reap it); and an EMBRYO belongs to
    exactly one unfinished [fork].  The pids are those of the first
    [2 ^ 31 - 2] forks: [nextpid], an [int], overflows after them. *)
Theorem proc_table_invariant s : reachable s ->
  let t := s_t s in
  (forall i j, st t i <> UNUSED -> st t j <> UNUSED -> p_pid (pr t i) = p_pid (pr t j) -> i = j) /\
  (forall i, st t i = RUNNING <-> exists c, s_cur s c = Some i) /\
  (forall c c' i, s_cur s c = Some i -> s_cur s c' = Some i -> c = c') /\
  (exists k, pt_initproc t = Some k /\ alive (st t k) /\ p_pid (pr t k) = 1 /\
     forall i, st t i <> UNUSED -> st t i <> EMBRYO -> i <> k ->
       exists q, p_parent (pr t i) = Some q /\ alive (st t q) /\ 0 < p_pid (pr t q) < p_pid (pr t i)) /\
  (forall n, st t n = EMBRYO -> exists i, s_fork s i = Some n /\ alive (st t i) /\ forall j, s_fork s j = Some n -> j = i).
Proof.
  intros H%ok_reachable t. assert (forall q, alive (st t q) -> st t q <> UNUSED) as Hau by (intros q [-> |[-> | ->]]; done).
  split; [apply (ok_pid_inj _ H)|]. split; [apply (ok_run _ H)|]. split; [apply (ok_cur _ H)|]. split.
  - destruct (ok_init _ H) as (k & Ek & A & _ & C). exists k. split; [done|]. split; [done|]. split; [done|]. intros i Hu He Hk.
    destruct (p_parent (pr t i)) as [q|] eqn:Eq; [|by destruct (ok_has_parent _ H i Hu He ltac:(congruence))].
    destruct (ok_parent _ H _ _ Eq) as [Hq Hlt]. exists q. split; [done|]. split; [done|]. split; [|done]. by apply (ok_pid _ H), Hau.
  - intros n (i & Hi)%(ok_embryo _ H). exists i. split; [done|]. destruct (ok_fork _ H _ _ Hi) as (A & _). split; [unfold alive; tauto|].
    intros j Hj. by apply (ok_fork_inj _ H j i n).
Qed.

(** C38: No wakeup of [wait] is lost: whatever the interleaving, a process that
    sleeps in [wait] has a child, has no zombie child and has not been
    killed, so an exit of a child, a reparented zombie and a [kill] all find
    it asleep and wake it in the same critical section. *)
Theorem wait_no_lost_wakeup s i : reachable s -> st (s_t s) i = SLEEPING -> p_chan (pr (s_t s) i) = Some (ChanProc i) ->
  p_killed (pr (s_t s) i) = false /\ (exists j, p_parent (pr (s_t s) j) = Some i) /\
  (forall j, p_parent (pr (s_t s) j) = Some i -> st (s_t s) j <> ZOMBIE) /\
  (forall j, p_parent (pr (s_t s) j) = Some i -> st (s_t s) j = RUNNING -> st (exit_table j (s_t s)) i = RUNNABLE).
Proof.
  intros H%ok_reachable Hs Hc. destruct (ok_wait _ H i Hs Hc) as (A & B & C). split; [done|]. split; [done|]. split; [done|].
  intros j Hj Hr. assert (i <> j) as Hij by (intros <-; congruence).
  assert (j < Z.to_nat NPROC)%nat as Hlt by (rewrite <- (ok_len _ H); apply st_lt; by rewrite Hr).
  destruct (exit_table_spec j (s_t s) (ok_len _ H) Hlt) as [_ _ _ Hsame _ _ Hst _ Hwp].
  destruct (Hst i Hij) as [E|[_ E]]; [|done]. destruct (Hwp i); [by rewrite E, Hs|]. by rewrite (proj1 (proj2 (Hsame i))), Hc, Hj.
Qed.

(** ** A run: the first process forks, the child runs on another CPU, the
    parent waits *)
Definition demo_t1 : ptable := default table0 (dispatch 0 userinit_table).
Definition demo_t2 : ptable := default table0 (snd <$> alloc_slot demo_t1).
Definition demo_t3 : ptable := fork_ready 1 (fork_copy 0 1 4096 [99; 0] demo_t2).
Definition demo_t4 : ptable := default table0 (dispatch 1 demo_t3).
Definition demo_t5 : ptable := sleep_table 0 (Some (ChanProc 0)) demo_t4.
Definition demo_s5 : sys := mk_sys demo_t5 (fset (fset (fset (fun _ => None) 0 (Some 0%nat)) 1 (Some 1%nat)) 0 None)
  (fset (fset (fun _ => None) 0 (Some 1%nat)) 0 None).

Lemma demo_reachable : reachable demo_s5.
Proof.
  unfold reachable, start, demo_s5.
  eapply rtc_l; [apply (st_run 0 0 _ _ _ demo_t1); [done|vm_compute; reflexivity]|].
  eapply rtc_l; [apply (st_fork 0 0 1 _ demo_t2); [done|done|vm_compute; reflexivity|vm_compute; reflexivity]|].
  eapply rtc_l; [apply (st_fork_copy 0 0 1 4096 [99; 0]); done|].
  eapply rtc_l; [apply (st_fork_ready 0 0 1); [done|done|vm_compute; reflexivity]|].
  eapply rtc_l; [apply (st_run 1 1 _ _ _ demo_t4); [done|vm_compute; reflexivity]|].
  eapply rtc_l; [apply (st_wait 0 0); [done|done|vm_compute; reflexivity]|].
  apply rtc_refl.
Qed.

Lemma proc_table_invariant_witness : reachable demo_s5 /\ st demo_t5 1 = RUNNING /\
  exists q, p_parent (pr demo_t5 1) = Some q /\ alive (st demo_t5 q) /\ 0 < p_pid (pr demo_t5 q) < p_pid (pr demo_t5 1).
Proof.
  split; [exact demo_reachable|]. assert (st demo_t5 1 = RUNNING) as Hr by (vm_compute; reflexivity). split; [exact Hr|].
  destruct (proc_table_invariant demo_s5 demo_reachable) as (_ & _ & _ & (k & Ek & _ & _ & Hp) & _).
  assert (k = 0%nat) as -> by (vm_compute in Ek; congruence).
  apply (Hp 1%nat); [intros E; vm_compute in E; discriminate|intros E; vm_compute in E; discriminate|done].
Defined.

Lemma wait_no_lost_wakeup_witness : reachable demo_s5 /\ st demo_t5 0 = SLEEPING /\ st (exit_table 1 demo_t5) 0 = RUNNABLE.
Proof.
  assert (st demo_t5 0 = SLEEPING) as Hs by (vm_compute; reflexivity).
  assert (p_chan (pr demo_t5 0) = Some (ChanProc 0)) as Hc by (vm_compute; reflexivity).
  split; [exact demo_reachable|]. split; [exact Hs|].
  destruct (wait_no_lost_wakeup demo_s5 0 demo_reachable Hs Hc) as (_ & _ & _ & H).
  apply (H 1%nat); vm_compute; reflexivity.
Defined.

(** ** [kill] of a free entry

    A free entry keeps a pid: 0, or that of a [fork] that failed.  [kill(0)]
    succeeds on the first free entry with pid 0, and the next process made
    from that entry is killed from the start. *)
Lemma kill_free_entry : (kill_table 0 demo_t1).2 = 0 /\
  exists n t', alloc_slot (kill_table 0 demo_t1).1 = Some (n, t') /\ st t' n = EMBRYO /\ p_killed (pr t' n) = true.
Proof.
  split; [vm_compute; reflexivity|]. exists 1%nat, (default table0 (snd <$> alloc_slot (kill_table 0 demo_t1).1)).
  split; [vm_compute; reflexivity|]. split; vm_compute; reflexivity.
Qed.
