(* ===== verification/Kernel.v ===== *)
(** * The state of the whole kernel

  The parts modelled so far side by side: the file-system state, physical
  memory, the process table, the table of open files, the pipes, the tick
  counter, the console's input buffer and the keyboard's [shift]; and how kernel code on behalf of a process reaches them.  The
  process is an argument of the operations, for [myproc()]. *)
From S2P Require Import Prelude Params Console Layout KState Pipe Kalloc Vm Proc.

Record mstate := mk_mstate {
  m_k : kstate;
  m_vm : vmstate;
  m_pt : ptable;
  m_ftable : list file;
  m_pipes : gmap Z pipe;
  m_ticks : Z;
  m_input : input;
  m_shift : Z
}.
Definition set_m_k (x : kstate) (m : mstate) : mstate := mk_mstate x (m_vm m) (m_pt m) (m_ftable m) (m_pipes m) (m_ticks m) (m_input m) (m_shift m).
Definition set_m_vm (x : vmstate) (m : mstate) : mstate := mk_mstate (m_k m) x (m_pt m) (m_ftable m) (m_pipes m) (m_ticks m) (m_input m) (m_shift m).
Definition set_m_pt (x : ptable) (m : mstate) : mstate := mk_mstate (m_k m) (m_vm m) x (m_ftable m) (m_pipes m) (m_ticks m) (m_input m) (m_shift m).
Definition set_m_ftable (x : list file) (m : mstate) : mstate := mk_mstate (m_k m) (m_vm m) (m_pt m) x (m_pipes m) (m_ticks m) (m_input m) (m_shift m).
Definition set_m_pipes (x : gmap Z pipe) (m : mstate) : mstate := mk_mstate (m_k m) (m_vm m) (m_pt m) (m_ftable m) x (m_ticks m) (m_input m) (m_shift m).
Definition set_m_ticks (x : Z) (m : mstate) : mstate := mk_mstate (m_k m) (m_vm m) (m_pt m) (m_ftable m) (m_pipes m) x (m_input m) (m_shift m).
Definition set_m_input (x : input) (m : mstate) : mstate := mk_mstate (m_k m) (m_vm m) (m_pt m) (m_ftable m) (m_pipes m) (m_ticks m) x (m_shift m).
Definition set_m_shift (x : Z) (m : mstate) : mstate := mk_mstate (m_k m) (m_vm m) (m_pt m) (m_ftable m) (m_pipes m) (m_ticks m) (m_input m) x.

(** ** Running the code of a part *)
Definition lift {S T A} (get : T -> S) (put : S -> T -> T) (x : M S A) : M T A := fun m =>
  match x (get m) with
  | Ret a s => Ret a (put s m)
  | Panic msg => Panic msg
  | Sleep why => Sleep why
  | Fault why => Fault why
  | OutOfFuel => OutOfFuel
  end.

Definition myproc (cur : nat) : M mstate proc := gets (fun m => pr (m_pt m) cur).
Definition updproc (i : nat) (f : proc -> proc) : M mstate unit := modify (fun m => set_m_pt (upd_proc i f (m_pt m)) m).
Definition table (f : ptable -> ptable) : M mstate unit := modify (fun m => set_m_pt (f (m_pt m)) m).
Definition wakeup (ch : chan) : M mstate unit := table (wakeup1 (Some ch)).

Definition liftv {A} (x : M vmstate A) : M mstate A := lift m_vm set_m_vm x.

(** File-system code run by process [cur]: [myproc()->pid] is [k_pid]; code
    that follows path names also uses [myproc()->cwd]. *)
Definition runk {A} (cur : nat) (x : M kstate A) : M mstate A :=
  p ← myproc cur;
  lift (fun m => set_k_pid (p_pid p) (m_k m)) set_m_k x.
Definition runpath {A} (cur : nat) (x : M kstate A) : M mstate A :=
  p ← myproc cur;
  cwd ← unwrap (p_cwd p) "cwd: null pointer";
  lift (fun m => set_k_cwd cwd (set_k_pid (p_pid p) (m_k m))) set_m_k x.

(** ** Memory through the page table

    The processor translates the addresses kernel code uses: it needs a
    present entry, and to write a writable one. *)
Definition xlate (pgdir va : Z) (write : bool) : M vmstate Z :=
  pde ← ldw (pgdir + 4 * PDX va);
  if negb (flag pde PTE_P) || (write && negb (flag pde PTE_W)) then fault "page fault" else
  pte ← ldw (P2V (PTE_ADDR pde) + 4 * PTX va);
  if negb (flag pte PTE_P) || (write && negb (flag pte PTE_W)) then fault "page fault" else
  mret (P2V (PTE_ADDR pte) + va mod PGSIZE).

Definition byteat (m : gmap Z (list Z)) (a : Z) : Z := default 0 (pg m (base a) !! Z.to_nat (a mod PGSIZE)).
Definition ldb (a : Z) : M vmstate Z := gets (fun v => byteat (v_mem v) a).
Definition stb (a x : Z) : M vmstate unit :=
  modify (fun v => set_v_mem (<[base a := <[Z.to_nat (a mod PGSIZE) := x]> (pg (v_mem v) (base a))]> (v_mem v)) v).

Fixpoint uload (pgdir va : Z) (n : nat) : M vmstate (list Z) :=
  match n with
  | O => mret []
  | S n => a ← xlate pgdir va false; b ← ldb a; bs ← uload pgdir (u32 (va + 1)) n; mret (b :: bs)
  end.
Fixpoint ustore (pgdir va : Z) (bs : list Z) : M vmstate unit :=
  match bs with
  | [] => mret tt
  | b :: bs => a ← xlate pgdir va true; stb a b ;; ustore pgdir (u32 (va + 1)) bs
  end.

(** [cur]'s memory. *)
Definition load_user (cur : nat) (va : Z) (n : nat) : M mstate (list Z) :=
  p ← myproc cur; liftv (uload (p_pgdir p) va n).
Definition store_user (cur : nat) (va : Z) (bs : list Z) : M mstate unit :=
  p ← myproc cur; liftv (ustore (p_pgdir p) va bs).

(** ** x86.h: the offsets of the fields of [struct trapframe] *)
Notation TF_EAX := 28 (only parsing).
Notation TF_ES := 40 (only parsing).
Notation TF_DS := 44 (only parsing).
Notation TF_TRAPNO := 48 (only parsing).
Notation TF_EIP := 56 (only parsing).
Notation TF_CS := 60 (only parsing).
Notation TF_EFLAGS := 64 (only parsing).
Notation TF_ESP := 68 (only parsing).
Notation TF_SS := 72 (only parsing).
Notation sizeof_trapframe := 76 (only parsing).

Definition get_tf (cur : nat) (off : Z) : M mstate Z := p ← myproc cur; liftv (ldw (p_tf p + off)).
Definition put_tf (cur : nat) (off x : Z) : M mstate unit := p ← myproc cur; liftv (stw (p_tf p + off) x).
