(* ===== verification/File.v ===== *)
(** * Open files (file.c, and the parts of pipe.c that deal with files and
    processes)

  A [struct file *] is an index of [ftable.file], a [struct pipe *] the
  address of the page that holds it. *)
From S2P Require Import Prelude Params Layout KState Driver Dll Bio Cache Log LogCrash CString FsBase FsAlloc Inode Ext2 Vfs Dir Pipe Kalloc Vm Proc Kernel.

Definition getfile (f : nat) : M mstate file := o ← gets (fun m => m_ftable m !! f); unwrap o "file".
Definition updfile (f : nat) (g : file -> file) : M mstate unit := modify (fun m => set_m_ftable (alter g f (m_ftable m)) m).
Definition getpipe (p : Z) : M mstate pipe := o ← gets (fun m => m_pipes m !! p); unwrap o "pipe".
Definition setpipe (p : Z) (x : pipe) : M mstate unit := modify (fun m => set_m_pipes (<[p := x]> (m_pipes m)) m).

Section file.
Context {LK : Linker} {DD : DiskDriver} {DS : Devsw}.

Definition filealloc : M mstate (option nat) :=
  l ← gets m_ftable;
  match list_find (fun f => f_ref f = 0) l with
  | Some (f, _) => updfile f (set_f_ref 1) ;; mret (Some f)
  | None => mret None
  end.

Definition filedup (f : nat) : M mstate nat :=
  x ← getfile f;
  if f_ref x <? 1 then panic "filedup" else
  updfile f (set_f_ref (f_ref x + 1)) ;;
  mret f.

(** [pipeclose] with its wakeups; the page is freed with the last end. *)
Definition pipe_close (p : Z) (writable : bool) : M mstate unit :=
  x ← getpipe p;
  let r := pipeclose writable x in
  wakeup (if writable then ChanNread p else ChanNwrite p) ;;
  if r.2 then
    modify (fun m => set_m_pipes (delete p (m_pipes m)) m) ;;
    liftv (kfree p)
  else setpipe p r.1.

Definition iput_txn (cur : nat) (ip : nat) : M mstate unit :=
  runk cur begin_op ;;
  runk cur (iops_iput ip) ;;
  runk cur end_op.

Definition fileclose (cur : nat) (f : nat) : M mstate unit :=
  x ← getfile f;
  if f_ref x <? 1 then panic "fileclose" else
  updfile f (set_f_ref (f_ref x - 1)) ;;
  if 0 <? f_ref x - 1 then mret tt else
  ff ← getfile f;
  updfile f (fun x => set_f_type FD_NONE (set_f_ref 0 x)) ;;
  match f_type ff with
  | FD_PIPE => pipe_close (f_pipe ff) (f_writable ff)
  | FD_INODE => iput_txn cur (f_ip ff)
  | FD_NONE => mret tt
  end.

Definition filestat (cur : nat) (f : nat) : M mstate (option stat) :=
  x ← getfile f;
  match f_type x with
  | FD_INODE =>
      runk cur (iops_ilock (f_ip x)) ;;
      st ← runk cur (iops_stati (f_ip x));
      runk cur (iops_iunlock (f_ip x)) ;;
      mret (Some st)
  | _ => mret None
  end.

(** ** Pipes: one attempt; a call that has to wait is the outcome [Sleep] *)
Definition pipe_read (cur : nat) (p addr n : Z) : M mstate Z :=
  x ← getpipe p;
  me ← myproc cur;
  match piperead (p_killed me) (Z.to_nat n) x with
  | (_, RFail) => mret (-1)
  | (_, RSleep) => sleep_on "pipe"
  | (x, RDone bs) =>
      setpipe p x ;;
      store_user cur addr bs ;;
      wakeup (ChanNwrite p) ;;
      mret (Z.of_nat (length bs))
  end.
Definition pipe_write (cur : nat) (p addr n : Z) : M mstate Z :=
  x ← getpipe p;
  me ← myproc cur;
  src ← load_user cur addr (Z.to_nat n);
  match pipewrite (p_killed me) src x with
  | (x, WFail _) => setpipe p x ;; mret (-1)
  | (_, WSleep _) => sleep_on "pipe"
  | (x, WDone) => setpipe p x ;; wakeup (ChanNread p) ;; mret n
  end.

(** ** Reading and writing *)
Definition fileread (cur : nat) (f : nat) (addr n : Z) : M mstate Z :=
  x ← getfile f;
  if negb (f_readable x) then mret (-1) else
  match f_type x with
  | FD_PIPE => pipe_read cur (f_pipe x) addr n
  | FD_INODE =>
      runk cur (iops_ilock (f_ip x)) ;;
      x ← getfile f;
      r ← runk cur (iops_readi (f_ip x) (f_off x) (u32 n));
      store_user cur addr r.2 ;;
      (if 0 <? r.1 then updfile f (fun x => set_f_off (u32 (f_off x + r.1)) x) else mret tt) ;;
      runk cur (iops_iunlock (f_ip x)) ;;
      mret r.1
  | FD_NONE => panic "fileread"
  end.

Definition maxwrite : Z := ((MAXOPBLOCKS - 1 - 1 - 2) / 2) * 512.

(** One round of the loop of [filewrite]: the result of [writei]. *)
Definition filewrite_round (cur : nat) (f ip : nat) (addr n1 : Z) : M mstate Z :=
  runk cur begin_op ;;
  runk cur (iops_ilock ip) ;;
  x ← getfile f;
  src ← load_user cur addr (Z.to_nat n1);
  r ← runk cur (iops_writei ip src (f_off x) n1);
  (if 0 <? r then updfile f (fun x => set_f_off (u32 (f_off x + r)) x) else mret tt) ;;
  runk cur (iops_iunlock ip) ;;
  runk cur end_op ;;
  mret r.

Fixpoint filewrite_loop (fuel : nat) (cur : nat) (f ip : nat) (addr n i : Z) : M mstate Z :=
  match fuel with
  | O => out_of_fuel
  | S fuel =>
      if i <? n then
        let n1 := if maxwrite <? n - i then maxwrite else n - i in
        r ← filewrite_round cur f ip (u32 (addr + i)) n1;
        if r <? 0 then mret i else
        if negb (r =? n1) then panic "short filewrite" else
        filewrite_loop fuel cur f ip addr n (i + r)
      else mret i
  end.

Definition filewrite (cur : nat) (f : nat) (addr n : Z) : M mstate Z :=
  x ← getfile f;
  if negb (f_writable x) then mret (-1) else
  match f_type x with
  | FD_PIPE => pipe_write cur (f_pipe x) addr n
  | FD_INODE =>
      i ← filewrite_loop (S (Z.to_nat n)) cur f (f_ip x) addr n 0;
      mret (if i =? n then n else -1)
  | FD_NONE => panic "filewrite"
  end.

(** ** [pipealloc] *)
Definition pipe_file (p : Z) (writable : bool) (x : file) : file :=
  set_f_pipe p (set_f_writable writable (set_f_readable (negb writable) (set_f_type FD_PIPE x))).

Definition pipealloc (cur : nat) : M mstate (option (nat * nat)) :=
  f0 ← filealloc;
  match f0 with
  | None => mret None
  | Some f0 =>
      f1 ← filealloc;
      match f1 with
      | None => fileclose cur f0 ;; mret None
      | Some f1 =>
          p ← liftv kalloc;
          if p =? 0 then fileclose cur f0 ;; fileclose cur f1 ;; mret None else
          d ← liftv (get_page p);
          setpipe p (pipe_init d) ;;
          updfile f0 (pipe_file p false) ;;
          updfile f1 (pipe_file p true) ;;
          mret (Some (f0, f1))
      end
  end.
End file.
