(* ===== verification/Syscall.v ===== *)
(** * System call arguments (syscall.c)

  The arguments are on the user's stack, above the return address; every
  pointer is checked against the size of the process. *)
From S2P Require Import Prelude Params Layout KState CString Pipe Kalloc Vm VmSpec Proc Kernel.

(** The functions return [-1] for an error; here [None]. *)
Definition fetchint (cur : nat) (addr : Z) : M mstate (option Z) :=
  p ← myproc cur;
  if (p_sz p <=? addr) || (p_sz p <? u32 (addr + 4)) then mret None else
  bs ← load_user cur addr 4;
  mret (Some (s32 (le_dec bs))).

(** [for(s = *pp; s < ep; s++) if( *s == 0) return s - *pp] *)
Fixpoint fetchstr_loop (fuel : nat) (cur : nat) (s ep : Z) (len : Z) : M mstate (option Z) :=
  match fuel with
  | O => out_of_fuel
  | S fuel =>
      if ep <=? s then mret None else
      bs ← load_user cur s 1;
      if le_dec bs =? 0 then mret (Some len) else fetchstr_loop fuel cur (s + 1) ep (len + 1)
  end.
(** The pointer and the length of the string. *)
Definition fetchstr (cur : nat) (addr : Z) : M mstate (option (Z * Z)) :=
  p ← myproc cur;
  if p_sz p <=? addr then mret None else
  r ← fetchstr_loop (S (Z.to_nat (p_sz p - addr))) cur addr (p_sz p) 0;
  match r with
  | Some len => mret (Some (addr, len))
  | None => mret None
  end.

Definition argint (cur : nat) (n : Z) : M mstate (option Z) :=
  esp ← get_tf cur TF_ESP;
  fetchint cur (u32 (esp + 4 + 4 * n)).

Definition argptr (cur : nat) (n size : Z) : M mstate (option Z) :=
  r ← argint cur n;
  match r with
  | None => mret None
  | Some i =>
      p ← myproc cur;
      if (size <? 0) || (p_sz p <=? u32 i) || (p_sz p <? u32 (u32 i + size)) then mret None else
      mret (Some (u32 i))
  end.

Definition argstr (cur : nat) (n : Z) : M mstate (option (Z * Z)) :=
  r ← argint cur n;
  match r with
  | None => mret None
  | Some addr => fetchstr cur (u32 addr)
  end.

(** The characters of a string argument. *)
Definition argpath (cur : nat) (n : Z) : M mstate (option (list Z)) :=
  r ← argstr cur n;
  match r with
  | None => mret None
  | Some (addr, len) => bs ← load_user cur addr (Z.to_nat len); mret (Some bs)
  end.

(** ** User memory

    The byte at a user address, and an address space whose first [sz] bytes
    are mapped. *)
Definition ubyte (m : gmap Z (list Z)) (d va : Z) : Z := byteat m (tab (pte m d va) + va mod PGSIZE).
Definition ubytes (m : gmap Z (list Z)) (d va : Z) (n : nat) : list Z := ubyte m d <$> seqZ va (Z.of_nat n).
Definition user_mapped (m : gmap Z (list Z)) (d sz : Z) : Prop := forall va, 0 <= va < sz -> present (pte m d va) = true.

Lemma xlate_run m fl d va : present (pte m d va) = true ->
  xlate d va false (mk_vmstate m fl) = Ret (tab (pte m d va) + va mod PGSIZE) (mk_vmstate m fl).
Proof.
  unfold pte. destruct (present (pdi m d (PDX va))) eqn:E; [|done]. intros Hp. unfold xlate. rewrite (bind_Ret _ _ _ _ _ (ldw_run _ _ _ _)).
  fold (pdi m d (PDX va)). unfold present in *. rewrite E. cbn [negb andb orb]. rewrite (bind_Ret _ _ _ _ _ (ldw_run _ _ _ _)).
  fold (tab (pdi m d (PDX va))). rewrite Hp. done.
Qed.

Lemma uload_run m fl d n : forall va, 0 <= va -> va + Z.of_nat n <= 2 ^ 32 ->
  (forall a, va <= a < va + Z.of_nat n -> present (pte m d a) = true) ->
  uload d va n (mk_vmstate m fl) = Ret (ubytes m d va n) (mk_vmstate m fl).
Proof.
  induction n as [|n IH]; intros va Hva Hle Hm; [done|]. cbn [uload].
  rewrite (bind_Ret _ _ _ _ _ (xlate_run m fl d va (Hm va ltac:(lia)))). unfold ldb. rewrite bind_gets. cbn [v_mem].
  unfold ubytes. rewrite Nat2Z.inj_succ, seqZ_cons by lia. cbn [fmap list_fmap]. rewrite Z.pred_succ.
  destruct n as [|n]; [done|]. rewrite u32_small by lia.
  rewrite (bind_Ret _ _ _ _ _ (IH (va + 1) ltac:(lia) ltac:(lia) (fun a Ha => Hm a ltac:(lia)))). done.
Qed.

Lemma length_ubytes m d va n : length (ubytes m d va n) = n.
Proof. unfold ubytes. rewrite length_fmap, length_seqZ. lia. Qed.

Lemma liftv_Ret {A} (x : M vmstate A) (s : mstate) a v : x (m_vm s) = Ret a v -> liftv x s = Ret a (set_m_vm v s).
Proof. unfold liftv, lift. by intros ->. Qed.
Lemma set_m_vm_id s : set_m_vm (m_vm s) s = s.
Proof. by destruct s. Qed.

(** ** The checks *)
Section args.
Context (cur : nat) (s : mstate).
Notation p := (pr (m_pt s) cur).
Notation m := (v_mem (m_vm s)).
Notation d := (p_pgdir p).
Notation sz := (p_sz p).
Context (Hsz : 0 <= sz <= KERNBASE) (Hm : user_mapped m d sz).

Lemma load_user_run va n : 0 <= va -> va + Z.of_nat n <= sz -> load_user cur va n s = Ret (ubytes m d va n) s.
Proof using Hsz Hm.
  intros Hva Hle. unfold load_user, myproc. rewrite bind_gets. erewrite liftv_Ret; [by rewrite set_m_vm_id|].
  destruct (m_vm s) as [mm fl] eqn:E. cbn [v_mem] in *. apply uload_run; [done|lia|]. intros a Ha. apply Hm. lia.
Qed.

Definition int_at (a : Z) : option Z := if decide (a + 4 <= sz) then Some (s32 (le_dec (ubytes m d a 4))) else None.

Lemma fetchint_run a : 0 <= a < 2 ^ 32 -> fetchint cur a s = Ret (int_at a) s.
Proof using Hsz Hm.
  intros Ha. unfold fetchint, int_at. unfold myproc at 1. rewrite bind_gets.
  destruct (Z.leb_spec sz a) as [H1|H1]; cbn [orb]; [by rewrite decide_False by lia|].
  rewrite u32_small by lia. destruct (Z.ltb_spec sz (a + 4)) as [H2|H2]; [by rewrite decide_False by lia|]. rewrite decide_True by lia.
  by rewrite (bind_Ret _ _ _ _ _ (load_user_run a 4 ltac:(lia) ltac:(lia))).
Qed.

(** The length of the string at [a], if it ends before [sz]. *)
Definition strlen_at (a : Z) (o : option Z) : Prop :=
  match o with
  | Some len => 0 <= len /\ a + len < sz /\ ubyte m d (a + len) = 0 /\ forall i, a <= i < a + len -> ubyte m d i <> 0
  | None => forall i, a <= i < sz -> ubyte m d i <> 0
  end.

Lemma fetchstr_loop_run fuel a len : 0 <= a -> 0 <= len -> (forall i, a <= i < a + len -> ubyte m d i <> 0) ->
  a + len <= sz < a + len + Z.of_nat fuel -> exists o, fetchstr_loop fuel cur (a + len) sz len s = Ret o s /\ strlen_at a o.
Proof using Hsz Hm.
  revert len. induction fuel as [|fuel IH]; intros len Ha Hl Hn Hf; [lia|].
  cbn [fetchstr_loop]. destruct (Z.leb_spec sz (a + len)) as [H1|H1].
    - exists None. split; [done|]. intros i Hi. apply Hn. lia.
    - rewrite (bind_Ret _ _ _ _ _ (load_user_run (a + len) 1 ltac:(lia) ltac:(lia))).
      change (le_dec (ubytes m d (a + len) 1)) with (ubyte m d (a + len) + 256 * 0). rewrite Z.mul_0_r, Z.add_0_r.
      destruct (Z.eqb_spec (ubyte m d (a + len)) 0) as [E|E]; [exists (Some len); split; [done|]; split_and!; done|].
      replace (a + len + 1) with (a + (len + 1)) by lia. apply IH; [done|lia| |lia].
      intros i Hi. destruct (decide (i = a + len)) as [->|]; [done|]. apply Hn. lia.
Qed.

Lemma fetchstr_run a : 0 <= a -> exists o, fetchstr cur a s = Ret ((fun len => (a, len)) <$> o) s /\ strlen_at a o.
Proof using Hsz Hm.
  intros Ha. unfold fetchstr. unfold myproc at 1. rewrite bind_gets. destruct (Z.leb_spec sz a) as [H1|H1].
  - exists None. split; [done|]. intros i Hi. lia.
  - destruct (fetchstr_loop_run (S (Z.to_nat (sz - a))) a 0) as (o & E & Ho); [done|done|intros; lia|lia|]. rewrite Z.add_0_r in E.
    exists o. split; [|done]. rewrite (bind_Ret _ _ _ _ _ E). by destruct o.
Qed.

(** The address of the [n]th argument. *)
Definition arg_addr (n : Z) : Z := u32 (wordat m (p_tf p + TF_ESP) + 4 + 4 * n).

Lemma argint_run n : argint cur n s = Ret (int_at (arg_addr n)) s.
Proof using Hsz Hm.
  unfold argint, get_tf. rewrite bind_bind. unfold myproc at 1. rewrite bind_gets.
  erewrite bind_Ret; [|by apply liftv_Ret]. rewrite set_m_vm_id. apply fetchint_run, u32_range.
Qed.
End args.

(** C39: The kernel trusts nothing it gets from user space: for a process whose
    memory is mapped up to its size, and whatever 32-bit values are in its
    stack pointer and on its stack, fetching an argument returns without a
    fault and without changing the kernel's state; an integer is accepted
    exactly when its four bytes lie below the size of the process; a pointer
    accepted by [argptr] has all of its [size] bytes below the size, and
    every other one is rejected; a string accepted by [argstr] ends with a
    NUL below the size, and one is rejected only if there is no NUL. *)
Theorem args_checked cur s n size :
  let p := pr (m_pt s) cur in
  let m := v_mem (m_vm s) in
  0 <= p_sz p <= KERNBASE -> user_mapped m (p_pgdir p) (p_sz p) -> - 2 ^ 31 <= size < 2 ^ 31 ->
  let a := arg_addr cur s n in
  argint cur n s = Ret (int_at cur s a) s /\
  argptr cur n size s = Ret (x ← int_at cur s a; if decide (0 <= size /\ u32 x < p_sz p /\ u32 x + size <= p_sz p) then Some (u32 x) else None) s /\
  (exists r, argstr cur n s = Ret r s /\
    match int_at cur s a with
    | None => r = None
    | Some x => exists o, r = (fun len => (u32 x, len)) <$> o /\ strlen_at cur s (u32 x) o
    end).
Proof.
  intros p m Hsz Hm Hs a. pose proof (argint_run cur s Hsz Hm n) as E. fold a in E. split; [done|]. split.
  - unfold argptr. rewrite (bind_Ret _ _ _ _ _ E). destruct (int_at cur s a) as [x|]; [|done]. unfold myproc. rewrite bind_gets. fold p.
    cbn [mbind option_bind]. pose proof (u32_range x).
    destruct (Z.ltb_spec size 0); cbn [orb]; [by rewrite decide_False by lia|].
    destruct (Z.leb_spec (p_sz p) (u32 x)); cbn [orb]; [by rewrite decide_False by lia|].
    rewrite (u32_small (u32 x + size)) by lia. destruct (Z.ltb_spec (p_sz p) (u32 x + size)); [by rewrite decide_False by lia|].
    by rewrite decide_True by lia.
  - unfold argstr. rewrite (bind_Ret _ _ _ _ _ E). destruct (int_at cur s a) as [x|]; [|by exists None].
    destruct (fetchstr_run cur s Hsz Hm (u32 x)) as (o & Eo & Ho); [apply u32_range|]. exists ((fun len => (u32 x, len)) <$> o).
    split; [done|]. by exists o.
Qed.
