(* ===== verification/Process.v ===== *)
(** * Processes at work (proc.c, sysproc.c)

  The operations of proc.c on the whole kernel state.  [exit] returns the
  state in which the process leaves the CPU for good; [wait] and [sys_sleep]
  are one attempt, and waiting is the outcome [Sleep]. *)
From S2P Require Import Prelude Params Layout KState Driver Dll Bio Cache Log LogCrash CString FsBase FsAlloc Inode Ext2 Vfs Dir Pipe Kalloc Vm Proc Kernel File Syscall.

(** What the linker knows: the entry points [trapret] (trapasm.S) and
    [forkret], and the program initcode.S. *)
Class Symbols := {
  trapret : Z;
  forkret : Z;
  initcode : list Z
}.

Notation SEG_UCODE := 3 (only parsing).
Notation SEG_UDATA := 4 (only parsing).
Notation DPL_USER := 3 (only parsing).
Notation FL_IF := 0x200 (only parsing).
Notation sizeof_context := 20 (only parsing).
Notation CTX_EIP := 16 (only parsing).

Section process.
Context {LK : Linker} {DD : DiskDriver} {DS : Devsw} {KS : KStack} {SY : Symbols}.

(** [memset(p, 0, 4 * n)] on the words of a kernel stack. *)
Definition zero_words (a : Z) (n : nat) : M mstate unit := forM (seq 0 n) (fun i => liftv (stw (a + 4 * Z.of_nat i) 0)).

Definition allocproc : M mstate (option nat) :=
  t ← gets m_pt;
  match alloc_slot t with
  | None => mret None
  | Some (i, t') =>
      (if pt_nextpid t =? 2 ^ 31 - 1 then fault "nextpid++: overflow" else mret tt) ;;
      modify (set_m_pt t') ;;
      k ← liftv kalloc;
      updproc i (set_p_kstack k) ;;
      if k =? 0 then updproc i (set_p_state UNUSED) ;; mret None else
      let tf := k + KSTACKSIZE - sizeof_trapframe in
      updproc i (set_p_tf tf) ;;
      liftv (stw (tf - 4) trapret) ;;
      let context := tf - 4 - sizeof_context in
      updproc i (set_p_context context) ;;
      zero_words context 5 ;;
      liftv (stw (context + CTX_EIP) forkret) ;;
      mret (Some i)
  end.

(** [switchuvm]'s checks; what it loads into the processor is not state of
    the model. *)
Definition switchuvm (i : nat) : M mstate unit :=
  p ← myproc i;
  if p_kstack p =? 0 then panic "switchuvm: no kstack" else
  if p_pgdir p =? 0 then panic "switchuvm: no pgdir" else mret tt.

Definition userinit : M mstate unit :=
  np ← allocproc;
  i ← unwrap np "userinit: null pointer";
  table (fun t => mk_ptable (pt_proc t) (pt_nextpid t) (Some i)) ;;
  pgdir ← liftv setupkvm;
  updproc i (set_p_pgdir pgdir) ;;
  if pgdir =? 0 then panic "userinit: out of memory?" else
  liftv (inituvm pgdir initcode (Z.of_nat (length initcode))) ;;
  updproc i (set_p_sz PGSIZE) ;;
  p ← myproc i;
  zero_words (p_tf p) 19 ;;
  put_tf i TF_CS (Z.lor (Z.shiftl SEG_UCODE 3) DPL_USER) ;;
  put_tf i TF_DS (Z.lor (Z.shiftl SEG_UDATA 3) DPL_USER) ;;
  ds ← get_tf i TF_DS;
  put_tf i TF_ES ds ;;
  put_tf i TF_SS ds ;;
  put_tf i TF_EFLAGS FL_IF ;;
  put_tf i TF_ESP PGSIZE ;;
  put_tf i TF_EIP 0 ;;
  name ← unwrap (safestrcpy [105; 110; 105; 116; 99; 111; 100; 101; 0] 16) "safestrcpy";
  updproc i (fun p => set_p_name (splice (p_name p) 0 name) p) ;;
  root ← lift m_k set_m_k (namei [slash]);
  updproc i (set_p_cwd root) ;;
  updproc i (set_p_state RUNNABLE).

Definition growproc (cur : nat) (n : Z) : M mstate Z :=
  p ← myproc cur;
  sz ← (if 0 <? n then liftv (allocuvm (p_pgdir p) (p_sz p) (u32 (p_sz p + n)))
        else if n <? 0 then liftv (deallocuvm (p_pgdir p) (p_sz p) (u32 (p_sz p + n)))
        else mret (p_sz p));
  if negb (n =? 0) && (sz =? 0) then mret (-1) else
  updproc cur (set_p_sz sz) ;;
  switchuvm cur ;;
  mret 0.

(** [*np->tf = *curproc->tf] *)
Definition copy_tf (src dst : Z) : M mstate unit :=
  forM (seq 0 19) (fun i => x ← liftv (ldw (src + 4 * Z.of_nat i)); liftv (stw (dst + 4 * Z.of_nat i) x)).

(** [filedup] of the parent's files. *)
Definition dup_files (cur : nat) : M mstate unit :=
  forM (seq 0 (Z.to_nat NOFILE)) (fun fd =>
    c ← myproc cur;
    match mjoin (p_ofile c !! fd) with
    | Some f => filedup f ;; mret tt
    | None => mret tt
    end).

Definition fork (cur : nat) : M mstate Z :=
  np ← allocproc;
  match np with
  | None => mret (-1)
  | Some np =>
      c ← myproc cur;
      d ← liftv (copyuvm (p_pgdir c) (p_sz c));
      updproc np (set_p_pgdir d) ;;
      n ← myproc np;
      if d =? 0 then
        liftv (kfree (p_kstack n)) ;;
        table (fork_fail np) ;;
        mret (-1)
      else
      copy_tf (p_tf c) (p_tf n) ;;
      put_tf np TF_EAX 0 ;;
      dup_files cur ;;
      cwd ← unwrap (p_cwd c) "cwd: null pointer";
      runk cur (idup cwd) ;;
      name ← unwrap (safestrcpy (p_name c) 16) "safestrcpy";
      table (fork_copy cur np d name) ;;
      table (fork_ready np) ;;
      mret (p_pid n)
  end.

(** The loop of [exit] over the open files. *)
Definition close_files (cur : nat) : M mstate unit :=
  forM (seq 0 (Z.to_nat NOFILE)) (fun fd =>
    c ← myproc cur;
    match mjoin (p_ofile c !! fd) with
    | Some f => fileclose cur f ;; updproc cur (fun p => set_p_ofile (<[fd := None]> (p_ofile p)) p)
    | None => mret tt
    end).

Definition exit (cur : nat) : M mstate unit :=
  t ← gets m_pt;
  if bool_decide (pt_initproc t = Some cur) then panic "init exiting" else
  close_files cur ;;
  c ← myproc cur;
  cwd ← unwrap (p_cwd c) "cwd: null pointer";
  iput_txn cur cwd ;;
  updproc cur (set_p_cwd None) ;;
  table (exit_table cur).

Definition wait (cur : nat) : M mstate Z :=
  t ← gets m_pt;
  match wait_scan cur t with
  | WaitReap i =>
      p ← myproc i;
      liftv (kfree (p_kstack p)) ;;
      liftv (freevm (p_pgdir p)) ;;
      table (reap i) ;;
      mret (p_pid p)
  | WaitNone => mret (-1)
  | WaitSleep => sleep_on "wait"
  end.

Definition kill (pid : Z) : M mstate Z :=
  t ← gets m_pt;
  modify (set_m_pt (kill_table pid t).1) ;;
  mret (kill_table pid t).2.

(** ** sysproc.c *)
Definition sys_fork (cur : nat) : M mstate Z := fork cur.
Definition sys_exit (cur : nat) : M mstate Z := exit cur ;; mret 0.
Definition sys_wait (cur : nat) : M mstate Z := wait cur.
Definition sys_kill (cur : nat) : M mstate Z :=
  r ← argint cur 0;
  match r with
  | None => mret (-1)
  | Some pid => kill pid
  end.
Definition sys_getpid (cur : nat) : M mstate Z := p ← myproc cur; mret (p_pid p).
Definition sys_sbrk (cur : nat) : M mstate Z :=
  r ← argint cur 0;
  match r with
  | None => mret (-1)
  | Some n =>
      p ← myproc cur;
      g ← growproc cur n;
      if g <? 0 then mret (-1) else mret (s32 (p_sz p))
  end.
Definition sys_sleep (cur : nat) : M mstate Z :=
  r ← argint cur 0;
  match r with
  | None => mret (-1)
  | Some n =>
      p ← myproc cur;
      if 0 <? u32 n then if p_killed p then mret (-1) else sleep_on "ticks" else mret 0
  end.
Definition sys_uptime (cur : nat) : M mstate Z := t ← gets m_ticks; mret (s32 t).
End process.
