(* ===== verification/SysFile.v ===== *)
(** * File-system system calls (sysfile.c)

  Argument checking and the composition of the file, directory and log
  operations.  A local [char name[EXT2_NAME_LEN]] starts with what the stack
  holds ([stack_name]). *)
From S2P Require Import Prelude Params Layout KState Driver Dll Bio Cache Log LogCrash CString FsBase FsAlloc Inode Ext2 Vfs Dir Pipe Kalloc Vm Proc Kernel File Syscall.

(** ** Descriptors *)
Definition argfd (cur : nat) (n : Z) : M mstate (option (Z * nat)) :=
  r ← argint cur n;
  match r with
  | None => mret None
  | Some fd =>
      p ← myproc cur;
      if (fd <? 0) || (NOFILE <=? fd) then mret None else
      match mjoin (p_ofile p !! Z.to_nat fd) with
      | Some f => mret (Some (fd, f))
      | None => mret None
      end
  end.

Definition set_fd (cur : nat) (fd : nat) (f : option nat) : M mstate unit :=
  updproc cur (fun p => set_p_ofile (<[fd := f]> (p_ofile p)) p).

Definition fdalloc (cur : nat) (f : nat) : M mstate Z :=
  p ← myproc cur;
  match list_find (fun x => x = None) (p_ofile p) with
  | Some (fd, _) => set_fd cur fd (Some f) ;; mret (Z.of_nat fd)
  | None => mret (-1)
  end.

Section sysfile.
Context {LK : Linker} {DD : DiskDriver} {DS : Devsw} {KS : KStack}.

Definition sys_dup (cur : nat) : M mstate Z :=
  r ← argfd cur 0;
  match r with
  | None => mret (-1)
  | Some (_, f) =>
      fd ← fdalloc cur f;
      if fd <? 0 then mret (-1) else filedup f ;; mret fd
  end.

(** The arguments of [read] and [write]: file, buffer, size. *)
Definition rw_args (cur : nat) : M mstate (option (nat * Z * Z)) :=
  r ← argfd cur 0;
  match r with
  | None => mret None
  | Some (_, f) =>
      n ← argint cur 2;
      match n with
      | None => mret None
      | Some n =>
          p ← argptr cur 1 n;
          match p with
          | None => mret None
          | Some p => mret (Some (f, p, n))
          end
      end
  end.
Definition sys_read (cur : nat) : M mstate Z :=
  r ← rw_args cur;
  match r with
  | None => mret (-1)
  | Some (f, p, n) => fileread cur f p n
  end.
Definition sys_write (cur : nat) : M mstate Z :=
  r ← rw_args cur;
  match r with
  | None => mret (-1)
  | Some (f, p, n) => filewrite cur f p n
  end.

Definition sys_close (cur : nat) : M mstate Z :=
  r ← argfd cur 0;
  match r with
  | None => mret (-1)
  | Some (fd, f) => set_fd cur (Z.to_nat fd) None ;; fileclose cur f ;; mret 0
  end.

(** stat.h: [type] at 0, [dev] at 4, [ino] at 8, [nlink] at 12, [size] at 16. *)
Notation sizeof_stat := 20 (only parsing).
Definition put_stat (cur : nat) (a : Z) (st : stat) : M mstate unit :=
  store_user cur (a + 4) (le_enc 4 (st_dev_ st)) ;;
  store_user cur (a + 8) (le_enc 4 (st_ino st)) ;;
  store_user cur a (le_enc 2 (st_type st)) ;;
  store_user cur (a + 12) (le_enc 2 (st_nlink st)) ;;
  store_user cur (a + 16) (le_enc 4 (st_size_ st)).
Definition sys_fstat (cur : nat) : M mstate Z :=
  r ← argfd cur 0;
  match r with
  | None => mret (-1)
  | Some (_, f) =>
      p ← argptr cur 1 sizeof_stat;
      match p with
      | None => mret (-1)
      | Some p =>
          st ← filestat cur f;
          match st with
          | Some st => put_stat cur p st ;; mret 0
          | None => mret (-1)
          end
      end
  end.

(** ** Links *)
Definition end_with (cur : nat) (r : Z) : M mstate Z := runk cur end_op ;; mret r.

(** The label [bad] of [sys_link]. *)
Definition link_bad (ip : nat) : M kstate unit :=
  iops_ilock ip ;;
  updip ip (fun x => set_i_nlink (s16 (i_nlink x - 1)) x) ;;
  iops_iupdate ip ;;
  iops_iunlockput ip.

(** [sys_link] from [nameiparent] to the label [bad]: [dp]'s lock is taken
    and released through [ip]'s operations. *)
Definition link_into (ip : nat) (new : list Z) : M kstate bool :=
  r ← nameiparent new stack_name;
  match r.1 with
  | None => mret false
  | Some dp =>
      iops ip (ilock dp) (ext2_ilock dp) ;;
      d ← getip dp;
      x ← getip ip;
      ok ← (if i_dev d =? i_dev x then l ← iops_dirlink dp r.2 (i_inum x); mret (negb (l <? 0)) else mret false);
      iops ip (iunlockput dp) (iunlockput dp) ;;
      if (ok : bool) then iops_iput ip ;; mret true else mret false
  end.

Definition sys_link (cur : nat) : M mstate Z :=
  old ← argpath cur 0;
  new ← argpath cur 1;
  match old, new with
  | Some old, Some new =>
      runk cur begin_op ;;
      ip ← runpath cur (namei old);
      match ip with
      | None => end_with cur (-1)
      | Some ip =>
          runk cur (iops_ilock ip) ;;
          x ← runk cur (getip ip);
          if i_type x =? T_DIR then runk cur (iops_iunlockput ip) ;; end_with cur (-1) else
          runk cur (updip ip (fun x => set_i_nlink (s16 (i_nlink x + 1)) x) ;; iops_iupdate ip ;; iops_iunlock ip) ;;
          ok ← runpath cur (link_into ip new);
          if (ok : bool) then end_with cur 0 else runk cur (link_bad ip) ;; end_with cur (-1)
      end
  | _, _ => mret (-1)
  end.

(** [sys_unlink] between [begin_op] and [end_op]. *)
Definition unlink_path (path : list Z) : M kstate Z :=
  r ← nameiparent path stack_name;
  match r.1 with
  | None => mret (-1)
  | Some dp =>
      let name := r.2 in
      let bad := iops_iunlockput dp ;; mret (-1) in
      iops_ilock dp ;;
      c1 ← iops_namecmp dp name dot;
      c2 ← (if c1 =? 0 then mret 0 else iops_namecmp dp name dotdot);
      if c2 =? 0 then bad else
      e ← iops_dirlookup dp name;
      match e with
      | None => bad
      | Some (ip, off) =>
          iops_ilock ip ;;
          x ← getip ip;
          if i_nlink x <? 1 then panic "unlink: nlink < 1" else
          full ← (if i_type x =? T_DIR then b ← iops_isdirempty ip; mret (negb b) else mret false);
          if (full : bool) then iops_iunlockput ip ;; bad else
          iops_unlink dp off ;;
          x ← getip ip;
          (if i_type x =? T_DIR then
             updip dp (fun d => set_i_nlink (s16 (i_nlink d - 1)) d) ;; iops_iupdate dp
           else mret tt) ;;
          iops_iunlockput dp ;;
          updip ip (fun x => set_i_nlink (s16 (i_nlink x - 1)) x) ;;
          iops_iupdate ip ;;
          iops_iunlockput ip ;;
          mret 0
      end
  end.
Definition sys_unlink (cur : nat) : M mstate Z :=
  path ← argpath cur 0;
  match path with
  | None => mret (-1)
  | Some path =>
      runk cur begin_op ;;
      r ← runpath cur (unlink_path path);
      end_with cur r
  end.

(** ** Creating *)
Definition create_dots (ip dp : nat) : M kstate unit :=
  updip dp (fun d => set_i_nlink (s16 (i_nlink d + 1)) d) ;;
  iops_iupdate dp ;;
  x ← getip ip;
  r ← iops_dirlink ip dot (i_inum x);
  if r <? 0 then panic "create dots" else
  d ← getip dp;
  r ← iops_dirlink ip dotdot (i_inum d);
  if r <? 0 then panic "create dots" else mret tt.

Definition create (path : list Z) (type major minor : Z) : M kstate (option nat) :=
  r ← nameiparent path stack_name;
  match r.1 with
  | None => mret None
  | Some dp =>
      let name := r.2 in
      iops_ilock dp ;;
      e ← iops_dirlookup dp name;
      match e with
      | Some (ip, _) =>
          iops_iunlockput dp ;;
          iops_ilock ip ;;
          x ← getip ip;
          if (type =? T_FILE) && (i_type x =? T_FILE) then mret (Some ip) else
          iops_iunlockput ip ;; mret None
      | None =>
          d ← getip dp;
          ip ← iops_ialloc dp (i_dev d) type;
          iops_ilock ip ;;
          updip ip (fun x => set_i_nlink 1 (set_i_minor (s16 minor) (set_i_major (s16 major) x))) ;;
          iops_iupdate ip ;;
          (if type =? T_DIR then create_dots ip dp else mret tt) ;;
          x ← getip ip;
          r ← iops_dirlink dp name (i_inum x);
          if r <? 0 then panic "create: dirlink" else
          iops_iunlockput dp ;;
          mret (Some ip)
      end
  end.

(** The inode of [sys_open], locked, or an error. *)
Definition open_inode (path : list Z) (omode : Z) : M kstate (option nat) :=
  if negb (Z.land omode O_CREATE =? 0) then create path T_FILE 0 0 else
  r ← namei path;
  match r with
  | None => mret None
  | Some ip =>
      iops_ilock ip ;;
      x ← getip ip;
      if (i_type x =? T_DIR) && negb (omode =? O_RDONLY) then iops_iunlockput ip ;; mret None else mret (Some ip)
  end.

Definition open_fail (cur : nat) (ip : nat) : M mstate Z := runk cur (iops_iunlockput ip) ;; end_with cur (-1).

Definition sys_open (cur : nat) : M mstate Z :=
  path ← argpath cur 0;
  omode ← argint cur 1;
  match path, omode with
  | Some path, Some omode =>
      runk cur begin_op ;;
      r ← runpath cur (open_inode path omode);
      match r with
      | None => end_with cur (-1)
      | Some ip =>
          f ← filealloc;
          match f with
          | None => open_fail cur ip
          | Some f =>
              fd ← fdalloc cur f;
              if fd <? 0 then fileclose cur f ;; open_fail cur ip else
              runk cur (iops_iunlock ip) ;;
              runk cur end_op ;;
              updfile f (fun x => set_f_writable (negb (Z.land omode O_WRONLY =? 0) || negb (Z.land omode O_RDWR =? 0))
                (set_f_readable (Z.land omode O_WRONLY =? 0) (set_f_off 0 (set_f_ip ip (set_f_type FD_INODE x))))) ;;
              mret fd
          end
      end
  | _, _ => mret (-1)
  end.

Definition create_at (cur : nat) (path : list Z) (type major minor : Z) : M mstate Z :=
  r ← runpath cur (create path type major minor);
  match r with
  | None => end_with cur (-1)
  | Some ip => runk cur (iops_iunlockput ip) ;; end_with cur 0
  end.
Definition sys_mkdir (cur : nat) : M mstate Z :=
  runk cur begin_op ;;
  path ← argpath cur 0;
  match path with
  | None => end_with cur (-1)
  | Some path => create_at cur path T_DIR 0 0
  end.
Definition sys_mknod (cur : nat) : M mstate Z :=
  runk cur begin_op ;;
  path ← argpath cur 0;
  major ← argint cur 1;
  minor ← argint cur 2;
  match path, major, minor with
  | Some path, Some major, Some minor => create_at cur path T_DEV major minor
  | _, _, _ => end_with cur (-1)
  end.

Definition sys_chdir (cur : nat) : M mstate Z :=
  runk cur begin_op ;;
  path ← argpath cur 0;
  match path with
  | None => end_with cur (-1)
  | Some path =>
      r ← runpath cur (namei path);
      match r with
      | None => end_with cur (-1)
      | Some ip =>
          runk cur (iops_ilock ip) ;;
          x ← runk cur (getip ip);
          if negb (i_type x =? T_DIR) then runk cur (iops_iunlockput ip) ;; end_with cur (-1) else
          runk cur (iops_iunlock ip) ;;
          p ← myproc cur;
          cwd ← unwrap (p_cwd p) "cwd: null pointer";
          runk cur (iops_iput cwd) ;;
          runk cur end_op ;;
          updproc cur (set_p_cwd (Some ip)) ;;
          mret 0
      end
  end.

(** ** Pipes: the two descriptors, then [sys_pipe] *)
Definition pipe_fds (cur : nat) : M mstate (option (Z * Z)) :=
  r ← pipealloc cur;
  match r with
  | None => mret None
  | Some (rf, wf) =>
      fd0 ← fdalloc cur rf;
      fd1 ← (if fd0 <? 0 then mret (-1) else fdalloc cur wf);
      if (fd0 <? 0) || (fd1 <? 0) then
        (if 0 <=? fd0 then set_fd cur (Z.to_nat fd0) None else mret tt) ;;
        fileclose cur rf ;;
        fileclose cur wf ;;
        mret None
      else mret (Some (fd0, fd1))
  end.

Definition sys_pipe (cur : nat) : M mstate Z :=
  a ← argptr cur 0 8;
  match a with
  | None => mret (-1)
  | Some a =>
      r ← pipe_fds cur;
      match r with
      | None => mret (-1)
      | Some (fd0, fd1) =>
          store_user cur a (le_enc 4 fd0) ;;
          store_user cur (a + 4) (le_enc 4 fd1) ;;
          mret 0
      end
  end.
End sysfile.
