(* ===== verification/FileSpec.v ===== *)
(** * What the table of open files promises

  The reference count of every [struct file] is the number of descriptors
  that refer to it, and a pipe lives exactly as long as one of its ends is
  open. *)
From S2P Require Import Prelude Params Layout KState Driver Dll Bio Cache Log LogCrash CString FsBase FsAlloc Inode Ext2 Vfs Dir Pipe Kalloc Vm VmSpec Proc Kernel File Syscall Process SysFile.

(** ** Counting references *)
Definition occ (f : nat) (l : list (option nat)) : Z := Z.of_nat (length (filter (fun o => o = Some f) l)).
Definition refs (t : ptable) (f : nat) : Z := foldr (fun p z => occ f (p_ofile p) + z) 0 (pt_proc t).

Definition fd_val (o : option nat) (f : nat) : Z := if decide (o = Some f) then 1 else 0.

Lemma occ_nonneg f l : 0 <= occ f l.
Proof. unfold occ. lia. Qed.
Lemma occ_insert f l i o o' : l !! i = Some o -> occ f (<[i := o']> l) = occ f l - fd_val o f + fd_val o' f.
Proof.
  unfold occ, fd_val. revert i. induction l as [|a l IH]; intros [|i] H; simpl in *; simplify_eq.
  - rewrite !filter_cons. repeat destruct (decide _); simpl; lia.
  - rewrite !filter_cons. specialize (IH i H). repeat destruct (decide _); simpl; lia.
Qed.
Lemma occ_elem f l : 0 < occ f l <-> Some f ∈ l.
Proof.
  unfold occ. split.
  - intros H. destruct (filter (fun o => o = Some f) l) as [|o r] eqn:E; [simpl in H; lia|].
    assert (o ∈ filter (fun o => o = Some f) l) as [-> ?]%list_elem_of_filter by (rewrite E; by left). done.
  - intros H. assert (Some f ∈ filter (fun o => o = Some f) l) as Hin by (by apply list_elem_of_filter).
    destruct (filter _ l); [by apply elem_of_nil in Hin|simpl; lia].
Qed.

Lemma refs_nonneg t f : 0 <= refs t f.
Proof. unfold refs. induction (pt_proc t) as [|p l IH]; simpl; [lia|]. pose proof (occ_nonneg f (p_ofile p)). lia. Qed.
Lemma refs_upd t i g f : (i < length (pt_proc t))%nat ->
  refs (upd_proc i g t) f = refs t f - occ f (p_ofile (pr t i)) + occ f (p_ofile (g (pr t i))).
Proof.
  unfold refs, upd_proc, pr. simpl. revert i. induction (pt_proc t) as [|p l IH]; intros [|i] H; cbn [length] in H; [lia|lia|simpl; lia|].
  change (alter g (S i) (p :: l)) with (p :: alter g i l). change ((p :: l) !! S i) with (l !! i). cbn [foldr]. rewrite IH by lia. lia.
Qed.
Lemma refs_same t i g f : (forall p, p_ofile (g p) = p_ofile p) -> refs (upd_proc i g t) f = refs t f.
Proof.
  intros Hg. unfold refs, upd_proc. simpl. revert i. induction (pt_proc t) as [|p l IH]; intros [|i]; [done|done|simpl; by rewrite Hg|].
  change (alter g (S i) (p :: l)) with (p :: alter g i l). cbn [foldr]. by rewrite IH.
Qed.
Lemma refs_le t i f : occ f (p_ofile (pr t i)) <= refs t f.
Proof.
  unfold refs, pr. revert i. induction (pt_proc t) as [|p l IH]; intros i.
  - change (occ f (replicate (Z.to_nat NOFILE) None) <= 0). by vm_compute.
  - destruct i as [|i]; simpl.
    + assert (0 <= foldr (fun p z => occ f (p_ofile p) + z) 0 l); [|lia]. clear. induction l as [|q l IH]; simpl; [lia|]. pose proof (occ_nonneg f (p_ofile q)). lia.
    + specialize (IH i). pose proof (occ_nonneg f (p_ofile p)). lia.
Qed.

(** ** The invariant.  [ex f] is by how much the count of [f] differs from
    the number of descriptors in the middle of an operation. *)
Definition pipe_end (s : mstate) (a : Z) (w : bool) : Prop :=
  exists f x, m_ftable s !! f = Some x /\ f_type x = FD_PIPE /\ f_pipe x = a /\ f_writable x = w.
Definition end_open (w : bool) (pp : pipe) : bool := if w then writeopen pp else readopen pp.

Section filespec.
Context {LK : Linker} {DD : DiskDriver} {DS : Devsw} {KS : KStack}.

Record files_ok (ex : nat -> Z) (s : mstate) : Prop := {
  fl_len : length (m_ftable s) = Z.to_nat NFILE;
  fl_ofile : forall i, length (p_ofile (pr (m_pt s) i)) = Z.to_nat NOFILE;
  fl_ref : forall f x, m_ftable s !! f = Some x -> f_ref x = refs (m_pt s) f + ex f /\ 0 <= f_ref x;
  fl_none : forall f x, m_ftable s !! f = Some x -> f_ref x = 0 -> f_type x = FD_NONE;
  fl_fd : forall i f, Some f ∈ p_ofile (pr (m_pt s) i) -> (f < Z.to_nat NFILE)%nat;
  fl_pipe : forall f x, m_ftable s !! f = Some x -> f_type x = FD_PIPE ->
    f_readable x = negb (f_writable x) /\ exists pp, m_pipes s !! f_pipe x = Some pp /\ end_open (f_writable x) pp = true;
  fl_end : forall a pp, m_pipes s !! a = Some pp ->
    (forall w, end_open w pp = true -> pipe_end s a w) /\ exists w, end_open w pp = true;
  fl_uniq : forall f g x y, m_ftable s !! f = Some x -> m_ftable s !! g = Some y -> f_type x = FD_PIPE -> f_type y = FD_PIPE ->
    f_pipe x = f_pipe y -> f_writable x = f_writable y -> f = g;
  fl_mem : exists l, free_ok (m_vm s) l /\ forall a, is_Some (m_pipes s !! a) -> kpage a /\ a ∉ l
}.

(** Every open file, but for those in [F], is a pipe or an inode. *)
Definition typed (F : list nat) (s : mstate) : Prop :=
  forall f x, f ∉ F -> m_ftable s !! f = Some x -> f_ref x <> 0 -> f_type x <> FD_NONE.

(** Changes of the process table. *)
Lemma files_ok_pt ex ex' t s : files_ok ex s ->
  (forall i, length (p_ofile (pr t i)) = Z.to_nat NOFILE) ->
  (forall i f, Some f ∈ p_ofile (pr t i) -> (f < Z.to_nat NFILE)%nat) ->
  (forall f, (f < Z.to_nat NFILE)%nat -> refs t f + ex' f = refs (m_pt s) f + ex f) ->
  files_ok ex' (set_m_pt t s).
Proof.
  intros [H1 H2 H3 H4 H5 H6 H7 H8 H9] Hl Hf Hr. split; try done. intros f x Hx. simpl in *.
  destruct (H3 f x Hx) as [-> Hp]. apply lookup_lt_Some in Hx. rewrite Hr by lia. done.
Qed.

Lemma pr_upd_cases t i g j : pr (upd_proc i g t) j = pr t j \/ (j = i /\ pr (upd_proc i g t) j = g (pr t j)).
Proof.
  destruct (decide (i < length (pt_proc t))%nat) as [Hi|Hi].
  - rewrite pr_upd by done. destruct (decide (j = i)) as [->|]; auto.
  - left. unfold pr, upd_proc. simpl. destruct (decide (j = i)) as [->|Hj]; [|by rewrite list_lookup_alter_ne].
    rewrite list_lookup_alter_eq. by rewrite lookup_ge_None_2 by lia.
Qed.

(** A table whose processes have the same descriptors. *)
Lemma files_ok_same ex t s : files_ok ex s -> length (pt_proc t) = length (pt_proc (m_pt s)) ->
  (forall i, p_ofile (pr t i) = p_ofile (pr (m_pt s) i)) -> files_ok ex (set_m_pt t s).
Proof.
  intros H Hl Ho. apply (files_ok_pt ex); [done|intros; rewrite Ho; apply H|intros i f; rewrite Ho; apply H|].
  intros f _. f_equal. unfold refs, pr in *. revert Hl Ho. generalize (pt_proc t) (pt_proc (m_pt s)). clear.
  induction l as [|p l IH]; intros [|q l'] Hl Ho; simpl in *; try done. f_equal; [f_equal; exact (Ho 0%nat)|].
  apply IH; [lia|]. intros i. exact (Ho (S i)).
Qed.

Lemma files_ok_wakeup ex ch s : files_ok ex s -> files_ok ex (set_m_pt (wakeup1 ch (m_pt s)) s).
Proof.
  intros H. apply files_ok_same; [done|simpl; apply length_fmap|]. intros i. rewrite pr_wakeup1. unfold woken. by destruct (decide _).
Qed.

(** A new reference count for an entry. *)
Lemma files_ok_ref ex ex' f x r s : files_ok ex s -> m_ftable s !! f = Some x -> 0 <= r -> r = refs (m_pt s) f + ex' f ->
  (forall g, g <> f -> ex' g = ex g) -> (r = 0 -> f_type x = FD_NONE) ->
  files_ok ex' (set_m_ftable (alter (set_f_ref r) f (m_ftable s)) s).
Proof.
  intros [H1 H2 H3 H4 H5 H6 H7 H8 H9] Hx Hr Er Hex H0.
  assert (forall g y, alter (set_f_ref r) f (m_ftable s) !! g = Some y -> exists y0, m_ftable s !! g = Some y0 /\ f_type y = f_type y0 /\
    f_pipe y = f_pipe y0 /\ f_writable y = f_writable y0 /\ f_readable y = f_readable y0 /\ f_ref y = if decide (g = f) then r else f_ref y0) as Hl.
  { intros g y. destruct (decide (g = f)) as [->|Hg].
    - rewrite list_lookup_alter_eq, Hx. intros [= <-]. by exists x.
    - rewrite list_lookup_alter_ne by done. intros E. by exists y. }
  split; simpl; try done.
  - by rewrite length_alter.
  - intros g y (y0 & E & _ & _ & _ & _ & ->)%Hl. destruct (decide (g = f)) as [->|Hg]; [done|]. rewrite Hex by done. by apply H3.
  - intros g y (y0 & E & -> & _ & _ & _ & ->)%Hl. destruct (decide (g = f)) as [->|Hg]; [|by apply (H4 g)]. intros E0. simplify_eq. auto.
  - intros g y (y0 & E & -> & -> & -> & -> & _)%Hl. by apply (H6 g).
  - intros a pp Hpp. destruct (H7 a pp Hpp) as [A B]. split; [|done]. intros w Hw. destruct (A w Hw) as (g & y & Eg & ? & ? & ?).
    exists g. destruct (decide (g = f)) as [->|Hg].
    + exists (set_f_ref r y). simpl. rewrite list_lookup_alter_eq, Eg. done.
    + exists y. simpl. by rewrite list_lookup_alter_ne.
  - intros g h y z (y0 & E & -> & -> & -> & _)%Hl (z0 & E' & -> & -> & -> & _)%Hl. by apply (H8 g h).
Qed.

(** ** The operations of file.c *)
Definition bump (f : nat) (z : Z) (ex : nat -> Z) : nat -> Z := fun g => if decide (g = f) then ex g + z else ex g.
Lemma bump_same f z ex : bump f z ex f = ex f + z.
Proof. unfold bump. by rewrite decide_True. Qed.
Lemma bump_other f z ex g : g <> f -> bump f z ex g = ex g.
Proof. intros. unfold bump. by rewrite decide_False. Qed.

Definition with_ref (f : nat) (r : Z) (s : mstate) : mstate := set_m_ftable (alter (set_f_ref r) f (m_ftable s)) s.

Lemma filealloc_run ex s : files_ok ex s ->
  (filealloc s = Ret None s /\ forall f x, m_ftable s !! f = Some x -> f_ref x <> 0) \/
  exists f x, m_ftable s !! f = Some x /\ f_ref x = 0 /\ f_type x = FD_NONE /\
    filealloc s = Ret (Some f) (with_ref f 1 s) /\ files_ok (bump f 1 ex) (with_ref f 1 s).
Proof.
  intros H. unfold filealloc. rewrite bind_gets. destruct (list_find _ (m_ftable s)) as [[f x]|] eqn:E.
  - right. apply list_find_Some in E as (E & E0 & _). exists f, x. split_and!; try done; [by apply (fl_none _ _ H f)|].
    pose proof (fl_ref _ _ H f x E) as [Er _]. apply (files_ok_ref ex _ f x); try done; [rewrite bump_same; lia|intros; by apply bump_other].
  - left. split; [done|]. apply list_find_None in E. intros f x Hf. rewrite Forall_forall in E. apply E. by eapply list_elem_of_lookup_2.
Qed.

Lemma filedup_run ex s f x : files_ok ex s -> m_ftable s !! f = Some x -> 1 <= f_ref x ->
  filedup f s = Ret f (with_ref f (f_ref x + 1) s) /\ files_ok (bump f 1 ex) (with_ref f (f_ref x + 1) s).
Proof.
  intros H E Hr. pose proof (fl_ref _ _ H f x E) as [Er _]. split.
  - unfold filedup, getfile. rewrite bind_bind, bind_gets. rewrite (bind_unwrap _ x) by done. by rewrite (proj2 (Z.ltb_ge _ _)) by lia.
  - apply (files_ok_ref ex _ f x); try done; [lia|rewrite bump_same; lia|intros; by apply bump_other|lia].
Qed.

Lemma files_ok_k ex k s : files_ok ex s -> files_ok ex (set_m_k k s).
Proof. by intros [? ? ? ? ? ? ? ? ?]; split. Qed.

(** *** Dropping the inode of a file

    [iput_txn] returns when the transaction can start and the inode is not
    locked and not the last reference to an unlinked file, whose blocks
    [iput] frees. *)
Definition addrs_live (k : kstate) (ip : inode) : Prop :=
  match i_file_type ip, i_addrs ip with
  | Some inbuiltfs, AAddrs j => is_Some (k_iaddrs k !! j)
  | Some ext2fs, AExt2 j => is_Some (k_ext2_addrs k !! j)
  | _, _ => False
  end.
Record droppable (k : kstate) (i : nat) : Prop := {
  dp_start : log_committing (k_log k) = false /\ lh_n (k_log k) + (log_outstanding (k_log k) + 1) * MAXOPBLOCKS <= LOGSIZE;
  dp_idle : log_outstanding (k_log k) = 0 -> lh_n (k_log k) = 0;
  dp_ip : exists ip, k_icache k !! i = Some ip /\ lk_locked (i_lock ip) = false /\ addrs_live k ip /\
    i_valid ip && (i_nlink ip =? 0) && (i_ref ip =? 1) = false
}.
(** The number of references to entry [i] of the inode cache. *)
Definition irefs (k : kstate) (i : nat) : Z := default 0 (i_ref <$> k_icache k !! i).

(** [iput] and [ext2_iput] when there is nothing to free. *)
Lemma put_run k i ip (big fin : M kstate unit) : k_icache k !! i = Some ip -> lk_locked (i_lock ip) = false ->
  i_valid ip && (i_nlink ip =? 0) && (i_ref ip =? 1) = false ->
  (lk ← acquiresleep (i_lock ip);
   updip i (set_i_lock lk) ;;
   (if i_valid ip && (i_nlink ip =? 0) && (i_ref ip =? 1) then big else mret tt) ;;
   unlock_ip i ;;
   updip i (fun ip => set_i_ref (i_ref ip - 1) ip) ;;
   ip' ← getip i;
   if i_ref ip' =? 0 then fin else mret tt) k =
  (if i_ref ip - 1 =? 0 then fin else mret tt)
    (set_k_icache (<[i := set_i_ref (i_ref ip - 1) (set_i_lock (mk_sleeplock false 0) ip)]> (k_icache k)) k).
Proof.
  intros Hi Hl Hn. rewrite Hn. pose proof (lookup_lt_Some _ _ _ Hi) as Hlt.
  unfold acquiresleep. rewrite Hl, bind_bind, bind_gets. erewrite (bind_Ret _ _ k); [|reflexivity].
  rewrite (bind_Ret _ _ _ _ _ (updip_Some k i ip _ Hi)). erewrite (bind_Ret (mret tt)); [|reflexivity]. unfold unlock_ip.
  erewrite bind_Ret; [|apply updip_Some; simpl; by rewrite list_lookup_insert_eq].
  erewrite bind_Ret; [|apply updip_Some; simpl; by rewrite list_lookup_insert_eq by (by rewrite length_insert)].
  erewrite bind_Ret; [|apply getip_Some; simpl; by rewrite list_lookup_insert_eq by (by rewrite !length_insert)].
  simpl. rewrite !list_insert_insert_eq. by destruct k.
Qed.

Lemma iops_iput_run k i ip : k_icache k !! i = Some ip -> lk_locked (i_lock ip) = false -> addrs_live k ip ->
  i_valid ip && (i_nlink ip =? 0) && (i_ref ip =? 1) = false ->
  exists k', iops_iput i k = Ret tt k' /\ k_log k' = k_log k /\ irefs k' i = i_ref ip - 1.
Proof.
  intros Hi Hl Ha Hn. pose proof (lookup_lt_Some _ _ _ Hi) as Hlt. unfold iops_iput, iops, addrs_live in *.
  rewrite (bind_Ret _ _ _ _ _ (getip_Some k i ip Hi)). set (ip' := set_i_ref (i_ref ip - 1) (set_i_lock (mk_sleeplock false 0) ip)).
  assert (forall k', k_icache k' !! i = Some ip' -> k_log k' = k_log k -> forall f, (forall y, i_ref (f y) = i_ref y) ->
    exists k2, updip i f k' = Ret tt k2 /\ k_log k2 = k_log k /\ irefs k2 i = i_ref ip - 1) as Hup.
  { intros k' Hk El f Hf. rewrite (updip_Some _ _ _ _ Hk). eexists. split; [reflexivity|]. split; [done|]. unfold irefs. simpl.
    rewrite list_lookup_insert_eq by (by eapply lookup_lt_Some). simpl. by rewrite Hf. }
  destruct (i_file_type ip) as [[]|]; [| |done]; destruct (i_addrs ip) as [|j|j] eqn:Ea; try done; destruct Ha as [a Ha].
  - unfold iput. rewrite (bind_Ret _ _ _ _ _ (getip_Some k i ip Hi)). rewrite put_run by done. fold ip'. destruct (i_ref ip - 1 =? 0).
    + unfold upd_addrs. rewrite Ea, bind_bind, bind_gets. simpl k_iaddrs. rewrite Ha. cbn [unwrap]. rewrite bind_bind.
      erewrite (bind_Ret (mret a)); [|reflexivity]. rewrite bind_modify. apply Hup; [|done|done]. simpl. by rewrite list_lookup_insert_eq.
    + eexists. split; [reflexivity|]. split; [done|]. unfold irefs. simpl. by rewrite list_lookup_insert_eq.
  - unfold ext2_iput. rewrite (bind_Ret _ _ _ _ _ (getip_Some k i ip Hi)). rewrite put_run by done. fold ip'. destruct (i_ref ip - 1 =? 0).
    + unfold upd_ext2_addrs. rewrite Ea, bind_bind, bind_gets. simpl k_ext2_addrs. rewrite Ha. cbn [unwrap]. rewrite bind_bind.
      erewrite (bind_Ret (mret a)); [|reflexivity]. rewrite bind_modify. apply Hup; [|done|done]. simpl. by rewrite list_lookup_insert_eq.
    + eexists. split; [reflexivity|]. split; [done|]. unfold irefs. simpl. by rewrite list_lookup_insert_eq.
Qed.

Lemma end_op_idle k : log_committing (k_log k) = false -> (log_outstanding (k_log k) = 1 -> lh_n (k_log k) = 0) ->
  exists k', end_op k = Ret tt k' /\ k_icache k' = k_icache k.
Proof.
  intros Hc Hn. unfold end_op, updlog. run_steps. simpl. rewrite Hc. destruct (Z.eqb_spec (log_outstanding (k_log k) - 1) 0) as [E|E].
  - unfold commit. run_steps. simpl. rewrite Hn by lia. cbn [Z.ltb Z.compare]. run_steps. by eexists.
  - by eexists.
Qed.

Lemma iput_txn_run cur i s : droppable (m_k s) i ->
  exists k, iput_txn cur i s = Ret tt (set_m_k k s) /\ irefs k i = irefs (m_k s) i - 1.
Proof.
  intros [[D1 D2] D3 (ip & Hi & Hl & Ha & Hn)]. unfold iput_txn.
  assert (forall {A} (x : M kstate A) s a k', x (set_k_pid (p_pid (pr (m_pt s) cur)) (m_k s)) = Ret a k' -> runk cur x s = Ret a (set_m_k k' s)) as Hrun.
  { intros A x s0 a k' E. unfold runk, myproc. rewrite bind_gets. unfold lift. by rewrite E. }
  set (k0 := set_k_pid (p_pid (pr (m_pt s) cur)) (m_k s)).
  rewrite (bind_Ret _ _ _ _ _ (Hrun _ begin_op s tt _ (begin_op_spec k0 D1 D2))). set (k1 := set_k_log _ k0).
  destruct (iops_iput_run (set_k_pid (p_pid (pr (m_pt s) cur)) k1) i ip) as (k2 & E2 & L2 & R2); [done|done| |done|].
  { unfold addrs_live in *. done. }
  rewrite (bind_Ret _ _ _ _ _ (Hrun _ _ (set_m_k k1 s) _ _ E2)).
  destruct (end_op_idle (set_k_pid (p_pid (pr (m_pt s) cur)) k2)) as (k3 & E3 & I3).
  { simpl. by rewrite L2. }
  { simpl. rewrite L2. simpl. intros H. apply D3. simpl in H. lia. }
  exists k3. split; [exact (Hrun _ _ (set_m_k k2 (set_m_k k1 s)) _ _ E3)|].
  unfold irefs in *. rewrite I3. simpl. rewrite R2, Hi. done.
Qed.

(** An entry that is closed for good. *)
Definition closed_file (x : file) : file := set_f_type FD_NONE (set_f_ref 0 x).
Definition with_closed (f : nat) (s : mstate) : mstate := set_m_ftable (alter closed_file f (m_ftable s)) s.

Lemma closed_lookup s f x g y : m_ftable s !! f = Some x -> m_ftable (with_closed f s) !! g = Some y ->
  (g = f /\ y = closed_file x) \/ (g <> f /\ m_ftable s !! g = Some y).
Proof.
  intros Hx. simpl. destruct (decide (g = f)) as [->|Hg].
  - rewrite list_lookup_alter_eq, Hx. intros [= <-]. auto.
  - rewrite list_lookup_alter_ne by done. auto.
Qed.
Lemma closed_end s f x a w : m_ftable s !! f = Some x -> (f_type x = FD_PIPE -> f_pipe x = a -> f_writable x <> w) ->
  pipe_end s a w -> pipe_end (with_closed f s) a w.
Proof.
  intros Hx Hne (g & y & Hy & Ht & Hp & Hw). assert (g <> f) as Hg by (intros ->; simplify_eq; by apply Hne).
  exists g, y. simpl. by rewrite list_lookup_alter_ne.
Qed.

(** Closing the last reference of a file that is not a pipe. *)
Lemma files_ok_closed ex s f x : files_ok ex s -> m_ftable s !! f = Some x -> f_ref x = 1 -> f_type x <> FD_PIPE ->
  files_ok (bump f (-1) ex) (with_closed f s).
Proof.
  intros H Hx Hr Ht. pose proof H as [H1 H2 H3 H4 H5 H6 H7 H8 H9]. destruct (H3 f x Hx) as [Er _].
  split; try done.
  - simpl. by rewrite length_alter.
  - intros g y [[-> ->]|[Hg Hy]]%(closed_lookup _ _ _ _ _ Hx); simpl; [rewrite bump_same; lia|rewrite bump_other by done; by apply H3].
  - intros g y [[-> ->]|[Hg Hy]]%(closed_lookup _ _ _ _ _ Hx); [done|by apply (H4 g)].
  - intros g y [[-> ->]|[Hg Hy]]%(closed_lookup _ _ _ _ _ Hx); [done|by apply (H6 g)].
  - intros a pp Hpp. destruct (H7 a pp Hpp) as [A B]. split; [|done]. intros w Hw. apply (closed_end s f x); [done|done|auto].
  - intros g h y z [[-> ->]|[Hg Hy]]%(closed_lookup _ _ _ _ _ Hx) [[-> ->]|[Hh Hz]]%(closed_lookup _ _ _ _ _ Hx); try done. by apply (H8 g h).
Qed.

Lemma end_open_closed w pp w' : end_open w' (pipeclose w pp).1 = if decide (w' = w) then false else end_open w' pp.
Proof. by destruct w, w'. Qed.
Lemma pipeclose_freed w pp : (pipeclose w pp).2 = negb (end_open (negb w) pp).
Proof. unfold pipeclose, end_open. destruct w; simpl; [by rewrite andb_true_r|done]. Qed.

(** Closing the last reference of an end of a pipe: [P] are the pipes
    afterwards and [v] the memory. *)
Lemma files_ok_pipe_closed ex s f x pp P v : files_ok ex s -> m_ftable s !! f = Some x -> f_ref x = 1 -> f_type x = FD_PIPE ->
  m_pipes s !! f_pipe x = Some pp ->
  P = (if end_open (negb (f_writable x)) pp then <[f_pipe x := (pipeclose (f_writable x) pp).1]> (m_pipes s) else delete (f_pipe x) (m_pipes s)) ->
  (exists l, free_ok v l /\ forall a, is_Some (P !! a) -> kpage a /\ a ∉ l) ->
  files_ok (bump f (-1) ex) (set_m_vm v (set_m_pipes P (with_closed f s))).
Proof.
  intros H Hx Hr Ht Hpp EP Hv. pose proof H as [H1 H2 H3 H4 H5 H6 H7 H8 H9]. destruct (H3 f x Hx) as [Er _].
  set (a := f_pipe x) in *. set (w := f_writable x) in *.
  assert (forall b, b <> a -> P !! b = m_pipes s !! b) as HPo.
  { intros b Hb. rewrite EP. destruct (end_open _ pp); [by rewrite lookup_insert_ne|by rewrite lookup_delete_ne]. }
  assert (forall qq, P !! a = Some qq -> end_open (negb w) pp = true /\ qq = (pipeclose w pp).1) as HPa.
  { intros qq. rewrite EP. destruct (end_open (negb w) pp) eqn:E; [rewrite lookup_insert_eq; by intros [= <-]|by rewrite lookup_delete_eq]. }
  split; try done.
  - simpl. by rewrite length_alter.
  - intros g y [[-> ->]|[Hg Hy]]%(closed_lookup _ _ _ _ _ Hx); simpl; [rewrite bump_same; lia|rewrite bump_other by done; by apply H3].
  - intros g y [[-> ->]|[Hg Hy]]%(closed_lookup _ _ _ _ _ Hx); [done|by apply (H4 g)].
  - intros g y [[-> ->]|[Hg Hy]]%(closed_lookup _ _ _ _ _ Hx) Hty; [done|]. destruct (H6 g y Hy Hty) as [Erd (qq & Hq & Ho)]. split; [done|].
    simpl. destruct (decide (f_pipe y = a)) as [Ea|Ea]; [|exists qq; by rewrite HPo].
    assert (f_writable y = negb w) as Ew.
    { destruct (decide (f_writable y = w)) as [Ew|]; [destruct Hg; by apply (H8 g f y x)|]. destruct (f_writable y), w; done. }
    rewrite Ea in *. simplify_eq. rewrite Ew in Ho. rewrite Ho. exists (pipeclose w pp).1. rewrite lookup_insert_eq. split; [done|].
    rewrite Ew, end_open_closed, decide_False by (by destruct w). done.
  - intros b qq. simpl. destruct (decide (b = a)) as [->|Hb].
    + intros [Eo ->]%HPa. split; [|exists (negb w); rewrite end_open_closed, decide_False by (by destruct w); done].
      intros w'. rewrite end_open_closed. destruct (decide (w' = w)) as [->|Hw]; [done|]. intros Ho.
      change (pipe_end (with_closed f s) a w'). apply (closed_end s f x); [done|intros _ _ E; by destruct Hw|]. by apply (H7 a pp).
    + rewrite HPo by done. intros Hq. destruct (H7 b qq Hq) as [A B]. split; [|done]. intros w' Hw'.
      change (pipe_end (with_closed f s) b w'). apply (closed_end s f x); [done|intros _ E; by destruct Hb|auto].
  - intros g h y z [[-> ->]|[Hg Hy]]%(closed_lookup _ _ _ _ _ Hx) [[-> ->]|[Hh Hz]]%(closed_lookup _ _ _ _ _ Hx); try done. by apply (H8 g h).
Qed.

Lemma pipe_close_run ex s f x : files_ok ex s -> m_ftable s !! f = Some x -> f_ref x = 1 -> f_type x = FD_PIPE ->
  exists s', pipe_close (f_pipe x) (f_writable x) (with_closed f s) = Ret tt s' /\ files_ok (bump f (-1) ex) s' /\
    m_ftable s' = m_ftable (with_closed f s) /\ (forall i, p_ofile (pr (m_pt s') i) = p_ofile (pr (m_pt s) i)).
Proof.
  intros H Hx Hr Ht. destruct (fl_pipe _ _ H f x Hx Ht) as [_ (pp & Hpp & _)]. destruct (fl_mem _ _ H) as (l & Fl & Hl).
  set (a := f_pipe x) in *. set (w := f_writable x) in *. set (ch := if w then ChanNread a else ChanNwrite a).
  assert (forall i, p_ofile (pr (wakeup1 (Some ch) (m_pt s)) i) = p_ofile (pr (m_pt s) i)) as Hof.
  { intros i. rewrite pr_wakeup1. unfold woken. by destruct (decide _). }
  assert (forall s1, files_ok (bump f (-1) ex) s1 -> m_pt s1 = m_pt s -> files_ok (bump f (-1) ex) (set_m_pt (wakeup1 (Some ch) (m_pt s)) s1)) as Hwk.
  { intros s1 H1 <-. by apply files_ok_wakeup. }
  assert (forall s1 v P, set_m_pipes P (set_m_pt v s1) = set_m_pt v (set_m_pipes P s1)) as Hc1 by (by intros []).
  assert (forall s1 v P, set_m_vm P (set_m_pt v s1) = set_m_pt v (set_m_vm P s1)) as Hc2 by (by intros []).
  unfold pipe_close, getpipe. rewrite bind_bind, bind_gets. rewrite (bind_unwrap _ pp) by done. unfold wakeup, table. rewrite bind_modify.
  fold ch. rewrite pipeclose_freed. destruct (end_open (negb w) pp) eqn:Eo; cbn [negb].
  - eexists. split; [reflexivity|]. split; [|split; [done|exact Hof]].
    rewrite Hc1. apply Hwk; [|done].
    assert (forall v s2, v = m_vm s2 -> s2 = set_m_vm v s2) as Hid by (intros v [] ->; done).
    rewrite (Hid (m_vm s) (set_m_pipes _ _)) by done. apply (files_ok_pipe_closed ex s f x pp); try done; [by fold a w; rewrite Eo|].
    exists l. split; [done|]. intros b. destruct (decide (b = a)) as [->|]; [intros _; apply Hl; by eexists|]. rewrite lookup_insert_ne by done. apply Hl.
  - rewrite bind_modify. destruct (Hl a ltac:(by eexists)) as [Ka Na]. destruct (kfree_spec (m_vm s) l a Fl Ka Na) as (v & Ek & Fv & _).
    eexists. split; [by apply liftv_Ret|]. split; [|split; [done|exact Hof]].
    rewrite Hc1, Hc2. apply Hwk; [|done].
    apply (files_ok_pipe_closed ex s f x pp); try done; [by fold a w; rewrite Eo|].
    exists (a :: l). split; [done|]. intros b. destruct (decide (b = a)) as [->|Hb]; [rewrite lookup_delete_eq; by intros []|].
    rewrite lookup_delete_ne by done. intros [? ?]%Hl. split; [done|]. by apply not_elem_of_cons.
Qed.

Definition same_fds (s s' : mstate) : Prop := forall i, p_ofile (pr (m_pt s') i) = p_ofile (pr (m_pt s) i).

(** The last reference. *)
Lemma fileclose_last cur s f x : m_ftable s !! f = Some x -> f_ref x = 1 ->
  fileclose cur f s =
    (match f_type x with
     | FD_PIPE => pipe_close (f_pipe x) (f_writable x)
     | FD_INODE => iput_txn cur (f_ip x)
     | FD_NONE => mret tt
     end) (with_closed f s).
Proof.
  intros Hx E1. unfold fileclose, getfile, updfile. rewrite bind_bind, bind_gets. rewrite (bind_unwrap _ x) by done. rewrite E1.
  change (1 <? 1) with false. change (0 <? 1 - 1) with false. cbv iota. rewrite bind_modify, bind_bind, bind_gets. cbn [m_ftable set_m_ftable].
  rewrite list_lookup_alter_eq, Hx. rewrite (bind_unwrap _ (set_f_ref (1 - 1) x)) by done. rewrite bind_modify.
  assert (alter (fun x => set_f_type FD_NONE (set_f_ref 0 x)) f (alter (set_f_ref (1 - 1)) f (m_ftable s)) = alter closed_file f (m_ftable s)) as Ea.
  { apply list_eq. intros g. destruct (decide (g = f)) as [->|]; [|by rewrite !list_lookup_alter_ne].
    rewrite !list_lookup_alter_eq. by destruct (m_ftable s !! f). }
  assert (set_m_ftable (alter (fun x => set_f_type FD_NONE (set_f_ref 0 x)) f (alter (set_f_ref (1 - 1)) f (m_ftable s)))
    (set_m_ftable (alter (set_f_ref (1 - 1)) f (m_ftable s)) s) = with_closed f s) as Es by (rewrite Ea; by destruct s).
  cbn [m_ftable set_m_ftable] in Es |- *. rewrite Es. done.
Qed.

Lemma fileclose_run ex cur s f x : files_ok ex s -> m_ftable s !! f = Some x -> 1 <= f_ref x ->
  (f_ref x = 1 -> f_type x = FD_INODE -> droppable (m_k s) (f_ip x)) ->
  exists s', fileclose cur f s = Ret tt s' /\ files_ok (bump f (-1) ex) s' /\ same_fds s s' /\
    (f_ref x = 1 -> f_type x = FD_INODE -> irefs (m_k s') (f_ip x) = irefs (m_k s) (f_ip x) - 1) /\
    m_ftable s' = m_ftable (if f_ref x =? 1 then with_closed f s else with_ref f (f_ref x - 1) s).
Proof.
  intros H Hx Hr Hi. pose proof (fl_ref _ _ H f x Hx) as [Er _].
  destruct (Z.eqb_spec (f_ref x) 1) as [E1|E1].
  2:{ exists (with_ref f (f_ref x - 1) s). split; [|split; [|split_and!; by try intros]].
    - unfold fileclose, getfile, updfile. rewrite bind_bind, bind_gets. rewrite (bind_unwrap _ x) by done.
      rewrite (proj2 (Z.ltb_ge _ _)) by lia. rewrite bind_modify. by rewrite (proj2 (Z.ltb_lt _ _)) by lia.
    - apply (files_ok_ref ex _ f x); try done; [lia|rewrite bump_same; lia|intros; by apply bump_other|lia]. }
  rewrite (fileclose_last cur s f x Hx E1). destruct (f_type x) eqn:Et.
  - exists (with_closed f s). split; [done|]. split; [|done]. apply (files_ok_closed ex s f x); try done. congruence.
  - destruct (pipe_close_run ex s f x H Hx E1 Et) as (s' & E & Ok & Eft & Hof). exists s'. by split_and!.
  - destruct (iput_txn_run cur (f_ip x) (with_closed f s) (Hi E1 eq_refl)) as (k & E & Er'). exists (set_m_k k (with_closed f s)).
    split; [exact E|]. split; [|by split_and!]. apply files_ok_k, (files_ok_closed ex s f x); try done. congruence.
Qed.

(** Which files have a type, after these operations. *)
Lemma typed_ref F f x r s : typed F s -> m_ftable s !! f = Some x -> (f_ref x <> 0 \/ f ∈ F) -> typed F (with_ref f r s).
Proof.
  intros H Hx Hr g y Hg. simpl. destruct (decide (g = f)) as [->|Hne].
  - rewrite list_lookup_alter_eq, Hx. intros [= <-] _. simpl. destruct Hr as [Hr|]; [by apply (H f)|done].
  - rewrite list_lookup_alter_ne by done. by apply H.
Qed.
Lemma typed_new F f r s : typed F s -> typed (f :: F) (with_ref f r s).
Proof.
  intros H g y [Hne Hg]%not_elem_of_cons. simpl. rewrite list_lookup_alter_ne by done. by apply H.
Qed.
Lemma typed_closed F f x s : typed (f :: F) s -> m_ftable s !! f = Some x -> typed F (with_closed f s).
Proof.
  intros H Hx g y Hg. simpl. destruct (decide (g = f)) as [->|Hne].
  - rewrite list_lookup_alter_eq, Hx. intros [= <-] Hr. done.
  - rewrite list_lookup_alter_ne by done. apply H. by apply not_elem_of_cons.
Qed.
Lemma typed_ftable F s s' : typed F s -> m_ftable s' = m_ftable s -> typed F s'.
Proof. intros H E f x. rewrite E. apply H. Qed.

(** ** Descriptors *)
Definition with_fd (cur fd : nat) (o : option nat) (s : mstate) : mstate :=
  set_m_pt (upd_proc cur (fun p => set_p_ofile (<[fd := o]> (p_ofile p)) p) (m_pt s)) s.

Lemma files_ok_fd ex ex' cur fd o o' s : files_ok ex s -> (cur < length (pt_proc (m_pt s)))%nat ->
  p_ofile (pr (m_pt s) cur) !! fd = Some o -> (forall f, o' = Some f -> (f < Z.to_nat NFILE)%nat) ->
  (forall g, ex' g = ex g + fd_val o g - fd_val o' g) -> files_ok ex' (with_fd cur fd o' s).
Proof.
  intros H Hc Ho Hb Hex. apply (files_ok_pt ex); [done|..].
  - intros i. destruct (pr_upd_cases (m_pt s) cur (fun p => set_p_ofile (<[fd := o']> (p_ofile p)) p) i) as [->|[-> ->]]; [apply H|].
    simpl. rewrite length_insert. apply H.
  - intros i f. destruct (pr_upd_cases (m_pt s) cur (fun p => set_p_ofile (<[fd := o']> (p_ofile p)) p) i) as [->|[-> ->]]; [apply H|].
    simpl. intros (j & Hj)%list_elem_of_lookup. apply list_lookup_insert_Some in Hj as [(_ & E & _)|(_ & Hj)]; [by apply Hb|].
    apply (fl_fd _ _ H cur). by eapply list_elem_of_lookup_2.
  - intros f _. rewrite refs_upd by done. simpl. rewrite (occ_insert f _ fd o o') by done. rewrite Hex. lia.
Qed.

Lemma set_fd_run cur fd o s : set_fd cur fd o s = Ret tt (with_fd cur fd o s).
Proof. done. Qed.

Lemma fdalloc_run ex cur f s : files_ok ex s -> (cur < length (pt_proc (m_pt s)))%nat -> (f < Z.to_nat NFILE)%nat ->
  (fdalloc cur f s = Ret (-1) s /\ None ∉ p_ofile (pr (m_pt s) cur)) \/
  exists fd, p_ofile (pr (m_pt s) cur) !! fd = Some None /\ fdalloc cur f s = Ret (Z.of_nat fd) (with_fd cur fd (Some f) s) /\
    files_ok (bump f (-1) ex) (with_fd cur fd (Some f) s).
Proof.
  intros H Hc Hf. unfold fdalloc, myproc. rewrite bind_gets. destruct (list_find _ (p_ofile (pr (m_pt s) cur))) as [[fd o]|] eqn:E.
  - apply list_find_Some in E as (E & -> & _). right. exists fd. split; [done|]. split; [done|].
    apply (files_ok_fd ex _ cur fd None (Some f)); try done; [by intros g [= <-]|]. intros g. unfold bump, fd_val.
    repeat destruct (decide _); simplify_eq; lia.
  - left. split; [done|]. apply list_find_None in E. rewrite Forall_forall in E. intros Hn. by apply (E None).
Qed.

(** ** [pipealloc] *)
Definition with_pipe (p : Z) (d : list Z) (v : vmstate) (f0 f1 : nat) (s : mstate) : mstate :=
  set_m_ftable (alter (pipe_file p true) f1 (alter (pipe_file p false) f0 (m_ftable s)))
    (set_m_pipes (<[p := pipe_init d]> (m_pipes s)) (set_m_vm v s)).

Lemma with_pipe_lookup p d v f0 f1 x0 x1 s g y : m_ftable s !! f0 = Some x0 -> m_ftable s !! f1 = Some x1 -> f0 <> f1 ->
  m_ftable (with_pipe p d v f0 f1 s) !! g = Some y ->
  (g = f0 /\ y = pipe_file p false x0) \/ (g = f1 /\ y = pipe_file p true x1) \/ (g <> f0 /\ g <> f1 /\ m_ftable s !! g = Some y).
Proof.
  intros H0 H1 Hne. simpl. destruct (decide (g = f1)) as [->|Hg1]; [|destruct (decide (g = f0)) as [->|Hg0]].
  - rewrite list_lookup_alter_eq, list_lookup_alter_ne, H1 by done. intros [= <-]. auto.
  - rewrite list_lookup_alter_ne, list_lookup_alter_eq, H0 by done. intros [= <-]. auto.
  - rewrite !list_lookup_alter_ne by done. auto.
Qed.

Lemma files_ok_pipe_new ex s p d v l f0 f1 x0 x1 : files_ok ex s -> m_ftable s !! f0 = Some x0 -> m_ftable s !! f1 = Some x1 -> f0 <> f1 ->
  f_type x0 = FD_NONE -> f_type x1 = FD_NONE -> f_ref x0 <> 0 -> f_ref x1 <> 0 ->
  m_pipes s !! p = None -> kpage p -> p ∉ l -> free_ok v l -> (forall a, is_Some (m_pipes s !! a) -> kpage a /\ a ∉ l) ->
  files_ok ex (with_pipe p d v f0 f1 s).
Proof.
  intros H H0 H1 Hne T0 T1 R0 R1 Hp Kp Np Fl Hl. pose proof H as [A1 A2 A3 A4 A5 A6 A7 A8 A9].
  assert (forall g y, m_ftable s !! g = Some y -> f_type y = FD_PIPE -> f_pipe y <> p) as Hnp.
  { intros g y Hy Ht E. destruct (A6 g y Hy Ht) as [_ (pp & E' & _)]. congruence. }
  pose proof (fun g y => with_pipe_lookup p d v f0 f1 x0 x1 s g y H0 H1 Hne) as HL.
  assert (forall w, pipe_end (with_pipe p d v f0 f1 s) p w) as Hnew.
  { intros [|]; [exists f1, (pipe_file p true x1)|exists f0, (pipe_file p false x0)]; simpl.
    - by rewrite list_lookup_alter_eq, list_lookup_alter_ne, H1.
    - by rewrite list_lookup_alter_ne, list_lookup_alter_eq, H0. }
  split; try done.
  - simpl. by rewrite !length_alter.
  - intros g y [[-> ->]|[[-> ->]|(_ & _ & Hy)]]%HL; [exact (A3 f0 x0 H0)|exact (A3 f1 x1 H1)|exact (A3 g y Hy)].
  - intros g y [[-> ->]|[[-> ->]|(_ & _ & Hy)]]%HL; [done|done|by apply (A4 g)].
  - intros g y [[-> ->]|[[-> ->]|(_ & _ & Hy)]]%HL Ht; simpl.
    + split; [done|]. exists (pipe_init d). by rewrite lookup_insert_eq.
    + split; [done|]. exists (pipe_init d). by rewrite lookup_insert_eq.
    + destruct (A6 g y Hy Ht) as [? (pp & E & ?)]. split; [done|]. exists pp. by rewrite lookup_insert_ne by (intros E'; by apply (Hnp g y)).
  - intros a pp. simpl. destruct (decide (a = p)) as [->|Ha].
    + rewrite lookup_insert_eq. intros [= <-]. split; [done|]. by exists true.
    + rewrite lookup_insert_ne by done. intros Hpp. destruct (A7 a pp Hpp) as [B C]. split; [|done]. intros w Hw.
      destruct (B w Hw) as (g & y & Hy & Ht & Ea & Ew). exists g, y. simpl.
      assert (g <> f0) by (intros ->; congruence). assert (g <> f1) by (intros ->; congruence). by rewrite !list_lookup_alter_ne.
  - intros g h y z [[-> ->]|[[-> ->]|(_ & _ & Hy)]]%HL [[-> ->]|[[-> ->]|(_ & _ & Hz)]]%HL; simpl; try done.
    + intros _ Ht E. by destruct (Hnp h z Hz Ht).
    + intros _ Ht E. by destruct (Hnp h z Hz Ht).
    + intros Ht _ E. by destruct (Hnp g y Hy Ht).
    + intros Ht _ E. by destruct (Hnp g y Hy Ht).
    + by apply (A8 g h).
  - exists l. split; [done|]. intros a. simpl. destruct (decide (a = p)) as [->|]; [done|]. rewrite lookup_insert_ne by done. apply Hl.
Qed.

Lemma files_ok_ext ex ex' s : (forall g, ex' g = ex g) -> files_ok ex s -> files_ok ex' s.
Proof. intros E [? ? H3 ? ? ? ? ? ?]; split; try done. intros f x Hx. rewrite E. by apply H3. Qed.
Lemma bump_bump f z z' ex g : z + z' = 0 -> bump f z' (bump f z ex) g = ex g.
Proof. intros. unfold bump. destruct (decide _); lia. Qed.

(** A file just allocated is closed again. *)
Lemma fileclose_new ex F cur s f x : files_ok ex s -> m_ftable s !! f = Some x -> f_ref x = 1 -> f_type x = FD_NONE -> typed (f :: F) s ->
  fileclose cur f s = Ret tt (with_closed f s) /\ files_ok (bump f (-1) ex) (with_closed f s) /\ typed F (with_closed f s).
Proof.
  intros H Hx Hr Ht HT. split; [|split; [apply (files_ok_closed ex s f x); congruence|by apply (typed_closed F f x)]].
  rewrite (fileclose_last cur s f x Hx Hr). by rewrite Ht.
Qed.

Lemma with_ref_at f r s x : m_ftable s !! f = Some x -> m_ftable (with_ref f r s) !! f = Some (set_f_ref r x).
Proof. intros E. simpl. by rewrite list_lookup_alter_eq, E. Qed.
Lemma with_ref_ne f r s g : g <> f -> m_ftable (with_ref f r s) !! g = m_ftable s !! g.
Proof. intros. simpl. by rewrite list_lookup_alter_ne. Qed.
Lemma with_closed_ne f s g : g <> f -> m_ftable (with_closed f s) !! g = m_ftable s !! g.
Proof. intros. simpl. by rewrite list_lookup_alter_ne. Qed.

Lemma pipealloc_run ex cur s : files_ok ex s -> typed [] s ->
  (exists s', pipealloc cur s = Ret None s' /\ files_ok ex s' /\ typed [] s' /\ same_fds s s' /\ m_pipes s' = m_pipes s /\ length (pt_proc (m_pt s')) = length (pt_proc (m_pt s))) \/
  (exists s' f0 f1 p d x0 x1, pipealloc cur s = Ret (Some (f0, f1)) s' /\ f0 <> f1 /\ files_ok (bump f1 1 (bump f0 1 ex)) s' /\ typed [] s' /\
    m_pt s' = m_pt s /\ m_ftable s' !! f0 = Some (pipe_file p false x0) /\ m_ftable s' !! f1 = Some (pipe_file p true x1) /\
    f_ref x0 = 1 /\ f_ref x1 = 1 /\ m_pipes s !! p = None /\ m_pipes s' = <[p := pipe_init d]> (m_pipes s)).
Proof.
  intros H HT. unfold pipealloc. destruct (filealloc_run ex s H) as [[E _]|(f0 & x0 & X0 & R0 & T0 & E & H0)].
  { left. exists s. rewrite (bind_Ret _ _ _ _ _ E). by split_and!. }
  rewrite (bind_Ret _ _ _ _ _ E). pose proof (with_ref_at f0 1 s x0 X0) as X0'. pose proof (typed_new [] f0 1 s HT) as HT0.
  set (s0 := with_ref f0 1 s) in *. clear E.
  destruct (filealloc_run _ s0 H0) as [[E _]|(f1 & x1 & X1 & R1 & T1 & E & H1)]; rewrite (bind_Ret _ _ _ _ _ E).
  { left. destruct (fileclose_new _ [] cur s0 f0 _ H0 X0' eq_refl T0 HT0) as (Ec & Hc & HTc). rewrite (bind_Ret _ _ _ _ _ Ec).
    eexists. split; [reflexivity|]. split_and!; try done. revert Hc. apply files_ok_ext. intros g. symmetry. by apply bump_bump. }
  assert (f0 <> f1) as Hne by (intros <-; rewrite X1 in X0'; injection X0' as ->; done).
  pose proof (with_ref_at f1 1 s0 x1 X1) as X1'. pose proof (typed_new [f0] f1 1 s0 HT0) as HT1.
  assert (m_ftable (with_ref f1 1 s0) !! f0 = Some (set_f_ref 1 x0)) as X0'' by (by rewrite with_ref_ne).
  set (s1 := with_ref f1 1 s0) in *. clear E. destruct (fl_mem _ _ H1) as (l & Fl & Hl). pose proof (kalloc_spec _ _ Fl) as Ek. destruct l as [|p l].
  - left. rewrite (bind_Ret _ _ _ _ _ (liftv_Ret _ _ _ _ Ek)), set_m_vm_id. change (0 =? 0) with true. cbn iota.
    destruct (fileclose_new _ [f1] cur s1 f0 _ H1 X0'' eq_refl T0) as (Ec & Hc & HTc).
    { intros g y [? [? _]%not_elem_of_cons]%not_elem_of_cons. apply HT1. rewrite !not_elem_of_cons. by split_and!; [| |apply not_elem_of_nil]. }
    rewrite (bind_Ret _ _ _ _ _ Ec). destruct (fileclose_new _ [] cur _ f1 (set_f_ref 1 x1) Hc) as (Ed & Hd & HTd); [by rewrite with_closed_ne|done|done|done|].
    rewrite (bind_Ret _ _ _ _ _ Ed). eexists. split; [reflexivity|]. split_and!; try done. revert Hd. apply files_ok_ext. intros g.
    unfold bump. repeat destruct (decide _); lia.
  - right. destruct Ek as (v & Ek & Fv & Em). rewrite (bind_Ret _ _ _ _ _ (liftv_Ret _ _ _ _ Ek)).
    pose proof (fo_pages _ _ Fl) as [Kp _]%Forall_cons. pose proof (fo_nodup _ _ Fl) as [Np _]%NoDup_cons.
    rewrite (proj2 (Z.eqb_neq _ _)) by (apply kpage_range in Kp as [? _]; lia).
    erewrite bind_Ret; [|by apply liftv_Ret]. unfold setpipe, updfile. rewrite !bind_modify.
    assert (m_pipes s !! p = None) as Hp.
    { destruct (m_pipes s !! p) eqn:Epp; [|done]. destruct (Hl p) as [_ []]; [by eexists|by left]. }
    eexists _, f0, f1, p, (pg (v_mem v) p), (set_f_ref 1 x0), (set_f_ref 1 x1). split; [reflexivity|]. split; [done|].
    assert (forall a, is_Some (m_pipes s1 !! a) -> kpage a /\ a ∉ l) as Hl' by (intros a [? [_ ?]%not_elem_of_cons]%Hl; done).
    pose proof (files_ok_pipe_new _ s1 p (pg (v_mem v) p) v l f0 f1 _ _ H1 X0'' X1' Hne T0 T1 ltac:(done) ltac:(done) Hp Kp Np Fv Hl') as Hnew.
    split; [exact Hnew|]. split.
    + intros g y _ Hy. destruct (with_pipe_lookup p (pg (v_mem v) p) v f0 f1 _ _ s1 g y X0'' X1' Hne Hy) as [[-> ->]|[[-> ->]|(? & ? & ?)]]; [done|done|].
      apply (HT1 g y); [|done]. rewrite !not_elem_of_cons. split_and!; [done|done|apply not_elem_of_nil].
    + split; [done|]. split; [|split].
      * cbn. cbn in X0''. rewrite list_lookup_alter_ne by done. rewrite list_lookup_alter_eq. by rewrite X0''.
      * cbn. cbn in X1'. rewrite list_lookup_alter_eq, list_lookup_alter_ne by done. by rewrite X1'.
      * done.
Qed.

(** ** The system calls *)
Definition fd_arg (cur : nat) (s : mstate) (n : Z) : option (Z * nat) :=
  fd ← int_at cur s (arg_addr cur s n);
  if decide (0 <= fd < NOFILE) then (fun f => (fd, f)) <$> mjoin (p_ofile (pr (m_pt s) cur) !! Z.to_nat fd) else None.

(** The process [cur] with its memory. *)
Definition user_ok (cur : nat) (s : mstate) : Prop :=
  (cur < length (pt_proc (m_pt s)))%nat /\ 0 <= p_sz (pr (m_pt s) cur) <= KERNBASE /\
  user_mapped (v_mem (m_vm s)) (p_pgdir (pr (m_pt s) cur)) (p_sz (pr (m_pt s) cur)).

Lemma argfd_run cur s n : user_ok cur s -> argfd cur n s = Ret (fd_arg cur s n) s.
Proof.
  intros (_ & Hsz & Hm). unfold argfd, fd_arg. rewrite (bind_Ret _ _ _ _ _ (argint_run cur s Hsz Hm n)).
  destruct (int_at cur s (arg_addr cur s n)) as [fd|]; [|done]. unfold myproc. rewrite bind_gets. cbn [mbind option_bind].
  destruct (Z.ltb_spec fd 0); cbn [orb]; [by rewrite decide_False by lia|]. destruct (Z.leb_spec NOFILE fd); [by rewrite decide_False by lia|].
  rewrite decide_True by lia. by destruct (mjoin (p_ofile (pr (m_pt s) cur) !! Z.to_nat fd)).
Qed.

Lemma fd_arg_Some cur s n fd f : fd_arg cur s n = Some (fd, f) -> 0 <= fd < NOFILE /\ p_ofile (pr (m_pt s) cur) !! Z.to_nat fd = Some (Some f).
Proof.
  unfold fd_arg. destruct (int_at _ _ _) as [z|]; [|done]. simpl. destruct (decide _) as [Hd|]; [|done].
  destruct (p_ofile (pr (m_pt s) cur) !! Z.to_nat z) as [[g|]|] eqn:E; simpl; [|done..]. by intros [= -> ->].
Qed.

(** The file of a descriptor is in the table, with a positive count. *)
Lemma fd_file s i fd f : files_ok (fun _ => 0) s -> p_ofile (pr (m_pt s) i) !! fd = Some (Some f) ->
  (f < Z.to_nat NFILE)%nat /\ exists x, m_ftable s !! f = Some x /\ 1 <= f_ref x.
Proof.
  intros H E. assert (Some f ∈ p_ofile (pr (m_pt s) i)) as Hin by (by eapply list_elem_of_lookup_2). pose proof (fl_fd _ _ H i f Hin) as Hlt.
  split; [done|]. destruct (lookup_lt_is_Some_2 (m_ftable s) f) as [x Hx]; [rewrite (fl_len _ _ H); lia|]. exists x. split; [done|].
  destruct (fl_ref _ _ H f x Hx) as [-> _]. pose proof (refs_le (m_pt s) i f). pose proof (proj2 (occ_elem f _) Hin). lia.
Qed.

Lemma sys_dup_run cur s : files_ok (fun _ => 0) s -> typed [] s -> user_ok cur s ->
  exists r s', sys_dup cur s = Ret r s' /\ files_ok (fun _ => 0) s' /\ typed [] s'.
Proof.
  intros H HT Hu. unfold sys_dup. rewrite (bind_Ret _ _ _ _ _ (argfd_run cur s 0 Hu)).
  destruct (fd_arg cur s 0) as [[fd f]|] eqn:E; [|by exists (-1), s]. apply fd_arg_Some in E as [_ Efd].
  destruct (fd_file s cur _ f H Efd) as (Hf & x & Hx & Hr).
  destruct (fdalloc_run _ cur f s H (proj1 Hu) Hf) as [[E _]|(fd' & _ & E & H1)]; rewrite (bind_Ret _ _ _ _ _ E); [by exists (-1), s|].
  rewrite (proj2 (Z.ltb_ge _ _)) by lia. destruct (filedup_run _ _ f x H1 Hx Hr) as [E2 H2]. rewrite (bind_Ret _ _ _ _ _ E2).
  eexists _, _. split; [reflexivity|]. split; [revert H2; apply files_ok_ext; intros g; unfold bump; destruct (decide _); lia|].
  apply (typed_ref _ f x); [|done|left; lia]. by apply (typed_ftable _ s).
Qed.

Lemma sys_close_run cur s : files_ok (fun _ => 0) s -> typed [] s -> user_ok cur s ->
  (forall fd f x, fd_arg cur s 0 = Some (fd, f) -> m_ftable s !! f = Some x -> f_ref x = 1 -> f_type x = FD_INODE ->
     droppable (m_k s) (f_ip x)) ->
  exists r s', sys_close cur s = Ret r s' /\ files_ok (fun _ => 0) s' /\ typed [] s' /\
    forall fd f, fd_arg cur s 0 = Some (fd, f) -> p_ofile (pr (m_pt s') cur) !! Z.to_nat fd = Some None /\
      forall x, m_ftable s !! f = Some x -> f_ref x = 1 -> f_type x = FD_INODE -> irefs (m_k s') (f_ip x) = irefs (m_k s) (f_ip x) - 1.
Proof.
  intros H HT Hu Hi. unfold sys_close. rewrite (bind_Ret _ _ _ _ _ (argfd_run cur s 0 Hu)).
  destruct (fd_arg cur s 0) as [[fd f]|] eqn:E; [|by exists (-1), s]. apply fd_arg_Some in E as [_ Efd].
  destruct (fd_file s cur _ f H Efd) as (Hf & x & Hx & Hr). rewrite (bind_Ret _ _ _ _ _ (set_fd_run _ _ _ _)).
  assert (files_ok (bump f 1 (fun _ => 0)) (with_fd cur (Z.to_nat fd) None s)) as H1.
  { apply (files_ok_fd (fun _ => 0) _ cur (Z.to_nat fd) (Some f) None); try done; [apply Hu|]. intros g. unfold bump, fd_val.
    repeat destruct (decide _); simplify_eq; lia. }
  destruct (fileclose_run _ cur _ f x H1 Hx Hr) as (s' & E & H2 & Hsame & Hir & Eft); [intros; by apply (Hi fd f x)|].
  rewrite (bind_Ret _ _ _ _ _ E). eexists _, _. split; [reflexivity|]. split; [revert H2; apply files_ok_ext; intros g; by rewrite bump_bump|]. split.
  - eapply typed_ftable; [|exact Eft]. destruct (f_ref x =? 1).
    + apply (typed_closed [] f x); [|done]. intros g y _. apply HT, not_elem_of_nil.
    + apply (typed_ref _ f x); [|done|left; lia]. by apply (typed_ftable _ s).
  - intros fd' f' [= <- <-]. split; [|by intros y [= <-]%(eq_trans (eq_sym Hx))]. rewrite (Hsame cur). simpl. rewrite pr_upd by apply Hu. rewrite decide_True by done. simpl.
    apply list_lookup_insert_eq. by apply lookup_lt_Some in Efd.
Qed.

(** Closing a file with no descriptor left that is an end of a pipe. *)
Lemma fileclose_end ex cur s f x : files_ok ex s -> typed [] s -> m_ftable s !! f = Some x -> f_ref x = 1 -> f_type x = FD_PIPE ->
  exists s', fileclose cur f s = Ret tt s' /\ files_ok (bump f (-1) ex) s' /\ typed [] s' /\ same_fds s s' /\
    forall g, g <> f -> m_ftable s' !! g = m_ftable s !! g.
Proof.
  intros H HT Hx Hr Ht. destruct (fileclose_run ex cur s f x H Hx) as (s' & E & H1 & Hs & _ & Eft); [lia|congruence|].
  rewrite Hr, Z.eqb_refl in Eft. exists s'. split_and!; try done.
  - eapply typed_ftable; [|exact Eft]. apply (typed_closed [] f x); [|done]. intros g y _. apply HT, not_elem_of_nil.
  - intros g Hg. rewrite Eft. by apply with_closed_ne.
Qed.

Definition pipe_fd (s : mstate) (cur : nat) (fd : Z) (p : Z) (w : bool) : Prop :=
  exists f x, p_ofile (pr (m_pt s) cur) !! Z.to_nat fd = Some (Some f) /\ m_ftable s !! f = Some x /\ f_type x = FD_PIPE /\
    f_pipe x = p /\ f_writable x = w /\ f_readable x = negb w.

Lemma with_fd_at cur fd o s : (cur < length (pt_proc (m_pt s)))%nat ->
  p_ofile (pr (m_pt (with_fd cur fd o s)) cur) = <[fd := o]> (p_ofile (pr (m_pt s) cur)).
Proof. intros H. simpl. by rewrite pr_upd, decide_True. Qed.
Lemma with_fd_len cur fd o s : length (pt_proc (m_pt (with_fd cur fd o s))) = length (pt_proc (m_pt s)).
Proof. simpl. apply length_alter. Qed.

(** Both ends are closed again when there is no room for the descriptors. *)
Lemma pipe_undo ex cur s f0 f1 x0 x1 : files_ok (bump f1 1 (bump f0 1 ex)) s -> typed [] s -> f0 <> f1 ->
  m_ftable s !! f0 = Some x0 -> m_ftable s !! f1 = Some x1 -> f_ref x0 = 1 -> f_ref x1 = 1 -> f_type x0 = FD_PIPE -> f_type x1 = FD_PIPE ->
  exists s', (fileclose cur f0 ;; fileclose cur f1) s = Ret tt s' /\ files_ok ex s' /\ typed [] s' /\ same_fds s s'.
Proof.
  intros H HT Hne H0 H1 R0 R1 T0 T1. destruct (fileclose_end _ cur s f0 x0 H HT H0 R0 T0) as (s1 & E1 & Ok1 & HT1 & Hs1 & Ho1).
  rewrite (bind_Ret _ _ _ _ _ E1). rewrite <- Ho1 in H1 by done.
  destruct (fileclose_end _ cur s1 f1 x1 Ok1 HT1 H1 R1 T1) as (s2 & E2 & Ok2 & HT2 & Hs2 & _). exists s2. split; [done|]. split.
  - revert Ok2. apply files_ok_ext. intros g. unfold bump. repeat destruct (decide _); lia.
  - split; [done|]. intros i. by rewrite Hs2, Hs1.
Qed.

Lemma pipe_fds_run cur s : files_ok (fun _ => 0) s -> typed [] s -> (cur < length (pt_proc (m_pt s)))%nat ->
  exists r s', pipe_fds cur s = Ret r s' /\ files_ok (fun _ => 0) s' /\ typed [] s' /\
    match r with
    | None => same_fds s s'
    | Some (fd0, fd1) => exists p, m_pipes s !! p = None /\ pipe_fd s' cur fd0 p false /\ pipe_fd s' cur fd1 p true
    end.
Proof.
  intros H HT Hc. unfold pipe_fds.
  destruct (pipealloc_run _ cur s H HT) as [(s' & E & H1 & HT1 & Hs & _)|(s1 & f0 & f1 & p & d & x0 & x1 & E & Hne & H1 & HT1 & Ept & X0 & X1 & R0 & R1 & Hp & _)];
    rewrite (bind_Ret _ _ _ _ _ E); [by exists None, s'|].
  assert (Hc1 : (cur < length (pt_proc (m_pt s1)))%nat) by (by rewrite Ept).
  assert (f0 < Z.to_nat NFILE /\ f1 < Z.to_nat NFILE)%nat as [Hf0 Hf1] by (rewrite <- (fl_len _ _ H1); split; by eapply lookup_lt_Some).
  assert (same_fds s s1) as Hs01 by (intros i; by rewrite Ept).
  destruct (fdalloc_run _ cur f0 s1 H1 Hc1 Hf0) as [[E1 _]|(fd0 & Hfd0 & E1 & H2)]; rewrite (bind_Ret _ _ _ _ _ E1).
  { cbn. destruct (pipe_undo _ cur s1 f0 f1 _ _ H1 HT1 Hne X0 X1) as (s' & Eu & Hu & HTu & Hsu); try done.
    exists None, s'. split; [|by split_and!; [| |intros i; rewrite Hsu]]. revert Eu. unfold mbind, M_bind. cbn.
    destruct (fileclose cur f0 s1) as [[] sa| | | |]; try done. destruct (fileclose cur f1 sa) as [[] sb| | | |]; try done. by intros [= ->]. }
  rewrite (proj2 (Z.ltb_ge _ _)) by lia. set (s2 := with_fd cur fd0 (Some f0) s1) in *.
  assert (Hc2 : (cur < length (pt_proc (m_pt s2)))%nat) by (unfold s2; by rewrite with_fd_len).
  pose proof (with_fd_at cur fd0 (Some f0) s1 Hc1) as Eof. fold s2 in Eof.
  destruct (fdalloc_run _ cur f1 s2 H2 Hc2 Hf1) as [[E2 _]|(fd1 & Hfd1 & E2 & H3)]; rewrite (bind_Ret _ _ _ _ _ E2).
  { cbn [orb]. change (-1 <? 0) with true. cbv iota. rewrite (proj2 (Z.leb_le _ _)) by lia. rewrite Nat2Z.id. rewrite (bind_Ret _ _ _ _ _ (set_fd_run _ _ _ _)).
    assert (files_ok (bump f1 1 (bump f0 1 (fun _ => 0))) (with_fd cur fd0 None s2)) as H4.
    { apply (files_ok_fd _ _ cur fd0 (Some f0) None _ H2 Hc2); [rewrite Eof; apply list_lookup_insert_eq; by eapply lookup_lt_Some|done|].
      intros g. unfold bump, fd_val. repeat destruct (decide _); simplify_eq; lia. }
    destruct (pipe_undo _ cur (with_fd cur fd0 None s2) f0 f1 _ _ H4 (typed_ftable _ _ _ HT1 eq_refl) Hne X0 X1) as (s' & Eu & Hu & HTu & Hsu); try done.
    exists None, s'. split; [|split_and!; [done|done|]].
    - revert Eu. unfold mbind, M_bind. cbn. destruct (fileclose cur f0 (with_fd cur fd0 None s2)) as [[] sa| | | |]; try done.
      destruct (fileclose cur f1 sa) as [[] sb| | | |]; try done. by intros [= ->].
    - intros i. rewrite Hsu, <- Hs01. simpl. rewrite !pr_upd by (rewrite ?length_alter; done). destruct (decide (i = cur)) as [->|]; [|done].
      rewrite decide_True by done. simpl. rewrite list_insert_insert_eq. by apply list_insert_id. }
  rewrite (proj2 (Z.ltb_ge _ _)) by lia. cbn [orb]. exists (Some (Z.of_nat fd0, Z.of_nat fd1)). eexists. split; [reflexivity|]. split.
  { revert H3. apply files_ok_ext. intros g. unfold bump. repeat destruct (decide _); lia. }
  split; [by apply (typed_ftable _ s1)|]. exists p. split; [done|].
  pose proof (with_fd_at cur fd1 (Some f1) s2 Hc2) as Eof2.
  assert (fd0 <> fd1) as Hfd by (intros <-; rewrite Eof, list_lookup_insert_eq in Hfd1 by (by eapply lookup_lt_Some); done).
  split; unfold pipe_fd; rewrite Eof2, !Nat2Z.id.
  - exists f0, (pipe_file p false x0). split; [|done]. rewrite list_lookup_insert_ne by done. rewrite Eof. apply list_lookup_insert_eq. by eapply lookup_lt_Some.
  - exists f1, (pipe_file p true x1). split; [|done]. apply list_lookup_insert_eq. by eapply lookup_lt_Some.
Qed.

(** ** The files of a child *)
Lemma occ_app f l l' : occ f (l ++ l') = occ f l + occ f l'.
Proof. unfold occ. rewrite filter_app, length_app. lia. Qed.
Lemma occ_one f o : occ f [o] = fd_val o f.
Proof. unfold occ, fd_val. rewrite filter_cons. by destruct (decide _). Qed.

Lemma dup_files_run cur s : files_ok (fun _ => 0) s -> typed [] s ->
  wp (dup_files cur) (fun _ s' => files_ok (fun g => occ g (p_ofile (pr (m_pt s) cur))) s' /\ m_pt s' = m_pt s /\ typed [] s') s.
Proof.
  intros H HT. set (L := p_ofile (pr (m_pt s) cur)). pose proof (fl_ofile _ _ H cur) as HL. fold L in HL.
  unfold dup_files. eapply wp_mono.
  - apply (wp_forM_seq _ (fun k s' => files_ok (fun g => occ g (take k L)) s' /\ m_pt s' = m_pt s /\ typed [] s')); [done|].
    intros k s' Hk (H' & Ept & HT'). unfold myproc. wp_steps. rewrite Ept. fold L.
    destruct (lookup_lt_is_Some_2 L k) as [o Ho]; [lia|]. rewrite Ho. replace (k + 1)%nat with (S k) by lia.
    assert (forall g, occ g (take (S k) L) = occ g (take k L) + fd_val o g) as Hocc.
    { intros g. rewrite (take_S_r _ _ _ Ho), occ_app, occ_one. done. }
    destruct o as [f|]; simpl.
    + assert (Some f ∈ L) as Hin by (by eapply list_elem_of_lookup_2). pose proof (fl_fd _ _ H cur f Hin) as Hf.
      destruct (lookup_lt_is_Some_2 (m_ftable s') f) as [x Hx]; [rewrite (fl_len _ _ H'); lia|].
      assert (1 <= f_ref x) as Hr.
      { destruct (fl_ref _ _ H' f x Hx) as [-> _]. rewrite Ept. pose proof (refs_le (m_pt s) cur f) as Hle. fold L in Hle.
        pose proof (proj2 (occ_elem f L) Hin). pose proof (occ_nonneg f (take k L)). lia. }
      destruct (filedup_run _ _ f x H' Hx Hr) as [E H2]. refine (proj2 (wp_bind _ _ _ _) _). unfold wp. rewrite E. split; [|split; [done|]].
      * revert H2. apply files_ok_ext. intros g. rewrite Hocc. unfold bump, fd_val. repeat destruct (decide _); simplify_eq; lia.
      * apply (typed_ref _ f x); [done|done|left; lia].
    + split; [|done]. revert H'. apply files_ok_ext. intros g. rewrite Hocc. unfold fd_val. rewrite decide_False by done. lia.
  - intros _ s' (H' & Ept & HT'). split; [|done]. rewrite take_ge in H' by lia. done.
Qed.

Lemma dup_ofile_fresh c n : length c = length n -> Forall (fun o => o = None) n -> dup_ofile c n = c.
Proof.
  unfold dup_ofile. revert n. induction c as [|a c IH]; intros [|b n] Hl Hn; simpl in *; try done. apply Forall_cons in Hn as [-> Hn].
  rewrite IH by (done || lia). by destruct a.
Qed.
Lemma occ_none f l : Forall (fun o => o = None) l -> occ f l = 0.
Proof. unfold occ. induction 1 as [|o l -> _ IH]; [done|]. rewrite filter_cons, decide_False by done. exact IH. Qed.

Lemma fork_files_run cur np pgdir name s : files_ok (fun _ => 0) s -> typed [] s -> np <> cur -> (np < length (pt_proc (m_pt s)))%nat ->
  Forall (fun o => o = None) (p_ofile (pr (m_pt s) np)) ->
  exists s', (dup_files cur ;; table (fork_copy cur np pgdir name)) s = Ret tt s' /\ files_ok (fun _ => 0) s' /\ typed [] s' /\
    p_ofile (pr (m_pt s') np) = p_ofile (pr (m_pt s) cur).
Proof.
  intros H HT Hne Hnp Hn. pose proof (dup_files_run cur s H HT) as W. apply wp_Ret in W as ([] & s1 & E & H1 & Ept & HT1).
  rewrite (bind_Ret _ _ _ _ _ E). unfold table, modify. eexists. split; [reflexivity|].
  assert (p_ofile (pr (fork_copy cur np pgdir name (m_pt s1)) np) = p_ofile (pr (m_pt s) cur)) as Eof.
  { unfold fork_copy. rewrite pr_upd by (by rewrite Ept). rewrite decide_True by done. simpl. rewrite Ept.
    apply dup_ofile_fresh; [by rewrite !(fl_ofile _ _ H)|done]. }
  split; [|split; [done|exact Eof]].
  apply (files_ok_pt _ _ _ s1 H1).
  - intros i. destruct (decide (i = np)) as [->|Hi]; [rewrite Eof; apply H|]. unfold fork_copy. rewrite pr_upd by (by rewrite Ept).
    rewrite decide_False by done. apply H1.
  - intros i f. destruct (decide (i = np)) as [->|Hi]; [rewrite Eof; apply H|]. unfold fork_copy. rewrite pr_upd by (by rewrite Ept).
    rewrite decide_False by done. apply H1.
  - intros f _. unfold fork_copy. rewrite refs_upd by (by rewrite Ept). pose proof Eof as Eo. unfold fork_copy in Eo.
    rewrite pr_upd, decide_True in Eo by (done || by rewrite Ept). rewrite Eo, Ept, (occ_none f (p_ofile (pr (m_pt s) np))) by done. lia.
Qed.

(** C40: Open files are counted exactly.  When every [struct file] has as many
    references as there are descriptors for it in all processes, a pipe
    exists exactly while one of its ends is open, and every open file is a
    pipe or an inode, then after [dup], [close], the creation of a pipe and
    its two descriptors, and the copying of the descriptors in [fork] the
    same holds, each of them returning: no [panic] of [filedup] or
    [fileclose], no file or pipe lost when the tables are full, and no
    descriptor for a file that is closed.  The last [close] of a file on an
    inode also drops the file's reference to the inode; it is required that the
    transaction can start without waiting for the log, that the inode is not
    locked, and that it is not the last reference to an unlinked file, whose
    blocks [iput] would free ([droppable]). *)
Theorem files_counted cur s : files_ok (fun _ => 0) s -> typed [] s -> user_ok cur s ->
  let good s' := files_ok (fun _ => 0) s' /\ typed [] s' in
  (exists r s', sys_dup cur s = Ret r s' /\ good s') /\
  ((forall fd f x, fd_arg cur s 0 = Some (fd, f) -> m_ftable s !! f = Some x -> f_ref x = 1 -> f_type x = FD_INODE ->
      droppable (m_k s) (f_ip x)) ->
   exists r s', sys_close cur s = Ret r s' /\ good s' /\
     forall fd f, fd_arg cur s 0 = Some (fd, f) -> p_ofile (pr (m_pt s') cur) !! Z.to_nat fd = Some None /\
       forall x, m_ftable s !! f = Some x -> f_ref x = 1 -> f_type x = FD_INODE ->
         irefs (m_k s') (f_ip x) = irefs (m_k s) (f_ip x) - 1) /\
  (exists r s', pipe_fds cur s = Ret r s' /\ good s' /\
     match r with
     | None => same_fds s s'
     | Some (fd0, fd1) => exists p, m_pipes s !! p = None /\ pipe_fd s' cur fd0 p false /\ pipe_fd s' cur fd1 p true
     end) /\
  (forall np pgdir name, np <> cur -> (np < length (pt_proc (m_pt s)))%nat -> Forall (fun o => o = None) (p_ofile (pr (m_pt s) np)) ->
     exists s', (dup_files cur ;; table (fork_copy cur np pgdir name)) s = Ret tt s' /\ good s' /\
       p_ofile (pr (m_pt s') np) = p_ofile (pr (m_pt s) cur)).
Proof.
  intros H HT Hu good. split; [|split; [|split]].
  - destruct (sys_dup_run cur s H HT Hu) as (r & s' & E & ?). by exists r, s'.
  - intros Hi. destruct (sys_close_run cur s H HT Hu Hi) as (r & s' & E & ? & ? & ?). by exists r, s'.
  - destruct (pipe_fds_run cur s H HT (proj1 Hu)) as (r & s' & E & ? & ? & ?). by exists r, s'.
  - intros np pgdir name Hne Hnp Hn. destruct (fork_files_run cur np pgdir name s H HT Hne Hnp Hn) as (s' & E & ? & ? & ?). by exists s'.
Qed.
End filespec.
