(* ===== verification/WriteSpec.v ===== *)
(** * Writing to a file through its descriptor (file.c: [filewrite])

  [filewrite] copies the user's bytes to the file a few blocks at a time,
  each round a transaction of its own.  The state between system calls is
  [quiet]: no operation is running, nothing is logged and no block is dirty,
  so that the disk has the contents of every block. *)
From S2P Require Import Prelude Params Layout KState Driver Dll Bio Cache Log LogCrash FsBase FsAlloc Inode Ext2 Vfs Content FileIO Pipe Kalloc Vm VmSpec Proc Kernel File Syscall.

(** ** Contents outside the log *)
Section off_log.
Context (sb : superblock) (l : log) (V V' : blk -> list Z).
Context (Ok : sb_ok sb l) (HV : forall b, home l b -> V' (ROOTDEV, b) = V (ROOTDEV, b)).

Lemma used_off_log b : 0 <= b < sb_size sb -> used sb V' b = used sb V b.
Proof using Ok HV. intros Hb. unfold used. rewrite HV; [done|]. by destruct (sb_bblock sb l b Ok Hb) as (_ & _ & ?). Qed.
Lemma nfree_off_log : nfree sb V' = nfree sb V.
Proof using Ok HV.
  unfold nfree. f_equal. apply filter_ext_in. intros b Hb%elem_of_seqZ. by rewrite used_off_log by lia.
Qed.
Lemma bitmap_off_log : bitmap_ok sb l V -> bitmap_ok sb l V'.
Proof using Ok HV. intros B b Hb. rewrite used_off_log by done. by apply B. Qed.

Context (a : list Z) (F : file_ok sb l V a).
Lemma in_file_home b : in_file V a b -> home l b.
Proof using F. intros H. by destruct (fo_own _ _ _ _ F b H) as (_ & _ & []). Qed.
Lemma fblock_off_log bn : fblock V' a bn = fblock V a bn.
Proof using HV F.
  unfold fblock. destruct (bn <? NDIRECT); [done|]. destruct (Z.eqb_spec (ind a) 0); [done|].
  rewrite HV; [done|]. apply in_file_home. split; [done|by left].
Qed.
Lemma in_file_off_log b : in_file V' a b <-> in_file V a b.
Proof using HV F. unfold in_file. by setoid_rewrite fblock_off_log. Qed.
Lemma fbyte_off_log o : 0 <= o < MAXFILE * BSIZE -> fbyte V' a o = fbyte V a o.
Proof using HV F.
  intros Ho. unfold fbyte. rewrite fblock_off_log. destruct (Z.eqb_spec (fblock V a (o / BSIZE)) 0); [done|].
  rewrite HV; [done|]. apply in_file_home. split; [done|]. right. exists (o / BSIZE). split; [|done].
  split; [apply Z.div_pos; klia|]. apply Z.div_lt_upper_bound; klia.
Qed.
Lemma file_off_log : file_ok sb l V' a.
Proof using Ok HV F.
  pose proof F as [H1 H2 H3 H4]. split; [done|..].
  - intros b Hb%in_file_off_log. destruct (H2 b Hb) as (Hr & Hu & D). split; [done|]. split; [by rewrite used_off_log|done].
  - intros bn bn'. rewrite !fblock_off_log. apply H3.
  - intros bn. rewrite fblock_off_log. apply H4.
Qed.
End off_log.

(** ** Between transactions *)
Section same_home.
Context (sb : superblock) (l l' : log) (Hh : forall b, home l' b <-> home l b).
Lemma data_block_home b : data_block sb l b -> data_block sb l' b.
Proof using Hh. intros []. split; try done. by apply Hh. Qed.
Lemma sb_ok_home : sb_ok sb l -> sb_ok sb l'.
Proof using Hh.
  intros [H1 H2 H3 H4]. split; try done.
  - intros b Hb. rewrite Hh. by apply H2.
  - intros b Hb. rewrite Hh. by apply H3.
Qed.
Lemma bitmap_ok_home V : bitmap_ok sb l V -> bitmap_ok sb l' V.
Proof using Hh. intros H b Hb Hu. by apply data_block_home, H. Qed.
Lemma file_ok_home V a : file_ok sb l V a -> file_ok sb l' V a.
Proof using Hh.
  intros [H1 H2 H3 H4]. split; try done. intros b Hb. destruct (H2 b Hb) as (? & ? & ?). split; [done|]. split; [done|].
  by apply data_block_home.
Qed.
End same_home.

Section write.
Context {DD : DiskDriver} {DS : Devsw}.

(** No system call is using the file system. *)
Record quiet (sb : superblock) (s : kstate) (c : cache) : Prop := {
  qu_rep : rep s c;
  qu_held : c_held c = ∅;
  qu_clean : forall k, k.1 <> 0 -> c_dirty c k = false;
  qu_log : log_wf (k_log s);
  qu_idle : lh_n (k_log s) = 0 /\ log_outstanding (k_log s) = 0 /\ log_committing (k_log s) = false;
  qu_dev : log_dev (k_log s) = ROOTDEV;
  qu_region : log_start (k_log s) + log_size (k_log s) <= FSSIZE;
  qu_dd : forall b, 0 <= b < FSSIZE -> dd_ok s ROOTDEV b;
  qu_sb : k_sb s = sb;
  qu_ok : sb_ok sb (k_log s);
  qu_bitmap : bitmap_ok sb (k_log s) (c_view c)
}.

(** An inode of the root device that someone has a reference to and no one
    has locked, for a file whose blocks are in order. *)
Record at_rest (sb : superblock) (s : kstate) (c : cache) (i : nat) (ip : inode) (j : nat) (x : addrs) : Prop := {
  ar_ip : k_icache s !! i = Some ip;
  ar_dev : i_dev ip = ROOTDEV;
  ar_ref : 1 <= i_ref ip;
  ar_lock : i_lock ip = no_lock;
  ar_valid : i_valid ip = true;
  ar_fs : i_file_type ip = Some inbuiltfs;
  ar_type : i_type ip <> T_DEV;
  ar_inum : 0 <= i_inum ip < sb_ninodes sb;
  ar_addrs : i_addrs ip = AAddrs j;
  ar_x : k_iaddrs s !! j = Some x;
  ar_file : file_ok sb (k_log s) (c_view c) (a_addrs x)
}.

(** Then the disk has what the cache has. *)
Lemma quiet_synced sb s c k : quiet sb s c -> k.1 <> 0 -> dread (k_disk s) k = c_view c k.
Proof.
  intros Q H0. rewrite (rep_disk _ _ (qu_rep _ _ _ Q)). apply (rep_sync _ _ _ (qu_rep _ _ _ Q)); [done| |by apply Q].
  rewrite (qu_held _ _ _ Q). done.
Qed.

(** Nothing depends on which process is running. *)
Lemma rep_pid s c pid : rep s c -> c_held c = ∅ -> rep (set_k_pid pid s) c.
Proof.
  intros R Hh. pose proof (rep_wf _ _ R) as W.
  assert (forall i y, k_bcache s !! i = Some y -> b_lock y = no_lock /\ b_refcnt y = 0) as Hl.
  { intros i y Hy. destruct (ok_lock _ _ (wf_buf _ W i y Hy)) as [|[Hk _]]; [done|].
    assert (held s i (b_dev y) (b_blockno y) (b_data y)) as Hd by (by exists y).
    apply (rep_held _ _ R) in Hd as [Hd _]. by rewrite Hh in Hd. }
  split; try apply R.
  - split; try apply W. intros i y Hy. destruct (wf_buf _ W i y Hy), (Hl i y Hy). split; try done. by left.
  - intros i dev b d. rewrite Hh. split; [|by intros [? _]]. intros (y & Hy & Hk & _). exfalso.
    destruct (Hl i y Hy) as [E _]. by rewrite E in Hk.
Qed.

(** *** Starting and ending a transaction *)
Lemma quiet_pid sb s c pid : quiet sb s c -> quiet sb (set_k_pid pid s) c.
Proof.
  intros Q. split; try apply Q; [by apply rep_pid; apply Q|]. intros b Hb. eapply dd_ok_frame; [..|by apply Q]; done.
Qed.

Lemma open_txn sb s c i ip j x :
  quiet sb s c -> at_rest sb s c i ip j x ->
  let s1 := set_k_log (set_log_outstanding 1 (k_log s)) s in
  let ip1 := set_i_lock (mk_sleeplock true (k_pid s)) ip in
  let s2 := set_k_icache (<[i := ip1]> (k_icache s)) s1 in
  begin_op s = Ret tt s1 /\ iops_ilock i s1 = Ret tt s2 /\ oinode sb s2 c (k_log s1) i ip1 j x.
Proof.
  intros Q A s1 ip1 s2. destruct (qu_idle _ _ _ Q) as (N0 & O0 & C0). split.
  { rewrite begin_op_spec; [by rewrite O0|done|]. rewrite N0, O0. klia. }
  pose proof (ar_ip _ _ _ _ _ _ _ A) as Hi. split.
  - unfold iops_ilock, iops. rewrite (bind_Ret _ _ _ _ _ (getip_Some s1 i ip Hi)), (ar_fs _ _ _ _ _ _ _ A).
    unfold ilock. rewrite (bind_Ret _ _ _ _ _ (getip_Some s1 i ip Hi)).
    destruct (Z.ltb_spec (i_ref ip) 1); [pose proof (ar_ref _ _ _ _ _ _ _ A); lia|].
    unfold acquiresleep. rewrite (ar_lock _ _ _ _ _ _ _ A). cbn [no_lock lk_locked]. rewrite bind_bind, bind_gets.
    erewrite (bind_Ret _ _ s1); [|reflexivity]. rewrite (bind_Ret _ _ _ _ _ (updip_Some s1 i ip _ Hi)).
    by rewrite (ar_valid _ _ _ _ _ _ _ A).
  - assert (forall b, home (k_log s1) b <-> home (k_log s) b) as Hh by done.
    assert (rep s1 c) as R1 by (apply rep_updlog, Q).
    split; try apply A; try apply Q.
    + split; [split|..].
      * by apply rep_icache.
      * done.
      * by destruct (qu_log _ _ _ Q).
      * intros k H0. rewrite (qu_clean _ _ _ Q k H0). unfold logged. simpl. rewrite N0. split; [done|]. by intros [_ ?%elem_of_nil].
      * simpl. lia.
      * apply Q.
      * intros b Hb. eapply dd_ok_frame; [..|by apply Q]; done.
    + by eapply sb_ok_home; [exact Hh|apply Q].
    + by eapply bitmap_ok_home; [exact Hh|apply Q].
    + simpl. by rewrite list_lookup_insert_eq by (by eapply lookup_lt_Some).
    + by eapply file_ok_home; [exact Hh|apply A].
Qed.

Lemma end_quiet s c l :
  rep s c -> c_held c = ∅ -> k_log s = l -> log_wf l -> log_pins c l -> log_dd s l ->
  log_outstanding l = 1 -> log_committing l = false ->
  wp end_op (fun _ s' => exists c',
    rep s' c' /\ c_held c' = ∅ /\ (forall k, k.1 <> 0 -> c_dirty c' k = false) /\
    (forall k, off_log l k -> c_view c' k = c_view c k) /\ log_frame s s' /\ k_log s' = end_log l) s.
Proof.
  intros R Hh Hl W P D Ho Hc. eapply wp_mono; [by apply (end_op_spec s c l)|].
  intros _ s' (R' & G & E). destruct (Z.eqb_spec (lh_n l) 0) as [E0|E0]; eexists; (split; [exact R'|]).
  - split; [done|]. split; [|done]. intros k H0. apply not_true_iff_false. intros Hd%P; [|done].
    unfold logged in Hd. rewrite E0 in Hd. by destruct Hd as [_ ?%elem_of_nil].
  - split; [done|]. split; [|split; [|done]].
    + intros k H0. apply not_true_iff_false. intros [Hd Hn]%wrote_dirty. apply Hn. unfold commit_writes.
      rewrite !fmap_app, !elem_of_app. right; right; left. apply home_ws_keys. by apply P.
    + intros k Hk. simpl. rewrite commit_at by done. by destruct (decide _).
Qed.

Lemma close_txn sb s c l i ip j x :
  oinode sb s c l i ip j x -> log_outstanding l = 1 -> log_committing l = false -> log_start l + log_size l <= FSSIZE ->
  i_lock ip = mk_sleeplock true (k_pid s) -> 1 <= i_ref ip -> i_valid ip = true -> i_file_type ip = Some inbuiltfs ->
  i_type ip <> T_DEV -> 0 <= i_inum ip < sb_ninodes sb ->
  let ip1 := set_i_lock no_lock ip in
  let s1 := set_k_icache (<[i := ip1]> (k_icache s)) s in
  iops_iunlock i s = Ret tt s1 /\
  wp end_op (fun _ s' => exists c', quiet sb s' c' /\ at_rest sb s' c' i ip1 j x /\
    (forall k, off_log l k -> c_view c' k = c_view c k) /\ log_frame s1 s' /\ same_log l (k_log s')) s1.
Proof.
  intros O Ho Hc Hr Hlk Href Hv Hft Hty Hin ip1 s1. pose proof (oi_ip _ _ _ _ _ _ _ _ O) as Hi. split.
  { unfold iops_iunlock, iops. rewrite (bind_Ret _ _ _ _ _ (getip_Some s i ip Hi)), Hft.
    unfold iunlock. rewrite (bind_Ret _ _ _ _ _ (getip_Some s i ip Hi)). unfold holdingsleep. rewrite bind_bind, bind_gets.
    erewrite (bind_Ret _ _ s); [|reflexivity]. rewrite Hlk. cbn [lk_locked lk_pid]. rewrite Z.eqb_refl. cbn [andb negb orb].
    destruct (Z.ltb_spec (i_ref ip) 1); [lia|]. exact (updip_Some s i ip (set_i_lock no_lock) Hi). }
  destruct (oi_fsx _ _ _ _ _ _ _ _ O) as [[R Hl W P _] Hd Hdd].
  eapply wp_mono; [apply (end_quiet s1 c l); try done; [by apply rep_icache|apply O|]|].
  { intros b Hb. rewrite Hd. eapply dd_ok_frame; [..|apply Hdd]; try done. destruct Hb as [Hb|Hb].
    - unfold in_log in Hb. pose proof (lw_region _ W). lia.
    - by apply (logged_home l b W). }
  intros _ s' (c' & R' & Hh' & Hcl & HV & G & El). exists c'.
  assert (forall b, home l b -> c_view c' (ROOTDEV, b) = c_view c (ROOTDEV, b)) as HVh.
  { intros b [_ Hb]. apply HV. split; [done|]. by intros [_ ?]. }
  assert (forall b, home (k_log s') b <-> home l b) as Hhm by (rewrite El; done).
  pose proof (oi_ok _ _ _ _ _ _ _ _ O) as Ok. split; [|split; [|split; [done|split; [done|by rewrite El]]]].
  - split; try done.
    + rewrite El. destruct W as [? ? ? ? ? ?]. split; try done; [simpl; lia|apply NoDup_nil_2].
    + rewrite El. simpl. rewrite Ho. done.
    + by rewrite El.
    + by rewrite El.
    + intros b Hb. eapply dd_ok_frame; [..|by apply Hdd]; by rewrite G.
    + rewrite G. apply O.
    + by eapply sb_ok_home.
    + eapply bitmap_ok_home; [done|]. eapply bitmap_off_log; [done|done|apply O].
  - assert (k_icache s' = k_icache s1 /\ k_iaddrs s' = k_iaddrs s) as [E1 E2] by (by rewrite G).
    split; try done; try apply O.
    + rewrite E1. simpl. by rewrite list_lookup_insert_eq by (by eapply lookup_lt_Some).
    + rewrite E2. apply O.
    + eapply file_ok_home; [done|]. eapply file_off_log; [done|done|apply O].
Qed.

(** ** One round of [filewrite] *)
Lemma wp_runk {A} cur (y : M kstate A) (P : A -> mstate -> Prop) s :
  wp y (fun r k => P r (set_m_k k s)) (set_k_pid (p_pid (pr (m_pt s) cur)) (m_k s)) -> wp (runk cur y) P s.
Proof. unfold runk, myproc, wp. rewrite bind_gets. unfold lift. by destruct (y _). Qed.

(** The bytes of inode [inum] on the disk. *)
Definition dinode_at (sb : superblock) (V : blk -> list Z) (inum : Z) : list Z :=
  slice (V (ROOTDEV, IBLOCK inum sb)) (dinode_off inum) (Z.to_nat sizeof_dinode).

(** What a write of the [n] bytes [src] at [off] has done to the file, and
    what it has left alone: the blocks the file did not have before were free
    ([wt_new]), only the bitmap, the block of the inode and the blocks of the
    file have changed ([wt_other]), and so on. *)
Record wrote (sb : superblock) (k : kstate) (c : cache) (i : nat) (ip : inode) (j : nat) (x : addrs) (off : Z) (src : list Z) (n : Z)
    (k' : kstate) (c' : cache) (a' : list Z) : Prop := {
  wt_bytes : forall o, 0 <= o < MAXFILE * BSIZE -> fbyte (c_view c') a' o =
    if (off <=? o) && (o <? off + n) then default 0 (src !! Z.to_nat (o - off)) else fbyte (c_view c) (a_addrs x) o;
  wt_alloc : forall bn, bn ∈ touched off n -> fblock (c_view c') a' bn <> 0;
  wt_keep : forall bn, 0 <= bn < MAXFILE -> fblock (c_view c) (a_addrs x) bn <> 0 ->
    fblock (c_view c') a' bn = fblock (c_view c) (a_addrs x) bn;
  wt_inode : extends ip off n = true ->
    dinode_at sb (c_view c') (i_inum ip) = enc_dinode (dinode_of (grown ip off n) a');
  wt_log : same_log (k_log k) (k_log k');
  wt_used : forall b, 0 <= b < sb_size sb -> used sb (c_view c) b = true -> used sb (c_view c') b = true;
  wt_mono : forall b, in_file (c_view c) (a_addrs x) b -> in_file (c_view c') a' b;
  wt_new : forall b, in_file (c_view c') a' b ->
    in_file (c_view c) (a_addrs x) b \/ 0 <= b < sb_size sb /\ used sb (c_view c) b = false;
  wt_other : forall b, off_log (k_log k) b -> b <> (ROOTDEV, BBLOCK 0 sb) -> b <> (ROOTDEV, IBLOCK (i_inum ip) sb) ->
    (b.1 = ROOTDEV -> ~ in_file (c_view c') a' b.2) -> c_view c' b = c_view c b;
  wt_dinodes : forall inum, 0 <= inum < sb_ninodes sb -> inum <> i_inum ip ->
    dinode_at sb (c_view c') inum = dinode_at sb (c_view c) inum;
  wt_icache : k_icache k' = <[i := grown ip off n]> (k_icache k);
  wt_iaddrs : k_iaddrs k' = <[j := set_a_addrs a' x]> (k_iaddrs k);
  wt_rest : k_exs k' = k_exs k /\ k_ext2_addrs k' = k_ext2_addrs k /\ k_cwd k' = k_cwd k
}.

(** Another inode of the same block is not touched by the update of one. *)
Lemma slice_put_other d inum inum' di : length d = Z.to_nat BSIZE -> 0 <= inum -> 0 <= inum' -> inum' <> inum ->
  inum' / IPB = inum / IPB -> length (di_addrs di) = Z.to_nat (NDIRECT + 1) ->
  slice (put_dinode d inum di) (dinode_off inum') (Z.to_nat sizeof_dinode) =
  slice d (dinode_off inum') (Z.to_nat sizeof_dinode).
Proof.
  intros Hd Hi Hi' Hne Hq Ha. unfold put_dinode.
  pose proof (Z.mod_pos_bound inum IPB ltac:(klia)). pose proof (Z.mod_pos_bound inum' IPB ltac:(klia)).
  pose proof (Z.div_mod inum IPB ltac:(klia)). pose proof (Z.div_mod inum' IPB ltac:(klia)).
  assert (inum' mod IPB <> inum mod IPB) by (intros E; apply Hne; congruence).
  apply slice_splice_disjoint; rewrite length_enc_dinode by done; [rewrite Hd; apply dinode_off_bound|].
  unfold dinode_off. change sizeof_dinode with 64. lia.
Qed.

Lemma slice_put_dinode d inum di : length d = Z.to_nat BSIZE -> 0 <= inum -> length (di_addrs di) = Z.to_nat (NDIRECT + 1) ->
  slice (put_dinode d inum di) (dinode_off inum) (Z.to_nat sizeof_dinode) = enc_dinode di.
Proof.
  intros Hd Hi Ha. unfold put_dinode. rewrite <- (length_enc_dinode di Ha). apply slice_splice.
  rewrite length_enc_dinode, Hd by done. unfold dinode_off. pose proof (Z.mod_pos_bound inum IPB ltac:(klia)). klia.
Qed.
Lemma touched_max off n : 0 < n <= maxwrite -> (length (touched off n) <= 2)%nat.
Proof.
  intros Hn. pose proof (length_touched off n ltac:(lia)). change maxwrite with 1536 in Hn.
  assert ((off + n - 1) / BSIZE <= off / BSIZE + 1); [|lia].
  assert (off + n - 1 <= off + 1 * BSIZE) by klia. rewrite <- Z.div_add by klia. apply Z.div_le_mono; klia.
Qed.

Section round.
Context (sb : superblock) (k : kstate) (c : cache) (i : nat) (ip : inode) (j : nat) (x : addrs).
Context (off : Z) (src : list Z) (n : Z) (Q : quiet sb k c) (A : at_rest sb k c i ip j x).
Notation l1 := (set_log_outstanding 1 (k_log k)).
Notation ip1 := (set_i_lock (mk_sleeplock true (k_pid k)) ip).
Notation k2 := (set_k_icache (<[i := ip1]> (k_icache k)) (set_k_log l1 k)).

Lemma grown_lock lk : grown (set_i_lock lk ip) off n = set_i_lock lk (grown ip off n).
Proof. unfold grown. change (extends (set_i_lock lk ip) off n) with (extends ip off n). by destruct (extends ip off n). Qed.
Lemma grown_fields : i_dev (grown ip off n) = i_dev ip /\ i_inum (grown ip off n) = i_inum ip /\ i_ref (grown ip off n) = i_ref ip /\
  i_lock (grown ip off n) = i_lock ip /\ i_valid (grown ip off n) = i_valid ip /\ i_type (grown ip off n) = i_type ip /\
  i_file_type (grown ip off n) = i_file_type ip.
Proof. unfold grown. by destruct (extends ip off n). Qed.

Lemma writei_round :
  0 <= off <= i_size ip -> 0 < n <= maxwrite -> off + n <= MAXFILE * BSIZE -> n <= Z.of_nat (length src) ->
  (4 <= nfree sb (c_view c))%nat -> 9 <= log_size (k_log k) ->
  wp (iops_writei i src off n) (fun r k3 => r = n /\ exists c3 l3 a3, written sb k2 c l1 i ip1 j x off src n k3 c3 l3 a3) k2.
Proof using Q A.
  intros Ho Hn Hm Hs Hf Hl. destruct (open_txn sb k c i ip j x Q A) as (_ & _ & O). pose proof (touched_max off n Hn) as Ht.
  unfold iops_writei, iops. eapply wp_run; [apply getip_Some, O|]. cbn [i_file_type set_i_lock]. rewrite (ar_fs _ _ _ _ _ _ _ A).
  destruct (qu_idle _ _ _ Q) as (N0 & _).
  apply (writei_spec sb _ c l1 i ip1 j x off src n O); try lia; try apply A; simpl; lia.
Qed.

Lemma written_dinodes k3 c3 l3 a3 inum : written sb k2 c l1 i ip1 j x off src n k3 c3 l3 a3 ->
  0 <= inum < sb_ninodes sb -> inum <> i_inum ip -> dinode_at sb (c_view c3) inum = dinode_at sb (c_view c) inum.
Proof using Q A.
  intros W Hi Hne. pose proof (wn_o _ _ _ _ _ _ _ _ _ _ _ _ _ _ _ W) as O3. pose proof (oi_ok _ _ _ _ _ _ _ _ O3) as Ok.
  pose proof (oi_file _ _ _ _ _ _ _ _ O3) as F3. cbn [a_addrs set_a_addrs] in F3. unfold dinode_at.
  destruct (iblock_ok sb l3 inum Ok Hi) as (Ei & _ & _ & Hnb), (iblock_ok sb l3 (i_inum ip) Ok (ar_inum _ _ _ _ _ _ _ A)) as (Ej & _).
  destruct (decide (IBLOCK inum sb = IBLOCK (i_inum ip) sb)) as [E|E].
  - rewrite E. pose proof (wn_inode _ _ _ _ _ _ _ _ _ _ _ _ _ _ _ W) as Hw. change (i_inum ip1) with (i_inum ip) in Hw. rewrite Hw.
    destruct (extends ip1 off n); [|done]. unfold a_iupdate. rewrite grown_lock. destruct grown_fields as (_ & Ein & _).
    cbn [i_inum set_i_lock]. rewrite Ein, fn_lookup_insert. pose proof (ar_inum _ _ _ _ _ _ _ A).
    apply slice_put_other; try lia; [by apply (rep_length _ _ _ (qu_rep _ _ _ Q))|apply F3].
  - rewrite (wn_rest _ _ _ _ _ _ _ _ _ _ _ _ _ _ _ W); [done|intros [= Eb]|by intros [=]|].
    + apply (Hnb 0); [|done]. pose proof (so_size _ _ Ok). lia.
    + simpl. intros _ Hin. destruct (fo_own _ _ _ _ F3 _ Hin) as (_ & _ & D). by apply (db_inode _ _ _ D inum).
Qed.

Lemma round_wrote k3 c3 l3 a3 k5 c5 : written sb k2 c l1 i ip1 j x off src n k3 c3 l3 a3 ->
  (forall b, off_log l3 b -> c_view c5 b = c_view c3 b) -> same_log l3 (k_log k5) ->
  log_frame (set_k_icache (<[i := grown ip off n]> (k_icache k3)) k3) k5 ->
  wrote sb k c i ip j x off src n k5 c5 a3 /\
  (nfree sb (c_view c) <= nfree sb (c_view c5) + 2 * length (touched off n))%nat.
Proof using Q A.
  intros W HV S5 G5. destruct (wn_logs _ _ _ _ _ _ _ _ _ _ _ _ _ _ _ W) as (bs & N & _).
  pose proof (wn_o _ _ _ _ _ _ _ _ _ _ _ _ _ _ _ W) as O3. pose proof (oi_ok _ _ _ _ _ _ _ _ O3) as Ok.
  assert (forall b, home l3 b -> c_view c5 (ROOTDEV, b) = c_view c3 (ROOTDEV, b)) as HVh.
  { intros b [_ Hb]. apply HV. split; [done|]. by intros [_ ?]. }
  pose proof (oi_file _ _ _ _ _ _ _ _ O3) as F3. cbn [a_addrs set_a_addrs] in F3.
  pose proof (in_file_off_log sb l3 (c_view c3) (c_view c5) HVh a3 F3) as Hin5.
  assert (forall b, off_log l3 b <-> off_log (k_log k) b) as S3.
  { intros b. destruct (fi_same _ _ _ _ _ _ _ N) as (E1 & E2 & E3 & _). simpl in E1, E2, E3.
    unfold off_log, in_log. by rewrite E1, E2, E3. }
  split; [split|].
  - intros o Ho. rewrite (fbyte_off_log sb l3 (c_view c3) (c_view c5) HVh a3 F3) by done. by apply (wn_bytes _ _ _ _ _ _ _ _ _ _ _ _ _ _ _ W).
  - intros bn Hbn. rewrite (fblock_off_log sb l3 (c_view c3) (c_view c5) HVh a3 F3). by apply (wn_alloc _ _ _ _ _ _ _ _ _ _ _ _ _ _ _ W).
  - intros bn Hbn H0. rewrite (fblock_off_log sb l3 (c_view c3) (c_view c5) HVh a3 F3). by apply (wn_keep _ _ _ _ _ _ _ _ _ _ _ _ _ _ _ W).
  - intros E. unfold dinode_at. rewrite HVh by (apply (iblock_ok sb l3 (i_inum ip) Ok), A).
    pose proof (wn_inode _ _ _ _ _ _ _ _ _ _ _ _ _ _ _ W) as Ei. change (extends ip1 off n) with (extends ip off n) in Ei.
    change (i_inum ip1) with (i_inum ip) in Ei. rewrite Ei, E, grown_lock. unfold a_iupdate.
    destruct grown_fields as (_ & Ein & _). unfold dinode_at. cbn [i_inum set_i_lock]. rewrite Ein, fn_lookup_insert.
    apply slice_put_dinode; [|apply A|apply F3]. by apply (rep_length _ _ _ (qu_rep _ _ _ Q)).
  - destruct (fi_same _ _ _ _ _ _ _ N) as (E1 & E2 & E3 & _), S5 as (E4 & E5 & E6).
    simpl in E1, E2, E3. split_and!; congruence.
  - intros b Hb Hu. rewrite (used_off_log sb l3 (c_view c3) (c_view c5) Ok HVh) by done. by apply (wn_used _ _ _ _ _ _ _ _ _ _ _ _ _ _ _ W).
  - intros b Hb. apply Hin5. by apply (wn_mono _ _ _ _ _ _ _ _ _ _ _ _ _ _ _ W).
  - intros b Hb%Hin5. by apply (wn_new _ _ _ _ _ _ _ _ _ _ _ _ _ _ _ W).
  - intros b Hb H1 H2 H3. rewrite HV by (by apply S3).
    apply (wn_rest _ _ _ _ _ _ _ _ _ _ _ _ _ _ _ W); [done|done|]. intros E Hin%Hin5. by apply H3.
  - intros inum Hi Hne. unfold dinode_at. rewrite HVh by (by apply (iblock_ok sb l3 inum Ok)). by apply (written_dinodes k3 c3 l3 a3).
  - rewrite G5. simpl. rewrite (wn_icache _ _ _ _ _ _ _ _ _ _ _ _ _ _ _ W). simpl. by rewrite !list_insert_insert_eq.
  - rewrite G5. simpl. by rewrite (wn_iaddrs _ _ _ _ _ _ _ _ _ _ _ _ _ _ _ W).
  - pose proof (fn_frame _ _ _ _ _ _ _ _ N) as G3. rewrite G5. simpl.
    split_and!; [apply (f_equal k_exs) in G3|apply (f_equal k_ext2_addrs) in G3|apply (f_equal k_cwd) in G3]; exact G3.
  - rewrite (nfree_off_log sb l3 (c_view c3) (c_view c5) Ok HVh). apply W.
Qed.
End round.

Lemma wp_runk_run {A B} cur (y : M kstate A) (g : A -> M mstate B) P s r k' :
  y (set_k_pid (p_pid (pr (m_pt s) cur)) (m_k s)) = Ret r k' -> wp (g r) P (set_m_k k' s) -> wp (runk cur y ≫= g) P s.
Proof.
  intros E H. apply (proj2 (wp_bind _ _ _ _)). apply wp_runk. unfold wp at 1. by rewrite E.
Qed.
Lemma alter_at {A} (g : A -> A) k (l : list A) y : l !! k = Some y -> alter g k l = <[k := g y]> l.
Proof.
  intros H. apply list_eq. intros q. destruct (decide (q = k)) as [->|Hq].
  - by rewrite list_lookup_alter_eq, H, list_lookup_insert_eq by (by eapply lookup_lt_Some).
  - by rewrite list_lookup_alter_ne, list_lookup_insert_ne by done.
Qed.
Lemma set_k_pid_id k pid : k_pid k = pid -> set_k_pid pid k = k.
Proof. intros <-. by destruct k. Qed.
Lemma at_rest_pid sb s c i ip j x pid : at_rest sb s c i ip j x -> at_rest sb (set_k_pid pid s) c i ip j x.
Proof. by intros []. Qed.
Lemma fi_pid s c l bs s' c' l' : fi_next s c l bs s' c' l' -> k_pid s' = k_pid s.
Proof. intros N. pose proof (fn_frame _ _ _ _ _ _ _ _ N) as G. apply (f_equal k_pid) in G. exact G. Qed.

(** The state of the kernel after a write: only the file system and the
    offset of the file have changed. *)
Definition wrote_to (sb : superblock) (s : mstate) (c : cache) (f : nat) (fl : file) (i : nat) (ip : inode) (j : nat) (x : addrs)
    (src : list Z) (n : Z) (s' : mstate) (c' : cache) (a' : list Z) : Prop :=
  s' = set_m_ftable (<[f := set_f_off (f_off fl + n) fl]> (m_ftable s)) (set_m_k (m_k s') s) /\
  quiet sb (m_k s') c' /\ at_rest sb (m_k s') c' i (grown ip (f_off fl) n) j (set_a_addrs a' x) /\
  wrote sb (m_k s) c i ip j x (f_off fl) src n (m_k s') c' a'.

Section frounds.
Context (sb : superblock) (cur f i j : nat).
Context (s : mstate) (c : cache) (fl : file) (ip : inode) (x : addrs).
Context (Q : quiet sb (m_k s) c) (A : at_rest sb (m_k s) c i ip j x) (Hf : m_ftable s !! f = Some fl).
Notation p := (pr (m_pt s) cur).
Notation m := (v_mem (m_vm s)).
Context (Hsz : 0 <= p_sz p <= KERNBASE) (Hmap : user_mapped m (p_pgdir p) (p_sz p)).
Context (Hoff : 0 <= f_off fl <= i_size ip) (Hlog : 9 <= log_size (k_log (m_k s))).

Lemma round_spec addr n :
  0 <= addr -> addr + n <= p_sz p -> 0 < n <= maxwrite -> f_off fl + n <= MAXFILE * BSIZE -> (4 <= nfree sb (c_view c))%nat ->
  wp (filewrite_round cur f i addr n) (fun r s' => r = n /\ exists c' a',
    wrote_to sb s c f fl i ip j x (ubytes m (p_pgdir p) addr (Z.to_nat n)) n s' c' a' /\
    (nfree sb (c_view c) <= nfree sb (c_view c') + 4)%nat) s.
Proof using All.
  intros Ha Hle Hn Hmx Hfr. set (src := ubytes m (p_pgdir p) addr (Z.to_nat n)).
  set (k := set_k_pid (p_pid p) (m_k s)).
  assert (quiet sb k c) as Qk by (by apply quiet_pid). assert (at_rest sb k c i ip j x) as Ak by (by apply at_rest_pid).
  destruct (open_txn sb k c i ip j x Qk Ak) as (E1 & E2 & O). unfold filewrite_round.
  eapply wp_runk_run; [exact E1|]. eapply wp_runk_run; [exact E2|].
  set (k2 := set_k_icache _ _). set (s2 := set_m_k _ (set_m_k _ s)).
  assert (getfile f s2 = Ret fl s2) as E3 by (unfold getfile; rewrite bind_gets; simpl; by rewrite Hf).
  eapply wp_run; [exact E3|]. eapply wp_run; [apply (load_user_run cur s2 Hsz Hmap addr (Z.to_nat n)); [lia|change (p_sz (pr (m_pt s2) cur)) with (p_sz p); lia]|].
  change (ubytes _ _ addr (Z.to_nat n)) with src. apply (proj2 (wp_bind _ _ _ _)), wp_runk.
  eapply wp_mono; [apply (writei_round sb k c i ip j x (f_off fl) src n Qk Ak); try done; try lia|].
  { unfold src. rewrite length_ubytes. lia. }
  intros r k3 [-> (c3 & l3 & a3 & W)]. destruct (Z.ltb_spec 0 n); [|lia].
  apply (wp_run _ _ tt _ (set_m_ftable (<[f := set_f_off (f_off fl + n) fl]> (m_ftable s)) (set_m_k k3 s2))).
  { unfold updfile, modify. simpl. rewrite (alter_at _ _ _ fl) by done. do 4 f_equal. apply u32_small. klia. }
  pose proof (wn_o _ _ _ _ _ _ _ _ _ _ _ _ _ _ _ W) as O3. destruct (wn_logs _ _ _ _ _ _ _ _ _ _ _ _ _ _ _ W) as (bs & N & _).
  assert (k_pid k3 = p_pid p) as Hp by (by rewrite (fi_pid _ _ _ _ _ _ _ N)).
  assert (set_k_pid (p_pid p) k3 = k3) as Ek by (by apply set_k_pid_id).
  destruct (grown_fields ip (f_off fl) n) as (_ & G2 & G3 & _ & G5 & G6 & G7). rewrite grown_lock in O3.
  destruct (fi_same _ _ _ _ _ _ _ N) as (L1 & L2 & L3 & L4 & L5). destruct (qu_idle _ _ _ Q) as (_ & _ & C0).
  destruct (close_txn sb k3 c3 l3 i _ j (set_a_addrs a3 x) O3) as [E5 E6]; cbn [i_lock i_ref i_valid i_type i_inum i_file_type set_i_lock];
    rewrite ?G2, ?G3, ?G5, ?G6, ?G7, ?L2, ?L3, ?L4, ?L5, ?Hp; try done; try apply A; try apply Q.
  eapply wp_runk_run; [cbn [m_k m_pt set_m_ftable set_m_k s2]; rewrite Ek; exact E5|].
  apply (proj2 (wp_bind _ _ _ _)), wp_runk. cbn [m_k m_pt set_m_ftable set_m_k s2].
  rewrite set_k_pid_id by exact Hp. eapply wp_mono; [exact E6|].
  intros _ k5 (c5 & Q5 & A5 & HV & G & S5). wp_step. split; [done|]. exists c5, a3.
  assert (set_i_lock no_lock (set_i_lock (mk_sleeplock true (k_pid k)) (grown ip (f_off fl) n)) = grown ip (f_off fl) n) as Eun.
  { destruct (grown_fields ip (f_off fl) n) as (_ & _ & _ & Gl & _). rewrite (ar_lock _ _ _ _ _ _ _ A) in Gl.
    destruct (grown ip (f_off fl) n). simpl in *. by subst. }
  destruct (round_wrote sb k c i ip j x (f_off fl) src n Qk Ak k3 c3 l3 a3 k5 c5 W HV S5) as [Wt Hnf]; [by rewrite <- Eun|].
  pose proof (touched_max (f_off fl) n Hn). split; [|lia]. split; [done|]. split; [done|]. split; [|by destruct Wt].
  by rewrite <- Eun.
Qed.
End frounds.

(** ** The loop *)
Lemma ubytes_app m d a n1 n2 : ubytes m d a (n1 + n2) = ubytes m d a n1 ++ ubytes m d (a + Z.of_nat n1) n2.
Proof. unfold ubytes. rewrite Nat2Z.inj_add, seqZ_app by lia. by rewrite fmap_app. Qed.

Lemma grown_twice ip off n1 n2 : 0 <= n1 -> 0 < n2 -> grown (grown ip off n1) (off + n1) n2 = grown ip off (n1 + n2).
Proof.
  intros H1 H2. unfold grown, extends.
  destruct (Z.ltb_spec 0 n1), (Z.ltb_spec (i_size ip) (off + n1)), (Z.ltb_spec 0 n2), (Z.ltb_spec 0 (n1 + n2)), (Z.ltb_spec (i_size ip) (off + (n1 + n2)));
    cbn [andb i_size set_i_size]; try lia;
    repeat match goal with |- context [?a <? ?b] => destruct (Z.ltb_spec a b); try lia end; cbn [andb]; try done;
    rewrite ?Z.add_assoc; try done; destruct ip; done.
Qed.
Lemma extends_twice ip off n1 n2 : 0 <= n1 -> 0 < n2 -> extends ip off (n1 + n2) = true -> extends (grown ip off n1) (off + n1) n2 = true.
Proof.
  intros H1 H2. unfold extends. rewrite !andb_true_iff, !Z.ltb_lt. intros [_ H]. split; [done|].
  unfold grown, extends. destruct (Z.ltb_spec 0 n1), (Z.ltb_spec (i_size ip) (off + n1)); simpl; lia.
Qed.
Lemma grown_size ip off n : 0 <= n -> off <= i_size ip -> off + n <= i_size (grown ip off n).
Proof. intros Hn Ho. unfold grown, extends. destruct (Z.ltb_spec 0 n), (Z.ltb_spec (i_size ip) (off + n)); simpl; lia. Qed.
Lemma touched_split off n1 n2 bn : 0 <= n1 -> 0 < n2 -> bn ∈ touched off (n1 + n2) -> bn ∈ touched off n1 \/ bn ∈ touched (off + n1) n2.
Proof.
  intros H1 H2. rewrite !elem_of_touched. intros [_ H]. replace (off + (n1 + n2) - 1) with (off + n1 + n2 - 1) in H by lia.
  destruct (decide (0 < n1 /\ bn <= (off + n1 - 1) / BSIZE)); [left; lia|right]. split; [done|]. split; [|lia].
  destruct (decide (n1 = 0)) as [->|]; [rewrite Z.add_0_r; lia|].
  assert ((off + n1) / BSIZE <= (off + n1 - 1) / BSIZE + 1); [|lia].
  rewrite <- Z.div_add by klia. apply Z.div_le_mono; klia.
Qed.

Lemma wrote_trans sb k c i ip j x off src1 n1 k1 c1 a1 src2 n2 k2 c2 a2 :
  Z.of_nat (length src1) = n1 -> 0 < n2 ->
  wrote sb k c i ip j x off src1 n1 k1 c1 a1 ->
  wrote sb k1 c1 i (grown ip off n1) j (set_a_addrs a1 x) (off + n1) src2 n2 k2 c2 a2 ->
  0 <= off -> off + n1 + n2 <= MAXFILE * BSIZE ->
  wrote sb k c i ip j x off (src1 ++ src2) (n1 + n2) k2 c2 a2.
Proof.
  intros Hl H2 W1 W2 Ho Hm. assert (0 <= n1) as H1 by lia. destruct (grown_fields ip off n1) as (_ & Gi & _). split.
  - intros o Hr. rewrite (wt_bytes _ _ _ _ _ _ _ _ _ _ _ _ _ W2), (wt_bytes _ _ _ _ _ _ _ _ _ _ _ _ _ W1) by done.
    destruct (Z.leb_spec (off + n1) o), (Z.ltb_spec o (off + n1 + n2)), (Z.leb_spec off o), (Z.ltb_spec o (off + n1)),
      (Z.ltb_spec o (off + (n1 + n2))); cbn [andb]; try lia; try done.
    + rewrite lookup_app_r by lia. do 2 f_equal. lia.
    + rewrite lookup_app_l by lia. done.
  - intros bn Hb. destruct (touched_split off n1 n2 bn H1 H2 Hb) as [Hb1|Hb2]; [|by apply (wt_alloc _ _ _ _ _ _ _ _ _ _ _ _ _ W2)].
    pose proof (wt_alloc _ _ _ _ _ _ _ _ _ _ _ _ _ W1 bn Hb1) as H0. rewrite (wt_keep _ _ _ _ _ _ _ _ _ _ _ _ _ W2); [done| |done].
    apply elem_of_touched in Hb1 as [? ?]. pose proof (Z.div_pos off BSIZE ltac:(lia) ltac:(klia)).
    assert ((off + n1 - 1) / BSIZE < MAXFILE) by (apply Z.div_lt_upper_bound; klia). lia.
  - intros bn Hb H0. rewrite (wt_keep _ _ _ _ _ _ _ _ _ _ _ _ _ W2); rewrite ?(wt_keep _ _ _ _ _ _ _ _ _ _ _ _ _ W1); done.
  - intros E. pose proof (wt_inode _ _ _ _ _ _ _ _ _ _ _ _ _ W2 (extends_twice _ _ _ _ H1 H2 E)) as H. rewrite grown_twice, Gi in H by done. exact H.
  - destruct (wt_log _ _ _ _ _ _ _ _ _ _ _ _ _ W1) as (? & ? & ?), (wt_log _ _ _ _ _ _ _ _ _ _ _ _ _ W2) as (? & ? & ?). split_and!; congruence.
  - intros b Hb Hu. by apply (wt_used _ _ _ _ _ _ _ _ _ _ _ _ _ W2), (wt_used _ _ _ _ _ _ _ _ _ _ _ _ _ W1).
  - intros b Hb. by apply (wt_mono _ _ _ _ _ _ _ _ _ _ _ _ _ W2), (wt_mono _ _ _ _ _ _ _ _ _ _ _ _ _ W1).
  - intros b Hb. destruct (wt_new _ _ _ _ _ _ _ _ _ _ _ _ _ W2 b Hb) as [Hb1|[Hr Hu]]; [by apply (wt_new _ _ _ _ _ _ _ _ _ _ _ _ _ W1)|].
    right. split; [done|]. apply not_true_iff_false. intros H%(wt_used _ _ _ _ _ _ _ _ _ _ _ _ _ W1); [congruence|done].
  - intros b Hb B0 Bi Hni. rewrite (wt_other _ _ _ _ _ _ _ _ _ _ _ _ _ W2); [..|done].
    + apply (wt_other _ _ _ _ _ _ _ _ _ _ _ _ _ W1); try done. intros E Hin. by apply Hni, (wt_mono _ _ _ _ _ _ _ _ _ _ _ _ _ W2).
    + destruct (wt_log _ _ _ _ _ _ _ _ _ _ _ _ _ W1) as (E1 & E2 & E3). unfold off_log, in_log in *. by rewrite E1, E2, E3.
    + done.
    + by rewrite Gi.
  - intros inum Hi Hne. rewrite (wt_dinodes _ _ _ _ _ _ _ _ _ _ _ _ _ W2) by (by rewrite ?Gi). by apply (wt_dinodes _ _ _ _ _ _ _ _ _ _ _ _ _ W1).
  - rewrite (wt_icache _ _ _ _ _ _ _ _ _ _ _ _ _ W2), (wt_icache _ _ _ _ _ _ _ _ _ _ _ _ _ W1), list_insert_insert_eq. by rewrite grown_twice.
  - rewrite (wt_iaddrs _ _ _ _ _ _ _ _ _ _ _ _ _ W2), (wt_iaddrs _ _ _ _ _ _ _ _ _ _ _ _ _ W1). by rewrite list_insert_insert_eq.
  - destruct (wt_rest _ _ _ _ _ _ _ _ _ _ _ _ _ W1) as (? & ? & ?), (wt_rest _ _ _ _ _ _ _ _ _ _ _ _ _ W2) as (? & ? & ?). split_and!; congruence.
Qed.

(** A file that shares no block with the one written to keeps its blocks and
    its bytes, and still shares none. *)
Definition kept (sb : superblock) (l : log) (V : blk -> list Z) (a : list Z) (V' : blk -> list Z) (a' a2 : list Z) : Prop :=
  file_ok sb l V a2 -> (forall b, in_file V a2 b -> ~ in_file V a b) ->
  file_ok sb l V' a2 /\ (forall bn, fblock V' a2 bn = fblock V a2 bn) /\
  (forall o, 0 <= o < MAXFILE * BSIZE -> fbyte V' a2 o = fbyte V a2 o) /\
  (forall b, in_file V' a2 b -> ~ in_file V' a' b).

Lemma wrote_kept sb k c i ip j x off src n k' c' a' a2 :
  quiet sb k c -> at_rest sb k c i ip j x -> wrote sb k c i ip j x off src n k' c' a' ->
  kept sb (k_log k) (c_view c) (a_addrs x) (c_view c') a' a2.
Proof.
  intros Q A W F2 Hdis. pose proof (so_size _ _ (qu_ok _ _ _ Q)) as Hsz.
  assert (forall b, in_file (c_view c) a2 b -> ~ in_file (c_view c') a' b) as Hdis'.
  { intros b Hb Hin. destruct (wt_new _ _ _ _ _ _ _ _ _ _ _ _ _ W b Hin) as [Hx|[_ Hu]]; [by apply (Hdis b)|].
    destruct (fo_own _ _ _ _ F2 b Hb) as (_ & Hu' & _). congruence. }
  assert (forall b, in_file (c_view c) a2 b -> c_view c' (ROOTDEV, b) = c_view c (ROOTDEV, b)) as Hsame.
  { intros b Hb. destruct (fo_own _ _ _ _ F2 b Hb) as (_ & _ & [[_ Hh] _ Hbm Hi]).
    apply (wt_other _ _ _ _ _ _ _ _ _ _ _ _ _ W); [split; [done|by intros [_ ?]]|..].
    - intros [= E]. apply (Hbm 0); [lia|done].
    - intros [= E]. by apply (Hi (i_inum ip)); [apply A|].
    - intros _. by apply Hdis'. }
  assert (forall bn, fblock (c_view c') a2 bn = fblock (c_view c) a2 bn) as Hfb.
  { intros bn. unfold fblock. destruct (Z.eqb_spec (ind a2) 0) as [|H0]; [done|]. by rewrite Hsame by (by apply ind_in). }
  assert (forall b, in_file (c_view c') a2 b <-> in_file (c_view c) a2 b) as Hin by (intros b; unfold in_file; by setoid_rewrite Hfb).
  split_and!; [|done| |by intros b ?%Hin; apply Hdis'].
  - pose proof F2 as [H1 H2 H3 H4]. split; [done|..].
    + intros b Hb%Hin. destruct (H2 b Hb) as (Hr & Hu & D). split_and!; try done; try apply Hr.
      by apply (wt_used _ _ _ _ _ _ _ _ _ _ _ _ _ W).
    + intros bn bn'. rewrite !Hfb. apply H3.
    + intros bn. rewrite Hfb. apply H4.
  - intros o Ho. unfold fbyte. rewrite Hfb. destruct (Z.eqb_spec (fblock (c_view c) a2 (o / BSIZE)) 0); [done|].
    rewrite Hsame; [done|]. by apply fblock_in; [apply div_max|].
Qed.

(** The rounds a write of [n] bytes takes. *)
Definition rounds (n : Z) : nat := Z.to_nat ((n + maxwrite - 1) / maxwrite).

Lemma rounds_step n n1 : 0 < n -> n1 = (if maxwrite <? n then maxwrite else n) -> rounds n = S (rounds (n - n1)).
Proof.
  intros Hn ->. unfold rounds. change maxwrite with 1536. destruct (Z.ltb_spec 1536 n).
  - replace (n - 1536 + 1536 - 1) with (n + 1536 - 1 + (-1) * 1536) by lia. rewrite Z.div_add by lia.
    assert (1 <= (n + 1536 - 1) / 1536) by (apply Z.div_le_lower_bound; lia). lia.
  - rewrite Z.sub_diag. change ((0 + 1536 - 1) / 1536) with 0.
    replace ((n + 1536 - 1) / 1536) with 1; [done|]. apply (Z.div_unique _ _ _ (n - 1)); lia.
Qed.

Section fwrite.
Context (sb : superblock) (cur f i j : nat).
Context (s : mstate) (c : cache) (fl : file) (ip : inode) (x : addrs).
Context (Q : quiet sb (m_k s) c) (A : at_rest sb (m_k s) c i ip j x) (Hf : m_ftable s !! f = Some fl).
Notation p := (pr (m_pt s) cur).
Notation m := (v_mem (m_vm s)).
Context (Hsz : 0 <= p_sz p <= KERNBASE) (Hmap : user_mapped m (p_pgdir p) (p_sz p)).
Context (Hoff : 0 <= f_off fl <= i_size ip) (Hlog : 9 <= log_size (k_log (m_k s))).
Context (addr n : Z) (Ha : 0 <= addr) (Hle : addr + n <= p_sz p) (Hn : 0 <= n) (Hmx : f_off fl + n <= MAXFILE * BSIZE).
Notation buf k := (ubytes m (p_pgdir p) addr (Z.to_nat k)).

Lemma wrote_none : wrote_to sb s c f fl i ip j x (buf 0) 0 s c (a_addrs x).
Proof using All.
  assert (set_f_off (f_off fl + 0) fl = fl) as Ef by (rewrite Z.add_0_r; by destruct fl).
  assert (set_a_addrs (a_addrs x) x = x) as Ex by (by destruct x).
  split; [rewrite Ef, list_insert_id by done; by destruct s|]. split; [done|]. split; [by rewrite Ex|]. split; try done.
  - intros o Ho. destruct (Z.leb_spec (f_off fl) o), (Z.ltb_spec o (f_off fl + 0)); done || lia.
  - intros bn Hb%elem_of_touched. lia.
  - intros b Hb. by left.
  - assert (grown ip (f_off fl) 0 = ip) as -> by done. by rewrite list_insert_id by apply A.
  - rewrite Ex. by rewrite list_insert_id by apply A.
Qed.

Lemma loop_spec fuel : forall k s1 c1 a1,
  wrote_to sb s c f fl i ip j x (buf k) k s1 c1 a1 -> 0 <= k <= n -> n - k < Z.of_nat fuel ->
  (4 * rounds (n - k) <= nfree sb (c_view c1))%nat ->
  wp (filewrite_loop fuel cur f i addr n k) (fun r s' => r = n /\ exists c' a', wrote_to sb s c f fl i ip j x (buf n) n s' c' a') s1.
Proof using All.
  induction fuel as [|fuel IH]; intros k s1 c1 a1 W Hk Hfu Hfr; [lia|]. cbn [filewrite_loop].
  destruct (Z.ltb_spec k n) as [Hlt|Hge].
  2:{ assert (k = n) as -> by lia. wp_step. split; [done|]. by exists c1, a1. }
  set (n1 := if maxwrite <? n - k then maxwrite else n - k).
  assert (0 < n1 <= maxwrite /\ n1 <= n - k) as [Hn1 Hn1'] by (unfold n1; change maxwrite with 1536; destruct (Z.ltb_spec 1536 (n - k)); lia).
  rewrite (rounds_step (n - k) n1) in Hfr by (lia || done). destruct W as (Es & Q1 & A1 & W).
  assert (m_ftable s1 !! f = Some (set_f_off (f_off fl + k) fl)) as Hf1.
  { rewrite Es. simpl. by rewrite list_lookup_insert_eq by (by eapply lookup_lt_Some). }
  assert (m_pt s1 = m_pt s /\ m_vm s1 = m_vm s) as [Ep Ev] by (by rewrite Es).
  rewrite u32_small by lia.
  wp_call (round_spec sb cur f i j s1 c1 _ _ _ Q1 A1 Hf1); rewrite ?Ep, ?Ev; try done; try lia.
  { cbn [f_off set_f_off]. split; [lia|]. apply grown_size; lia. }
  { destruct (wt_log _ _ _ _ _ _ _ _ _ _ _ _ _ W) as (_ & _ & ->). done. }
  { cbn [f_off set_f_off]. lia. }
  intros r s2 [-> (c2 & a2 & W2 & Hnf)]. destruct (Z.ltb_spec n1 0); [lia|]. rewrite Z.eqb_refl. cbn [negb].
  apply (IH (k + n1) s2 c2 a2); [|lia|lia|replace (n - (k + n1)) with (n - k - n1) by lia; lia].
  destruct W2 as (Es2 & Q2 & A2 & W2). cbn [f_off set_f_off] in *. split; [|split; [done|split]].
  - rewrite Es2, Es. simpl. rewrite list_insert_insert_eq, Z.add_assoc. by destruct fl.
  - rewrite grown_twice in A2 by lia. exact A2.
  - rewrite Z2Nat.inj_add, ubytes_app, Z2Nat.id by lia. eapply wrote_trans; [rewrite length_ubytes; lia|lia|exact W|exact W2|lia|lia].
Qed.
End fwrite.

(** C10: [write] on a file that is open for writing returns the number of bytes
    asked for, having copied them from the process's memory to the file at
    its offset: the file has the user's bytes in that range and its other
    bytes elsewhere, the blocks it had are still its blocks and the ones it
    gained were free, and the offset has moved past the range.  The rest is
    as it was: every file that shares no block with it has its blocks and its
    bytes, every other inode on the disk and every other cached inode is
    unchanged, the blocks outside the log that are neither the bitmap, nor
    the block of the inode, nor the file's have their contents, and nothing
    else of the kernel has changed.  It does so in transactions of at most
    [maxwrite] bytes, none of which overflows the log or panics, and when it
    returns no transaction is open and every block on the disk has the
    contents the cache has; if the file has grown, the inode on the disk has
    the new size and the new blocks.  Conditions: no other system call is
    using the file system, four blocks are
    free for every round, the log has room for nine blocks, the user's buffer
    is mapped and the range is within the maximal file size. *)
Theorem filewrite_correct sb s c cur f fl ip j x addr n :
  let p := pr (m_pt s) cur in
  quiet sb (m_k s) c -> at_rest sb (m_k s) c (f_ip fl) ip j x ->
  m_ftable s !! f = Some fl -> f_type fl = FD_INODE -> f_writable fl = true ->
  0 <= p_sz p <= KERNBASE -> user_mapped (v_mem (m_vm s)) (p_pgdir p) (p_sz p) ->
  0 <= f_off fl <= i_size ip -> 9 <= log_size (k_log (m_k s)) ->
  0 <= addr -> 0 <= n -> addr + n <= p_sz p -> f_off fl + n <= MAXFILE * BSIZE ->
  (4 * rounds n <= nfree sb (c_view c))%nat ->
  wp (filewrite cur f addr n) (fun r s' => r = n /\ exists c' a',
    wrote_to sb s c f fl (f_ip fl) ip j x (ubytes (v_mem (m_vm s)) (p_pgdir p) addr (Z.to_nat n)) n s' c' a' /\
    (forall a2, kept sb (k_log (m_k s)) (c_view c) (a_addrs x) (c_view c') a' a2) /\
    forall b, b.1 <> 0 -> dread (k_disk (m_k s')) b = c_view c' b) s.
Proof.
  intros p Q A Hf Ht Hw Hsz Hmap Ho Hl Ha Hn Hle Hmx Hfr. unfold filewrite.
  eapply wp_run; [unfold getfile; rewrite bind_gets, Hf; reflexivity|]. rewrite Hw, Ht. cbn [negb].
  wp_call (loop_spec sb cur f (f_ip fl) j s c fl ip x Q A Hf Hsz Hmap Ho Hl addr n Ha Hle Hn Hmx).
  - exact (wrote_none sb cur f (f_ip fl) j s c fl ip x Q A Hf Hsz Hmap Ho Hl addr n Ha Hle Hn Hmx).
  - lia.
  - lia.
  - by rewrite Z.sub_0_r.
  - intros r s' [-> (c' & a' & W)]. rewrite Z.eqb_refl. wp_step. split; [done|]. exists c', a'. split; [done|].
    destruct W as (_ & Q' & _ & Wt). split; [intros a2; by eapply wrote_kept|]. intros b Hb. by eapply quiet_synced.
Qed.
End write.
