(* ===== verification/Exec.v ===== *)
(** * Running a program (exec.c, [loaduvm] of vm.c, [sys_exec] of sysfile.c) *)
From S2P Require Import Prelude Params Layout KState Driver Dll Bio Cache Log LogCrash CString FsBase FsAlloc Inode Ext2 Vfs Dir Pipe Kalloc Vm Proc Kernel File Syscall Process SysFile.

(** ** elf.h *)
Notation ELF_MAGIC := 0x464C457F (only parsing).
Notation ELF_PROG_LOAD := 1 (only parsing).
Record elfhdr := mk_elfhdr {
  e_magic : Z;
  e_entry : Z;
  e_phoff : Z;
  e_phnum : Z
}.
Notation sizeof_elfhdr := 52 (only parsing).
Definition dec_elfhdr (bs : list Z) : elfhdr := mk_elfhdr (rd 4 bs 0) (rd 4 bs 24) (rd 4 bs 28) (rd 2 bs 44).
Record proghdr := mk_proghdr {
  ph_type : Z;
  ph_off : Z;
  ph_vaddr : Z;
  ph_filesz : Z;
  ph_memsz : Z
}.
Notation sizeof_proghdr := 32 (only parsing).
Definition dec_proghdr (bs : list Z) : proghdr := mk_proghdr (rd 4 bs 0) (rd 4 bs 4) (rd 4 bs 8) (rd 4 bs 16) (rd 4 bs 20).

Section exec.
Context {LK : Linker} {DD : DiskDriver} {DS : Devsw} {KS : KStack} {SY : Symbols}.

(** ** [loaduvm] *)
Fixpoint loaduvm_loop (fuel : nat) (cur : nat) (pgdir addr : Z) (ip : nat) (offset sz i : Z) : M mstate Z :=
  match fuel with
  | O => out_of_fuel
  | S fuel =>
      if sz <=? i then mret 0 else
      pte ← liftv (walkpgdir pgdir (u32 (addr + i)) false);
      if pte =? 0 then panic "loaduvm: address should exist" else
      x ← liftv (ldw pte);
      let n := if sz - i <? PGSIZE then sz - i else PGSIZE in
      r ← runk cur (iops_readi ip (u32 (offset + i)) n);
      let pa := P2V (PTE_ADDR x) in
      d ← liftv (get_page pa);
      liftv (set_page pa (splice d 0 r.2)) ;;
      if negb (r.1 =? n) then mret (-1) else
      loaduvm_loop fuel cur pgdir addr ip offset sz (u32 (i + PGSIZE))
  end.
Definition loaduvm (cur : nat) (pgdir addr : Z) (ip : nat) (offset sz : Z) : M mstate Z :=
  if negb (addr mod PGSIZE =? 0) then panic "loaduvm: addr must be page aligned" else
  loaduvm_loop (S (Z.to_nat sz)) cur pgdir addr ip offset sz 0.

(** ** The program's segments: the new size, or [None] for [goto bad] *)
Definition load_segment (cur : nat) (pgdir : Z) (ip : nat) (sz off : Z) : M mstate (option Z) :=
  r ← runk cur (iops_readi ip (u32 off) sizeof_proghdr);
  if negb (r.1 =? sizeof_proghdr) then mret None else
  let ph := dec_proghdr r.2 in
  if negb (ph_type ph =? ELF_PROG_LOAD) then mret (Some sz) else
  if ph_memsz ph <? ph_filesz ph then mret None else
  if u32 (ph_vaddr ph + ph_memsz ph) <? ph_vaddr ph then mret None else
  sz ← liftv (allocuvm pgdir sz (u32 (ph_vaddr ph + ph_memsz ph)));
  if sz =? 0 then mret None else
  if negb (ph_vaddr ph mod PGSIZE =? 0) then mret None else
  l ← loaduvm cur pgdir (ph_vaddr ph) ip (ph_off ph) (ph_filesz ph);
  if l <? 0 then mret None else mret (Some sz).

Fixpoint load_segments (n : nat) (cur : nat) (pgdir : Z) (ip : nat) (sz off : Z) : M mstate (option Z) :=
  match n with
  | O => mret (Some sz)
  | S n =>
      r ← load_segment cur pgdir ip sz off;
      match r with
      | None => mret None
      | Some sz => load_segments n cur pgdir ip sz (s32 (off + sizeof_proghdr))
      end
  end.

(** ** The user stack: the strings, then [ustack] *)
Fixpoint push_args (pgdir : Z) (args : list (list Z)) (argc sp : Z) (ustack : list Z) : M mstate (option (Z * list Z)) :=
  match args with
  | [] => mret (Some (sp, ustack))
  | a :: args =>
      if MAXARG <=? argc then mret None else
      let sp := Z.land (u32 (sp - (Z.of_nat (length a) + 1))) (u32 (Z.lnot 3)) in
      r ← liftv (copyout pgdir sp (a ++ [0]));
      if r <? 0 then mret None else push_args pgdir args (argc + 1) sp (ustack ++ [sp])
  end.
Definition push_stack (pgdir : Z) (args : list (list Z)) (sz : Z) : M mstate (option Z) :=
  r ← push_args pgdir args 0 sz [];
  match r with
  | None => mret None
  | Some (sp, ptrs) =>
      let argc := Z.of_nat (length args) in
      let ustack := [0xffffffff; argc; u32 (sp - (argc + 1) * 4)] ++ ptrs ++ [0] in
      let sp := u32 (sp - (3 + argc + 1) * 4) in
      c ← liftv (copyout pgdir sp (mjoin (le_enc 4 <$> ustack)));
      if c <? 0 then mret None else mret (Some sp)
  end.

(** [for(last=s=path; *s; s++) if( *s == '/') last = s+1] *)
Fixpoint last_elem (last path : list Z) : list Z :=
  match path with
  | [] => last
  | c :: p => last_elem (if c =? slash then p else last) p
  end.

(** ** [exec] *)

(** The label [bad]. *)
Definition exec_bad (cur : nat) (pgdir : Z) (ip : option nat) : M mstate Z :=
  (if pgdir =? 0 then mret tt else liftv (freevm pgdir)) ;;
  (match ip with
   | Some ip => runk cur (iops_iunlockput ip) ;; runk cur end_op
   | None => mret tt
   end) ;;
  mret (-1).

(** From the guard page on; [sz] is the size of the segments. *)
Definition exec_stack (cur : nat) (path : list Z) (args : list (list Z)) (pgdir sz entry : Z) : M mstate Z :=
  let sz := PGROUNDUP sz in
  sz ← liftv (allocuvm pgdir sz (u32 (sz + 2 * PGSIZE)));
  if sz =? 0 then exec_bad cur pgdir None else
  liftv (clearpteu pgdir (u32 (sz - 2 * PGSIZE))) ;;
  r ← push_stack pgdir args sz;
  match r with
  | None => exec_bad cur pgdir None
  | Some sp =>
      name ← unwrap (safestrcpy (last_elem path path ++ [0]) 16) "safestrcpy";
      updproc cur (fun p => set_p_name (splice (p_name p) 0 name) p) ;;
      old ← myproc cur;
      updproc cur (set_p_pgdir pgdir) ;;
      updproc cur (set_p_sz sz) ;;
      put_tf cur TF_EIP entry ;;
      put_tf cur TF_ESP sp ;;
      switchuvm cur ;;
      liftv (freevm (p_pgdir old)) ;;
      mret 0
  end.

Definition exec (cur : nat) (path : list Z) (args : list (list Z)) : M mstate Z :=
  runk cur begin_op ;;
  r ← runpath cur (namei path);
  match r with
  | None => runk cur end_op ;; mret (-1)
  | Some ip =>
      runk cur (iops_ilock ip) ;;
      h ← runk cur (iops_readi ip 0 sizeof_elfhdr);
      let elf := dec_elfhdr h.2 in
      if negb (h.1 =? sizeof_elfhdr) then exec_bad cur 0 (Some ip) else
      if negb (e_magic elf =? ELF_MAGIC) then exec_bad cur 0 (Some ip) else
      pgdir ← liftv setupkvm;
      if pgdir =? 0 then exec_bad cur 0 (Some ip) else
      sz ← load_segments (Z.to_nat (e_phnum elf)) cur pgdir ip 0 (s32 (e_phoff elf));
      match sz with
      | None => exec_bad cur pgdir (Some ip)
      | Some sz =>
          runk cur (iops_iunlockput ip) ;;
          runk cur end_op ;;
          exec_stack cur path args pgdir sz (e_entry elf)
      end
  end.

(** ** [sys_exec]: the argument strings, up to the null pointer *)
Fixpoint fetch_args (fuel : nat) (cur : nat) (uargv i : Z) : M mstate (option (list (list Z))) :=
  match fuel with
  | O => out_of_fuel
  | S fuel =>
      if MAXARG <=? i then mret None else
      a ← fetchint cur (u32 (uargv + 4 * i));
      match a with
      | None => mret None
      | Some a =>
          if a =? 0 then mret (Some []) else
          s ← fetchstr cur (u32 a);
          match s with
          | None => mret None
          | Some (p, len) =>
              bs ← load_user cur p (Z.to_nat len);
              rest ← fetch_args fuel cur uargv (i + 1);
              mret (cons bs <$> rest)
          end
      end
  end.
Definition sys_exec (cur : nat) : M mstate Z :=
  path ← argpath cur 0;
  uargv ← argint cur 1;
  match path, uargv with
  | Some path, Some uargv =>
      args ← fetch_args (S (Z.to_nat MAXARG)) cur (u32 uargv) 0;
      match args with
      | None => mret (-1)
      | Some args => exec cur path args
      end
  | _, _ => mret (-1)
  end.
End exec.
