(* ===== verification/Trap.v ===== *)
(** * Traps and system calls (trap.c, syscall.c, syscall.h, traps.h) *)
From S2P Require Import Prelude Params Console Kbd Layout KState Driver Dll Bio Cache Log LogCrash CString FsBase FsAlloc Inode Ext2 Vfs Dir Pipe Kalloc Vm Proc Kernel File Syscall Process SysFile Exec.

(** ** syscall.h *)
Notation SYS_fork := 1 (only parsing).
Notation SYS_exit := 2 (only parsing).
Notation SYS_wait := 3 (only parsing).
Notation SYS_pipe := 4 (only parsing).
Notation SYS_read := 5 (only parsing).
Notation SYS_kill := 6 (only parsing).
Notation SYS_exec := 7 (only parsing).
Notation SYS_fstat := 8 (only parsing).
Notation SYS_chdir := 9 (only parsing).
Notation SYS_dup := 10 (only parsing).
Notation SYS_getpid := 11 (only parsing).
Notation SYS_sbrk := 12 (only parsing).
Notation SYS_sleep := 13 (only parsing).
Notation SYS_uptime := 14 (only parsing).
Notation SYS_open := 15 (only parsing).
Notation SYS_write := 16 (only parsing).
Notation SYS_mknod := 17 (only parsing).
Notation SYS_unlink := 18 (only parsing).
Notation SYS_link := 19 (only parsing).
Notation SYS_mkdir := 20 (only parsing).
Notation SYS_close := 21 (only parsing).

(** ** traps.h *)
Notation T_SYSCALL := 64 (only parsing).
Notation T_IRQ0 := 32 (only parsing).
Notation IRQ_TIMER := 0 (only parsing).
Notation IRQ_KBD := 1 (only parsing).
Notation IRQ_COM1 := 4 (only parsing).
Notation IRQ_IDE := 14 (only parsing).
Notation IRQ_SPURIOUS := 31 (only parsing).

Section trap.
Context {LK : Linker} {DD : DiskDriver} {DS : Devsw} {KS : KStack} {SY : Symbols}.
(** The reads that the disk fails, as in Driver.v. *)
Context (ide_fails : Z -> Z -> bool).

(** ** Dispatch.  [exit] does not return, so there is no result to store. *)
Definition syscalls (num : Z) : option (nat -> M mstate Z) :=
  if num =? SYS_fork then Some sys_fork
  else if num =? SYS_wait then Some sys_wait
  else if num =? SYS_pipe then Some sys_pipe
  else if num =? SYS_read then Some sys_read
  else if num =? SYS_kill then Some sys_kill
  else if num =? SYS_exec then Some sys_exec
  else if num =? SYS_fstat then Some sys_fstat
  else if num =? SYS_chdir then Some sys_chdir
  else if num =? SYS_dup then Some sys_dup
  else if num =? SYS_getpid then Some sys_getpid
  else if num =? SYS_sbrk then Some sys_sbrk
  else if num =? SYS_sleep then Some sys_sleep
  else if num =? SYS_uptime then Some sys_uptime
  else if num =? SYS_open then Some sys_open
  else if num =? SYS_write then Some sys_write
  else if num =? SYS_mknod then Some sys_mknod
  else if num =? SYS_unlink then Some sys_unlink
  else if num =? SYS_link then Some sys_link
  else if num =? SYS_mkdir then Some sys_mkdir
  else if num =? SYS_close then Some sys_close
  else None.

(** Whether the process is still there. *)
Definition syscall (cur : nat) : M mstate bool :=
  eax ← get_tf cur TF_EAX;
  let num := s32 eax in
  if num =? SYS_exit then sys_exit cur ;; mret false else
  match syscalls num with
  | Some f => r ← f cur; put_tf cur TF_EAX r ;; mret true
  | None => put_tf cur TF_EAX (-1) ;; mret true
  end.

(** ** Interrupts.  [ds] are the bytes the keyboard or the serial port has. *)
Definition console_event (r : input * list Z * bool * bool) : M mstate unit :=
  let '(i, _, wake, _) := r in
  modify (set_m_input i) ;;
  if wake then wakeup ChanInput else mret tt.

Definition timer (cpu : Z) : M mstate unit :=
  if cpu =? 0 then
    modify (fun m => set_m_ticks (u32 (m_ticks m + 1)) m) ;;
    wakeup ChanTicks
  else mret tt.

(** [if(myproc() && myproc()->killed && (tf->cs&3) == DPL_USER) exit()]:
    whether the process is still there. *)
Definition exit_if_killed (cur : option nat) (cs : Z) : M mstate bool :=
  match cur with
  | None => mret true
  | Some c =>
      p ← myproc c;
      if p_killed p && (Z.land cs 3 =? DPL_USER) then exit c ;; mret false else mret true
  end.

(** What a trap does before the common end of [trap]. *)
Definition interrupt (cpu : Z) (cur : option nat) (ds : list Z) (trapno cs : Z) : M mstate unit :=
  if trapno =? T_IRQ0 + IRQ_TIMER then timer cpu
  else if (trapno =? T_IRQ0 + IRQ_IDE) || (trapno =? T_IRQ0 + IRQ_IDE + 1) then lift m_k set_m_k (Ide.ideintr ide_fails)
  else if trapno =? T_IRQ0 + IRQ_KBD then
    m ← gets (fun m => (m_shift m, m_input m));
    let '(shift, r) := kbdintr ds m.1 m.2 in
    modify (set_m_shift shift) ;;
    console_event r
  else if trapno =? T_IRQ0 + IRQ_COM1 then i ← gets m_input; console_event (consoleintr ds i)
  else if (trapno =? T_IRQ0 + 7) || (trapno =? T_IRQ0 + IRQ_SPURIOUS) then mret tt
  else
    match cur with
    | None => panic "trap"
    | Some c => if Z.land cs 3 =? 0 then panic "trap" else updproc c (set_p_killed true)
    end.

(** ** [trap].  A process that gives up the CPU in [yield] makes the last check,
    [exit_if_killed], when it runs again. *)
Definition trap (cpu : Z) (cur : option nat) (ds : list Z) (tf : Z) : M mstate unit :=
  trapno ← liftv (ldw (tf + TF_TRAPNO));
  if trapno =? T_SYSCALL then
    c ← unwrap cur "myproc: null pointer";
    p ← myproc c;
    if p_killed p then exit c else
    updproc c (set_p_tf tf) ;;
    here ← syscall c;
    if negb here then mret tt else
    p ← myproc c;
    if p_killed p then exit c else mret tt
  else
    w ← liftv (ldw (tf + TF_CS));
    let cs := w mod 2 ^ 16 in
    interrupt cpu cur ds trapno cs ;;
    here ← exit_if_killed cur cs;
    if negb here then mret tt else
    match cur with
    | None => mret tt
    | Some c =>
        p ← myproc c;
        if bool_decide (p_state p = RUNNING) && (trapno =? T_IRQ0 + IRQ_TIMER) then table (yield_table c)
        else exit_if_killed cur cs ;; mret tt
    end.
End trap.
