(* ===== verification/MachineKernel.v ===== *)
(** * The system calls at a concrete machine

  A process with one page of memory and a pipe whose two ends are its
  descriptors 0 and 1; it has made a system call whose first argument is 0.
  The theorems on arguments and on open files are exhibited there.  The last
  close of a file is exhibited in the same machine with an inode as the
  process's only open file. *)
From S2P Require Import Prelude Params Console Layout KState Driver Dll Bio Cache Log LogCrash FsBase FsAlloc Inode Ext2 Vfs Content FileIO Dir Paths Mkfs Machine Pipe Kalloc Vm VmSpec Proc Kernel File Syscall Process SysFile FileSpec MachineFs WriteSpec.

#[local] Existing Instance ide_driver.
#[local] Existing Instance demo_linker.
#[local] Instance kern_devsw : Devsw := {| dev_read := fun _ => None; dev_write := fun _ => None |}.
#[local] Instance kern_stack : KStack := {| stack_de := replicate 264 0; stack_after_de := []; stack_name := replicate 255 0 |}.

(** The page directory, the page table and the user page of the process; its
    kernel stack, with a trap frame at the bottom; the page of the pipe. *)
Definition kern_dir : Z := 0x81000000.
Definition kern_tab : Z := 0x81001000.
Definition kern_user : Z := 0x81002000.
Definition kern_kstack : Z := 0x81003000.
Definition kern_pipe : Z := 0x81004000.
Definition kern_free : Z := 0x80200000.

(** A string at address 0; the stack pointer is 16, the first argument 0. *)
Definition kern_mem : gmap Z (list Z) :=
  <[kern_dir := wr 4 blank 0 (V2P kern_tab + 7)]>
  (<[kern_tab := wr 4 blank 0 (V2P kern_user + 7)]>
  (<[kern_user := splice blank 0 [104; 105; 0]]>
  (<[kern_kstack := wr 4 blank (Z.to_nat TF_ESP) 16]> ∅))).

Definition kern_proc : proc :=
  mk_proc PGSIZE kern_dir kern_kstack RUNNING 1 None kern_kstack 0 None false
    ([Some 0%nat; Some 1%nat] ++ replicate 14 None) (Some 0%nat) (replicate 16 0).
Definition pipe_side (w : bool) : file := mk_file FD_PIPE 1 (negb w) w kern_pipe 0 0.
Definition no_file : file := mk_file FD_NONE 0 false false 0 0 0.
Definition kern_state : mstate :=
  mk_mstate demo_boot (mk_vmstate kern_mem kern_free)
    (mk_ptable (kern_proc :: replicate 63 no_proc) 2 (Some 0%nat))
    (pipe_side false :: pipe_side true :: replicate 98 no_file)
    {[ kern_pipe := pipe_init blank ]} 0 input0 0.

Lemma kern_pte va : 0 <= va < PGSIZE -> pte kern_mem kern_dir va = V2P kern_user + 7.
Proof.
  intros Hva. rewrite <- pte_base by lia.
  assert (base va = 0) as -> by (unfold base; rewrite Z.mod_small by done; lia). vm_compute. reflexivity.
Qed.
Lemma kern_mapped : user_mapped kern_mem kern_dir PGSIZE.
Proof. intros va Hva. rewrite kern_pte by done. vm_compute. reflexivity. Qed.

Lemma kern_args : int_at 0 kern_state (arg_addr 0 kern_state 0) = Some 0.
Proof. vm_compute. reflexivity. Qed.
Lemma kern_size : 0 <= PGSIZE <= KERNBASE.
Proof. lia. Qed.

Lemma args_checked_witness :
  argint 0 0 kern_state = Ret (Some 0) kern_state /\ argptr 0 0 4096 kern_state = Ret (Some 0) kern_state /\
  argptr 0 0 4097 kern_state = Ret None kern_state /\
  exists o, argstr 0 0 kern_state = Ret ((fun len => (0, len)) <$> o) kern_state /\ strlen_at 0 kern_state 0 o.
Proof.
  destruct (args_checked 0 kern_state 0 4096 kern_size kern_mapped ltac:(lia)) as (H1 & H2 & (r & H3 & H4)).
  destruct (args_checked 0 kern_state 0 4097 kern_size kern_mapped ltac:(lia)) as (_ & H2' & _).
  rewrite kern_args in *. split; [exact H1|]. split; [exact H2|]. split; [exact H2'|].
  destruct H4 as (o & Eo & Ho). rewrite Eo in H3. exists o. split; [exact H3|exact Ho].
Defined.

Lemma kern_pr i : pr (m_pt kern_state) i = if decide (i = 0%nat) then kern_proc else no_proc.
Proof.
  unfold pr. destruct i as [|i]; [done|]. rewrite decide_False by done.
  change (default no_proc (replicate 63 no_proc !! i) = no_proc).
  destruct (replicate 63 no_proc !! i) eqn:E; [|done]. by apply lookup_replicate in E as [-> _].
Qed.
Lemma kern_file f x : m_ftable kern_state !! f = Some x ->
  (f = 0%nat /\ x = pipe_side false) \/ (f = 1%nat /\ x = pipe_side true) \/ (2 <= f /\ x = no_file)%nat.
Proof.
  destruct f as [|[|f]]; [intros [= <-]; by left|intros [= <-]; right; by left|].
  intros H. change (replicate 98 no_file !! f = Some x) in H. apply lookup_replicate in H as [-> _]. right. right. split; [lia|done].
Qed.
Lemma kern_refs f : refs (m_pt kern_state) f = if decide (f < 2)%nat then 1 else 0.
Proof. destruct f as [|[|f]]; vm_compute; reflexivity. Qed.
Lemma kern_fd i f : Some f ∈ p_ofile (pr (m_pt kern_state) i) -> (f < 2)%nat.
Proof.
  rewrite kern_pr. destruct (decide (i = 0%nat)) as [->|Hi]; intros H.
  - apply list_elem_of_lookup in H as [k Hk]. destruct k as [|[|k]]; simplify_eq/=; [lia|lia|].
    change (replicate 14 (@None nat) !! k = Some (Some f)) in Hk. by apply lookup_replicate in Hk as [? _].
  - apply list_elem_of_lookup in H as [k Hk]. by apply lookup_replicate in Hk as [? _].
Qed.
Lemma kern_free_ok : free_ok (m_vm kern_state) [kern_free].
Proof.
  split; [split; [done|vm_compute; reflexivity]|apply NoDup_singleton|apply Forall_singleton; split; vm_compute; (reflexivity || discriminate)|].
  intros p. cbn [kern_state m_vm v_mem]. unfold kern_mem. rewrite !pg_insert.
  destruct (decide (p = kern_dir)); [apply length_blank_wr|]. destruct (decide (p = kern_tab)); [apply length_blank_wr|].
  destruct (decide (p = kern_user)); [vm_compute; reflexivity|]. destruct (decide (p = kern_kstack)); [vm_compute; reflexivity|].
  unfold pg. rewrite lookup_empty. apply length_replicate.
Qed.

Lemma kern_pipes a pp : m_pipes kern_state !! a = Some pp -> a = kern_pipe /\ pp = pipe_init blank.
Proof. intros H. change (({[ kern_pipe := pipe_init blank ]} : gmap Z pipe) !! a = Some pp) in H. by apply lookup_singleton_Some in H as [<- <-]. Qed.

Lemma kern_files_ok : files_ok (fun _ => 0) kern_state.
Proof.
  split.
  - done.
  - intros i. rewrite kern_pr. by destruct (decide (i = 0%nat)).
  - intros f x Hx. rewrite kern_refs. apply kern_file in Hx as [[-> ->]|[[-> ->]|[Hf ->]]]; [done|done|]. rewrite decide_False by lia. done.
  - intros f x Hx. by apply kern_file in Hx as [[-> ->]|[[-> ->]|[Hf ->]]].
  - intros i f Hf%kern_fd. lia.
  - intros f x Hx Ht. split; [by apply kern_file in Hx as [[-> ->]|[[-> ->]|[Hf ->]]]|]. exists (pipe_init blank).
    apply kern_file in Hx as [[-> ->]|[[-> ->]|[Hf ->]]]; (split; [apply lookup_singleton_eq|done]) || done.
  - intros a pp [-> ->]%kern_pipes. split; [|by exists true]. intros w _.
    exists (if w then 1%nat else 0%nat), (pipe_side w). by destruct w.
  - intros f g x y Hx Hy Tx Ty _ Hw.
    apply kern_file in Hx as [[-> ->]|[[-> ->]|[Hf ->]]], Hy as [[-> ->]|[[-> ->]|[Hg ->]]]; done.
  - exists [kern_free]. split; [exact kern_free_ok|]. intros a [pp [-> _]%kern_pipes].
    split; [split; vm_compute; (reflexivity || discriminate)|]. by rewrite list_elem_of_singleton.
Qed.
Lemma kern_typed : typed [] kern_state.
Proof. intros f x _ Hx. by apply kern_file in Hx as [[-> ->]|[[-> ->]|[Hf ->]]]. Qed.
Lemma kern_user_ok : user_ok 0 kern_state.
Proof. split; [simpl; lia|]. split; [exact kern_size|exact kern_mapped]. Qed.
Lemma kern_no_inode fd f x : fd_arg 0 kern_state 0 = Some (fd, f) -> m_ftable kern_state !! f = Some x -> f_ref x = 1 -> f_type x = FD_INODE ->
  droppable (m_k kern_state) (f_ip x).
Proof. intros _ Hx _ Ht. by apply kern_file in Hx as [[-> ->]|[[-> ->]|[Hf ->]]]. Qed.
Lemma kern_child : Forall (fun o => o = None) (p_ofile (pr (m_pt kern_state) 1)).
Proof. rewrite kern_pr. by apply Forall_replicate. Qed.

(** *** The same process with descriptor 0 on inode 0 *)
Definition open_file : file := mk_file FD_INODE 1 true true 0 0 2.
Definition inode_proc : proc :=
  mk_proc PGSIZE kern_dir kern_kstack RUNNING 1 None kern_kstack 0 None false
    (Some 0%nat :: replicate 15 None) (Some 0%nat) (replicate 16 0).
Definition inode_state : mstate :=
  mk_mstate (with_inode demo_inode demo_boot) (mk_vmstate kern_mem kern_free)
    (mk_ptable (inode_proc :: replicate 63 no_proc) 2 (Some 0%nat)) (open_file :: replicate 99 no_file) ∅ 0 input0 0.

Lemma inode_pr i : pr (m_pt inode_state) i = if decide (i = 0%nat) then inode_proc else no_proc.
Proof.
  unfold pr. destruct i as [|i]; [done|]. rewrite decide_False by done.
  change (default no_proc (replicate 63 no_proc !! i) = no_proc).
  destruct (replicate 63 no_proc !! i) eqn:E; [|done]. by apply lookup_replicate in E as [-> _].
Qed.
Lemma inode_file f x : m_ftable inode_state !! f = Some x -> (f = 0%nat /\ x = open_file) \/ (1 <= f /\ x = no_file)%nat.
Proof.
  destruct f as [|f]; [intros [= <-]; by left|].
  intros H. change (replicate 99 no_file !! f = Some x) in H. apply lookup_replicate in H as [-> _]. right. split; [lia|done].
Qed.
Lemma inode_refs f : refs (m_pt inode_state) f = if decide (f = 0%nat) then 1 else 0.
Proof. destruct f as [|f]; vm_compute; reflexivity. Qed.
Lemma inode_files_ok : files_ok (fun _ => 0) inode_state.
Proof.
  split.
  - done.
  - intros i. rewrite inode_pr. by destruct (decide (i = 0%nat)).
  - intros f x Hx. rewrite inode_refs. apply inode_file in Hx as [[-> ->]|[Hf ->]]; [done|]. rewrite decide_False by lia. done.
  - intros f x Hx. by apply inode_file in Hx as [[-> ->]|[Hf ->]].
  - intros i f. rewrite inode_pr. destruct (decide (i = 0%nat)) as [->|Hi]; intros H; apply list_elem_of_lookup in H as [k Hk].
    + destruct k as [|k]; simplify_eq/=; [lia|]. change (replicate 15 (@None nat) !! k = Some (Some f)) in Hk. by apply lookup_replicate in Hk as [? _].
    + by apply lookup_replicate in Hk as [? _].
  - intros f x Hx Ht. by apply inode_file in Hx as [[-> ->]|[Hf ->]].
  - intros a pp Hp. exfalso; exact (lookup_empty_Some (M := gmap Z) a pp Hp).
  - intros f g x y Hx Hy Tx. by apply inode_file in Hx as [[-> ->]|[Hf ->]].
  - exists [kern_free]. split; [exact kern_free_ok|]. intros a [pp Hp]. exfalso; exact (lookup_empty_Some (M := gmap Z) a pp Hp).
Qed.
Lemma inode_typed : typed [] inode_state.
Proof. intros f x _ Hx. by apply inode_file in Hx as [[-> ->]|[Hf ->]]. Qed.
Lemma inode_user_ok : user_ok 0 inode_state.
Proof. split; [simpl; lia|]. split; [exact kern_size|exact kern_mapped]. Qed.
Lemma inode_args : fd_arg 0 inode_state 0 = Some (0, 0%nat).
Proof.
  assert (int_at 0 inode_state (arg_addr 0 inode_state 0) = Some 0) as E by (vm_compute; reflexivity). unfold fd_arg. rewrite E. reflexivity.
Qed.
Lemma inode_droppable fd f x : fd_arg 0 inode_state 0 = Some (fd, f) -> m_ftable inode_state !! f = Some x -> f_ref x = 1 -> f_type x = FD_INODE ->
  droppable (m_k inode_state) (f_ip x).
Proof.
  intros _ Hx _ Ht. apply inode_file in Hx as [[-> ->]|[_ ->]]; [|done]. split.
  - split; vm_compute; [reflexivity|discriminate].
  - reflexivity.
  - exists demo_inode. split_and!; [reflexivity|reflexivity|by eexists|reflexivity].
Qed.

Lemma files_counted_witness :
  fd_arg 0 kern_state 0 = Some (0, 0%nat) /\
  (exists r s', sys_dup 0 kern_state = Ret r s' /\ files_ok (fun _ => 0) s') /\
  (exists r s', sys_close 0 kern_state = Ret r s' /\ files_ok (fun _ => 0) s' /\ p_ofile (pr (m_pt s') 0) !! 0%nat = Some None) /\
  (exists r s', pipe_fds 0 kern_state = Ret r s' /\ files_ok (fun _ => 0) s') /\
  (exists s', (dup_files 0 ;; table (fork_copy 0 1 kern_dir [])) kern_state = Ret tt s' /\ files_ok (fun _ => 0) s' /\
     p_ofile (pr (m_pt s') 1) = p_ofile (pr (m_pt kern_state) 0)) /\
  (exists r s', sys_close 0 inode_state = Ret r s' /\ files_ok (fun _ => 0) s' /\ irefs (m_k s') 0 = 0).
Proof.
  assert (fd_arg 0 kern_state 0 = Some (0, 0%nat)) as E by (unfold fd_arg; rewrite kern_args; reflexivity).
  destruct (files_counted 0 kern_state kern_files_ok kern_typed kern_user_ok) as (H1 & H2 & H3 & H4). split; [exact E|]. split.
  { destruct H1 as (r & s' & R & [G _]). exact (ex_intro _ r (ex_intro _ s' (conj R G))). } split.
  { destruct (H2 kern_no_inode) as (r & s' & R & [G _] & Hfd). exact (ex_intro _ r (ex_intro _ s' (conj R (conj G (proj1 (Hfd 0 0%nat E)))))). }
  split; [destruct H3 as (r & s' & R & [G _] & _); exact (ex_intro _ r (ex_intro _ s' (conj R G)))|].
  split.
  { destruct (H4 1%nat kern_dir [] ltac:(done) ltac:(simpl; lia) kern_child) as (s' & R & [G _] & Ho).
    exact (ex_intro _ s' (conj R (conj G Ho))). }
  destruct (files_counted 0 inode_state inode_files_ok inode_typed inode_user_ok) as (_ & H5 & _).
  destruct (H5 inode_droppable) as (r & s' & R & [G _] & Hfd). destruct (Hfd 0 0%nat inode_args) as [_ Hir].
  exact (ex_intro _ r (ex_intro _ s' (conj R (conj G (Hir open_file eq_refl eq_refl eq_refl))))).
Defined.

(** ** Between two system calls

    The machine of MachineFs.v after its transaction has ended, with the file
    of four bytes open for writing. *)
Lemma demo_quiet : exists k c, quiet mkfs_sb k c /\ at_rest mkfs_sb k c 0 demo_inode 0 demo_addrs /\
  nfree mkfs_sb (c_view c) = 958%nat /\ log_size (k_log k) = 30.
Proof.
  destruct demo_exists as (s & c & H). set (ip := set_i_lock (mk_sleeplock true (k_pid s)) demo_inode).
  assert (oinode mkfs_sb (with_inode ip s) c (k_log s) 0 ip 0 demo_addrs) as O by (by apply root_oinode).
  destruct (ds_log _ _ H) as (_ & Ho & Hc), (ds_same _ _ H) as (_ & E2 & E3).
  destruct (close_txn mkfs_sb (with_inode ip s) c (k_log s) 0 ip 0 demo_addrs O Ho Hc) as [_ E]; try done.
  { rewrite E2, E3. simpl. klia. }
  destruct (proj1 (wp_Ret _ _ _) E) as (? & k & _ & c' & Q & A & HV & _ & (_ & _ & E4)).
  exists k, c'. split; [done|]. split; [done|]. split; [|by rewrite E4, E3].
  rewrite <- (demo_nfree s c H). apply (nfree_off_log mkfs_sb (k_log s)); [apply O|].
  intros b [_ Hb]. apply HV. split; [done|]. by intros [_ ?].
Qed.

Definition write_state (k : kstate) : mstate :=
  mk_mstate k (mk_vmstate kern_mem kern_free) (m_pt kern_state) [open_file] ∅ 0 input0 0.

Lemma filewrite_correct_witness : exists k c, quiet mkfs_sb k c /\
  wp (filewrite 0 0 0 3000) (fun r s' => r = 3000 /\ exists c' a',
    quiet mkfs_sb (m_k s') c' /\ fbyte (c_view c') a' 2 = 104 /\ m_ftable s' !! 0%nat = Some (set_f_off 3002 open_file) /\
    forall b, b.1 <> 0 -> dread (k_disk (m_k s')) b = c_view c' b) (write_state k).
Proof.
  destruct demo_quiet as (k & c & Q & A & Hfr & Hl). exists k, c. split; [exact Q|].
  eapply wp_mono; [apply (filewrite_correct mkfs_sb (write_state k) c 0 0 open_file demo_inode 0 demo_addrs 0 3000 Q A)|].
  - reflexivity.
  - reflexivity.
  - reflexivity.
  - exact kern_size.
  - exact kern_mapped.
  - simpl. lia.
  - change (9 <= log_size (k_log k)). lia.
  - lia.
  - lia.
  - change (0 + 3000 <= PGSIZE). lia.
  - cbn [open_file f_off]. klia.
  - rewrite Hfr. vm_compute. lia.
  - intros r s' [Er (c' & a' & (Es & Q' & A' & W) & _ & Hd)]. split; [exact Er|]. exists c', a'. split; [exact Q'|]. split.
    { rewrite (wt_bytes _ _ _ _ _ _ _ _ _ _ _ _ _ W) by klia. cbn [open_file f_off]. vm_compute. reflexivity. }
    split; [rewrite Es; reflexivity|exact Hd].
Defined.
