(* ===== verification/Interact.v ===== *)
(** * Programs that talk to an environment

  A user program talks to the kernel by system calls, boot code and drivers
  talk to devices by port accesses.  Such a program is an interaction tree
  ([itree E A] of the ITree library) over the type [E] of its requests, with
  [loop] for the loops of the source.  The environment is a relation that
  says which answers a request may get in a state, or that it may never be
  answered.  [must] is total correctness for every choice of the
  environment: the program ends, by returning or by a request that is not
  answered, and the state it ends in is as the postconditions say. *)
From S2P Require Import Prelude.
From ITree Require Import ITree.

(** The trees, for files that use no more of the library. *)
Notation tree := itree (only parsing).

Global Instance itree_ret {E : Type -> Type} : MRet (itree E) := fun A a => Ret a.
Global Instance itree_bind {E : Type -> Type} : MBind (itree E) := fun A B f t => ITree.bind t f.

Definition call {E : Type -> Type} {A} (e : E A) : itree E A := ITree.trigger e.

(** [for(;;)]: the body says whether to go on ([inl]) or to leave ([inr]). *)
Definition loop {E : Type -> Type} {I A} (body : I -> itree E (I + A)) (i : I) : itree E A := ITree.iter body i.

(** The next thing a program does: it is done, takes a silent step, or asks. *)
Inductive action (E : Type -> Type) (A : Type) : Type :=
| Done (a : A)
| Silent (t : itree E A)
| Asks (B : Type) (e : E B) (k : B -> itree E A).
Arguments Done {E A} a.
Arguments Silent {E A} t.
Arguments Asks {E A B} e k.
Definition action_of {E : Type -> Type} {A} (t : itree E A) : action E A :=
  match observe t with
  | RetF a => Done a
  | TauF t => Silent t
  | VisF e k => Asks e k
  end.

(** A request of type [E void] has no answer: what follows it never runs. *)
Definition never {E : Type -> Type} {A} (e : E Empty_set) : itree E A := call e ≫= fun x : Empty_set => match x with end.

Fixpoint each {E : Type -> Type} {A} (l : list A) (f : A -> itree E unit) : itree E unit :=
  match l with
  | [] => mret tt
  | x :: l => f x ;; each l f
  end.

Lemma observe_bind {E : Type -> Type} {A B} (t : itree E A) (k : A -> itree E B) :
  observe (t ≫= k) = match observe t with
                     | RetF a => observe (k a)
                     | TauF t => TauF (t ≫= k)
                     | VisF e h => VisF e (fun x => h x ≫= k)
                     end.
Proof.
  change (observe (t ≫= k)) with (observe (match observe t with
    | RetF a => k a | TauF t => Tau (t ≫= k) | VisF e h => Vis e (fun x => h x ≫= k) end)).
  by destruct (observe t).
Qed.

(** The environment: [env_step e s o] for an answer and the next state, or
    [None] if the program does not go on. *)
Class Env (E : Type -> Type) (S : Type) := env_step : forall A, E A -> S -> option (A * S) -> Prop.
Global Arguments env_step {E S _ A} e s o.

Section must.
Context {E : Type -> Type} {S : Type} `{!Env E S}.

(** [H] is the postcondition of requests without answer, [Q] that of a
    return. *)
Inductive mustF (H : forall B, E B -> S -> Prop) {A} (Q : A -> S -> Prop) : itree' E A -> S -> Prop :=
| must_retF a s : Q a s -> mustF H Q (RetF a) s
| must_tauF t s : mustF H Q (observe t) s -> mustF H Q (TauF t) s
| must_visF B (e : E B) k s :
    (exists o, env_step e s o) -> (env_step e s None -> H B e s) ->
    (forall b s', env_step e s (Some (b, s')) -> mustF H Q (observe (k b)) s') ->
    mustF H Q (VisF e k) s.

Definition must (H : forall B, E B -> S -> Prop) {A} (Q : A -> S -> Prop) (t : itree E A) (s : S) : Prop :=
  mustF H Q (observe t) s.

Implicit Type H : forall B, E B -> S -> Prop.

Lemma must_ret H {A} (Q : A -> S -> Prop) (a : A) s : Q a s -> must H Q (mret a) s.
Proof. by constructor. Qed.

Lemma must_mono H {A} (Q Q' : A -> S -> Prop) t s :
  must H Q t s -> (forall a s', Q a s' -> Q' a s') -> must H Q' t s.
Proof. unfold must. intros Hm HQ. induction Hm; [constructor; auto..|]. by apply must_visF. Qed.

Lemma must_bind H {A B} (Q : B -> S -> Prop) (t : itree E A) (k : A -> itree E B) s :
  must H (fun a s' => must H Q (k a) s') t s -> must H Q (t ≫= k) s.
Proof.
  unfold must at 1 3. rewrite observe_bind. induction 1 as [a s Ha|t' s Hm IH|C e h s Hex Hh Hk IH].
  - done.
  - constructor. by rewrite observe_bind.
  - constructor; [done|done|]. intros b s' Hb. rewrite observe_bind. by apply IH.
Qed.

Lemma must_call H {A} (Q : A -> S -> Prop) (e : E A) s :
  (exists o, env_step e s o) -> (env_step e s None -> H A e s) ->
  (forall a s', env_step e s (Some (a, s')) -> Q a s') -> must H Q (call e) s.
Proof. intros Hex Hh Hk. apply must_visF; [done|done|]. intros a s' Ha. constructor. auto. Qed.

(** A request that the environment answers in one way only. *)
Lemma must_call1 H {A} (Q : A -> S -> Prop) (e : E A) s a s' :
  (forall o, env_step e s o <-> o = Some (a, s')) -> Q a s' -> must H Q (call e) s.
Proof.
  intros Ho HQ. apply must_call; [eexists; by apply Ho|by intros ?%Ho|]. by intros b s2 [= -> ->]%Ho.
Qed.

(** A request that is never answered ends the program. *)
Lemma must_never H {A} (Q : A -> S -> Prop) (e : E Empty_set) s :
  env_step e s None -> H Empty_set e s -> must H Q (never e) s.
Proof. intros He HH. apply must_bind, must_call; [by exists None|done|]. by intros []. Qed.

(** One round of a loop. *)
Lemma must_loop H {I A} (Q : A -> S -> Prop) (body : I -> itree E (I + A)) (i : I) s :
  must H (fun r s' => match r with inl j => must H Q (loop body j) s' | inr a => Q a s' end) (body i) s ->
  must H Q (loop body i) s.
Proof.
  intros Hm. assert (must H Q (body i ≫= fun r => match r with inl j => Tau (loop body j) | inr a => Ret a end) s) as Hb.
  { apply must_bind. eapply must_mono; [done|]. intros [j|a] s' Hj; by constructor. }
  exact Hb.
Qed.

Lemma must_each H {A} (f : A -> itree E unit) (l : list A) (P : list A -> S -> Prop) s :
  P [] s -> (forall pre x post s, pre ++ x :: post = l -> P pre s -> must H (fun _ s' => P (pre ++ [x]) s') (f x) s) ->
  must H (fun _ s' => P l s') (each l f) s.
Proof.
  intros HP Hf. assert (forall rest done s, done ++ rest = l -> P done s -> must H (fun _ s' => P l s') (each rest f) s) as Hgen.
  { clear s HP. induction rest as [|x rest IH]; intros done s E1 HP; cbn [each].
    - apply must_ret. by rewrite app_nil_r in E1; subst.
    - apply must_bind. eapply must_mono; [by apply (Hf done x rest)|].
      intros u s' HP'. apply (IH (done ++ [x])); [by rewrite <- app_assoc|done]. }
  by apply (Hgen l []).
Qed.
End must.

Lemma action_of_bind {E : Type -> Type} {A B} (t : itree E A) (k : A -> itree E B) :
  action_of (t ≫= k) = match action_of t with
                       | Done a => action_of (k a)
                       | Silent t => Silent (t ≫= k)
                       | Asks e h => Asks e (fun x => h x ≫= k)
                       end.
Proof. unfold action_of. rewrite observe_bind. by destruct (observe t). Qed.

Ltac must_step :=
  lazymatch goal with
  | |- must _ _ (_ ≫= _) _ => apply must_bind
  | |- must _ _ (mret _) _ => apply must_ret
  | |- must _ _ (if Z.ltb ?x ?y then _ else _) _ =>
      let v := eval cbv [Z.ltb Z.compare Z.of_nat] in (Z.ltb x y) in
      lazymatch v with true => change (Z.ltb x y) with true | false => change (Z.ltb x y) with false end
  end.
Ltac must_steps := repeat (cbv beta iota; must_step); cbv beta iota.
