(* ===== verification/User.v ===== *)
(** * User programs (user.h, ulib.c, cat.c, wc.c, ls.c, echo.c, kill.c, ln.c, mkdir.c, rm.c, zombie.c, stressfs.c, forktest.c, init.c)

  A program is an interaction tree over the system calls of user.h.  A C
  string is the list of the bytes before its 0; [args] is argv from argv[1]
  on. *)
From S2P Require Import Prelude Params Layout Inode CString Ulib Printf Interact.

(** ** System calls (user.h) *)

(** [Read] answers with its result and the bytes stored, [Pipe] and [Fstat]
    with what they store, or [None] for -1.  [Crash] is undefined behaviour. *)
Variant sysE : Type -> Type :=
| Fork : sysE Z
| Exit : sysE Empty_set
| Wait : sysE Z
| Pipe : sysE (option (Z * Z))
| Write (fd : Z) (bs : list Z) : sysE Z
| Read (fd n : Z) : sysE (Z * list Z)
| Close (fd : Z) : sysE Z
| Kill (pid : Z) : sysE Z
| Exec (path : list Z) (argv : list (list Z)) : sysE Z
| Open (path : list Z) (mode : Z) : sysE Z
| Mknod (path : list Z) (major minor : Z) : sysE Z
| Unlink (path : list Z) : sysE Z
| Fstat (fd : Z) : sysE (option stat)
| Link (old new : list Z) : sysE Z
| Mkdir (path : list Z) : sysE Z
| Chdir (path : list Z) : sysE Z
| Dup (fd : Z) : sysE Z
| SleepTicks (n : Z) : sysE Z
| Crash : sysE Empty_set.

Notation prog := (tree sysE).
Definition exit {A} : prog A := never Exit.

(** String literals *)
Definition text (s : string) : list Z := (fun a => Z.of_nat (Ascii.nat_of_ascii a)) <$> String.list_ascii_of_string s.
Definition line (s : string) : list Z := text s ++ [10].

(** ** printf: one [write] per character *)
Inductive varg := AInt (z : Z) | AStr (s : list Z).

(** The words on the stack: a string is passed by an address. *)
Definition words_of (args : list varg) : list Z :=
  imap (fun i a => match a with AInt z => u32 z | AStr _ => Z.of_nat (S i) end) args.
Definition string_of (args : list varg) (p : Z) : list Z :=
  match args !! (Z.to_nat p - 1)%nat with Some (AStr s) => s ++ [0] | _ => [] end.
Definition formatted (fmt : list Z) (args : list varg) : option (list Z) :=
  printf (string_of args) (fmt ++ [0]) (words_of args).

Definition putc (fd c : Z) : prog unit := call (Write fd [c]) ;; mret tt.
Definition uprintf (fd : Z) (fmt : list Z) (args : list varg) : prog unit :=
  match formatted fmt args with
  | Some out => each out (putc fd)
  | None => never Crash
  end.

(** ** ulib.c: stat *)
Definition ustat (n : list Z) : prog (option stat) :=
  fd ← call (Open n O_RDONLY);
  if fd <? 0 then mret None else
  r ← call (Fstat fd);
  call (Close fd) ;;
  mret r.

(** The loop over the files of the programs that read them: open, [f], close *)
Definition on_files (cannot : string) (f : Z -> list Z -> prog unit) (args : list (list Z)) : prog unit :=
  each args (fun a =>
    fd ← call (Open a 0);
    if fd <? 0 then uprintf 1 (line cannot) [AStr a] ;; exit else
    f fd a ;;
    call (Close fd) ;; mret tt).

(** ** cat.c *)
Module Cat.
Definition cat_loop (fd : Z) : prog Z :=
  loop (fun _ : unit =>
    '(n, buf) ← call (Read fd 512);
    if 0 <? n then
      w ← call (Write 1 (take (Z.to_nat n) buf));
      if negb (w =? n) then uprintf 1 (line "cat: write error") [] ;; exit else mret (inl tt)
    else mret (inr n)) tt.
Definition cat (fd : Z) : prog unit :=
  n ← cat_loop fd;
  if n <? 0 then uprintf 1 (line "cat: read error") [] ;; exit else mret tt.
Definition main (args : list (list Z)) : prog unit :=
  match args with
  | [] => cat 0 ;; exit
  | _ => on_files "cat: cannot open %s" (fun fd _ => cat fd) args ;; exit
  end.
End Cat.

(** ** wc.c *)
Module Wc.
(** [" \r\t\n\v"] *)
Notation spaces := [32; 13; 9; 10; 11] (only parsing).

(** [l], [w], [c] and [inword] after one more character *)
Definition count : Type := Z * Z * Z * bool.
Definition wc_char (s : count) (b : Z) : count :=
  let '(l, w, c, inword) := s in
  let c := s32 (c + 1) in
  let l := if b =? 10 then s32 (l + 1) else l in
  match strchr (spaces ++ [0]) b with
  | Some (Some _) => (l, w, c, false)
  | _ => if inword then (l, w, c, true) else (l, s32 (w + 1), c, true)
  end.
Definition wc_loop (fd : Z) : prog (Z * count) :=
  loop (fun s : count =>
    '(n, buf) ← call (Read fd 512);
    if 0 <? n then mret (inl (foldl wc_char s (take (Z.to_nat n) buf))) else mret (inr (n, s))) (0, 0, 0, false).
Definition wc (fd : Z) (name : list Z) : prog unit :=
  '(n, (l, w, c, _)) ← wc_loop fd;
  if n <? 0 then uprintf 1 (line "wc: read error") [] ;; exit else
  uprintf 1 (line "%d %d %d %s") [AInt l; AInt w; AInt c; AStr name].
Definition main (args : list (list Z)) : prog unit :=
  match args with
  | [] => wc 0 [] ;; exit
  | _ => on_files "wc: cannot open %s" wc args ;; exit
  end.
End Wc.

(** ** ls.c *)
Module Ls.
(** The part of [path] after the last slash *)
Fixpoint last_name (path name : list Z) : list Z :=
  match path with
  | [] => name
  | c :: path => if c =? 47 then last_name path path else last_name path name
  end.
(** [buf] is blank-padded to DIRSIZ characters. *)
Definition fmtname (path : list Z) : list Z :=
  let p := last_name path path in
  if DIRSIZ <=? Z.of_nat (length p) then p else p ++ replicate (Z.to_nat DIRSIZ - length p) 32.
Definition show (path : list Z) (st : stat) : prog unit :=
  uprintf 1 (line "%s %d %d %d") [AStr (fmtname path); AInt (st_type st); AInt (st_ino st); AInt (st_size_ st)].

Fixpoint cstr (s : list Z) : list Z := match s with c :: s => if c =? 0 then [] else c :: cstr s | [] => [] end.

(** The entries of a directory, read one by one *)
Definition ls_dir (fd : Z) (path : list Z) : prog unit :=
  loop (fun _ : unit =>
    '(n, bs) ← call (Read fd sizeof_dirent);
    if negb (n =? sizeof_dirent) then mret (inr tt) else
    let de := dec_dirent bs in
    if de_inum de =? 0 then mret (inl tt) else
    let buf := path ++ 47 :: cstr (de_name de) in
    st ← ustat buf;
    match st with
    | None => uprintf 1 (line "ls: cannot stat %s") [AStr buf]
    | Some st => show buf st
    end ;;
    mret (inl tt)) tt.

Definition ls (path : list Z) : prog unit :=
  fd ← call (Open path 0);
  if fd <? 0 then uprintf 2 (line "ls: cannot open %s") [AStr path] else
  st ← call (Fstat fd);
  match st with
  | None => uprintf 2 (line "ls: cannot stat %s") [AStr path] ;; call (Close fd) ;; mret tt
  | Some st =>
      (if st_type st =? T_FILE then show path st
       else if st_type st =? T_DIR then
         (if 512 <? Z.of_nat (length path) + 1 + DIRSIZ + 1 then uprintf 1 (line "ls: path too long") []
          else ls_dir fd path)
       else mret tt) ;;
      call (Close fd) ;; mret tt
  end.
Definition main (args : list (list Z)) : prog unit :=
  match args with
  | [] => ls (text ".") ;; exit
  | _ => each args ls ;; exit
  end.
End Ls.

(** ** echo.c *)
Module Echo.
Fixpoint echo (args : list (list Z)) : prog unit :=
  match args with
  | [] => mret tt
  | a :: args => uprintf 1 (text "%s%s") [AStr a; AStr (match args with [] => [10] | _ => [32] end)] ;; echo args
  end.
Definition main (args : list (list Z)) : prog unit := echo args ;; exit.
End Echo.

(** ** kill.c, ln.c, mkdir.c, rm.c, zombie.c *)
Module Kill.
Definition main (args : list (list Z)) : prog unit :=
  match args with
  | [] => uprintf 2 (line "usage: kill pid...") [] ;; exit
  | _ => each args (fun a => match atoi (a ++ [0]) with
                             | Some pid => call (Kill pid) ;; mret tt
                             | None => never Crash
                             end) ;; exit
  end.
End Kill.
Module Ln.
Definition main (args : list (list Z)) : prog unit :=
  match args with
  | [old; new] =>
      r ← call (Link old new);
      (if r <? 0 then uprintf 2 (line "link %s %s: failed") [AStr old; AStr new] else mret tt) ;;
      exit
  | _ => uprintf 2 (line "Usage: ln old new") [] ;; exit
  end.
End Ln.

(** The calls on the arguments, up to the first that fails *)
Fixpoint until_failure (failed : string) (f : list Z -> sysE Z) (args : list (list Z)) : prog unit :=
  match args with
  | [] => mret tt
  | a :: args =>
      r ← call (f a);
      if r <? 0 then uprintf 2 (line failed) [AStr a] else until_failure failed f args
  end.
Module MkdirProg.
Definition main (args : list (list Z)) : prog unit :=
  match args with
  | [] => uprintf 2 (line "Usage: mkdir files...") [] ;; exit
  | _ => until_failure "mkdir: %s failed to create" Mkdir args ;; exit
  end.
End MkdirProg.
Module Rm.
Definition main (args : list (list Z)) : prog unit :=
  match args with
  | [] => uprintf 2 (line "Usage: rm files...") [] ;; exit
  | _ => until_failure "rm: %s failed to delete" Unlink args ;; exit
  end.
End Rm.
Module Zombie.
Definition main : prog unit :=
  r ← call Fork;
  (if 0 <? r then call (SleepTicks 5) ;; mret tt else mret tt) ;;
  exit.
End Zombie.

(** ** stressfs.c *)
Module Stressfs.
(** [for(i = 0; i < 4; i++) if(fork() > 0) break;] *)
Fixpoint forks (n : nat) (i : Z) : prog Z :=
  match n with
  | O => mret i
  | S n => r ← call Fork; if 0 <? r then mret i else forks n (i + 1)
  end.
Definition main : prog unit :=
  uprintf 1 (line "stressfs starting") [] ;;
  let data := replicate 512 97 in
  i ← forks 4 0;
  uprintf 1 (line "write %d") [AInt i] ;;
  let path := text "stressfs" ++ [48 + i] in
  fd ← call (Open path (Z.lor O_CREATE O_RDWR));
  each (seq 0 20) (fun _ => call (Write fd data) ;; mret tt) ;;
  call (Close fd) ;;
  uprintf 1 (line "read") [] ;;
  fd ← call (Open path O_RDONLY);
  each (seq 0 20) (fun _ => call (Read fd 512) ;; mret tt) ;;
  call (Close fd) ;;
  call Wait ;;
  exit.
End Stressfs.

(** ** forktest.c, which has a [printf] of its own *)
Module Forktest.
Notation N := 1000%nat (only parsing).
Definition print (fd : Z) (s : list Z) : prog unit := call (Write fd s) ;; mret tt.
(** The number of forks that succeeded *)
Fixpoint forks (k : nat) (n : nat) : prog nat :=
  match k with
  | O => mret n
  | S k =>
      pid ← call Fork;
      if pid <? 0 then mret n else
      if pid =? 0 then exit else forks k (S n)
  end.
Definition forktest : prog unit :=
  print 1 (line "fork test") ;;
  n ← forks N 0;
  if (n =? N)%nat then print 1 (line "fork claimed to work N times!") ;; exit else
  each (seq 0 n) (fun _ =>
    r ← call Wait;
    if r <? 0 then print 1 (line "wait stopped early") ;; exit else mret tt) ;;
  r ← call Wait;
  if negb (r =? -1) then print 1 (line "wait got too many") ;; exit else
  print 1 (line "fork test OK").
Definition main : prog unit := forktest ;; exit.
End Forktest.

(** ** init.c *)
Module Init.
(** [while((wpid=wait()) >= 0 && wpid != pid) printf(1, "zombie!\n");] *)
Definition reap (pid : Z) : prog unit :=
  loop (fun _ : unit =>
    wpid ← call Wait;
    if (0 <=? wpid) && negb (wpid =? pid) then uprintf 1 (line "zombie!") [] ;; mret (inl tt) else mret (inr tt)) tt.
Definition main : prog unit :=
  fd ← call (Open (text "console") O_RDWR);
  (if fd <? 0 then call (Mknod (text "console") 1 1) ;; call (Open (text "console") O_RDWR) ;; mret tt else mret tt) ;;
  call (Dup 0) ;;
  call (Dup 0) ;;
  loop (fun _ : unit =>
    uprintf 1 (line "init: starting sh") [] ;;
    pid ← call Fork;
    if pid <? 0 then uprintf 1 (line "init: fork failed") [] ;; exit else
    if pid =? 0 then
      call (Exec (text "sh") [text "sh"]) ;;
      uprintf 1 (line "init: exec sh failed") [] ;;
      exit
    else
      reap pid ;;
      mret (inl tt)) tt.
End Init.
