(* ===== verification/UserSpec.v ===== *)
(** * What user programs do

  cat and wc against a kernel that serves files, splitting the reads as it
  likes; the programs that end whatever the kernel answers. *)
From S2P Require Import Prelude Params Inode CString Ulib Printf Interact User.

(** ** What a program that reads files relies on

    A descriptor is one of an open file, with what is left to read of it
    ([In]), one whose reads fail, or the end of an output.  A [read] returns
    some of what is left, at least a byte unless there is none. *)
Inductive obj := In (rest : list Z) | Broken | Out (data : list Z).
Record os := mk_os {
  os_files : gmap (list Z) (option (list Z));
  os_fds : list (option obj);
}.

Definition fdobj (s : os) (fd : Z) : option obj := if fd <? 0 then None else mjoin (os_fds s !! Z.to_nat fd).
Definition put (fd : Z) (o : option obj) (s : os) : os := mk_os (os_files s) (<[Z.to_nat fd := o]> (os_fds s)).
Definition opened (content : option (list Z)) : obj := match content with Some bs => In bs | None => Broken end.

(** The first free descriptor *)
Definition free_fd (s : os) : option Z := (fun p => Z.of_nat p.1) <$> list_find (fun x => x = None) (os_fds s).

Definition kernel_step A (e : sysE A) (s : os) : option (A * os) -> Prop :=
  match e in sysE A return option (A * os) -> Prop with
  | Exit => fun o => o = None
  | Read fd n => fun o =>
      match fdobj s fd with
      | Some (In rest) => exists k, (k <= length rest)%nat /\ Z.of_nat k <= n /\ (k = 0%nat -> rest = []) /\
                          o = Some ((Z.of_nat k, take k rest), put fd (Some (In (drop k rest))) s)
      | _ => o = Some ((-1, []), s)
      end
  | Write fd bs => fun o =>
      match fdobj s fd with
      | Some (Out d) => o = Some (Z.of_nat (length bs), put fd (Some (Out (d ++ bs))) s)
      | _ => o = Some (-1, s)
      end
  | Open p mode => fun o =>
      match os_files s !! p, free_fd s with
      | Some c, Some fd => o = Some (fd, put fd (Some (opened c)) s)
      | _, _ => o = Some (-1, s)
      end
  | Close fd => fun o =>
      match fdobj s fd with
      | Some _ => o = Some (0, put fd None s)
      | None => o = Some (-1, s)
      end
  | _ => fun _ => False
  end.
Global Instance kernel : Env sysE os := kernel_step.

Lemma fdobj_bound s fd x : fdobj s fd = Some x -> 0 <= fd /\ (Z.to_nat fd < length (os_fds s))%nat.
Proof.
  unfold fdobj. destruct (Z.ltb_spec fd 0); [done|]. destruct (os_fds s !! Z.to_nat fd) eqn:E; [|done].
  intros _. split; [done|]. by eapply lookup_lt_Some.
Qed.

Lemma fdobj_put s fd x y : fdobj s fd = Some y -> fdobj (put fd x s) fd = x.
Proof.
  intros [H0 Hl]%fdobj_bound. unfold fdobj, put. rewrite (proj2 (Z.ltb_ge fd 0) H0). cbn.
  by rewrite list_lookup_insert_eq.
Qed.

Lemma fdobj_put_ne s fd fd' x : 0 <= fd -> fd <> fd' -> fdobj (put fd x s) fd' = fdobj s fd'.
Proof.
  intros H0 Hn. unfold fdobj, put. destruct (Z.ltb_spec fd' 0); [done|]. cbn. by rewrite list_lookup_insert_ne by lia.
Qed.

Lemma put_put fd x y s : put fd x (put fd y s) = put fd x s.
Proof. unfold put. cbn. by rewrite list_insert_insert_eq. Qed.

Lemma put_comm fd fd' x y s : 0 <= fd -> 0 <= fd' -> fd <> fd' -> put fd x (put fd' y s) = put fd' y (put fd x s).
Proof. intros. unfold put. cbn. rewrite list_insert_insert_ne by lia. done. Qed.

Lemma put_id s fd x : fdobj s fd = Some x -> put fd (Some x) s = s.
Proof.
  unfold fdobj, put. destruct s as [files fds]. cbn. destruct (Z.ltb_spec fd 0); [done|].
  destruct (fds !! Z.to_nat fd) as [y|] eqn:E; [|done]. cbn. intros ->. by rewrite list_insert_id.
Qed.

Section kernel_rules.
Context (H : forall B, sysE B -> os -> Prop).

Lemma must_exit {A} (Q : A -> os -> Prop) s : H _ Exit s -> must H Q exit s.
Proof. intros HH. by apply must_never. Qed.

Lemma must_write s fd bs d (Q : Z -> os -> Prop) :
  fdobj s fd = Some (Out d) -> Q (Z.of_nat (length bs)) (put fd (Some (Out (d ++ bs))) s) -> must H Q (call (Write fd bs)) s.
Proof. intros E HQ. eapply must_call1; [|done]. intros o. unfold env_step, kernel, kernel_step. by rewrite E. Qed.

Lemma must_read s fd n rest (Q : Z * list Z -> os -> Prop) :
  fdobj s fd = Some (In rest) -> 0 < n ->
  (forall k, (k <= length rest)%nat -> Z.of_nat k <= n -> (k = 0%nat -> rest = []) ->
   Q (Z.of_nat k, take k rest) (put fd (Some (In (drop k rest))) s)) -> must H Q (call (Read fd n)) s.
Proof.
  intros E Hn HQ. assert (forall o, env_step (Read fd n) s o <-> kernel_step _ (Read fd n) s o) as Hs by done.
  cbn [kernel_step] in Hs. rewrite E in Hs. apply must_call.
  - destruct rest as [|b rest].
    + eexists. apply Hs. exists 0%nat. split; [done|]. split; [lia|done].
    + eexists. apply Hs. exists 1%nat. cbn. split; [lia|]. split; [lia|done].
  - by intros (? & _ & _ & _ & ?)%Hs.
  - intros a s' (k & ? & ? & ? & [= -> ->])%Hs. auto.
Qed.

Lemma must_read_broken s fd n (Q : Z * list Z -> os -> Prop) :
  fdobj s fd = Some Broken -> Q (-1, []) s -> must H Q (call (Read fd n)) s.
Proof. intros E HQ. eapply must_call1; [|done]. intros o. unfold env_step, kernel, kernel_step. by rewrite E. Qed.

Lemma must_open s p m (Q : Z -> os -> Prop) :
  (match os_files s !! p, free_fd s with
   | Some c, Some fd => Q fd (put fd (Some (opened c)) s)
   | _, _ => Q (-1) s
   end) -> must H Q (call (Open p m)) s.
Proof.
  intros HQ. destruct (os_files s !! p) as [c|] eqn:E; [destruct (free_fd s) as [fd|] eqn:Ef|];
    (eapply must_call1; [|exact HQ]); intros o; unfold env_step, kernel, kernel_step; by rewrite E, ?Ef.
Qed.

Lemma must_close s fd x (Q : Z -> os -> Prop) :
  fdobj s fd = Some x -> Q 0 (put fd None s) -> must H Q (call (Close fd)) s.
Proof. intros E HQ. eapply must_call1; [|done]. intros o. unfold env_step, kernel, kernel_step. by rewrite E. Qed.

Lemma must_uprintf s fd fmt args out d (Q : unit -> os -> Prop) :
  fdobj s fd = Some (Out d) -> formatted fmt args = Some out -> Q tt (put fd (Some (Out (d ++ out))) s) ->
  must H Q (uprintf fd fmt args) s.
Proof.
  intros E Ef HQ. unfold uprintf. rewrite Ef. eapply must_mono.
  - apply (must_each H (putc fd) out (fun pre s' => s' = put fd (Some (Out (d ++ pre))) s)).
    + rewrite app_nil_r. by rewrite put_id.
    + intros pre c post s' _ ->. unfold putc. must_steps. eapply must_write; [by eapply fdobj_put|]. must_steps.
      by rewrite put_put, app_assoc.
  - by intros [] s' ->.
Qed.
End kernel_rules.

(** ** The loop over the files *)

(** What a program prints for a file with the given contents ([None] if it
    cannot be read), and whether it goes on after it. *)
Definition effect : Type := option (list Z) -> list Z -> list Z * bool.

Fixpoint report (cannot : list Z -> list Z) (eff : effect) (files : gmap (list Z) (option (list Z))) (args : list (list Z)) : list Z :=
  match args with
  | [] => []
  | a :: args =>
      match files !! a with
      | None => cannot a
      | Some c => let '(out, more) := eff c a in out ++ (if more then report cannot eff files args else [])
      end
  end.

(** [f] has the effect [eff] on a descriptor: it prints and returns, with the
    file read to its end, or it prints and exits. *)
Definition has_effect (f : Z -> list Z -> prog unit) (eff : effect) : Prop :=
  forall (H : forall B, sysE B -> os -> Prop) (Q : unit -> os -> Prop) s fd a c d,
    0 <= fd -> fd <> 1 -> Forall (fun b => b <> 0) a -> fdobj s fd = Some (opened c) -> fdobj s 1 = Some (Out d) ->
    (forall x, let s' := put 1 (Some (Out (d ++ (eff c a).1))) (put fd (Some x) s) in if (eff c a).2 then Q tt s' else H _ Exit s') ->
    must H Q (f fd a) s.

Lemma free_fd_spec s fd : free_fd s = Some fd -> 0 <= fd /\ (Z.to_nat fd < length (os_fds s))%nat /\ put fd None s = s /\ fdobj s fd = None.
Proof.
  unfold free_fd. destruct (list_find _ _) as [[i x]|] eqn:E; [|done]. intros [= <-]. cbn [fst].
  apply list_find_Some in E as (Hi & -> & _). split; [lia|]. rewrite Nat2Z.id. split; [by eapply lookup_lt_Some|]. split.
  - unfold put. rewrite Nat2Z.id, list_insert_id by done. by destruct s.
  - unfold fdobj. destruct (Z.ltb_spec (Z.of_nat i) 0); [done|]. by rewrite Nat2Z.id, Hi.
Qed.

Lemma free_fd_put s fd x y : free_fd s = Some y -> fdobj s fd = Some x -> forall z, free_fd (put fd (Some z) s) = Some y.
Proof.
  unfold free_fd, put. intros Hf Hx z. destruct (list_find _ (os_fds s)) as [[i w]|] eqn:E; [|done]. injection Hf as <-.
  apply list_find_Some in E as (Hi & -> & Hlt). cbn.
  assert (Z.to_nat fd <> i) as Hne.
  { intros <-. unfold fdobj in Hx. destruct (fd <? 0); [done|]. by rewrite Hi in Hx. }
  rewrite (proj2 (list_find_Some _ _ i None)); [done|]. rewrite list_lookup_insert_ne by done. split; [done|]. split; [done|].
  intros j w Hj Hji ->. destruct (decide (j = Z.to_nat fd)) as [->|Hn].
  - rewrite list_lookup_insert_eq in Hj by (apply fdobj_bound in Hx; tauto). done.
  - rewrite list_lookup_insert_ne in Hj by done. by eapply Hlt.
Qed.

Section files.
Context (cannot : string) (f : Z -> list Z -> prog unit) (eff : effect) (msg : list Z -> list Z).
Hypothesis f_eff : has_effect f eff.
Hypothesis cannot_msg : forall a, Forall (fun b => b <> 0) a -> formatted (line cannot) [AStr a] = Some (msg a).

Lemma on_files_spec (H : forall B, sysE B -> os -> Prop) s args d fd :
  fdobj s 1 = Some (Out d) -> free_fd s = Some fd -> Forall (Forall (fun b => b <> 0)) args ->
  let R s' := fdobj s' 1 = Some (Out (d ++ report msg eff (os_files s) args)) in
  (forall s', R s' -> H _ Exit s') -> must H (fun _ => R) (on_files cannot f args) s.
Proof using f_eff cannot_msg.
  revert s d. induction args as [|a args IH]; intros s d E Ef Hz R HH; unfold on_files; cbn [each]; must_steps.
  { unfold R. cbn. by rewrite app_nil_r. }
  apply Forall_cons in Hz as [Ha Hz]. unfold R in *. cbn [report] in *. destruct (free_fd_spec s fd Ef) as (Hfd & Hlt & Hid & Hno).
  assert (fd <> 1) as Hne by (intros ->; congruence). apply must_open. rewrite Ef.
  destruct (os_files s !! a) as [c|].
  - rewrite (proj2 (Z.ltb_ge fd 0) Hfd). must_steps. set (s1 := put fd (Some (opened c)) s).
    assert (fdobj s1 fd = Some (opened c)) as Efd.
    { unfold fdobj, s1, put. rewrite (proj2 (Z.ltb_ge fd 0) Hfd). cbn. by rewrite list_lookup_insert_eq. }
    assert (fdobj s1 1 = Some (Out d)) as E1 by (unfold s1; by rewrite fdobj_put_ne).
    apply (f_eff H _ s1 fd a c d Hfd Hne Ha Efd E1). intros x. destruct (eff c a) as [out more]. cbn [fst snd].
    assert (fdobj (put fd (Some x) s1) 1 = Some (Out d)) as E2 by (by rewrite fdobj_put_ne).
    destruct more; [|apply HH; erewrite fdobj_put by exact E2; by rewrite app_nil_r].
    must_steps. eapply must_close.
    { rewrite fdobj_put_ne by lia. by eapply fdobj_put. }
    must_steps. rewrite (put_comm fd 1), !put_put by lia. unfold s1. rewrite put_put, Hid, app_assoc.
    rewrite app_assoc in HH. apply (IH (put 1 (Some (Out (d ++ out))) s) (d ++ out)); [by eapply fdobj_put|by eapply free_fd_put|done|done].
  - must_steps. eapply must_uprintf; [done|by apply cannot_msg|]. apply must_exit, HH. by eapply fdobj_put.
Qed.
End files.

(** ** Formats *)
Definition numeral (z : Z) : list Z := default [] (printint z 10 true).

Lemma printint_numeral z : - 2 ^ 31 <= z < 2 ^ 31 -> printint z 10 true = Some (numeral z).
Proof.
  intros Hz. unfold numeral, printint.
  destruct (printint_spec digits_upper z 10 true 9 digit_set_upper) as (out & -> & _); [lia|done|lia|lia|done].
Qed.

Lemma print_str_string s r : Forall (fun b => b <> 0) s -> print_str (s ++ 0 :: r) = Some s.
Proof.
  induction 1 as [|b s Hb _ IH]; [done|]. cbn [app print_str]. by rewrite (proj2 (Z.eqb_neq b 0) Hb), IH.
Qed.

(** A string after literal text, and what follows *)
Lemma printf_conv_s str pre post p s ap :
  Forall literal pre -> p <> 0 -> str p = s ++ [0] -> Forall (fun b => b <> 0) s ->
  printf str (pre ++ PERCENT :: 115 :: post) (p :: ap) = (r ← printf str post ap; Some (pre ++ s ++ r)).
Proof.
  intros Hpre Hp Hs Hz. rewrite printf_literal by done. unfold printf. cbn [printf_loop]. unfold conversion, print_arg. cbn.
  rewrite (proj2 (Z.eqb_neq p 0) Hp), Hs, print_str_string by done. cbn. by destruct (printf_loop str post _ _).
Qed.

Ltac literals := apply (bool_decide_unpack _); vm_compute; exact I.

Global Instance literal_dec c : Decision (literal c).
Proof. unfold literal. apply _. Defined.

Lemma formatted_literal fmt : Forall literal fmt -> formatted fmt [] = Some fmt.
Proof. intros Hl. unfold formatted. rewrite printf_literal by done. cbn. by rewrite app_nil_r. Qed.

Lemma formatted_str pre post a : Forall literal pre -> Forall literal post -> Forall (fun b => b <> 0) a ->
  formatted (pre ++ PERCENT :: 115 :: post) [AStr a] = Some (pre ++ a ++ post).
Proof.
  intros Hp Hq Ha. unfold formatted. rewrite <- app_assoc. cbn [app].
  change (words_of [AStr a]) with [1]. rewrite (printf_conv_s _ _ _ 1 a []) by done.
  rewrite printf_literal by done. cbn. by rewrite app_nil_r.
Qed.

Lemma s32_range z : - 2 ^ 31 <= s32 z < 2 ^ 31.
Proof. unfold s32. pose proof (Z.mod_pos_bound z (2 ^ 32)). destruct (Z.ltb_spec (z mod 2 ^ 32) (2 ^ 31)); lia. Qed.

Lemma s32_add a b : s32 (s32 a + b) = s32 (a + b).
Proof.
  unfold s32 at 1 3. replace ((s32 a + b) mod 2 ^ 32) with ((a + b) mod 2 ^ 32); [done|].
  rewrite <- (Z.add_mod_idemp_l a), <- (Z.add_mod_idemp_l (s32 a)) by lia. do 2 f_equal. unfold s32.
  destruct (a mod 2 ^ 32 <? 2 ^ 31); [by rewrite Z.mod_mod by lia|].
  rewrite <- (Z.mod_add (a mod 2 ^ 32 - 2 ^ 32) 1) by lia. rewrite Z.mul_1_l, Z.sub_add. by rewrite Z.mod_mod by lia.
Qed.

(** ** cat *)
Definition cat_effect : effect := fun c _ => match c with Some bs => (bs, true) | None => (line "cat: read error", false) end.

Lemma cat_loop_spec (H : forall B, sysE B -> os -> Prop) s fd rest d :
  0 <= fd -> fd <> 1 -> fdobj s fd = Some (In rest) -> fdobj s 1 = Some (Out d) ->
  must H (fun n s' => n = 0 /\ s' = put 1 (Some (Out (d ++ rest))) (put fd (Some (In [])) s)) (Cat.cat_loop fd) s.
Proof.
  intros H0 Hne. remember (length rest) as m eqn:Hm. revert s rest d Hm.
  induction m as [m IH] using lt_wf_ind. intros s rest d -> E E1. apply must_loop. must_steps.
  apply (must_read H s fd 512 rest); [done|lia|]. intros k Hk Hk512 Hk0. destruct (decide (k = 0%nat)) as [->|Hn].
  - must_steps. split; [done|]. rewrite (Hk0 eq_refl), app_nil_r. rewrite put_comm by lia. by rewrite (put_id s 1).
  - rewrite (proj2 (Z.ltb_lt 0 _)) by lia. must_steps. rewrite Nat2Z.id, take_take, Nat.min_id.
    eapply must_write; [by rewrite fdobj_put_ne|]. rewrite length_take_le by done. rewrite Z.eqb_refl. cbn [negb]. must_steps.
    eapply must_mono; [eapply (IH (length (drop k rest))); [rewrite length_drop; lia|done| |]|].
    + rewrite fdobj_put_ne by lia. by eapply fdobj_put.
    + eapply fdobj_put. by rewrite fdobj_put_ne.
    + intros n s' [-> ->]. split; [done|]. rewrite <- app_assoc, take_drop. rewrite (put_comm fd 1) by lia. by rewrite !put_put.
Qed.

Lemma cat_has_effect : has_effect (fun fd _ => Cat.cat fd) cat_effect.
Proof.
  intros H Q s fd a c d H0 Hne _ E E1 HH. unfold Cat.cat. must_steps. destruct c as [rest|]; cbn [opened cat_effect fst snd] in *.
  - eapply must_mono; [by apply (cat_loop_spec H s fd rest d)|]. intros n s' [-> ->]. must_steps. apply HH.
  - unfold Cat.cat_loop. apply must_loop. must_steps. apply must_read_broken; [done|]. must_steps. cbn [Z.ltb Z.compare].
    must_steps. eapply must_uprintf; [done|apply formatted_literal; literals|]. apply must_exit.
    specialize (HH Broken). by rewrite (put_id s fd) in HH.
Qed.

Definition cat_cannot (a : list Z) : list Z := text "cat: cannot open " ++ a ++ [10].

(** The contents that a program reads: those of its files, or of descriptor 0 *)
Definition stdin (s : os) : option (list Z) := match fdobj s 0 with Some (In rest) => Some rest | _ => None end.
Definition output (msg : list Z -> list Z) (eff : effect) (s : os) (args : list (list Z)) : list Z :=
  match args with [] => (eff (stdin s) []).1 | _ => report msg eff (os_files s) args end.

(** A process as such a program is started: it can print, has a descriptor
    left, its descriptor 0 is for reading, its arguments are strings. *)
Record started (s : os) (d : list Z) (args : list (list Z)) : Prop := mk_started {
  st_out : fdobj s 1 = Some (Out d);
  st_in : fdobj s 0 = Some (opened (stdin s));
  st_free : exists fd, free_fd s = Some fd;
  st_args : Forall (Forall (fun b => b <> 0)) args;
}.

Lemma on_stdin f eff s d (H : forall B, sysE B -> os -> Prop) (Q : unit -> os -> Prop) :
  has_effect f eff -> started s d [] ->
  (forall s', fdobj s' 1 = Some (Out (d ++ (eff (stdin s) []).1)) -> H _ Exit s') ->
  must H Q (f 0 [] ;; exit) s.
Proof.
  intros Hf [E1 E0 _ _] HH. must_steps. apply (Hf H _ s 0 [] (stdin s) d); [done|done|done|done|done|]. intros x.
  assert (fdobj (put 1 (Some (Out (d ++ (eff (stdin s) []).1))) (put 0 (Some x) s)) 1 = Some (Out (d ++ (eff (stdin s) []).1))) as E.
  { eapply fdobj_put. by rewrite fdobj_put_ne. }
  destruct (eff (stdin s) []).2; [apply must_exit|]; by apply HH.
Qed.

Lemma main_spec cannot f eff msg s d args :
  has_effect f eff -> (forall a, Forall (fun b => b <> 0) a -> formatted (line cannot) [AStr a] = Some (msg a)) ->
  started s d args ->
  must (fun _ _ s' => fdobj s' 1 = Some (Out (d ++ output msg eff s args))) (fun _ _ => False)
    (match args with [] => f 0 [] ;; exit | _ => on_files cannot f args ;; exit end : prog unit) s.
Proof.
  intros Hf Hm St. destruct args as [|a args]; [by apply (on_stdin _ _ s d _ _ Hf)|].
  destruct St as [E1 _ [fd Ef] Ha]. must_steps. eapply must_mono; [by eapply (on_files_spec _ _ eff msg Hf Hm)|].
  intros [] s' Hs. by apply must_exit.
Qed.

(** cat, on any split of its input by [read]: it always ends by [exit]
    and its output is the contents of its files in order (of descriptor 0 if
    it has no arguments), up to a file that cannot be opened or read, which it
    reports. *)
Theorem cat_correct s d args :
  started s d args ->
  must (fun _ _ s' => fdobj s' 1 = Some (Out (d ++ output cat_cannot cat_effect s args))) (fun _ _ => False) (Cat.main args) s.
Proof.
  apply (main_spec "cat: cannot open %s" _ _ _ _ _ _ cat_has_effect). intros a Ha.
  apply (formatted_str (text "cat: cannot open ") [10]); [literals|literals|done].
Qed.

(** ** wc *)

(** The lines, words and characters of a text: a word begins at a character
    that is no space and follows a space or the beginning. *)
Definition space (b : Z) : Prop := b ∈ Wc.spaces.
Definition line_count (bs : list Z) : Z := Z.of_nat (length (filter (fun b => b = 10) bs)).
Definition word_count (bs : list Z) : Z := Z.of_nat (length (filter (fun p => space p.1 /\ ~ space p.2) (zip (32 :: bs) bs))).

Definition wc_effect : effect := fun c name =>
  match c with
  | Some bs => (numeral (s32 (line_count bs)) ++ [32] ++ numeral (s32 (word_count bs)) ++ [32]
                ++ numeral (s32 (Z.of_nat (length bs))) ++ [32] ++ name ++ [10], true)
  | None => (line "wc: read error", false)
  end.

Lemma strchr_spaces b : (exists i, strchr (Wc.spaces ++ [0]) b = Some (Some i)) /\ space b \/ strchr (Wc.spaces ++ [0]) b = Some None /\ ~ space b.
Proof.
  rewrite strchr_cut by (apply (bool_decide_unpack _); vm_compute; exact I). unfold space.
  destruct (list_find _ Wc.spaces) as [[i x]|] eqn:E.
  - apply list_find_Some in E as (Hi & -> & _). left. split; [by eexists|by eapply list_elem_of_lookup_2].
  - right. split; [done|]. apply list_find_None in E. rewrite Forall_forall in E. intros Hb. by apply (E b).
Qed.

(** The counters after [bs], the character before it being [p] *)
Lemma wc_chars bs l w c p :
  foldl Wc.wc_char (s32 l, s32 w, s32 c, negb (bool_decide (space p))) bs =
  (s32 (l + line_count bs),
   s32 (w + Z.of_nat (length (filter (fun q => space q.1 /\ ~ space q.2) (zip (p :: bs) bs)))),
   s32 (c + Z.of_nat (length bs)), negb (bool_decide (space (default p (last bs))))).
Proof.
  revert l w c p. induction bs as [|b bs IH]; intros l w c p; [cbn; by rewrite !Z.add_0_r|].
  cbn [foldl]. change (zip (p :: b :: bs) (b :: bs)) with ((p, b) :: zip (b :: bs) bs). rewrite filter_cons. cbn [fst snd].
  assert (Wc.wc_char (s32 l, s32 w, s32 c, negb (bool_decide (space p))) b =
    (s32 (l + line_count [b]), s32 (w + (if decide (space p /\ ~ space b) then 1 else 0)), s32 (c + 1), negb (bool_decide (space b)))) as ->.
  { unfold Wc.wc_char. rewrite !s32_add.
    assert ((if b =? 10 then s32 (l + 1) else s32 l) = s32 (l + line_count [b])) as ->.
    { unfold line_count. rewrite filter_cons. destruct (Z.eqb_spec b 10); [rewrite decide_True by done|rewrite decide_False by done]; cbn; by rewrite ?Z.add_0_r. }
    destruct (strchr_spaces b) as [[[i ->] Hs]|[-> Hs]].
    - rewrite (bool_decide_eq_true_2 (space b)) by done. rewrite decide_False by tauto. by rewrite Z.add_0_r.
    - rewrite (bool_decide_eq_false_2 (space b)) by done. destruct (decide (space p)) as [Hp|Hp].
      + rewrite (bool_decide_eq_true_2 (space p)) by done. by rewrite decide_True by done.
      + rewrite (bool_decide_eq_false_2 (space p)) by done. rewrite decide_False by tauto. by rewrite Z.add_0_r. }
  rewrite IH. f_equal; [f_equal; [f_equal|]|]; [f_equal..|].
  - unfold line_count. rewrite !filter_cons. destruct (decide (b = 10)); cbn; lia.
  - destruct (decide (space p /\ ~ space b)); cbn [length]; lia.
  - cbn [length]. lia.
  - destruct bs as [|b' bs]; [done|]. rewrite last_cons_cons. destruct (last (b' :: bs)) eqn:E; [done|]. by apply last_None in E.
Qed.

Lemma wc_loop_spec (H : forall B, sysE B -> os -> Prop) s fd rest :
  fdobj s fd = Some (In rest) ->
  must H (fun r s' => r.1 = 0 /\ r.2.1 = (s32 (line_count rest), s32 (word_count rest), s32 (Z.of_nat (length rest))) /\
                      s' = put fd (Some (In [])) s) (Wc.wc_loop fd) s.
Proof.
  intros E. unfold Wc.wc_loop. set (body := fun s : Wc.count => _).
  enough (forall pre rest s, fdobj s fd = Some (In rest) ->
    must H (fun r s' => r.1 = 0 /\ r.2 = foldl Wc.wc_char (0, 0, 0, false) (pre ++ rest) /\ s' = put fd (Some (In [])) s)
      (loop body (foldl Wc.wc_char (0, 0, 0, false) pre)) s) as Hgen.
  { eapply must_mono; [by apply (Hgen [])|]. intros [n cs] s' (En & Ec & Es). cbn [fst snd] in *. subst.
    rewrite app_nil_l. pose proof (wc_chars rest 0 0 0 32) as Ew. change (s32 0) with 0 in Ew.
    change (negb (bool_decide (space 32))) with false in Ew. by rewrite Ew. }
  clear s rest E. intros pre rest. remember (length rest) as m eqn:Hm. revert pre rest Hm.
  induction m as [m IH] using lt_wf_ind. intros pre rest -> s E. apply must_loop. unfold body at 2. must_steps.
  apply (must_read H s fd 512 rest); [done|lia|]. intros k Hk Hk512 Hk0. destruct (decide (k = 0%nat)) as [->|Hn].
  - must_steps. rewrite (Hk0 eq_refl), app_nil_r. done.
  - rewrite (proj2 (Z.ltb_lt 0 _)) by lia. must_steps. rewrite Nat2Z.id, take_take, Nat.min_id, <- foldl_app.
    eapply must_mono; [apply (IH (length (drop k rest))); [rewrite length_drop; lia|done|by eapply fdobj_put]|].
    intros r s'. by rewrite put_put, <- app_assoc, take_drop.
Qed.

Lemma formatted_wc l w c name :
  - 2 ^ 31 <= l < 2 ^ 31 -> - 2 ^ 31 <= w < 2 ^ 31 -> - 2 ^ 31 <= c < 2 ^ 31 -> Forall (fun b => b <> 0) name ->
  formatted (line "%d %d %d %s") [AInt l; AInt w; AInt c; AStr name] =
  Some (numeral l ++ [32] ++ numeral w ++ [32] ++ numeral c ++ [32] ++ name ++ [10]).
Proof.
  intros Hl Hw Hc Hn. unfold formatted. set (args := [AInt l; AInt w; AInt c; AStr name]).
  change (words_of args) with [u32 l; u32 w; u32 c; 4].
  change (line "%d %d %d %s" ++ [0]) with ([] ++ PERCENT :: 100 :: [32] ++ PERCENT :: 100 :: [32] ++ PERCENT :: 100 :: [32] ++ PERCENT :: 115 :: [10; 0]).
  rewrite (printf_conv_d _ [] _ _ l _ ltac:(literals) Hl (printint_numeral l Hl)).
  rewrite (printf_conv_d _ [32] _ _ w _ ltac:(literals) Hw (printint_numeral w Hw)).
  rewrite (printf_conv_d _ [32] _ _ c _ ltac:(literals) Hc (printint_numeral c Hc)).
  rewrite (printf_conv_s _ [32] _ 4 name []) by (done || literals). cbn. by rewrite <- ?app_assoc.
Qed.

Lemma wc_has_effect : has_effect Wc.wc wc_effect.
Proof.
  intros H Q s fd a c d H0 Hne Ha E E1 HH. unfold Wc.wc. must_steps. destruct c as [rest|]; cbn [opened wc_effect fst snd] in *.
  - eapply must_mono; [by apply (wc_loop_spec H s fd rest)|]. intros [n [[[l w] c] inw]] s' (En & Ec & ->). cbn [fst snd] in *.
    injection Ec as -> -> ->. subst. must_steps. eapply must_uprintf; [by rewrite fdobj_put_ne|by apply formatted_wc; try apply s32_range|].
    apply HH.
  - unfold Wc.wc_loop. apply must_loop. must_steps. apply must_read_broken; [done|]. must_steps.
    eapply must_uprintf; [done|apply formatted_literal; literals|]. apply must_exit.
    specialize (HH Broken). by rewrite (put_id s fd) in HH.
Qed.

Definition wc_cannot (a : list Z) : list Z := text "wc: cannot open " ++ a ++ [10].

(** C33: wc, on any split of its input by [read]: it always ends by [exit],
    and for each of its files (descriptor 0 if it has no arguments) it prints
    the number of newlines, of words (a word begins at a non-space that
    follows a space or the beginning) and of bytes, as [int]s, and the name,
    up to a file that cannot be opened or read, which it reports. *)
Theorem wc_correct s d args :
  started s d args ->
  must (fun _ _ s' => fdobj s' 1 = Some (Out (d ++ output wc_cannot wc_effect s args))) (fun _ _ => False) (Wc.main args) s.
Proof.
  apply (main_spec "wc: cannot open %s" _ _ _ _ _ _ wc_has_effect). intros a Ha.
  apply (formatted_str (text "wc: cannot open ") [10]); [literals|literals|done].
Qed.

(** ** Programs that end whatever the kernel answers *)

(** A kernel of which nothing is known but that [exit] does not return and
    the other calls do. *)
Definition any_step A (e : sysE A) (s : unit) : option (A * unit) -> Prop :=
  match e in sysE A return option (A * unit) -> Prop with
  | Exit => fun o => o = None
  | Crash => fun _ => False
  | _ => fun o => exists a, o = Some (a, tt)
  end.
Global Instance any_kernel : Env sysE unit := any_step.

Definition is_exit B (e : sysE B) (_ : unit) : Prop := match e with Exit => True | _ => False end.

(** Total correctness for that kernel: the program ends by [exit], or
    returns if [ret] allows. *)
Notation ends := (must is_exit (fun _ _ => False)).
Notation returns := (must is_exit (fun _ _ => True)).

Lemma any_call {A} (e : sysE A) (Q : A -> unit -> Prop) :
  match e with Exit | Crash => False | _ => True end -> (forall a, Q a tt) -> must is_exit Q (call e) tt.
Proof.
  intros He HQ. assert (forall o, env_step e tt o -> exists a, o = Some (a, tt)) as Ho by (by destruct e; try intros o Hs).
  apply must_call.
  - destruct e; try done; first [by exists (Some (0, tt)); exists 0 | by exists (Some (None, tt)); exists None | by exists (Some ((0, []), tt)); exists (0, [])].
  - by intros [? ?]%Ho.
  - intros a [] _. apply HQ.
Qed.

Lemma any_uprintf fd fmt args out : formatted fmt args = Some out -> returns (uprintf fd fmt args) tt.
Proof.
  intros E. unfold uprintf. rewrite E. clear E. induction out as [|c out IH]; cbn [each]; [by apply must_ret|].
  unfold putc. must_steps. apply any_call; [done|]. intros _. by must_steps.
Qed.

Lemma any_exit {A} (Q : A -> unit -> Prop) : must is_exit Q exit tt.
Proof. by apply must_never. Qed.

Lemma any_seq {A B} (t : prog A) (k : prog B) (Q : B -> unit -> Prop) :
  returns t tt -> must is_exit Q k tt -> must is_exit Q (t ;; k) tt.
Proof. intros Ht Hk. must_steps. eapply must_mono; [done|]. by intros ? []. Qed.

Lemma formatted_str2 pre mid post a b :
  Forall literal pre -> Forall literal mid -> Forall literal post -> Forall (fun c => c <> 0) a -> Forall (fun c => c <> 0) b ->
  formatted (pre ++ PERCENT :: 115 :: mid ++ PERCENT :: 115 :: post) [AStr a; AStr b] = Some (pre ++ a ++ mid ++ b ++ post).
Proof.
  intros Hp Hm Hq Ha Hb. unfold formatted. rewrite <- app_assoc. cbn [app]. rewrite <- app_assoc. cbn [app].
  change (words_of [AStr a; AStr b]) with [1; 2]. rewrite (printf_conv_s _ _ _ 1 a [2]) by done.
  rewrite (printf_conv_s _ _ _ 2 b []) by done. rewrite printf_literal by done. cbn. by rewrite app_nil_r.
Qed.

Definition strings (args : list (list Z)) : Prop := Forall (Forall (fun b => b <> 0)) args.

Lemma any_each {A} (f : A -> prog unit) l : (forall x, x ∈ l -> returns (f x) tt) -> returns (each l f) tt.
Proof.
  induction l as [|x l IH]; intros Hf; cbn [each]; [by apply must_ret|]. must_steps.
  eapply must_mono; [apply Hf; set_solver|]. intros _ [] _. apply IH. intros y Hy. apply Hf. set_solver.
Qed.

(** Symbolic execution against [any_kernel] *)
Ltac any_step1 :=
  first
  [ progress must_steps
  | apply any_call; [exact I|intros ?]
  | eapply any_exit
  | lazymatch goal with
    | |- must _ _ (if ?b then _ else _) _ => destruct b
    | |- must _ _ (uprintf _ _ _) _ => eapply must_mono; [eapply any_uprintf|intros ? [] _]
    | |- must _ _ (each _ _) _ => eapply must_mono; [apply any_each; intros ? _|intros ? [] _]
    end ].
Ltac any_run := repeat any_step1.

Lemma any_until_failure failed pre post f args :
  strings args -> line failed = pre ++ PERCENT :: 115 :: post -> Forall literal pre -> Forall literal post ->
  (forall a, match f a with Exit | Crash => False | _ => True end) -> returns (until_failure failed f args) tt.
Proof.
  intros Ha E Hp Hq Hf. induction Ha as [|a args Ha _ IH]; cbn [until_failure]; any_run; [done|].
  apply any_call; [apply Hf|intros r]. destruct (r <? 0); [|done]. rewrite E. eapply any_uprintf, formatted_str; done.
Qed.

Lemma atoi_total s : is_Some (atoi (s ++ [0])).
Proof.
  unfold atoi. generalize 0 at 1. induction s as [|c s IH]; intros n; cbn [app atoi_loop]; [done|].
  destruct (_ && _); [apply IH|done].
Qed.

Lemma forktest_forks_spec k n (Q : nat -> unit -> Prop) : (forall m, Q m tt) -> must is_exit Q (Forktest.forks k n) tt.
Proof. intros HQ. revert n. induction k as [|k IH]; intros n; cbn [Forktest.forks]; any_run; auto. Qed.

Lemma stressfs_forks_spec k i (Q : Z -> unit -> Prop) : i + Z.of_nat k <= 4 ->
  (forall j, 0 <= j <= 4 -> Q j tt) -> 0 <= i -> must is_exit Q (Stressfs.forks k i) tt.
Proof.
  intros Hk HQ. revert i Hk. induction k as [|k IH]; intros i Hk Hi; cbn [Stressfs.forks]; any_run; try (apply HQ; lia).
  apply IH; lia.
Qed.

Lemma any_echo args : strings args -> returns (Echo.echo args) tt.
Proof.
  induction 1 as [|a args Ha _ IH]; cbn [Echo.echo]; any_run; [done| |done].
  apply (formatted_str2 [] [] []); [done..|]. destruct args; by repeat constructor.
Qed.

Lemma forktest_returns : returns Forktest.forktest tt.
Proof.
  unfold Forktest.forktest, Forktest.print. any_run. apply forktest_forks_spec. intros n. by any_run.
Qed.

Lemma stressfs_ends : ends Stressfs.main tt.
Proof.
  unfold Stressfs.main. any_run; [apply formatted_literal; literals|]. apply stressfs_forks_spec; [done| |done].
  intros j Hj. any_run.
  - unfold formatted. change (words_of [AInt j]) with [u32 j].
    change (line "write %d" ++ [0]) with (text "write " ++ PERCENT :: 100 :: [10; 0]).
    rewrite (printf_conv_d _ (text "write ") _ _ j _ ltac:(literals) ltac:(lia) (printint_numeral j ltac:(lia))). done.
  - done.
  - apply formatted_literal; literals.
  - done.
Qed.

(** echo, kill, ln, mkdir, rm, zombie, stressfs and forktest end by
    [exit] whatever the kernel answers to their system calls: none of them
    returns from main, loops for ever or runs into undefined behaviour. *)
Theorem programs_exit args :
  strings args ->
  ends (Echo.main args) tt /\ ends (Kill.main args) tt /\ ends (Ln.main args) tt /\ ends (MkdirProg.main args) tt /\
  ends (Rm.main args) tt /\ ends Zombie.main tt /\ ends Stressfs.main tt /\ ends Forktest.main tt.
Proof.
  intros Ha. repeat split.
  - apply any_seq; [by apply any_echo|any_run].
  - destruct args as [|a args]; unfold Kill.main; [any_run; apply formatted_literal; literals|].
    apply any_seq; [apply any_each|any_run]. intros x _. destruct (atoi_total x) as [n ->]. by any_run.
  - destruct args as [|old [|new [|]]]; unfold Ln.main; any_run; try (apply formatted_literal; literals).
    apply Forall_cons in Ha as [Ho [Hn _]%Forall_cons]. apply (formatted_str2 (text "link ") [32] (line ": failed")); by literals || done.
  - destruct args as [|a args]; unfold MkdirProg.main; [any_run; apply formatted_literal; literals|].
    apply any_seq; [apply (any_until_failure _ (text "mkdir: ") (line " failed to create")); done || literals|any_run].
  - destruct args as [|a args]; unfold Rm.main; [any_run; apply formatted_literal; literals|].
    apply any_seq; [apply (any_until_failure _ (text "rm: ") (line " failed to delete")); done || literals|any_run].
  - unfold Zombie.main. any_run.
  - apply stressfs_ends.
  - apply any_seq; [apply forktest_returns|any_run].
Qed.

(** ** A process with two files *)
Definition x_files : gmap (list Z) (option (list Z)) :=
  {[ text "a" := Some (line "one two" ++ line " three"); text "b" := None ]}.
Definition x_os : os := mk_os x_files ([Some (In (line "in")); Some (Out []); Some (Out [])] ++ replicate 13 None).

Lemma x_started args : strings args -> started x_os [] args.
Proof. intros Ha. split; [done|done|by exists 3|done]. Qed.

Lemma cat_correct_witness :
  must (fun _ _ s' => fdobj s' 1 = Some (Out (line "one two" ++ line " three" ++ line "cat: cannot open c"))) (fun _ _ => False)
    (Cat.main [text "a"; text "c"]) x_os.
Proof.
  assert (output cat_cannot cat_effect x_os [text "a"; text "c"] = line "one two" ++ line " three" ++ line "cat: cannot open c") as <-
    by (vm_compute; reflexivity).
  apply (cat_correct x_os [] [text "a"; text "c"]). apply x_started. by repeat constructor.
Defined.

Lemma wc_correct_witness :
  must (fun _ _ s' => fdobj s' 1 = Some (Out (line "2 3 15 a" ++ line "wc: read error"))) (fun _ _ => False)
    (Wc.main [text "a"; text "b"]) x_os.
Proof.
  assert (output wc_cannot wc_effect x_os [text "a"; text "b"] = line "2 3 15 a" ++ line "wc: read error") as <-
    by (vm_compute; reflexivity).
  apply (wc_correct x_os [] [text "a"; text "b"]). apply x_started. by repeat constructor.
Defined.

Lemma programs_exit_witness : strings [text "12"; text "x"] /\ ends (Ln.main [text "12"; text "x"]) tt.
Proof.
  assert (strings [text "12"; text "x"]) as Hs by (by repeat constructor).
  split; [exact Hs|]. apply (programs_exit [text "12"; text "x"] Hs).
Defined.
