(* ===== verification/ShRun.v ===== *)
(** * The shell runs a command (sh.c: runcmd, getcmd, main, panic, fork1)

  The code is an interaction tree over the system calls; the pointers of a
  command have become strings.  [eval] runs such a tree as the processes it
  becomes: each process has a table of descriptors, [fork] makes two
  processes of one.  [means] is what a command of the shell's language asks
  for, and the theorem says that [runcmd] does that. *)
From S2P Require Import Prelude Params Inode Ulib Printf Sh Interact User UserSpec.

(** ** The code *)
Definition sh_panic {A} (s : string) : prog A := uprintf 2 (line "%s") [AStr (text s)] ;; exit.

Definition fork1 : prog Z :=
  pid ← call Fork;
  if pid =? -1 then sh_panic "fork" else mret pid.

(** The cases of a null pointer and of an unknown type do not exist. *)
Fixpoint runcmd (c : cmd (list Z)) : prog unit :=
  match c with
  | EXEC [] => exit
  | EXEC (a :: argv) =>
      call (Exec a (a :: argv)) ;;
      uprintf 2 (line "exec %s failed") [AStr a] ;;
      exit
  | REDIR c file mode fd =>
      call (Close fd) ;;
      r ← call (Open file mode);
      if r <? 0 then uprintf 2 (line "open %s failed") [AStr file] ;; exit else
      runcmd c ;;
      exit
  | LIST cl cr =>
      pid ← fork1;
      (if pid =? 0 then runcmd cl else mret tt) ;;
      call Wait ;;
      runcmd cr ;;
      exit
  | PIPE cl cr =>
      p ← call Pipe;
      match p with
      | None => sh_panic "pipe"
      | Some (p0, p1) =>
          pid ← fork1;
          (if pid =? 0 then
             call (Close 1) ;; call (Dup p1) ;; call (Close p0) ;; call (Close p1) ;; runcmd cl
           else mret tt) ;;
          pid ← fork1;
          (if pid =? 0 then
             call (Close 0) ;; call (Dup p0) ;; call (Close p0) ;; call (Close p1) ;; runcmd cr
           else mret tt) ;;
          call (Close p0) ;;
          call (Close p1) ;;
          call Wait ;;
          call Wait ;;
          exit
      end
  | BACK c =>
      pid ← fork1;
      (if pid =? 0 then runcmd c else mret tt) ;;
      exit
  end.

(** [gets(buf, nbuf)] and [getcmd]: the bytes of the line, or [None] at the
    end of the input *)
Fixpoint gets_from (room : nat) : prog (list Z) :=
  match room with
  | O => mret []
  | S room =>
      '(cc, bs) ← call (Read 0 1);
      if cc <? 1 then mret [] else
      let c := default 0 (head bs) in
      if (c =? 10) || (c =? 13) then mret [c] else
      r ← gets_from room; mret (c :: r)
  end.
Definition getcmd (nbuf : nat) : prog (option (list Z)) :=
  uprintf 2 (text "$ ") [] ;;
  l ← gets_from (nbuf - 1);
  let buf := cut0 l in
  mret (if bool_decide (buf = []) then None else Some buf).

(** [runcmd(parsecmd(buf))] in the child *)
Definition run_line (buf : list Z) : prog unit :=
  match parseline (8 * length buf + 8) buf with
  | Ret c rest =>
      let rest := skip_ws rest in
      if negb (bool_decide (rest = [])) then uprintf 2 (line "leftovers: %s") [AStr rest] ;; sh_panic "syntax" else
      runcmd (cmd_map (string_at (length buf) (nulterminate (length buf) c (buf ++ [0]))) c)
  | Panic msg => sh_panic msg
  | _ => never Crash
  end.

Definition open_console : prog unit :=
  loop (fun _ : unit =>
    fd ← call (Open (text "console") O_RDWR);
    if 0 <=? fd then
      if 3 <=? fd then call (Close fd) ;; mret (inr tt) else mret (inl tt)
    else mret (inr tt)) tt.

Definition main : prog unit :=
  open_console ;;
  loop (fun _ : unit =>
    l ← getcmd 100;
    match l with
    | None => mret (inr tt)
    | Some buf =>
        if bool_decide (take 3 buf = text "cd ") then
          let dir := drop 3 (take (length buf - 1) buf) in
          r ← call (Chdir dir);
          (if r <? 0 then uprintf 2 (line "cannot cd %s") [AStr dir] else mret tt) ;;
          mret (inl tt)
        else
          pid ← fork1;
          (if pid =? 0 then run_line buf else mret tt) ;;
          call Wait ;;
          mret (inl tt)
    end) tt ;;
  exit.

(** ** Processes

    An open file is one the shell has opened, an end of a pipe, or one it was
    started with.  A process is known by its place in the tree of forks, which
    also names the pipes it makes. *)
Definition place := list nat.
Inductive file := FOpen (path : list Z) (mode : Z) | FRead (pipe : place) | FWrite (pipe : place) | FOld (n : nat).
Notation table := (list (option file)).

(** What the process does from here on: it writes, starts a program with the
    descriptors it has, waits, forks, exits or returns. *)
Inductive ptree :=
| PExit
| PReturn
| PExec (path : list Z) (argv : list (list Z)) (fds : table)
| PWrite (fd : Z) (bs : list Z) (next : ptree)
| PWait (next : ptree)
| PFork (child parent : ptree).

(** Which of the calls that can fail do so, and the pids *)
Record world := mk_world {
  w_open : place -> list Z -> Z -> bool;
  w_exec : place -> list Z -> list (list Z) -> bool;
  w_pipe : place -> bool;
  w_fork : place -> option positive;
}.

Definition isfree (x : option file) : bool := match x with None => true | Some _ => false end.
Fixpoint lowest_free (fds : table) : option nat :=
  match fds with
  | [] => None
  | None :: _ => Some O
  | Some _ :: fds => S <$> lowest_free fds
  end.
(** [dup] and the allocation of a descriptor *)
Definition alloc (f : file) (fds : table) : option (nat * table) :=
  i ← lowest_free fds; Some (i, <[i := Some f]> fds).
Definition getfd (fds : table) (fd : Z) : option file := if fd <? 0 then None else mjoin (fds !! Z.to_nat fd).
Definition clear (fd : Z) (fds : table) : table := <[Z.to_nat fd := None]> fds.

Section eval.
Context (w : world).

Fixpoint eval {A} (fuel : nat) (t : tree sysE A) (at_ : place) (fds : table) : option ptree :=
  match fuel with
  | O => None
  | S fuel =>
      match action_of t with
      | Done _ => Some PReturn
      | Silent t => eval fuel t at_ fds
      | Asks e k =>
          match e in sysE B return (B -> tree sysE A) -> option ptree with
          | Fork => fun k =>
              match w_fork w at_ with
              | None => eval fuel (k (-1)) (2%nat :: at_) fds
              | Some pid =>
                  child ← eval fuel (k 0) (0%nat :: at_) fds;
                  parent ← eval fuel (k (Zpos pid)) (1%nat :: at_) fds;
                  Some (PFork child parent)
              end
          | Exit => fun _ => Some PExit
          | Wait => fun k => PWait <$> eval fuel (k 0) at_ fds
          | Pipe => fun k =>
              match (if w_pipe w at_ then '(p0, fds) ← alloc (FRead at_) fds; '(p1, fds) ← alloc (FWrite at_) fds; Some (p0, p1, fds) else None) with
              | None => eval fuel (k None) (2%nat :: at_) fds
              | Some (p0, p1, fds) => eval fuel (k (Some (Z.of_nat p0, Z.of_nat p1))) (2%nat :: at_) fds
              end
          | Write fd bs => fun k => PWrite fd bs <$> eval fuel (k (Z.of_nat (length bs))) at_ fds
          | Close fd => fun k =>
              match getfd fds fd with
              | None => eval fuel (k (-1)) at_ fds
              | Some _ => eval fuel (k 0) at_ (clear fd fds)
              end
          | Exec path argv => fun k =>
              if w_exec w at_ path argv then Some (PExec path argv fds) else eval fuel (k (-1)) (2%nat :: at_) fds
          | Open path mode => fun k =>
              match (if w_open w at_ path mode then alloc (FOpen path mode) fds else None) with
              | None => eval fuel (k (-1)) (2%nat :: at_) fds
              | Some (fd, fds) => eval fuel (k (Z.of_nat fd)) (2%nat :: at_) fds
              end
          | Dup fd => fun k =>
              match f ← getfd fds fd; alloc f fds with
              | None => eval fuel (k (-1)) at_ fds
              | Some (fd, fds) => eval fuel (k (Z.of_nat fd)) at_ fds
              end
          | _ => fun _ => None
          end k
      end
  end.

(** [t] becomes the process [p], from some amount of fuel on. *)
Definition evals {A} (t : tree sysE A) (at_ : place) (fds : table) (p : ptree) : Prop :=
  exists n, forall m, (n <= m)%nat -> eval m t at_ fds = Some p.

(** ** Rules of evaluation *)
Fixpoint noreturn (p : ptree) : Prop :=
  match p with
  | PExit | PExec _ _ _ => True
  | PReturn => False
  | PWrite _ _ p | PWait p => noreturn p
  | PFork c p => noreturn c /\ noreturn p
  end.

Lemma eval_bind {A B} n (t : tree sysE A) (k : A -> tree sysE B) at_ fds p :
  eval n t at_ fds = Some p -> noreturn p -> eval n (t ≫= k) at_ fds = Some p.
Proof.
  revert t at_ fds p. induction n as [|n IH]; intros t at_ fds p E Hp; [done|]. cbn [eval] in *. rewrite action_of_bind.
  destruct (action_of t) as [a|t'|C e h]; [by injection E as <-|by apply IH|].
  destruct e; try done; repeat case_match; try (apply IH; done).
  all: try (apply bind_Some in E as (c & Ec & E); apply bind_Some in E as (q & Eq & E); injection E as <-; destruct Hp;
    by rewrite (IH _ _ _ _ Ec), (IH _ _ _ _ Eq)).
  all: try done; apply fmap_Some in E as (q & Eq & ->); by rewrite (IH _ _ _ _ Eq).
Qed.

Lemma eval_assoc {A B C} n (t : tree sysE A) (f : A -> tree sysE B) (g : B -> tree sysE C) at_ fds :
  eval n ((t ≫= f) ≫= g) at_ fds = eval n (t ≫= fun x => f x ≫= g) at_ fds.
Proof.
  revert t at_ fds. induction n as [|n IH]; intros t at_ fds; [done|]. cbn [eval]. rewrite !action_of_bind.
  destruct (action_of t) as [a|t'|D e h]; [by rewrite action_of_bind|by apply IH|].
  destruct e; try done; repeat case_match; by rewrite ?IH.
Qed.

Lemma eval_ret {A B} n (a : A) (k : A -> tree sysE B) at_ fds : eval n (mret a ≫= k) at_ fds = eval n (k a) at_ fds.
Proof. destruct n; [done|]. cbn [eval]. by rewrite action_of_bind. Qed.

Lemma evals_seq {A B} (t : tree sysE A) (k : A -> tree sysE B) at_ fds p :
  evals t at_ fds p -> noreturn p -> evals (t ≫= k) at_ fds p.
Proof. intros [n Hn] Hp. exists n. intros m Hm. apply eval_bind; auto. Qed.

Lemma evals_assoc {A B C} (t : tree sysE A) (f : A -> tree sysE B) (g : B -> tree sysE C) at_ fds p :
  evals (t ≫= fun x => f x ≫= g) at_ fds p -> evals ((t ≫= f) ≫= g) at_ fds p.
Proof. intros [n Hn]. exists n. intros m Hm. rewrite eval_assoc. auto. Qed.

Lemma evals_ret {A B} (a : A) (k : A -> tree sysE B) at_ fds p : evals (k a) at_ fds p -> evals (mret a ≫= k) at_ fds p.
Proof. intros [n Hn]. exists n. intros m Hm. rewrite eval_ret. auto. Qed.

Lemma evals_exit {A} at_ fds : evals (exit : prog A) at_ fds PExit.
Proof. exists 1%nat. intros [|m] Hm; [lia|done]. Qed.

(** One call, answered in one way *)
Lemma evals_step {A B} (e : sysE A) (k : A -> tree sysE B) at_ fds a at' fds' (g : ptree -> ptree) p :
  (forall n, eval (S n) (call e ≫= k) at_ fds = g <$> eval n (mret a ≫= k) at' fds') ->
  evals (k a) at' fds' p -> evals (call e ≫= k) at_ fds (g p).
Proof.
  intros He [n Hn]. exists (S n). intros [|m] Hm; [lia|]. rewrite He, eval_ret, Hn by lia. done.
Qed.

Lemma evals_wait {B} (k : Z -> tree sysE B) at_ fds p : evals (k 0) at_ fds p -> evals (call Wait ≫= k) at_ fds (PWait p).
Proof. by apply evals_step. Qed.

Lemma evals_write {B} fd bs (k : Z -> tree sysE B) at_ fds p :
  evals (k (Z.of_nat (length bs))) at_ fds p -> evals (call (Write fd bs) ≫= k) at_ fds (PWrite fd bs p).
Proof. by apply (evals_step (Write fd bs) k at_ fds _ at_ fds (PWrite fd bs)). Qed.

Lemma option_fmap_same {A} (o : option A) : id <$> o = o.
Proof. by destruct o. Qed.

Lemma evals_close {B} fd f (k : Z -> tree sysE B) at_ fds p :
  getfd fds fd = Some f -> evals (k 0) at_ (clear fd fds) p -> evals (call (Close fd) ≫= k) at_ fds p.
Proof.
  intros E. apply (evals_step _ _ _ _ 0 _ _ id). intros n. rewrite option_fmap_same. cbn [eval]. rewrite action_of_bind. cbn. by rewrite E.
Qed.

Lemma evals_dup {B} fd f i fds' (k : Z -> tree sysE B) at_ fds p :
  getfd fds fd = Some f -> alloc f fds = Some (i, fds') -> evals (k (Z.of_nat i)) at_ fds' p -> evals (call (Dup fd) ≫= k) at_ fds p.
Proof.
  intros E Ea. apply (evals_step _ _ _ _ (Z.of_nat i) _ _ id). intros n. rewrite option_fmap_same. cbn [eval].
  rewrite action_of_bind. cbn. rewrite E. cbn. by rewrite Ea.
Qed.

Lemma evals_open {B} path mode (k : Z -> tree sysE B) at_ fds p :
  match (if w_open w at_ path mode then alloc (FOpen path mode) fds else None) with
  | None => evals (k (-1)) (2%nat :: at_) fds p
  | Some (fd, fds') => evals (k (Z.of_nat fd)) (2%nat :: at_) fds' p
  end -> evals (call (Open path mode) ≫= k) at_ fds p.
Proof.
  destruct (if w_open w at_ path mode then _ else _) as [[fd fds']|] eqn:E;
    (eapply (evals_step _ _ _ _ _ _ _ id); intros n; rewrite option_fmap_same; cbn [eval]; rewrite action_of_bind; cbn; by rewrite E).
Qed.

Lemma evals_exec {B} path argv (k : Z -> tree sysE B) at_ fds p :
  (if w_exec w at_ path argv then p = PExec path argv fds else evals (k (-1)) (2%nat :: at_) fds p) ->
  evals (call (Exec path argv) ≫= k) at_ fds p.
Proof.
  destruct (w_exec w at_ path argv) eqn:E.
  - intros ->. exists 1%nat. intros [|m] Hm; [lia|]. cbn [eval]. rewrite action_of_bind. cbn. by rewrite E.
  - apply (evals_step _ _ _ _ _ _ _ id). intros n. rewrite option_fmap_same. cbn [eval]. rewrite action_of_bind. cbn. by rewrite E.
Qed.

Lemma evals_pipe {B} (k : option (Z * Z) -> tree sysE B) at_ fds p :
  match (if w_pipe w at_ then '(p0, fds) ← alloc (FRead at_) fds; '(p1, fds) ← alloc (FWrite at_) fds; Some (p0, p1, fds) else None) with
  | None => evals (k None) (2%nat :: at_) fds p
  | Some (p0, p1, fds') => evals (k (Some (Z.of_nat p0, Z.of_nat p1))) (2%nat :: at_) fds' p
  end -> evals (call Pipe ≫= k) at_ fds p.
Proof.
  destruct (if w_pipe w at_ then _ else _) as [[[p0 p1] fds']|] eqn:E;
    (eapply (evals_step _ _ _ _ _ _ _ id); intros n; rewrite option_fmap_same; cbn [eval]; rewrite action_of_bind; cbn; by rewrite E).
Qed.

Lemma evals_fork {B} (k : Z -> tree sysE B) at_ fds p :
  match w_fork w at_ with
  | None => evals (k (-1)) (2%nat :: at_) fds p
  | Some pid => exists c q, p = PFork c q /\ evals (k 0) (0%nat :: at_) fds c /\ evals (k (Zpos pid)) (1%nat :: at_) fds q
  end -> evals (call Fork ≫= k) at_ fds p.
Proof.
  destruct (w_fork w at_) as [pid|] eqn:E.
  - intros (c & q & -> & [n Hn] & [n' Hn']). exists (S (Nat.max n n')). intros [|m] Hm; [lia|]. cbn [eval].
    rewrite action_of_bind. cbn. rewrite E.
    rewrite (eval_ret m 0 k), Hn by lia. cbn. rewrite (eval_ret m (Zpos pid) k), Hn' by lia. done.
  - apply (evals_step _ _ _ _ _ _ _ id). intros n. rewrite option_fmap_same. cbn [eval]. rewrite action_of_bind. cbn. by rewrite E.
Qed.

(** A message, one character at a time *)
Definition says (fd : Z) (bs : list Z) (p : ptree) : ptree := foldr (fun c p => PWrite fd [c] p) p bs.

Lemma evals_uprintf {B} fd fmt args out (k : unit -> tree sysE B) at_ fds p :
  formatted fmt args = Some out -> evals (k tt) at_ fds p -> evals (uprintf fd fmt args ≫= k) at_ fds (says fd out p).
Proof.
  intros E Hk. unfold uprintf. rewrite E. clear E. induction out as [|c out IH]; cbn [each says foldr]; [by apply evals_ret|].
  apply evals_assoc. unfold putc. apply evals_assoc. apply evals_write. by apply evals_ret.
Qed.

(** ** What a command means

    A simple command is the program with the descriptors the process has; a
    redirection puts a file in the place of a descriptor; the sides of a pipe
    have its ends in the place of descriptors 1 and 0 and nothing else of it;
    the parts of a list run one after the other; [&] is not waited for. *)
Definition failed (pre a post : list Z) : ptree := says 2 (pre ++ a ++ post) PExit.
Definition forking (at_ : place) (child parent : ptree) : ptree :=
  match w_fork w at_ with Some _ => PFork child parent | None => says 2 (line "fork") PExit end.

Definition room (fds : table) : bool := (2 <=? length (filter (fun x => x = None) fds))%nat.

Fixpoint means (c : cmd (list Z)) (at_ : place) (fds : table) : ptree :=
  match c with
  | EXEC [] => PExit
  | EXEC (a :: argv) =>
      if w_exec w at_ a (a :: argv) then PExec a (a :: argv) fds else failed (text "exec ") a (line " failed")
  | REDIR c file mode fd =>
      if w_open w at_ file mode then means c (2%nat :: at_) (<[Z.to_nat fd := Some (FOpen file mode)]> fds)
      else failed (text "open ") file (line " failed")
  | LIST cl cr => forking at_ (means cl (0%nat :: at_) fds) (PWait (means cr (1%nat :: at_) fds))
  | PIPE cl cr =>
      if w_pipe w at_ && room fds then
        let q := 2%nat :: at_ in
        forking q (means cl (0%nat :: q) (<[1%nat := Some (FWrite at_)]> fds))
          (forking (1%nat :: q) (means cr (0%nat :: 1%nat :: q) (<[0%nat := Some (FRead at_)]> fds)) (PWait (PWait PExit)))
      else says 2 (line "pipe") PExit
  | BACK c => forking at_ (means c (0%nat :: at_) fds) PExit
  end.

Lemma says_noreturn fd bs p : noreturn p -> noreturn (says fd bs p).
Proof. by induction bs. Qed.

Lemma forking_noreturn at_ c p : noreturn c -> noreturn p -> noreturn (forking at_ c p).
Proof. unfold forking. destruct (w_fork w at_); [done|]. intros. by apply says_noreturn. Qed.

Lemma means_noreturn c at_ fds : noreturn (means c at_ fds).
Proof.
  revert at_ fds. induction c as [[|a argv]|c IH file mode fd|cl IHl cr IHr|cl IHl cr IHr|c IH]; intros at_ fds; cbn [means]; [done|..].
  - by destruct (w_exec _ _ _ _); [|apply says_noreturn].
  - by destruct (w_open _ _ _ _); [|apply says_noreturn].
  - destruct (_ && _); [|by apply says_noreturn]. apply forking_noreturn; [done|]. by apply forking_noreturn.
  - apply forking_noreturn; [done|exact (IHr _ _)].
  - by apply forking_noreturn.
Qed.

Lemma evals_panic {A} s at_ fds :
  Forall (fun b => b <> 0) (text s) -> evals (sh_panic s : prog A) at_ fds (says 2 (line s) PExit).
Proof.
  intros Hs. unfold sh_panic. apply evals_uprintf; [|apply evals_exit].
  apply (formatted_str [] [10]); [constructor|literals|done].
Qed.

Lemma evals_fork1 {B} (k : Z -> tree sysE B) at_ fds c p :
  evals (k 0) (0%nat :: at_) fds c -> (forall pid, evals (k (Zpos pid)) (1%nat :: at_) fds p) ->
  evals (fork1 ≫= k) at_ fds (forking at_ c p).
Proof.
  intros Hc Hp. unfold fork1. apply evals_assoc, evals_fork. unfold forking. destruct (w_fork w at_) as [pid|].
  - exists c, p. split; [done|]. split; by apply evals_ret.
  - apply evals_seq; [apply evals_panic; by repeat constructor|by apply says_noreturn].
Qed.

(** ** Descriptors *)

(** Descriptors 0, 1 and 2 are open. *)
Definition std (fds : table) : Prop := forall i, (i < 3)%nat -> exists f, fds !! i = Some (Some f).

Lemma std_insert i f fds : std fds -> std (<[i := Some f]> fds).
Proof.
  intros Hs j Hj. destruct (Hs j Hj) as [g Hg]. destruct (decide (i = j)) as [->|Hn].
  - exists f. apply list_lookup_insert_eq. by eapply lookup_lt_Some.
  - exists g. by rewrite list_lookup_insert_ne.
Qed.

Lemma lowest_free_spec fds i :
  lowest_free fds = Some i <-> fds !! i = Some None /\ forall j, (j < i)%nat -> exists f, fds !! j = Some (Some f).
Proof.
  revert i. induction fds as [|[f|] fds IH]; intros i; cbn [lowest_free].
  - split; [done|]. by intros [? _].
  - destruct i as [|i]; cbn.
    + split; [by intros (? & _ & ?)%fmap_Some|]. by intros [? _].
    + split.
      * intros (i' & Hi & [= ->])%fmap_Some. apply IH in Hi as [Hi Hj]. split; [done|]. intros [|j] Hlt; [by exists f|]. apply Hj. lia.
      * intros [Hi Hj]. rewrite (proj2 (IH i)); [done|]. split; [done|]. intros j Hlt. apply (Hj (S j)). lia.
  - split; [intros [= <-]; split; [done|lia]|]. intros [Hi Hj]. destruct i as [|i]; [done|]. by destruct (Hj 0%nat ltac:(lia)) as [f ?].
Qed.

Lemma lowest_free_None fds : lowest_free fds = None <-> filter (fun x => x = None) fds = [].
Proof.
  induction fds as [|[f|] fds IH]; cbn [lowest_free]; [done| |].
  - rewrite filter_cons_False by done. by rewrite fmap_None.
  - rewrite filter_cons_True by done. done.
Qed.

Lemma lowest_free_filter fds i f : lowest_free fds = Some i ->
  length (filter (fun x => x = None) fds) = S (length (filter (fun x => x = None) (<[i := Some f]> fds))).
Proof.
  revert i. induction fds as [|[g|] fds IH]; intros i; cbn [lowest_free]; [done| |].
  - intros (i' & Hi & ->)%fmap_Some. cbn [insert list_insert]. rewrite !filter_cons_False by done. by apply IH.
  - intros [= <-]. cbn [insert list_insert]. by rewrite filter_cons_True, filter_cons_False by done.
Qed.

(** The two descriptors of a pipe *)
Lemma alloc_pipe at_ fds : std fds ->
  (('(p0, fds) ← alloc (FRead at_) fds; '(p1, fds) ← alloc (FWrite at_) fds; Some (p0, p1, fds)) = None /\ room fds = false) \/
  room fds = true /\ exists p0 p1, (3 <= p0 < p1)%nat /\ fds !! p0 = Some None /\ fds !! p1 = Some None /\
    ('(p0, fds) ← alloc (FRead at_) fds; '(p1, fds) ← alloc (FWrite at_) fds; Some (p0, p1, fds)) =
    Some (p0, p1, <[p1 := Some (FWrite at_)]> (<[p0 := Some (FRead at_)]> fds)).
Proof.
  intros Hs. unfold alloc, room. destruct (lowest_free fds) as [p0|] eqn:E0; cbn.
  2: { left. split; [done|]. apply lowest_free_None in E0. by rewrite E0. }
  rewrite (lowest_free_filter fds p0 (FRead at_) E0). destruct (lowest_free (<[p0 := _]> fds)) as [p1|] eqn:E1; cbn.
  2: { left. split; [done|]. apply lowest_free_None in E1. by rewrite E1. }
  right. rewrite (lowest_free_filter _ p1 (FWrite at_) E1). split; [done|]. exists p0, p1.
  apply lowest_free_spec in E0 as [H0 Hl0]. apply lowest_free_spec in E1 as [H1 Hl1].
  assert (3 <= p0)%nat as Hge.
  { apply Nat.nlt_ge. intros Hlt. destruct (Hs p0 Hlt) as [f Hf]. congruence. }
  assert (p0 <> p1) as Hne.
  { intros <-. rewrite list_lookup_insert_eq in H1 by (by eapply lookup_lt_Some). done. }
  rewrite list_lookup_insert_ne in H1 by done. split; [|done]. split; [done|].
  destruct (Nat.lt_trichotomy p0 p1) as [?|[?|Hlt]]; [done|done|]. destruct (Hl0 p1 Hlt) as [f Hf]. congruence.
Qed.

Lemma getfd_Some fds i f : fds !! i = Some (Some f) -> getfd fds (Z.of_nat i) = Some f.
Proof. intros E. unfold getfd. rewrite (proj2 (Z.ltb_ge _ _)) by lia. by rewrite Nat2Z.id, E. Qed.

(** The place of a closed descriptor below the free ones is taken again. *)
Lemma alloc_again i f fds : std fds -> (i < 3)%nat -> alloc f (clear (Z.of_nat i) fds) = Some (i, <[i := Some f]> fds).
Proof.
  intros Hs Hi. destruct (Hs i Hi) as [g Hg]. pose proof (lookup_lt_Some _ _ _ Hg) as Hl. unfold alloc, clear. rewrite Nat2Z.id.
  rewrite (proj2 (lowest_free_spec _ i)); [cbn; by rewrite list_insert_insert_eq|]. split; [by apply list_lookup_insert_eq|].
  intros j Hj. rewrite list_lookup_insert_ne by lia. apply Hs. lia.
Qed.

Lemma std_get i fds : std fds -> (i < 3)%nat -> exists f, getfd fds (Z.of_nat i) = Some f.
Proof. intros Hs Hi. destruct (Hs i Hi) as [f Hf]. exists f. by apply getfd_Some. Qed.

(** A side of a pipe whose descriptors are [p0] and [p1] *)
Lemma evals_side {B} i q f p0 p1 fr fw (k : tree sysE B) at_ fds p :
  std fds -> (i < 3)%nat -> (3 <= p0 < p1)%nat -> fds !! p0 = Some None -> fds !! p1 = Some None ->
  (q = p0 /\ f = fr \/ q = p1 /\ f = fw) ->
  let fds2 := <[p1 := Some fw]> (<[p0 := Some fr]> fds) in
  evals k at_ (<[i := Some f]> fds) p ->
  evals (call (Close (Z.of_nat i)) ;; call (Dup (Z.of_nat q)) ;; call (Close (Z.of_nat p0)) ;; call (Close (Z.of_nat p1)) ;; k) at_ fds2 p.
Proof.
  intros Hs Hi Hp H0 H1 Hq fds2 Hk. pose proof (lookup_lt_Some _ _ _ H0) as L0. pose proof (lookup_lt_Some _ _ _ H1) as L1.
  assert (std fds2) as Hs2 by (by do 2 apply std_insert). destruct (std_get i fds2 Hs2 Hi) as [g Hg].
  eapply evals_close; [done|]. eapply (evals_dup (Z.of_nat q) f); [|by apply alloc_again|].
  { apply getfd_Some. unfold clear. rewrite Nat2Z.id, list_lookup_insert_ne by lia. unfold fds2. destruct Hq as [[-> ->]|[-> ->]].
    - rewrite list_lookup_insert_ne by lia. by apply list_lookup_insert_eq.
    - apply list_lookup_insert_eq. by rewrite length_insert. }
  eapply evals_close.
  { apply getfd_Some. unfold fds2. rewrite !list_lookup_insert_ne by lia. by apply list_lookup_insert_eq. }
  eapply evals_close.
  { apply getfd_Some. unfold clear. rewrite Nat2Z.id, !list_lookup_insert_ne by lia. apply list_lookup_insert_eq. by rewrite length_insert. }
  replace (clear (Z.of_nat p1) (clear (Z.of_nat p0) (<[i := Some f]> fds2))) with (<[i := Some f]> fds); [done|].
  unfold clear, fds2. rewrite !Nat2Z.id. apply list_eq. intros j. rewrite !list_lookup_insert, !length_insert.
  repeat case_decide; try done; destruct_and?; subst; try lia; try congruence; tauto.
Qed.
End eval.

Lemma word_string a : word_ok a -> Forall (fun b => b <> 0) a.
Proof. intros [_ Ha]. eapply Forall_impl; [done|]. by intros b (_ & _ & ?). Qed.

Section runcmd.
Context (w : world).

Lemma runcmd_redir c file mode fd at_ fds :
  word_ok file -> (fd = 0 \/ fd = 1) -> std fds ->
  (evals w (runcmd c) (2%nat :: at_) (<[Z.to_nat fd := Some (FOpen file mode)]> fds)
     (means w c (2%nat :: at_) (<[Z.to_nat fd := Some (FOpen file mode)]> fds))) ->
  evals w (runcmd (REDIR c file mode fd)) at_ fds (means w (REDIR c file mode fd) at_ fds).
Proof.
  intros Hf Hfd Hs Hc. cbn [runcmd means]. assert (exists i, fd = Z.of_nat i /\ (i < 3)%nat) as (i & -> & Hi).
  { destruct Hfd as [-> | ->]; [exists 0%nat|exists 1%nat]; split; done || lia. }
  rewrite Nat2Z.id in *. destruct (std_get i fds Hs Hi) as [f Ef]. eapply evals_close; [done|]. apply evals_open.
  destruct (w_open w at_ file mode) eqn:Eo.
  - rewrite alloc_again by done. rewrite (proj2 (Z.ltb_ge _ _)) by lia. by apply evals_seq; [|apply means_noreturn].
  - change (-1 <? 0) with true. cbv iota. apply evals_uprintf; [|apply evals_exit].
    apply (formatted_str (text "open ") (line " failed")); [literals|literals|by apply word_string].
Qed.

Lemma runcmd_pipe cl cr at_ fds :
  std fds -> (forall at_ fds, std fds -> evals w (runcmd cl) at_ fds (means w cl at_ fds)) ->
  (forall at_ fds, std fds -> evals w (runcmd cr) at_ fds (means w cr at_ fds)) ->
  evals w (runcmd (PIPE cl cr)) at_ fds (means w (PIPE cl cr) at_ fds).
Proof.
  intros Hs Hl Hr. cbn [runcmd means]. apply evals_pipe.
  destruct (w_pipe w at_); [|apply evals_panic; by repeat constructor].
  destruct (alloc_pipe at_ fds Hs) as [[-> ->]|(-> & p0 & p1 & Hp & H0 & H1 & ->)]; [apply evals_panic; by repeat constructor|].
  cbn [andb]. apply evals_fork1; [|intros pid; apply evals_ret; apply evals_fork1; [|intros pid'; apply evals_ret]].
  - apply evals_seq; [|apply means_noreturn]. apply (evals_side w 1 p1 (FWrite at_) p0 p1 (FRead at_)); try done; [lia|by right|].
    by apply Hl, std_insert.
  - apply evals_seq; [|apply means_noreturn]. apply (evals_side w 0 p0 (FRead at_) p0 p1 (FRead at_)); try done; [lia|by left|].
    by apply Hr, std_insert.
  - pose proof (lookup_lt_Some _ _ _ H0). pose proof (lookup_lt_Some _ _ _ H1).
    eapply evals_close; [apply getfd_Some; rewrite list_lookup_insert_ne by lia; by apply list_lookup_insert_eq|].
    eapply evals_close.
    { apply getfd_Some. unfold clear. rewrite Nat2Z.id, list_lookup_insert_ne by lia. apply list_lookup_insert_eq. by rewrite length_insert. }
    by do 2 apply evals_wait; apply evals_exit.
Qed.
End runcmd.

(** C30: [runcmd] does what the command means.  Started with descriptors 0, 1
    and 2 open, it never returns, and the processes it becomes are those of
    the shell's language: every simple command is started once, with exactly
    the descriptors of the shell but for the files its redirections name and
    the ends of the pipes it stands at (no process keeps another end of a
    pipe open), the second command of a list after waiting for the first, a
    pipe's parent after closing both ends and waiting twice; a call that
    fails is reported and ends the process. *)
Theorem runcmd_correct w c at_ fds :
  cmd_ok c -> std fds -> evals w (runcmd c) at_ fds (means w c at_ fds).
Proof.
  revert at_ fds. induction c as [[|a argv]|c IH file mode fd|cl IHl cr IHr|cl IHl cr IHr|c IH]; intros at_ fds Hok Hs.
  - apply evals_exit.
  - cbn [runcmd means]. apply evals_exec. destruct (w_exec w at_ a (a :: argv)); [done|].
    apply evals_uprintf; [|apply evals_exit]. destruct Hok as [[Ha _]%Forall_cons _].
    apply (formatted_str (text "exec ") (line " failed")); [literals|literals|by apply word_string].
  - destruct Hok as [Hc [Hw Hm]]. apply runcmd_redir; [done|by destruct Hm as [[_ ?]|[_ ?]]; auto|done|].
    apply IH; [done|by apply std_insert].
  - destruct Hok. apply runcmd_pipe; auto.
  - destruct Hok. cbn [runcmd means]. apply evals_fork1.
    + apply evals_seq; [by apply IHl|apply means_noreturn].
    + intros pid. apply evals_ret, evals_wait. apply evals_seq; [by apply IHr|apply means_noreturn].
  - cbn [runcmd means]. apply evals_fork1; [|intros pid; apply evals_ret, evals_exit].
    apply evals_seq; [by apply IH|apply means_noreturn].
Qed.

(** ** The three descriptors *)
Lemma free_count s fd x : free_fd s = Some fd ->
  (length (filter (fun x => x = None) (os_fds (put fd (Some x) s))) < length (filter (fun x => x = None) (os_fds s)))%nat.
Proof.
  unfold free_fd, put. destruct (list_find _ _) as [[i y]|] eqn:E; [|done]. intros [= <-]. cbn. rewrite Nat2Z.id.
  apply list_find_Some in E as (Hi & -> & _). rewrite <- (take_drop_middle _ _ _ Hi) at 2.
  rewrite insert_take_drop by (by eapply lookup_lt_Some). rewrite !filter_app, !length_app.
  rewrite filter_cons_False, filter_cons_True by done. cbn [length]. lia.
Qed.

(** The loop that opens the console ends with descriptors 0, 1 and 2 open,
    which is what [runcmd] relies on. *)
Lemma open_console_std (H : forall B, sysE B -> os -> Prop) s c :
  os_files s !! text "console" = Some c -> (3 <= length (os_fds s))%nat ->
  must H (fun _ s' => forall i, 0 <= i < 3 -> exists x, fdobj s' i = Some x) open_console s.
Proof.
  remember (length (filter (fun x => x = None) (os_fds s))) as n eqn:Hn. revert s Hn.
  induction n as [n IH] using lt_wf_ind. intros s -> Hc Hl. apply must_loop. must_steps. apply must_open. rewrite Hc.
  assert (forall i, 0 <= i < 3 -> (forall fd, free_fd s = Some fd -> i < fd) -> exists x, fdobj s i = Some x) as Hopen.
  { intros i Hi Hlt. destruct (lookup_lt_is_Some_2 (os_fds s) (Z.to_nat i) ltac:(lia)) as [[x|] E].
    - exists x. unfold fdobj. rewrite (proj2 (Z.ltb_ge i 0)) by lia. by rewrite E.
    - exfalso. unfold free_fd in Hlt. destruct (list_find _ (os_fds s)) as [[j y]|] eqn:Ef.
      + specialize (Hlt _ eq_refl). cbn in Hlt. apply list_find_Some in Ef as (_ & _ & Hf). apply (Hf (Z.to_nat i) None E); [lia|done].
      + apply list_find_None in Ef. rewrite Forall_forall in Ef. apply (Ef None); [by eapply list_elem_of_lookup_2|done]. }
  destruct (free_fd s) as [fd|] eqn:Ef.
  - destruct (free_fd_spec s fd Ef) as (Hfd & Hlt & Hid & _). rewrite (proj2 (Z.leb_le 0 fd) Hfd). destruct (Z.leb_spec 3 fd).
    + must_steps. eapply must_close.
      { unfold fdobj, put. rewrite (proj2 (Z.ltb_ge fd 0) Hfd). cbn. by rewrite list_lookup_insert_eq. }
      must_steps. rewrite put_put, Hid. intros i Hi. apply Hopen; [done|]. intros ? [= <-]. lia.
    + must_steps. eapply IH; [by apply free_count|done|done|]. unfold put. cbn. by rewrite length_insert.
  - change (0 <=? -1) with false. must_steps. intros i Hi. by apply Hopen.
Qed.

(** "ls < d | ( cat ; rm f & ) > o" by a shell whose forks, but not the
    starting of cat, succeed *)
Definition x_cmd : cmd (list Z) :=
  PIPE (REDIR (EXEC [text "ls"]) (text "d") Sh.O_RDONLY 0)
    (REDIR (LIST (EXEC [text "cat"]) (BACK (EXEC [text "rm"; text "f"]))) (text "o") (Z.lor Sh.O_WRONLY Sh.O_CREATE) 1).
Definition x_world : world :=
  mk_world (fun _ _ _ => true) (fun _ a _ => negb (bool_decide (a = text "cat"))) (fun _ => true) (fun _ => Some 4%positive).
Definition x_fds : table := [Some (FOld 0); Some (FOld 1); Some (FOld 2)] ++ replicate 13 None.

Lemma runcmd_correct_witness :
  evals x_world (runcmd x_cmd) [] x_fds
    (PFork (PExec (text "ls") [text "ls"] ([Some (FOpen (text "d") 0); Some (FWrite []); Some (FOld 2)] ++ replicate 13 None))
       (PFork (PFork (says 2 (line "exec cat failed") PExit)
                 (PWait (PFork (PExec (text "rm") [text "rm"; text "f"]
                                  ([Some (FRead []); Some (FOpen (text "o") 513); Some (FOld 2)] ++ replicate 13 None)) PExit)))
          (PWait (PWait PExit)))).
Proof.
  apply (runcmd_correct x_world x_cmd [] x_fds).
  - apply (bool_decide_unpack _). vm_compute. exact I.
  - intros [|[|[|i]]] Hi; [by eexists..|lia].
Defined.
