(* ===== verification/Device.v ===== *)
(** * Devices (uart.c, ioapic.c, lapic.c, picirq.c, date.h, idewait and ideinit of ide.c)

  Driver code is an interaction tree over accesses to ports ([inb], [outb],
  [insl]) and to memory-mapped registers.  The static variables [uart] and
  [lapic] (0 if there is none) are arguments; [microdelay] is empty. *)
From S2P Require Import Prelude Params Kalloc Trap Interact.

Variant devE : Type -> Type :=
| Inb (port : Z) : devE Z
| Outb (port data : Z) : devE unit
| Insl (port cnt : Z) : devE (list Z)
| Readl (addr : Z) : devE Z
| Writel (addr v : Z) : devE unit
| Writew (addr v : Z) : devE unit.
Notation drv := (tree devE).

Definition inb (port : Z) : drv Z := call (Inb port).
Definition outb (port data : Z) : drv unit := call (Outb port (u8 data)).

(** ** ioapic.c *)
Notation IOAPIC := 0xFEC00000 (only parsing).
Notation REG_ID := 0 (only parsing).
Notation REG_VER := 1 (only parsing).
Notation REG_TABLE := 16 (only parsing).
Notation INT_DISABLED := 0x10000 (only parsing).

Definition ioapicread (reg : Z) : drv Z :=
  call (Writel IOAPIC reg) ;;
  call (Readl (IOAPIC + 16)).
Definition ioapicwrite (reg data : Z) : drv unit :=
  call (Writel IOAPIC reg) ;;
  call (Writel (IOAPIC + 16) data).

(** The result says whether the message about the id is printed. *)
Definition ioapicinit (ioapicid : Z) : drv bool :=
  v ← ioapicread REG_VER;
  let maxintr := Z.land (Z.shiftr v 16) 0xFF in
  i ← ioapicread REG_ID;
  let id := Z.shiftr i 24 in
  each (seqZ 0 (maxintr + 1)) (fun i =>
    ioapicwrite (REG_TABLE + 2 * i) (Z.lor INT_DISABLED (T_IRQ0 + i)) ;;
    ioapicwrite (REG_TABLE + 2 * i + 1) 0) ;;
  mret (negb (id =? ioapicid)).
Definition ioapicenable (irq cpunum : Z) : drv unit :=
  ioapicwrite (REG_TABLE + 2 * irq) (T_IRQ0 + irq) ;;
  ioapicwrite (REG_TABLE + 2 * irq + 1) (u32 (Z.shiftl cpunum 24)).

(** ** picirq.c *)
Definition picinit : drv unit :=
  outb (0x20 + 1) 0xFF ;;
  outb (0xA0 + 1) 0xFF.

(** ** uart.c *)
Notation COM1 := 0x3f8 (only parsing).

(** [for(i = 0; i < 128 && !(inb(COM1+5) & 0x20); i++)] *)
Fixpoint uartwait (n : nat) : drv unit :=
  match n with
  | O => mret tt
  | S n => r ← inb (COM1 + 5); if Z.land r 0x20 =? 0 then uartwait n else mret tt
  end.
Definition uartputc (uart : bool) (c : Z) : drv unit :=
  if negb uart then mret tt else
  uartwait 128 ;;
  outb (COM1 + 0) c.
Definition uartgetc (uart : bool) : drv Z :=
  if negb uart then mret (-1) else
  r ← inb (COM1 + 5);
  if Z.land r 0x01 =? 0 then mret (-1) else
  inb (COM1 + 0).
(** The result is [uart]. *)
Definition uartinit : drv bool :=
  outb (COM1 + 2) 0 ;;
  outb (COM1 + 3) 0x80 ;;
  outb (COM1 + 0) (115200 / 9600) ;;
  outb (COM1 + 1) 0 ;;
  outb (COM1 + 3) 0x03 ;;
  outb (COM1 + 4) 0 ;;
  outb (COM1 + 1) 0x01 ;;
  r ← inb (COM1 + 5);
  if r =? 0xFF then mret false else
  inb (COM1 + 2) ;;
  inb (COM1 + 0) ;;
  ioapicenable IRQ_COM1 0 ;;
  each [120; 118; 54; 46; 46; 46; 10] (uartputc true) ;;
  mret true.

(** ** lapic.c *)
Notation ID := 0x20 (only parsing).
Notation VER := 0x30 (only parsing).
Notation TPR := 0x80 (only parsing).
Notation EOI := 0xB0 (only parsing).
Notation SVR := 0xF0 (only parsing).
Notation ESR := 0x280 (only parsing).
Notation ICRLO := 0x300 (only parsing).
Notation ICRHI := 0x310 (only parsing).
Notation TIMER := 0x320 (only parsing).
Notation PCINT := 0x340 (only parsing).
Notation LINT0 := 0x350 (only parsing).
Notation LINT1 := 0x360 (only parsing).
Notation ERROR := 0x370 (only parsing).
Notation TICR := 0x380 (only parsing).
Notation TDCR := 0x3E0 (only parsing).
Notation ENABLE := 0x100 (only parsing).
Notation INIT := 0x500 (only parsing).
Notation STARTUP := 0x600 (only parsing).
Notation DELIVS := 0x1000 (only parsing).
Notation ASSERT := 0x4000 (only parsing).
Notation LEVEL := 0x8000 (only parsing).
Notation BCAST := 0x80000 (only parsing).
Notation X1 := 0xB (only parsing).
Notation PERIODIC := 0x20000 (only parsing).
Notation MASKED := 0x10000 (only parsing).
Notation IRQ_ERROR := 19 (only parsing).

(** [index] is the offset of the register in bytes. *)
Definition lapicw (lapic index value : Z) : drv unit :=
  call (Writel (lapic + index) (u32 value)) ;;
  call (Readl (lapic + ID)) ;;
  mret tt.

Definition lapicinit (lapic : Z) : drv unit :=
  if lapic =? 0 then mret tt else
  lapicw lapic SVR (Z.lor ENABLE (T_IRQ0 + IRQ_SPURIOUS)) ;;
  lapicw lapic TDCR X1 ;;
  lapicw lapic TIMER (Z.lor PERIODIC (T_IRQ0 + IRQ_TIMER)) ;;
  lapicw lapic TICR 10000000 ;;
  lapicw lapic LINT0 MASKED ;;
  lapicw lapic LINT1 MASKED ;;
  v ← call (Readl (lapic + VER));
  (if 4 <=? Z.land (Z.shiftr v 16) 0xFF then lapicw lapic PCINT MASKED else mret tt) ;;
  lapicw lapic ERROR (T_IRQ0 + IRQ_ERROR) ;;
  lapicw lapic ESR 0 ;;
  lapicw lapic ESR 0 ;;
  lapicw lapic EOI 0 ;;
  lapicw lapic ICRHI 0 ;;
  lapicw lapic ICRLO (Z.lor (Z.lor BCAST INIT) LEVEL) ;;
  loop (fun _ : unit =>
    r ← call (Readl (lapic + ICRLO));
    if Z.land r DELIVS =? 0 then mret (inr tt) else mret (inl tt)) tt ;;
  lapicw lapic TPR 0.

Definition lapicid (lapic : Z) : drv Z :=
  if lapic =? 0 then mret 0 else
  r ← call (Readl (lapic + ID)); mret (Z.shiftr r 24).
Definition lapiceoi (lapic : Z) : drv unit := if lapic =? 0 then mret tt else lapicw lapic EOI 0.

Definition lapicstartap (lapic apicid addr : Z) : drv unit :=
  outb 0x70 0xF ;;
  outb (0x70 + 1) 0x0A ;;
  let wrv := P2V (Z.lor (Z.shiftl 0x40 4) 0x67) in
  call (Writew wrv 0) ;;
  call (Writew (wrv + 2) (u16 (Z.shiftr addr 4))) ;;
  lapicw lapic ICRHI (Z.shiftl apicid 24) ;;
  lapicw lapic ICRLO (Z.lor (Z.lor INIT LEVEL) ASSERT) ;;
  lapicw lapic ICRLO (Z.lor INIT LEVEL) ;;
  each [0; 1] (fun _ =>
    lapicw lapic ICRHI (Z.shiftl apicid 24) ;;
    lapicw lapic ICRLO (Z.lor STARTUP (Z.shiftr addr 12))).

(** The real-time clock *)
Notation CMOS_PORT := 0x70 (only parsing).
Notation CMOS_RETURN := 0x71 (only parsing).
Notation CMOS_STATA := 0x0a (only parsing).
Notation CMOS_STATB := 0x0b (only parsing).
Notation CMOS_UIP := 0x80 (only parsing).

Record rtcdate := mk_rtcdate { second : Z; minute : Z; hour : Z; day : Z; month : Z; year : Z }.
Global Instance rtcdate_eq_dec : EqDecision rtcdate.
Proof. solve_decision. Defined.

Definition cmos_read (reg : Z) : drv Z :=
  outb CMOS_PORT reg ;;
  inb CMOS_RETURN.
Definition fill_rtcdate : drv rtcdate :=
  s ← cmos_read 0x00; m ← cmos_read 0x02; h ← cmos_read 0x04;
  d ← cmos_read 0x07; mo ← cmos_read 0x08; y ← cmos_read 0x09;
  mret (mk_rtcdate s m h d mo y).

Definition CONV (x : Z) : Z := Z.shiftr x 4 * 10 + Z.land x 0xf.
Definition convert (bcd : bool) (t : rtcdate) : rtcdate :=
  let t := if bcd then mk_rtcdate (CONV (second t)) (CONV (minute t)) (CONV (hour t)) (CONV (day t)) (CONV (month t)) (CONV (year t)) else t in
  mk_rtcdate (second t) (minute t) (hour t) (day t) (month t) (year t + 2000).

Definition cmostime : drv rtcdate :=
  sb ← cmos_read CMOS_STATB;
  let bcd := Z.land sb (Z.shiftl 1 2) =? 0 in
  t1 ← loop (fun _ : unit =>
    t1 ← fill_rtcdate;
    a ← cmos_read CMOS_STATA;
    if negb (Z.land a CMOS_UIP =? 0) then mret (inl tt) else
    t2 ← fill_rtcdate;
    if bool_decide (t1 = t2) then mret (inr t1) else mret (inl tt)) tt;
  mret (convert bcd t1).

(** ** ide.c: polling and probing *)
Notation IDE_BSY := 0x80 (only parsing).
Notation IDE_DRDY := 0x40 (only parsing).
Notation IDE_DF := 0x20 (only parsing).
Notation IDE_ERR := 0x01 (only parsing).

Definition idewait (checkerr : bool) (portno : Z) : drv Z :=
  r ← loop (fun _ : unit =>
    r ← inb (portno + 7);
    if Z.land r (Z.lor IDE_BSY IDE_DRDY) =? IDE_DRDY then mret (inr r) else mret (inl tt)) tt;
  if checkerr && negb (Z.land r (Z.lor IDE_DF IDE_ERR) =? 0) then mret (-1) else mret 0.

(** [for(i=0; i<1000; i++) if(inb(port) != 0){ havedisk = 1; break; }] *)
Fixpoint probe (n : nat) (port : Z) : drv bool :=
  match n with
  | O => mret false
  | S n => r ← inb port; if negb (r =? 0) then mret true else probe n port
  end.
(** The result is [havedisk1] and [havedisk2]. *)
Definition ideinit (ncpu : Z) : drv (bool * bool) :=
  ioapicenable IRQ_IDE (ncpu - 1) ;;
  ioapicenable (IRQ_IDE + 1) (ncpu - 1) ;;
  outb 0x1f6 (Z.lor 0xe0 (Z.shiftl 1 4)) ;;
  d1 ← probe 1000 0x1f7;
  outb 0x176 (Z.lor 0xe0 (Z.shiftl 2 4)) ;;
  d2 ← probe 1000 0x177;
  outb 0x1f6 (Z.lor 0xe0 (Z.shiftl 0 4)) ;;
  mret (d1, d2).
