(* ===== verification/DeviceSpec.v ===== *)
(** * What the drivers do to their devices

  The real-time clock and [cmostime]; the I/O APIC and [ioapicinit]. *)
From S2P Require Import Prelude Params Trap Interact Device.

(** ** The real-time clock

    The clock shows [r_now], showed [r_prev] before and will show [r_next].
    It can tick before any read of a register, but not twice within 26 reads
    ([r_quiet] are those left); the update flag of register A is seen set
    [r_busy] more times at most. *)
Record rtc := mk_rtc {
  r_sel : Z;
  r_prev : rtcdate;
  r_now : rtcdate;
  r_next : list rtcdate;
  r_quiet : nat;
  r_busy : nat;
  r_statb : Z;
}.

Definition field (reg : Z) (t : rtcdate) : option Z :=
  if reg =? 0x00 then Some (second t) else if reg =? 0x02 then Some (minute t)
  else if reg =? 0x04 then Some (hour t) else if reg =? 0x07 then Some (day t)
  else if reg =? 0x08 then Some (month t) else if reg =? 0x09 then Some (year t) else None.

Definition rtc_tick (s s' : rtc) : Prop :=
  s' = s \/ r_quiet s = 0%nat /\ exists c l, r_next s = c :: l /\ s' = mk_rtc (r_sel s) (r_now s) c l 26 (r_busy s) (r_statb s).

(** A read of the register selected, after the clock may have ticked *)
Definition rtc_read (s : rtc) (v : Z) (s' : rtc) : Prop :=
  let after b := mk_rtc (r_sel s) (r_prev s) (r_now s) (r_next s) (pred (r_quiet s)) b (r_statb s) in
  match field (r_sel s) (r_now s) with
  | Some x => v = x /\ s' = after (r_busy s)
  | None =>
      if r_sel s =? 0x0a then (Z.land v 0x80 = 0 /\ s' = after (r_busy s)) \/ (Z.land v 0x80 <> 0 /\ r_busy s <> 0%nat /\ s' = after (pred (r_busy s)))
      else r_sel s = 0x0b /\ v = r_statb s /\ s' = after (r_busy s)
  end.

Definition rtc_step A (e : devE A) (s : rtc) : option (A * rtc) -> Prop :=
  match e in devE A return option (A * rtc) -> Prop with
  | Outb port r => fun o => port = 0x70 /\ o = Some (tt, mk_rtc r (r_prev s) (r_now s) (r_next s) (r_quiet s) (r_busy s) (r_statb s))
  | Inb port => fun o => port = 0x71 /\ exists s1 v s', rtc_tick s s1 /\ rtc_read s1 v s' /\ o = Some (v, s')
  | _ => fun _ => False
  end.
Global Instance rtc_env : Env devE rtc := rtc_step.

(** The clock after [n] reads, with or without a tick in them *)
Definition steady (n : nat) (s s' : rtc) : Prop :=
  r_prev s' = r_prev s /\ r_now s' = r_now s /\ r_next s' = r_next s /\ r_busy s' = r_busy s /\ r_statb s' = r_statb s /\
  r_quiet s' = (r_quiet s - n)%nat.
Definition ticked (n : nat) (s s' : rtc) : Prop :=
  r_prev s' = r_now s /\ r_next s = r_now s' :: r_next s' /\ r_busy s' = r_busy s /\ r_statb s' = r_statb s /\
  (26 - n <= r_quiet s')%nat /\ (r_quiet s < n)%nat.

Section rtc.
Context (H : forall B, devE B -> rtc -> Prop).

Lemma must_outb (s : rtc) r (Q : unit -> rtc -> Prop) :
  0 <= r < 256 -> Q tt (mk_rtc r (r_prev s) (r_now s) (r_next s) (r_quiet s) (r_busy s) (r_statb s)) -> must H Q (outb 0x70 r) s.
Proof.
  intros Hr HQ. unfold outb, u8. rewrite Z.mod_small by done. eapply must_call1; [|done]. intros o. unfold env_step, rtc_env, rtc_step. tauto.
Qed.

(** A register of the time *)
Lemma must_cmos_field s r f (Q : Z -> rtc -> Prop) :
  0 <= r < 256 -> (forall t, field r t = Some (f t)) ->
  (forall s', steady 1 s s' -> Q (f (r_now s)) s') -> (forall s', ticked 1 s s' -> Q (f (r_now s')) s') -> must H Q (cmos_read r) s.
Proof.
  intros Hr Hf Hs Ht. unfold cmos_read. must_steps. apply must_outb; [done|]. set (s0 := mk_rtc r _ _ _ _ _ _).
  apply must_call.
  - eexists. split; [done|]. exists s0. eexists _, _. split; [by left|]. split; [|done]. unfold rtc_read. cbn. by rewrite Hf.
  - by intros (_ & ? & ? & ? & _ & _ & ?).
  - intros v s' (_ & s1 & v' & s2 & Htk & Hrd & [= -> ->]). destruct Htk as [->|(Hq & c & l & Hn & ->)].
    + unfold rtc_read in Hrd. cbn in Hrd. rewrite Hf in Hrd. destruct Hrd as [-> ->]. apply Hs.
      unfold steady. cbn. split_and!; [done..|]. lia.
    + unfold rtc_read in Hrd. cbn in Hrd, Hq, Hn. rewrite Hf in Hrd. destruct Hrd as [-> ->]. apply (Ht (mk_rtc _ _ _ _ _ _ _)).
      unfold ticked. cbn. rewrite Hn, Hq. split_and!; [done..|lia|lia].
Qed.

(** The next read, [k] reads after [s] *)
Lemma cmos_next s k s1 r f (Q : Z -> rtc -> Prop) :
  steady k s s1 -> 0 <= r < 256 -> (forall t, field r t = Some (f t)) ->
  (forall s2, steady (k + 1) s s2 -> Q (f (r_now s)) s2) -> (forall v s2, ticked (k + 1) s s2 -> Q v s2) -> must H Q (cmos_read r) s1.
Proof.
  intros (E1 & E2 & E3 & E4 & E5 & E6) Hr Hf Hs Ht. apply (must_cmos_field s1 r f); [done|done| |].
  - intros s2 (F1 & F2 & F3 & F4 & F5 & F6). rewrite E2. apply Hs. unfold steady. split_and!; [congruence..|lia].
  - intros s2 (F1 & F2 & F3 & F4 & F5 & F6). apply Ht. unfold ticked. split_and!; [congruence..|lia|lia].
Qed.

Lemma cmos_next_ticked s k s1 r f (Q : Z -> rtc -> Prop) :
  ticked k s s1 -> (k < 26)%nat -> 0 <= r < 256 -> (forall t, field r t = Some (f t)) ->
  (forall v s2, ticked (k + 1) s s2 -> Q v s2) -> must H Q (cmos_read r) s1.
Proof.
  intros (E1 & E2 & E3 & E4 & E5 & E6) Hk Hr Hf Ht. apply (must_cmos_field s1 r f); [done|done| |].
  - intros s2 (F1 & F2 & F3 & F4 & F5 & F6). apply Ht. unfold ticked. split_and!; [congruence..|lia|lia].
  - intros s2 (F1 & F2 & F3 & F4 & F5 & F6). lia.
Qed.

Lemma steady_0 s : steady 0 s s.
Proof. unfold steady. split_and!; [done..|lia]. Qed.

Ltac next_field :=
  must_steps;
  match goal with
  | Hs : steady ?k ?s ?s1 |- must _ _ (cmos_read _) ?s1 =>
      eapply (cmos_next s k s1); [exact Hs|done|intros ?; reflexivity|intros ? ?|intros ? ? ?]; clear Hs
  | Hs : ticked ?k ?s ?s1 |- must _ _ (cmos_read _) ?s1 =>
      eapply (cmos_next_ticked s k s1); [exact Hs|lia|done|intros ?; reflexivity|intros ? ? ?]; clear Hs
  end.

(** The six registers: if the clock does not tick they are the time shown. *)
Lemma fill_rtcdate_spec s0 k s :
  steady k s0 s \/ ticked k s0 s -> (k <= 20)%nat ->
  must H (fun t s' => (steady (k + 6) s0 s' /\ t = r_now s0) \/ ticked (k + 6) s0 s') fill_rtcdate s.
Proof.
  intros Hs Hk. unfold fill_rtcdate.
  assert (forall n, k + n + 1 = k + (n + 1))%nat as Ea by lia.
  destruct Hs as [Hs|Hs]; replace k with (k + 0)%nat in Hs by lia; repeat next_field; must_steps.
  all: rewrite <- ?Nat.add_assoc in *; cbn [Nat.add] in *.
  all: try (by right). left. split; [done|]. by destruct (r_now s0).
Qed.

(** One more read, whatever its answer *)
Lemma later_read s0 k s r s1 s2 :
  steady k s0 s \/ ticked k s0 s -> (k < 26)%nat ->
  rtc_tick (mk_rtc r (r_prev s) (r_now s) (r_next s) (r_quiet s) (r_busy s) (r_statb s)) s1 ->
  s2 = mk_rtc (r_sel s1) (r_prev s1) (r_now s1) (r_next s1) (pred (r_quiet s1)) (r_busy s1) (r_statb s1) ->
  steady (k + 1) s0 s2 \/ ticked (k + 1) s0 s2.
Proof.
  unfold steady, ticked.
  intros [(E1 & E2 & E3 & E4 & E5 & E6)|(E1 & E2 & E3 & E4 & E5 & E6)] Hk [->|(Hq & c & l & Hn & ->)] ->; cbn in *.
  - left. split_and!; [congruence..|lia].
  - right. split_and!; [congruence..|lia|lia].
  - right. split_and!; [congruence..|lia|lia].
  - lia.
Qed.

Lemma later_next s0 k s : steady k s0 s \/ ticked k s0 s ->
  (length (r_next s) <= length (r_next s0))%nat /\ r_busy s = r_busy s0 /\ r_statb s = r_statb s0.
Proof.
  intros [(E1 & E2 & E3 & E4 & E5 & E6)|(E1 & E2 & E3 & E4 & E5 & E6)]; rewrite ?E2, ?E3; cbn; split_and!; done || lia.
Qed.

(** Register A: if the update flag is set, one such answer is used up. *)
Lemma cmos_stata s0 k s (Q : Z -> rtc -> Prop) :
  steady k s0 s \/ ticked k s0 s -> (k < 26)%nat ->
  (forall v s', Z.land v 0x80 = 0 -> steady (k + 1) s0 s' \/ ticked (k + 1) s0 s' -> Q v s') ->
  (forall v s', Z.land v 0x80 <> 0 -> (r_busy s' < r_busy s0)%nat -> (length (r_next s') <= length (r_next s0))%nat -> r_statb s' = r_statb s0 -> Q v s') ->
  must H Q (cmos_read 0x0a) s.
Proof.
  intros Hs Hk Hok Hbusy. unfold cmos_read. must_steps. apply must_outb; [done|]. set (s1 := mk_rtc 0x0a _ _ _ _ _ _). apply must_call.
  - eexists. split; [done|]. exists s1. eexists 0, _. split; [by left|]. split; [|done]. left. done.
  - by intros (_ & ? & ? & ? & _ & _ & ?).
  - intros v s' (_ & s2 & v' & s3 & Htk & Hrd & [= -> ->]).
    pose proof (later_read s0 k s _ s2 _ Hs Hk Htk eq_refl) as Hl. assert (r_sel s2 = 0x0a) as Esel.
    { by destruct Htk as [->|(_ & c & l & _ & ->)]. }
    unfold rtc_read in Hrd. rewrite Esel in Hrd. destruct Hrd as [[Hv ->]|(Hv & Hb & ->)].
    + apply Hok; [done|]. by rewrite Esel in Hl.
    + destruct (later_next _ _ _ Hl) as (Hn & Hby & Hst). cbn in *. apply Hbusy; cbn; [done|lia|done|done].
Qed.

Lemma cmos_statb s (Q : Z -> rtc -> Prop) :
  (forall s', (length (r_next s') <= length (r_next s))%nat -> Q (r_statb s) s') -> must H Q (cmos_read 0x0b) s.
Proof.
  intros HQ. unfold cmos_read. must_steps. apply must_outb; [done|]. set (s1 := mk_rtc 0x0b _ _ _ _ _ _). apply must_call.
  - eexists. split; [done|]. exists s1. eexists _, _. split; [by left|]. done.
  - by intros (_ & ? & ? & ? & _ & _ & ?).
  - intros v s' (_ & s2 & v' & s3 & Htk & Hrd & [= -> ->]).
    destruct (later_next _ _ _ (later_read s 0 s _ s2 _ (or_introl (steady_0 s)) ltac:(lia) Htk eq_refl)) as (Hn & _ & Hst).
    assert (r_sel s2 = 0x0b) as Esel by (by destruct Htk as [->|(_ & c & l & _ & ->)]).
    unfold rtc_read in Hrd. rewrite Esel in Hrd. destruct Hrd as (_ & -> & ->). cbn in Hst. rewrite Hst. by apply HQ.
Qed.

(** One attempt: it ends with a time that the clock showed, or is repeated
    after a tick or after the update flag was seen. *)
Lemma attempt_spec s (Q : unit + rtcdate -> rtc -> Prop) :
  (forall c s', c = r_now s' \/ c = r_prev s' /\ (length (r_next s') < length (r_next s))%nat ->
     (length (r_next s') <= length (r_next s))%nat -> Q (inr c) s') ->
  (forall s', (length (r_next s') + r_busy s' < length (r_next s) + r_busy s)%nat -> (length (r_next s') <= length (r_next s))%nat -> Q (inl tt) s') ->
  must H Q
    (t1 ← fill_rtcdate;
     a ← cmos_read CMOS_STATA;
     if negb (Z.land a CMOS_UIP =? 0) then mret (inl tt) else
     t2 ← fill_rtcdate;
     if bool_decide (t1 = t2) then mret (inr t1) else mret (inl tt)) s.
Proof.
  intros Hend Hagain. must_steps. eapply must_mono; [apply (fill_rtcdate_spec s 0); [left; apply steady_0|lia]|].
  intros t1 s1 H1. must_steps. cbn [Nat.add] in H1. assert (steady 6 s s1 \/ ticked 6 s s1) as H1' by (destruct H1 as [[? _]|?]; auto).
  destruct (later_next _ _ _ H1') as (Hn1 & Hb1 & _). apply (cmos_stata s1 0 s1); [left; apply steady_0|lia| |].
  2: { intros v s2 Hv Hb Hn _. rewrite (proj2 (Z.eqb_neq _ _) Hv). cbn [negb]. must_steps. apply Hagain; lia. }
  intros v s2 Hv H2. rewrite Hv. cbn [Z.eqb negb Nat.add] in *. must_steps. destruct (later_next _ _ _ H2) as (Hn2 & Hb2 & _).
  eapply must_mono; [apply (fill_rtcdate_spec s2 0); [left; apply steady_0|lia]|]. intros t2 s3 H3. cbn [Nat.add] in H3.
  destruct H3 as [[(E1 & E2 & E3 & E4 & E5 & E6) ->]|(E1 & E2 & E3 & E4 & E5 & E6)].
  - case_bool_decide as Ht; must_steps; [apply Hend; [left; congruence|by rewrite E3; lia]|].
    destruct H1 as [[(F1 & F2 & F3 & F4 & F5 & F6) ->]|(F1 & F2 & F3 & F4 & F5 & F6)];
      [destruct H2 as [(G1 & G2 & _)|(G1 & G2 & _)]; [congruence|]|];
      apply Hagain; rewrite ?E3, ?E4, ?F2, ?F3 in *; rewrite ?G2 in *; cbn [length] in *; lia.
  - apply (f_equal length) in E2 as El. cbn [length] in El.
    assert (t1 = r_prev s3) as Ep.
    { destruct H2 as [(G1 & G2 & G3 & G4 & G5 & G6)|(G1 & G2 & G3 & G4 & G5 & G6)]; [|lia].
      destruct H1 as [[(F1 & F2 & _) ->]|(F1 & F2 & F3 & F4 & F5 & F6)]; [congruence|lia]. }
    case_bool_decide; must_steps; [apply Hend; [right; split; [done|lia]|lia]|apply Hagain; lia].
Qed.
End rtc.

(** Two decimal digits as the clock holds them *)
Definition to_bcd (n : Z) : Z := 16 * (n / 10) + n mod 10.
Definition bcd_date (t : rtcdate) : rtcdate :=
  mk_rtcdate (to_bcd (second t)) (to_bcd (minute t)) (to_bcd (hour t)) (to_bcd (day t)) (to_bcd (month t)) (to_bcd (year t)).
Definition two_digits (t : rtcdate) : Prop :=
  Forall (fun n => 0 <= n < 100) [second t; minute t; hour t; day t; month t; year t].

Lemma CONV_to_bcd n : 0 <= n < 100 -> CONV (to_bcd n) = n.
Proof.
  intros Hn. unfold CONV, to_bcd. change 0xf with (Z.ones 4). rewrite Z.land_ones, Z.shiftr_div_pow2 by lia.
  change (2 ^ 4) with 16. Z.div_mod_to_equations. lia.
Qed.

(** C37: [cmostime] always returns, and with a time the clock really showed:
    the one it shows at the end, or the one before if it ticked during the
    call, never a mixture of the two, with 2000 added to the year.  When the
    clock counts in binary-coded decimal (bit 2 of register B is clear), the
    fields returned are the numbers its two digits stand for.  The clock
    ticks and answers busy finitely often ([r_next], [r_busy]), any number
    of times, and never ticks twice within one round of the loop. *)
Theorem cmostime_correct s :
  must (fun _ _ _ => False) (fun t s' =>
    exists c, (c = r_now s' \/ c = r_prev s' /\ (length (r_next s') < length (r_next s))%nat) /\
      (Z.land (r_statb s) 4 <> 0 -> t = mk_rtcdate (second c) (minute c) (hour c) (day c) (month c) (year c + 2000)) /\
      (forall d, Z.land (r_statb s) 4 = 0 -> c = bcd_date d -> two_digits d ->
       t = mk_rtcdate (second d) (minute d) (hour d) (day d) (month d) (year d + 2000))) cmostime s.
Proof.
  unfold cmostime. must_steps. apply cmos_statb. intros s1 Hs1. must_steps.
  apply (must_mono _ (fun c s' => (c = r_now s' \/ c = r_prev s' /\ (length (r_next s') < length (r_next s))%nat))).
  - clear -Hs1. remember (length (r_next s1) + r_busy s1)%nat as m eqn:Hm. revert s1 Hm Hs1.
    induction m as [m IH] using lt_wf_ind. intros s1 -> Hs1. apply must_loop. apply attempt_spec.
    + intros c s' [->|[-> Hlt]] Hle; [by left|right; split; [done|lia]].
    + intros s' Hlt Hle. eapply IH; [done|done|lia].
  - intros c s' Hc. must_steps. exists c. split; [done|]. change (Z.shiftl 1 2) with 4. split.
    + intros Hb. by rewrite (proj2 (Z.eqb_neq _ _) Hb).
    + intros d -> -> Hd. unfold two_digits in Hd. rewrite !Forall_cons in Hd. destruct_and!. unfold convert. cbn. by rewrite !CONV_to_bcd.
Qed.

(** ** The I/O APIC: a register to select with, one for the data selected *)
Record ioapic := mk_ioapic { io_sel : Z; io_regs : Z -> Z }.

Definition ioapic_step A (e : devE A) (s : ioapic) : option (A * ioapic) -> Prop :=
  match e in devE A return option (A * ioapic) -> Prop with
  | Writel a v => fun o =>
      if a =? IOAPIC then o = Some (tt, mk_ioapic v (io_regs s))
      else a = IOAPIC + 16 /\ o = Some (tt, mk_ioapic (io_sel s) (<[io_sel s := v]> (io_regs s)))
  | Readl a => fun o => a = IOAPIC + 16 /\ o = Some (io_regs s (io_sel s), s)
  | _ => fun _ => False
  end.
Global Instance ioapic_env : Env devE ioapic := ioapic_step.

Section ioapic.
Context (H : forall B, devE B -> ioapic -> Prop).

Lemma ioapicread_spec s r (Q : Z -> ioapic -> Prop) :
  Q (io_regs s r) (mk_ioapic r (io_regs s)) -> must H Q (ioapicread r) s.
Proof.
  intros HQ. unfold ioapicread. must_steps. eapply must_call1; [intros o; cbn; reflexivity|].
  eapply must_call1; [|exact HQ]. intros o. cbn. tauto.
Qed.

Lemma ioapicwrite_spec s r v (Q : unit -> ioapic -> Prop) :
  Q tt (mk_ioapic r (<[r := v]> (io_regs s))) -> must H Q (ioapicwrite r v) s.
Proof.
  intros HQ. unfold ioapicwrite. must_steps. eapply must_call1; [intros o; cbn; reflexivity|].
  eapply must_call1; [|exact HQ]. intros o. unfold env_step, ioapic_env, ioapic_step.
  change (IOAPIC + 16 =? IOAPIC) with false. tauto.
Qed.

(** [ioapicinit] leaves every interrupt line disabled, with its vector, and
    routed to no processor; the lines past the last one are not touched. *)
Lemma ioapicinit_disables s id :
  0 <= io_regs s REG_VER -> let n := Z.land (Z.shiftr (io_regs s REG_VER) 16) 0xFF in
  must H (fun _ s' => forall i, 0 <= i ->
    io_regs s' (REG_TABLE + 2 * i) = (if i <=? n then Z.lor INT_DISABLED (T_IRQ0 + i) else io_regs s (REG_TABLE + 2 * i)) /\
    io_regs s' (REG_TABLE + 2 * i + 1) = (if i <=? n then 0 else io_regs s (REG_TABLE + 2 * i + 1))) (ioapicinit id) s.
Proof.
  intros Hv n. unfold ioapicinit. must_steps. apply ioapicread_spec. fold n. must_steps. apply ioapicread_spec. must_steps.
  assert (0 <= n) as Hn by (apply Z.land_nonneg; lia).
  eapply must_mono.
  - apply (must_each H _ _ (fun pre s' => pre = seqZ 0 (Z.of_nat (length pre)) /\ forall i, 0 <= i ->
      io_regs s' (REG_TABLE + 2 * i) = (if i <? Z.of_nat (length pre) then Z.lor INT_DISABLED (T_IRQ0 + i) else io_regs s (REG_TABLE + 2 * i)) /\
      io_regs s' (REG_TABLE + 2 * i + 1) = (if i <? Z.of_nat (length pre) then 0 else io_regs s (REG_TABLE + 2 * i + 1)))).
    + split; [done|]. intros i Hi. change (Z.of_nat (length (@nil Z))) with 0. by rewrite (proj2 (Z.ltb_ge i 0) Hi).
    + intros pre x post s' El [Hp Hpre]. must_steps. apply ioapicwrite_spec. apply ioapicwrite_spec. cbn [io_regs].
      assert (x = Z.of_nat (length pre)) as ->.
      { assert (seqZ 0 (n + 1) !! length pre = Some x) as Hx by (by rewrite <- El, list_lookup_middle).
        apply lookup_seqZ in Hx as [-> _]. lia. }
      rewrite length_app. cbn [length]. split.
      * rewrite Hp at 1. replace (Z.of_nat (length pre + 1)) with (Z.of_nat (length pre) + 1) by lia. rewrite seqZ_app by lia. done.
      * intros i Hi. destruct (Hpre i Hi) as [Ha Hb]. destruct (decide (i = Z.of_nat (length pre))) as [->|Hne].
        -- rewrite (proj2 (Z.ltb_lt _ _)) by lia. rewrite fn_lookup_insert_ne, !fn_lookup_insert by lia. done.
        -- rewrite !fn_lookup_insert_ne by lia. rewrite Ha, Hb.
           destruct (Z.ltb_spec i (Z.of_nat (length pre))), (Z.ltb_spec i (Z.of_nat (length pre + 1))); lia || done.
  - intros _ s' [_ Hs']. must_steps. intros i Hi. specialize (Hs' i Hi). rewrite length_seqZ in Hs'.
    replace (i <=? n) with (i <? Z.of_nat (Z.to_nat (n + 1))); [done|]. destruct (Z.ltb_spec i (Z.of_nat (Z.to_nat (n + 1)))), (Z.leb_spec i n); lia || done.
Qed.
End ioapic.
