(* ===== verification/Boot.v ===== *)
(** * The boot loader (bootmain.c)

  Physical memory is a function from addresses to bytes that the code passes
  on; the disk is driven by port accesses.  The call of the kernel's entry
  point is the result of [bootmain], with the memory at that moment. *)
From S2P Require Import Prelude Interact Device.

Notation ELF_MAGIC := 0x464C457F (only parsing).
Notation SECTSIZE := 512 (only parsing).
Definition mem := Z -> Z.

(** The bytes [bs] at [a]; [n] bytes [v] at [a] ([stosb]) *)
Definition store (m : mem) (a : Z) (bs : list Z) : mem := fun x => default (m x) (bs !! Z.to_nat (u32 (x - a))).
Definition fill (m : mem) (a : Z) (v n : Z) : mem := fun x => if u32 (x - a) <? n then v else m x.
(** An [n]-byte field *)
Fixpoint load (m : mem) (a : Z) (n : nat) : Z := match n with O => 0 | S n => m (u32 a) + 256 * load m (a + 1) n end.

Definition waitdisk : drv unit :=
  loop (fun _ : unit =>
    r ← inb 0x1F7;
    if negb (Z.land r 0xC0 =? 0x40) then mret (inl tt) else mret (inr tt)) tt.

Definition readsect (m : mem) (dst offset : Z) : drv mem :=
  waitdisk ;;
  outb 0x1F2 1 ;;
  outb 0x1F3 offset ;;
  outb 0x1F4 (Z.shiftr offset 8) ;;
  outb 0x1F5 (Z.shiftr offset 16) ;;
  outb 0x1F6 (Z.lor (Z.shiftr offset 24) 0xE0) ;;
  outb 0x1F7 0x20 ;;
  waitdisk ;;
  bs ← call (Insl 0x1F0 (SECTSIZE / 4));
  mret (store m dst bs).

Definition readseg (m : mem) (pa count offset : Z) : drv mem :=
  let epa := u32 (pa + count) in
  let pa := u32 (pa - offset mod SECTSIZE) in
  let offset := offset / SECTSIZE + 1 in
  loop (fun '(m, pa, offset) =>
    if pa <? epa then
      m ← readsect m pa offset;
      mret (inl (m, u32 (pa + SECTSIZE), u32 (offset + 1)))
    else mret (inr m)) (m, pa, offset).

(** The program headers from [ph] to [eph], 32 bytes each *)
Definition load_segs (m : mem) (ph eph : Z) : drv mem :=
  loop (fun '(m, ph) =>
    if ph <? eph then
      let pa := load m (ph + 12) 4 in
      m ← readseg m pa (load m (ph + 16) 4) (load m (ph + 4) 4);
      let filesz := load m (ph + 16) 4 in
      let memsz := load m (ph + 20) 4 in
      let m := if filesz <? memsz then fill m (u32 (pa + filesz)) 0 (memsz - filesz) else m in
      mret (inl (m, u32 (ph + 32)))
    else mret (inr m)) (m, ph).

Definition bootmain (m : mem) : drv (mem * option Z) :=
  let elf := 0x10000 in
  m ← readseg m elf 4096 0;
  if negb (load m elf 4 =? ELF_MAGIC) then mret (m, None) else
  let ph := u32 (elf + load m (elf + 28) 4) in
  let eph := u32 (ph + 32 * load m (elf + 44) 2) in
  m ← load_segs m ph eph;
  mret (m, Some (load m (elf + 24) 4)).

(** ** The disk

    The registers of a command, the polls until the disk is ready and the
    sector waiting to be read.  A command is accepted, and data delivered,
    only when the disk is ready. *)
Record disk := mk_disk {
  d_sector : Z -> list Z;
  d_regs : Z -> Z;
  d_busy : nat;
  d_data : option (list Z);
}.
Definition d_lba (s : disk) : Z :=
  d_regs s 0x1F3 + 2 ^ 8 * d_regs s 0x1F4 + 2 ^ 16 * d_regs s 0x1F5 + 2 ^ 24 * (d_regs s 0x1F6 - 0xE0).

Definition disk_step A (e : devE A) (s : disk) : option (A * disk) -> Prop :=
  match e in devE A return option (A * disk) -> Prop with
  | Inb port => fun o => port = 0x1F7 /\ exists r, 
      match d_busy s with
      | O => Z.land r 0xC0 = 0x40 /\ o = Some (r, s)
      | S b => Z.land r 0xC0 <> 0x40 /\ o = Some (r, mk_disk (d_sector s) (d_regs s) b (d_data s))
      end
  | Outb port v => fun o =>
      if port =? 0x1F7 then
        v = 0x20 /\ d_busy s = O /\ d_regs s 0x1F2 = 1 /\
        exists b, o = Some (tt, mk_disk (d_sector s) (d_regs s) b (Some (d_sector s (d_lba s))))
      else 0x1F2 <= port <= 0x1F6 /\ o = Some (tt, mk_disk (d_sector s) (<[port := v]> (d_regs s)) (d_busy s) (d_data s))
  | Insl port cnt => fun o =>
      port = 0x1F0 /\ d_busy s = O /\ exists bs, d_data s = Some bs /\ Z.of_nat (length bs) = 4 * cnt /\
      o = Some (bs, mk_disk (d_sector s) (d_regs s) (d_busy s) None)
  | _ => fun _ => False
  end.
Global Instance disk_env : Env devE disk := disk_step.

Section boot.
Context (H : forall B, devE B -> disk -> Prop).
Context (sector : Z -> list Z).
Hypothesis sector_size : forall n, length (sector n) = 512%nat.

(** The kernel's image: the bytes of the disk from sector 1 on *)
Definition image (i : Z) : Z := default 0 (sector (1 + i / 512) !! Z.to_nat (i mod 512)).

Lemma waitdisk_spec s (Q : unit -> disk -> Prop) :
  Q tt (mk_disk (d_sector s) (d_regs s) 0 (d_data s)) -> must H Q waitdisk s.
Proof.
  destruct s as [sec regs busy data]. revert Q. induction busy as [|busy IH]; intros Q HQ; apply must_loop; must_steps; unfold inb; apply must_call.
  - exists (Some (0x40, mk_disk sec regs 0 data)). split; [done|]. by exists 0x40.
  - by intros (_ & r & _ & ?).
  - intros r s' (_ & r' & Hr & [= -> ->]). cbn in Hr. rewrite (proj2 (Z.eqb_eq _ _) Hr). cbn [negb]. by must_steps.
  - exists (Some (0, mk_disk sec regs busy data)). split; [done|]. by exists 0.
  - by intros (_ & r & _ & ?).
  - intros r s' (_ & r' & Hr & [= -> ->]). cbn in Hr. rewrite (proj2 (Z.eqb_neq _ _) Hr). cbn [negb]. must_steps. by apply IH.
Qed.

Lemma outb_reg s port v (Q : unit -> disk -> Prop) :
  0x1F2 <= port <= 0x1F6 -> Q tt (mk_disk (d_sector s) (<[port := u8 v]> (d_regs s)) (d_busy s) (d_data s)) -> must H Q (outb port v) s.
Proof.
  intros Hp HQ. eapply must_call1; [|exact HQ]. intros o. unfold env_step, disk_env, disk_step.
  rewrite (proj2 (Z.eqb_neq port 0x1F7)) by lia. tauto.
Qed.

(** The address written to the registers is that of the sector. *)
Lemma lba_bytes n : 0 <= n < 2 ^ 28 ->
  u8 n + 2 ^ 8 * u8 (Z.shiftr n 8) + 2 ^ 16 * u8 (Z.shiftr n 16) + 2 ^ 24 * (u8 (Z.lor (Z.shiftr n 24) 0xE0) - 0xE0) = n.
Proof.
  intros Hn. rewrite !Z.shiftr_div_pow2 by lia. assert (0 <= n / 2 ^ 24 < 16) as Hh.
  { split; [apply Z.div_pos; lia|apply Z.div_lt_upper_bound; lia]. }
  assert (Z.lor (n / 2 ^ 24) 0xE0 = n / 2 ^ 24 + 0xE0) as ->.
  { apply (Forall_forall (fun k => Z.lor k 0xE0 = k + 0xE0) (seqZ 0 16)); [by repeat constructor|]. apply elem_of_seqZ. lia. }
  unfold u8. rewrite (Z.mod_small (n / 2 ^ 24 + 0xE0)) by lia. change (2 ^ 8) with 256. change (2 ^ 16) with 65536. change (2 ^ 24) with 16777216 in *.
  Z.div_mod_to_equations. lia.
Qed.

Lemma readsect_spec m dst n s (Q : mem -> disk -> Prop) :
  0 <= n < 2 ^ 28 -> d_sector s = sector ->
  (forall s', d_sector s' = sector -> Q (store m dst (sector n)) s') -> must H Q (readsect m dst n) s.
Proof using sector_size.
  intros Hn Hs HQ. unfold readsect. must_steps. apply waitdisk_spec. must_steps. do 5 (apply outb_reg; [lia|]; must_steps).
  set (s1 := mk_disk _ _ _ _). assert (d_lba s1 = n) as Hlba by (unfold d_lba, s1; cbn; by apply lba_bytes).
  apply must_call.
  - eexists. cbn. split; [done|]. split; [done|]. split; [done|]. by exists 0%nat.
  - by intros (_ & _ & _ & ? & ?).
  - intros [] s2 (_ & _ & _ & b & [= ->]). rewrite Hlba. must_steps. apply waitdisk_spec. must_steps. cbn.
    rewrite Hs. eapply must_call1.
    + intros o. cbn. split; [intros (_ & _ & bs & [= <-] & _ & ->); done|]. intros ->. split; [done|]. split; [done|].
      exists (sector n). by rewrite sector_size.
    + must_steps. by apply HQ.
Qed.

Lemma store_in m a bs x : 0 <= a -> a + Z.of_nat (length bs) <= 2 ^ 32 -> 0 <= x < 2 ^ 32 ->
  store m a bs x = if (a <=? x) && (x <? a + Z.of_nat (length bs)) then default 0 (bs !! Z.to_nat (x - a)) else m x.
Proof.
  intros Ha Hl Hx. unfold store. destruct (Z.leb_spec a x); cbn [andb].
  - rewrite u32_small by lia. destruct (Z.ltb_spec x (a + Z.of_nat (length bs))).
    + destruct (lookup_lt_is_Some_2 bs (Z.to_nat (x - a)) ltac:(lia)) as [b ->]. done.
    + by rewrite lookup_ge_None_2 by lia.
  - replace (u32 (x - a)) with (x - a + 2 ^ 32); [by rewrite lookup_ge_None_2 by lia|].
    unfold u32. rewrite <- (Z.mod_add (x - a) 1), Z.mod_small by lia. lia.
Qed.

Lemma fill_in m a v n x : 0 <= a -> 0 <= n -> a + n <= 2 ^ 32 -> 0 <= x < 2 ^ 32 ->
  fill m a v n x = if (a <=? x) && (x <? a + n) then v else m x.
Proof.
  intros Ha Hn Hl Hx. unfold fill. destruct (Z.leb_spec a x); cbn [andb].
  - rewrite u32_small by lia. destruct (Z.ltb_spec (x - a) n), (Z.ltb_spec x (a + n)); lia || done.
  - replace (u32 (x - a)) with (x - a + 2 ^ 32); [by rewrite (proj2 (Z.ltb_ge _ _)) by lia|].
    unfold u32. rewrite <- (Z.mod_add (x - a) 1), Z.mod_small by lia. lia.
Qed.

(** What [readseg] writes: whole sectors from [seg_lo] to [seg_top] *)
Definition seg_lo (pa off : Z) : Z := pa - off mod 512.
Definition seg_n (pa count off : Z) : Z := (pa + count - seg_lo pa off + 511) / 512.
Definition seg_top (pa count off : Z) : Z := seg_lo pa off + 512 * seg_n pa count off.

Lemma readseg_spec m pa count off s (Q : mem -> disk -> Prop) :
  0 <= off -> 0 <= count -> 0 <= seg_lo pa off -> seg_top pa count off < 2 ^ 32 -> off / 512 + 1 + seg_n pa count off <= 2 ^ 28 ->
  d_sector s = sector ->
  (forall m' s', d_sector s' = sector ->
    (forall x, 0 <= x < 2 ^ 32 ->
       m' x = if (seg_lo pa off <=? x) && (x <? seg_top pa count off) then image (off + (x - pa)) else m x) -> Q m' s') ->
  must H Q (readseg m pa count off) s.
Proof using sector_size.
  intros Hoff Hc Hlo Htop Hmax Hs HQ. unfold readseg. fold (seg_lo pa off).
  pose proof (Z.mod_pos_bound off 512 ltac:(lia)) as Hmod. pose proof (Z.div_pos off 512 ltac:(lia) ltac:(lia)) as Hdiv.
  assert (0 <= seg_n pa count off /\ 512 * (seg_n pa count off - 1) < pa + count - seg_lo pa off <= 512 * seg_n pa count off) as Hn.
  { unfold seg_n, seg_lo in *. Z.div_mod_to_equations. lia. }
  assert (seg_lo pa off <= pa) as Hle by (unfold seg_lo; lia).
  unfold seg_top in *. rewrite (u32_small (pa + count)), (u32_small (seg_lo pa off)) by lia.
  enough (forall r j m1 s1, (Z.of_nat r + j = seg_n pa count off) -> 0 <= j -> d_sector s1 = sector ->
    (forall x, 0 <= x < 2 ^ 32 -> m1 x = if (seg_lo pa off <=? x) && (x <? seg_lo pa off + 512 * j) then image (off + (x - pa)) else m x) ->
    must H Q (loop (fun '(m, pa0, offset) =>
      if pa0 <? pa + count then m0 ← readsect m pa0 offset; mret (inl (m0, u32 (pa0 + SECTSIZE), u32 (offset + 1))) else mret (inr m))
      (m1, seg_lo pa off + 512 * j, off / 512 + 1 + j)) s1) as Hgen.
  { specialize (Hgen (Z.to_nat (seg_n pa count off)) 0 m s). rewrite !Z.add_0_r in Hgen. apply Hgen; [lia|lia|done|].
    intros x Hx. destruct (Z.leb_spec (seg_lo pa off) x), (Z.ltb_spec x (seg_lo pa off)); lia || done. }
  induction r as [|r IH]; intros j m1 s1 Hj Hj0 Hs1 Hm1; apply must_loop.
  - rewrite (proj2 (Z.ltb_ge _ _)) by lia. must_steps. apply HQ; [done|]. by replace (seg_n pa count off) with j by lia.
  - rewrite (proj2 (Z.ltb_lt _ _)) by lia. must_steps. apply readsect_spec; [lia|done|]. intros s2 Hs2. must_steps.
    rewrite !u32_small by lia. replace (seg_lo pa off + 512 * j + 512) with (seg_lo pa off + 512 * (j + 1)) by lia.
    replace (off / 512 + 1 + j + 1) with (off / 512 + 1 + (j + 1)) by lia. apply IH; [lia|lia|done|]. intros x Hx.
    rewrite store_in by (rewrite ?sector_size; lia). rewrite sector_size. change (Z.of_nat 512) with 512. rewrite Hm1 by done.
    destruct (Z.leb_spec (seg_lo pa off + 512 * j) x), (Z.ltb_spec x (seg_lo pa off + 512 * j + 512)); cbn [andb];
      destruct (Z.leb_spec (seg_lo pa off) x), (Z.ltb_spec x (seg_lo pa off + 512 * j)), (Z.ltb_spec x (seg_lo pa off + 512 * (j + 1))); try lia; try done; cbn [andb].
    unfold image. unfold seg_lo in *.
    assert ((off + (x - pa)) / 512 = off / 512 + j /\ (off + (x - pa)) mod 512 = x - (pa - off mod 512 + 512 * j)) as [-> ->].
    { assert (off + (x - pa) = 512 * (off / 512 + j) + (x - (pa - off mod 512 + 512 * j))) as -> by (pose proof (Z.div_mod off 512); lia).
      generalize (off / 512 + j). intros q. split; symmetry; [eapply Z.div_unique|eapply Z.mod_unique]; [|done| |done]; lia. }
    do 3 f_equal. lia.
Qed.

(** The bytes of the first sector in front of [off] land below [pa], over
    whatever an earlier call put there. *)
Lemma readseg_below m pa count off s : 0 <= off -> 0 < count -> 0 <= seg_lo pa off -> seg_top pa count off < 2 ^ 32 ->
  off / 512 + 1 + seg_n pa count off <= 2 ^ 28 -> d_sector s = sector -> off mod 512 <> 0 ->
  must H (fun m' _ => m' (pa - 1) = image (off - 1)) (readseg m pa count off) s.
Proof using sector_size.
  intros H1 H2 H3 H4 H5 Hs Hm. apply readseg_spec; try done; [lia|]. intros m' s' _ Hm'. pose proof (Z.mod_pos_bound off 512 ltac:(lia)).
  assert (seg_lo pa off <= pa - 1 < seg_top pa count off) as [A B].
  { unfold seg_top, seg_n, seg_lo in *. Z.div_mod_to_equations. lia. }
  rewrite Hm' by lia. rewrite (proj2 (Z.leb_le _ _) A), (proj2 (Z.ltb_lt _ _) B). cbn [andb]. f_equal. lia.
Qed.

(** ** The kernel's ELF image *)
Hypothesis sector_bytes : forall n, Forall is_byte (sector n).

Lemma image_byte i : is_byte (image i).
Proof using sector_bytes.
  unfold image. destruct (sector (1 + i / 512) !! Z.to_nat (i mod 512)) as [b|] eqn:E; [|done]. by eapply Forall_lookup_1.
Qed.

Lemma load_bound a n : 0 <= load image a n < 256 ^ Z.of_nat n.
Proof using sector_bytes.
  revert a. induction n as [|n IH]; intros a; [done|]. cbn [load]. specialize (IH (a + 1)). pose proof (image_byte (u32 a)) as Hb.
  unfold is_byte in Hb. rewrite Nat2Z.inj_succ, Z.pow_succ_r by lia. lia.
Qed.

(** A field of the header page, read from memory *)
Lemma load_same m a b n : 0 <= a -> a + Z.of_nat n <= 2 ^ 32 -> 0 <= b -> b + Z.of_nat n <= 2 ^ 32 ->
  (forall x, a <= x < a + Z.of_nat n -> m x = image (b + (x - a))) -> load m a n = load image b n.
Proof.
  revert a b. induction n as [|n IH]; intros a b Ha Hal Hb Hbl Hm; [done|]. cbn [load]. rewrite !u32_small by lia.
  rewrite Hm by lia. rewrite Z.sub_diag, Z.add_0_r. f_equal. f_equal. apply IH; [lia..|]. intros x Hx.
  rewrite Hm by lia. f_equal. lia.
Qed.

Definition phoff : Z := load image 28 4.
Definition phnum : Z := load image 44 2.
Definition ph_off (i : Z) : Z := load image (phoff + 32 * i + 4) 4.
Definition ph_paddr (i : Z) : Z := load image (phoff + 32 * i + 12) 4.
Definition ph_filesz (i : Z) : Z := load image (phoff + 32 * i + 16) 4.
Definition ph_memsz (i : Z) : Z := load image (phoff + 32 * i + 20) 4.

(** The memory that loading segment [i] writes, and that of the segment *)
Definition seg_start (i : Z) : Z := seg_lo (ph_paddr i) (ph_off i).
Definition seg_end (i : Z) : Z := Z.max (seg_top (ph_paddr i) (ph_filesz i) (ph_off i)) (ph_paddr i + ph_memsz i).
Definition seg_size (i : Z) : Z := Z.max (ph_filesz i) (ph_memsz i).

(** The image is an ELF file whose headers are in the first page, and whose
    segments fit in memory, are not loaded over the header page, and are not
    loaded over an earlier segment. *)
Record bootable : Prop := mk_bootable {
  bt_magic : load image 0 4 = ELF_MAGIC;
  bt_headers : phoff + 32 * phnum <= 4096;
  bt_fits : forall i, 0 <= i < phnum -> 0 <= seg_start i /\ seg_end i < 2 ^ 32 /\
    ph_off i / 512 + 1 + seg_n (ph_paddr i) (ph_filesz i) (ph_off i) <= 2 ^ 28;
  bt_scratch : forall i, 0 <= i < phnum -> 0x11000 <= seg_start i \/ seg_end i <= 0x10000;
  bt_apart : forall i j, 0 <= i < j -> j < phnum -> ph_paddr i + seg_size i <= seg_start j \/ seg_end j <= ph_paddr i;
}.

(** Segment [i] is in memory: its bytes from the file, then zeroes. *)
Definition loaded (m : mem) (i : Z) : Prop :=
  (forall x, 0 <= x < ph_filesz i -> m (ph_paddr i + x) = image (ph_off i + x)) /\
  (forall x, ph_filesz i <= x < ph_memsz i -> m (ph_paddr i + x) = 0).

Definition header_in (m : mem) : Prop := forall x, 0x10000 <= x < 0x11000 -> m x = image (x - 0x10000).

Lemma header_load m : header_in m -> forall a o n, a = 0x10000 + o -> 0 <= o -> o + Z.of_nat n <= 4096 -> load m a n = load image o n.
Proof. intros Hh a o n -> Ho Hn. apply load_same; [lia..|]. intros x Hx. rewrite Hh by lia. f_equal. lia. Qed.

Lemma header_field m i o : bootable -> header_in m -> 0 <= i < phnum -> 0 <= o <= 28 ->
  load m (0x10000 + phoff + 32 * i + o) 4 = load image (phoff + 32 * i + o) 4.
Proof using sector_bytes.
  intros Bt Hh Hi Ho. pose proof (bt_headers Bt). pose proof (load_bound 28 4) as Hp. fold phoff in Hp.
  apply header_load; (done || lia).
Qed.

(** What loading segment [i] does to memory *)
Definition seg_mem (m : mem) (i x : Z) : Z :=
  if (ph_paddr i + ph_filesz i <=? x) && (x <? ph_paddr i + ph_memsz i) then 0
  else if (seg_start i <=? x) && (x <? seg_top (ph_paddr i) (ph_filesz i) (ph_off i)) then image (ph_off i + (x - ph_paddr i)) else m x.

Lemma seg_bounds i : bootable -> 0 <= i < phnum ->
  0 <= ph_paddr i < 2 ^ 32 /\ 0 <= ph_filesz i < 2 ^ 32 /\ 0 <= ph_memsz i < 2 ^ 32 /\ 0 <= ph_off i < 2 ^ 32 /\
  seg_start i <= ph_paddr i /\ ph_paddr i + ph_filesz i <= seg_top (ph_paddr i) (ph_filesz i) (ph_off i) <= seg_end i /\
  ph_paddr i + ph_memsz i <= seg_end i.
Proof using sector_bytes.
  intros Bt Hi. pose proof (load_bound (phoff + 32 * i + 4) 4). pose proof (load_bound (phoff + 32 * i + 12) 4).
  pose proof (load_bound (phoff + 32 * i + 16) 4). pose proof (load_bound (phoff + 32 * i + 20) 4).
  fold (ph_off i) (ph_paddr i) (ph_filesz i) (ph_memsz i) in *. change (256 ^ Z.of_nat 4) with (2 ^ 32) in *.
  assert (seg_start i <= ph_paddr i /\ ph_paddr i + ph_filesz i <= seg_top (ph_paddr i) (ph_filesz i) (ph_off i)).
  { unfold seg_start, seg_top, seg_n, seg_lo. pose proof (Z.mod_pos_bound (ph_off i) 512 ltac:(lia)).
    generalize dependent (ph_off i mod 512). intros r Hr. split; [lia|]. Z.div_mod_to_equations. lia. }
  unfold seg_end in *. lia.
Qed.

Ltac cmp := repeat match goal with |- context [Z.leb ?a ?b] => destruct (Z.leb_spec a b) | |- context [Z.ltb ?a ?b] => destruct (Z.ltb_spec a b) end; cbn [andb].

Lemma seg_mem_other m i x : bootable -> 0 <= i < phnum -> x < seg_start i \/ seg_end i <= x -> seg_mem m i x = m x.
Proof using sector_bytes.
  intros Bt Hi Hx. destruct (seg_bounds i Bt Hi) as (? & ? & ? & ? & ? & ? & ?). unfold seg_mem. cmp; lia || done.
Qed.

Lemma seg_mem_loaded m m' i : bootable -> 0 <= i < phnum ->
  (forall x, 0 <= x < 2 ^ 32 -> m' x = seg_mem m i x) -> loaded m' i.
Proof using sector_bytes.
  intros Bt Hi Hm. destruct (seg_bounds i Bt Hi) as (? & ? & ? & ? & ? & ? & ?). destruct (bt_fits Bt i Hi) as (? & ? & _).
  split; intros x Hx; (rewrite Hm by lia); unfold seg_mem; cmp; (lia || (f_equal; lia)).
Qed.

Lemma loaded_later m m' i j : bootable -> 0 <= i < j -> j < phnum ->
  (forall x, 0 <= x < 2 ^ 32 -> m' x = seg_mem m j x) -> loaded m i -> loaded m' i.
Proof using sector_bytes.
  intros Bt Hij Hj Hm [L1 L2]. destruct (seg_bounds i Bt ltac:(lia)) as (? & ? & ? & ? & ? & ? & ?).
  destruct (bt_fits Bt i ltac:(lia)) as (? & ? & _). pose proof (bt_apart Bt i j Hij Hj) as Ha. unfold seg_size in Ha.
  split; intros x Hx; (rewrite Hm by lia); rewrite seg_mem_other by (done || lia); [by apply L1|by apply L2].
Qed.

Lemma header_later m m' i : bootable -> 0 <= i < phnum ->
  (forall x, 0 <= x < 2 ^ 32 -> m' x = seg_mem m i x) -> header_in m -> header_in m'.
Proof using sector_bytes.
  intros Bt Hi Hm Hh x Hx. pose proof (bt_scratch Bt i Hi). rewrite Hm by lia. rewrite seg_mem_other by (done || lia). by apply Hh.
Qed.

(** The headers survive the loading of a segment. *)
Lemma header_read m m' i : bootable -> 0 <= i < phnum -> header_in m ->
  (forall x, 0 <= x < 2 ^ 32 -> m' x = if (seg_start i <=? x) && (x <? seg_top (ph_paddr i) (ph_filesz i) (ph_off i)) then image (ph_off i + (x - ph_paddr i)) else m x) ->
  header_in m'.
Proof using sector_bytes.
  intros Bt Hi Hh Hm x Hx. pose proof (bt_scratch Bt i Hi). destruct (seg_bounds i Bt Hi) as (? & ? & ? & ? & ? & ? & ?).
  rewrite Hm by lia. rewrite Hh by done. cmp; lia || done.
Qed.

(** The loop from program header [i] on *)
Lemma load_segs_spec r i m0 m s (Q : mem -> disk -> Prop) : bootable -> Z.of_nat r + i = phnum -> 0 <= i -> d_sector s = sector ->
  header_in m -> (forall j, 0 <= j < i -> loaded m j) ->
  (forall x, 0 <= x < 2 ^ 32 -> (forall j, 0 <= j < i -> x < seg_start j \/ seg_end j <= x) -> m x = m0 x) ->
  (forall m' s', d_sector s' = sector -> header_in m' -> (forall j, 0 <= j < phnum -> loaded m' j) ->
    (forall x, 0 <= x < 2 ^ 32 -> (forall j, 0 <= j < phnum -> x < seg_start j \/ seg_end j <= x) -> m' x = m0 x) -> Q m' s') ->
  must H Q (load_segs m (0x10000 + phoff + 32 * i) (0x10000 + phoff + 32 * phnum)) s.
Proof using sector_bytes sector_size.
  intros Bt. revert i m s. induction r as [|r IH]; intros i m s Hr Hi0 Hs Hh Hl Hf HQ; apply must_loop.
  { rewrite (proj2 (Z.ltb_ge _ _)) by lia. must_steps. assert (i = phnum) as -> by lia. by apply HQ. }
  assert (0 <= i < phnum) as Hi by lia. pose proof (bt_headers Bt). pose proof (load_bound 28 4) as Hp. fold phoff in Hp.
  destruct (seg_bounds i Bt Hi) as (? & ? & ? & ? & ? & ? & ?). destruct (bt_fits Bt i Hi) as (? & ? & ?).
  rewrite (proj2 (Z.ltb_lt _ _)) by lia. cbv zeta. rewrite !(header_field m i) by (done || lia).
  fold (ph_paddr i) (ph_filesz i) (ph_off i). must_steps.
  apply readseg_spec; [lia|lia|done|lia|done|done|]. fold (seg_start i). intros m1 s1 Hs1 Hm1.
  pose proof (header_read m m1 i Bt Hi Hh Hm1) as Hh1. must_steps.
  rewrite !(header_field m1 i) by (done || lia). fold (ph_filesz i) (ph_memsz i).
  rewrite (u32_small (_ + 32)) by lia. replace (0x10000 + phoff + 32 * i + 32) with (0x10000 + phoff + 32 * (i + 1)) by lia.
  match goal with |- context [if Z.ltb ?a ?b then ?p else m1] => set (m2 := if Z.ltb a b then p else m1) end.
  assert (forall x, 0 <= x < 2 ^ 32 -> m2 x = seg_mem m i x) as Hm2.
  { intros x Hx. unfold m2, seg_mem. destruct (Z.ltb_spec (ph_filesz i) (ph_memsz i)).
    - rewrite u32_small by lia. rewrite fill_in by lia. rewrite Hm1 by done.
      by replace (ph_paddr i + ph_filesz i + (ph_memsz i - ph_filesz i)) with (ph_paddr i + ph_memsz i) by lia.
    - rewrite Hm1 by done. cmp; lia || done. }
  apply IH; [lia|lia|done|by eapply header_later| | |done].
  - intros j Hj. destruct (decide (j = i)) as [->|]; [by eapply seg_mem_loaded|]. eapply (loaded_later m m2 j i); [done|lia|lia|done|]. apply Hl. lia.
  - intros x Hx Ho. rewrite Hm2 by done. rewrite seg_mem_other by (done || (apply Ho; lia)). apply Hf; [done|]. intros j Hj. apply Ho. lia.
Qed.

(** Reading the header page *)
Lemma read_header m s (Q : mem -> disk -> Prop) : d_sector s = sector ->
  (forall m' s', d_sector s' = sector -> header_in m' ->
     (forall x, 0 <= x < 2 ^ 32 -> x < 0x10000 \/ 0x11000 <= x -> m' x = m x) -> Q m' s') ->
  must H Q (readseg m 0x10000 4096 0) s.
Proof using sector_size.
  intros Hs HQ. apply readseg_spec; [done..|]. change (seg_lo 65536 0) with 0x10000. change (seg_top 65536 4096 0) with 0x11000.
  intros m' s' Hs' Hm. apply HQ; [done| |]; intros x Hx; [|intros Ho]; rewrite Hm by lia; cmp; lia || done.
Qed.
End boot.

(** C17: the boot loader loads the kernel.  Whatever the disk's readiness, if
    the disk holds from sector 1 on an ELF file whose headers are in the
    first page and whose segments do not overlap, then bootmain returns with
    the entry point of the file to be jumped to, with the file's bytes of
    every segment at the segment's physical address followed by zeroes up to
    its memory size, and with nothing changed but the header page and the
    sectors of the segments.  It returns without a jump if the file is not an
    ELF file. *)
Theorem bootmain_correct (sector : Z -> list Z) (m : mem) (s : disk) :
  (forall n, length (sector n) = 512%nat) -> (forall n, Forall is_byte (sector n)) -> d_sector s = sector ->
  (bootable sector ->
   must (fun _ _ _ => False) (fun (r : mem * option Z) _ =>
     r.2 = Some (load (image sector) 24 4) /\
     (forall i, 0 <= i < phnum sector -> loaded sector r.1 i) /\
     (forall x, 0 <= x < 2 ^ 32 -> x < 0x10000 \/ 0x11000 <= x ->
        (forall i, 0 <= i < phnum sector -> x < seg_start sector i \/ seg_end sector i <= x) -> r.1 x = m x)) (bootmain m) s) /\
  (load (image sector) 0 4 <> ELF_MAGIC ->
   must (fun _ _ _ => False) (fun (r : mem * option Z) _ => r.2 = None) (bootmain m) s).
Proof.
  intros Hsz Hb Hs. unfold bootmain. cbv zeta. split; [intros Bt|intros Hne]; apply must_bind, (read_header _ sector Hsz); try done;
    intros m1 s1 Hs1 Hh Hf.
  - pose proof (bt_headers _ Bt). pose proof (load_bound _ Hb 28 4) as Hp. fold (phoff sector) in Hp.
    pose proof (load_bound _ Hb 44 2) as Hn. fold (phnum sector) in Hn.
    rewrite (header_load sector m1 Hh _ 0), (header_load sector m1 Hh _ 28), (header_load sector m1 Hh _ 44) by lia.
    fold (phoff sector) (phnum sector). rewrite (bt_magic _ Bt). cbn [negb Z.eqb Pos.eqb]. must_steps. rewrite !u32_small by lia.
    rewrite <-(Z.add_0_r (0x10000 + phoff sector)) at 1. change (0x10000 + phoff sector + 0) with (0x10000 + phoff sector + 32 * 0).
    apply (load_segs_spec _ sector Hsz Hb (Z.to_nat (phnum sector)) 0 m1); [done|lia|lia|done|done|intros; lia|done|].
    intros m2 s2 Hs2 Hh2 Hl2 Hf2. must_steps. rewrite (header_load sector m2 Hh2 _ 24) by lia. split_and!; [done|done|].
    intros x Hx Ho Hseg. rewrite Hf2 by done. by apply Hf.
  - rewrite (header_load sector m1 Hh _ 0) by lia. rewrite (proj2 (Z.eqb_neq _ _) Hne). cbn [negb]. by must_steps.
Qed.

(** A kernel of one segment: three bytes of the file, and seven zeroes *)
Definition small_kernel (n : Z) : list Z :=
  if n =? 1 then
    [0x7F; 0x45; 0x4C; 0x46] ++ replicate 20 0 ++ [0x0C; 0; 0x10; 0] ++ [52; 0; 0; 0] ++ replicate 12 0 ++ [1; 0] ++ replicate 6 0 ++
    [1; 0; 0; 0] ++ [2; 2; 0; 0] ++ replicate 4 0 ++ [2; 0; 0x10; 0] ++ [3; 0; 0; 0] ++ [10; 0; 0; 0] ++ replicate 8 0 ++ replicate 428 0
  else if n =? 2 then [0; 0; 7; 8; 9] ++ replicate 507 0 else replicate 512 0.

Lemma bootmain_correct_witness :
  must (fun _ _ _ => False) (fun (r : mem * option Z) _ => r.2 = Some 0x10000C /\ r.1 0x100003 = 8 /\ r.1 0x100006 = 0 /\ r.1 0 = 1)
    (bootmain (fun _ => 1)) (mk_disk small_kernel (fun _ => 0) 3 None).
Proof.
  destruct (bootmain_correct small_kernel (fun _ => 1) (mk_disk small_kernel (fun _ => 0) 3 None)) as [Hb _].
  - intros n. unfold small_kernel. destruct (n =? 1); [done|]. by destruct (n =? 2).
  - intros n. apply Forall_forall. intros x. unfold small_kernel, is_byte.
    repeat case_match; cbn; set_unfold; lia.
  - done.
  - eapply must_mono; [apply Hb|].
    + assert (forall i, 0 <= i < phnum small_kernel -> i = 0) as H0 by (change (phnum small_kernel) with 1; lia).
      split; [done|by vm_compute| | |change (phnum small_kernel) with 1; lia]; intros i ->%H0; [|left]; by vm_compute.
    + intros [m' go] _ (Hgo & Hl & Hf). split; [done|]. destruct (Hl 0 ltac:(done)) as [L1 L2]. split_and!.
      * exact (L1 1 ltac:(done)).
      * exact (L2 4 ltac:(done)).
      * apply Hf; [done|by left|]. intros i Hi. left. change (phnum small_kernel) with 1 in Hi. by replace i with 0 by lia.
Defined.
