(* ===== verification/Sched.v ===== *)
(** * The scheduler and context switches (proc.c)

  The machine of Proc.v makes each critical section of the process table one
  step.  Here the CPUs run kernel threads: the scheduler of each CPU and one
  thread for each process, which take and release [ptable.lock], switch to
  one another in [swtch], and are at some point of [yield], [sleep],
  [forkret], [sched] or [scheduler].  The lock taken by one thread is released
  by another one, perhaps on behalf of another process.  An [acquire] and a
  [release] is one step (Spinlock.v justifies that), and so is a [swtch].

  The theorems: no panic of [sched], [acquire], [release] or [popcli] can
  happen; no two CPUs run on the same kernel stack; the machine implements
  that of Proc.v; and [sleep] misses no wakeup. *)
From S2P Require Import Prelude Params Spinlock Proc.

(** [ptable.lock] among the locks *)
Notation PTLOCK := 0%nat.

(** Where a [yield] returns to: the code outside the functions of this file,
    or, when the clock has interrupted them where interrupts may be on, the
    last [acquire] of [sleep] or the [acquire] of another [yield]. *)
Inductive ret := RRun | RReacquire (lk : nat) | RYield (r : ret).

(** What [sched] returns to *)
Inductive kont := KYield (r : ret) | KSleep (ch : option chan) (lk : nat) | KExit.

Inductive thread := Scheduler | Process (i : nat).

(** The next statement of a scheduler: its [sti], its [acquire], the loop at
    entry [n], the return of the [swtch] to process [n]. *)
Inductive spc := SchTop | SchAcquire | SchScan (n : nat) | SchBack (n : nat).

(** The next statement of a process's kernel thread.  [PNone]: there is no
    thread; [PRun]: outside the functions of this file; [PParked k b]: the
    return of the [swtch] of [sched], [b] being the saved [intena]. *)
Inductive ppc :=
| PNone
| PForkret
| PRun
| PYield (r : ret)
| PYielding (r : ret)
| PSleep (ch : option chan) (lk : nat)
| PSleepUnlock (ch : option chan) (lk : nat)
| PSleepSet (ch : option chan) (lk : nat)
| PSched (k : kont)
| PParked (k : kont) (intena : bool)
| PBack (k : kont)
| PRelease (lk : nat)
| PReacquire (lk : nat).

Definition resume (r : ret) : ppc :=
  match r with RRun => PRun | RReacquire lk => PReacquire lk | RYield r => PYield r end.

(** [m_proc c] is [cpus[c].proc]; [m_on c] is the thread whose stack CPU [c]
    is on; [m_fork] is as in Proc.v. *)
Record machine := mk_machine {
  m_t : ptable;
  m_fork : nat -> option nat;
  m_lock : nat -> spinlock;
  m_cpu : nat -> cpu;
  m_proc : nat -> option nat;
  m_on : nat -> thread;
  m_sch : nat -> spc;
  m_pc : nat -> ppc;
  m_panic : option string;
}.
Definition set_t (t : ptable) (s : machine) : machine :=
  mk_machine t (m_fork s) (m_lock s) (m_cpu s) (m_proc s) (m_on s) (m_sch s) (m_pc s) (m_panic s).
Definition set_fork (i : nat) (x : option nat) (s : machine) : machine :=
  mk_machine (m_t s) (fset (m_fork s) i x) (m_lock s) (m_cpu s) (m_proc s) (m_on s) (m_sch s) (m_pc s) (m_panic s).
Definition set_lk (l : nat) (x : spinlock) (s : machine) : machine :=
  mk_machine (m_t s) (m_fork s) (upd (m_lock s) l x) (m_cpu s) (m_proc s) (m_on s) (m_sch s) (m_pc s) (m_panic s).
Definition set_c (c : nat) (x : cpu) (s : machine) : machine :=
  mk_machine (m_t s) (m_fork s) (m_lock s) (upd (m_cpu s) c x) (m_proc s) (m_on s) (m_sch s) (m_pc s) (m_panic s).
Definition set_proc (c : nat) (x : option nat) (s : machine) : machine :=
  mk_machine (m_t s) (m_fork s) (m_lock s) (m_cpu s) (upd (m_proc s) c x) (m_on s) (m_sch s) (m_pc s) (m_panic s).
Definition set_on (c : nat) (x : thread) (s : machine) : machine :=
  mk_machine (m_t s) (m_fork s) (m_lock s) (m_cpu s) (m_proc s) (upd (m_on s) c x) (m_sch s) (m_pc s) (m_panic s).
Definition set_sch (c : nat) (x : spc) (s : machine) : machine :=
  mk_machine (m_t s) (m_fork s) (m_lock s) (m_cpu s) (m_proc s) (m_on s) (upd (m_sch s) c x) (m_pc s) (m_panic s).
Definition set_p (i : nat) (x : ppc) (s : machine) : machine :=
  mk_machine (m_t s) (m_fork s) (m_lock s) (m_cpu s) (m_proc s) (m_on s) (m_sch s) (upd (m_pc s) i x) (m_panic s).
Definition panic (msg : string) (s : machine) : machine :=
  mk_machine (m_t s) (m_fork s) (m_lock s) (m_cpu s) (m_proc s) (m_on s) (m_sch s) (m_pc s) (Some msg).

(** ** Locks, as whole calls: [None] while [acquire] spins *)
Definition holding (c l : nat) (s : machine) : bool :=
  sl_locked (m_lock s l) && bool_decide (sl_cpu (m_lock s l) = Some c).

Definition acquire (c l : nat) (s : machine) : option machine :=
  let k := pushcli (m_cpu s c) in
  if holding c l s then Some (panic "acquire" s)
  else if sl_locked (m_lock s l) then None
  else Some (set_lk l (mk_spinlock true (Some c)) (set_c c (held k (l :: c_held k)) s)).

Definition release (c l : nat) (s : machine) : machine :=
  if negb (holding c l s) then panic "release" s
  else match popcli (m_cpu s c) with
       | inl k => set_lk l (mk_spinlock false None) (set_c c (held k (filter (fun x => x <> l) (c_held k))) s)
       | inr msg => panic msg s
       end.

(** ** proc.c *)

(** The CPU with an APIC identifier, with interrupts on or off *)
Definition mycpu (eflags_if : bool) (cpus : list Z) (apicid : Z) : nat + string :=
  if eflags_if then inr "mycpu called with interrupts enabled\n"
  else match list_find (fun x => x = apicid) cpus with
       | Some (i, _) => inl i
       | None => inr "unknown apicid\n"
       end.

(** [sched()], called by a thread that continues with [k], up to its [swtch] *)
Definition sched (c : nat) (k : kont) (s : machine) : machine :=
  match m_proc s c with
  | None => panic "null process" s
  | Some p =>
      if negb (holding c PTLOCK s) then panic "sched ptable.lock" s
      else if negb (c_ncli (m_cpu s c) =? 1) then panic "sched locks" s
      else if decide (st (m_t s) p = RUNNING) then panic "sched running" s
      else if c_if (m_cpu s c) then panic "sched interruptible" s
      else set_on c Scheduler (set_p p (PParked k (c_intena (m_cpu s c))) s)
  end.

(** A step of the scheduler of CPU [c].  What [switchuvm] and [switchkvm] load
    into the CPU is in Protect.v. *)
Definition scheduler (c : nat) (s : machine) : option machine :=
  match m_sch s c with
  | SchTop =>
      let k := m_cpu s c in
      Some (set_sch c SchAcquire (set_c c (mk_cpu (c_ncli k) (c_intena k) true (c_held k)) s))
  | SchAcquire => set_sch c (SchScan 0) <$> acquire c PTLOCK s
  | SchScan n =>
      if Z.of_nat n <? NPROC then
        match dispatch n (m_t s) with
        | Some t' => Some (set_on c (Process n) (set_sch c (SchBack n) (set_t t' (set_proc c (Some n) s))))
        | None => Some (set_sch c (SchScan (S n)) s)
        end
      else Some (set_sch c SchTop (release c PTLOCK s))
  | SchBack n => Some (set_sch c (SchScan (S n)) (set_proc c None s))
  end.

(** [forkret]'s release; the initialisation that the first process does next,
    which may sleep, is part of [PRun]. *)
Definition forkret (c i : nat) (s : machine) : machine := set_p i PRun (release c PTLOCK s).

Definition yield (c i : nat) (s : machine) : option machine :=
  match m_pc s i with
  | PYield r => set_p i (PYielding r) <$> acquire c PTLOCK s
  | PYielding r => Some (set_p i (PSched (KYield r)) (set_t (yield_table i (m_t s)) s))
  | PBack (KYield r) => Some (set_p i (resume r) (release c PTLOCK s))
  | _ => None
  end.

(** [sleep(ch, lk)]; [lk] is never a null pointer. *)
Definition sleep (c i : nat) (s : machine) : option machine :=
  match m_pc s i with
  | PSleep ch lk =>
      if decide (m_proc s c = None) then Some (panic "sleep" s)
      else if decide (lk <> PTLOCK) then set_p i (PSleepUnlock ch lk) <$> acquire c PTLOCK s
      else Some (set_p i (PSleepSet ch lk) s)
  | PSleepUnlock ch lk => Some (set_p i (PSleepSet ch lk) (release c lk s))
  | PSleepSet ch lk => Some (set_p i (PSched (KSleep ch lk)) (set_t (sleep_table i ch (m_t s)) s))
  | PBack (KSleep ch lk) => Some (set_p i (if decide (lk <> PTLOCK) then PRelease lk else PRun) (set_t (awake i (m_t s)) s))
  | PRelease lk => Some (set_p i (PReacquire lk) (release c PTLOCK s))
  | PReacquire lk => set_p i PRun <$> acquire c lk s
  | _ => None
  end.

(** A step of process [i]'s thread inside these functions *)
Definition kernel (c i : nat) (s : machine) : option machine :=
  match m_pc s i with
  | PForkret => Some (forkret c i s)
  | PSched k => Some (sched c k s)
  | PParked k b =>
      let x := m_cpu s c in
      Some (set_p i (PBack k) (set_c c (mk_cpu (c_ncli x) b (c_if x) (c_held x)) s))
  | PBack KExit => Some (panic "zombie exit" s)
  | PYield _ | PYielding _ | PBack (KYield _) => yield c i s
  | _ => sleep c i s
  end.

(** ** The rest of the kernel

    What a process's thread does outside these functions, as the callers of
    the functions must: it takes locks that it does not hold and releases
    those it holds; it yields with no lock held and sleeps with one; it
    changes the table with [ptable.lock] held, except for the entry that its
    own [fork] has taken. *)
Definition locks (s : machine) (c : nat) : list nat := c_held (m_cpu s c).

Inductive client (c i : nat) (s : machine) : machine -> Prop :=
| k_acquire l s' : l ∉ locks s c -> acquire c l s = Some s' -> client c i s s'
| k_release l : l ∈ locks s c -> client c i s (release c l s)
| k_flags b : locks s c = [] -> client c i s (set_c c (mk_cpu (c_ncli (m_cpu s c)) (c_intena (m_cpu s c)) b []) s)
| k_yield : locks s c = [] -> client c i s (set_p i (PYield RRun) s)
| k_sleep ch lk : locks s c = [lk] -> lk <> PTLOCK -> (forall j, ch <> Some (ChanProc j)) -> m_fork s i = None ->
    client c i s (set_p i (PSleep ch lk) s)
| k_wait : locks s c = [PTLOCK] -> m_fork s i = None -> wait_scan i (m_t s) = WaitSleep ->
    client c i s (set_p i (PSleep (Some (ChanProc i)) PTLOCK) s)
| k_wakeup ch : PTLOCK ∈ locks s c -> client c i s (set_t (wakeup1 ch (m_t s)) s)
| k_kill pid : PTLOCK ∈ locks s c -> client c i s (set_t (kill_table pid (m_t s)).1 s)
| k_exit : locks s c = [PTLOCK] -> m_fork s i = None -> pt_initproc (m_t s) <> Some i ->
    client c i s (set_p i (PSched KExit) (set_t (exit_table i (m_t s)) s))
| k_reap j : PTLOCK ∈ locks s c -> m_fork s i = None -> wait_scan i (m_t s) = WaitReap j ->
    client c i s (set_p j PNone (set_t (reap j (m_t s)) s))
| k_fork np t' : PTLOCK ∈ locks s c -> m_fork s i = None -> pt_nextpid (m_t s) < 2 ^ 31 - 1 -> alloc_slot (m_t s) = Some (np, t') ->
    client c i s (set_p np PForkret (set_fork i (Some np) (set_t t' s)))
| k_fork_fail np : m_fork s i = Some np -> p_parent (pr (m_t s) np) = None ->
    client c i s (set_p np PNone (set_fork i None (set_t (fork_fail np (m_t s)) s)))
| k_fork_copy np pgdir name : m_fork s i = Some np -> client c i s (set_t (fork_copy i np pgdir name (m_t s)) s)
| k_fork_ready np : PTLOCK ∈ locks s c -> m_fork s i = Some np -> p_parent (pr (m_t s) np) = Some i ->
    client c i s (set_fork i None (set_t (fork_ready np (m_t s)) s)).

(** A step of CPU [c]; the last kinds are interrupts: one whose handler calls
    [wakeup], and the clock's, after which [trap] calls [yield] when the thread
    is one of a process.  [acquire] and [release] turn interrupts off, so a
    thread of these functions can be interrupted only before an [acquire] that
    it calls with no lock held. *)
Inductive step (c : nat) (s : machine) : machine -> Prop :=
| st_scheduler s' : m_on s c = Scheduler -> scheduler c s = Some s' -> step c s s'
| st_kernel i s' : m_on s c = Process i -> kernel c i s = Some s' -> step c s s'
| st_client i s' : m_on s c = Process i -> m_pc s i = PRun -> client c i s s' -> step c s s'
| st_interrupt ch : c_if (m_cpu s c) = true -> sl_locked (m_lock s PTLOCK) = false -> step c s (set_t (wakeup1 ch (m_t s)) s)
| st_preempt i r : m_on s c = Process i -> c_if (m_cpu s c) = true -> m_pc s i = resume r -> step c s (set_p i (PYield r) s).

(** When the CPUs call [scheduler]: the first process waits to run [forkret]. *)
Definition start : machine :=
  mk_machine userinit_table (fun _ => None) (fun _ => initlock) (fun _ => mk_cpu 0 false false []) (fun _ => None)
    (fun _ => Scheduler) (fun _ => SchTop) (fun i => if decide (i = 0%nat) then PForkret else PNone) None.
Definition reachable (s : machine) : Prop := rtc (fun s s' => exists c, step c s s') start s.

(** ** The invariant: locks *)
Record locks_ok (s : machine) : Prop := {
  lk_panic : m_panic s = None;
  lk_held : forall l c, l ∈ locks s c <-> m_lock s l = mk_spinlock true (Some c);
  lk_free : forall l, m_lock s l = mk_spinlock false None \/ exists c, m_lock s l = mk_spinlock true (Some c);
  lk_cpu : forall c, NoDup (locks s c) /\ c_ncli (m_cpu s c) = Z.of_nat (length (locks s c)) /\ (c_if (m_cpu s c) = true -> locks s c = []);
}.

Lemma lk_excl s l c c' : locks_ok s -> l ∈ locks s c -> l ∈ locks s c' -> c = c'.
Proof. intros Ok H1%(lk_held _ Ok) H2%(lk_held _ Ok). congruence. Qed.

Lemma holding_iff s c l : locks_ok s -> holding c l s = true <-> l ∈ locks s c.
Proof.
  intros Ok. rewrite (lk_held _ Ok). unfold holding. destruct (m_lock s l) as [b o] eqn:E; cbn. rewrite andb_true_iff, bool_decide_eq_true.
  split; [by intros [-> ->]|by intros [= -> ->]].
Qed.

(** A state that differs in the locks and CPU [c]'s only *)
Definition relock (c l : nat) (lk : spinlock) (k : cpu) (s : machine) : machine := set_lk l lk (set_c c k s).

Lemma acquire_spec s s' c l : locks_ok s -> l ∉ locks s c -> acquire c l s = Some s' ->
  exists k, s' = relock c l (mk_spinlock true (Some c)) k s /\ c_held k = l :: locks s c /\ locks_ok s'.
Proof.
  intros Ok Hl. unfold acquire. destruct (holding c l s) eqn:Eh; [by apply (holding_iff _ _ _ Ok) in Eh|].
  destruct (lk_free _ Ok l) as [E|[c' E]]; rewrite E; cbn; [|done]. intros [= <-]. eexists. split; [done|]. split; [done|].
  assert (forall c', l ∉ locks s c') as Hno by (intros c' Hc%(lk_held _ Ok); congruence).
  split; cbn; [apply (lk_panic _ Ok)| | |].
  - intros l' c'. unfold locks. cbn. destruct (decide (l' = l)) as [->|Hne].
    + rewrite upd_same. destruct (decide (c' = c)) as [->|Hc]; [rewrite upd_same; cbn; set_solver|].
      rewrite upd_other by done. split; [by intros ?%Hno|intros [=]; congruence].
    + rewrite (upd_other _ l) by done. rewrite <-(lk_held _ Ok). destruct (decide (c' = c)) as [->|Hc]; [rewrite upd_same; cbn|by rewrite upd_other].
      unfold locks. set_solver.
  - intros l'. destruct (decide (l' = l)) as [->|Hne]; [rewrite upd_same; eauto|]. rewrite upd_other by done. apply (lk_free _ Ok).
  - intros c'. unfold locks. cbn. destruct (decide (c' = c)) as [->|Hc]; [rewrite upd_same; cbn|rewrite upd_other by done; apply (lk_cpu _ Ok)].
    destruct (lk_cpu _ Ok c) as (N & C & _). split; [by constructor|]. split; [|done]. rewrite C. unfold locks. cbn. lia.
Qed.

Lemma release_spec s c l : locks_ok s -> l ∈ locks s c ->
  exists k, release c l s = relock c l (mk_spinlock false None) k s /\ c_held k = filter (fun x => x <> l) (locks s c) /\
    locks_ok (release c l s).
Proof.
  intros Ok Hl. unfold release. rewrite (proj2 (holding_iff _ _ _ Ok) Hl). cbn [negb]. destruct (lk_cpu _ Ok c) as (N & C & I).
  pose proof (length_remove l (locks s c) N Hl) as Hlen. unfold popcli.
  destruct (c_if (m_cpu s c)); [rewrite I in Hl by done; by apply elem_of_nil in Hl|]. rewrite (proj2 (Z.ltb_ge _ _)) by lia.
  eexists. split; [done|]. split; [done|]. split; cbn; [apply (lk_panic _ Ok)| | |].
  - intros l' c'. unfold locks. cbn. destruct (decide (l' = l)) as [->|Hne].
    + rewrite upd_same. split; [|done]. destruct (decide (c' = c)) as [->|Hc]; [rewrite upd_same; cbn; rewrite list_elem_of_filter; tauto|].
      rewrite upd_other by done. intros Hl'. by destruct (lk_excl _ _ _ _ Ok Hl Hl').
    + rewrite (upd_other _ l) by done. rewrite <-(lk_held _ Ok). destruct (decide (c' = c)) as [->|Hc]; [rewrite upd_same; cbn|by rewrite upd_other].
      rewrite list_elem_of_filter. unfold locks. tauto.
  - intros l'. destruct (decide (l' = l)) as [->|Hne]; [rewrite upd_same; eauto|]. rewrite upd_other by done. apply (lk_free _ Ok).
  - intros c'. unfold locks. cbn. destruct (decide (c' = c)) as [->|Hc]; [rewrite upd_same; cbn|rewrite upd_other by done; apply (lk_cpu _ Ok)].
    fold (locks s c). split; [by apply NoDup_filter|]. split; [lia|]. case_match; [|done]. intros _.
    destruct (Z.eqb_spec (c_ncli (m_cpu s c) - 1) 0); [|done]. apply nil_length_inv. lia.
Qed.

(** ** The invariant: threads *)

(** The locks that the CPU of a thread holds, by where the thread is; a
    thread that has exited does not come back from its [swtch]. *)
Definition locks_at (p : ppc) (ls : list nat) : Prop :=
  match p with
  | PNone | PParked KExit _ | PBack KExit => False
  | PRun => True
  | PYield _ | PReacquire _ => ls = []
  | PSleep _ lk => ls = [lk]
  | PSleepUnlock _ lk => ls = [PTLOCK; lk] /\ lk <> PTLOCK
  | _ => ls = [PTLOCK]
  end.

(** The state of the table's entry, and the channel, of a thread on a CPU *)
Definition state_at (p : ppc) : procstate :=
  match p with
  | PSched (KYield _) => RUNNABLE
  | PSched (KSleep _ _) => SLEEPING
  | PSched KExit => ZOMBIE
  | _ => RUNNING
  end.
Definition chan_at (p : ppc) (ch : option chan) : Prop :=
  match p with PSched (KSleep ch' _) => ch = ch' | _ => True end.

(** A thread that has called [sleep] and not yet marked itself *)
Definition asking (t : ptable) (fk : nat -> option nat) (i : nat) (p : ppc) : Prop :=
  match p with
  | PSleep ch lk | PSleepUnlock ch lk | PSleepSet ch lk =>
      fk i = None /\ (lk = PTLOCK -> ch = Some (ChanProc i) /\ wait_scan i t = WaitSleep) /\ (lk <> PTLOCK -> forall j, ch <> Some (ChanProc j))
  | _ => True
  end.

(** A thread that no CPU runs, by the state of its process *)
Definition off_at (x : procstate) (ch : option chan) (p : ppc) : Prop :=
  match x with
  | UNUSED => p = PNone
  | EMBRYO => p = PForkret
  | RUNNING => False
  | RUNNABLE => p = PForkret \/ exists k b, p = PParked k b /\ k <> KExit
  | SLEEPING => exists lk b, p = PParked (KSleep ch lk) b
  | ZOMBIE => exists b, p = PParked KExit b
  end.

Definition on_ok (s : machine) (c i : nat) : Prop :=
  m_sch s c = SchBack i /\ m_proc s c = Some i /\ locks_at (m_pc s i) (locks s c) /\ st (m_t s) i = state_at (m_pc s i) /\
  chan_at (m_pc s i) (p_chan (pr (m_t s) i)) /\ asking (m_t s) (m_fork s) i (m_pc s i).
Definition sch_ok (s : machine) (c : nat) : Prop :=
  match m_sch s c with
  | SchTop | SchAcquire => m_proc s c = None /\ locks s c = []
  | SchScan _ => m_proc s c = None /\ locks s c = [PTLOCK]
  | SchBack n => m_proc s c = Some n /\ locks s c = [PTLOCK]
  end.
Definition off_ok (s : machine) (i : nat) : Prop := off_at (st (m_t s) i) (p_chan (pr (m_t s) i)) (m_pc s i).
Definition off (s : machine) (i : nat) : Prop := forall c, m_on s c <> Process i.

Record threads_ok (s : machine) : Prop := {
  th_sch : forall c, m_on s c = Scheduler -> sch_ok s c;
  th_on : forall c i, m_on s c = Process i -> on_ok s c i;
  th_one : forall c c' i, m_on s c = Process i -> m_on s c' = Process i -> c = c';
  th_off : forall i, off s i -> off_ok s i;
}.
Definition inv (s : machine) : Prop := locks_ok s /\ threads_ok s.

(** Where a table's entry is what another one was, for a thread on a CPU *)
Definition same_at (s s' : machine) (c i : nat) : Prop :=
  locks s' c = locks s c /\ m_pc s' i = m_pc s i /\ st (m_t s') i = st (m_t s) i /\ p_chan (pr (m_t s') i) = p_chan (pr (m_t s) i) /\
  (m_pc s i <> PRun -> m_fork s' i = m_fork s i) /\
  (m_pc s i <> PRun -> PTLOCK ∈ locks s c -> wait_scan i (m_t s) = WaitSleep -> wait_scan i (m_t s') = WaitSleep).

Lemma same_on s s' c i : m_sch s' c = m_sch s c -> m_proc s' c = m_proc s c -> same_at s s' c i -> on_ok s c i -> on_ok s' c i.
Proof.
  intros E1 E2 (E3 & E4 & E5 & E6 & E7 & E8) (H1 & H2 & H3 & H4 & H5 & H6). unfold on_ok. rewrite E1, E2, E3, E4, E5, E6. split_and!; try done.
  unfold asking in *. destruct (m_pc s i) as [| | | | |ch lk|ch lk|ch lk| | | | |] eqn:Ep; try done; destruct H6 as (Hf & Hw & Hn);
    (split; [by rewrite E7|]; split; [|done]; intros ->; split; [by apply Hw|]; apply E8; [done| |by apply Hw]);
    cbn in H3; first [rewrite H3; set_solver|destruct H3; done].
Qed.

(** A step of process [i]'s thread that stays on its CPU *)
Lemma threads_step s s' c i : threads_ok s -> m_on s c = Process i -> m_on s' = m_on s -> m_sch s' = m_sch s -> m_proc s' = m_proc s ->
  locks_at (m_pc s' i) (locks s' c) -> st (m_t s') i = state_at (m_pc s' i) -> chan_at (m_pc s' i) (p_chan (pr (m_t s') i)) ->
  asking (m_t s') (m_fork s') i (m_pc s' i) ->
  (forall c' j, c' <> c -> j <> i -> m_on s c' = Process j -> same_at s s' c' j) ->
  (forall c', c' <> c -> locks s' c' = locks s c') ->
  (forall j, j <> i -> off s j -> off_ok s j -> off_ok s' j) ->
  threads_ok s'.
Proof.
  intros Ok Hon E1 E2 E3 H1 H2 H3 H4 Hsame Hlk Hoff. destruct (th_on _ Ok c i Hon) as (B1 & B2 & _). split.
  - intros c' Hc'. rewrite E1 in Hc'. unfold sch_ok. assert (c' <> c) by (intros ->; congruence). rewrite E2, E3, Hlk by done. by apply (th_sch _ Ok).
  - intros c' j Hc'. rewrite E1 in Hc'. destruct (decide (c' = c)) as [->|Hne].
    + rewrite Hon in Hc'. injection Hc' as <-. unfold on_ok. rewrite E2, E3. by split_and!.
    + eapply same_on; [by rewrite E2|by rewrite E3| |by apply (th_on _ Ok)]. apply Hsame; [done| |done]. intros ->. apply Hne. by eapply (th_one _ Ok).
  - rewrite E1. apply (th_one _ Ok).
  - intros j Hj. assert (off s j) as Ho by (intros c'; rewrite <-E1; apply Hj). apply Hoff; [|done|by apply (th_off _ Ok)]. intros ->. by apply (Ho c).
Qed.

(** A step that moves a running thread from one place to another, and may
    change the locks of its CPU *)
Lemma threads_move s s' c i p : threads_ok s -> m_on s c = Process i -> st (m_t s) i = RUNNING -> state_at p = RUNNING ->
  (forall j, m_pc s' j = upd (m_pc s) i p j) -> m_t s' = m_t s -> m_fork s' = m_fork s -> m_on s' = m_on s -> m_sch s' = m_sch s -> m_proc s' = m_proc s ->
  (forall c', c' <> c -> locks s' c' = locks s c') ->
  locks_at p (locks s' c) -> asking (m_t s) (m_fork s) i p -> threads_ok s'.
Proof.
  intros Ok Hon Hst Hp Ep Et Ef Eo Es Epr Hlk Hlo Hask. apply (threads_step s s' c i); try done; rewrite ?Et, ?Ef, ?Ep, ?upd_same; try done.
  - by rewrite Hp.
  - by destruct p as [| | | | | | | |[]| | | |].
  - intros c' j Hc Hj _. unfold same_at. rewrite Et, Ef, Ep, upd_other by done. split_and!; try done. by apply Hlk.
  - intros j Hj _. unfold off_ok. by rewrite Et, Ep, upd_other.
Qed.

(** A change of the table that wakes some processes *)
Definition wakes (t t' : ptable) (j : nat) : Prop :=
  p_chan (pr t' j) = p_chan (pr t j) /\ (st t' j = st t j \/ (st t j = SLEEPING /\ st t' j = RUNNABLE)).

Lemma off_wakes s s' j : wakes (m_t s) (m_t s') j -> m_pc s' j = m_pc s j -> off_ok s j -> off_ok s' j.
Proof.
  intros [Ec Es] Ep. unfold off_ok. rewrite Ep, Ec. destruct Es as [->|[-> ->]]; [done|]. cbn. intros (lk & b & ->). right. by eexists _, _.
Qed.

(** The lock of the table excludes the other threads. *)
Lemma other_running s c c' j : inv s -> PTLOCK ∈ locks s c -> c' <> c -> m_on s c' = Process j ->
  PTLOCK ∉ locks s c' /\ st (m_t s) j = RUNNING.
Proof.
  intros [Lk Ok] Hc Hne Hon. assert (PTLOCK ∉ locks s c') as Hno by (intros H; by apply Hne, (lk_excl s PTLOCK)). split; [done|].
  destruct (th_on _ Ok _ _ Hon) as (_ & _ & Hl & -> & _). destruct (m_pc s j) as [| | | | | | | |[]| | | |]; try done; cbn in Hl; rewrite Hl in Hno; set_solver.
Qed.

Lemma wakes_same s s' c c' j : inv s -> PTLOCK ∈ locks s c -> c' <> c -> m_on s c' = Process j -> wakes (m_t s) (m_t s') j ->
  locks s' c' = locks s c' -> m_pc s' j = m_pc s j -> m_fork s' j = m_fork s j -> same_at s s' c' j.
Proof.
  intros Hi Hc Hne Hon [Ec Es] El Ep Ef. destruct (other_running s c c' j Hi Hc Hne Hon) as [Hno Hr]. split_and!; try done.
  destruct Es as [|[Es _]]; congruence.
Qed.

Lemma wakes_wakeup1 ch t j : wakes t (wakeup1 ch t) j.
Proof. unfold wakes, st. rewrite pr_wakeup1. unfold woken. destruct (decide _) as [[]|]; auto. Qed.

Lemma wakes_kill pid t j : wakes t (kill_table pid t).1 j.
Proof.
  unfold kill_table, wakes. destruct (list_find _ (pt_proc t)) as [[i p]|] eqn:E; [|auto]. apply list_find_Some in E as (E & _ & _).
  apply lookup_lt_Some in E. unfold st. cbn [fst]. rewrite pr_upd by done. destruct (decide (j = i)) as [->|]; [|auto]. cbn. destruct (decide _); auto.
Qed.

(** The operations of the table by a thread that holds its lock *)
Lemma inv_wakes s c i t' : inv s -> m_on s c = Process i -> m_pc s i = PRun -> PTLOCK ∈ locks s c -> (forall j, wakes (m_t s) t' j) -> inv (set_t t' s).
Proof.
  intros Hi Hon Hp Hc Hw. pose proof Hi as [Lk Ok]. destruct (th_on _ Ok _ _ Hon) as (_ & _ & _ & Hst & _). rewrite Hp in Hst.
  split; [by destruct Lk; split|]. apply (threads_step s (set_t t' s) c i); try done; cbn [m_pc set_t]; try (by rewrite Hp).
  - rewrite Hp. cbn [m_t set_t]. destruct (Hw i) as [_ [->|[E _]]]; [done|]. cbn in Hst. congruence.
  - intros c' j Hne Hj Hon'. by apply (wakes_same s _ c).
  - intros j Hj _. by apply off_wakes.
Qed.

Lemma wait_sleep_iff i t : wait_scan i t = WaitSleep <->
  p_killed (pr t i) = false /\ (exists j, p_parent (pr t j) = Some i) /\ forall j, p_parent (pr t j) = Some i -> st t j <> ZOMBIE.
Proof.
  pose proof (wait_scan_spec i t) as H. split; [by intros E; rewrite E in H|]. intros (A & [j B] & C). destruct (wait_scan i t) as [k| |]; [| |done].
  - destruct H as [H1 H2]. by destruct (C k H1).
  - destruct H as [[H|H] _]; [congruence|by destruct (H j)].
Qed.

(** A change of one entry whose thread no CPU runs, by a thread outside the
    functions of this file *)
Lemma inv_entry s s' c i np : inv s -> m_on s c = Process i -> m_pc s i = PRun ->
  off s np -> off_ok s' np ->
  (forall j, j <> np -> pr (m_t s') j = pr (m_t s) j) -> (forall j, j <> np -> m_pc s' j = m_pc s j) -> (forall j, j <> i -> m_fork s' j = m_fork s j) ->
  m_lock s' = m_lock s -> m_cpu s' = m_cpu s -> m_on s' = m_on s -> m_sch s' = m_sch s -> m_proc s' = m_proc s -> m_panic s' = m_panic s ->
  (PTLOCK ∈ locks s c \/ p_parent (pr (m_t s') np) = p_parent (pr (m_t s) np) /\ st (m_t s') np <> ZOMBIE \/
   p_parent (pr (m_t s') np) = Some i /\ (forall q, p_parent (pr (m_t s) np) = Some q -> q = i)) ->
  inv s'.
Proof.
  intros Hi Hon Hp Hoff Hok Epr Ep Ef El Ec Eo Es Epc Epa Hx. pose proof Hi as [Lk Ok]. destruct (th_on _ Ok _ _ Hon) as (_ & _ & _ & Hst & _). rewrite Hp in Hst.
  assert (i <> np) as Hne by (intros ->; by apply (Hoff c)). assert (forall j, j <> np -> st (m_t s') j = st (m_t s) j) as Est by (intros; unfold st; by rewrite Epr).
  split; [destruct Lk; split; unfold locks in *; by rewrite ?El, ?Ec, ?Epa|]. apply (threads_step s s' c i); try done; rewrite ?(Ep i) by done; try (by rewrite Hp).
  - rewrite Hp, Est by done. done.
  - intros c' j Hc Hj Hon'. assert (j <> np) as Hjn by (intros ->; by apply (Hoff c')). unfold same_at, locks. rewrite Ec, Ep, Est, Epr by done.
    split_and!; try done; [by intros _; apply Ef|]. intros _ Hpt. fold (locks s c') in Hpt. destruct Hx as [Hx|Hx]; [by destruct (Hc (lk_excl _ _ _ _ Lk Hpt Hx))|].
    rewrite !wait_sleep_iff, Epr by done. intros (A & (k & B) & C). split; [done|].
    assert (forall q, p_parent (pr (m_t s') q) = Some j <-> p_parent (pr (m_t s) q) = Some j) as Hpar.
    { intros q. destruct (decide (q = np)) as [->|Hq]; [|by rewrite Epr]. destruct Hx as [[-> _]|[-> Hx]]; [done|].
      split; [congruence|]. intros E. apply Hx in E. congruence. }
    split; [exists k; by apply Hpar|]. intros q Hq%Hpar. destruct (decide (q = np)) as [->|Hqn]; [|rewrite Est by done; by apply C].
    destruct Hx as [[_ ?]|[_ Hx]]; [done|]. apply Hx in Hq. congruence.
  - intros c' _. unfold locks. by rewrite Ec.
  - intros j Hj Ho Hk. destruct (decide (j = np)) as [->|Hjn]; [done|]. unfold off_ok. rewrite Est, Epr, Ep by done. done.
Qed.

(** ** Every step keeps the invariant *)
Lemma upd_here {A} (f : nat -> A) i x : f i = x -> forall j, f j = upd f i x j.
Proof. intros <- j. unfold upd. by destruct (decide (j = i)) as [->|]. Qed.

Lemma locks_relock c l lk k s c' : c' <> c -> locks (relock c l lk k s) c' = locks s c'.
Proof. intros. unfold locks, relock. cbn. by rewrite upd_other. Qed.
Lemma locks_here c l lk k s : locks (relock c l lk k s) c = c_held k.
Proof. unfold locks, relock. cbn. by rewrite upd_same. Qed.

(** [acquire] and [release] by a process's thread, which goes on at [p] *)
Lemma inv_acquire s s1 c i l p : inv s -> m_on s c = Process i -> st (m_t s) i = RUNNING -> l ∉ locks s c -> acquire c l s = Some s1 ->
  state_at p = RUNNING -> locks_at p (l :: locks s c) -> asking (m_t s) (m_fork s) i p -> inv (set_p i p s1).
Proof.
  intros [Lk Ok] Hon Hst Hl Ha Hp Hlo Hask. destruct (acquire_spec _ _ _ _ Lk Hl Ha) as (k & -> & Ek & Lk'). split; [by destruct Lk'; split|].
  apply (threads_move s _ c i p); try done; [by intros c' Hc; apply (locks_relock c l)|].
  change (locks_at p (locks (relock c l (mk_spinlock true (Some c)) k s) c)). by rewrite locks_here, Ek.
Qed.

Lemma inv_release s c i l p : inv s -> m_on s c = Process i -> st (m_t s) i = RUNNING -> l ∈ locks s c ->
  state_at p = RUNNING -> locks_at p (filter (fun x => x <> l) (locks s c)) -> asking (m_t s) (m_fork s) i p -> inv (set_p i p (release c l s)).
Proof.
  intros [Lk Ok] Hon Hst Hl Hp Hlo Hask. destruct (release_spec _ _ _ Lk Hl) as (k & E & Ek & Lk'). rewrite E in *. split; [by destruct Lk'; split|].
  apply (threads_move s _ c i p); try done; [by intros c' Hc; apply (locks_relock c l)|].
  change (locks_at p (locks (relock c l (mk_spinlock false None) k s) c)). by rewrite locks_here, Ek.
Qed.

Lemma inv_set_p s c i p : inv s -> m_on s c = Process i -> st (m_t s) i = RUNNING ->
  state_at p = RUNNING -> locks_at p (locks s c) -> asking (m_t s) (m_fork s) i p -> inv (set_p i p s).
Proof. intros [Lk Ok] Hon Hst Hp Hlo Hask. split; [by destruct Lk; split|]. by apply (threads_move s _ c i p). Qed.

(** A change of the interrupt flag or of [intena] *)
Lemma inv_flags s c b f : inv s -> (f = true -> locks s c = []) ->
  inv (set_c c (mk_cpu (c_ncli (m_cpu s c)) b f (locks s c)) s).
Proof.
  intros [Lk Ok] Hf. set (s' := set_c _ _ _).
  assert (forall c', locks s' c' = locks s c') as El by (intros c'; unfold locks, s'; cbn; by destruct (decide (c' = c)) as [->|]; [rewrite upd_same|rewrite upd_other]).
  split.
  - destruct Lk as [L1 L2 L3 L4]. split; [done| |done|]; [intros l c'; rewrite El; apply L2|]. intros c'. rewrite El. destruct (L4 c') as (A & B & C).
    split; [done|]. unfold s'. cbn. destruct (decide (c' = c)) as [->|]; [rewrite upd_same; by split|by rewrite upd_other].
  - destruct Ok as [O1 O2 O3 O4]. split; try done; [intros c' Hc|intros c' i Hc]; [pose proof (O1 c' Hc) as HO|pose proof (O2 c' i Hc) as HO];
      unfold sch_ok, on_ok in *; by rewrite El.
Qed.

(** A running thread marks itself and is about to call [sched]. *)
Lemma inv_mark s c i t' k : inv s -> m_on s c = Process i -> locks s c = [PTLOCK] ->
  (forall j, j <> i -> wakes (m_t s) t' j) -> st t' i = state_at (PSched k) -> chan_at (PSched k) (p_chan (pr t' i)) ->
  inv (set_p i (PSched k) (set_t t' s)).
Proof.
  intros Hi Hon Hl Hw Hst Hch. pose proof Hi as [Lk Ok]. split; [by destruct Lk; split|].
  assert (PTLOCK ∈ locks s c) as Hin by (rewrite Hl; set_solver).
  apply (threads_step s _ c i); try done; cbn [m_pc set_p set_t m_t]; rewrite ?upd_same; try done.
  - intros c' j Hc Hj Hon'. apply (wakes_same s _ c); try done; [by apply Hw|]. cbn. by rewrite upd_other.
  - intros j Hj _. apply off_wakes; [by apply Hw|]. cbn. by rewrite upd_other.
Qed.

Lemma off_by_state s c i np : inv s -> m_on s c = Process i -> m_pc s i = PRun -> PTLOCK ∈ locks s c -> st (m_t s) np <> RUNNING -> off s np.
Proof.
  intros Hi Hon Hp Hl Hst c' Hon'. destruct (decide (c' = c)) as [->|Hc].
  - destruct Hi as [_ Ok]. destruct (th_on _ Ok _ _ Hon) as (_ & _ & _ & E & _). rewrite Hp in E. cbn in E. congruence.
  - by destruct (other_running s c c' np Hi Hl Hc Hon') as [_ ?].
Qed.
Lemma off_embryo s np : inv s -> st (m_t s) np = EMBRYO -> off s np.
Proof.
  intros [_ Ok] Hst c Hon. destruct (th_on _ Ok _ _ Hon) as (_ & _ & _ & E & _). rewrite Hst in E. by destruct (m_pc s np) as [| | | | | | | |[]| | | |].
Qed.

(** The table is one of Proc.v's. *)
Definition tabled (s : machine) : Prop := exists a, table_ok a /\ s_t a = m_t s /\ s_fork a = m_fork s.

Lemma wakes_exit s i : tabled s -> st (m_t s) i <> UNUSED ->
  (forall j, j <> i -> wakes (m_t s) (exit_table i (m_t s)) j) /\ st (exit_table i (m_t s)) i = ZOMBIE.
Proof.
  intros (a & Ok & <- & _) Hst. assert (i < Z.to_nat NPROC)%nat as Hi by (rewrite <-(ok_len _ Ok); by apply st_lt).
  destruct (exit_table_spec i (s_t a) (ok_len _ Ok) Hi) as [_ _ _ Hs _ Hz Hw _ _]. split; [|done]. intros j Hj. split; [apply Hs|by apply Hw].
Qed.

(** Process [i]'s thread runs outside the functions of this file. *)
Section client.
Context (s : machine) (c i : nat) (Hi : inv s) (Ht : tabled s) (Hon : m_on s c = Process i) (Hp : m_pc s i = PRun).

Lemma forking np : m_fork s i = Some np ->
  st (m_t s) np = EMBRYO /\ (np < length (pt_proc (m_t s)))%nat /\ forall q, p_parent (pr (m_t s) np) = Some q -> q = i.
Proof using Ht.
  destruct Ht as (a & Ta & <- & <-). intros Hnp. destruct (ok_fork _ Ta _ _ Hnp) as (_ & E & Hpar & _). split_and!; [done|apply st_lt; by rewrite E|].
  intros q Hq. destruct Hpar; congruence.
Qed.

Lemma inv_reap j : PTLOCK ∈ locks s c -> wait_scan i (m_t s) = WaitReap j -> inv (set_p j PNone (set_t (reap j (m_t s)) s)).
Proof using Hi Ht Hon Hp.
  intros Hl Hw.
  pose proof (wait_scan_spec i (m_t s)) as Hz. rewrite Hw in Hz. destruct Hz as [_ Hz].
  assert (j < length (pt_proc (m_t s)))%nat as Hlt by (apply st_lt; by rewrite Hz).
  apply (inv_entry s _ c i j); try done; cbn.
  - apply (off_by_state s c i); try done. by rewrite Hz.
  - unfold off_ok, st, reap. cbn. rewrite upd_same, pr_upd, decide_True by done. done.
  - intros q Hq. unfold reap. by rewrite pr_upd, decide_False.
  - intros q Hq. by rewrite upd_other.
  - by left.
Qed.

Lemma inv_fork np t' : PTLOCK ∈ locks s c -> alloc_slot (m_t s) = Some (np, t') -> inv (set_p np PForkret (set_fork i (Some np) (set_t t' s))).
Proof using Hi Ht Hon Hp.
  intros Hl Ha.
  destruct (alloc_slot_Some _ _ _ Ha) as (Hu & Hlt & _ & _ & _ & Epr). apply (inv_entry s _ c i np); try done; cbn.
  - apply (off_by_state s c i); try done. by rewrite Hu.
  - unfold off_ok, st. cbn. rewrite upd_same, Epr, decide_True by done. done.
  - intros q Hq. by rewrite Epr, decide_False.
  - intros q Hq. by rewrite upd_other.
  - intros q Hq. unfold fset. by rewrite decide_False.
  - by left.
Qed.

Lemma inv_fork_fail np : m_fork s i = Some np -> inv (set_p np PNone (set_fork i None (set_t (fork_fail np (m_t s)) s))).
Proof using Hi Ht Hon Hp.
  intros Hf.
  destruct (forking np Hf) as (He & Hlt & _). apply (inv_entry s _ c i np); try done; cbn.
  - by apply off_embryo.
  - unfold off_ok, st, fork_fail. cbn. rewrite upd_same, pr_upd, decide_True by done. done.
  - intros q Hq. unfold fork_fail. by rewrite pr_upd, decide_False.
  - intros q Hq. by rewrite upd_other.
  - intros q Hq. unfold fset. by rewrite decide_False.
  - right. left. unfold fork_fail, st. rewrite pr_upd, decide_True by done. done.
Qed.

Lemma inv_fork_copy np pgdir name : m_fork s i = Some np -> inv (set_t (fork_copy i np pgdir name (m_t s)) s).
Proof using Hi Ht Hon Hp.
  intros Hf.
  destruct (forking np Hf) as (He & Hlt & Hpa). apply (inv_entry s _ c i np); try done; cbn.
  - by apply off_embryo.
  - unfold off_ok, st, fork_copy. cbn. rewrite pr_upd, decide_True by done. cbn. fold (st (m_t s) np). rewrite He.
    pose proof (th_off _ (proj2 Hi) np (off_embryo _ _ Hi He)) as Ho. unfold off_ok in Ho. by rewrite He in Ho.
  - intros q Hq. unfold fork_copy. by rewrite pr_upd, decide_False.
  - right. right. unfold fork_copy. rewrite pr_upd, decide_True by done. done.
Qed.

Lemma inv_fork_ready np : PTLOCK ∈ locks s c -> m_fork s i = Some np -> inv (set_fork i None (set_t (fork_ready np (m_t s)) s)).
Proof using Hi Ht Hon Hp.
  intros Hl Hf.
  destruct (forking np Hf) as (He & Hlt & Hpa). apply (inv_entry s _ c i np); try done; cbn.
  - by apply off_embryo.
  - unfold off_ok, st, fork_ready. cbn. rewrite pr_upd, decide_True by done. cbn. left.
    pose proof (th_off _ (proj2 Hi) np (off_embryo _ _ Hi He)) as Ho. unfold off_ok in Ho. by rewrite He in Ho.
  - intros q Hq. unfold fork_ready. by rewrite pr_upd, decide_False.
  - intros q Hq. unfold fset. by rewrite decide_False.
  - by left.
Qed.

Lemma inv_client s' : client c i s s' -> inv s'.
Proof using Hi Ht Hon Hp.
  intros Hc. pose proof Hi as [Lk Ok]. destruct (th_on _ Ok _ _ Hon) as (_ & _ & _ & Hst & _). rewrite Hp in Hst; cbn in Hst.
  destruct Hc as [l s' Hl Ha|l Hl|b Hl|Hl|ch lk Hl Hlk Hch Hf|Hl Hf Hw|ch Hl|pid Hl|Hl Hf Hin|j Hl Hf Hw|np t' Hl Hf Hn Ha|np Hf Hpar|np pg nm Hf|np Hl Hf Hpar].
  - destruct (acquire_spec _ _ _ _ Lk Hl Ha) as (k & -> & Ek & Lk'). split; [done|].
    apply (threads_move s _ c i PRun); try done; [by apply upd_here|by apply locks_relock].
  - destruct (release_spec _ _ _ Lk Hl) as (k & E & Ek & Lk'). split; [done|]. rewrite E.
    apply (threads_move s _ c i PRun); try done; [by apply upd_here|by apply locks_relock].
  - rewrite <-Hl. apply inv_flags; [done|]. by intros _.
  - by apply (inv_set_p s c).
  - by apply (inv_set_p s c).
  - by apply (inv_set_p s c).
  - apply (inv_wakes s c i); try done. apply wakes_wakeup1.
  - apply (inv_wakes s c i); try done. apply wakes_kill.
  - destruct (wakes_exit s i Ht ltac:(by rewrite Hst)). by apply (inv_mark s c).
  - by apply inv_reap.
  - by apply inv_fork.
  - by apply inv_fork_fail.
  - by apply inv_fork_copy.
  - by apply inv_fork_ready.
Qed.
End client.

(** [sched] does not panic, and switches to the scheduler. *)
Lemma sched_spec s c i k : inv s -> m_on s c = Process i -> m_pc s i = PSched k ->
  sched c k s = set_on c Scheduler (set_p i (PParked k (c_intena (m_cpu s c))) s) /\ st (m_t s) i <> RUNNING.
Proof.
  intros [Lk Ok] Hon Hp. destruct (th_on _ Ok _ _ Hon) as (_ & Hpr & Hl & Hst & _). rewrite Hp in Hl, Hst. cbn in Hl.
  assert (st (m_t s) i <> RUNNING) as Hne by (rewrite Hst; by destruct k). split; [|done]. unfold sched. rewrite Hpr.
  rewrite (proj2 (holding_iff s c PTLOCK Lk)) by (rewrite Hl; set_solver). cbn [negb].
  destruct (lk_cpu _ Lk c) as (_ & C & I). rewrite C, Hl. cbn. rewrite decide_False by done.
  destruct (c_if (m_cpu s c)); [|done]. by rewrite I in Hl.
Qed.

Lemma inv_sched s c i k : inv s -> m_on s c = Process i -> m_pc s i = PSched k -> inv (sched c k s).
Proof.
  intros Hi Hon Hp. destruct (sched_spec s c i k Hi Hon Hp) as [-> _]. destruct Hi as [Lk Ok].
  destruct (th_on _ Ok _ _ Hon) as (Hs & Hpr & Hl & Hst & Hch & _). rewrite Hp in Hl, Hst, Hch. split; [by destruct Lk; split|]. split; cbn.
  - intros c' Hc'. destruct (decide (c' = c)) as [->|Hc]; [|rewrite upd_other in Hc' by done; by apply (th_sch _ Ok)].
    unfold sch_ok. cbn. by rewrite Hs.
  - intros c' j Hc'. destruct (decide (c' = c)) as [->|Hc]; [by rewrite upd_same in Hc'|]. rewrite upd_other in Hc' by done.
    apply (same_on s); [done|done| |by apply (th_on _ Ok)]. assert (j <> i) by (intros ->; apply Hc; by eapply (th_one _ Ok)).
    unfold same_at. cbn. rewrite upd_other by done. done.
  - intros c1 c2 j H1 H2. destruct (decide (c1 = c)) as [->|]; [by rewrite upd_same in H1|]. destruct (decide (c2 = c)) as [->|]; [by rewrite upd_same in H2|].
    rewrite upd_other in H1, H2 by done. by eapply (th_one _ Ok).
  - intros j Hj. unfold off_ok. cbn. destruct (decide (j = i)) as [->|Hne].
    + rewrite upd_same, Hst. destruct k; cbn in *; [right; by eexists _, _|rewrite Hch; by eexists _, _|by eexists].
    + rewrite upd_other by done. apply (th_off _ Ok). intros c' Hc'. destruct (decide (c' = c)) as [->|Hc]; [congruence|]. apply (Hj c'). cbn. by rewrite upd_other.
Qed.

Lemma inv_awake s c i p : inv s -> m_on s c = Process i -> st (m_t s) i = RUNNING -> locks s c = [PTLOCK] -> (exists lk, p = PRelease lk) \/ p = PRun ->
  inv (set_p i p (set_t (awake i (m_t s)) s)).
Proof.
  intros Hi Hon Hst Hl Hp. pose proof Hi as [Lk Ok]. split; [by destruct Lk; split|]. assert (i < length (pt_proc (m_t s)))%nat as Hlt by (apply st_lt; by rewrite Hst).
  assert (st (awake i (m_t s)) i = RUNNING /\ forall j, j <> i -> pr (awake i (m_t s)) j = pr (m_t s) j) as [Est Epr].
  { unfold st, awake. rewrite pr_upd, decide_True by done. split; [done|]. intros j Hj. by rewrite pr_upd, decide_False. }
  assert (forall j, j <> i -> wakes (m_t s) (awake i (m_t s)) j) as Hw by (intros j Hj; unfold wakes, st; rewrite Epr by done; auto).
  assert (PTLOCK ∈ locks s c) as Hin by (rewrite Hl; set_solver).
  apply (threads_step s _ c i); try done; cbn [m_pc set_p set_t m_t]; rewrite ?upd_same; try (by destruct Hp as [[lk ->]| ->]).
  - intros c' j Hc Hj Hon'. apply (wakes_same s _ c); try done; [by apply Hw|]. cbn. by rewrite upd_other.
  - intros j Hj _. apply off_wakes; [by apply Hw|]. cbn. by rewrite upd_other.
Qed.

Lemma inv_kernel s s' c i : inv s -> m_on s c = Process i -> kernel c i s = Some s' -> inv s'.
Proof.
  intros Hi Hon. pose proof Hi as [Lk Ok]. destruct (th_on _ Ok _ _ Hon) as (_ & Hpr & Hl & Hst & Hch & Hask). unfold kernel.
  assert (st (m_t s) i <> UNUSED -> forall f j, pr (upd_proc i f (m_t s)) j = if decide (j = i) then f (pr (m_t s) i) else pr (m_t s) j) as Epr
    by (intros Hu f j; by apply pr_upd, st_lt).
  destruct (m_pc s i) as [| | | | |ch lk|ch lk|ch lk|k|k b|k|lk|lk] eqn:Ep; cbn in Hl, Hst; unfold yield, sleep; rewrite ?Ep; try done.
  - intros [= <-]. apply (inv_release s c i); try done. rewrite Hl. set_solver.
  - destruct (acquire c PTLOCK s) as [s1|] eqn:Ea; [|done]. intros [= <-]. apply (inv_acquire s s1 c i PTLOCK); try done; rewrite Hl; [set_solver|done].
  - intros [= <-]. apply (inv_mark s c); try done; [intros j Hj| ].
    + unfold wakes, st, yield_table. rewrite Epr, decide_False by (done || by rewrite Hst). auto.
    + unfold st, yield_table. by rewrite Epr, decide_True by (done || by rewrite Hst).
  - rewrite Hpr. rewrite decide_False by done. destruct (decide (lk <> PTLOCK)) as [Hlk|Hlk].
    + destruct (acquire c PTLOCK s) as [s1|] eqn:Ea; [|done]. intros [= <-]. apply (inv_acquire s s1 c i PTLOCK); try done; rewrite Hl; [set_solver|done].
    + intros [= <-]. apply dec_stable in Hlk as ->. by apply (inv_set_p s c).
  - intros [= <-]. destruct Hl as [Hl Hlk]. apply (inv_release s c i); try done; rewrite Hl; [set_solver|].
    unfold locks_at. rewrite filter_cons_True by congruence. by rewrite filter_cons_False by tauto.
  - intros [= <-]. apply (inv_mark s c); try done; [intros j Hj| |].
    + unfold wakes, st, sleep_table. rewrite Epr, decide_False by (done || by rewrite Hst). auto.
    + unfold st, sleep_table. by rewrite Epr, decide_True by (done || by rewrite Hst).
    + unfold sleep_table. by rewrite Epr, decide_True by (done || by rewrite Hst).
  - intros [= <-]. by apply (inv_sched s c i).
  - intros [= <-]. assert (locks_at (PBack k) (locks s c) /\ c_if (m_cpu s c) = false) as [Hl' Hif].
    { destruct k; cbn in *; try done; (split; [done|]); destruct (lk_cpu _ Lk c) as (_ & _ & I); destruct (c_if (m_cpu s c)); try done; by rewrite I in Hl. }
    apply (inv_set_p _ c); try done; [apply inv_flags; [done|by rewrite Hif]|]. unfold locks. cbn. by rewrite upd_same.
  - destruct k as [r|ch lk|]; [| |done].
    + intros [= <-]. cbn in Hl. apply (inv_release s c i); try done; [rewrite Hl; set_solver|by destruct r| |by destruct r].
      rewrite Hl, filter_cons_False by tauto. by destruct r.
    + intros [= <-]. cbn in Hl. apply (inv_awake s c); try done. destruct (decide _); eauto.
  - intros [= <-]. apply (inv_release s c i); try done; rewrite Hl; [set_solver|]. by rewrite filter_cons_False by tauto.
  - destruct (acquire c lk s) as [s1|] eqn:Ea; [|done]. intros [= <-]. apply (inv_acquire s s1 c i lk); try done. rewrite Hl. set_solver.
Qed.

(** A step of a scheduler that stays on its CPU and leaves the table *)
Lemma threads_sch s s' c : threads_ok s -> m_on s c = Scheduler ->
  m_t s' = m_t s -> m_fork s' = m_fork s -> m_on s' = m_on s -> m_pc s' = m_pc s ->
  (forall c', c' <> c -> m_sch s' c' = m_sch s c' /\ m_proc s' c' = m_proc s c' /\ locks s' c' = locks s c') ->
  sch_ok s' c -> threads_ok s'.
Proof.
  intros [O1 O2 O3 O4] Hon Et Ef Eo Ep Ho Hc. split; unfold off, off_ok; rewrite ?Eo, ?Et, ?Ep; try done.
  - intros c' Hc'. destruct (decide (c' = c)) as [->|Hne]; [done|]. destruct (Ho c' Hne) as (E1 & E2 & E3). unfold sch_ok. rewrite E1, E2, E3. by apply O1.
  - intros c' i Hc'. assert (c' <> c) as Hne by (intros ->; congruence). destruct (Ho c' Hne) as (E1 & E2 & E3). unfold on_ok.
    rewrite E1, E2, E3, Et, Ef, Ep. by apply O2.
Qed.

(** The switch to process [n] *)
Lemma inv_dispatch s c n t' : inv s -> m_on s c = Scheduler -> m_sch s c = SchScan n -> dispatch n (m_t s) = Some t' ->
  inv (set_on c (Process n) (set_sch c (SchBack n) (set_t t' (set_proc c (Some n) s)))).
Proof.
  intros Hi Hon Hs Hd. pose proof Hi as [Lk Ok]. unfold dispatch in Hd. destruct (decide (st (m_t s) n = RUNNABLE)) as [Hst|]; [|done]. injection Hd as <-.
  pose proof (th_sch _ Ok c Hon) as Hsch. unfold sch_ok in Hsch. rewrite Hs in Hsch. destruct Hsch as [_ Hl].
  assert (PTLOCK ∈ locks s c) as Hin by (rewrite Hl; set_solver).
  assert (off s n) as Hoff. { intros c' Hc'. assert (c' <> c) as Hne by (intros ->; congruence). destruct (other_running s c c' n Hi Hin Hne Hc'). congruence. }
  assert (forall j, pr (upd_proc n (set_p_state RUNNING) (m_t s)) j = if decide (j = n) then set_p_state RUNNING (pr (m_t s) n) else pr (m_t s) j) as Epr
    by (intros j; apply pr_upd, st_lt; by rewrite Hst).
  assert (locks_at (m_pc s n) [PTLOCK] /\ state_at (m_pc s n) = RUNNING /\ (forall ch, chan_at (m_pc s n) ch) /\ forall t fk, asking t fk n (m_pc s n)) as (Hp1 & Hp2 & Hp3 & Hp4).
  { pose proof (th_off _ Ok n Hoff) as Ho. unfold off_ok in Ho. rewrite Hst in Ho. destruct Ho as [->|(k & b & -> & Hk)]; [done|]. by destruct k. }
  split; [by destruct Lk; split|]. split; cbn.
  - intros c' Hc'. destruct (decide (c' = c)) as [->|Hc]; [by rewrite upd_same in Hc'|]. rewrite upd_other in Hc' by done.
    unfold sch_ok. cbn. rewrite !upd_other by done. by apply (th_sch _ Ok).
  - intros c' j Hc'. destruct (decide (c' = c)) as [->|Hc].
    + rewrite upd_same in Hc'. injection Hc' as <-. unfold on_ok, st. cbn. rewrite !upd_same, Epr, decide_True by done. cbn.
      change (locks _ c) with (locks s c). rewrite Hl, Hp2. by split_and!.
    + rewrite upd_other in Hc' by done. assert (j <> n) as Hj by (intros ->; by apply (Hoff c')).
      apply (same_on s); cbn; [by rewrite upd_other..| |by apply (th_on _ Ok)].
      apply (wakes_same s _ c); try done. unfold wakes, st. cbn. rewrite Epr, decide_False by done. auto.
  - intros c1 c2 j. unfold upd. destruct (decide (c1 = c)) as [->|N1], (decide (c2 = c)) as [->|N2]; [done| | |by apply (th_one _ Ok)].
    + intros [= <-] H2. by destruct (Hoff c2).
    + intros H1 [= <-]. by destruct (Hoff c1).
  - intros j Hj. assert (j <> n) as Hne by (intros ->; apply (Hj c); cbn; by rewrite upd_same). unfold off_ok, st. cbn. rewrite Epr, decide_False by done.
    apply (th_off _ Ok). intros c' Hc'. apply (Hj c'). cbn. rewrite upd_other; [done|]. intros ->. congruence.
Qed.

Lemma inv_scheduler s s' c : inv s -> m_on s c = Scheduler -> scheduler c s = Some s' -> inv s'.
Proof.
  intros Hi Hon. pose proof Hi as [Lk Ok]. pose proof (th_sch _ Ok c Hon) as Hs. unfold sch_ok in Hs. unfold scheduler.
  destruct (m_sch s c) as [| |n|n] eqn:Es; destruct Hs as [Hp Hl].
  - intros [= <-]. destruct (inv_flags s c (c_intena (m_cpu s c)) true Hi ltac:(by intros _)) as [Lk' Ok']. split; [by destruct Lk'; split|].
    apply (threads_sch _ _ c Ok'); try done; cbn; [intros c' Hc; by rewrite upd_other|]. unfold sch_ok, locks. cbn. by rewrite !upd_same.
  - destruct (acquire c PTLOCK s) as [s1|] eqn:Ea; [|done]. intros [= <-].
    destruct (acquire_spec s s1 c PTLOCK Lk ltac:(rewrite Hl; set_solver) Ea) as (k & -> & Ek & Lk'). split; [by destruct Lk'; split|].
    apply (threads_sch s _ c Ok); try done; cbn; [intros c' Hc; rewrite upd_other by done; split_and!; try done; by apply (locks_relock c PTLOCK)|].
    unfold sch_ok, locks. cbn. rewrite !upd_same, Ek, Hl. done.
  - destruct (Z.ltb_spec (Z.of_nat n) NPROC); [destruct (dispatch n (m_t s)) as [t'|] eqn:Ed|]; intros [= <-].
    + by apply inv_dispatch.
    + split; [by destruct Lk; split|]. apply (threads_sch s _ c Ok); try done; cbn; [intros c' Hc; by rewrite upd_other|]. unfold sch_ok. cbn. by rewrite upd_same.
    + destruct (release_spec s c PTLOCK Lk ltac:(rewrite Hl; set_solver)) as (k & E & Ek & Lk'). rewrite E in *. split; [by destruct Lk'; split|].
      apply (threads_sch s _ c Ok); try done; cbn; [intros c' Hc; rewrite upd_other by done; split_and!; try done; by apply (locks_relock c PTLOCK)|].
      unfold sch_ok, locks. cbn. rewrite !upd_same, Ek, Hl. done.
  - intros [= <-]. split; [by destruct Lk; split|]. apply (threads_sch s _ c Ok); try done; cbn; [intros c' Hc; by rewrite !upd_other|].
    unfold sch_ok. cbn. by rewrite !upd_same.
Qed.

(** ** The simulation *)

(** The process that CPU [c] runs, as Proc.v sees it *)
Definition running (s : machine) (c : nat) : option nat :=
  match m_on s c with
  | Process i => if decide (st (m_t s) i = RUNNING) then Some i else None
  | Scheduler => None
  end.
Definition sim (s : machine) (a : Proc.sys) : Prop :=
  s_t a = m_t s /\ s_fork a = m_fork s /\ forall c, s_cur a c = running s c.

(** A step that Proc.v does not see *)
Lemma sim_quiet s s' a : sim s a -> m_t s' = m_t s -> m_fork s' = m_fork s -> m_on s' = m_on s -> sim s' a.
Proof. intros (E1 & E2 & E3) Et Ef Eo. unfold sim, running. by rewrite Et, Ef, Eo. Qed.

(** A change of the table, in which the same processes are running *)
Lemma sim_table s s' t cur fk : sim s (Proc.mk_sys t cur fk) -> m_on s' = m_on s ->
  (forall j, st (m_t s') j = RUNNING <-> st t j = RUNNING) -> sim s' (Proc.mk_sys (m_t s') cur (m_fork s')).
Proof.
  intros (E1 & E2 & E3) Eo Hst. split; [done|]. split; [done|]. intros c. cbn. specialize (E3 c). cbn in E1, E3. subst t. rewrite E3. unfold running. rewrite Eo.
  destruct (m_on s c) as [|j]; [done|]. specialize (Hst j). repeat case_decide; tauto.
Qed.

(** A running process's thread marks itself. *)
Lemma sim_mark s s' c i t cur fk : inv s -> sim s (Proc.mk_sys t cur fk) -> m_on s c = Process i -> m_on s' = m_on s -> m_fork s' = m_fork s ->
  (forall j, j <> i -> st (m_t s') j = RUNNING <-> st t j = RUNNING) -> st (m_t s') i <> RUNNING ->
  sim s' (Proc.mk_sys (m_t s') (fset cur c None) fk).
Proof.
  intros [_ Ok] (E1 & E2 & E3) Hon Eo Ef Hst Hi. cbn in E1, E2, E3. subst t fk. split; [done|]. split; [done|]. intros c'. unfold running, fset. cbn. rewrite Eo.
  destruct (decide (c' = c)) as [->|Hc]; [by rewrite Hon, decide_False|]. rewrite E3. unfold running. destruct (m_on s c') as [|j] eqn:Ej; [done|].
  assert (j <> i) as Hj by (intros ->; by destruct (Hc (th_one _ Ok _ _ _ Ej Hon))). specialize (Hst j Hj). repeat case_decide; tauto.
Qed.

Lemma wakes_running t t' j : wakes t t' j -> st t' j = RUNNING <-> st t j = RUNNING.
Proof. intros [_ [->|[-> ->]]]; done. Qed.
Lemma upd_running n f t j : (n < length (pt_proc t))%nat -> st t n <> RUNNING -> p_state (f (pr t n)) <> RUNNING ->
  st (upd_proc n f t) j = RUNNING <-> st t j = RUNNING.
Proof. intros Hn H1 H2. unfold st in *. rewrite pr_upd by done. by destruct (decide (j = n)) as [->|]. Qed.

Lemma sim_cur s a c i : inv s -> sim s a -> m_on s c = Process i -> st (m_t s) i = RUNNING -> s_cur a c = Some i.
Proof. intros _ (_ & _ & E) Hon Hst. rewrite E. unfold running. by rewrite Hon, decide_True. Qed.

Section simulation.
Context (s : machine) (a : Proc.sys) (Hi : inv s) (Ta : table_ok a) (Hsim : sim s a).
Notation simulated s' := (exists a', rtc Proc.step a a' /\ sim s' a').

Lemma sim_tabled : tabled s.
Proof using Ta Hsim. exists a. by destruct Hsim as (? & ? & _). Qed.

Lemma sim_client c i s' : m_on s c = Process i -> m_pc s i = PRun -> client c i s s' -> simulated s'.
Proof using Hi Ta Hsim.
  intros Hon Hp Hc. pose proof Hi as [Lk Ok]. destruct (th_on _ Ok _ _ Hon) as (_ & _ & _ & Hst & _). rewrite Hp in Hst; cbn in Hst.
  pose proof (sim_cur s a c i Hi Hsim Hon Hst) as Hcur. pose proof sim_tabled as Ht. destruct a as [t cur fk]. cbn in Hcur.
  pose proof Hsim as (E1 & E2 & _). cbn in E1, E2. subst t fk.
  destruct Hc as [l s' Hl Ha|l Hl|b Hl|Hl|ch lk Hl Hlk Hch Hf|Hl Hf Hw|ch Hl|pid Hl|Hl Hf Hin|j Hl Hf Hw|np t' Hl Hf Hn Ha|np Hf Hpar|np pg nm Hf|np Hl Hf Hpar];
    try (eexists; split; [apply rtc_refl|by apply (sim_quiet s)]).
  - destruct (acquire_spec _ _ _ _ Lk Hl Ha) as (k & -> & _). eexists; split; [apply rtc_refl|by apply (sim_quiet s)].
  - destruct (release_spec _ _ _ Lk Hl) as (k & -> & _). eexists; split; [apply rtc_refl|by apply (sim_quiet s)].
  - eexists; split; [apply rtc_once, st_wakeup|]. apply (sim_table s (set_t _ s) (m_t s) cur (m_fork s)); try done. intros j. apply wakes_running, wakes_wakeup1.
  - eexists; split; [apply rtc_once, st_kill|]. apply (sim_table s (set_t _ s) (m_t s) cur (m_fork s)); try done. intros j. apply wakes_running, wakes_kill.
  - destruct (wakes_exit s i Ht ltac:(by rewrite Hst)) as [Hw Hz]. eexists; split; [by eapply rtc_once, (st_exit c i)|].
    apply (sim_mark s (set_p i _ (set_t _ s)) c i (m_t s) cur (m_fork s)); try done; [|cbn; by rewrite Hz]. intros j Hj. by apply wakes_running, Hw.
  - pose proof (wait_scan_spec i (m_t s)) as Hz. rewrite Hw in Hz. destruct Hz as [_ Hz]. eexists; split; [by eapply rtc_once, (st_reap c i)|].
    apply (sim_table s (set_p j _ (set_t _ s)) (m_t s) cur (m_fork s)); try done. intros q. apply upd_running; [apply st_lt|..]; by rewrite ?Hz.
  - destruct (alloc_slot_Some _ _ _ Ha) as (Hu & Hlt & _ & _ & _ & Epr). eexists; split; [by eapply rtc_once, (st_fork c i)|].
    apply (sim_table s (set_p np _ (set_fork i _ (set_t t' s))) (m_t s) cur (m_fork s)); try done. intros q. unfold st in *. cbn. rewrite Epr.
    destruct (decide (q = np)) as [->|]; [|done]. cbn. by rewrite Hu.
  - destruct (forking s i Ht np Hf) as (He & Hlt & _). eexists; split; [by eapply rtc_once, (st_fork_fail c i)|].
    apply (sim_table s (set_p np _ (set_fork i _ (set_t _ s))) (m_t s) cur (m_fork s)); try done. intros q. apply upd_running; by rewrite ?He.
  - destruct (forking s i Ht np Hf) as (He & Hlt & _). eexists; split; [by eapply rtc_once, (st_fork_copy c i)|].
    apply (sim_table s (set_t _ s) (m_t s) cur (m_fork s)); try done. intros q. apply upd_running; [done|by rewrite He|]. cbn. fold (st (m_t s) np). by rewrite He.
  - destruct (forking s i Ht np Hf) as (He & Hlt & _). eexists; split; [by eapply rtc_once, (st_fork_ready c i)|].
    apply (sim_table s (set_fork i _ (set_t _ s)) (m_t s) cur (m_fork s)); try done. intros q. apply upd_running; by rewrite ?He.
Qed.

Lemma sim_acquire c l s1 i p : l ∉ locks s c -> acquire c l s = Some s1 -> sim (set_p i p s1) a.
Proof using Hi Hsim. intros Hl Ha. destruct Hi as [Lk _]. destruct (acquire_spec _ _ _ _ Lk Hl Ha) as (k & -> & _). by apply (sim_quiet s). Qed.
Lemma sim_release c l i p : l ∈ locks s c -> sim (set_p i p (release c l s)) a.
Proof using Hi Hsim. intros Hl. destruct Hi as [Lk _]. destruct (release_spec _ _ _ Lk Hl) as (k & -> & _). by apply (sim_quiet s). Qed.

Lemma sim_sched c i k : m_on s c = Process i -> m_pc s i = PSched k -> sim (sched c k s) a.
Proof using Hi Hsim.
  intros Hon Hp. destruct (sched_spec s c i k Hi Hon Hp) as [-> Hst]. destruct Hsim as (E1 & E2 & E3). split; [done|]. split; [done|].
  intros c'. rewrite E3. unfold running. cbn. destruct (decide (c' = c)) as [->|Hc]; [by rewrite upd_same, Hon, decide_False|by rewrite upd_other].
Qed.

Lemma sim_kernel c i s' : m_on s c = Process i -> kernel c i s = Some s' -> simulated s'.
Proof using Hi Ta Hsim.
  intros Hon. pose proof Hi as [Lk Ok]. destruct (th_on _ Ok _ _ Hon) as (_ & Hpr & Hl & Hst & Hch & Hask). unfold kernel.
  pose proof Hsim as (E1 & E2 & _).
  assert (forall f j, st (m_t s) i = RUNNING -> pr (upd_proc i f (m_t s)) j = if decide (j = i) then f (pr (m_t s) i) else pr (m_t s) j) as Epr
    by (intros f j Hr; apply pr_upd, st_lt; by rewrite Hr).
  assert (forall s', sim s' a -> simulated s') as Hq by (intros; eexists; by split; [apply rtc_refl|]).
  destruct (m_pc s i) as [| | | | |ch lk|ch lk|ch lk|k|k b|k|lk|lk] eqn:Ep; cbn in Hl, Hst; unfold yield, sleep; rewrite ?Ep; try done.
  - intros [= <-]. apply Hq, sim_release. rewrite Hl. set_solver.
  - destruct (acquire c PTLOCK s) as [s1|] eqn:Ea; [|done]. intros [= <-]. apply Hq, (sim_acquire c PTLOCK); [rewrite Hl; set_solver|done].
  - intros [= <-]. pose proof (sim_cur s a c i Hi Hsim Hon Hst) as Hcur. destruct a as [t cur fk]. cbn in *. subst t fk.
    eexists; split; [by eapply rtc_once, (st_yield c i)|]. apply (sim_mark s (set_p i _ (set_t _ s)) c i (m_t s) cur (m_fork s)); try done.
    + intros j Hj. unfold st, yield_table. cbn. by rewrite Epr, decide_False.
    + unfold st, yield_table. cbn. by rewrite Epr, decide_True.
  - rewrite Hpr. rewrite decide_False by done. destruct (decide (lk <> PTLOCK)) as [Hlk|Hlk].
    + destruct (acquire c PTLOCK s) as [s1|] eqn:Ea; [|done]. intros [= <-]. apply Hq, (sim_acquire c PTLOCK); [rewrite Hl; set_solver|done].
    + intros [= <-]. apply Hq. by apply (sim_quiet s).
  - intros [= <-]. apply Hq, sim_release. destruct Hl as [-> _]. set_solver.
  - intros [= <-]. pose proof (sim_cur s a c i Hi Hsim Hon Hst) as Hcur. destruct a as [t cur fk]. cbn in *. subst t fk. destruct Hask as (Hf & Hw & Hn).
    exists (Proc.mk_sys (sleep_table i ch (m_t s)) (fset cur c None) (m_fork s)). split.
    + apply rtc_once. destruct (decide (lk = PTLOCK)) as [->|Hlk]; [destruct (Hw eq_refl) as [-> ?]; by apply (st_wait c i)|by apply (st_sleep c i), Hn].
    + apply (sim_mark s (set_p i _ (set_t _ s)) c i (m_t s) cur (m_fork s)); try done.
      * intros j Hj. unfold st, sleep_table. cbn. by rewrite Epr, decide_False.
      * unfold st, sleep_table. cbn. by rewrite Epr, decide_True.
  - intros [= <-]. by apply Hq, (sim_sched c i).
  - intros [= <-]. apply Hq. by apply (sim_quiet s).
  - destruct k as [|ch lk|]; [| |done]; intros [= <-]; cbn in Hl.
    + apply Hq, sim_release. rewrite Hl. set_solver.
    + pose proof (sim_cur s a c i Hi Hsim Hon Hst) as Hcur. destruct a as [t cur fk]. cbn in *. subst t fk.
      eexists; split; [by eapply rtc_once, (st_awake c i)|]. apply (sim_table s (set_p i _ (set_t _ s)) (m_t s) cur (m_fork s)); try done.
      intros j. unfold st, awake. cbn. rewrite Epr by done. by destruct (decide (j = i)) as [->|].
  - intros [= <-]. apply Hq, sim_release. rewrite Hl. set_solver.
  - destruct (acquire c lk s) as [s1|] eqn:Ea; [|done]. intros [= <-]. apply Hq, (sim_acquire c lk); [rewrite Hl; set_solver|done].
Qed.

Lemma sim_scheduler c s' : m_on s c = Scheduler -> scheduler c s = Some s' -> simulated s'.
Proof using Hi Ta Hsim.
  intros Hon. pose proof Hi as [Lk Ok]. pose proof (th_sch _ Ok c Hon) as Hs. unfold sch_ok in Hs. unfold scheduler.
  assert (forall s', sim s' a -> simulated s') as Hq by (intros; eexists; by split; [apply rtc_refl|]).
  destruct (m_sch s c) as [| |n|n] eqn:Es; destruct Hs as [Hp Hl].
  - intros [= <-]. apply Hq. by apply (sim_quiet s).
  - destruct (acquire c PTLOCK s) as [s1|] eqn:Ea; [|done]. intros [= <-].
    destruct (acquire_spec s s1 c PTLOCK Lk ltac:(rewrite Hl; set_solver) Ea) as (k & -> & _). apply Hq. by apply (sim_quiet s).
  - destruct (Z.ltb_spec (Z.of_nat n) NPROC); [destruct (dispatch n (m_t s)) as [t'|] eqn:Ed|]; intros [= <-].
    + pose proof Hsim as (E1 & E2 & E3). destruct a as [t cur fk]. cbn in *. subst t fk. exists (Proc.mk_sys t' (fset cur c (Some n)) (m_fork s)). split.
      * apply rtc_once, st_run; [|done]. rewrite E3. unfold running. by rewrite Hon.
      * unfold dispatch in Ed. destruct (decide (st (m_t s) n = RUNNABLE)) as [Hst|]; [|done]. injection Ed as <-.
        assert (n < length (pt_proc (m_t s)))%nat as Hlt by (apply st_lt; by rewrite Hst).
        split; [done|]. split; [done|]. intros c'. unfold running, fset, st. cbn. destruct (decide (c' = c)) as [->|Hc]; [rewrite upd_same, pr_upd by done; by destruct (decide (n = n))|].
        rewrite upd_other by done. rewrite E3. unfold running. destruct (m_on s c') as [|j] eqn:Ej; [done|]. rewrite pr_upd by done. destruct (decide (j = n)) as [->|]; [|done].
        destruct (other_running s c c' n Hi ltac:(rewrite Hl; set_solver) Hc Ej). congruence.
    + apply Hq. by apply (sim_quiet s).
    + destruct (release_spec s c PTLOCK Lk ltac:(rewrite Hl; set_solver)) as (k & -> & _). apply Hq. by apply (sim_quiet s).
  - intros [= <-]. apply Hq. by apply (sim_quiet s).
Qed.
End simulation.

Lemma inv_interrupt s ch : inv s -> sl_locked (m_lock s PTLOCK) = false -> inv (set_t (wakeup1 ch (m_t s)) s).
Proof.
  intros [Lk Ok] Hfree. split; [by destruct Lk; split|].
  assert (forall c, PTLOCK ∉ locks s c) as Hno by (intros c Hc%(lk_held _ Lk); by rewrite Hc in Hfree).
  split; [apply (th_sch _ Ok)| |apply (th_one _ Ok)|].
  - intros c i Hon. apply (same_on s); [done|done| |by apply (th_on _ Ok)]. destruct (th_on _ Ok _ _ Hon) as (_ & _ & Hl & Hst & _).
    destruct (wakes_wakeup1 ch (m_t s) i) as [Ec Es]. split_and!; try done; cbn.
    + destruct Es as [|[Es _]]; [done|]. rewrite Es in Hst. specialize (Hno c). destruct (m_pc s i) as [| | | | | | | |[]| | | |]; try done; cbn in Hl; rewrite Hl in Hno; set_solver.
    + intros _ Hc. by apply Hno in Hc.
  - intros i Hi. apply (off_wakes s); [apply wakes_wakeup1|done|by apply (th_off _ Ok)].
Qed.

Lemma inv_preempt s c i r : inv s -> m_on s c = Process i -> c_if (m_cpu s c) = true -> m_pc s i = resume r -> inv (set_p i (PYield r) s).
Proof.
  intros Hi Hon Hif Hp. pose proof Hi as [Lk Ok]. destruct (th_on _ Ok _ _ Hon) as (_ & _ & _ & Hst & _). rewrite Hp in Hst.
  apply (inv_set_p s c); try done; [by destruct r|]. by apply (lk_cpu _ Lk c).
Qed.

Definition good (s : machine) : Prop := inv s /\ exists a, Proc.reachable a /\ sim s a.

Lemma good_step s s' c : good s -> step c s s' -> good s'.
Proof.
  intros [Hi (a & Ra & Hs)] St. pose proof (ok_reachable _ Ra) as Ta. pose proof (sim_tabled s a Ta Hs) as Ht.
  assert (inv s' /\ exists a', rtc Proc.step a a' /\ sim s' a') as (Hi' & a' & Ha & Hs').
  { destruct St as [s' Hon E|i s' Hon E|i s' Hon Hp E|ch Hif Hl|i r Hon Hif Hp].
    - split; [by eapply inv_scheduler|by eapply sim_scheduler].
    - split; [by eapply inv_kernel|by eapply sim_kernel].
    - split; [by eapply (inv_client s c i)|by eapply sim_client].
    - split; [by apply inv_interrupt|]. destruct a as [t cur fk]. pose proof Hs as (E1 & E2 & _). cbn in E1, E2. subst t fk.
      eexists; split; [apply rtc_once, st_wakeup|]. apply (sim_table s (set_t _ s) (m_t s) cur (m_fork s)); try done. intros j. apply wakes_running, wakes_wakeup1.
    - split; [by apply (inv_preempt s c)|]. exists a. split; [apply rtc_refl|by apply (sim_quiet s)]. }
  split; [done|]. exists a'. split; [|done]. unfold Proc.reachable in *. by etrans.
Qed.

Lemma good_start : good start.
Proof.
  split; [split|].
  - split; [done| |by left|]; cbn; [|intros c; split_and!; [constructor|done..]]. intros l c. split; [by intros ?%elem_of_nil|done].
  - split; try done. intros i _. unfold off_ok. cbn. destruct (decide (i = 0%nat)) as [->|Hi]; [by left|].
    assert (st userinit_table i = UNUSED) as ->; [|done]. unfold st, pr. destruct i as [|i]; [done|].
    change (pt_proc userinit_table) with (default no_proc (pt_proc userinit_table !! 0%nat) :: replicate 63 no_proc). cbn [lookup list_lookup].
    destruct (replicate 63 no_proc !! i) eqn:E; [|done]. by apply lookup_replicate in E as [-> _].
  - exists Proc.start. split; [apply rtc_refl|]. done.
Qed.

Lemma good_reachable s : reachable s -> good s.
Proof. apply (rtc_ind_r (fun s => good s)); [apply good_start|]. intros x y _ [c St] Hx. by eapply good_step. Qed.

(** ** Theorems *)

(** With interrupts off, [mycpu] finds the CPU that runs it, and panics only
    if its identifier is not in the table. *)
Lemma mycpu_spec cpus apicid : NoDup cpus ->
  (forall i, mycpu false cpus apicid = inl i <-> cpus !! i = Some apicid) /\
  (mycpu false cpus apicid = inr "unknown apicid\n" <-> apicid ∉ cpus).
Proof.
  intros Hn. unfold mycpu. destruct (list_find _ cpus) as [[k x]|] eqn:E.
  - apply list_find_Some in E as (E & -> & _). split; [|split; [done|]; intros []; by eapply list_elem_of_lookup_2]. intros i.
    split; [by intros [= <-]|]. intros Hi. f_equal. by eapply NoDup_lookup.
  - apply list_find_None in E. assert (apicid ∉ cpus) as Hno by (intros H; by eapply Forall_forall in E). split; [|done]. intros i.
    split; [done|]. intros Hi%list_elem_of_lookup_2. done.
Qed.

(** A thread in [sleep(ch, lk)], from its call to its wakeup *)
Definition in_sleep (p : ppc) (ch : option chan) (lk : nat) : bool :=
  match p with
  | PSleep ch' lk' | PSleepUnlock ch' lk' | PSleepSet ch' lk' | PSched (KSleep ch' lk') | PParked (KSleep ch' lk') _ =>
      bool_decide (ch' = ch /\ lk' = lk)
  | _ => false
  end.

(** C7: The context switches keep the lock discipline, in every interleaving
    of the CPUs.  Nothing panics: not the four checks of [sched], nor
    [acquire], [release], [popcli], [sleep], nor an exited process that comes
    back.  No two CPUs run on one process's kernel stack, and [cpu->proc] is
    the process on whose stack the CPU runs.  A CPU that is on the stack of
    a process that is not RUNNING holds [ptable.lock]; so any other CPU that
    holds the lock finds the context of every RUNNABLE or SLEEPING process
    saved, and the stack of every ZOMBIE out of use and free to be freed.
    Of the code that calls these functions it is assumed ([client]) that it
    takes no lock it holds and releases none it does not hold, yields with
    no lock, sleeps with the one it passes, and that the first process does
    not exit; the clock may preempt a thread wherever interrupts are on. *)
Theorem sched_safe s : reachable s ->
  m_panic s = None /\
  (forall c c' i, m_on s c = Process i -> m_on s c' = Process i -> c = c') /\
  (forall c i, m_on s c = Process i -> m_proc s c = Some i) /\
  (forall c i, m_on s c = Process i -> st (m_t s) i <> RUNNING -> holding c PTLOCK s = true) /\
  (forall c i, holding c PTLOCK s = true -> m_on s c <> Process i ->
     match st (m_t s) i with
     | RUNNABLE => m_pc s i = PForkret \/ exists k b, m_pc s i = PParked k b /\ k <> KExit
     | SLEEPING => exists lk b, m_pc s i = PParked (KSleep (p_chan (pr (m_t s) i)) lk) b
     | ZOMBIE => (exists b, m_pc s i = PParked KExit b) /\ forall c', m_on s c' <> Process i
     | _ => True
     end).
Proof.
  intros [[Lk Ok] _]%good_reachable. pose proof (conj Lk Ok : inv s) as Hi. split; [apply (lk_panic _ Lk)|]. split; [apply (th_one _ Ok)|].
  split; [intros c i Hon; apply (th_on _ Ok _ _ Hon)|].
  assert (forall c i, m_on s c = Process i -> st (m_t s) i <> RUNNING -> PTLOCK ∈ locks s c) as Hpt.
  { intros c i Hon. destruct (th_on _ Ok _ _ Hon) as (_ & _ & Hl & -> & _). destruct (m_pc s i) as [| | | | | | | |[]| | | |]; try done; intros _; rewrite Hl; set_solver. }
  split; [intros c i Hon Hst; apply holding_iff; eauto|]. intros c i Hc%holding_iff Hon; [|done].
  assert (st (m_t s) i <> RUNNING -> off s i) as Hoff.
  { intros Hst c' Hon'. by rewrite (lk_excl s PTLOCK c c' Lk Hc (Hpt _ _ Hon' Hst)) in Hon. }
  destruct (st (m_t s) i) eqn:Est; try done; specialize (Hoff ltac:(done)); pose proof (th_off _ Ok i Hoff) as Ho; unfold off_ok in Ho; rewrite Est in Ho; done.
Qed.

(** C8: The scheduler and its context switches implement the process table of
    Proc.v: every state that the CPUs reach, with [ptable.lock] taken by one
    thread and released by another, has the table, the unfinished forks and
    the running processes of a state that the machine of atomic critical
    sections reaches; so what is proved of that machine holds of this one.
    The calling code keeps the lock discipline of [client], as above. *)
Theorem sched_refines s : reachable s ->
  exists a, Proc.reachable a /\ s_t a = m_t s /\ s_fork a = m_fork s /\ forall c, s_cur a c = running s c.
Proof. by intros [_ H]%good_reachable. Qed.

(** C9: [sleep] misses no wakeup: when a thread that holds [lk] runs
    [wakeup1(ch)], with [ptable.lock] as it must, no process is between the
    call of [sleep(ch, lk)] and its [swtch], and every process in
    [sleep(ch, lk)] is RUNNABLE or RUNNING afterwards. *)
Theorem sleep_no_lost_wakeup s c i ch lk : reachable s -> m_on s c = Process i -> m_pc s i = PRun ->
  PTLOCK ∈ locks s c -> lk ∈ locks s c ->
  forall j, in_sleep (m_pc s j) ch lk = true ->
    (exists b, m_pc s j = PParked (KSleep ch lk) b) /\ (st (wakeup1 ch (m_t s)) j = RUNNABLE \/ st (wakeup1 ch (m_t s)) j = RUNNING).
Proof.
  intros [Hi (a & Ra & Hs)]%good_reachable Hon Hp Hpt Hlk j Hj. pose proof Hi as [Lk Ok].
  assert (st (m_t s) j <> RUNNING -> off s j) as Hoff by (intros; by apply (off_by_state s c i)).
  assert (st (m_t s) j <> RUNNING -> off_ok s j) as Hok by (intros; by apply (th_off _ Ok), Hoff). unfold off_ok in Hok.
  destruct (wakes_wakeup1 ch (m_t s) j) as [_ Hw].
  destruct (st (m_t s) j) eqn:Est; try specialize (Hok ltac:(done)); cbn in Hok.
  - by rewrite Hok in Hj.
  - by rewrite Hok in Hj.
  - destruct Hok as (lk' & b & Ep). rewrite Ep in *. apply bool_decide_eq_true in Hj as [Ec ->]. rewrite Ec. split; [by eexists|]. left.
    unfold st. rewrite pr_wakeup1. unfold woken. by rewrite decide_True.
  - destruct Hok as [Ep|(k & b & Ep & _)]; rewrite Ep in Hj; [done|]. rewrite Ep. destruct k as [|ch' lk'|]; try done.
    apply bool_decide_eq_true in Hj as [-> ->]. split; [by eexists|]. left. by destruct Hw as [->|[[=] _]].
  - destruct Hs as (Et & _ & Ec). rewrite <-Et in Est. apply (ok_run _ (ok_reachable _ Ra)) in Est as [c' Hc']. rewrite Ec in Hc'. unfold running in Hc'.
    destruct (m_on s c') as [|j'] eqn:Ej; [done|]. case_decide; [|done]. injection Hc' as ->. destruct (th_on _ Ok _ _ Ej) as (_ & _ & Hl & _).
    assert (forall l, l ∈ locks s c -> l ∈ locks s c' -> j = i) as Hx by (intros l H1 H2; rewrite (lk_excl s l c c' Lk H1 H2) in Hon; congruence).
    destruct (m_pc s j) as [| | | | |ch' lk'|ch' lk'|ch' lk'|[|ch' lk'|]|[|ch' lk'|] b| | |] eqn:Ep; try done;
      apply bool_decide_eq_true in Hj as [-> ->]; cbn in Hl; try (split; [by eexists|]; right; by destruct Hw as [->|[[=] _]]); exfalso.
    + assert (j = i) as -> by (apply (Hx lk); [done|rewrite Hl; set_solver]). congruence.
    + assert (j = i) as -> by (apply (Hx PTLOCK); [done|rewrite (proj1 Hl); set_solver]). congruence.
    + assert (j = i) as -> by (apply (Hx PTLOCK); [done|rewrite Hl; set_solver]). congruence.
    + assert (j = i) as -> by (apply (Hx PTLOCK); [done|rewrite Hl; set_solver]). congruence.
  - destruct Hok as [b Ep]. by rewrite Ep in Hj.
Qed.

(** ** A run: the first process forks and sleeps on the clock with lock 5;
    its child takes the lock, then the table's. *)
Definition sch (s : machine) : machine := default s (scheduler 0 s).
Definition ker (i : nat) (s : machine) : machine := default s (kernel 0 i s).
Definition acq (l : nat) (s : machine) : machine := default s (acquire 0 l s).

Lemma run_sch s : m_on s 0%nat = Scheduler -> bool_decide (is_Some (scheduler 0 s)) = true -> reachable s -> reachable (sch s).
Proof. intros Hon [s' E]%bool_decide_eq_true Hr. eapply rtc_r; [done|]. exists 0%nat. apply st_scheduler; [done|]. unfold sch. by rewrite E. Qed.
Lemma run_ker s i : m_on s 0%nat = Process i -> bool_decide (is_Some (kernel 0 i s)) = true -> reachable s -> reachable (ker i s).
Proof. intros Hon [s' E]%bool_decide_eq_true Hr. eapply rtc_r; [done|]. exists 0%nat. apply (st_kernel _ _ i); [done|]. unfold ker. by rewrite E. Qed.
Lemma run_cli s i s' : m_on s 0%nat = Process i -> m_pc s i = PRun -> client 0 i s s' -> reachable s -> reachable s'.
Proof. intros Hon Hp Hc Hr. eapply rtc_r; [done|]. exists 0%nat. by apply (st_client _ _ i). Qed.
Lemma run_acq s i l : m_on s 0%nat = Process i -> m_pc s i = PRun -> bool_decide (l ∉ locks s 0) = true -> bool_decide (is_Some (acquire 0 l s)) = true ->
  reachable s -> reachable (acq l s).
Proof.
  intros Hon Hp Hl%bool_decide_eq_true [s' E]%bool_decide_eq_true. apply (run_cli s i); [done|done|]. apply (k_acquire _ _ _ l); [done|]. unfold acq. by rewrite E.
Qed.
Ltac vm := vm_compute; reflexivity.

Definition demo_forkret : machine := ker 0 (sch (sch (sch start))).
Definition demo_locked : machine := acq PTLOCK demo_forkret.
Definition demo_fork : machine :=
  set_p 1 PForkret (set_fork 0 (Some 1%nat) (set_t (default table0 (snd <$> alloc_slot (m_t demo_locked))) demo_locked)).
Definition demo_copy : machine := set_t (fork_copy 0 1 4096 [99; 0] (m_t demo_fork)) demo_fork.
Definition demo_ready : machine := acq 5 (release 0 PTLOCK (set_fork 0 None (set_t (fork_ready 1 (m_t demo_copy)) demo_copy))).
Definition demo_asleep : machine := sch (ker 0 (ker 0 (ker 0 (ker 0 (set_p 0 (PSleep (Some ChanTicks) 5) demo_ready))))).
Definition demo_child : machine := acq PTLOCK (acq 5 (ker 1 (sch demo_asleep))).

Lemma demo_child_reachable : reachable demo_child.
Proof.
  do 2 (apply (run_acq _ 1); [vm..|]). apply run_ker; [vm..|]. do 2 (apply run_sch; [vm..|]). do 4 (apply run_ker; [vm..|]).
  apply (run_cli demo_ready 0); [vm..|by apply k_sleep; [vm|done|done|vm]|]. apply (run_acq _ 0); [vm..|].
  apply (run_cli (set_fork 0 None (set_t (fork_ready 1 (m_t demo_copy)) demo_copy)) 0); [vm..|apply k_release, (bool_decide_unpack _); vm|].
  apply (run_cli demo_copy 0); [vm..|apply (k_fork_ready _ _ _ 1); [apply (bool_decide_unpack _); vm|vm..]|].
  apply (run_cli demo_fork 0); [vm..|apply k_fork_copy; vm|].
  apply (run_cli demo_locked 0); [vm..|apply k_fork; [apply (bool_decide_unpack _); vm|vm..]|].
  apply (run_acq _ 0); [vm..|]. apply run_ker; [vm..|]. do 3 (apply run_sch; [vm..|]). apply rtc_refl.
Qed.

Lemma sched_safe_witness : reachable demo_child /\ m_panic demo_child = None /\ m_proc demo_child 0%nat = Some 1%nat.
Proof.
  destruct (sched_safe demo_child demo_child_reachable) as (Hp & _ & Hc & _). split_and!; [apply demo_child_reachable|done|apply Hc; vm].
Defined.

Lemma sched_refines_witness : reachable demo_child /\ exists a, Proc.reachable a /\ s_t a = m_t demo_child /\ s_cur a 0%nat = Some 1%nat.
Proof.
  split; [apply demo_child_reachable|]. destruct (sched_refines demo_child demo_child_reachable) as (a & Ha & Et & _ & Ec). exists a.
  split_and!; [done|done|]. rewrite Ec. vm.
Defined.

Lemma sleep_no_lost_wakeup_witness :
  in_sleep (m_pc demo_child 0) (Some ChanTicks) 5 = true /\ st (m_t demo_child) 0 = SLEEPING /\
  st (wakeup1 (Some ChanTicks) (m_t demo_child)) 0 = RUNNABLE.
Proof.
  split; [vm|]. split; [vm|].
  destruct (sleep_no_lost_wakeup demo_child 0 1 (Some ChanTicks) 5 demo_child_reachable ltac:(vm) ltac:(vm) ltac:(apply (bool_decide_unpack _); vm)
    ltac:(apply (bool_decide_unpack _); vm) 0 ltac:(vm)) as [_ [E|E]]; [done|]. vm_compute in E. done.
Defined.
