(* ===== verification/Protect.v ===== *)
(** * Segments, gates and the task state (mmu.h, vm.c, trap.c, x86.h)

  The tables with which the kernel tells the processor who may enter it, and
  where: the segment descriptors of seginit and switchuvm, the gates of
  tvinit, the registers that point at them.  A descriptor is 64 bits; how the
  compiler packs the fields of its structure is [pack], and how the processor
  takes it apart is written down from the processor's manual.

  The theorem: from user mode the kernel is entered only at its vectors, on
  the kernel stack of the running process, and by an [int] instruction only
  at the system-call vector; user code has no access to ports. *)
From S2P Require Import Prelude Params Kalloc.

Notation SEG_KCODE := 1 (only parsing).
Notation SEG_KDATA := 2 (only parsing).
Notation SEG_UCODE := 3 (only parsing).
Notation SEG_UDATA := 4 (only parsing).
Notation SEG_TSS := 5 (only parsing).
Notation NSEGS := 6%nat (only parsing).
Notation DPL_USER := 3 (only parsing).
Notation STA_X := 0x8 (only parsing).
Notation STA_W := 0x2 (only parsing).
Notation STA_R := 0x2 (only parsing).
Notation STS_T32A := 0x9 (only parsing).
Notation STS_IG32 := 0xE (only parsing).
Notation STS_TG32 := 0xF (only parsing).
Notation T_SYSCALL := 64 (only parsing).

(** Bit fields, from the low end: values and widths *)
Fixpoint pack (fs : list (Z * Z)) : Z :=
  match fs with [] => 0 | (v, w) :: fs => v mod 2 ^ w + 2 ^ w * pack fs end.
Definition bits (d i w : Z) : Z := d / 2 ^ i mod 2 ^ w.

(** ** Segment descriptors *)
Record segdesc := mk_segdesc {
  lim_15_0 : Z;
  base_15_0 : Z;
  base_23_16 : Z;
  sd_type : Z;
  sd_s : Z;
  sd_dpl : Z;
  sd_p : Z;
  lim_19_16 : Z;
  sd_avl : Z;
  sd_rsv1 : Z;
  sd_db : Z;
  sd_g : Z;
  base_31_24 : Z;
}.
Definition segdesc_bits (d : segdesc) : Z :=
  pack [(lim_15_0 d, 16); (base_15_0 d, 16); (base_23_16 d, 8); (sd_type d, 4); (sd_s d, 1); (sd_dpl d, 2); (sd_p d, 1);
        (lim_19_16 d, 4); (sd_avl d, 1); (sd_rsv1 d, 1); (sd_db d, 1); (sd_g d, 1); (base_31_24 d, 8)].

Definition SEG (type base lim dpl : Z) : segdesc :=
  mk_segdesc (Z.land (Z.shiftr lim 12) 0xffff) (Z.land (u32 base) 0xffff)
    (Z.land (Z.shiftr (u32 base) 16) 0xff) type 1 dpl 1
    (Z.shiftr (u32 lim) 28) 0 0 1 1 (Z.shiftr (u32 base) 24).
Definition SEG16 (type base lim dpl : Z) : segdesc :=
  mk_segdesc (Z.land lim 0xffff) (Z.land (u32 base) 0xffff)
    (Z.land (Z.shiftr (u32 base) 16) 0xff) type 1 dpl 1
    (Z.shiftr (u32 lim) 16) 0 0 1 0 (Z.shiftr (u32 base) 24).
Definition clear_s (d : segdesc) : segdesc :=
  mk_segdesc (lim_15_0 d) (base_15_0 d) (base_23_16 d) (sd_type d) 0 (sd_dpl d) (sd_p d)
    (lim_19_16 d) (sd_avl d) (sd_rsv1 d) (sd_db d) (sd_g d) (base_31_24 d).

(** ** Gates *)
Record gatedesc := mk_gatedesc {
  off_15_0 : Z;
  gd_cs : Z;
  gd_args : Z;
  gd_rsv1 : Z;
  gd_type : Z;
  gd_s : Z;
  gd_dpl : Z;
  gd_p : Z;
  off_31_16 : Z;
}.
Definition gatedesc_bits (d : gatedesc) : Z :=
  pack [(off_15_0 d, 16); (gd_cs d, 16); (gd_args d, 5); (gd_rsv1 d, 3); (gd_type d, 4); (gd_s d, 1); (gd_dpl d, 2);
        (gd_p d, 1); (off_31_16 d, 16)].
Definition SETGATE (istrap : bool) (sel off d : Z) : gatedesc :=
  mk_gatedesc (Z.land (u32 off) 0xffff) sel 0 0 (if istrap then STS_TG32 else STS_IG32) 0 d 1 (Z.shiftr (u32 off) 16).

(** ** A CPU's tables and registers

    [ts] is the 104 bytes of the task state; the registers [gdtr] and [idtr]
    hold the three halfwords that [lgdt] and [lidt] load. *)
Record tables := mk_tables {
  gdt : list segdesc;
  idt : list gatedesc;
  ts : list Z;
  gdtr : list Z;
  idtr : list Z;
  tr : Z;
  cr3 : Z;
}.

(** The addresses of [c->gdt], [idt] and [c->ts], and the entry points in
    vectors.S *)
Section tables.
Context (gdt_at idt_at ts_at : Z) (vectors : nat -> Z).

Definition pseudo (p size : Z) : list Z := [u16 (size - 1); u16 p; u16 (Z.shiftr p 16)].

Definition seginit (t : tables) : tables :=
  let g := gdt t in
  let g := <[1%nat := SEG (Z.lor STA_X STA_R) 0 0xffffffff 0]> g in
  let g := <[2%nat := SEG STA_W 0 0xffffffff 0]> g in
  let g := <[3%nat := SEG (Z.lor STA_X STA_R) 0 0xffffffff DPL_USER]> g in
  let g := <[4%nat := SEG STA_W 0 0xffffffff DPL_USER]> g in
  mk_tables g (idt t) (ts t) (pseudo gdt_at (8 * Z.of_nat NSEGS)) (idtr t) (tr t) (cr3 t).

Definition tvinit (t : tables) : tables :=
  let i := foldl (fun i n => <[n := SETGATE false (Z.shiftl SEG_KCODE 3) (vectors n) 0]> i) (idt t) (seq 0 256) in
  let i := <[64%nat := SETGATE true (Z.shiftl SEG_KCODE 3) (vectors 64%nat) DPL_USER]> i in
  mk_tables (gdt t) i (ts t) (gdtr t) (idtr t) (tr t) (cr3 t).

Definition idtinit (t : tables) : tables :=
  mk_tables (gdt t) (idt t) (ts t) (gdtr t) (pseudo idt_at (8 * 256)) (tr t) (cr3 t).

(** [switchuvm] of a process; [ss0], [esp0] and [iomb] are at offsets 8, 4 and
    102 of the task state. *)
Definition switchuvm (kstack pgdir : Z) (t : tables) : tables + string :=
  if kstack =? 0 then inr "switchuvm: no kstack" else
  if pgdir =? 0 then inr "switchuvm: no pgdir" else
  let g := <[5%nat := clear_s (SEG16 STS_T32A ts_at (104 - 1) 0)]> (gdt t) in
  let s := wr 2 (ts t) 8 (Z.shiftl SEG_KDATA 3) in
  let s := wr 4 s 4 (u32 (kstack + KSTACKSIZE)) in
  let s := wr 2 s 102 0xFFFF in
  inl (mk_tables g (idt t) s (gdtr t) (idtr t) (Z.shiftl SEG_TSS 3) (V2P pgdir)).

Definition switchkvm (kpgdir : Z) (t : tables) : tables :=
  mk_tables (gdt t) (idt t) (ts t) (gdtr t) (idtr t) (tr t) (V2P kpgdir).

(** ** The processor *)
Record segment := mk_segment {
  sg_base : Z;
  sg_limit : Z;
  sg_type : Z;
  sg_s : Z;
  sg_dpl : Z;
  sg_p : Z;
}.
Definition seg_of (d : Z) : segment :=
  let limit := bits d 0 16 + 2 ^ 16 * bits d 48 4 in
  mk_segment (bits d 16 16 + 2 ^ 16 * bits d 32 8 + 2 ^ 24 * bits d 56 8)
    (if bits d 55 1 =? 1 then 4096 * limit + 4095 else limit) (bits d 40 4) (bits d 44 1) (bits d 45 2) (bits d 47 1).

(** The limit and the base in a table register *)
Definition reg_limit (r : list Z) : Z := default 0 (r !! 0%nat).
Definition reg_base (r : list Z) : Z := default 0 (r !! 1%nat) + 2 ^ 16 * default 0 (r !! 2%nat).

(** The segment that a selector chooses, if it is present *)
Definition select (t : tables) (sel : Z) : option segment :=
  if (bits sel 2 1 =? 0) && (0 <? sel / 8) && (reg_base (gdtr t) =? gdt_at) && (8 * (sel / 8) + 7 <=? reg_limit (gdtr t)) then
    d ← gdt t !! Z.to_nat (sel / 8);
    let g := seg_of (segdesc_bits d) in
    if sg_p g =? 1 then Some g else None
  else None.

(** The task state in use.  (The mark [busy] that [ltr] leaves in the
    descriptor's type is ignored.) *)
Definition task (t : tables) : option (Z * list Z) :=
  g ← select t (tr t);
  if (sg_s g =? 0) && (sg_type g =? STS_T32A) && (sg_base g =? ts_at) then Some (sg_limit g, ts t) else None.

(** Entering the kernel from user mode through gate [n], by an [int]
    instruction if [software], else by an interrupt or an exception: the code
    segment, instruction pointer, stack segment and stack pointer, and whether
    interrupts are turned off.  [None]: the processor refuses, or the code
    segment is a conforming one (bit 2 of its type), in which it would go on
    with the user's privilege and stack. *)
Definition enter (t : tables) (n : nat) (software : bool) : option (Z * Z * Z * Z * bool) :=
  if (reg_base (idtr t) =? idt_at) && (8 * Z.of_nat n + 7 <=? reg_limit (idtr t)) then
    d ← gatedesc_bits <$> idt t !! n;
    let eip := bits d 0 16 + 2 ^ 16 * bits d 48 16 in
    let type := bits d 40 4 in
    if negb ((bits d 47 1 =? 1) && (bits d 44 1 =? 0) && ((type =? STS_IG32) || (type =? STS_TG32))) then None else
    if software && (bits d 45 2 <? 3) then None else
    c ← select t (bits d 16 16);
    if negb ((sg_s c =? 1) && Z.testbit (sg_type c) 3 && negb (Z.testbit (sg_type c) 2) && (sg_dpl c =? 0) && (eip <=? sg_limit c)) then None else
    '(lim, s) ← task t;
    let ss := rd 2 s 8 in
    g ← select t ss;
    if negb ((11 <=? lim) && (sg_s g =? 1) && negb (Z.testbit (sg_type g) 3) && Z.testbit (sg_type g) 1 && (sg_dpl g =? 0)) then None else
    Some (bits d 16 16, eip, ss, rd 4 s 4, type =? STS_IG32)
  else None.

(** Whether code with no I/O privilege may access a port: the bit map of the
    task state begins at the offset kept in its last halfword. *)
Definition port_allowed (t : tables) (port : Z) : bool :=
  match task t with
  | Some (lim, s) =>
      let at_ := rd 2 s 102 + port / 8 in
      (at_ + 1 <=? lim) && negb (Z.testbit (default 255 (s !! Z.to_nat at_)) (port mod 8))
  | None => false
  end.
End tables.

(** ** Lemmas *)
Lemma bits_here v w fs : 0 <= w -> bits (pack ((v, w) :: fs)) 0 w = v mod 2 ^ w.
Proof.
  intros Hw. unfold bits. cbn [pack]. rewrite Z.div_1_r. rewrite Z.mul_comm, Z.mod_add by (apply Z.pow_nonzero; lia).
  apply Z.mod_mod, Z.pow_nonzero; lia.
Qed.
Lemma bits_skip v w fs i k : 0 <= w <= i -> bits (pack ((v, w) :: fs)) i k = bits (pack fs) (i - w) k.
Proof.
  intros Hw. unfold bits. cbn [pack]. f_equal. replace (2 ^ i) with (2 ^ w * 2 ^ (i - w)) by (rewrite <-Z.pow_add_r by lia; f_equal; lia).
  rewrite <-Z.div_div by (try apply Z.pow_nonzero; try apply Z.pow_pos_nonneg; lia). f_equal. rewrite Z.mul_comm, Z.div_add by (apply Z.pow_nonzero; lia).
  rewrite Z.div_small by (apply Z.mod_pos_bound, Z.pow_pos_nonneg; lia). lia.
Qed.

(** The field at bit [i] *)
Fixpoint field_at (fs : list (Z * Z)) (i : Z) : option (Z * Z) :=
  match fs with
  | [] => None
  | (v, w) :: fs => if w <? 0 then None else if i =? 0 then Some (v, w) else if w <=? i then field_at fs (i - w) else None
  end.
Lemma bits_field fs i v w : field_at fs i = Some (v, w) -> bits (pack fs) i w = v mod 2 ^ w.
Proof.
  revert i. induction fs as [|[v' w'] fs IH]; intros i; [done|]. cbn [field_at]. destruct (Z.ltb_spec w' 0); [done|]. destruct (Z.eqb_spec i 0) as [->|].
  - intros [= -> ->]. by apply bits_here.
  - destruct (Z.leb_spec w' i); [|done]. intros E. rewrite bits_skip by lia. by apply IH.
Qed.
Ltac fields := repeat match goal with |- context [bits (pack ?l) ?i ?w] => rewrite (bits_field l i _ w eq_refl) end.

(** The halves and bytes of a word put together again *)
Lemma halves x : Z.land (u32 x) 0xffff mod 2 ^ 16 + 2 ^ 16 * (Z.shiftr (u32 x) 16 mod 2 ^ 16) = u32 x.
Proof.
  change 0xffff with (Z.ones 16). rewrite Z.land_ones, Z.shiftr_div_pow2 by lia. pose proof (u32_range x). Z.div_mod_to_equations. lia.
Qed.
Lemma thirds x : Z.land (u32 x) 0xffff mod 2 ^ 16 + 2 ^ 16 * (Z.land (Z.shiftr (u32 x) 16) 0xff mod 2 ^ 8) + 2 ^ 24 * (Z.shiftr (u32 x) 24 mod 2 ^ 8) = u32 x.
Proof.
  change 0xffff with (Z.ones 16). change 0xff with (Z.ones 8). rewrite !Z.land_ones, !Z.shiftr_div_pow2 by lia. pose proof (u32_range x).
  Z.div_mod_to_equations. lia.
Qed.

Lemma tss_segment ts_at : seg_of (segdesc_bits (clear_s (SEG16 STS_T32A ts_at (104 - 1) 0))) = mk_segment (u32 ts_at) 103 STS_T32A 0 0 1.
Proof. unfold seg_of, segdesc_bits. fields. cbn -[Z.modulo Z.pow Z.mul Z.land]. f_equal; [apply thirds|done..]. Qed.

(** A gate as the processor sees it *)
Lemma gate_fields istrap off dpl : 0 <= dpl < 4 ->
  let d := gatedesc_bits (SETGATE istrap (Z.shiftl SEG_KCODE 3) off dpl) in
  bits d 0 16 + 2 ^ 16 * bits d 48 16 = u32 off /\ bits d 40 4 = (if istrap then STS_TG32 else STS_IG32) /\
  bits d 47 1 = 1 /\ bits d 44 1 = 0 /\ bits d 45 2 = dpl /\ bits d 16 16 = 8.
Proof.
  intros Hd d. unfold d, gatedesc_bits. fields. split_and!; [apply halves|by destruct istrap|done|done|by apply Z.mod_small|done].
Qed.

Lemma pseudo_reg p size : 0 <= p < 2 ^ 32 -> 0 < size <= 2 ^ 16 -> reg_base (pseudo p size) = p /\ reg_limit (pseudo p size) = size - 1.
Proof.
  intros Hp Hs. unfold reg_base, reg_limit, pseudo, u16. cbn. rewrite Z.shiftr_div_pow2 by lia. rewrite (Z.mod_small (size - 1)) by lia. split; [|done].
  change (2 ^ 16) with 65536. Z.div_mod_to_equations. lia.
Qed.

Lemma length_insert_all {A} (f : nat -> A) ns l : length (foldl (fun i n => <[n := f n]> i) l ns) = length l.
Proof. revert l. induction ns as [|n ns IH]; intros l; [done|]. cbn [foldl]. rewrite IH. apply length_insert. Qed.
Lemma insert_all {A} (f : nat -> A) l k n : (k <= length l)%nat -> (n < k)%nat ->
  foldl (fun i n => <[n := f n]> i) l (seq 0 k) !! n = Some (f n).
Proof.
  intros Hk. induction k as [|k IH]; intros Hn; [lia|]. rewrite seq_S, foldl_app. cbn [foldl plus].
  destruct (decide (n = k)) as [->|Hne]; [rewrite list_lookup_insert_eq; [done|]; rewrite length_insert_all; lia|].
  rewrite list_lookup_insert_ne by done. apply IH; lia.
Qed.

(** ** The tables when a process runs *)
Section protection.
Context (gdt_at idt_at ts_at : Z) (vectors : nat -> Z) (t0 : tables) (kstack pgdir : Z).
Hypothesis at_range : 0 <= gdt_at < 2 ^ 32 /\ 0 <= idt_at < 2 ^ 32 /\ 0 <= ts_at < 2 ^ 32.
Hypothesis sizes : length (gdt t0) = NSEGS /\ length (idt t0) = 256%nat /\ length (ts t0) = 104%nat.

Definition set_up : tables := seginit gdt_at (idtinit idt_at (tvinit vectors t0)).
Definition running : tables :=
  mk_tables (<[5%nat := clear_s (SEG16 STS_T32A ts_at (104 - 1) 0)]> (gdt set_up)) (idt set_up)
    (wr 2 (wr 4 (wr 2 (ts t0) 8 (Z.shiftl SEG_KDATA 3)) 4 (u32 (kstack + KSTACKSIZE))) 102 0xFFFF)
    (gdtr set_up) (idtr set_up) (Z.shiftl SEG_TSS 3) (V2P pgdir).

Lemma switchuvm_running : kstack <> 0 -> pgdir <> 0 -> switchuvm ts_at kstack pgdir set_up = inl running.
Proof. intros H1 H2. unfold switchuvm. by rewrite (proj2 (Z.eqb_neq _ _) H1), (proj2 (Z.eqb_neq _ _) H2). Qed.

Lemma select_running k g : (0 < k < 6)%nat -> (seg_of ∘ segdesc_bits) <$> gdt running !! k = Some g -> sg_p g = 1 -> select gdt_at running (8 * Z.of_nat k) = Some g.
Proof using at_range sizes.
  intros Hk Hg Hp. unfold select. assert (bits (8 * Z.of_nat k) 2 1 = 0 /\ 8 * Z.of_nat k / 8 = Z.of_nat k) as [-> ->].
  { unfold bits. split; Z.div_mod_to_equations; lia. }
  destruct (pseudo_reg gdt_at (8 * Z.of_nat NSEGS)) as [Eb El]; [lia|done|]. change (gdtr running) with (pseudo gdt_at (8 * Z.of_nat NSEGS)). rewrite Eb, El.
  rewrite !Z.eqb_refl, (proj2 (Z.ltb_lt _ _)), (proj2 (Z.leb_le _ _)) by lia. cbn [andb Z.eqb]. rewrite Nat2Z.id.
  apply fmap_Some in Hg as (d & -> & ->). change (sg_p (seg_of (segdesc_bits d)) = 1) in Hp. unfold mbind, option_bind. cbv zeta. by rewrite Hp.
Qed.

Lemma gdt_running : exists d, gdt running =
  [d; SEG (Z.lor STA_X STA_R) 0 0xffffffff 0; SEG STA_W 0 0xffffffff 0; SEG (Z.lor STA_X STA_R) 0 0xffffffff DPL_USER;
   SEG STA_W 0 0xffffffff DPL_USER; clear_s (SEG16 STS_T32A ts_at (104 - 1) 0)].
Proof using sizes.
  destruct sizes as [Hg _]. unfold running, set_up, seginit, idtinit, tvinit. cbn [gdt]. destruct (gdt t0) as [|d [|? [|? [|? [|? [|? [|]]]]]]]; try done. by exists d.
Qed.

Lemma kernel_code : select gdt_at running 8 = Some (mk_segment 0 0xffffffff 10 1 0 1).
Proof using at_range sizes. apply (select_running 1); [lia| |done]. destruct gdt_running as [d ->]. done. Qed.
Lemma kernel_data : select gdt_at running 16 = Some (mk_segment 0 0xffffffff 2 1 0 1).
Proof using at_range sizes. apply (select_running 2); [lia| |done]. destruct gdt_running as [d ->]. done. Qed.
Lemma user_segments :
  select gdt_at running 24 = Some (mk_segment 0 0xffffffff 10 1 3 1) /\ select gdt_at running 32 = Some (mk_segment 0 0xffffffff 2 1 3 1).
Proof using at_range sizes. split; [apply (select_running 3)|apply (select_running 4)]; try lia; try done; by destruct gdt_running as [d ->]. Qed.

Lemma task_running : task gdt_at ts_at running = Some (103, ts running).
Proof using at_range sizes.
  unfold task. change (tr running) with (8 * Z.of_nat 5). rewrite (select_running 5 (mk_segment (u32 ts_at) 103 STS_T32A 0 0 1)); [|lia| |done].
  2: { destruct gdt_running as [d ->]. by rewrite <-tss_segment. }
  cbn. rewrite u32_small by lia. by rewrite Z.eqb_refl.
Qed.

Lemma ts_running : rd 2 (ts running) 8 = 16 /\ rd 4 (ts running) 4 = u32 (kstack + KSTACKSIZE) /\ rd 2 (ts running) 102 = 0xFFFF.
Proof using sizes.
  destruct sizes as (_ & _ & Ht). cbn [ts running].
  split_and!; repeat (rewrite rd_wr_disjoint by (rewrite ?length_wr, ?Ht by (rewrite ?length_wr, ?Ht; lia); lia));
    rewrite rd_wr by (rewrite ?length_wr, ?Ht by (rewrite ?length_wr, ?Ht; lia); lia); [done| |done]. apply Z.mod_small, u32_range.
Qed.

Lemma idt_running n : (n < 256)%nat -> idt running !! n = Some (SETGATE (bool_decide (n = 64%nat)) (Z.shiftl SEG_KCODE 3) (vectors n) (if decide (n = 64%nat) then DPL_USER else 0)).
Proof using sizes.
  intros Hn. destruct sizes as (_ & Hi & _). unfold running, set_up, seginit, idtinit, tvinit. cbn [idt].
  destruct (decide (n = 64%nat)) as [->|Hne]; [by rewrite list_lookup_insert_eq by (rewrite length_insert_all; lia)|].
  rewrite list_lookup_insert_ne by done. rewrite (insert_all (fun n => SETGATE false (Z.shiftl SEG_KCODE 3) (vectors n) 0)) by lia. by rewrite bool_decide_eq_false_2.
Qed.

Lemma enter_running n software : enter gdt_at idt_at ts_at running n software =
  if decide ((n < 256)%nat /\ (software = true -> n = 64%nat)) then Some (8, u32 (vectors n), 16, u32 (kstack + KSTACKSIZE), negb (bool_decide (n = 64%nat))) else None.
Proof using at_range sizes.
  unfold enter. destruct (pseudo_reg idt_at (8 * 256)) as [Eb El]; [lia|done|]. change (idtr running) with (pseudo idt_at (8 * 256)). rewrite Eb, El, Z.eqb_refl. cbn [andb].
  destruct (Z.leb_spec (8 * Z.of_nat n + 7) (8 * 256 - 1)) as [Hn|Hn]; [|by rewrite decide_False by lia].
  assert (n < 256)%nat as Hlt by lia. rewrite (idt_running n Hlt). set (gate := SETGATE _ _ _ _).
  destruct (gate_fields (bool_decide (n = 64%nat)) (vectors n) (if decide (n = 64%nat) then DPL_USER else 0)) as (F1 & F2 & F3 & F4 & F5 & F6); [by destruct (decide _)|].
  fold gate in F1, F2, F3, F4, F5, F6. unfold fmap, option_fmap, option_map, mbind, option_bind. cbv zeta. rewrite F1, F2, F3, F4, F5, F6, kernel_code, task_running.
  destruct ts_running as (-> & -> & _). rewrite kernel_data. cbn [sg_s sg_type sg_dpl sg_limit].
  rewrite (proj2 (Z.leb_le (u32 (vectors n)) _)) by (pose proof (u32_range (vectors n)); lia).
  destruct (decide (n = 64%nat)) as [->|Hne].
  - rewrite decide_True by tauto. by destruct software.
  - rewrite bool_decide_eq_false_2 by done. destruct software; [rewrite decide_False by tauto|rewrite decide_True by (split; [done|by intros [=]])]; done.
Qed.

Lemma ports_running port : 0 <= port -> port_allowed gdt_at ts_at running port = false.
Proof using at_range sizes.
  intros Hp. unfold port_allowed. rewrite task_running. destruct ts_running as (_ & _ & ->). cbv zeta.
  rewrite (proj2 (Z.leb_gt _ _)); [done|]. pose proof (Z.div_pos port 8). lia.
Qed.
End protection.

(** C23: The kernel protects itself: with the tables that tvinit, idtinit,
    seginit and switchuvm set up, user code enters the kernel by an [int]
    instruction at the system-call vector only; an interrupt or exception [n]
    enters at vector [n]; either way in the kernel's code segment, on top of
    the kernel stack of the process switched to, with interrupts turned off
    except for system calls.  User code, whose I/O privilege level is 0 (the
    flags that [userinit] gives it), can access no port, runs in segments
    of user privilege, and in the address space of the process. *)
Theorem kernel_entry gdt_at idt_at ts_at vectors t0 kstack pgdir :
  0 <= gdt_at < 2 ^ 32 /\ 0 <= idt_at < 2 ^ 32 /\ 0 <= ts_at < 2 ^ 32 ->
  length (gdt t0) = NSEGS /\ length (idt t0) = 256%nat /\ length (ts t0) = 104%nat ->
  (forall n, (n < 256)%nat -> 0 <= vectors n < 2 ^ 32) -> 0 < kstack < 2 ^ 32 - KSTACKSIZE -> pgdir <> 0 ->
  exists t, switchuvm ts_at kstack pgdir (seginit gdt_at (idtinit idt_at (tvinit vectors t0))) = inl t /\
    (forall n, (n < 256)%nat -> enter gdt_at idt_at ts_at t n false = Some (8, vectors n, 16, kstack + KSTACKSIZE, negb (bool_decide (n = 64%nat)))) /\
    (forall n, enter gdt_at idt_at ts_at t n true =
       if decide (Z.of_nat n = T_SYSCALL) then Some (8, vectors n, 16, kstack + KSTACKSIZE, false) else None) /\
    (forall port, 0 <= port -> port_allowed gdt_at ts_at t port = false) /\
    sg_dpl <$> select gdt_at t (8 * SEG_UCODE) = Some DPL_USER /\ sg_dpl <$> select gdt_at t (8 * SEG_UDATA) = Some DPL_USER /\
    cr3 t = V2P pgdir.
Proof.
  intros Ha Hs Hv Hk Hp. exists (running gdt_at idt_at ts_at vectors t0 kstack pgdir).
  split; [apply switchuvm_running; lia|]. destruct (user_segments gdt_at idt_at ts_at vectors t0 kstack pgdir Ha Hs) as [E3 E4].
  split_and!; [intros n Hn|intros n|intros port Hport; by apply ports_running|change (8 * SEG_UCODE) with 24; by rewrite E3|change (8 * SEG_UDATA) with 32; by rewrite E4|done];
    rewrite enter_running by done; rewrite (u32_small (kstack + _)) by lia.
  - rewrite (u32_small (vectors n)) by auto. by rewrite decide_True.
  - destruct (decide (Z.of_nat n = T_SYSCALL)) as [E|E].
    + assert (n = 64%nat) as -> by lia. rewrite (u32_small (vectors _)) by (apply Hv; lia). by rewrite decide_True by (split; [lia|done]).
    + rewrite decide_False; [done|]. intros [_ H]. specialize (H eq_refl). lia.
Qed.

Definition small_tables : tables :=
  let d := mk_segdesc 0 0 0 0 0 0 0 0 0 0 0 0 0 in
  mk_tables (replicate 6 d) (replicate 256 (mk_gatedesc 0 0 0 0 0 0 0 0 0)) (replicate 104 0) [] [] 0 0.

Lemma kernel_entry_witness : exists t,
  enter 0x80110000 0x80114000 0x80110040 t 64 true = Some (8, 0x80105040, 16, 0x8dfff000, false) /\
  enter 0x80110000 0x80114000 0x80110040 t 14 true = None /\ port_allowed 0x80110000 0x80110040 t 0x1F7 = false.
Proof.
  destruct (kernel_entry 0x80110000 0x80114000 0x80110040 (fun n => 0x80105000 + Z.of_nat n) small_tables 0x8dffe000 0x8dffd000) as (t & _ & _ & H1 & H2 & _);
    [lia|done|lia|lia|lia|]. exists t. split_and!; [apply (H1 64%nat)|apply (H1 14%nat)|by apply H2].
Defined.
